(* ===== verification/_CoqProject ===== *)
-Q . S2P
Prelude.v
Code.v
Mmu.v
Segs.v
Str.v
Spinlock.v
SpinSys.v
Kalloc.v
Vm.v
Uvm.v
Proc.v
Exec.v
Sched.v
SleepSys.v
Store.v
Apic.v
Bio.v
Ide.v
Mp.v
Rtc.v
Loader.v
Log.v
LogCrash.v
Fs.v
Path.v
FileData.v
Inode.v
Dir.v
Pipe.v
File.v
Syscall.v
Args.v
SysFile.v
Descr.v
Image.v
Thread.v
Mutex.v
Trap.v
Console.v
Main.v
ExecFacts.v
MutexSys.v
Tournament.v
TournamentKernel.v
Grep.v
Printf.v
Mkfs.v
Boot.v
Malloc.v
TreeAlloc.v
Sh.v
Progs.v
