(* ===== verification/Prelude.v ===== *)
(** * xv6 with kernel threads: a verification library

    The program is xv6 for x86 extended with several threads per process,
    kernel mutexes for threads, and tournament-tree locks in user space.  This
    library translates its kernel, its boot loader and drivers, the shell, the
    user library and the small user programs into definitions one can run, and proves what makes them correct.

    ** The parts and the files

    At the bottom, Prelude.v (this file) has the type of kernel programs, C
    integers, and lemmas on lists and tables; Code.v functions as trees of
    atomic actions, for code that several processors run at once; Mmu.v the macros of mmu.h and
    memlayout.h, with the segment and gate descriptors, which Segs.v decodes as
    the processor does; Str.v string.c and the string functions of ulib.c.

    Processors and memory: Spinlock.v is spinlock.c with the interrupt flag,
    the nesting count and the locks of every processor, and SpinSys.v the system
    of processors that run acquire and release on a lock, action by action;
    Kalloc.v is kalloc.c,
    the list of free pages threaded through memory; Vm.v is vm.c, the page
    tables as words of that memory, and Uvm.v what allocuvm and deallocuvm do
    to an address space.

    Processes and threads: Proc.v has the data of proc.h, kthread.h and
    kthread_mutex.h and every function of proc.c but the mutexes; Exec.v the
    rules that run its operations; Sched.v sleep, wakeup, kill, yield and the
    scheduler; SleepSys.v the system of processors on which threads run sleep,
    wakeup and yield, action by action; Thread.v the creation of processes and threads, kthread_join and
    kthread_exit; Mutex.v the kthread_mutex functions, and MutexSys.v the
    transition system of threads that call them in any order; Tournament.v is
    tournament_tree.c over an interface of mutexes, which TournamentKernel.v
    implements by those of Mutex.v; TreeAlloc.v allocates the trees on the heap
    of Malloc.v.

    Storage: Store.v has the data of the whole stack, the sleeping locks of
    sleeplock.c, and the rules that run storage operations; Bio.v is bio.c over
    the memory disk of memide.c, with an abstract cache that it refines; Log.v
    is log.c and LogCrash.v its recovery after power failures; Fs.v is fs.c,
    Path.v its splitting of paths, FileData.v the content of files, Inode.v the
    inode cache and the inodes on disk, Dir.v directories; Pipe.v is pipe.c and File.v file.c.
    [File.storage_ext] passes the functions of vm.c, fs.c, log.c and file.c to
    the process code, whose interface to them is the class [Proc.KernelExt].

    Devices and boot: the registers of the devices are fields of the storage
    ([Store.ide] and [Store.devs]).  Apic.v is the interrupt controllers of
    lapic.c, ioapic.c and picirq.c, Rtc.v the clock of lapic.c, Ide.v the disk
    driver ide.c over a controller with two drives, Mp.v the search for
    processors of mp.c.  Loader.v is the boot loader bootmain.c, on a memory of
    bytes and a disk of sectors, and Main.v is main.c, which calls the
    initialisation of every part and starts the other processors.

    System calls: Syscall.v is the part of syscall.c that fetches arguments,
    through the page table the processor uses, and Args.v what it checks;
    SysFile.v is sysfile.c, Descr.v the counting of descriptors; Image.v is
    exec.c and sys_exec, ExecFacts.v what it does to mutexes; Trap.v is
    sysproc.c, the dispatch of system calls and trap.c.  Console.v is
    console.c, kbd.c, uart.c and procdump on the state of the devices (screen
    memory and cursor, bytes sent, codes waiting), which is a field of the
    storage; it implements the class [Fs.Devices], through which the file
    system reaches a device, and, with Ide.v, [Trap.Interrupts], through which
    trap does.

    User programs: Malloc.v is the allocator of umalloc.c, Sh.v the parser and
    the interpreter of sh.c, Grep.v the matcher and the reading loop of grep.c,
    Printf.v the formatted output of printf.c, Progs.v the programs wc, cat,
    echo, ls, ln, mkdir, rm, kill, init and zombie, and the loops of grep.c over
    system calls, against the class [Progs.Sys] of the system calls.  Mkfs.v is mkfs.c, the program
    that builds the disk image on the host; Boot.v takes its image through the
    start of the kernel to a file.

    ** How the code is translated

    A function of the kernel is a program [M S A] that takes the state and
    returns a value of [prog]: the result and the new state ([Done]), a panic
    ([Crash]), a switch to the scheduler with the continuation that runs when
    the thread is resumed ([Switch]), or a loop whose bound is used up
    ([Spin]).  Reading through a null pointer or outside an array, which C
    leaves undefined, is a [Crash].  Between two switches a thread runs without
    interruption; the interleavings of processors are modelled where they
    matter.  The functions of spinlock.c, and sleep, wakeup and yield, are
    written as trees of atomic actions ([Code.kcode]): the function is the run
    of all its actions ([Code.run]), and the relations [SpinSys.lstep] and
    [SleepSys.sstep] interleave the actions of any number of processors.
    MutexSys.v interleaves calls of the mutex functions at their sleeps;
    elsewhere a thread may be resumed in any state the theorem names.

    Machine integers are [Z] with the wrap-around written out ([u8], [s16],
    [u32], [s32]).  The counters of the log and of the inode cache (outstanding,
    ref), signed integers whose overflow C leaves undefined, are [Z] without a
    bound; begin_op keeps the first at most 3.  A pointer to an element of a kernel table is its index; a
    page and what is kept in it are named by the address of the page.  Tables are lists, memory is a finite map
    from addresses to words, the disk one from numbers to blocks.  A buffer in
    user memory is the list of its bytes, which the system call transfers.
    The kernel's own messages are left out where a function only reports with
    them, and so are the delays of devices.

    ** Bounds

    A loop over data takes a fuel that its caller computes from the data and
    that is enough: one more than the number of pages, blocks, directory
    entries or bytes left; the theorems that such a function returns prove it.
    A loop that waits for another thread (sleeping locks, begin_op, pipes,
    wait, kthread_join, sys_sleep, exec) takes the bound [Store.Wait] or an
    argument, and ends in [Spin] beyond it; theorems hold for every bound.
    A loop that polls a device takes the answers of the device from a list in
    the state, and ends in [Spin] when the list is used up: the theorems ask for
    as many answers as the loop takes.  The loops of the programs of Progs.v
    take a bound that exceeds the bytes there are to read.

    ** What the theorems show

    - Locks: mutual exclusion of spin locks under every interleaving of their
      reads and writes.
    - Scheduling: no wakeup is lost in any interleaving of sleep, wakeup and
      yield, the scheduler runs the first thread that
      can run, and the state of a process agrees with its threads.
    - Threads: what creation sets up in every case, and that a join returns
      after the exit of the thread it names.
    - Mutexes: mutual exclusion in every reachable state, hand-over in cyclic
      order, that a thread that was handed a mutex owns it when it returns, and
      that an unlock wakes a waiter.  The tournament tree locks its path in
      order and allocates all its mutexes and memory or none.
    - Memory: the allocator is a stack of pages; mapping, growing and shrinking
      an address space do exactly that, or undo everything.
    - Storage: the buffer cache refines an abstract cache; a transaction is
      atomic whatever crashes happen; a write through the log is on disk when
      it returns; readi and writei read and change exactly the bytes of a file;
      inodes are counted and survive the way to the disk and back; a pipe is a
      bounded queue.
    - System calls: pointer and string arguments are checked without
      wrap-around; descriptors are counted.
    - Console: a character appears at the cursor, whatever scrolls; a typed line
      with its corrections is what a reader gets; what is written is sent.
    - Directories: a name that is linked is found.
    - mkfs: the image holds, as the kernel reads it, exactly the files given,
      and a kernel that boots from it reads each of them by its path.
    - Disk driver: an operation of ide.c, through the queue, the sleep, the
      interrupt and the wakeup, does what the memory disk does at once; requests
      are served in the order of their arrival.
    - Boot: the boot loader places the segments of the kernel in memory; the
      processors of the configuration table are found; after the initialisation
      the interrupt of a device reaches its handler and no other is enabled.
      The date read from the clock is one the clock showed.
    - malloc: in every heap a program can reach, a block handed out has room
      and overlaps no other block in use, and free gives it back.
    - The shell: a printed command is parsed to itself; parsing ends on every
      line with the words of the line as strings; the programs of a command
      run, and the shell waits, with the descriptors that it describes.
    - grep: the matcher decides the language of the pattern, and the loop
      prints the matching lines.  wc counts and cat copies what they read,
      however the reads divide it.  printf: numbers read back as printed.
    - Errors: what the code gets wrong, each as a theorem about a run: the
      panic of a killed thread that waits for a mutex, the unprotected slot of
      allocproc, the index out of bounds in the tournament tree and its use of
      malloc without a test, the mutexes exec loses, the block begin_op promises and the log does not have, the
      line grep drops, the requests whose size wraps in malloc, the table entry
      on which mpinit never ends, and the failed read that ide.c takes for data.

    ** Not modelled

    The assembly files: the start of the processor before bootmain and main
    (bootasm.S, entry.S, entryother.S), the entry and return of traps
    (trapasm.S, vectors.pl), the stubs of the system calls (usys.S, initcode.S),
    and the context switch, which is [Switch].  Devices are their registers as
    the drivers use them: the time an operation takes shows only in the answers
    that a poll gets, and of the keyboard and the serial line the model has the
    codes that wait there and the bytes sent.  usertests.c, sanity.c, forktest.c
    and stressfs.c are tests of the system; what they try on examples is stated
    of the functions themselves.  Mkfs.v starts once the image file is open.  defs.h and user.h are prototypes.  The
    scripts run on the build host. *)
From Stdlib Require Export ZArith Lia ZifyBool.
From stdpp Require Export base list gmap strings numbers functions.

Export list_relations.list.

#[global] Open Scope Z_scope.

(** ** Kernel programs as resumptions

    [prog S A] is the result of running a kernel function on a machine state
    of type [S]: it returns ([Done]), calls [panic] ([Crash]), gives the
    processor to the scheduler through [swtch] ([Switch], with the state it
    leaves behind and the continuation that runs when the scheduler switches
    back), or is still spinning in a loop when the bound chosen for the loop
    is used up ([Spin]). *)
Inductive prog (S A : Type) : Type :=
| Done (a : A) (s : S)
| Crash (msg : string)
| Switch (s : S) (k : S -> prog S A)
| Spin.

Arguments Done {S A} _ _.
Arguments Crash {S A} _.
Arguments Switch {S A} _ _.
Arguments Spin {S A}.

Definition M (S A : Type) : Type := S -> prog S A.

Fixpoint prog_bind {S A B : Type} (p : prog S A) (f : A -> M S B) : prog S B :=
  match p with
  | Done a s => f a s
  | Crash msg => Crash msg
  | Switch s k => Switch s (fun s' => prog_bind (k s') f)
  | Spin => Spin
  end.

Definition ret {S A : Type} (a : A) : M S A := fun s => Done a s.

Definition bind {S A B : Type} (m : M S A) (f : A -> M S B) : M S B :=
  fun s => prog_bind (m s) f.

Definition gets {S A : Type} (f : S -> A) : M S A := fun s => Done (f s) s.

Definition modify {S : Type} (f : S -> S) : M S unit := fun s => Done tt (f s).

Definition panic {S A : Type} (msg : string) : M S A := fun _ => Crash msg.

Definition swtch {S : Type} : M S unit := fun s => Switch s (fun s' => Done tt s').

Definition when {S : Type} (b : bool) (m : M S unit) : M S unit :=
  if b then m else ret tt.

(** Run a component's operation on its part of a larger state. *)
Fixpoint prog_zoom {S T A : Type} (set : T -> S -> S) (get : S -> T) (s : S) (p : prog T A) : prog S A :=
  match p with
  | Done a t => Done a (set t s)
  | Crash msg => Crash msg
  | Switch t k => Switch (set t s) (fun s' => prog_zoom set get s' (k (get s')))
  | Spin => Spin
  end.

Definition zoom {S T A : Type} (get : S -> T) (set : T -> S -> S) (m : M T A) : M S A :=
  fun s => prog_zoom set get s (m (get s)).

Declare Scope kernel_scope.
Delimit Scope kernel_scope with kernel.

Notation "x <~ m ;; k" := (bind m (fun x => k))
  (at level 20, m at level 99, k at level 200) : kernel_scope.
Notation "' pat <~ m ;; k" := (bind m (fun x => match x with pat => k end))
  (at level 20, pat pattern, m at level 99, k at level 200) : kernel_scope.
Notation "m ;;; k" := (bind m (fun _ => k))
  (at level 100, k at level 200, right associativity) : kernel_scope.

#[global] Open Scope kernel_scope.

(** Counted loops [for (i = 0; i < n; i++)] over a table. *)
Fixpoint for_each {S A : Type} (l : list A) (body : A -> M S unit) : M S unit :=
  match l with
  | [] => ret tt
  | a :: l => body a ;;; for_each l body
  end.

(** ** Machine integers *)
Definition u32 (z : Z) : Z := z mod 2 ^ 32.
Definition s32 (z : Z) : Z := (z + 2 ^ 31) mod 2 ^ 32 - 2 ^ 31.
Definition u8 (z : Z) : Z := z mod 256.

(** ** Scanning a table: the index of the first entry that satisfies a test *)
Fixpoint find_idx {A : Type} (f : A -> bool) (l : list A) : option nat :=
  match l with
  | [] => None
  | a :: l => if f a then Some 0%nat else S <$> find_idx f l
  end.

(** ** Partial-correctness predicate over resumptions

    [wp out inn ok p Q]: no run of [p] panics except with a message allowed
    by [ok], every state handed to the scheduler satisfies [out], and when
    the scheduler switches back in states related by [inn] to the one left
    behind, the run ends in [Q]. *)
Fixpoint wp {S A : Type} (out : S -> Prop) (inn : S -> S -> Prop) (ok : string -> Prop)
    (p : prog S A) (Q : A -> S -> Prop) : Prop :=
  match p with
  | Done a s => Q a s
  | Crash msg => ok msg
  | Switch s k => out s /\ forall s', inn s s' -> wp out inn ok (k s') Q
  | Spin => True
  end.

(** A program that reaches neither the scheduler nor a panic nor a spin. *)
Definition runs {S A : Type} (m : M S A) (s : S) (a : A) (s' : S) : Prop := m s = Done a s'.

(** ** Lemmas on the monad *)
Lemma bind_done {S A B} (m : M S A) (f : A -> M S B) s a s' :
  m s = Done a s' -> bind m f s = f a s'.
Proof. unfold bind. now intros ->. Qed.

Lemma bind_modify {S B} (f : S -> S) (k : unit -> M S B) s : bind (modify f) k s = k tt (f s).
Proof. reflexivity. Qed.

Lemma bind_gets {S A B} (f : S -> A) (k : A -> M S B) s : bind (gets f) k s = k (f s) s.
Proof. reflexivity. Qed.

Lemma bind_crash {S A B} (m : M S A) (f : A -> M S B) s msg :
  m s = Crash msg -> bind m f s = Crash msg.
Proof. unfold bind. now intros ->. Qed.

Lemma bind_switch {S A B} (m : M S A) (f : A -> M S B) s s' k :
  m s = Switch s' k -> bind m f s = Switch s' (fun s'' => prog_bind (k s'') f).
Proof. unfold bind. now intros ->. Qed.

Lemma bind_done_inv {S A B} (m : M S A) (f : A -> M S B) s b s' :
  bind m f s = Done b s' -> exists a s1, m s = Done a s1 /\ f a s1 = Done b s'.
Proof. unfold bind. destruct (m s); simpl; intros; try discriminate. eauto. Qed.

Lemma wp_bind {S A B} out inn ok (p : prog S A) (f : A -> M S B) Q :
  wp out inn ok p (fun a s => wp out inn ok (f a s) Q) ->
  wp out inn ok (prog_bind p f) Q.
Proof.
  induction p as [a s|msg|s k IH|]; simpl; intros H; auto.
  destruct H as [Ho Hi]. split; [exact Ho|]. intros s' Hs'. apply IH. now apply Hi.
Qed.

Lemma wp_mono {S A} out inn ok (p : prog S A) (Q Q' : A -> S -> Prop) :
  (forall a s, Q a s -> Q' a s) -> wp out inn ok p Q -> wp out inn ok p Q'.
Proof.
  intros HQ. induction p as [a s|msg|s k IH|]; simpl; intros H; auto.
  destruct H as [Ho Hi]. split; [exact Ho|]. intros s' Hs'. apply IH. now apply Hi.
Qed.

(** ** Equivalence of resumptions

    Two runs that make the same steps whatever states the scheduler gives
    back; coarser than equality, since continuations are functions. *)
Fixpoint peq {S A : Type} (p q : prog S A) : Prop :=
  match p, q with
  | Done a s, Done b t => a = b /\ s = t
  | Crash m, Crash n => m = n
  | Switch s k, Switch t l => s = t /\ forall s', peq (k s') (l s')
  | Spin, Spin => True
  | _, _ => False
  end.
Infix "≃" := peq (at level 70) : kernel_scope.

#[export] Instance peq_equivalence {S A} : Equivalence (@peq S A).
Proof.
  split.
  - intros p. induction p; simpl; auto.
  - intros p. induction p as [a s|m|s k IH|]; intros [b t|n|t l|]; simpl; try tauto; [intuition congruence|congruence|].
    intros [-> H]. split; [done|]. intros s'. now apply IH.
  - intros p. induction p as [a s|m|s k IH|]; intros [b t|n|t l|] [c u|o|u j|]; simpl; try tauto;
      [intuition congruence|congruence|].
    intros [-> H] [-> H']. split; [done|]. intros s'. now eapply IH.
Qed.

Lemma prog_bind_peq {S A B} (p q : prog S A) (f g : A -> M S B) :
  p ≃ q -> (forall a s, f a s ≃ g a s) -> prog_bind p f ≃ prog_bind q g.
Proof.
  revert q. induction p as [a s|m|s k IH|]; intros [b t|n|t l|]; simpl; try tauto.
  - intros [-> ->] H. apply H.
  - intros [-> H] Hf. split; [done|]. intros s'. now apply IH.
Qed.

Lemma bind_peq {S A B} (m : M S A) (f g : A -> M S B) s :
  (forall a s', f a s' ≃ g a s') -> bind m f s ≃ bind m g s.
Proof. intros H. apply prog_bind_peq; [reflexivity|exact H]. Qed.

Lemma bind_assoc {S A B C} (m : M S A) (f : A -> M S B) (g : B -> M S C) s :
  bind (bind m f) g s ≃ bind m (fun a => bind (f a) g) s.
Proof.
  unfold bind. generalize (m s) as p. induction p as [a t|n|t k IH|]; simpl; auto; reflexivity.
Qed.

Lemma peq_done {S A} (p : prog S A) a s : p ≃ Done a s -> p = Done a s.
Proof. destruct p; simpl; try tauto. now intros [-> ->]. Qed.

(** ** Lemmas on integers *)
Lemma u32_range z : 0 <= u32 z < 2 ^ 32.
Proof. unfold u32. apply Z.mod_pos_bound. lia. Qed.

Lemma u32_small z : 0 <= z < 2 ^ 32 -> u32 z = z.
Proof. unfold u32. intros. now apply Z.mod_small. Qed.

Lemma u32_s32 z : u32 (s32 z) = u32 z.
Proof. unfold u32, s32. change (2 ^ 32) with 4294967296. change (2 ^ 31) with 2147483648. Z.to_euclidean_division_equations. lia. Qed.

Lemma s32_small z : - 2 ^ 31 <= z < 2 ^ 31 -> s32 z = z.
Proof. unfold s32. intros. rewrite Z.mod_small; lia. Qed.

(** ** Lemmas on tables *)
Lemma find_idx_Some {A} (f : A -> bool) l i :
  find_idx f l = Some i <->
  (exists a, l !! i = Some a /\ f a = true) /\
  (forall j b, (j < i)%nat -> l !! j = Some b -> f b = false).
Proof.
  revert i. induction l as [|a l IH]; intros i; simpl.
  - split; [discriminate|]. intros [(b & Hb & _) _]. now rewrite lookup_nil in Hb.
  - destruct (f a) eqn:Ef.
    + split.
      * intros [= <-]. split; [exists a; auto|]. intros; lia.
      * intros [(b & Hb & Hf) Hlt]. destruct i; [reflexivity|].
        specialize (Hlt 0%nat a ltac:(lia) eq_refl). congruence.
    + destruct i as [|i]; simpl.
      * split; [destruct (find_idx f l); discriminate|].
        intros [(b & [= ->] & Hf) _]. congruence.
      * split.
        -- intros H. destruct (find_idx f l) as [j|] eqn:Ej; simpl in H; [|discriminate].
           injection H as ->. destruct (proj1 (IH i) eq_refl) as [He Hlt]. split; [exact He|].
           intros [|j'] b Hj Hb; simpl in Hb; [congruence|]. apply (Hlt j'); [lia|done].
        -- intros [He Hlt]. rewrite (proj2 (IH i)); [reflexivity|]. split; [exact He|].
           intros j b Hj Hb. apply (Hlt (S j)); [lia|done].
Qed.

Lemma find_idx_None {A} (f : A -> bool) l :
  find_idx f l = None <-> Forall (fun a => f a = false) l.
Proof.
  induction l as [|a l IH]; simpl; [split; auto|].
  rewrite Forall_cons_iff. destruct (f a); [split; [discriminate|intros [? _]; discriminate]|].
  destruct (find_idx f l); simpl; split; intros H; try discriminate; try tauto.
  destruct H as [_ H]. apply IH in H. discriminate.
Qed.

Lemma find_idx_lt {A} (f : A -> bool) l i : find_idx f l = Some i -> (i < length l)%nat.
Proof. rewrite find_idx_Some. intros [(a & Ha & _) _]. eauto using lookup_lt_Some. Qed.

Lemma find_ext {A} (f g : A -> bool) l : (forall a, f a = g a) -> find f l = find g l.
Proof. intros H. induction l as [|a l IH]; simpl; [done|]. now rewrite H, IH. Qed.

(** ** Reachability *)
Lemma rtc_invariant {A} (R : relation A) (P : A -> Prop) x y :
  (forall a b, P a -> R a b -> P b) -> P x -> rtc R x y -> P y.
Proof. intros Hstep Hx Hr. induction Hr; eauto. Qed.

(** One choice for each element of a list. *)
Lemma list_choice {A B} (P : nat -> B -> Prop) (l : list A) :
  (forall i a, l !! i = Some a -> exists b, P i b) ->
  exists bs, length bs = length l /\ forall i b, bs !! i = Some b -> P i b.
Proof.
  revert P. induction l as [|a l IH]; intros P H; [exists []; split; [done|intros i b; by rewrite lookup_nil]|].
  destruct (H 0%nat a eq_refl) as [b0 H0].
  destruct (IH (fun i => P (S i)) (fun i a' Hi => H (S i) a' Hi)) as (bs & Hlen & Hbs).
  exists (b0 :: bs). split; [simpl; congruence|]. intros [|i] b Hi; [by injection Hi as <-|exact (Hbs i b Hi)].
Qed.

(** ** Automation *)
Create HintDb kernel.
Create Rewrite HintDb kernel.
Create Rewrite HintDb kstate.
#[export] Hint Rewrite @length_insert @length_alter @length_fmap @length_replicate : kernel.
#[export] Hint Resolve u32_range find_idx_lt : kernel.

(** Symbolic execution of one deterministic step of a kernel program. *)
Ltac kstep := unfold bind, ret, gets, modify, panic, when; simpl.

(** Case analysis on the first test the program under execution makes. *)
Ltac ktest :=
  match goal with
  | |- context [if ?b then _ else _] => destruct b eqn:?
  | |- context [match ?x with Some _ => _ | None => _ end] => destruct x eqn:?
  end.
