(* ===== verification/Code.v ===== *)
(** * Code as a tree of atomic actions

    A function that other processors may observe in the middle is given as a
    value of [kcode]: the actions it performs, each of which is one atomic
    program [M S B], and what it does with their results.  [run] executes the
    code without interruption, which is the function as the rest of the
    library uses it; [kstep] performs one action, for the step relations that
    interleave several processors. *)
From S2P Require Import Prelude.

Inductive kcode (S A : Type) : Type :=
| KRet (a : A)
| KAct {B : Type} (act : M S B) (k : B -> kcode S A).

Arguments KRet {S A} _.
Arguments KAct {S A B} _ _.

Declare Scope code_scope.
Delimit Scope code_scope with code.
Bind Scope code_scope with kcode.

Fixpoint kbind {S A B : Type} (c : kcode S A) (f : A -> kcode S B) : kcode S B :=
  match c with
  | KRet a => f a
  | KAct act k => KAct act (fun b => kbind (k b) f)
  end.

Notation "x <~ m ;; k" := (KAct m (fun x => k))
  (at level 20, m at level 99, k at level 200) : code_scope.
Notation "m ;;; k" := (KAct m (fun _ => k))
  (at level 100, k at level 200, right associativity) : code_scope.
Notation "x <-- c ;; k" := (kbind c (fun x => k))
  (at level 20, c at level 99, k at level 200) : code_scope.

Definition kwhen {S : Type} (b : bool) (c : kcode S unit) : kcode S unit := if b then c else KRet tt.

Fixpoint run {S A : Type} (c : kcode S A) : M S A :=
  match c with
  | KRet a => ret a
  | KAct act k => bind act (fun b => run (k b))
  end.

Definition kstep {S A : Type} (c : kcode S A) : M S (kcode S A) :=
  match c with
  | KRet a => ret (KRet a)
  | KAct act k => bind act (fun b => ret (k b))
  end.

(** [run] is the repetition of [kstep]. *)
Lemma run_kstep {S A} (c : kcode S A) (s : S) : run c s ≃ bind (kstep c) run s.
Proof.
  destruct c as [a|B act k]; [reflexivity|]. cbn [run kstep]. symmetry.
  etransitivity; [apply bind_assoc|]. apply bind_peq. intros b s'. reflexivity.
Qed.

Lemma run_kbind {S A B} (c : kcode S A) (f : A -> kcode S B) s :
  run (kbind c f) s ≃ bind (run c) (fun a => run (f a)) s.
Proof.
  revert s. induction c as [a|C act k IH]; intros s; [reflexivity|]. cbn [kbind run]. symmetry.
  etransitivity; [apply bind_assoc|]. apply bind_peq. intros b s'. symmetry. apply IH.
Qed.

(** A first part that returns. *)
Lemma run_kbind_done {S A B} (c : kcode S A) (f : A -> kcode S B) s a s' :
  run c s = Done a s' -> run (kbind c f) s = run (f a) s'.
Proof.
  revert s. induction c as [x|C act k IH]; intros s; cbn [kbind run]; [intros H; by inversion H|].
  unfold bind. destruct (act s) as [b s1| | |]; cbn [prog_bind]; try discriminate. apply IH.
Qed.
