(* ===== verification/Mmu.v ===== *)
(** * Address arithmetic of the memory-management unit (mmu.h, memlayout.h)

    Addresses are 32-bit unsigned integers kept in [Z]; every macro is
    translated with the wrap-around of [uint]. *)
From S2P Require Import Prelude.

Definition PGSIZE : Z := 4096.
Definition NPDENTRIES : Z := 1024.
Definition NPTENTRIES : Z := 1024.
Definition PTXSHIFT : Z := 12.
Definition PDXSHIFT : Z := 22.

Definition EXTMEM : Z := 0x100000.
Definition PHYSTOP : Z := 0xE000000.
Definition DEVSPACE : Z := 0xFE000000.
Definition KERNBASE : Z := 0x80000000.
Definition KERNLINK : Z := KERNBASE + EXTMEM.

Definition V2P (a : Z) : Z := u32 (a - KERNBASE).
Definition P2V (a : Z) : Z := u32 (a + KERNBASE).

Definition PDX (va : Z) : Z := Z.land (Z.shiftr va PDXSHIFT) 0x3FF.
Definition PTX (va : Z) : Z := Z.land (Z.shiftr va PTXSHIFT) 0x3FF.
Definition PGADDR (d t o : Z) : Z :=
  u32 (Z.lor (Z.lor (Z.shiftl d PDXSHIFT) (Z.shiftl t PTXSHIFT)) o).
Definition PGROUNDUP (sz : Z) : Z := Z.land (u32 (sz + PGSIZE - 1)) (u32 (Z.lnot (PGSIZE - 1))).
Definition PGROUNDDOWN (a : Z) : Z := Z.land a (u32 (Z.lnot (PGSIZE - 1))).

Definition PTE_P : Z := 0x001.
Definition PTE_W : Z := 0x002.
Definition PTE_U : Z := 0x004.
Definition PTE_PS : Z := 0x080.
Definition PTE_ADDR (pte : Z) : Z := Z.land pte (u32 (Z.lnot 0xFFF)).
Definition PTE_FLAGS (pte : Z) : Z := Z.land pte 0xFFF.

(** ** Segment and gate descriptors

    A bit field of width [w] keeps the low [w] bits of what is assigned.
    [segword] and [gateword] are the 64 bits of a descriptor in memory, the
    fields from the lowest bit up. *)
Definition SEG_KCODE : Z := 1.
Definition SEG_KDATA : Z := 2.
Definition SEG_UCODE : Z := 3.
Definition SEG_UDATA : Z := 4.
Definition SEG_TSS : Z := 5.
Definition NSEGS : nat := 6%nat.
Definition DPL_USER : Z := 3.
Definition STA_X : Z := 0x8.
Definition STA_W : Z := 0x2.
Definition STA_R : Z := 0x2.
Definition STS_T32A : Z := 0x9.
Definition STS_IG32 : Z := 0xE.
Definition STS_TG32 : Z := 0xF.

Record segdesc := mkSegdesc {
  sd_lim_15_0 : Z;
  sd_base_15_0 : Z;
  sd_base_23_16 : Z;
  sd_type : Z;
  sd_s : Z;
  sd_dpl : Z;
  sd_p : Z;
  sd_lim_19_16 : Z;
  sd_avl : Z;
  sd_rsv1 : Z;
  sd_db : Z;
  sd_g : Z;
  sd_base_31_24 : Z;
}.
Definition segdesc0 : segdesc := mkSegdesc 0 0 0 0 0 0 0 0 0 0 0 0 0.
Definition bits (w v : Z) : Z := v mod 2 ^ w.
Definition SEG (type base lim dpl : Z) : segdesc :=
  mkSegdesc (bits 16 (Z.land (Z.shiftr lim 12) 0xffff)) (bits 16 (Z.land base 0xffff))
    (bits 8 (Z.land (Z.shiftr base 16) 0xff)) (bits 4 type) 1 (bits 2 dpl) 1
    (bits 4 (Z.shiftr lim 28)) 0 0 1 1 (bits 8 (Z.shiftr base 24)).
Definition SEG16 (type base lim dpl : Z) : segdesc :=
  mkSegdesc (bits 16 (Z.land lim 0xffff)) (bits 16 (Z.land base 0xffff))
    (bits 8 (Z.land (Z.shiftr base 16) 0xff)) (bits 4 type) 1 (bits 2 dpl) 1
    (bits 4 (Z.shiftr lim 16)) 0 0 1 0 (bits 8 (Z.shiftr base 24)).
Definition set_sd_s (v : Z) (d : segdesc) : segdesc :=
  mkSegdesc (sd_lim_15_0 d) (sd_base_15_0 d) (sd_base_23_16 d) (sd_type d) (bits 1 v) (sd_dpl d) (sd_p d)
    (sd_lim_19_16 d) (sd_avl d) (sd_rsv1 d) (sd_db d) (sd_g d) (sd_base_31_24 d).
Fixpoint pack (l : list (Z * Z)) : Z :=
  match l with
  | [] => 0
  | (w, v) :: l => v + Z.shiftl (pack l) w
  end.
Definition segfields (d : segdesc) : list (Z * Z) :=
  [(16, sd_lim_15_0 d); (16, sd_base_15_0 d); (8, sd_base_23_16 d); (4, sd_type d); (1, sd_s d); (2, sd_dpl d); (1, sd_p d);
   (4, sd_lim_19_16 d); (1, sd_avl d); (1, sd_rsv1 d); (1, sd_db d); (1, sd_g d); (8, sd_base_31_24 d)].
Definition segword (d : segdesc) : Z := pack (segfields d).

Record gatedesc := mkGate {
  gd_off_15_0 : Z;
  gd_cs : Z;
  gd_args : Z;
  gd_rsv1 : Z;
  gd_type : Z;
  gd_s : Z;
  gd_dpl : Z;
  gd_p : Z;
  gd_off_31_16 : Z;
}.
Definition gatedesc0 : gatedesc := mkGate 0 0 0 0 0 0 0 0 0.
Definition SETGATE (istrap : bool) (sel off d : Z) : gatedesc :=
  mkGate (bits 16 (Z.land off 0xffff)) (bits 16 sel) 0 0 (if istrap then STS_TG32 else STS_IG32) 0 (bits 2 d) 1
    (bits 16 (Z.shiftr off 16)).
Definition gatefields (g : gatedesc) : list (Z * Z) :=
  [(16, gd_off_15_0 g); (16, gd_cs g); (5, gd_args g); (3, gd_rsv1 g); (4, gd_type g); (1, gd_s g); (2, gd_dpl g);
   (1, gd_p g); (16, gd_off_31_16 g)].
Definition gateword (g : gatedesc) : Z := pack (gatefields g).

(** ** Lemmas *)
Lemma land_low_mask z n : 0 <= n -> Z.land z (2 ^ n - 1) = z mod 2 ^ n.
Proof. intros. rewrite <- Z.land_ones by lia. f_equal. rewrite Z.ones_equiv. lia. Qed.

(** Clearing the low twelve bits of a 32-bit word. *)
Lemma land_page_mask z : 0 <= z < 2 ^ 32 -> Z.land z (u32 (Z.lnot 0xFFF)) = 4096 * (z / 4096).
Proof.
  intros Hz. change (u32 (Z.lnot 0xFFF)) with (Z.shiftl (2 ^ 20 - 1) 12).
  rewrite <- (Z.mul_comm (z / 4096)). change 4096 with (2 ^ 12) at 1 2.
  rewrite <- Z.shiftr_div_pow2 by lia. rewrite <- Z.shiftl_mul_pow2 by lia.
  apply Z.bits_inj'. intros k Hk. rewrite Z.land_spec, !Z.shiftl_spec by lia.
  destruct (Z.ltb_spec k 12).
  - rewrite !(Z.testbit_neg_r _ (k - 12)) by lia. now rewrite andb_false_r.
  - rewrite Z.shiftr_spec by lia. replace (k - 12 + 12) with k by lia.
    replace (2 ^ 20 - 1) with (Z.ones 20) by reflexivity.
    destruct (Z.ltb_spec k 32).
    + rewrite Z.ones_spec_low by lia. now rewrite andb_true_r.
    + rewrite Z.ones_spec_high by lia. rewrite andb_false_r. symmetry.
      apply Z.bits_above_log2; [lia|]. destruct (Z.eq_dec z 0) as [->|]; [simpl; lia|].
      apply Z.log2_lt_pow2; [lia|]. apply Z.lt_le_trans with (2 ^ 32); [lia|].
      apply Z.pow_le_mono_r; lia.
Qed.

Lemma PGROUNDDOWN_eq a : 0 <= a < 2 ^ 32 -> PGROUNDDOWN a = 4096 * (a / 4096).
Proof. intros. apply land_page_mask. lia. Qed.

Lemma PGROUNDUP_eq sz : 0 <= sz <= 2 ^ 32 - 4096 -> PGROUNDUP sz = 4096 * ((sz + 4095) / 4096).
Proof.
  intros. unfold PGROUNDUP, PGSIZE. replace (sz + 4096 - 1) with (sz + 4095) by lia.
  rewrite u32_small by lia. apply land_page_mask. lia.
Qed.

Lemma PTE_ADDR_eq pte : 0 <= pte < 2 ^ 32 -> PTE_ADDR pte = 4096 * (pte / 4096).
Proof. intros. apply land_page_mask. lia. Qed.

Lemma PTE_FLAGS_eq pte : PTE_FLAGS pte = pte mod 4096.
Proof. apply (land_low_mask pte 12). lia. Qed.

Lemma PDX_eq va : 0 <= va < 2 ^ 32 -> PDX va = va / 2 ^ 22.
Proof.
  intros. unfold PDX, PDXSHIFT. rewrite Z.shiftr_div_pow2 by lia.
  change 0x3FF with (2 ^ 10 - 1). rewrite land_low_mask by lia. apply Z.mod_small.
  split; [apply Z.div_pos; lia|]. apply Z.div_lt_upper_bound; lia.
Qed.

Lemma PTX_eq va : PTX va = (va / 2 ^ 12) mod 2 ^ 10.
Proof.
  unfold PTX, PTXSHIFT. rewrite Z.shiftr_div_pow2 by lia.
  change 0x3FF with (2 ^ 10 - 1). now rewrite land_low_mask by lia.
Qed.

(** Disjoint bit fields: [lor] is addition. *)
Lemma lor_disjoint_add hi lo n : 0 <= n -> 0 <= lo < 2 ^ n -> Z.lor (hi * 2 ^ n) lo = hi * 2 ^ n + lo.
Proof.
  intros Hn Hlo. rewrite <- Z.add_lor_land.
  assert (Z.land (hi * 2 ^ n) lo = 0) as ->; [|lia].
  apply Z.bits_inj'. intros k Hk. rewrite Z.land_spec, Z.bits_0.
  destruct (Z.ltb_spec k n).
  - rewrite Z.mul_pow2_bits_low by lia. reflexivity.
  - destruct (Z.eq_dec lo 0) as [->|]; [rewrite Z.bits_0; apply andb_false_r|].
    rewrite (Z.bits_above_log2 lo); [apply andb_false_r|lia|].
    apply Z.log2_lt_pow2; [lia|]. apply Z.lt_le_trans with (2 ^ n); [lia|].
    apply Z.pow_le_mono_r; lia.
Qed.

Lemma PGADDR_eq d t o :
  0 <= d < 2 ^ 10 -> 0 <= t < 2 ^ 10 -> 0 <= o < 2 ^ 12 ->
  PGADDR d t o = d * 2 ^ 22 + t * 2 ^ 12 + o.
Proof.
  intros Hd Ht Ho. unfold PGADDR, PDXSHIFT, PTXSHIFT. rewrite !Z.shiftl_mul_pow2 by lia.
  rewrite (lor_disjoint_add d (t * 2 ^ 12) 22) by lia.
  replace (d * 2 ^ 22 + t * 2 ^ 12) with ((d * 2 ^ 10 + t) * 2 ^ 12) by lia.
  rewrite lor_disjoint_add by lia. rewrite u32_small by lia. lia.
Qed.

(** The three-part structure of a virtual address: [PGADDR] of its
    directory index, table index and page offset is the address, and the
    parts of a composed address are the ones it was composed from. *)
Theorem PGADDR_roundtrip :
  (forall va, 0 <= va < 2 ^ 32 -> PGADDR (PDX va) (PTX va) (PTE_FLAGS va) = va) /\
  (forall d t o, 0 <= d < 2 ^ 10 -> 0 <= t < 2 ^ 10 -> 0 <= o < 2 ^ 12 ->
     PDX (PGADDR d t o) = d /\ PTX (PGADDR d t o) = t /\ PTE_FLAGS (PGADDR d t o) = o).
Proof.
  split.
  - intros va Hva. rewrite PDX_eq, PTX_eq, PTE_FLAGS_eq by done.
    rewrite PGADDR_eq; Z.div_mod_to_equations; lia.
  - intros d t o Hd Ht Ho. rewrite PGADDR_eq by done.
    rewrite PDX_eq, PTX_eq, PTE_FLAGS_eq by lia. Z.div_mod_to_equations; lia.
Qed.

(** Page rounding: [PGROUNDDOWN] and [PGROUNDUP] give the nearest page
    boundaries below and above, a page table entry splits into its page
    address and flags, and the kernel's direct map is a bijection. *)
Theorem page_rounding (a : Z) :
  0 <= a <= 2 ^ 32 - 4096 ->
  PGROUNDDOWN a mod PGSIZE = 0 /\ PGROUNDDOWN a <= a < PGROUNDDOWN a + PGSIZE /\
  PGROUNDUP a mod PGSIZE = 0 /\ a <= PGROUNDUP a < a + PGSIZE /\
  PTE_ADDR a + PTE_FLAGS a = a /\ PTE_ADDR a = PGROUNDDOWN a /\
  V2P (P2V a) = a /\ P2V (V2P a) = a.
Proof.
  intros Ha. rewrite PGROUNDDOWN_eq, PGROUNDUP_eq, PTE_ADDR_eq, PTE_FLAGS_eq by lia.
  unfold PGSIZE, V2P, P2V, u32, KERNBASE. Z.div_mod_to_equations; lia.
Qed.

Lemma page_rounding_witness :
  PGROUNDUP 0x80112345 = 0x80113000 /\ PGROUNDDOWN 0x80112345 mod PGSIZE = 0.
Proof.
  destruct (page_rounding 0x80112345) as (H & _); [lia|]. split; [reflexivity|exact H].
Defined.
