(* ===== verification/Segs.v ===== *)
(** * What the processor reads from a descriptor (mmu.h)

    The words that [SEG], [SEG16] and [SETGATE] build, taken apart again the
    way the processor does it: [decode_seg] and [decode_gate] read the bits of
    the 64-bit word at the positions of the architecture manual. *)
From S2P Require Import Prelude Mmu.

(** [w] bits of [z] from bit [o] on. *)
Definition field (o w z : Z) : Z := (z / 2 ^ o) mod 2 ^ w.

Fixpoint widths (l : list (Z * Z)) : Z := match l with [] => 0 | (w, _) :: l => w + widths l end.
Definition fits (f : Z * Z) : Prop := 0 <= f.1 /\ 0 <= f.2 < 2 ^ f.1.

Lemma widths_nonneg l : Forall fits l -> 0 <= widths l.
Proof. induction 1 as [|[w v] l [H _] _ IH]; cbn in *; lia. Qed.

Lemma pack_nonneg l : Forall fits l -> 0 <= pack l.
Proof.
  induction 1 as [|[w v] l [H1 H2] _ IH]; [done|]. cbn [pack fst snd] in *. rewrite Z.shiftl_mul_pow2 by lia.
  pose proof (Z.pow_nonneg 2 w). nia.
Qed.

(** A field that was packed is found at its place. *)
Lemma field_pack l1 w v l2 : Forall fits (l1 ++ (w, v) :: l2) -> field (widths l1) w (pack (l1 ++ (w, v) :: l2)) = v.
Proof.
  induction l1 as [|[w1 v1] l1 IH]; intros Hf; cbn [app widths pack] in *.
  - apply Forall_cons in Hf as [[H1 H2] _]. cbn [fst snd] in *. unfold field. rewrite Z.pow_0_r, Z.div_1_r, Z.shiftl_mul_pow2 by lia.
    rewrite Z.mod_add by lia. now apply Z.mod_small.
  - apply Forall_cons in Hf as [[H1 H2] Hf]. cbn [fst snd] in *. etransitivity; [|exact (IH Hf)]. unfold field. rewrite Z.shiftl_mul_pow2 by lia.
    assert (0 <= widths l1) by (apply widths_nonneg; now apply Forall_app in Hf). rewrite Z.pow_add_r, <- Z.div_div by lia.
    do 2 f_equal. rewrite Z.div_add by lia. rewrite (Z.div_small v1) by lia. done.
Qed.

Lemma field_at l n w v : Forall fits l -> l !! n = Some (w, v) -> field (widths (take n l)) w (pack l) = v.
Proof. intros Hf Hn. apply take_drop_middle in Hn as Hs. rewrite <- Hs at 2. apply field_pack. now rewrite Hs. Qed.

Lemma bits_range w v : 0 <= w -> 0 <= bits w v < 2 ^ w.
Proof. intros H. apply Z.mod_pos_bound. now apply Z.pow_pos_nonneg. Qed.

(** ** Segments *)
Record segview := mkSegview { sv_base : Z; sv_limit : Z; sv_type : Z; sv_s : Z; sv_dpl : Z; sv_present : Z }.
Definition decode_seg (d : Z) : segview :=
  let lim := field 0 16 d + 65536 * field 48 4 d in
  mkSegview (field 16 16 d + 65536 * field 32 8 d + 16777216 * field 56 8 d)
    (if field 55 1 d =? 1 then 4096 * lim + 4095 else lim) (field 40 4 d) (field 44 1 d) (field 45 2 d) (field 47 1 d).

Definition segdesc_ok (d : segdesc) : Prop := Forall fits (segfields d).

Lemma decode_segword d : segdesc_ok d ->
  decode_seg (segword d) = let lim := sd_lim_15_0 d + 65536 * sd_lim_19_16 d in
    mkSegview (sd_base_15_0 d + 65536 * sd_base_23_16 d + 16777216 * sd_base_31_24 d)
      (if sd_g d =? 1 then 4096 * lim + 4095 else lim) (sd_type d) (sd_s d) (sd_dpl d) (sd_p d).
Proof.
  intros H. unfold segdesc_ok in H.
  assert (F : forall o n w v, segfields d !! n = Some (w, v) -> widths (take n (segfields d)) = o -> field o w (segword d) = v)
    by (intros o n w v Hn <-; now apply field_at).
  unfold decode_seg.
  rewrite (F 0 0%nat 16 _ eq_refl eq_refl), (F 48 7%nat 4 _ eq_refl eq_refl), (F 16 1%nat 16 _ eq_refl eq_refl), (F 32 2%nat 8 _ eq_refl eq_refl), (F 56 12%nat 8 _ eq_refl eq_refl).
  now rewrite (F 55 11%nat 1 _ eq_refl eq_refl), (F 40 3%nat 4 _ eq_refl eq_refl), (F 44 4%nat 1 _ eq_refl eq_refl), (F 45 5%nat 2 _ eq_refl eq_refl), (F 47 6%nat 1 _ eq_refl eq_refl).
Qed.

(** Descriptors built by [SEG] and [SEG16] are well formed. *)
Lemma seg_fields_ok a b c t s dp l g e : s = 0 \/ s = 1 -> g = 0 \/ g = 1 ->
  segdesc_ok (mkSegdesc (bits 16 a) (bits 16 b) (bits 8 c) (bits 4 t) s (bits 2 dp) 1 (bits 4 l) 0 0 1 g (bits 8 e)).
Proof. intros Hs Hg. unfold segdesc_ok, segfields. cbn. repeat constructor; cbn; try lia; try apply bits_range; lia. Qed.

(** The parts of a 32-bit number that the macros select. *)
Lemma bits_small w v : 0 <= v < 2 ^ w -> bits w v = v.
Proof. intros H. now apply Z.mod_small. Qed.

Lemma bits_land w v : 0 <= w -> bits w (Z.land v (Z.ones w)) = v mod 2 ^ w.
Proof. intros H. unfold bits. rewrite Z.land_ones by lia. apply Z.mod_mod. lia. Qed.

Lemma split_base b : 0 <= b < 2 ^ 32 ->
  bits 16 (Z.land b 0xffff) + 65536 * bits 8 (Z.land (Z.shiftr b 16) 0xff) + 16777216 * bits 8 (Z.shiftr b 24) = b.
Proof.
  intros H. rewrite (bits_land 16), (bits_land 8) by lia. unfold bits. rewrite !Z.shiftr_div_pow2 by lia.
  change (2 ^ 32) with 4294967296 in H. change (2 ^ 16) with 65536. change (2 ^ 8) with 256. change (2 ^ 24) with 16777216.
  Z.to_euclidean_division_equations. lia.
Qed.

Lemma SEG_decode type base lim dpl : 0 <= type < 16 -> 0 <= base < 2 ^ 32 -> 0 <= lim < 2 ^ 32 -> 0 <= dpl < 4 ->
  decode_seg (segword (SEG type base lim dpl)) = mkSegview base (4096 * (lim / 4096) + 4095) type 1 dpl 1.
Proof.
  intros Ht Hb Hl Hd. unfold SEG. rewrite decode_segword by (apply seg_fields_ok; auto). cbn [sd_base_15_0 sd_base_23_16 sd_base_31_24 sd_g sd_type sd_s sd_dpl sd_p sd_lim_15_0 sd_lim_19_16].
  rewrite split_base, (bits_small 4 type), (bits_small 2 dpl) by done. cbv zeta. cbn [Z.eqb Pos.eqb]. f_equal.
  rewrite (bits_land 16) by lia. unfold bits. rewrite !Z.shiftr_div_pow2 by lia.
  change (2 ^ 32) with 4294967296 in Hl. change (2 ^ 12) with 4096. change (2 ^ 16) with 65536. change (2 ^ 28) with 268435456. change (2 ^ 4) with 16.
  Z.to_euclidean_division_equations. lia.
Qed.

Lemma SEG16_decode type base lim dpl : 0 <= type < 16 -> 0 <= base < 2 ^ 32 -> 0 <= lim < 2 ^ 20 -> 0 <= dpl < 4 ->
  decode_seg (segword (set_sd_s 0 (SEG16 type base lim dpl))) = mkSegview base lim type 0 dpl 1.
Proof.
  intros Ht Hb Hl Hd. unfold SEG16, set_sd_s. rewrite decode_segword by (apply seg_fields_ok; auto). cbn [sd_base_15_0 sd_base_23_16 sd_base_31_24 sd_g sd_type sd_s sd_dpl sd_p sd_lim_15_0 sd_lim_19_16].
  rewrite split_base, (bits_small 4 type), (bits_small 2 dpl) by done. cbv zeta. cbn [Z.eqb]. f_equal.
  rewrite (bits_land 16) by lia. unfold bits. rewrite !Z.shiftr_div_pow2 by lia.
  change (2 ^ 20) with 1048576 in Hl. change (2 ^ 16) with 65536. change (2 ^ 4) with 16.
  Z.to_euclidean_division_equations. lia.
Qed.

(** ** Gates *)
Record gate_view := mkGateView { gv_selector : Z; gv_offset : Z; gv_type : Z; gv_dpl : Z; gv_present : Z }.
Definition decode_gate (d : Z) : gate_view :=
  mkGateView (field 16 16 d) (field 0 16 d + 65536 * field 48 16 d) (field 40 4 d) (field 45 2 d) (field 47 1 d).

Lemma SETGATE_decode istrap sel off d : 0 <= sel < 2 ^ 16 -> 0 <= off < 2 ^ 32 -> 0 <= d < 4 ->
  decode_gate (gateword (SETGATE istrap sel off d)) = mkGateView sel off (if istrap then STS_TG32 else STS_IG32) d 1.
Proof.
  intros Hs Ho Hd. set (g := SETGATE istrap sel off d).
  assert (H : Forall fits (gatefields g)) by (unfold g, gatefields, SETGATE, STS_TG32, STS_IG32; destruct istrap; cbn; repeat constructor; cbn; try apply bits_range; lia).
  assert (F : forall o n w v, gatefields g !! n = Some (w, v) -> widths (take n (gatefields g)) = o -> field o w (gateword g) = v)
    by (intros o n w v Hn <-; now apply field_at).
  unfold decode_gate. rewrite (F 16 1%nat 16 _ eq_refl eq_refl), (F 0 0%nat 16 _ eq_refl eq_refl), (F 48 8%nat 16 _ eq_refl eq_refl).
  rewrite (F 40 4%nat 4 _ eq_refl eq_refl), (F 45 6%nat 2 _ eq_refl eq_refl), (F 47 7%nat 1 _ eq_refl eq_refl). unfold g. cbn [gd_cs gd_off_15_0 gd_off_31_16 gd_type gd_dpl gd_p SETGATE].
  rewrite (bits_small 16 sel), (bits_small 2 d), (bits_land 16) by (done || lia). f_equal. unfold bits. rewrite Z.shiftr_div_pow2 by lia.
  change (2 ^ 32) with 4294967296 in Ho. change (2 ^ 16) with 65536. Z.to_euclidean_division_equations. lia.
Qed.
