(* ===== verification/Str.v ===== *)
(** * String and memory routines (string.c, ulib.c)

    The block routines work on byte memory, a function from addresses to
    bytes, because their arguments may overlap.  The string routines work on
    separate C arrays, lists of bytes read from index 0; a read past the end
    of an array gives 0, and the theorems about a routine assume its
    terminator is inside the array. *)
From S2P Require Import Prelude.

(** ** Block routines *)
Definition mem := Z -> Z.
Definition st (m : mem) (a v : Z) : mem := fun b => if b =? a then v else m b.

(** [stosb], [stosl] (x86.h). *)
Fixpoint stosb (m : mem) (addr data : Z) (cnt : nat) : mem :=
  match cnt with
  | O => m
  | S cnt => stosb (st m addr (u8 data)) (addr + 1) data cnt
  end.
Definition st32 (m : mem) (a w : Z) : mem :=
  st (st (st (st m a (u8 w)) (a + 1) (u8 (Z.shiftr w 8))) (a + 2) (u8 (Z.shiftr w 16)))
     (a + 3) (u8 (Z.shiftr w 24)).
Fixpoint stosl (m : mem) (addr data : Z) (cnt : nat) : mem :=
  match cnt with
  | O => m
  | S cnt => stosl (st32 m addr data) (addr + 4) data cnt
  end.

Definition memset (m : mem) (dst c n : Z) : mem :=
  if (dst mod 4 =? 0) && (n mod 4 =? 0) then
    let c := Z.land c 0xFF in
    stosl m dst (Z.lor (Z.lor (Z.lor (Z.shiftl c 24) (Z.shiftl c 16)) (Z.shiftl c 8)) c)
      (Z.to_nat (n / 4))
  else stosb m dst c (Z.to_nat n).

Fixpoint memcmp_loop (m : mem) (s1 s2 : Z) (n : nat) : Z :=
  match n with
  | O => 0
  | S n => if negb (m s1 =? m s2) then m s1 - m s2 else memcmp_loop m (s1 + 1) (s2 + 1) n
  end.
Definition memcmp (m : mem) (v1 v2 n : Z) : Z := memcmp_loop m v1 v2 (Z.to_nat n).

Fixpoint copy_forward (m : mem) (d s : Z) (n : nat) : mem :=
  match n with
  | O => m
  | S n => copy_forward (st m d (m s)) (d + 1) (s + 1) n
  end.
(** [d] and [s] point one past the next byte to copy. *)
Fixpoint copy_backward (m : mem) (d s : Z) (n : nat) : mem :=
  match n with
  | O => m
  | S n => copy_backward (st m (d - 1) (m (s - 1))) (d - 1) (s - 1) n
  end.
Definition memmove (m : mem) (dst src n : Z) : mem :=
  if (src <? dst) && (dst <? src + n) then copy_backward m (dst + n) (src + n) (Z.to_nat n)
  else copy_forward m dst src (Z.to_nat n).
Definition memcpy (m : mem) (dst src n : Z) : mem := memmove m dst src n.

(** The user library's [memmove]. *)
Definition memmove_user (m : mem) (vdst vsrc n : Z) : mem := copy_forward m vdst vsrc (Z.to_nat n).

(** ** String routines *)
Definition ch (l : list Z) (i : nat) : Z := default 0 (l !! i).

Fixpoint strncmp (p q : list Z) (n i : nat) : Z :=
  match n with
  | O => 0
  | S n => if negb (ch p i =? 0) && (ch p i =? ch q i) then strncmp p q n (S i)
           else u8 (ch p i) - u8 (ch q i)
  end.

(** [strncpy]: copy at most [n] bytes up to the terminator, then fill. *)
Fixpoint fill_zero (s : list Z) (n i : nat) : list Z :=
  match n with
  | O => s
  | S n => fill_zero (<[i := 0]> s) n (S i)
  end.
Fixpoint strncpy_loop (s t : list Z) (n i : nat) : list Z :=
  match n with
  | O => s
  | S n => let s := <[i := ch t i]> s in
           if ch t i =? 0 then fill_zero s n (S i) else strncpy_loop s t n (S i)
  end.
Definition strncpy (s t : list Z) (n : Z) : list Z := strncpy_loop s t (Z.to_nat n) 0.

Fixpoint safestrcpy_loop (s t : list Z) (n i : nat) : list Z :=
  match n with
  | O | S O => <[i := 0]> s
  | S n => let s := <[i := ch t i]> s in
           if ch t i =? 0 then <[S i := 0]> s else safestrcpy_loop s t n (S i)
  end.
Definition safestrcpy (s t : list Z) (n : Z) : list Z :=
  if n <=? 0 then s else safestrcpy_loop s t (Z.to_nat n) 0.

(** [strlen]; the scan stops at the end of the array at the latest. *)
Fixpoint strlen (s : list Z) : nat :=
  match s with
  | [] => 0%nat
  | c :: s => if c =? 0 then 0%nat else S (strlen s)
  end.

(** ulib.c *)
Fixpoint strcpy_loop (s t : list Z) (fuel i : nat) : list Z :=
  match fuel with
  | O => s
  | S fuel => let s := <[i := ch t i]> s in
              if ch t i =? 0 then s else strcpy_loop s t fuel (S i)
  end.
Definition strcpy (s t : list Z) : list Z := strcpy_loop s t (S (length t)) 0.

Fixpoint strcmp_loop (p q : list Z) (fuel i : nat) : Z :=
  match fuel with
  | O => 0
  | S fuel => if negb (ch p i =? 0) && (ch p i =? ch q i) then strcmp_loop p q fuel (S i)
              else u8 (ch p i) - u8 (ch q i)
  end.
Definition strcmp (p q : list Z) : Z := strcmp_loop p q (S (length p)) 0.

(** [strchr] returns the index of the first occurrence before the terminator. *)
Fixpoint strchr (s : list Z) (c : Z) : option nat :=
  match s with
  | [] => None
  | a :: s => if a =? 0 then None else if a =? c then Some 0%nat else S <$> strchr s c
  end.

Fixpoint atoi_loop (s : list Z) (n : Z) : Z :=
  match s with
  | [] => n
  | c :: s => if (48 <=? c) && (c <=? 57) then atoi_loop s (s32 (s32 (n * 10) + c - 48)) else n
  end.
Definition atoi (s : list Z) : Z := atoi_loop s 0.

(** Bytes of a string constant, without its terminator. *)
Fixpoint bytes (s : string) : list Z :=
  match s with
  | EmptyString => []
  | String c s => Z.of_N (Ascii.N_of_ascii c) :: bytes s
  end.
Definition cstr (s : string) : list Z := bytes s ++ [0].

(** ** Reference definitions *)

(** Simultaneous copy: what [memmove] promises even when the blocks overlap. *)
Definition copied (m : mem) (dst src n : Z) : mem :=
  fun a => if (dst <=? a) && (a <? dst + n) then m (src + (a - dst)) else m a.
Definition filled (m : mem) (dst c n : Z) : mem :=
  fun a => if (dst <=? a) && (a <? dst + n) then u8 c else m a.

(** The C string in the first [n] bytes of an array. *)
Fixpoint cprefix (n : nat) (l : list Z) : list Z :=
  match n with
  | O => []
  | S n => match l with
           | [] => []
           | c :: l => if c =? 0 then [] else c :: cprefix n l
           end
  end.

(** ** Lemmas *)
Lemma copy_forward_spec n m d s a :
  d <= s \/ s + Z.of_nat n <= d -> copy_forward m d s n a = copied m d s (Z.of_nat n) a.
Proof.
  revert m d s. induction n as [|n IH]; intros m d s Hov; cbn [copy_forward]; unfold copied.
  - change (Z.of_nat 0) with 0. replace ((d <=? a) && (a <? d + 0)) with false by lia. reflexivity.
  - rewrite IH by lia. unfold copied, st.
    destruct (Z.eqb_spec a d) as [->|Hne].
    + replace ((d + 1 <=? d) && (d <? d + 1 + Z.of_nat n)) with false by lia.
      replace ((d <=? d) && (d <? d + Z.of_nat (S n))) with true by lia. f_equal. lia.
    + replace ((d <=? a) && (a <? d + Z.of_nat (S n)))
        with ((d + 1 <=? a) && (a <? d + 1 + Z.of_nat n)) by lia.
      destruct ((d + 1 <=? a) && (a <? d + 1 + Z.of_nat n)) eqn:E; [|reflexivity].
      replace (s + 1 + (a - (d + 1)) =? d) with false by lia. f_equal. lia.
Qed.

Lemma copy_backward_spec n m d s a :
  s <= d \/ d + Z.of_nat n <= s ->
  copy_backward m (d + Z.of_nat n) (s + Z.of_nat n) n a = copied m d s (Z.of_nat n) a.
Proof.
  revert m. induction n as [|n IH]; intros m Hov; cbn [copy_backward]; unfold copied.
  - change (Z.of_nat 0) with 0. replace ((d <=? a) && (a <? d + 0)) with false by lia. reflexivity.
  - replace (d + Z.of_nat (S n) - 1) with (d + Z.of_nat n) by lia.
    replace (s + Z.of_nat (S n) - 1) with (s + Z.of_nat n) by lia.
    rewrite IH by lia. unfold copied, st.
    destruct (Z.eqb_spec a (d + Z.of_nat n)) as [->|Hne].
    + replace ((d <=? d + Z.of_nat n) && (d + Z.of_nat n <? d + Z.of_nat n)) with false by lia.
      replace ((d <=? d + Z.of_nat n) && (d + Z.of_nat n <? d + Z.of_nat (S n))) with true by lia.
      f_equal. lia.
    + replace ((d <=? a) && (a <? d + Z.of_nat (S n)))
        with ((d <=? a) && (a <? d + Z.of_nat n)) by lia.
      destruct ((d <=? a) && (a <? d + Z.of_nat n)) eqn:E; [|reflexivity].
      replace (s + (a - d) =? d + Z.of_nat n) with false by lia. reflexivity.
Qed.

Lemma stosb_spec n m d c a : stosb m d c n a = filled m d c (Z.of_nat n) a.
Proof.
  revert m d. induction n as [|n IH]; intros m d; cbn [stosb]; unfold filled.
  - change (Z.of_nat 0) with 0. replace ((d <=? a) && (a <? d + 0)) with false by lia. reflexivity.
  - rewrite IH. unfold filled, st. destruct (Z.eqb_spec a d) as [->|Hne].
    + replace ((d + 1 <=? d) && (d <? d + 1 + Z.of_nat n)) with false by lia.
      now replace ((d <=? d) && (d <? d + Z.of_nat (S n))) with true by lia.
    + now replace ((d <=? a) && (a <? d + Z.of_nat (S n)))
        with ((d + 1 <=? a) && (a <? d + 1 + Z.of_nat n)) by lia.
Qed.

(** The word [memset] stores repeats the byte four times. *)
Lemma splat_bytes c k :
  In k [0; 8; 16; 24] ->
  u8 (Z.shiftr (Z.lor (Z.lor (Z.lor (Z.shiftl (Z.land c 0xFF) 24) (Z.shiftl (Z.land c 0xFF) 16))
                        (Z.shiftl (Z.land c 0xFF) 8)) (Z.land c 0xFF)) k) = u8 c.
Proof.
  intros Hk. unfold u8. change 256 with (2 ^ 8). rewrite <- !Z.land_ones by lia.
  change 0xFF with (Z.ones 8). apply Z.bits_inj'. intros i Hi.
  rewrite !Z.land_spec. destruct (Z.ltb_spec i 8); [|rewrite !Z.ones_spec_high by lia; now rewrite !andb_false_r].
  rewrite Z.ones_spec_low by lia. rewrite !andb_true_r.
  assert (Hb : forall j, 0 <= j -> Z.testbit (Z.land c (Z.ones 8)) j = if j <? 8 then Z.testbit c j else false).
  { intros j Hj. rewrite Z.land_spec. destruct (Z.ltb_spec j 8).
    - rewrite Z.ones_spec_low by lia. apply andb_true_r.
    - rewrite Z.ones_spec_high by lia. apply andb_false_r. }
  assert (Hn : forall j, j < 0 -> Z.testbit (Z.land c (Z.ones 8)) j = false).
  { intros j Hj. apply Z.testbit_neg_r. lia. }
  assert (0 <= k) by (simpl in Hk; lia).
  rewrite Z.shiftr_spec, !Z.lor_spec, !Z.shiftl_spec by lia.
  destruct Hk as [<-|[<-|[<-|[<-|[]]]]].
  - rewrite (Hn (i + 0 - 24)), (Hn (i + 0 - 16)), (Hn (i + 0 - 8)), Hb by lia. replace (i + 0 <? 8) with true by lia.
    simpl. f_equal. lia.
  - rewrite (Hn (i + 8 - 24)), (Hn (i + 8 - 16)), !Hb by lia.
    replace (i + 8 - 8 <? 8) with true by lia. replace (i + 8 <? 8) with false by lia.
    simpl. rewrite orb_false_r. f_equal. lia.
  - rewrite (Hn (i + 16 - 24)), !Hb by lia.
    replace (i + 16 - 16 <? 8) with true by lia. replace (i + 16 - 8 <? 8) with false by lia.
    replace (i + 16 <? 8) with false by lia. simpl. rewrite !orb_false_r. f_equal. lia.
  - rewrite !Hb by lia. replace (i + 24 - 24 <? 8) with true by lia.
    replace (i + 24 - 16 <? 8) with false by lia. replace (i + 24 - 8 <? 8) with false by lia.
    replace (i + 24 <? 8) with false by lia. simpl. rewrite !orb_false_r. f_equal. lia.
Qed.

Lemma st32_spec m d w b a :
  (forall k, In k [0; 8; 16; 24] -> u8 (Z.shiftr w k) = b) ->
  st32 m d w a = if (d <=? a) && (a <? d + 4) then b else m a.
Proof.
  intros Hw. unfold st32, st.
  rewrite <- (Z.shiftr_0_r w) at 4. rewrite !Hw by (simpl; auto).
  destruct (Z.eqb_spec a (d + 3)); [now replace ((d <=? a) && (a <? d + 4)) with true by lia|].
  destruct (Z.eqb_spec a (d + 2)); [now replace ((d <=? a) && (a <? d + 4)) with true by lia|].
  destruct (Z.eqb_spec a (d + 1)); [now replace ((d <=? a) && (a <? d + 4)) with true by lia|].
  destruct (Z.eqb_spec a d); [now replace ((d <=? a) && (a <? d + 4)) with true by lia|].
  now replace ((d <=? a) && (a <? d + 4)) with false by lia.
Qed.

Lemma stosl_spec n m d w c a :
  (forall k, In k [0; 8; 16; 24] -> u8 (Z.shiftr w k) = u8 c) ->
  stosl m d w n a = filled m d c (4 * Z.of_nat n) a.
Proof.
  intros Hw. revert m d. induction n as [|n IH]; intros m d; cbn [stosl]; unfold filled.
  - change (4 * Z.of_nat 0) with 0. replace ((d <=? a) && (a <? d + 0)) with false by lia. reflexivity.
  - rewrite IH. unfold filled. rewrite (st32_spec _ _ _ (u8 c)) by done.
    destruct ((d + 4 <=? a) && (a <? d + 4 + 4 * Z.of_nat n)) eqn:E1.
    + now replace ((d <=? a) && (a <? d + 4 * Z.of_nat (S n))) with true by lia.
    + destruct ((d <=? a) && (a <? d + 4)) eqn:E2.
      * now replace ((d <=? a) && (a <? d + 4 * Z.of_nat (S n))) with true by lia.
      * now replace ((d <=? a) && (a <? d + 4 * Z.of_nat (S n))) with false by lia.
Qed.

(** [memmove] copies the block as if at once, also when source and
    destination overlap in either direction. *)
Theorem memmove_overlap (m : mem) (dst src n : Z) :
  0 <= n -> forall a, memmove m dst src n a = copied m dst src n a.
Proof.
  intros Hn a. unfold memmove. destruct ((src <? dst) && (dst <? src + n)) eqn:E.
  - rewrite <- (Z2Nat.id n) at 1 2 by lia. rewrite copy_backward_spec by lia. now rewrite Z2Nat.id.
  - rewrite copy_forward_spec by lia. now rewrite Z2Nat.id.
Qed.

Lemma memmove_overlap_witness :
  memmove (fun a => a) 12 10 5 14 = copied (fun a => a) 12 10 5 14.
Proof. apply memmove_overlap. lia. Defined.

(** [memset]: the fast path that stores four bytes at a time and the byte
    loop both fill exactly the block with the low byte of [c]. *)
Theorem memset_fills (m : mem) (dst c n : Z) :
  0 <= n -> forall a, memset m dst c n a = filled m dst c n a.
Proof.
  intros Hn a. unfold memset. destruct ((dst mod 4 =? 0) && (n mod 4 =? 0)) eqn:E.
  - rewrite (stosl_spec _ _ _ _ c) by (intros; now apply splat_bytes).
    f_equal. Z.div_mod_to_equations; lia.
  - rewrite stosb_spec. now rewrite Z2Nat.id.
Qed.

Lemma memset_fills_witness : memset (fun a => a) 8 0x1FE 8 13 = filled (fun a => a) 8 0x1FE 8 13.
Proof. apply memset_fills. lia. Defined.

(** The user library's [memmove] copies correctly when the destination
    is below the source or the blocks are disjoint, and corrupts the data
    otherwise: moving [0;1;2;3] up by one byte repeats the first byte. *)
Theorem memmove_user_forward_only :
  (forall m dst src n, 0 <= n -> dst <= src \/ src + n <= dst ->
     forall a, memmove_user m dst src n a = copied m dst src n a) /\
  (fun m => map m [1; 2; 3; 4]) (memmove_user (fun a => a) 1 0 4) = [0; 0; 0; 0] /\
  (fun m => map m [1; 2; 3; 4]) (copied (fun a => a) 1 0 4) = [0; 1; 2; 3].
Proof.
  split; [|split; reflexivity]. intros m dst src n Hn Hov a. unfold memmove_user.
  rewrite copy_forward_spec by lia. now rewrite Z2Nat.id.
Qed.

Lemma cprefix_step n l i :
  cprefix (S n) (drop i l) = if ch l i =? 0 then [] else ch l i :: cprefix n (drop (S i) l).
Proof.
  unfold ch. destruct (l !! i) as [c|] eqn:E.
  - now rewrite (drop_S _ _ _ E).
  - rewrite drop_ge by (now apply lookup_ge_None). reflexivity.
Qed.

Definition is_byte (c : Z) : Prop := 0 <= c < 256.

Lemma ch_byte l i : Forall is_byte l -> is_byte (ch l i).
Proof.
  intros H. unfold ch. destruct (l !! i) eqn:E; simpl; [|unfold is_byte; lia].
  eapply Forall_lookup_1; eauto.
Qed.

Lemma strncmp_zero n i p q :
  Forall is_byte p -> Forall is_byte q ->
  strncmp p q n i = 0 <-> cprefix n (drop i p) = cprefix n (drop i q).
Proof.
  intros Hp Hq. revert i. induction n as [|n IH]; intros i; [simpl; tauto|].
  cbn [strncmp]. rewrite !cprefix_step.
  pose proof (ch_byte p i Hp) as Bp. pose proof (ch_byte q i Hq) as Bq. unfold is_byte, u8 in *.
  rewrite !Z.mod_small by lia.
  destruct (Z.eqb_spec (ch p i) 0) as [E|E]; simpl.
  - destruct (Z.eqb_spec (ch q i) 0); [split; [done|intros _; lia]|].
    split; [intros; exfalso; lia|discriminate].
  - destruct (Z.eqb_spec (ch p i) (ch q i)) as [E'|E']; simpl.
    + rewrite IH. rewrite <- E'. replace (ch p i =? 0) with false by lia.
      split; [now intros ->|now intros [= ->]].
    + destruct (Z.eqb_spec (ch q i) 0); (split; [intros; exfalso; lia|]); intros [=]; lia.
Qed.

Lemma drop_insert_ch l i c j : (i < length l)%nat -> ch (<[i := c]> l) j = if (j =? i)%nat then c else ch l j.
Proof.
  intros Hi. unfold ch. destruct (Nat.eqb_spec j i) as [->|Hne].
  - now rewrite list_lookup_insert_eq.
  - now rewrite list_lookup_insert_ne.
Qed.

Lemma fill_zero_other n s i j : (j < i)%nat -> ch (fill_zero s n i) j = ch s j.
Proof.
  revert s i. induction n as [|n IH]; intros s i Hj; simpl; [done|].
  rewrite IH by lia. unfold ch. now rewrite list_lookup_insert_ne by lia.
Qed.

Lemma strncpy_loop_before n s t i j :
  (j < i)%nat -> ch (strncpy_loop s t n i) j = ch s j.
Proof.
  revert s i. induction n as [|n IH]; intros s i Hj; simpl; [done|].
  destruct (ch t i =? 0).
  - rewrite fill_zero_other by lia. unfold ch. now rewrite list_lookup_insert_ne by lia.
  - rewrite IH by lia. unfold ch. now rewrite list_lookup_insert_ne by lia.
Qed.

Lemma strncpy_loop_prefix n s t i :
  (i + n <= length s)%nat -> cprefix n (drop i (strncpy_loop s t n i)) = cprefix n (drop i t).
Proof.
  revert s i. induction n as [|n IH]; intros s i Hl; [reflexivity|].
  rewrite !cprefix_step. cbn [strncpy_loop].
  assert (Hch : ch (if ch t i =? 0 then fill_zero (<[i := ch t i]> s) n (S i)
                    else strncpy_loop (<[i := ch t i]> s) t n (S i)) i = ch t i).
  { destruct (ch t i =? 0); [rewrite fill_zero_other by lia|rewrite strncpy_loop_before by lia];
      rewrite drop_insert_ch by lia; now rewrite Nat.eqb_refl. }
  rewrite Hch. destruct (ch t i =? 0) eqn:E; [reflexivity|]. f_equal.
  apply IH. rewrite length_insert. lia.
Qed.

Lemma length_fill_zero n s i : length (fill_zero s n i) = length s.
Proof. revert s i. induction n; intros; simpl; [done|]. now rewrite IHn, length_insert. Qed.

Lemma strncpy_loop_bytes n s t i :
  Forall is_byte s -> Forall is_byte t -> Forall is_byte (strncpy_loop s t n i).
Proof.
  intros Hs Ht. revert s i Hs. induction n as [|n IH]; intros s i Hs; simpl; [done|].
  assert (Hs' : Forall is_byte (<[i := ch t i]> s)) by (apply Forall_insert; [done|now apply ch_byte]).
  destruct (ch t i =? 0); [|now apply IH].
  clear IH. revert Hs'. generalize (<[i := ch t i]> s), (S i). induction n; intros; simpl; [done|].
  apply IHn. apply Forall_insert; [done|unfold is_byte; lia].
Qed.

(** Directory names round trip: the name [strncpy] stores in an [n]-byte
    field compares equal to the original under [strncmp] on [n] bytes, and
    [strncmp] returns zero exactly for equal C strings of at most [n] bytes. *)
Theorem strncpy_strncmp_roundtrip (n : nat) (s t p q : list Z) :
  (n <= length s)%nat -> Forall is_byte s -> Forall is_byte t -> Forall is_byte p -> Forall is_byte q ->
  strncmp (strncpy s t (Z.of_nat n)) t n 0 = 0 /\
  (strncmp p q n 0 = 0 <-> cprefix n p = cprefix n q).
Proof.
  intros Hl Hs Ht Hp Hq. unfold strncpy. rewrite Nat2Z.id. split.
  - apply strncmp_zero; [now apply strncpy_loop_bytes|done|]. now apply strncpy_loop_prefix.
  - apply (strncmp_zero n 0 p q Hp Hq).
Qed.

Lemma strncpy_strncmp_roundtrip_witness :
  strncmp (strncpy (replicate 14 7) (cstr "README") 14) (cstr "README") 14 0 = 0.
Proof.
  destruct (strncpy_strncmp_roundtrip 14 (replicate 14 7) (cstr "README") [] []) as [H _].
  - simpl. lia.
  - apply Forall_replicate. unfold is_byte. lia.
  - unfold is_byte, cstr, bytes. simpl. repeat (apply Forall_cons; split; [lia|]). apply Forall_nil_2.
  - apply Forall_nil_2.
  - apply Forall_nil_2.
  - exact H.
Defined.

Lemma safestrcpy_loop_step n s t i :
  safestrcpy_loop s t (S (S n)) i =
    if ch t i =? 0 then <[S i := 0]> (<[i := ch t i]> s)
    else safestrcpy_loop (<[i := ch t i]> s) t (S n) (S i).
Proof. reflexivity. Qed.

Lemma safestrcpy_loop_before n s t i j : (j < i)%nat -> ch (safestrcpy_loop s t n i) j = ch s j.
Proof.
  revert s i. induction n as [|n IH]; intros s i Hj; [simpl; unfold ch; now rewrite list_lookup_insert_ne by lia|].
  cbn [safestrcpy_loop]. destruct n as [|n]; [unfold ch; now rewrite list_lookup_insert_ne by lia|].
  destruct (ch t i =? 0).
  - unfold ch. now rewrite !list_lookup_insert_ne by lia.
  - rewrite IH by lia. unfold ch. now rewrite list_lookup_insert_ne by lia.
Qed.

Lemma length_safestrcpy_loop n s t i : length (safestrcpy_loop s t n i) = length s.
Proof.
  revert s i. induction n as [|n IH]; intros s i; [simpl; now rewrite length_insert|].
  cbn [safestrcpy_loop]. destruct n; [now rewrite length_insert|].
  destruct (ch t i =? 0); [now rewrite !length_insert|]. now rewrite IH, length_insert.
Qed.

Lemma safestrcpy_loop_prefix n s t i :
  (i + S n <= length s)%nat ->
  cprefix (S n) (drop i (safestrcpy_loop s t (S n) i)) = cprefix n (drop i t) /\
  (forall j, (i + S n <= j)%nat -> safestrcpy_loop s t (S n) i !! j = s !! j).
Proof.
  revert s i. induction n as [|n IH]; intros s i Hl.
  - rewrite cprefix_step. simpl. rewrite drop_insert_ch, Nat.eqb_refl by lia. split; [reflexivity|].
    intros j Hj. now rewrite list_lookup_insert_ne by lia.
  - rewrite (cprefix_step n t i), safestrcpy_loop_step.
    destruct (ch t i =? 0) eqn:E.
    + split.
      * rewrite cprefix_step. unfold ch at 1. rewrite list_lookup_insert_ne, list_lookup_insert_eq by lia.
        simpl. now rewrite E.
      * intros j Hj. now rewrite !list_lookup_insert_ne by lia.
    + destruct (IH (<[i := ch t i]> s) (S i) ltac:(rewrite length_insert; lia)) as [IH1 IH2].
      split.
      * rewrite cprefix_step, safestrcpy_loop_before by lia.
        rewrite drop_insert_ch, Nat.eqb_refl, E by lia. f_equal. exact IH1.
      * intros j Hj. rewrite IH2 by lia. now rewrite list_lookup_insert_ne by lia.
Qed.

(** [safestrcpy] always terminates the copy inside the [n]-byte field:
    the field holds the source string cut to [n - 1] bytes, and nothing past
    the field changes. *)
Theorem safestrcpy_terminated (n : nat) (s t : list Z) :
  (S n <= length s)%nat ->
  let r := safestrcpy s t (Z.of_nat (S n)) in
  cprefix (S n) r = cprefix n t /\ (length (cprefix (S n) r) <= n)%nat /\
  length r = length s /\ (forall j, (S n <= j)%nat -> r !! j = s !! j).
Proof.
  intros Hl r. assert (Hr : r = safestrcpy_loop s t (S n) 0).
  { subst r. unfold safestrcpy. replace (Z.of_nat (S n) <=? 0) with false by lia. now rewrite Nat2Z.id. }
  rewrite Hr. destruct (safestrcpy_loop_prefix n s t 0 ltac:(lia)) as [H1 H2].
  rewrite !drop_0 in H1. rewrite H1. repeat split.
  - clear. revert t. induction n as [|n IH]; intros [|c t]; simpl; try lia.
    destruct (c =? 0); simpl; [lia|]. specialize (IH t). lia.
  - apply length_safestrcpy_loop.
  - intros j Hj. apply H2. lia.
Qed.

Lemma safestrcpy_terminated_witness :
  cprefix 16 (safestrcpy (replicate 16 1) (cstr "a program name that is too long") 16)
  = cprefix 15 (cstr "a program name that is too long").
Proof. apply (safestrcpy_terminated 15 (replicate 16 1)). simpl. lia. Defined.
