(* ===== verification/Spinlock.v ===== *)
(** * Spin locks and interrupt nesting (spinlock.c, mycpu of proc.c)

    The state [mach] holds the table [cpus], the processor that is executing
    ([m_cur]; its local APIC id is what [lapicid()] reads and its interrupt
    flag what [readeflags()] reads) and every spin lock by its address.
    [acquire] and [release] are translated with their panics; the spin loop
    of [acquire] ends in [Spin] when another processor holds the lock, because
    nothing else runs while this processor spins.  They are the sequential run
    of [acquire_code] and [release_code], which SpinSys interleaves on several
    processors.  The debugging field
    [pcs] is not kept in the lock; [getcallerpcs], which fills it, is
    translated on its own over the words of the stack. *)
From S2P Require Import Prelude Code Mmu.

(** The segmentation of a processor: the address of its task state, its
    descriptor table, whether the table and the interrupt table have been
    loaded, and the task register. *)
Record segregs := mkSeg {
  sg_ts : Z;
  sg_gdt : list segdesc;
  sg_gdtr : bool;
  sg_idtr : bool;
  sg_tr : Z;
}.
Definition segregs0 : segregs := mkSeg 0 (replicate NSEGS segdesc0) false false 0.

(** [struct cpu]; [c_IF] is the FL_IF bit of the processor's eflags, [c_esp0],
    [c_ss0], [c_iomb] the task-state fields [switchuvm] sets, [c_cr3] the
    page-directory register, and null pointers are [None]. *)
Record cpu := mkCpu {
  c_apicid : Z;
  c_IF : bool;
  c_ncli : Z;
  c_intena : bool;
  c_proc : option nat;
  c_thread : option (nat * nat);
  c_ss0 : Z;
  c_esp0 : Z;
  c_iomb : Z;
  c_cr3 : Z;
  c_seg : segregs;
  c_started : Z;
}.

Definition set_IF (b : bool) (c : cpu) : cpu :=
  mkCpu (c_apicid c) b (c_ncli c) (c_intena c) (c_proc c) (c_thread c) (c_ss0 c) (c_esp0 c) (c_iomb c) (c_cr3 c) (c_seg c) (c_started c).
Definition set_ncli (n : Z) (c : cpu) : cpu :=
  mkCpu (c_apicid c) (c_IF c) n (c_intena c) (c_proc c) (c_thread c) (c_ss0 c) (c_esp0 c) (c_iomb c) (c_cr3 c) (c_seg c) (c_started c).
Definition set_intena (b : bool) (c : cpu) : cpu :=
  mkCpu (c_apicid c) (c_IF c) (c_ncli c) b (c_proc c) (c_thread c) (c_ss0 c) (c_esp0 c) (c_iomb c) (c_cr3 c) (c_seg c) (c_started c).
Definition set_cproc (p : option nat) (c : cpu) : cpu :=
  mkCpu (c_apicid c) (c_IF c) (c_ncli c) (c_intena c) p (c_thread c) (c_ss0 c) (c_esp0 c) (c_iomb c) (c_cr3 c) (c_seg c) (c_started c).
Definition set_cthread (t : option (nat * nat)) (c : cpu) : cpu :=
  mkCpu (c_apicid c) (c_IF c) (c_ncli c) (c_intena c) (c_proc c) t (c_ss0 c) (c_esp0 c) (c_iomb c) (c_cr3 c) (c_seg c) (c_started c).
Definition set_ts (ss0 esp0 iomb : Z) (c : cpu) : cpu :=
  mkCpu (c_apicid c) (c_IF c) (c_ncli c) (c_intena c) (c_proc c) (c_thread c) ss0 esp0 iomb (c_cr3 c) (c_seg c) (c_started c).
Definition set_cr3 (v : Z) (c : cpu) : cpu :=
  mkCpu (c_apicid c) (c_IF c) (c_ncli c) (c_intena c) (c_proc c) (c_thread c) (c_ss0 c) (c_esp0 c) (c_iomb c) v (c_seg c) (c_started c).
Definition set_seg (v : segregs) (c : cpu) : cpu :=
  mkCpu (c_apicid c) (c_IF c) (c_ncli c) (c_intena c) (c_proc c) (c_thread c) (c_ss0 c) (c_esp0 c) (c_iomb c) (c_cr3 c) v (c_started c).
Definition set_started (v : Z) (c : cpu) : cpu :=
  mkCpu (c_apicid c) (c_IF c) (c_ncli c) (c_intena c) (c_proc c) (c_thread c) (c_ss0 c) (c_esp0 c) (c_iomb c) (c_cr3 c) (c_seg c) v.
Definition set_apicid (v : Z) (c : cpu) : cpu :=
  mkCpu v (c_IF c) (c_ncli c) (c_intena c) (c_proc c) (c_thread c) (c_ss0 c) (c_esp0 c) (c_iomb c) (c_cr3 c) (c_seg c) (c_started c).

(** [struct spinlock]: the word [locked], the name, and the holder. *)
Record spinlock := mkSpin {
  lk_locked : Z;
  lk_name : string;
  lk_cpu : option nat;
}.

#[global] Instance spinlock_inhabited : Inhabited spinlock := populate (mkSpin 0 EmptyString None).

Record mach := mkMach {
  m_cpus : list cpu;
  m_cur : nat;
  m_locks : gmap nat spinlock;
}.

Definition upd_cpu (i : nat) (f : cpu -> cpu) (s : mach) : mach :=
  mkMach (alter f i (m_cpus s)) (m_cur s) (m_locks s).
Definition set_lock (a : nat) (l : spinlock) (s : mach) : mach :=
  mkMach (m_cpus s) (m_cur s) (<[a := l]> (m_locks s)).
(** A lock that was never initialised is zero-filled memory. *)
Definition the_lock (a : nat) (s : mach) : spinlock := m_locks s !!! a.

Definition cpu_field {A : Type} (d : A) (f : cpu -> A) (i : nat) (s : mach) : A :=
  match m_cpus s !! i with Some c => f c | None => d end.

(** The hardware: [lapicid()], [readeflags() & FL_IF], [cli], [sti]. *)
Definition lapicid : M mach Z := gets (fun s => cpu_field 0 c_apicid (m_cur s) s).
Definition readeflags_IF : M mach bool := gets (fun s => cpu_field false c_IF (m_cur s) s).
Definition cli : M mach unit := modify (fun s => upd_cpu (m_cur s) (set_IF false) s).
Definition sti : M mach unit := modify (fun s => upd_cpu (m_cur s) (set_IF true) s).

Definition mycpu : M mach nat :=
  fi <~ readeflags_IF ;;
  if fi then panic "mycpu called with interrupts enabled"
  else
    apicid <~ lapicid ;;
    cs <~ gets m_cpus ;;
    match find_idx (fun c => c_apicid c =? apicid) cs with
    | Some i => ret i
    | None => panic "unknown apicid"
    end.

Definition initlock (a : nat) (name : string) : M mach unit :=
  modify (set_lock a (mkSpin 0 name None)).

Definition pushcli : M mach unit :=
  eflags <~ readeflags_IF ;;
  cli ;;;
  c <~ mycpu ;;
  n <~ gets (cpu_field 0 c_ncli c) ;;
  when (n =? 0) (modify (upd_cpu c (set_intena eflags))) ;;;
  modify (upd_cpu c (set_ncli (s32 (n + 1)))).

Definition popcli : M mach unit :=
  fi <~ readeflags_IF ;;
  if fi then panic "popcli - interruptible"
  else
    c <~ mycpu ;;
    n <~ gets (cpu_field 0 c_ncli c) ;;
    modify (upd_cpu c (set_ncli (s32 (n - 1)))) ;;;
    n <~ gets (cpu_field 0 c_ncli c) ;;
    if n <? 0 then panic "popcli"
    else
      ie <~ gets (cpu_field false c_intena c) ;;
      when ((n =? 0) && ie) sti.

(** The functions that processors run against each other, action by action: an
    action reads or writes one word of the lock, or touches only the entry of
    its own processor. *)
Definition holding_code (a : nat) : kcode mach bool :=
  (pushcli ;;;
   w <~ gets (fun s => lk_locked (the_lock a s)) ;;
   if w =? 0 then popcli ;;; KRet false
   else
     o <~ gets (fun s => lk_cpu (the_lock a s)) ;;
     c <~ mycpu ;;
     popcli ;;;
     KRet (bool_decide (o = Some c)))%code.
Definition holding (a : nat) : M mach bool := run (holding_code a).

Definition store_locked (a : nat) (v : Z) (s : mach) : mach :=
  set_lock a (mkSpin v (lk_name (the_lock a s)) (lk_cpu (the_lock a s))) s.
Definition store_cpu (a : nat) (c : option nat) (s : mach) : mach :=
  set_lock a (mkSpin (lk_locked (the_lock a s)) (lk_name (the_lock a s)) c) s.

(** [xchg]: store and return the old value, atomically. *)
Definition xchg (a : nat) (v : Z) : M mach Z :=
  w <~ gets (fun s => lk_locked (the_lock a s)) ;;
  modify (store_locked a v) ;;;
  ret w.

(** The loop of [acquire], which gives up after [spins] more attempts. *)
Fixpoint xchg_loop (spins : nat) (a : nat) : kcode mach unit :=
  (old <~ xchg a 1 ;;
   if old =? 0 then KRet tt
   else match spins with
        | O => (fun _ => @Spin mach unit) ;;; KRet tt
        | S spins => xchg_loop spins a
        end)%code.
Definition acquire_code (spins : nat) (a : nat) : kcode mach unit :=
  (pushcli ;;;
   h <-- holding_code a ;;
   if (h : bool) then @panic mach unit "acquire" ;;; KRet tt
   else
     _ <-- xchg_loop spins a ;;
     c <~ mycpu ;;
     modify (store_cpu a (Some c)) ;;;
     KRet tt)%code.
Definition acquire (a : nat) : M mach unit := run (acquire_code 0 a).

Definition release_code (a : nat) : kcode mach unit :=
  (h <-- holding_code a ;;
   if negb h then @panic mach unit "release" ;;; KRet tt
   else
     modify (store_cpu a None) ;;;
     modify (store_locked a 0) ;;;
     popcli ;;;
     KRet tt)%code.
Definition release (a : nat) : M mach unit := run (release_code a).

(** [getcallerpcs]: follow at most ten saved frame pointers; [mem] reads a
    word of kernel memory. *)
Fixpoint getcallerpcs_loop (mem : Z -> Z) (n : nat) (ebp : Z) : list Z :=
  match n with
  | O => []
  | S n =>
      if (ebp =? 0) || (ebp <? KERNBASE) || (ebp =? 0xffffffff) then replicate (S n) 0
      else mem (u32 (ebp + 4)) :: getcallerpcs_loop mem n (mem ebp)
  end.
Definition getcallerpcs (mem : Z -> Z) (v : Z) : list Z :=
  getcallerpcs_loop mem 10 (u32 (v - 8)).

(** ** Invariant of the executing processor *)

(** The effect of [pushcli] and [popcli] on the processor's entry. *)
Definition push (c : cpu) : cpu :=
  set_ncli (c_ncli c + 1) (set_intena (if c_ncli c =? 0 then c_IF c else c_intena c) (set_IF false c)).
Definition pop (c : cpu) : cpu :=
  set_IF ((c_ncli c =? 1) && c_intena c || c_IF c) (set_ncli (c_ncli c - 1) c).

(** Interrupts are off while [ncli] is positive. *)
Definition cwf (c : cpu) : Prop :=
  0 <= c_ncli c < 2 ^ 31 - 8 /\ (0 < c_ncli c -> c_IF c = false).

(** [c] is the entry of the executing processor of a well-formed machine. *)
Definition on_cpu (s : mach) (c : cpu) : Prop :=
  m_cpus s !! m_cur s = Some c /\ NoDup (c_apicid <$> m_cpus s) /\ cwf c.

Definition with_cur (c : cpu) (s : mach) : mach :=
  mkMach (<[m_cur s := c]> (m_cpus s)) (m_cur s) (m_locks s).

(** ** Lemmas *)
Lemma push_cwf c : cwf c -> c_ncli c < 2 ^ 31 - 9 -> cwf (push c).
Proof. unfold cwf, push. simpl. lia. Qed.

Lemma pop_cwf c : cwf c -> 0 < c_ncli c -> cwf (pop c).
Proof.
  unfold cwf, pop. simpl. intros [Hn HIF] Hpos. split; [lia|]. intros H.
  rewrite HIF by lia. rewrite orb_false_r. replace (c_ncli c =? 1) with false; [reflexivity|].
  symmetry. apply Z.eqb_neq. lia.
Qed.

(** [popcli] undoes [pushcli] except for the saved [intena]. *)
Lemma pop_push c : cwf c ->
  pop (push c) = set_intena (if c_ncli c =? 0 then c_IF c else c_intena c) c.
Proof.
  intros [Hn HIF]. destruct c as [ai fi n ie p t s0 e0 io cr]. unfold pop, push. simpl in *.
  unfold set_IF, set_ncli, set_intena; simpl. f_equal; [|lia].
  destruct (Z.eqb_spec n 0) as [->|Hne]; simpl; [now rewrite orb_false_r|].
  replace (n + 1 =? 1) with false by lia. simpl. symmetry. apply HIF. lia.
Qed.

Lemma pop_push_nested c : cwf c -> 0 < c_ncli c -> pop (push c) = c.
Proof.
  intros Hc Hn. rewrite pop_push by done. replace (c_ncli c =? 0) with false by lia.
  now destruct c.
Qed.

Lemma on_cpu_with s c c' :
  on_cpu s c -> cwf c' -> c_apicid c' = c_apicid c -> on_cpu (with_cur c' s) c'.
Proof.
  intros (Hl & Hnd & Hc) Hc' Hid. unfold on_cpu, with_cur. simpl. split; [|split]; [|..|done].
  - apply list_lookup_insert_eq. eauto using lookup_lt_Some.
  - rewrite list_fmap_insert. rewrite list_insert_id; [done|].
    rewrite list_lookup_fmap, Hl. simpl. now rewrite Hid.
Qed.

Lemma with_cur_with c c' s : with_cur c (with_cur c' s) = with_cur c s.
Proof. unfold with_cur. simpl. now rewrite list_insert_insert_eq. Qed.

Lemma with_cur_self s c : m_cpus s !! m_cur s = Some c -> with_cur c s = s.
Proof. intros H. destruct s. unfold with_cur. simpl in *. now rewrite list_insert_id. Qed.

Lemma upd_cur f s c : m_cpus s !! m_cur s = Some c -> upd_cpu (m_cur s) f s = with_cur (f c) s.
Proof.
  intros H. unfold upd_cpu, with_cur. f_equal. rewrite list_insert_alter.
  apply list_alter_ext; [|done]. intros x Hx. congruence.
Qed.

Lemma find_apicid cs i c :
  NoDup (c_apicid <$> cs) -> cs !! i = Some c ->
  find_idx (fun c' => c_apicid c' =? c_apicid c) cs = Some i.
Proof.
  intros Hnd Hi. apply find_idx_Some. split; [exists c; split; [done|lia]|].
  intros j b Hj Hb. apply Z.eqb_neq. intros Heq.
  assert (j = i); [|lia].
  eapply (NoDup_lookup (c_apicid <$> cs)); [done|rewrite list_lookup_fmap, Hb; simpl; by rewrite Heq|].
  by rewrite list_lookup_fmap, Hi.
Qed.

Lemma mycpu_ok s c : on_cpu s c -> c_IF c = false -> mycpu s = Done (m_cur s) s.
Proof.
  intros (Hl & Hnd & _) HIF. unfold mycpu, readeflags_IF, lapicid. kstep.
  unfold cpu_field. rewrite Hl, HIF. simpl. rewrite Hl. now rewrite (find_apicid _ _ _ Hnd Hl).
Qed.

Lemma cli_ok s c : on_cpu s c -> cli s = Done tt (with_cur (set_IF false c) s).
Proof. intros (Hl & _). unfold cli, modify. now rewrite (upd_cur _ _ _ Hl). Qed.

Lemma gets_done {S A} (f : S -> A) s : gets f s = Done (f s) s.
Proof. reflexivity. Qed.

Lemma cpu_field_with {A} (d : A) f s c c' :
  m_cpus s !! m_cur s = Some c -> cpu_field d f (m_cur s) (with_cur c' s) = f c'.
Proof.
  intros H. unfold cpu_field, with_cur. simpl.
  rewrite list_lookup_insert_eq; eauto using lookup_lt_Some.
Qed.

Lemma cpu_field_cur {A} (d : A) f s c :
  m_cpus s !! m_cur s = Some c -> cpu_field d f (m_cur s) s = f c.
Proof. intros H. unfold cpu_field. now rewrite H. Qed.

Lemma pushcli_ok s c : on_cpu s c -> pushcli s = Done tt (with_cur (push c) s).
Proof.
  intros Hon. pose proof Hon as (Hl & Hnd & Hn & HIF). unfold pushcli.
  erewrite bind_done by (apply gets_done). erewrite bind_done by (apply (cli_ok _ _ Hon)).
  assert (Hon' : on_cpu (with_cur (set_IF false c) s) (set_IF false c)).
  { eapply on_cpu_with; [exact Hon| |reflexivity]. split; simpl; [lia|done]. }
  erewrite bind_done by (apply (mycpu_ok _ _ Hon'); reflexivity).
  erewrite bind_done by (apply gets_done). simpl.
  rewrite (cpu_field_with _ _ _ _ _ Hl), (cpu_field_cur _ _ _ _ Hl). simpl.
  pose proof Hon' as (Hl' & _). unfold when, bind, modify, ret.
  destruct (c_ncli c =? 0) eqn:E; simpl; f_equal.
  - rewrite (upd_cur _ _ _ Hl').
    rewrite (upd_cur _ (with_cur _ (with_cur _ s)) (set_intena (c_IF c) (set_IF false c))).
    + rewrite !with_cur_with. f_equal. unfold push. rewrite E. now rewrite s32_small by lia.
    + rewrite with_cur_with. simpl. apply list_lookup_insert_eq. eauto using lookup_lt_Some.
  - rewrite (upd_cur _ _ _ Hl'), with_cur_with. f_equal. unfold push. rewrite E.
    rewrite s32_small by lia. now destruct c.
Qed.

Lemma popcli_ok s c :
  on_cpu s c -> 0 < c_ncli c -> popcli s = Done tt (with_cur (pop c) s).
Proof.
  intros Hon Hpos. pose proof Hon as (Hl & Hnd & Hn & HIF). unfold popcli.
  erewrite bind_done by (apply gets_done).
  rewrite (cpu_field_cur _ _ _ _ Hl), (HIF Hpos).
  erewrite bind_done by (apply (mycpu_ok _ _ Hon); auto).
  erewrite bind_done by (apply gets_done). rewrite (cpu_field_cur _ _ _ _ Hl).
  rewrite s32_small by lia. unfold bind, modify, gets, when, ret; simpl.
  rewrite (upd_cur _ _ _ Hl). rewrite (cpu_field_with _ _ _ _ _ Hl). simpl.
  replace (c_ncli c - 1 <? 0) with false by lia. simpl.
  rewrite (cpu_field_with _ _ _ _ _ Hl). simpl.
  unfold pop. rewrite (HIF Hpos), orb_false_r.
  replace (c_ncli c - 1 =? 0) with (c_ncli c =? 1) by lia.
  destruct ((c_ncli c =? 1) && c_intena c).
  - unfold sti, modify. f_equal.
    erewrite upd_cur; [now rewrite with_cur_with|].
    simpl. apply list_lookup_insert_eq. eauto using lookup_lt_Some.
  - f_equal. f_equal. destruct c; simpl in *. unfold set_IF, set_ncli; simpl. now rewrite HIF.
Qed.

Lemma mycpu_in_push s c : on_cpu s c -> c_ncli c < 2 ^ 31 - 9 ->
  on_cpu (with_cur (push c) s) (push c) /\
  mycpu (with_cur (push c) s) = Done (m_cur s) (with_cur (push c) s).
Proof.
  intros Hon Hb. assert (Hon' : on_cpu (with_cur (push c) s) (push c)).
  { eapply on_cpu_with; [exact Hon|apply push_cwf; [apply Hon|lia]|reflexivity]. }
  split; [exact Hon'|]. apply (mycpu_ok _ _ Hon'). reflexivity.
Qed.

(** [holding] tests the lock word and the holder; it leaves the machine as it
    was, up to the saved interrupt flag of the outermost [pushcli]. *)
Lemma holding_ok a s c : on_cpu s c -> c_ncli c < 2 ^ 31 - 9 ->
  holding a s =
    Done (negb (lk_locked (the_lock a s) =? 0) && bool_decide (lk_cpu (the_lock a s) = Some (m_cur s)))
         (with_cur (pop (push c)) s).
Proof.
  intros Hon Hb. destruct (mycpu_in_push s c Hon Hb) as [Hon' Hmy]. unfold holding, holding_code. cbn [run].
  assert (Hpop : popcli (with_cur (push c) s) = Done tt (with_cur (pop (push c)) s)).
  { rewrite (popcli_ok _ _ Hon'); [now rewrite with_cur_with|]. destruct Hon as (_ & _ & ? & _). simpl. lia. }
  erewrite bind_done by (apply (pushcli_ok _ _ Hon)). rewrite bind_gets.
  change (the_lock a (with_cur (push c) s)) with (the_lock a s).
  destruct (lk_locked (the_lock a s) =? 0); cbn [run negb andb].
  - erewrite bind_done by (apply Hpop). reflexivity.
  - rewrite bind_gets. erewrite bind_done by (apply Hmy). erewrite bind_done by (apply Hpop). reflexivity.
Qed.

Definition held_by (a i : nat) (s : mach) : Prop :=
  lk_locked (the_lock a s) = 1 /\ lk_cpu (the_lock a s) = Some i.
(** The machine as the processor [i] sees it. *)
Definition at_cpu (i : nat) (m : mach) : mach := mkMach (m_cpus m) i (m_locks m).

Definition lock_free (a : nat) (s : mach) : Prop := lk_locked (the_lock a s) = 0.

Lemma the_lock_with a c s : the_lock a (with_cur c s) = the_lock a s.
Proof. reflexivity. Qed.

Lemma the_lock_set a l s : the_lock a (set_lock a l s) = l.
Proof. unfold the_lock, set_lock. simpl. now rewrite lookup_total_insert_eq. Qed.

Lemma the_lock_set_ne a b l s : a <> b -> the_lock b (set_lock a l s) = the_lock b s.
Proof. intros. unfold the_lock, set_lock. simpl. now rewrite lookup_total_insert_ne. Qed.

Lemma set_lock_set a l l' s : set_lock a l (set_lock a l' s) = set_lock a l s.
Proof. unfold set_lock. simpl. now rewrite insert_insert_eq. Qed.

Lemma on_cpu_set_lock a l s c : on_cpu s c -> on_cpu (set_lock a l s) c.
Proof. intros H. exact H. Qed.

(** [acquire] up to its loop. *)
Lemma acquire_enters a s c : on_cpu s c -> c_ncli c < 2 ^ 31 - 10 ->
  acquire a s =
    if negb (lk_locked (the_lock a s) =? 0) && bool_decide (lk_cpu (the_lock a s) = Some (m_cur s)) then Crash "acquire"
    else run (_ <-- xchg_loop 0 a ;; c <~ mycpu ;; modify (store_cpu a (Some c)) ;;; KRet tt)%code (with_cur (push c) s).
Proof.
  intros Hon Hb. destruct (mycpu_in_push s c Hon ltac:(lia)) as [Hon' _]. unfold acquire, acquire_code. cbn [run].
  erewrite bind_done by (apply (pushcli_ok _ _ Hon)).
  erewrite run_kbind_done by (apply (holding_ok a _ _ Hon'); simpl; lia).
  rewrite the_lock_with, with_cur_with. cbn [with_cur m_cur].
  rewrite pop_push_nested by (first [apply Hon'|destruct Hon as (_ & _ & ? & _); simpl; lia]).
  destruct (negb _ && _); reflexivity.
Qed.

Lemma acquire_ok a s c :
  on_cpu s c -> c_ncli c < 2 ^ 31 - 10 -> lock_free a s ->
  acquire a s = Done tt (set_lock a (mkSpin 1 (lk_name (the_lock a s)) (Some (m_cur s))) (with_cur (push c) s)).
Proof.
  intros Hon Hb Hfree. destruct (mycpu_in_push s c Hon ltac:(lia)) as [Hon' _].
  rewrite (acquire_enters a s c Hon Hb), Hfree. cbn [Z.eqb negb andb xchg_loop kbind run].
  erewrite bind_done by reflexivity. rewrite the_lock_with, Hfree. cbn [Z.eqb kbind run].
  pose proof (on_cpu_set_lock a (mkSpin 1 (lk_name (the_lock a s)) (lk_cpu (the_lock a s))) _ _ Hon') as Hon2.
  erewrite bind_done by (apply (mycpu_ok _ _ Hon2); reflexivity).
  rewrite bind_modify. unfold ret, store_cpu. rewrite the_lock_set. cbn [lk_locked lk_name]. now rewrite set_lock_set.
Qed.

Lemma release_ok a s c :
  on_cpu s c -> 0 < c_ncli c < 2 ^ 31 - 9 -> held_by a (m_cur s) s ->
  release a s = Done tt (set_lock a (mkSpin 0 (lk_name (the_lock a s)) None) (with_cur (pop c) s)).
Proof.
  intros Hon Hb [Hl Hc]. unfold release, release_code.
  erewrite run_kbind_done by (apply (holding_ok a _ _ Hon); lia).
  rewrite Hl, Hc. rewrite bool_decide_eq_true_2 by done. cbn [Z.eqb negb andb run].
  rewrite pop_push_nested by (first [apply Hon|lia]). rewrite (with_cur_self _ _ (proj1 Hon)).
  rewrite !bind_modify. unfold store_locked, store_cpu. rewrite the_lock_set. cbn [lk_cpu lk_name]. rewrite set_lock_set.
  erewrite bind_done by (apply (popcli_ok (set_lock a _ s) c); first [apply Hon|lia]). reflexivity.
Qed.

(** [n] nested critical sections around [body], as nested [acquire]s make. *)
Fixpoint nested {A : Type} (n : nat) (body : M mach A) : M mach A :=
  match n with
  | O => body
  | S n => pushcli ;;; a <~ nested n body ;; popcli ;;; ret a
  end.

Lemma nested_off n s c :
  on_cpu s c -> 0 < c_ncli c -> c_ncli c + Z.of_nat n < 2 ^ 31 - 9 ->
  nested n readeflags_IF s = Done false s.
Proof.
  revert s c. induction n as [|n IH]; intros s c Hon Hpos Hb; simpl.
  - unfold readeflags_IF, gets. rewrite (cpu_field_cur _ _ _ _ (proj1 Hon)). f_equal. now apply Hon.
  - destruct (mycpu_in_push s c Hon ltac:(lia)) as [Hon' _].
    erewrite bind_done by (apply (pushcli_ok _ _ Hon)).
    erewrite bind_done by (apply (IH _ _ Hon'); simpl; lia).
    erewrite bind_done by (apply (popcli_ok _ _ Hon'); simpl; lia).
    rewrite with_cur_with, pop_push_nested by (first [apply Hon|lia]).
    unfold ret. now rewrite (with_cur_self _ _ (proj1 Hon)).
Qed.

(** Interrupt nesting: inside [n >= 1] nested [pushcli]/[popcli] pairs
    interrupts are off, and after the last [popcli] the interrupt flag, the
    nesting depth and every other field of the processor but the saved flag
    [intena] are what they were. *)
Theorem pushcli_popcli_nesting (n : nat) (s : mach) (c : cpu) :
  on_cpu s c -> c_ncli c + Z.of_nat (S n) < 2 ^ 31 - 9 ->
  nested (S n) readeflags_IF s =
    Done false (with_cur (set_intena (if c_ncli c =? 0 then c_IF c else c_intena c) c) s).
Proof.
  intros Hon Hb. destruct (mycpu_in_push s c Hon ltac:(lia)) as [Hon' _].
  pose proof Hon as (_ & _ & Hc). pose proof Hc as [Hn _]. cbn [nested].
  erewrite bind_done by (apply (pushcli_ok _ _ Hon)).
  erewrite bind_done by (apply (nested_off n _ _ Hon'); simpl; lia).
  erewrite bind_done by (apply (popcli_ok _ _ Hon'); simpl; lia).
  unfold ret. now rewrite with_cur_with, pop_push.
Qed.

Definition two_cpus : mach :=
  mkMach [mkCpu 7 true 0 false None None 0 0 0 0 segregs0 0; mkCpu 3 true 0 false None None 0 0 0 0 segregs0 0] 1 ∅.

Lemma two_cpus_on : on_cpu two_cpus (mkCpu 3 true 0 false None None 0 0 0 0 segregs0 0).
Proof.
  repeat split; try (simpl; lia). change (NoDup [7; 3]).
  apply (bool_decide_unpack (NoDup [7; 3])). vm_compute. exact I.
Qed.

Lemma pushcli_popcli_nesting_witness :
  nested 3 readeflags_IF two_cpus =
    Done false (with_cur (mkCpu 3 true 0 true None None 0 0 0 0 segregs0 0) two_cpus).
Proof. apply (pushcli_popcli_nesting 2 two_cpus _ two_cpus_on). simpl. lia. Defined.

(** [acquire] on every path: it panics exactly when this processor
    already holds the lock, spins exactly when another holder has it, and
    otherwise takes it, records the processor and leaves interrupts off. *)
Theorem acquire_spec (a : nat) (s : mach) (c : cpu) :
  on_cpu s c -> c_ncli c < 2 ^ 31 - 10 ->
  acquire a s =
    if lk_locked (the_lock a s) =? 0 then
      Done tt (set_lock a (mkSpin 1 (lk_name (the_lock a s)) (Some (m_cur s))) (with_cur (push c) s))
    else if decide (lk_cpu (the_lock a s) = Some (m_cur s)) then Crash "acquire"
    else Spin.
Proof.
  intros Hon Hb. destruct (Z.eqb_spec (lk_locked (the_lock a s)) 0) as [Hf|Hf].
  { now apply acquire_ok. }
  rewrite (acquire_enters a s c Hon Hb). apply Z.eqb_neq in Hf. rewrite Hf. cbn [negb andb].
  destruct (decide (lk_cpu (the_lock a s) = Some (m_cur s))) as [Hc|Hc].
  - rewrite bool_decide_eq_true_2 by done. reflexivity.
  - rewrite bool_decide_eq_false_2 by done. cbn [xchg_loop kbind run].
    erewrite bind_done by reflexivity. rewrite the_lock_with, Hf. reflexivity.
Qed.

Lemma acquire_spec_witness :
  acquire 5 two_cpus =
    Done tt (set_lock 5 (mkSpin 1 EmptyString (Some 1%nat))
               (with_cur (mkCpu 3 false 1 true None None 0 0 0 0 segregs0 0) two_cpus)).
Proof. rewrite (acquire_spec 5 two_cpus _ two_cpus_on) by (simpl; lia). reflexivity. Defined.

Lemma acquire_then_release a s c :
  on_cpu s c -> c_ncli c < 2 ^ 31 - 10 -> lock_free a s ->
  (acquire a ;;; release a) s =
    Done tt (set_lock a (mkSpin 0 (lk_name (the_lock a s)) None)
      (with_cur (set_intena (if c_ncli c =? 0 then c_IF c else c_intena c) c) s)).
Proof.
  intros Hon Hb Hf. destruct (mycpu_in_push s c Hon ltac:(lia)) as [Hon' _].
  erewrite bind_done by (apply (acquire_ok _ _ _ Hon Hb Hf)).
  erewrite release_ok; [..|split; rewrite the_lock_set; reflexivity].
  - rewrite the_lock_set. simpl. f_equal. unfold set_lock, with_cur. simpl.
    rewrite insert_insert_eq, list_insert_insert_eq, pop_push by apply Hon. reflexivity.
  - apply on_cpu_set_lock, Hon'.
  - destruct Hon as (_ & _ & ? & _). simpl. lia.
Qed.

(** [release] undoes [acquire]: taking a free lock and releasing it gives
    back the lock (name kept, word zero, no holder) and the processor's
    interrupt state. *)
Theorem acquire_release (a : nat) (s : mach) (c : cpu) :
  on_cpu s c -> c_ncli c < 2 ^ 31 - 10 -> lock_free a s ->
  (acquire a ;;; release a) s =
    Done tt (set_lock a (mkSpin 0 (lk_name (the_lock a s)) None)
      (with_cur (set_intena (if c_ncli c =? 0 then c_IF c else c_intena c) c) s)).
Proof.
  apply acquire_then_release.
Qed.

Lemma acquire_release_witness :
  (acquire 5 ;;; release 5) two_cpus =
    Done tt (set_lock 5 (mkSpin 0 EmptyString None)
               (with_cur (mkCpu 3 true 0 true None None 0 0 0 0 segregs0 0) two_cpus)).
Proof. apply (acquire_release 5 two_cpus _ two_cpus_on); [simpl; lia|reflexivity]. Defined.

(** A balanced critical section on a free lock: what is left of it. *)
Definition cycled (a : nat) (m : mach) : mach :=
  match m_cpus m !! m_cur m with
  | Some c =>
      set_lock a (mkSpin 0 (lk_name (the_lock a m)) None)
        (with_cur (set_intena (if c_ncli c =? 0 then c_IF c else c_intena c) c) m)
  | None => m
  end.

(** The processor that executes is well formed, its nesting is within the
    counter's range, and no lock of [ls] is held. *)
Definition ready (ls : list nat) (m : mach) : Prop :=
  (exists c, on_cpu m c /\ c_ncli c < 2 ^ 31 - 20) /\ Forall (fun a => lock_free a m) ls.

Lemma cycled_ready ls a m : ready ls m -> ready ls (cycled a m).
Proof.
  intros [(c & Hon & Hb) Hf]. unfold cycled. rewrite (proj1 Hon). split.
  - eexists. split; [|]. 
    + apply on_cpu_set_lock. eapply on_cpu_with; [exact Hon| |reflexivity]. apply Hon.
    + exact Hb.
  - eapply Forall_impl; [exact Hf|]. intros b Hbf. unfold lock_free in *.
    destruct (decide (a = b)) as [->|]; [now rewrite the_lock_set|].
    now rewrite the_lock_set_ne, the_lock_with.
Qed.
