(* ===== verification/SpinSys.v ===== *)
(** * Mutual exclusion of spin locks

    Any number of processors call [acquire] and [release] on one lock, in any
    order and whether or not they hold it; their actions interleave in every
    way.  A processor that panics stops the system.  [Inv] describes the shared
    state by the place of each processor ([place]: how many [pushcli]s it has
    made and what it has of the lock), and [typed] says that a piece of code
    keeps [Inv] from place to place, whatever the other processors do between
    its actions. *)
From S2P Require Import Prelude Code Mmu Spinlock.

(** What a processor does: it is outside of both functions, and [has] tells
    whether the last of them that returned was [acquire]; or it has still to
    run the rest of a call. *)
Inductive activity :=
| Idle (has : bool)
| Acquiring (c : kcode mach unit)
| Releasing (c : kcode mach unit).

Record lsys := mkLsys { ls_mach : mach; ls_act : list activity }.

Section Lock.
Context (a : nat).

Inductive lstep : lsys -> lsys -> Prop :=
| l_acquire m acts i has spins :
    acts !! i = Some (Idle has) ->
    lstep (mkLsys m acts) (mkLsys m (<[i := Acquiring (acquire_code spins a)]> acts))
| l_acquire_act m acts i c c' m' :
    acts !! i = Some (Acquiring c) -> kstep c (at_cpu i m) = Done c' m' ->
    lstep (mkLsys m acts) (mkLsys m' (<[i := Acquiring c']> acts))
| l_acquired m acts i :
    acts !! i = Some (Acquiring (KRet tt)) -> lstep (mkLsys m acts) (mkLsys m (<[i := Idle true]> acts))
| l_release m acts i has :
    acts !! i = Some (Idle has) ->
    lstep (mkLsys m acts) (mkLsys m (<[i := Releasing (release_code a)]> acts))
| l_release_act m acts i c c' m' :
    acts !! i = Some (Releasing c) -> kstep c (at_cpu i m) = Done c' m' ->
    lstep (mkLsys m acts) (mkLsys m' (<[i := Releasing c']> acts))
| l_released m acts i :
    acts !! i = Some (Releasing (KRet tt)) -> lstep (mkLsys m acts) (mkLsys m (<[i := Idle false]> acts)).

(** At the start the lock is free and no processor is in a call; a processor may
    already be inside other critical sections. *)
Definition lock_start (y : lsys) : Prop :=
  the_lock a (ls_mach y) = mkSpin 0 (lk_name (the_lock a (ls_mach y))) None /\
  NoDup (c_apicid <$> m_cpus (ls_mach y)) /\
  Forall (fun x => x = Idle false) (ls_act y) /\ length (ls_act y) = length (m_cpus (ls_mach y)) /\
  Forall (fun c => cwf c /\ c_ncli c < 2 ^ 31 - 30) (m_cpus (ls_mach y)).

(** ** The invariant *)

(** What a processor has of the lock: nothing; the word, between its [xchg] and
    the store of its number, and between the two stores of [release]; or the
    word with its number in the lock. *)
Inductive stage := Out | Won | Own | Leaving.
#[local] Instance stage_eq_dec : EqDecision stage.
Proof. solve_decision. Defined.

Record place := mkPlace { pl_nest : nat; pl_stage : stage }.

Context (base : nat -> Z).

Record Inv (m : mach) (ps : list place) : Prop := {
  inv_ids : NoDup (c_apicid <$> m_cpus m);
  inv_cpu : forall i p, ps !! i = Some p -> exists c, m_cpus m !! i = Some c /\ cwf c /\
    c_ncli c = base i + Z.of_nat (pl_nest p) /\ 0 <= base i < 2 ^ 31 - 30;
  inv_word : lk_locked (the_lock a m) = 0 \/ lk_locked (the_lock a m) = 1;
  inv_free : lk_locked (the_lock a m) = 0 -> forall i p, ps !! i = Some p -> pl_stage p = Out;
  inv_one : forall i j p q, ps !! i = Some p -> ps !! j = Some q -> pl_stage p <> Out -> pl_stage q <> Out -> i = j;
  inv_owner : forall i, lk_cpu (the_lock a m) = Some i <-> exists p, ps !! i = Some p /\ pl_stage p = Own;
}.

Fixpoint typed (i : nat) (Q : place -> Prop) (c : kcode mach unit) (p : place) : Prop :=
  match c with
  | KRet _ => Q p
  | KAct act k => forall m ps, Inv m ps -> ps !! i = Some p ->
      match act (at_cpu i m) with
      | Done b m' => exists p', Inv m' (<[i := p']> ps) /\ typed i Q (k b) p'
      | Switch _ _ => False
      | Crash _ | Spin => True
      end
  end.

(** ** The actions *)
Lemma inv_on m ps i p : Inv m ps -> ps !! i = Some p ->
  exists c, on_cpu (at_cpu i m) c /\ c_ncli c = base i + Z.of_nat (pl_nest p) /\ 0 <= base i < 2 ^ 31 - 30.
Proof.
  intros HI Hi. destruct (inv_cpu _ _ HI i p Hi) as (c & Hc & Hwf & Hn & Hb). exists c. split; [|done].
  split; [exact Hc|]. split; [apply HI|exact Hwf].
Qed.

Lemma lookup_place (ps : list place) i q j p : <[i := q]> ps !! j = Some p -> (j = i /\ p = q) \/ (j <> i /\ ps !! j = Some p).
Proof. intros [(-> & -> & _)|[? ?]]%list_lookup_insert_Some; auto. Qed.

(** Only the entry of the processor changes. *)
Lemma inv_with m ps i n n' st c c' :
  Inv m ps -> ps !! i = Some (mkPlace n st) -> on_cpu (at_cpu i m) c -> cwf c' -> c_apicid c' = c_apicid c ->
  c_ncli c' = base i + Z.of_nat n' -> Inv (with_cur c' (at_cpu i m)) (<[i := mkPlace n' st]> ps).
Proof.
  intros HI Hi Hon Hwf Hid Hn. destruct HI as [Hids Hcpu Hword Hfree Hone Hown].
  pose proof (on_cpu_with _ _ _ Hon Hwf Hid) as (_ & Hids' & _).
  assert (Hst : forall j p, <[i := mkPlace n' st]> ps !! j = Some p -> exists q, ps !! j = Some q /\ pl_stage q = pl_stage p).
  { intros j p [[-> ->]|[_ Hj]]%lookup_place; eauto. }
  split; [exact Hids'| |exact Hword| | |].
  - intros j p [[-> ->]|[Hne Hj]]%lookup_place.
    + exists c'. split; [apply list_lookup_insert_eq; destruct Hon as (Hl & _); eauto using lookup_lt_Some|].
      destruct (Hcpu i _ Hi) as (_ & _ & _ & _ & Hb). done.
    + cbn [with_cur at_cpu m_cpus m_cur]. rewrite list_lookup_insert_ne by done. auto.
  - intros H0 j p Hj. destruct (Hst j p Hj) as (q & Hq & <-). eauto.
  - intros j k p q Hj Hk Hp Hq. destruct (Hst j p Hj) as (p' & Hp' & Ep), (Hst k q Hk) as (q' & Hq' & Eq).
    eapply Hone; [exact Hp'|exact Hq'|congruence|congruence].
  - intros j. etransitivity; [exact (Hown j)|]. split.
    + intros (p & Hj & Hp). destruct (decide (j = i)) as [->|Hne].
      * exists (mkPlace n' st). split; [apply list_lookup_insert_eq; eauto using lookup_lt_Some|]. now simplify_eq.
      * exists p. split; [now rewrite list_lookup_insert_ne by done|done].
    + intros (p & Hj & Hp). destruct (Hst j p Hj) as (q & Hq & Eq). exists q. split; congruence.
Qed.

Lemma typed_push i Q k n st : (n < 8)%nat -> typed i Q (k tt) (mkPlace (S n) st) -> typed i Q (KAct pushcli k) (mkPlace n st).
Proof.
  intros Hn Hk m ps HI Hi. destruct (inv_on _ _ _ _ HI Hi) as (c & Hon & Hc & Hb). cbn [pl_nest] in Hc.
  rewrite (pushcli_ok _ _ Hon). exists (mkPlace (S n) st). split; [|exact Hk].
  eapply inv_with; [exact HI|exact Hi|exact Hon|apply push_cwf; [apply Hon|lia]|done|simpl; lia].
Qed.

Lemma typed_pop i Q k n st : typed i Q (k tt) (mkPlace n st) -> typed i Q (KAct popcli k) (mkPlace (S n) st).
Proof.
  intros Hk m ps HI Hi. destruct (inv_on _ _ _ _ HI Hi) as (c & Hon & Hc & Hb). cbn [pl_nest] in Hc.
  rewrite (popcli_ok _ _ Hon) by lia. exists (mkPlace n st). split; [|exact Hk].
  eapply inv_with; [exact HI|exact Hi|exact Hon|apply pop_cwf; [apply Hon|lia]|done|simpl; lia].
Qed.

(** An action that leaves the machine as it is. *)
Lemma typed_same {B} i Q (act : M mach B) k p :
  (forall m ps, Inv m ps -> ps !! i = Some p -> exists b, act (at_cpu i m) = Done b (at_cpu i m) /\ typed i Q (k b) p) ->
  typed i Q (KAct act k) p.
Proof.
  intros H m ps HI Hi. destruct (H m ps HI Hi) as (b & -> & Hk). exists p. split; [|exact Hk].
  rewrite list_insert_id by exact Hi. destruct HI. split; assumption.
Qed.

Lemma typed_mycpu i Q k n st : typed i Q (k i) (mkPlace (S n) st) -> typed i Q (KAct mycpu k) (mkPlace (S n) st).
Proof.
  intros Hk. apply typed_same. intros m ps HI Hi. destruct (inv_on _ _ _ _ HI Hi) as (c & Hon & Hc & Hb). cbn [pl_nest] in Hc.
  exists i. split; [|exact Hk]. apply (mycpu_ok _ c Hon). apply Hon. lia.
Qed.

(** [holding] tells whether the processor owns the lock. *)
Lemma typed_holding i Q f n st : (n < 8)%nat -> st = Out \/ st = Own ->
  typed i Q (f (bool_decide (st = Own))) (mkPlace n st) -> typed i Q (kbind (holding_code a) f) (mkPlace n st).
Proof.
  intros Hn Hst Hf. unfold holding_code. cbn [kbind]. apply typed_push; [exact Hn|]. apply typed_same.
  intros m ps HI Hi. eexists. split; [reflexivity|]. cbv beta. destruct (Z.eqb_spec (lk_locked (the_lock a (at_cpu i m))) 0) as [E|E]; cbn [kbind].
  - apply typed_pop. pose proof (inv_free _ _ HI E i _ Hi) as Ho. cbn [pl_stage] in Ho. rewrite Ho in *. exact Hf.
  - clear m ps HI Hi E. apply typed_same. intros m ps HI Hi. eexists. split; [reflexivity|]. cbv beta.
    apply typed_mycpu, typed_pop. pose proof (inv_owner _ _ HI i) as Ho.
    rewrite (bool_decide_ext (_ = Some i) (st = Own)); [exact Hf|]. etransitivity; [exact Ho|]. split; [|eauto].
    intros (p & Hp & Ep). now simplify_eq.
Qed.

(** A write to the lock: the processor goes from one stage to another. *)
Lemma inv_store m ps i n st st' l :
  Inv m ps -> ps !! i = Some (mkPlace n st) ->
  (lk_locked l = 0 /\ st' = Out \/ lk_locked l = 1 /\ st' <> Out) -> (st = Out -> lk_locked (the_lock a m) = 0) ->
  (lk_cpu l = if decide (st' = Own) then Some i else None) ->
  Inv (set_lock a l (at_cpu i m)) (<[i := mkPlace n st']> ps).
Proof.
  intros HI Hi Hw Hout Hl. pose proof HI as [Hids Hcpu Hword Hfree Hone Hown].
  assert (Hoth : forall j p, j <> i -> ps !! j = Some p -> pl_stage p = Out).
  { intros j p Hne Hj. destruct (decide (pl_stage p = Out)) as [|Hp]; [done|]. exfalso. destruct (decide (st = Out)) as [E|E].
    - apply Hp. eapply Hfree; [|exact Hj]. now apply Hout.
    - apply Hne. eapply Hone; [exact Hj|exact Hi|exact Hp|exact E]. }
  split; [exact Hids| |rewrite the_lock_set; tauto|rewrite the_lock_set| |rewrite the_lock_set].
  - intros j p [[-> ->]|[_ Hj]]%lookup_place; [exact (Hcpu i _ Hi)|exact (Hcpu j p Hj)].
  - intros H0 j p [[-> ->]|[Hne Hj]]%lookup_place; [cbn; destruct Hw as [[_ ?]|[? _]]; [done|congruence]|eauto].
  - intros j k p q [[-> ->]|[Hj' Hj]]%lookup_place [[-> ->]|[Hk' Hk]]%lookup_place Hp Hq; try done.
    + now destruct (Hq (Hoth k q Hk' Hk)).
    + now destruct (Hp (Hoth j p Hj' Hj)).
    + now destruct (Hp (Hoth j p Hj' Hj)).
  - intros j. rewrite Hl. split.
    + intros E. destruct (decide (st' = Own)) as [->|]; [|discriminate]. injection E as <-. exists (mkPlace n Own).
      split; [apply list_lookup_insert_eq; eauto using lookup_lt_Some|done].
    + intros (p & [[-> ->]|[Hne Hj]]%lookup_place & Hp); cbn [pl_stage] in Hp; [now rewrite decide_True|].
      rewrite (Hoth j p Hne Hj) in Hp. discriminate.
Qed.

Lemma inv_no_owner m ps i n st : Inv m ps -> ps !! i = Some (mkPlace n st) -> st <> Own ->
  (st = Out -> lk_locked (the_lock a m) = 0) -> lk_cpu (the_lock a m) = None.
Proof.
  intros HI Hi Hst Hout. destruct (lk_cpu (the_lock a m)) as [j|] eqn:E; [|done]. exfalso.
  apply (inv_owner _ _ HI) in E as (p & Hj & Hp). destruct (decide (st = Out)) as [Ho|Ho].
  - rewrite (inv_free _ _ HI (Hout Ho) j p Hj) in Hp. discriminate.
  - assert (j = i) as -> by (eapply (inv_one _ _ HI); [exact Hj|exact Hi|congruence|exact Ho]). rewrite Hi in Hj. injection Hj as <-. now apply Hst.
Qed.

(** One [xchg]: it wins the word when it is 0, and changes nothing otherwise. *)
Lemma typed_xchg i Q k n :
  typed i Q (k 0) (mkPlace n Won) -> (forall w, w <> 0 -> typed i Q (k w) (mkPlace n Out)) ->
  typed i Q (KAct (xchg a 1) k) (mkPlace n Out).
Proof.
  intros H0 H1 m ps HI Hi. cbn. change (the_lock a (at_cpu i m)) with (the_lock a m).
  destruct (decide (lk_locked (the_lock a m) = 0)) as [E|E].
  - rewrite E. exists (mkPlace n Won). split; [|exact H0]. apply (inv_store m ps i n Out Won); try done; [now right|].
    cbn. apply (inv_no_owner m ps i n Out HI Hi); done.
  - exists (mkPlace n Out). split; [|now apply H1]. rewrite list_insert_id by exact Hi.
    destruct (inv_word _ _ HI) as [Ew|Ew]; [done|]. destruct HI as [? ? ? ? ? ?].
    split; unfold store_locked; rewrite ?the_lock_set; try assumption; [now right|discriminate].
Qed.

(** The loop of [acquire] ends when the processor has won the word. *)
Lemma typed_xchg_loop i Q f n spins :
  typed i Q (f tt) (mkPlace n Won) -> typed i Q (kbind (xchg_loop spins a) f) (mkPlace n Out).
Proof.
  intros Hf. induction spins as [|spins IH]; cbn [xchg_loop kbind]; apply typed_xchg; try exact Hf.
  all: intros w Hw; rewrite (proj2 (Z.eqb_neq w 0) Hw); cbn [kbind].
  - intros m ps _ _. exact I.
  - exact IH.
Qed.

Lemma typed_store i Q k n st st' f :
  (forall m ps, Inv m ps -> ps !! i = Some (mkPlace n st) -> Inv (f (at_cpu i m)) (<[i := mkPlace n st']> ps)) ->
  typed i Q (k tt) (mkPlace n st') -> typed i Q (KAct (modify f) k) (mkPlace n st).
Proof. intros Hf Hk m ps HI Hi. exists (mkPlace n st'). split; [now apply Hf|exact Hk]. Qed.

Lemma inv_word_set m ps i p : Inv m ps -> ps !! i = Some p -> pl_stage p <> Out -> lk_locked (the_lock a m) = 1.
Proof. intros HI Hi Hp. destruct (inv_word _ _ HI) as [E|E]; [|done]. now destruct (Hp (inv_free _ _ HI E i p Hi)). Qed.

(** ** The functions *)
Definition outside : place := mkPlace 0 Out.
Definition inside : place := mkPlace 1 Own.

Lemma acquire_typed i spins p : p = outside \/ p = inside -> typed i (fun q => q = inside) (acquire_code spins a) p.
Proof.
  intros [-> | ->]; unfold acquire_code; apply typed_push; try lia; (apply typed_holding; [lia|tauto|]).
  - rewrite bool_decide_eq_false_2 by discriminate. apply typed_xchg_loop, typed_mycpu.
    apply (typed_store i _ _ 1 Won Own); [|reflexivity]. intros m ps HI Hi. apply (inv_store m ps i 1 Won Own); try done.
    right. split; [|done]. exact (inv_word_set m ps i _ HI Hi ltac:(discriminate)).
  - rewrite bool_decide_eq_true_2 by done. intros m ps _ _. exact I.
Qed.

Lemma release_typed i p : p = outside \/ p = inside -> typed i (fun q => q = outside) (release_code a) p.
Proof.
  intros [-> | ->]; unfold release_code; (apply typed_holding; [lia|tauto|]).
  - rewrite bool_decide_eq_false_2 by discriminate. intros m ps _ _. exact I.
  - rewrite bool_decide_eq_true_2 by done. cbn [negb].
    apply (typed_store i _ _ 1 Own Leaving); [intros m ps HI Hi; apply (inv_store m ps i 1 Own Leaving); try done|].
    { right. split; [|done]. exact (inv_word_set m ps i _ HI Hi ltac:(discriminate)). }
    apply (typed_store i _ _ 1 Leaving Out); [intros m ps HI Hi; apply (inv_store m ps i 1 Leaving Out); try done|].
    { now left. }
    { cbn. apply (inv_no_owner m ps i 1 Leaving HI Hi); done. }
    apply typed_pop. reflexivity.
Qed.

(** ** The system *)
Definition placed (i : nat) (x : activity) (p : place) : Prop :=
  match x with
  | Idle has => p = if has then inside else outside
  | Acquiring c => typed i (fun q => q = inside) c p
  | Releasing c => typed i (fun q => q = outside) c p
  end.
Definition lsys_inv (y : lsys) : Prop :=
  exists ps, Inv (ls_mach y) ps /\ forall i x, ls_act y !! i = Some x -> exists p, ps !! i = Some p /\ placed i x p.

(** One action of a typed code. *)
Lemma typed_kstep i Q c p m ps c' m' : typed i Q c p -> Inv m ps -> ps !! i = Some p -> kstep c (at_cpu i m) = Done c' m' ->
  exists p', Inv m' (<[i := p']> ps) /\ typed i Q c' p'.
Proof.
  destruct c as [u|B act k]; cbn [kstep]; intros Ht HI Hi Hs.
  - injection Hs as <- <-. exists p. split; [|exact Ht]. rewrite list_insert_id by exact Hi. destruct HI. split; assumption.
  - specialize (Ht m ps HI Hi). unfold bind in Hs. destruct (act (at_cpu i m)) as [b m1| | |]; try discriminate.
    injection Hs as <- <-. exact Ht.
Qed.

(** A processor goes on to [x']. *)
Lemma lsys_inv_update m acts ps i x x' p' :
  acts !! i = Some x -> (forall j y, acts !! j = Some y -> exists p, ps !! j = Some p /\ placed j y p) ->
  Inv m (<[i := p']> ps) -> placed i x' p' -> lsys_inv (mkLsys m (<[i := x']> acts)).
Proof.
  intros Hi Hps HI Hx. exists (<[i := p']> ps). split; [exact HI|]. cbn [ls_act].
  intros j y [(-> & -> & _)|[Hne Hj]]%list_lookup_insert_Some.
  - exists p'. split; [|exact Hx]. destruct (Hps _ x Hi) as (p & Hp & _). apply list_lookup_insert_eq. eauto using lookup_lt_Some.
  - rewrite list_lookup_insert_ne by done. auto.
Qed.

Lemma lsys_inv_step y y' : lsys_inv y -> lstep y y' -> lsys_inv y'.
Proof.
  intros (ps & HI & Hps) Hstep. destruct Hstep as
    [m acts i has spins Hi|m acts i c c' m' Hi Hs|m acts i Hi|m acts i has Hi|m acts i c c' m' Hi Hs|m acts i Hi];
    cbn [ls_mach ls_act] in *; destruct (Hps _ _ Hi) as (p & Hp & Hx); cbn [placed] in Hx.
  1, 3, 4, 6: eapply lsys_inv_update; [exact Hi|exact Hps|rewrite list_insert_id by exact Hp; exact HI|cbn [placed]].
  - apply acquire_typed. subst p. destruct has; tauto.
  - exact Hx.
  - apply release_typed. subst p. destruct has; tauto.
  - exact Hx.
  - destruct (typed_kstep _ _ _ _ _ _ _ _ Hx HI Hp Hs) as (p' & HI' & Ht). eapply lsys_inv_update; eauto.
  - destruct (typed_kstep _ _ _ _ _ _ _ _ Hx HI Hp Hs) as (p' & HI' & Ht). eapply lsys_inv_update; eauto.
Qed.
End Lock.

Lemma lock_start_inv a y : lock_start a y -> lsys_inv a (fun i => cpu_field 0 c_ncli i (ls_mach y)) y.
Proof.
  intros (Hl & Hids & Hact & Hlen & Hcpu). exists (replicate (length (m_cpus (ls_mach y))) outside). split.
  - assert (Hout : forall i p, replicate (length (m_cpus (ls_mach y))) outside !! i = Some p -> p = outside).
    { intros i p [-> _]%lookup_replicate. done. }
    destruct (the_lock a (ls_mach y)) as [w n o] eqn:El. cbn [lk_name] in Hl. injection Hl as -> ->.
    split; rewrite ?El; cbn [lk_locked lk_cpu].
    + exact Hids.
    + intros i p Hi. rewrite (Hout i p Hi). apply lookup_replicate in Hi as [_ Hi].
      destruct (lookup_lt_is_Some_2 _ _ Hi) as [c Hc]. exists c. pose proof (Forall_lookup_1 _ _ _ _ Hcpu Hc) as [Hwf Hb].
      unfold cpu_field. rewrite Hc. destruct Hwf as [Hn Hif]. split; [done|]. split; [done|]. cbn [pl_nest outside]. lia.
    + now left.
    + intros _ i p Hi. now rewrite (Hout i p Hi).
    + intros i j p q Hi _ Hp. now rewrite (Hout i p Hi) in Hp.
    + intros i. split; [discriminate|]. intros (p & Hi & Hp). now rewrite (Hout i p Hi) in Hp.
  - intros i x Hx. pose proof (Forall_lookup_1 _ _ _ _ Hact Hx) as ->. exists outside.
    split; [|reflexivity]. apply lookup_replicate_2. rewrite <- Hlen. eauto using lookup_lt_Some.
Qed.

(** C32. Mutual exclusion of [acquire] and [release].  Any number of processors
    call them on a lock, in any order, also a [release] of a lock that another
    processor holds, and their reads and writes of the lock interleave in every
    way.  At most one processor has returned from [acquire] without having
    called [release] since; while it has, the lock names it and its interrupts
    are off. *)
Theorem spinlock_mutual_exclusion (a : nat) (y0 y : lsys) (i j : nat) :
  lock_start a y0 -> rtc (lstep a) y0 y ->
  ls_act y !! i = Some (Idle true) -> ls_act y !! j = Some (Idle true) ->
  i = j /\ held_by a i (ls_mach y) /\ exists c, m_cpus (ls_mach y) !! i = Some c /\ c_IF c = false.
Proof.
  intros Hs Hr Hi Hj. set (b := fun k => cpu_field 0 c_ncli k (ls_mach y0)).
  assert (lsys_inv a b y) as (ps & HI & Hps).
  { refine (rtc_invariant (lstep a) (lsys_inv a b) y0 y _ _ Hr); [apply lsys_inv_step|now apply lock_start_inv]. }
  destruct (Hps i _ Hi) as (p & Hp & ->), (Hps j _ Hj) as (q & Hq & ->).
  split; [eapply (inv_one _ _ _ _ HI); [exact Hp|exact Hq|discriminate|discriminate]|]. split.
  - split; [exact (inv_word_set _ _ _ _ _ _ HI Hp ltac:(discriminate))|].
    apply (inv_owner _ _ _ _ HI). eauto.
  - destruct (inv_cpu _ _ _ _ HI i _ Hp) as (c & Hc & [_ Hif] & Hn & Hb). exists c. split; [exact Hc|]. apply Hif.
    cbn [pl_nest inside] in Hn. lia.
Qed.

(** ** Schedules
    [lnext] makes the step of processor [i] that [e] asks for: the next action
    of its call (or the return from it), or the start of a call. *)
Inductive event := Go | CallAcquire (spins : nat) | CallRelease.

Definition lnext (a : nat) (e : nat * event) (y : lsys) : option lsys :=
  let '(i, ev) := e in
  let set x m := Some (mkLsys m (<[i := x]> (ls_act y))) in
  match ls_act y !! i, ev with
  | Some (Idle _), CallAcquire spins => set (Acquiring (acquire_code spins a)) (ls_mach y)
  | Some (Idle _), CallRelease => set (Releasing (release_code a)) (ls_mach y)
  | Some (Acquiring (KRet tt)), Go => set (Idle true) (ls_mach y)
  | Some (Releasing (KRet tt)), Go => set (Idle false) (ls_mach y)
  | Some (Acquiring c), Go =>
      match kstep c (at_cpu i (ls_mach y)) with Done c' m' => set (Acquiring c') m' | _ => None end
  | Some (Releasing c), Go =>
      match kstep c (at_cpu i (ls_mach y)) with Done c' m' => set (Releasing c') m' | _ => None end
  | _, _ => None
  end.

(** A schedule; an event that cannot happen is skipped. *)
Fixpoint lrun (a : nat) (es : list (nat * event)) (y : lsys) : lsys :=
  match es with
  | [] => y
  | e :: es' => lrun a es' (default y (lnext a e y))
  end.

Lemma lnext_lstep a e y y' : lnext a e y = Some y' -> lstep a y y'.
Proof.
  destruct e as [i ev], y as [m acts]. unfold lnext. cbn [ls_act ls_mach].
  destruct (acts !! i) as [[has|[[]|]|[[]|]]|] eqn:E, ev; try discriminate; intros H; simplify_eq;
    try (econstructor; eassumption).
  all: case_match eqn:Hk; simplify_eq; econstructor; eassumption.
Qed.

Lemma lrun_rtc a es : forall y, rtc (lstep a) y (lrun a es y).
Proof.
  induction es as [|e es IH]; cbn [lrun]; intros y; [constructor|].
  destruct (lnext a e y) as [y'|] eqn:E; [|apply IH]. eapply rtc_l; [exact (lnext_lstep _ _ _ _ E)|apply IH].
Qed.

(** Processor 0 takes the word of the lock and processor 1 spins; 0 completes
    [acquire] and calls [release], and 1 gets the lock. *)
Definition contended : list (nat * event) :=
  (0%nat, CallAcquire 5) :: replicate 8 (0%nat, Go) ++ (1%nat, CallAcquire 40) :: replicate 14 (1%nat, Go) ++
  replicate 4 (0%nat, Go) ++ (0%nat, CallRelease) :: replicate 12 (0%nat, Go) ++ replicate 24 (1%nat, Go).

Definition lstart : lsys := mkLsys two_cpus [Idle false; Idle false].

Lemma lstart_ok : lock_start 5 lstart.
Proof.
  repeat split; try reflexivity.
  - apply NoDup_ListNoDup. repeat constructor; simpl; intuition lia.
  - repeat constructor.
  - repeat constructor; simpl; try lia; try done.
Qed.

Lemma spinlock_mutual_exclusion_witness :
  (ls_act (lrun 5 (take 28 contended) lstart) !! 0%nat = Some (Idle true) /\
   held_by 5 0 (ls_mach (lrun 5 (take 28 contended) lstart))) /\
  ls_act (lrun 5 contended lstart) !! 1%nat = Some (Idle true) /\ held_by 5 1 (ls_mach (lrun 5 contended lstart)).
Proof.
  split; split; try (vm_compute; reflexivity).
  - apply (spinlock_mutual_exclusion 5 lstart _ 0 0 lstart_ok (lrun_rtc 5 (take 28 contended) lstart)); vm_compute; reflexivity.
  - apply (spinlock_mutual_exclusion 5 lstart _ 1 1 lstart_ok (lrun_rtc 5 contended lstart)); vm_compute; reflexivity.
Defined.
