(* ===== verification/Kalloc.v ===== *)
(** * The physical page allocator (kalloc.c)

    Free pages form a linked list threaded through the pages themselves: the
    first word of a free page is the address of the next one.  The state
    keeps the words of physical memory ([km_mem]), the head of the list, the
    flag [use_lock] and the linker symbol [end].  [free_pages] relates the
    threaded list to the abstract one: a stack of distinct, page-aligned
    addresses; [kalloc] is its pop and [kfree] its push. *)
From S2P Require Import Prelude Mmu Spinlock.

Record kmem := mkKmem {
  km_use_lock : bool;
  km_freelist : Z;
  km_mem : gmap Z Z;
  km_end : Z;
}.

Record kst := mkKst {
  ks_mach : mach;
  ks_kmem : kmem;
}.

Definition set_mach (m : mach) (s : kst) : kst := mkKst m (ks_kmem s).
Definition set_kmem (k : kmem) (s : kst) : kst := mkKst (ks_mach s) k.
Definition on_mach {A : Type} (m : M mach A) : M kst A := zoom ks_mach set_mach m.

Definition word (mem : gmap Z Z) (a : Z) : Z := default 0 (mem !! a).

(** Address of [kmem.lock]. *)
Definition KMEM_LOCK : nat := 3%nat.

(** [stosl] of x86.h and the word branch of [memset] (string.c). *)
Fixpoint stosl (mem : gmap Z Z) (addr data : Z) (cnt : nat) : gmap Z Z :=
  match cnt with
  | O => mem
  | S cnt => stosl (<[addr := data]> mem) (addr + 4) data cnt
  end.
Definition memset_page (mem : gmap Z Z) (v c : Z) : gmap Z Z :=
  let c := Z.land c 0xFF in
  stosl mem v (Z.lor (Z.lor (Z.lor (Z.shiftl c 24) (Z.shiftl c 16)) (Z.shiftl c 8)) c)
    (Z.to_nat (PGSIZE / 4)).

Definition set_freelist (h : Z) (mem : gmap Z Z) (k : kmem) : kmem :=
  mkKmem (km_use_lock k) h mem (km_end k).

Definition kfree_bad (k : kmem) (v : Z) : bool :=
  negb (v mod PGSIZE =? 0) || (v <? km_end k) || (PHYSTOP <=? V2P v).

Definition kfree (v : Z) : M kst unit :=
  k <~ gets ks_kmem ;;
  if kfree_bad k v then panic "kfree"
  else
    modify (fun s => set_kmem (set_freelist (km_freelist (ks_kmem s))
                                 (memset_page (km_mem (ks_kmem s)) v 1) (ks_kmem s)) s) ;;;
    ul <~ gets (fun s => km_use_lock (ks_kmem s)) ;;
    when ul (on_mach (acquire KMEM_LOCK)) ;;;
    modify (fun s => let k := ks_kmem s in
                     set_kmem (set_freelist v (<[v := km_freelist k]> (km_mem k)) k) s) ;;;
    ul <~ gets (fun s => km_use_lock (ks_kmem s)) ;;
    when ul (on_mach (release KMEM_LOCK)).

Definition kalloc : M kst Z :=
  ul <~ gets (fun s => km_use_lock (ks_kmem s)) ;;
  when ul (on_mach (acquire KMEM_LOCK)) ;;;
  r <~ gets (fun s => km_freelist (ks_kmem s)) ;;
  when (negb (r =? 0))
    (modify (fun s => let k := ks_kmem s in
                      set_kmem (set_freelist (word (km_mem k) r) (km_mem k) k) s)) ;;;
  ul <~ gets (fun s => km_use_lock (ks_kmem s)) ;;
  when ul (on_mach (release KMEM_LOCK)) ;;;
  ret r.

(** The loop of [freerange]; [n] bounds its iterations. *)
Fixpoint freerange_loop (n : nat) (p vend : Z) : M kst unit :=
  match n with
  | O => fun _ => Spin
  | S n =>
      if p + PGSIZE <=? vend then kfree p ;;; freerange_loop n (p + PGSIZE) vend
      else ret tt
  end.
Definition freerange (vstart vend : Z) : M kst unit :=
  freerange_loop (S (Z.to_nat (vend / PGSIZE))) (PGROUNDUP vstart) vend.

Definition set_use_lock (b : bool) (k : kmem) : kmem :=
  mkKmem b (km_freelist k) (km_mem k) (km_end k).
Definition kinit1 (vstart vend : Z) : M kst unit :=
  on_mach (initlock KMEM_LOCK "kmem") ;;;
  modify (fun s => set_kmem (set_use_lock false (ks_kmem s)) s) ;;;
  freerange vstart vend.
Definition kinit2 (vstart vend : Z) : M kst unit :=
  freerange vstart vend ;;;
  modify (fun s => set_kmem (set_use_lock true (ks_kmem s)) s).

(** ** Specification: a stack of pages *)

(** A page [kfree] accepts. *)
Definition page_ok (k : kmem) (v : Z) : Prop := kfree_bad k v = false /\ 0 <= v < 2 ^ 32.

(** [chain mem h l]: following the next words from [h] visits [l]. *)
Inductive chain (mem : gmap Z Z) : Z -> list Z -> Prop :=
| chain_nil : chain mem 0 []
| chain_cons a l : a <> 0 -> chain mem (word mem a) l -> chain mem a (a :: l).

Definition free_pages (k : kmem) (l : list Z) : Prop :=
  chain (km_mem k) (km_freelist k) l /\ NoDup l /\ Forall (page_ok k) l.

(** What a call leaves of the machine: the lock has been taken and released
    when locking is on. *)
Definition after_lock (s : kst) : mach :=
  if km_use_lock (ks_kmem s) then cycled KMEM_LOCK (ks_mach s) else ks_mach s.

(** ** Lemmas *)
Lemma stosl_lookup n mem v d a :
  (forall i, (i < n)%nat -> a <> v + 4 * Z.of_nat i) -> stosl mem v d n !! a = mem !! a.
Proof.
  revert mem v. induction n as [|n IH]; intros mem v Ha; simpl; [done|].
  rewrite IH.
  - apply lookup_insert_ne. specialize (Ha 0%nat). lia.
  - intros i Hi. specialize (Ha (S i)). lia.
Qed.

Lemma word_memset_other k mem v c a :
  page_ok k v -> page_ok k a -> a <> v -> word (memset_page mem v c) a = word mem a.
Proof.
  intros [Hv Hv'] [Ha Ha'] Hne. unfold word, memset_page. f_equal. apply stosl_lookup.
  change (Z.to_nat (PGSIZE / 4)) with 1024%nat.
  unfold kfree_bad, PGSIZE in *. intros i Hi. Z.div_mod_to_equations; lia.
Qed.

Lemma chain_ext mem mem' h l :
  chain mem h l -> (forall a, a ∈ l -> word mem' a = word mem a) -> chain mem' h l.
Proof.
  induction 1 as [|a l Ha Hc IH]; intros Hext; constructor; [done|].
  rewrite Hext by (now left). apply IH. intros b Hb. apply Hext. now right.
Qed.

Lemma page_ok_pos k v : page_ok k v -> 0 < v.
Proof.
  unfold page_ok, kfree_bad, V2P, u32, KERNBASE, PHYSTOP. intros [H1 H2].
  Z.div_mod_to_equations; lia.
Qed.

Lemma page_ok_irrel k k' v : km_end k = km_end k' -> page_ok k v -> page_ok k' v.
Proof. unfold page_ok, kfree_bad. now intros ->. Qed.

Lemma on_mach_done {A} (m : M mach A) s a t :
  m (ks_mach s) = Done a t -> on_mach m s = Done a (set_mach t s).
Proof. unfold on_mach, zoom. now intros ->. Qed.

(** Taking [kmem.lock] when locking is on, and giving it back. *)
Lemma lock_kmem m k :
  ready [KMEM_LOCK] m ->
  exists m1, forall k' k'', km_use_lock k' = km_use_lock k -> km_use_lock k'' = km_use_lock k ->
    when (km_use_lock k') (on_mach (acquire KMEM_LOCK)) (mkKst m k') = Done tt (mkKst m1 k') /\
    when (km_use_lock k'') (on_mach (release KMEM_LOCK)) (mkKst m1 k'') =
      Done tt (mkKst (after_lock (mkKst m k)) k'').
Proof.
  intros [(c & Hon & Hb) Hf]. apply Forall_cons_iff in Hf as [Hfree _]. unfold after_lock, when. simpl.
  pose proof (acquire_then_release KMEM_LOCK m c Hon ltac:(lia) Hfree) as Hcyc.
  apply bind_done_inv in Hcyc as ([] & m1 & Ha & Hr).
  destruct (km_use_lock k).
  - exists m1. intros k' k'' -> ->. split.
    + now erewrite on_mach_done by exact Ha.
    + erewrite on_mach_done by exact Hr. unfold cycled. now rewrite (proj1 Hon).
  - exists m. intros k' k'' -> ->. split; reflexivity.
Qed.

Lemma free_pages_pop k p l :
  free_pages k (p :: l) ->
  km_freelist k = p /\ p <> 0 /\ page_ok k p /\ (p ∉ l) /\
  free_pages (set_freelist (word (km_mem k) p) (km_mem k) k) l.
Proof.
  intros (Hc & Hnd & Hok). inversion Hc as [|a l' Ha Hc' E1 E2]; subst.
  apply NoDup_cons in Hnd as [Hnin Hnd]. apply Forall_cons_iff in Hok as [Hp Hok].
  split; [reflexivity|]. split; [done|]. split; [done|]. split; [done|].
  split; [exact Hc'|]. split; [done|]. eapply Forall_impl; [exact Hok|].
  intros a. now apply page_ok_irrel.
Qed.

Lemma free_pages_push k v l :
  free_pages k l -> page_ok k v -> v ∉ l ->
  free_pages (set_freelist v (<[v := km_freelist k]> (memset_page (km_mem k) v 1)) k) (v :: l).
Proof.
  intros (Hc & Hnd & Hok) Hv Hnin. pose proof (page_ok_pos _ _ Hv). split; [|split].
  - simpl. constructor; [lia|]. unfold word at 1. rewrite lookup_insert_eq. simpl.
    eapply chain_ext; [exact Hc|]. intros a Ha.
    assert (a <> v) by (intros ->; contradiction).
    transitivity (word (memset_page (km_mem k) v 1) a).
    + unfold word. now rewrite lookup_insert_ne.
    + eapply word_memset_other; [exact Hv| |done].
      eapply Forall_forall in Hok; [exact Hok|exact Ha].
  - now apply NoDup_cons.
  - constructor; [now apply (page_ok_irrel k)|]. eapply Forall_impl; [exact Hok|].
    intros a. now apply page_ok_irrel.
Qed.

(** [kalloc] pops the page stack. *)
Lemma kalloc_run s l :
  ready [KMEM_LOCK] (ks_mach s) -> free_pages (ks_kmem s) l ->
  exists k', kalloc s = Done (default 0 (head l)) (mkKst (after_lock s) k') /\
    free_pages k' (tail l) /\ km_mem k' = km_mem (ks_kmem s) /\ km_end k' = km_end (ks_kmem s) /\
    km_use_lock k' = km_use_lock (ks_kmem s).
Proof.
  destruct s as [m k]. simpl. intros Hr Hfp. destruct (lock_kmem m k Hr) as (m1 & Hlk).
  unfold kalloc. erewrite bind_done by (apply gets_done). simpl.
  erewrite bind_done by (apply (Hlk k k); reflexivity).
  erewrite bind_done by (apply gets_done). simpl.
  destruct l as [|p l].
  - destruct Hfp as (Hc & Hrest). exists k. assert (Hh : km_freelist k = 0) by (inversion Hc; congruence).
    rewrite Hh. simpl. unfold when at 1, ret at 1.
    erewrite bind_done by reflexivity. erewrite bind_done by (apply gets_done). simpl.
    erewrite bind_done by (apply (Hlk k k); reflexivity).
    repeat split; try reflexivity; [exact Hc|apply Hrest..].
  - destruct (free_pages_pop _ _ _ Hfp) as (-> & Hp0 & _ & _ & Hfp').
    eexists (set_freelist (word (km_mem k) p) (km_mem k) k).
    replace (p =? 0) with false by lia. simpl. unfold modify.
    erewrite bind_done by reflexivity. erewrite bind_done by (apply gets_done). simpl.
    erewrite bind_done by (apply (Hlk k (set_freelist (word (km_mem k) p) (km_mem k) k)); reflexivity).
    repeat split; try reflexivity; apply Hfp'.
Qed.

(** [kfree] pushes on the page stack. *)
Lemma kfree_run s l v :
  ready [KMEM_LOCK] (ks_mach s) -> free_pages (ks_kmem s) l -> page_ok (ks_kmem s) v -> v ∉ l ->
  exists k', kfree v s = Done tt (mkKst (after_lock s) k') /\ free_pages k' (v :: l) /\
    km_end k' = km_end (ks_kmem s) /\ km_use_lock k' = km_use_lock (ks_kmem s) /\
    km_mem k' = <[v := km_freelist (ks_kmem s)]> (memset_page (km_mem (ks_kmem s)) v 1).
Proof.
  destruct s as [m k]. simpl. intros Hr Hfp Hv Hnin. destruct (lock_kmem m k Hr) as (m1 & Hlk).
  exists (set_freelist v (<[v := km_freelist k]> (memset_page (km_mem k) v 1)) k).
  split; [|split; [now apply free_pages_push|repeat split]].
  unfold kfree. erewrite bind_done by (apply gets_done). simpl. rewrite (proj1 Hv).
  unfold modify. erewrite bind_done by reflexivity.
  erewrite bind_done by (apply gets_done). cbn [set_kmem ks_kmem ks_mach].
  erewrite bind_done by (apply (Hlk (set_freelist (km_freelist k) (memset_page (km_mem k) v 1) k) k); reflexivity).
  erewrite bind_done by reflexivity. erewrite bind_done by (apply gets_done).
  cbn [set_kmem ks_kmem ks_mach]. now apply (Hlk k).
Qed.

Lemma kfree_panics s v : kfree_bad (ks_kmem s) v = true -> kfree v s = Crash "kfree".
Proof. intros H. unfold kfree. erewrite bind_done by (apply gets_done). now rewrite H. Qed.

Lemma after_lock_ready s : ready [KMEM_LOCK] (ks_mach s) -> ready [KMEM_LOCK] (after_lock s).
Proof. unfold after_lock. destruct (km_use_lock (ks_kmem s)); [apply cycled_ready|done]. Qed.

(** The pages [freerange] frees, in the order of its loop. *)
Fixpoint pages (p : Z) (n : nat) : list Z :=
  match n with
  | O => []
  | S n => p :: pages (p + PGSIZE) n
  end.

Lemma elem_of_pages p n a : a ∈ pages p n -> exists i, (i < n)%nat /\ a = p + PGSIZE * Z.of_nat i.
Proof.
  revert p. induction n as [|n IH]; intros p H; simpl in H; [inversion H|].
  apply elem_of_cons in H as [->|H]; [exists 0%nat; lia|].
  apply IH in H as (i & ? & ->). exists (S i). lia.
Qed.

(** The region handed to [freerange]: whole pages above the kernel image and
    below the top of physical memory. *)
Definition region_ok (k : kmem) (p vend : Z) : Prop :=
  p mod PGSIZE = 0 /\ km_end k <= p /\ KERNBASE <= p <= vend /\ vend <= KERNBASE + PHYSTOP.

Lemma region_page k p vend : region_ok k p vend -> p + PGSIZE <= vend -> page_ok k p.
Proof.
  unfold region_ok, page_ok, kfree_bad, V2P, u32, KERNBASE, PHYSTOP, PGSIZE. intros H H'.
  split; [|lia]. rewrite (Z.mod_small (p - _)) by lia. lia.
Qed.

Lemma freerange_loop_run n s p vend l :
  ready [KMEM_LOCK] (ks_mach s) -> free_pages (ks_kmem s) l ->
  region_ok (ks_kmem s) p vend -> (Z.to_nat ((vend - p) / PGSIZE) < n)%nat ->
  (forall a, a ∈ l -> a < p \/ vend < a + PGSIZE) ->
  exists s', freerange_loop n p vend s = Done tt s' /\
    free_pages (ks_kmem s') (rev (pages p (Z.to_nat ((vend - p) / PGSIZE))) ++ l) /\
    ready [KMEM_LOCK] (ks_mach s') /\ km_end (ks_kmem s') = km_end (ks_kmem s).
Proof.
  revert s p l. induction n as [|n IH]; intros s p l Hr Hfp Hreg Hn Hdis; [lia|]. simpl.
  pose proof Hreg as (Hal & Hend & Hlo & Hhi).
  destruct (Z.leb_spec (p + PGSIZE) vend) as [Hle|Hgt].
  - assert (Hnin : p ∉ l).
    { intros Hin. specialize (Hdis p Hin). lia. }
    destruct (kfree_run s l p Hr Hfp (region_page _ _ _ Hreg Hle) Hnin) as (k' & Hk & Hfp' & Hend' & _).
    erewrite bind_done by exact Hk.
    assert (Hq : Z.to_nat ((vend - p) / PGSIZE) = S (Z.to_nat ((vend - (p + PGSIZE)) / PGSIZE))).
    { unfold PGSIZE in *. Z.div_mod_to_equations; lia. }
    destruct (IH (mkKst (after_lock s) k') (p + PGSIZE) (p :: l)) as (s' & Hrun & Hfp2 & Hr2 & He2).
    + apply after_lock_ready, Hr.
    + exact Hfp'.
    + unfold region_ok in *. simpl. rewrite Hend'. unfold PGSIZE in *. Z.div_mod_to_equations; lia.
    + lia.
    + intros a [->|Ha]%elem_of_cons; [unfold PGSIZE; lia|]. specialize (Hdis a Ha). unfold PGSIZE in *. lia.
    + exists s'. split; [exact Hrun|]. split; [|split; [exact Hr2|simpl in He2; congruence]].
      rewrite Hq. simpl. now rewrite <- app_assoc.
  - exists s. assert ((vend - p) / PGSIZE = 0) as -> by (apply Z.div_small; unfold PGSIZE in *; lia).
    simpl. auto.
Qed.

(** The allocator implements a stack of pages: [kalloc] removes and
    returns the page freed last, or returns null when none is left; [kfree]
    of a page that is not free puts it on top, whatever the page held; a
    misaligned page or one outside the memory the kernel manages panics. *)
Theorem kalloc_refines_stack (s : kst) (l : list Z) :
  ready [KMEM_LOCK] (ks_mach s) -> free_pages (ks_kmem s) l ->
  (exists k', kalloc s = Done (default 0 (head l)) (mkKst (after_lock s) k') /\ free_pages k' (tail l)) /\
  (forall v, kfree_bad (ks_kmem s) v = true -> kfree v s = Crash "kfree") /\
  (forall v, page_ok (ks_kmem s) v -> v ∉ l ->
     exists k', kfree v s = Done tt (mkKst (after_lock s) k') /\ free_pages k' (v :: l)).
Proof.
  intros Hr Hfp. split; [|split].
  - destruct (kalloc_run s l Hr Hfp) as (k' & ? & ? & _). eauto.
  - intros v. apply kfree_panics.
  - intros v Hv Hnin. destruct (kfree_run s l v Hr Hfp Hv Hnin) as (k' & ? & ? & _). eauto.
Qed.

Definition boot_kst (lock : bool) : kst := mkKst two_cpus (mkKmem lock 0 ∅ 0x80115000).

Lemma boot_ready lock : ready [KMEM_LOCK] (ks_mach (boot_kst lock)).
Proof.
  split; [|repeat constructor]. eexists. split; [apply two_cpus_on|simpl; lia].
Qed.

Lemma boot_free lock : free_pages (ks_kmem (boot_kst lock)) [].
Proof. split; [constructor|split; constructor]. Qed.

Lemma kalloc_refines_stack_witness :
  (exists k', kalloc (boot_kst true) = Done 0 (mkKst (after_lock (boot_kst true)) k') /\ free_pages k' []) /\
  kfree 0x80115001 (boot_kst true) = Crash "kfree" /\
  exists k', kfree 0x80116000 (boot_kst true) = Done tt (mkKst (after_lock (boot_kst true)) k') /\
    free_pages k' [0x80116000].
Proof.
  destruct (kalloc_refines_stack (boot_kst true) [] (boot_ready true) (boot_free true)) as (H1 & H2 & H3).
  split; [exact H1|]. split; [apply H2; reflexivity|].
  apply H3; [split; [reflexivity|lia]|apply not_elem_of_nil].
Defined.

(** [freerange] (hence [kinit1] and [kinit2]) ends and frees exactly the
    whole pages between [PGROUNDUP vstart] and [vend], each once, the last
    one on top of the pages that were free before. *)
Theorem freerange_frees_all (s : kst) (vstart vend : Z) (l : list Z) :
  ready [KMEM_LOCK] (ks_mach s) -> free_pages (ks_kmem s) l ->
  KERNBASE <= vstart <= vend -> km_end (ks_kmem s) <= vstart ->
  PGROUNDUP vstart <= vend <= KERNBASE + PHYSTOP ->
  (forall a, a ∈ l -> a < PGROUNDUP vstart \/ vend < a + PGSIZE) ->
  exists s', freerange vstart vend s = Done tt s' /\
    free_pages (ks_kmem s') (rev (pages (PGROUNDUP vstart) (Z.to_nat ((vend - PGROUNDUP vstart) / PGSIZE))) ++ l).
Proof.
  intros Hr Hfp Hk He Hv Hdis.
  assert (Hup : PGROUNDUP vstart = 4096 * ((vstart + 4095) / 4096)).
  { apply PGROUNDUP_eq. unfold KERNBASE, PHYSTOP in *. lia. }
  destruct (freerange_loop_run (S (Z.to_nat (vend / PGSIZE))) s (PGROUNDUP vstart) vend l)
    as (s' & Hrun & Hf & _); auto.
  - unfold region_ok, PGSIZE, KERNBASE in *. rewrite Hup in *. Z.div_mod_to_equations; lia.
  - rewrite Hup in *. unfold PGSIZE, KERNBASE in *. Z.div_mod_to_equations; lia.
  - eauto.
Qed.

Lemma freerange_frees_all_witness :
  exists s', freerange 0x80115678 0x80118fff (boot_kst false) = Done tt s' /\
    free_pages (ks_kmem s') [0x80117000; 0x80116000].
Proof.
  destruct (freerange_frees_all (boot_kst false) 0x80115678 0x80118fff [] (boot_ready false) (boot_free false))
    as (s' & Hrun & Hf).
  - unfold KERNBASE. lia.
  - cbn [ks_kmem boot_kst km_end]. lia.
  - change (PGROUNDUP 0x80115678) with 0x80116000. unfold KERNBASE, PHYSTOP. lia.
  - intros a Ha. now apply not_elem_of_nil in Ha.
  - exists s'. split; [exact Hrun|].
    replace [0x80117000; 0x80116000]
      with (rev (pages (PGROUNDUP 0x80115678) (Z.to_nat ((0x80118fff - PGROUNDUP 0x80115678) / PGSIZE))) ++ [])
      by (vm_compute; reflexivity).
    exact Hf.
Defined.
