(* ===== verification/Vm.v ===== *)
(** * Virtual memory (vm.c)

    Two-level page tables in the words of physical memory that Kalloc keeps:
    a page directory and its page tables are pages obtained from [kalloc], and
    an entry is a word of such a page.  Every function of vm.c on page tables
    is a program over the allocator's state; addresses are the kernel's
    virtual addresses, at which all of physical memory is mapped.  Messages
    printed on the console are not part of the state.

    [pte_at] is the abstract view: the entry of a virtual address, 0 when its
    page table does not exist.  [pt_wf] says that the page tables of a
    directory are distinct pages outside the free list; under it the
    operations are updates of [pte_at]. *)
From S2P Require Import Prelude Mmu Spinlock Kalloc.

(** ** Words and bytes of memory *)
Definition load (a : Z) : M kst Z := gets (fun s => word (km_mem (ks_kmem s)) a).
Definition upd_mem (f : gmap Z Z -> gmap Z Z) (s : kst) : kst :=
  let k := ks_kmem s in set_kmem (mkKmem (km_use_lock k) (km_freelist k) (f (km_mem k)) (km_end k)) s.
Definition store (a v : Z) : M kst unit := modify (upd_mem (<[a := v]>)).
Definition zero_page (v : Z) : M kst unit := modify (upd_mem (fun mem => memset_page mem v 0)).

Definition byte_at (mem : gmap Z Z) (a : Z) : Z := (word mem (a - a mod 4) / 2 ^ (8 * (a mod 4))) mod 256.
Definition put_byte (a v : Z) (mem : gmap Z Z) : gmap Z Z :=
  <[a - a mod 4 := word mem (a - a mod 4) + (u8 v - byte_at mem a) * 2 ^ (8 * (a mod 4))]> mem.

(** [memmove] of string.c on these bytes. *)
Fixpoint move_forward (n : nat) (d s : Z) (mem : gmap Z Z) : gmap Z Z :=
  match n with
  | O => mem
  | S n => move_forward n (d + 1) (s + 1) (put_byte d (byte_at mem s) mem)
  end.
Fixpoint move_backward (n : nat) (d s : Z) (mem : gmap Z Z) : gmap Z Z :=
  match n with
  | O => mem
  | S n => move_backward n d s (put_byte (d + Z.of_nat n) (byte_at mem (s + Z.of_nat n)) mem)
  end.
Definition move_bytes (dst src n : Z) (mem : gmap Z Z) : gmap Z Z :=
  if (src <? dst) && (dst <? src + n) then move_backward (Z.to_nat n) dst src mem
  else move_forward (Z.to_nat n) dst src mem.
Definition kmemmove (dst src n : Z) : M kst unit := modify (upd_mem (move_bytes dst src n)).

(** ** Page tables *)
Definition present (pte : Z) : bool := negb (Z.land pte PTE_P =? 0).

(** The address of the entry of [va], 0 when its page table does not exist
    and cannot be created. *)
Definition walkpgdir (pgdir va : Z) (alloc : bool) : M kst Z :=
  let pde := pgdir + 4 * PDX va in
  e <~ load pde ;;
  if present e then ret (P2V (PTE_ADDR e) + 4 * PTX va)
  else if negb alloc then ret 0
  else
    pgtab <~ kalloc ;;
    if pgtab =? 0 then ret 0
    else
      zero_page pgtab ;;;
      store pde (Z.lor (Z.lor (Z.lor (V2P pgtab) PTE_P) PTE_W) PTE_U) ;;;
      ret (pgtab + 4 * PTX va).

(** The loop of [mappages]; [n] bounds its iterations. *)
Fixpoint mappages_loop (n : nat) (pgdir a last pa perm : Z) : M kst Z :=
  match n with
  | O => fun _ => Spin
  | S n =>
      pte <~ walkpgdir pgdir a true ;;
      if pte =? 0 then ret (-1)
      else
        e <~ load pte ;;
        if present e then panic "remap"
        else
          store pte (Z.lor (Z.lor pa perm) PTE_P) ;;;
          if a =? last then ret 0
          else mappages_loop n pgdir (u32 (a + PGSIZE)) last (u32 (pa + PGSIZE)) perm
  end.
(** The iterations go from [a] to [last], modulo the width of an address. *)
Definition mappages (pgdir va size pa perm : Z) : M kst Z :=
  let a := PGROUNDDOWN va in
  let last := PGROUNDDOWN (u32 (va + size - 1)) in
  mappages_loop (S (Z.to_nat (u32 (last - a) / PGSIZE))) pgdir a last pa perm.

(** The loop of [deallocuvm]. *)
Fixpoint deallocuvm_loop (n : nat) (pgdir a oldsz : Z) : M kst unit :=
  match n with
  | O => fun _ => Spin
  | S n =>
      if a <? oldsz then
        pte <~ walkpgdir pgdir a false ;;
        if pte =? 0 then deallocuvm_loop n pgdir (u32 (u32 (PGADDR (PDX a + 1) 0 0 - PGSIZE) + PGSIZE)) oldsz
        else
          e <~ load pte ;;
          when (present e)
            (let pa := PTE_ADDR e in
             if pa =? 0 then panic "kfree"
             else kfree (P2V pa) ;;; store pte 0) ;;;
          deallocuvm_loop n pgdir (u32 (a + PGSIZE)) oldsz
      else ret tt
  end.
Definition deallocuvm (pgdir oldsz newsz : Z) : M kst Z :=
  if oldsz <=? newsz then ret oldsz
  else
    deallocuvm_loop (S (Z.to_nat (oldsz / PGSIZE) + 1)) pgdir (PGROUNDUP newsz) oldsz ;;;
    ret newsz.

Definition freevm (pgdir : Z) : M kst unit :=
  if pgdir =? 0 then panic "freevm: no pgdir"
  else
    deallocuvm pgdir KERNBASE 0 ;;;
    for_each (seq 0 (Z.to_nat NPDENTRIES)) (fun i =>
      e <~ load (pgdir + 4 * Z.of_nat i) ;;
      when (present e) (kfree (P2V (PTE_ADDR e)))) ;;;
    kfree pgdir.

(** [kmap]; [data] is the address of the symbol of kernel.ld. *)
Record kmap_entry := mkKmap { km_virt : Z; km_start : Z; km_stop : Z; km_perm : Z }.
Definition kmap (data : Z) : list kmap_entry :=
  [mkKmap KERNBASE 0 EXTMEM PTE_W;
   mkKmap KERNLINK (V2P KERNLINK) (V2P data) 0;
   mkKmap data (V2P data) PHYSTOP PTE_W;
   mkKmap DEVSPACE DEVSPACE 0 PTE_W].

(** The mappings one after the other; [false] when one fails. *)
Fixpoint map_all (pgdir : Z) (l : list kmap_entry) : M kst bool :=
  match l with
  | [] => ret true
  | k :: l =>
      r <~ mappages pgdir (km_virt k) (u32 (km_stop k - km_start k)) (km_start k) (km_perm k) ;;
      if r <? 0 then ret false else map_all pgdir l
  end.
Definition setupkvm (data : Z) : M kst Z :=
  pgdir <~ kalloc ;;
  if pgdir =? 0 then ret 0
  else
    zero_page pgdir ;;;
    if DEVSPACE <? P2V PHYSTOP then panic "PHYSTOP too high"
    else
      ok <~ map_all pgdir (kmap data) ;;
      if (ok : bool) then ret pgdir else freevm pgdir ;;; ret 0.

(** [lcr3] on the processor that is executing, and [kvmalloc], whose result is
    the variable [kpgdir]. *)
Definition lcr3 (v : Z) : M kst unit := on_mach (modify (fun m => upd_cpu (m_cur m) (set_cr3 v) m)).
Definition kvmalloc (data : Z) : M kst Z :=
  kpgdir <~ setupkvm data ;;
  lcr3 (V2P kpgdir) ;;;
  ret kpgdir.

(** The segments of a processor; [lgdt] makes it use them. *)
Definition kernel_segments (gdt : list segdesc) : list segdesc :=
  <[Z.to_nat SEG_UDATA := SEG STA_W 0 0xffffffff DPL_USER]>
  (<[Z.to_nat SEG_UCODE := SEG (Z.lor STA_X STA_R) 0 0xffffffff DPL_USER]>
   (<[Z.to_nat SEG_KDATA := SEG STA_W 0 0xffffffff 0]>
    (<[Z.to_nat SEG_KCODE := SEG (Z.lor STA_X STA_R) 0 0xffffffff 0]> gdt))).
Definition seginit : M mach unit :=
  c <~ mycpu ;;
  modify (upd_cpu c (fun cp => let g := c_seg cp in
    set_seg (mkSeg (sg_ts g) (kernel_segments (sg_gdt g)) (sg_gdtr g) (sg_idtr g) (sg_tr g)) cp)) ;;;
  modify (upd_cpu c (fun cp => let g := c_seg cp in
    set_seg (mkSeg (sg_ts g) (sg_gdt g) true (sg_idtr g) (sg_tr g)) cp)).

(** Bytes from elsewhere copied to the address [dst]. *)
Fixpoint put_bytes (dst : Z) (x : list Z) (mem : gmap Z Z) : gmap Z Z :=
  match x with
  | [] => mem
  | b :: x => put_bytes (dst + 1) x (put_byte dst b mem)
  end.
Definition kput (dst : Z) (x : list Z) : M kst unit := modify (upd_mem (put_bytes dst x)).

(** ** User memory *)

(** Without memory [mem] is null, and writing to it has no defined result. *)
Definition inituvm (pgdir init sz : Z) : M kst unit :=
  if PGSIZE <=? sz then panic "inituvm: more than a page"
  else
    mem <~ kalloc ;;
    if mem =? 0 then panic "null pointer"
    else
      zero_page mem ;;;
      mappages pgdir 0 PGSIZE (V2P mem) (Z.lor PTE_W PTE_U) ;;;
      kmemmove mem init sz.

(** The loop of [allocuvm]. *)
Fixpoint allocuvm_loop (n : nat) (pgdir a oldsz newsz : Z) : M kst Z :=
  match n with
  | O => fun _ => Spin
  | S n =>
      if a <? newsz then
        mem <~ kalloc ;;
        if mem =? 0 then deallocuvm pgdir newsz oldsz ;;; ret 0
        else
          zero_page mem ;;;
          r <~ mappages pgdir a PGSIZE (V2P mem) (Z.lor PTE_W PTE_U) ;;
          if r <? 0 then deallocuvm pgdir newsz oldsz ;;; kfree mem ;;; ret 0
          else allocuvm_loop n pgdir (u32 (a + PGSIZE)) oldsz newsz
      else ret newsz
  end.
Definition allocuvm (pgdir oldsz newsz : Z) : M kst Z :=
  if KERNBASE <=? newsz then ret 0
  else if newsz <? oldsz then ret oldsz
  else allocuvm_loop (S (Z.to_nat (newsz / PGSIZE) + 1)) pgdir (PGROUNDUP oldsz) oldsz newsz.

Definition clearpteu (pgdir uva : Z) : M kst unit :=
  pte <~ walkpgdir pgdir uva false ;;
  if pte =? 0 then panic "clearpteu"
  else e <~ load pte ;; store pte (Z.land e (u32 (Z.lnot PTE_U))).

(** The loop of [copyuvm]; [false] stands for the jump to [bad]. *)
Fixpoint copyuvm_loop (n : nat) (pgdir d i sz : Z) : M kst bool :=
  match n with
  | O => fun _ => Spin
  | S n =>
      if i <? sz then
        pte <~ walkpgdir pgdir i false ;;
        if pte =? 0 then panic "copyuvm: pte should exist"
        else
          e <~ load pte ;;
          if negb (present e) then panic "copyuvm: page not present"
          else
            let pa := PTE_ADDR e in
            let flags := PTE_FLAGS e in
            mem <~ kalloc ;;
            if mem =? 0 then ret false
            else
              kmemmove mem (P2V pa) PGSIZE ;;;
              r <~ mappages d i PGSIZE (V2P mem) flags ;;
              if r <? 0 then kfree mem ;;; ret false
              else copyuvm_loop n pgdir d (u32 (i + PGSIZE)) sz
      else ret true
  end.
Definition copyuvm (data pgdir sz : Z) : M kst Z :=
  d <~ setupkvm data ;;
  if d =? 0 then ret 0
  else
    ok <~ copyuvm_loop (S (Z.to_nat (sz / PGSIZE) + 1)) pgdir d 0 sz ;;
    if (ok : bool) then ret d else freevm d ;;; ret 0.

(** The entry is read before the pointer is tested. *)
Definition uva2ka (pgdir uva : Z) : M kst Z :=
  pte <~ walkpgdir pgdir uva false ;;
  if pte =? 0 then panic "null pointer"
  else
    e <~ load pte ;;
    if negb (present e) then ret 0
    else if Z.land e PTE_U =? 0 then ret 0
    else ret (P2V (PTE_ADDR e)).

(** [buf] is the [len] bytes the pointer points to, in the kernel or in the
    address space in use. *)
Fixpoint copyout_loop (fuel : nat) (pgdir va : Z) (buf : list Z) (len : Z) : M kst Z :=
  match fuel with
  | O => fun _ => Spin
  | S fuel =>
      if 0 <? len then
        let va0 := PGROUNDDOWN va in
        pa0 <~ uva2ka pgdir va0 ;;
        if pa0 =? 0 then ret (-1)
        else
          let n := Z.min (PGSIZE - (va - va0)) len in
          kput (pa0 + (va - va0)) (take (Z.to_nat n) buf) ;;;
          copyout_loop fuel pgdir (u32 (va0 + PGSIZE)) (drop (Z.to_nat n) buf) (len - n)
      else ret 0
  end.
Definition copyout (pgdir va : Z) (p : list Z) (len : Z) : M kst Z :=
  copyout_loop (S (S (Z.to_nat (len / PGSIZE + 1)))) pgdir va p len.

(** [loaduvm] reads from an inode: [readi] is the function of fs.c on the
    state of the kernel, of which the allocator's is a part. *)
Section Load.
Context {S : Type} (lift : forall A, M kst A -> M S A) (readi : Z -> Z -> Z -> M S Z).
Fixpoint loaduvm_loop (fuel : nat) (pgdir addr offset i sz : Z) : M S Z :=
  match fuel with
  | O => fun _ => Spin
  | Datatypes.S fuel =>
      if i <? sz then
        pte <~ lift _ (walkpgdir pgdir (u32 (addr + i)) false) ;;
        if pte =? 0 then panic "loaduvm: address should exist"
        else
          e <~ lift _ (load pte) ;;
          let pa := PTE_ADDR e in
          let n := if sz - i <? PGSIZE then sz - i else PGSIZE in
          r <~ readi (P2V pa) (u32 (offset + i)) n ;;
          if negb (r =? n) then ret (-1)
          else loaduvm_loop fuel pgdir addr offset (u32 (i + PGSIZE)) sz
      else ret 0
  end.
Definition loaduvm (pgdir addr offset sz : Z) : M S Z :=
  if negb (addr mod PGSIZE =? 0) then panic "loaduvm: addr must be page aligned"
  else loaduvm_loop (Datatypes.S (Z.to_nat (sz / PGSIZE) + 1)) pgdir addr offset 0 sz.
End Load.

(** ** The abstract view *)
Definition tab (mem : gmap Z Z) (pgdir i : Z) : Z := P2V (PTE_ADDR (word mem (pgdir + 4 * i))).
Definition has_tab (mem : gmap Z Z) (pgdir i : Z) : bool := present (word mem (pgdir + 4 * i)).
Definition pte_at (mem : gmap Z Z) (pgdir va : Z) : Z :=
  if has_tab mem pgdir (PDX va) then word mem (tab mem pgdir (PDX va) + 4 * PTX va) else 0.
(** The page a virtual address is mapped to. *)
Definition frame (mem : gmap Z Z) (pgdir va : Z) : Z := P2V (PTE_ADDR (pte_at mem pgdir va)).
Definition is_tab (mem : gmap Z Z) (pgdir v : Z) : Prop :=
  exists i, 0 <= i < 1024 /\ has_tab mem pgdir i = true /\ tab mem pgdir i = v.

(** The page tables of [pgdir] are distinct pages, none of them free. *)
Record pt_wf (k : kmem) (pgdir : Z) (l : list Z) : Prop := {
  wf_dir : page_ok k pgdir;
  wf_dir_used : pgdir ∉ l;
  wf_tab v : is_tab (km_mem k) pgdir v -> page_ok k v /\ v <> pgdir /\ v ∉ l;
  wf_inj i j : 0 <= i < 1024 -> 0 <= j < 1024 -> has_tab (km_mem k) pgdir i = true ->
    has_tab (km_mem k) pgdir j = true -> tab (km_mem k) pgdir i = tab (km_mem k) pgdir j -> i = j;
}.

(** ** Lemmas on words *)
Lemma upd_mem_mem f s : km_mem (ks_kmem (upd_mem f s)) = f (km_mem (ks_kmem s)).
Proof. reflexivity. Qed.
Lemma upd_mem_end f s : km_end (ks_kmem (upd_mem f s)) = km_end (ks_kmem s).
Proof. reflexivity. Qed.
Lemma upd_mem_mach f s : ks_mach (upd_mem f s) = ks_mach s.
Proof. reflexivity. Qed.

Lemma word_insert mem a v b : word (<[a := v]> mem) b = if decide (a = b) then v else word mem b.
Proof.
  unfold word. destruct (decide (a = b)) as [->|Hne]; [now rewrite lookup_insert_eq|now rewrite lookup_insert_ne].
Qed.

Lemma page_aligned k v : page_ok k v -> v mod 4096 = 0.
Proof. unfold page_ok, kfree_bad, PGSIZE. intros [H _]. lia. Qed.

Lemma apart v w x y :
  v mod 4096 = 0 -> w mod 4096 = 0 -> v <> w -> 0 <= x < 4096 -> 0 <= y < 4096 -> v + x <> w + y.
Proof. intros. Z.div_mod_to_equations. lia. Qed.

Lemma stosl_at n mem v d i : (i < n)%nat -> word (stosl mem v d n) (v + 4 * Z.of_nat i) = d.
Proof.
  revert mem v i. induction n as [|n IH]; intros mem v i Hi; simpl; [lia|]. destruct i as [|i].
  - unfold word. rewrite stosl_lookup by lia. replace (v + 4 * Z.of_nat 0) with v by lia. now rewrite lookup_insert_eq.
  - replace (v + 4 * Z.of_nat (S i)) with (v + 4 + 4 * Z.of_nat i) by lia. apply IH. lia.
Qed.

Lemma word_zeroed mem v i : 0 <= i < 1024 -> word (memset_page mem v 0) (v + 4 * i) = 0.
Proof.
  intros Hi. unfold memset_page. change (Z.to_nat (PGSIZE / 4)) with 1024%nat.
  replace i with (Z.of_nat (Z.to_nat i)) by lia. apply stosl_at. lia.
Qed.

Lemma word_outside mem v c w x :
  v mod 4096 = 0 -> w mod 4096 = 0 -> v <> w -> 0 <= x < 4096 -> word (memset_page mem v c) (w + x) = word mem (w + x).
Proof.
  intros Hv Hw Hne Hx. unfold word, memset_page. f_equal. apply stosl_lookup.
  change (Z.to_nat (PGSIZE / 4)) with 1024%nat. intros i Hi.
  apply not_eq_sym, (apart v w (4 * Z.of_nat i) x); lia || done.
Qed.

(** Conversion never needs the 1024 stores of a [memset]. *)
#[local] Opaque memset_page upd_mem.

Lemma PDX_range va : 0 <= PDX va < 1024.
Proof. unfold PDX. change 0x3FF with (2 ^ 10 - 1). rewrite land_low_mask by lia. apply Z.mod_pos_bound. lia. Qed.
Lemma PTX_range va : 0 <= PTX va < 1024.
Proof. rewrite PTX_eq. apply Z.mod_pos_bound. lia. Qed.

Lemma same_page va va' : 0 <= va < 2 ^ 32 -> 0 <= va' < 2 ^ 32 ->
  va / 4096 = va' / 4096 <-> PDX va = PDX va' /\ PTX va = PTX va'.
Proof. intros. rewrite !PDX_eq, !PTX_eq by done. change (2 ^ 12) with 4096. Z.div_mod_to_equations. lia. Qed.

(** The directory entry of a new page table. *)
Definition new_pde (t : Z) : Z := Z.lor (Z.lor (Z.lor (V2P t) PTE_P) PTE_W) PTE_U.

Lemma page_ok_high k v : page_ok k v -> KERNBASE <= v < KERNBASE + PHYSTOP /\ V2P v = v - KERNBASE.
Proof.
  unfold page_ok, kfree_bad, V2P, u32, KERNBASE, PHYSTOP. intros [H1 H2]. Z.div_mod_to_equations. lia.
Qed.

Lemma lor_flags a f : a mod 4096 = 0 -> 0 <= f < 4096 -> Z.lor a f = a + f.
Proof.
  intros Ha Hf. replace a with (a / 4096 * 2 ^ 12) by (change (2 ^ 12) with 4096; Z.div_mod_to_equations; lia).
  apply lor_disjoint_add; [lia|exact Hf].
Qed.

(** An entry composed of a page and flags. *)
Lemma entry_frame k v f : page_ok k v -> 0 <= f < 4096 ->
  Z.lor (V2P v) f = V2P v + f /\ P2V (PTE_ADDR (V2P v + f)) = v /\ PTE_FLAGS (V2P v + f) = f /\ 0 < PTE_ADDR (V2P v + f) + 1.
Proof.
  intros Hv Hf. pose proof (page_aligned k v Hv) as Hal. destruct (page_ok_high k v Hv) as [Hh ->].
  unfold KERNBASE, PHYSTOP in *. rewrite lor_flags by (Z.div_mod_to_equations; lia).
  rewrite PTE_ADDR_eq, PTE_FLAGS_eq by lia. unfold P2V, KERNBASE.
  replace (4096 * ((v - 2147483648 + f) / 4096)) with (v - 2147483648) by (Z.div_mod_to_equations; lia).
  rewrite u32_small by lia. Z.div_mod_to_equations. lia.
Qed.

Lemma new_pde_eq k t : page_ok k t -> new_pde t = V2P t + 7.
Proof.
  intros Ht. unfold new_pde. rewrite <- !Z.lor_assoc. change (Z.lor PTE_P (Z.lor PTE_W PTE_U)) with 7.
  now apply (entry_frame k t 7); [|lia].
Qed.

Lemma present_eq e : present e = (e mod 2 =? 1).
Proof.
  unfold present, PTE_P. change 1 with (2 ^ 1 - 1) at 1. rewrite land_low_mask by lia. change (2 ^ 1) with 2.
  pose proof (Z.mod_pos_bound e 2). lia.
Qed.

Lemma present_add k v f : page_ok k v -> present (V2P v + f) = present f.
Proof.
  intros Hv. pose proof (page_aligned k v Hv). destruct (page_ok_high k v Hv) as [Hh ->]. rewrite !present_eq.
  unfold KERNBASE in *. f_equal. Z.div_mod_to_equations. lia.
Qed.

(** ** Changes of memory seen through the abstract view *)
Section View.
Context (pgdir : Z).
Implicit Types (mem : gmap Z Z).

(** Equal on the words of a page. *)
Definition page_eq (mem mem' : gmap Z Z) (v : Z) : Prop := forall i, 0 <= i < 1024 -> word mem' (v + 4 * i) = word mem (v + 4 * i).

Lemma dir_ext mem mem' i : page_eq mem mem' pgdir -> 0 <= i < 1024 ->
  has_tab mem' pgdir i = has_tab mem pgdir i /\ tab mem' pgdir i = tab mem pgdir i.
Proof. intros H Hi. unfold has_tab, tab. now rewrite H. Qed.

Lemma is_tab_ext mem mem' v : page_eq mem mem' pgdir -> is_tab mem' pgdir v <-> is_tab mem pgdir v.
Proof.
  intros H. split; intros (i & Hi & Hp & Ht); exists i; destruct (dir_ext mem mem' i H Hi) as [E1 E2]; repeat split; congruence || lia.
Qed.

Lemma pte_ext mem mem' va : page_eq mem mem' pgdir ->
  (forall v, is_tab mem pgdir v -> page_eq mem mem' v) -> pte_at mem' pgdir va = pte_at mem pgdir va.
Proof.
  intros H Ht. unfold pte_at. destruct (dir_ext mem mem' (PDX va) H (PDX_range va)) as [-> ->].
  destruct (has_tab mem pgdir (PDX va)) eqn:E; [|done]. apply Ht; [|apply PTX_range].
  exists (PDX va). repeat split; try done; apply PDX_range.
Qed.

Lemma page_eq_insert mem v w x e : v mod 4096 = 0 -> w mod 4096 = 0 -> v <> w -> 0 <= x < 1024 ->
  page_eq mem (<[w + 4 * x := e]> mem) v.
Proof.
  intros Hv Hw Hne Hx i Hi. rewrite word_insert, decide_False; [done|]. apply apart; lia || done.
Qed.

Lemma page_eq_memset mem v w c : v mod 4096 = 0 -> w mod 4096 = 0 -> v <> w -> page_eq mem (memset_page mem w c) v.
Proof. intros Hv Hw Hne i Hi. apply word_outside; lia || done. Qed.

Lemma page_eq_trans m1 m2 m3 v : page_eq m1 m2 v -> page_eq m2 m3 v -> page_eq m1 m3 v.
Proof. intros H1 H2 i Hi. now rewrite H2, H1. Qed.

Lemma has_is_tab mem i : 0 <= i < 1024 -> has_tab mem pgdir i = true -> is_tab mem pgdir (tab mem pgdir i).
Proof. intros Hi H. now exists i. Qed.

(** Writing the entry of [va]. *)
Lemma store_pte k l va e : pt_wf k pgdir l -> has_tab (km_mem k) pgdir (PDX va) = true -> 0 <= va < 2 ^ 32 ->
  let mem' := <[tab (km_mem k) pgdir (PDX va) + 4 * PTX va := e]> (km_mem k) in
  page_eq (km_mem k) mem' pgdir /\
  forall va', 0 <= va' < 2 ^ 32 -> pte_at mem' pgdir va' = if decide (va' / 4096 = va / 4096) then e else pte_at (km_mem k) pgdir va'.
Proof.
  intros Hwf Ht Hva mem'. set (mem := km_mem k) in *.
  destruct (wf_tab _ _ _ Hwf _ (has_is_tab mem _ (PDX_range va) Ht)) as (Hok & Hne & _).
  pose proof (page_aligned _ _ Hok) as Hal. pose proof (page_aligned _ _ (wf_dir _ _ _ Hwf)) as Hald.
  assert (Hdir : page_eq mem mem' pgdir) by (apply page_eq_insert; auto using PTX_range).
  split; [done|]. intros va' Hva'. unfold pte_at.
  destruct (dir_ext mem mem' (PDX va') Hdir (PDX_range va')) as [-> ->].
  destruct (has_tab mem pgdir (PDX va')) eqn:Ht'.
  - unfold mem'. rewrite word_insert. pose proof (same_page va va' Hva Hva') as Hsp.
    destruct (decide (va' / 4096 = va / 4096)) as [Heq|Hneq].
    + symmetry in Heq. apply Hsp in Heq as [-> ->]. now rewrite decide_True.
    + rewrite decide_False; [done|]. intros Heq. apply Hneq. symmetry. apply Hsp.
      pose proof (PTX_range va). pose proof (PTX_range va').
      destruct (wf_tab _ _ _ Hwf _ (has_is_tab mem _ (PDX_range va') Ht')) as (Hok' & _).
      pose proof (page_aligned _ _ Hok'). split; [|Z.div_mod_to_equations; lia].
      apply (wf_inj _ _ _ Hwf); auto using PDX_range. fold mem. Z.div_mod_to_equations. lia.
  - rewrite decide_False; [done|]. intros Heq. symmetry in Heq. apply (same_page va va' Hva Hva') in Heq as [E _]. congruence.
Qed.

(** A new page table for the directory entry [i]. *)
Definition with_table (i t : Z) (mem : gmap Z Z) : gmap Z Z := <[pgdir + 4 * i := new_pde t]> (memset_page mem t 0).

Lemma with_table_view k l i t : pt_wf k pgdir l -> page_ok k t -> t ∈ l -> 0 <= i < 1024 ->
  has_tab (km_mem k) pgdir i = false ->
  let mem' := with_table i t (km_mem k) in
  (forall j, 0 <= j < 1024 -> has_tab mem' pgdir j = (if decide (j = i) then true else has_tab (km_mem k) pgdir j) /\
     tab mem' pgdir j = if decide (j = i) then t else tab (km_mem k) pgdir j) /\
  (forall va, pte_at mem' pgdir va = pte_at (km_mem k) pgdir va) /\
  (forall v, v mod 4096 = 0 -> v <> pgdir -> v <> t -> page_eq (km_mem k) mem' v).
Proof.
  intros Hwf Ht Hin Hi Habs mem'. set (mem := km_mem k) in *.
  pose proof (page_aligned _ _ (wf_dir _ _ _ Hwf)) as Hald. pose proof (page_aligned _ _ Ht) as Halt.
  assert (Hdt : pgdir <> t) by (intros ->; now apply (wf_dir_used _ _ _ Hwf)).
  assert (Hdir : forall j, 0 <= j < 1024 -> word mem' (pgdir + 4 * j) = if decide (j = i) then new_pde t else word mem (pgdir + 4 * j)).
  { intros j Hj. unfold mem', with_table. rewrite word_insert, word_outside by (lia || done).
    destruct (decide (j = i)) as [->|]; [now rewrite decide_True|now rewrite decide_False by lia]. }
  assert (Hview : forall j, 0 <= j < 1024 -> has_tab mem' pgdir j = (if decide (j = i) then true else has_tab mem pgdir j) /\
     tab mem' pgdir j = if decide (j = i) then t else tab mem pgdir j).
  { intros j Hj. unfold has_tab, tab. rewrite Hdir by done. destruct (decide (j = i)); [|done].
    rewrite (new_pde_eq k t Ht), (present_add k t 7 Ht). destruct (entry_frame k t 7 Ht ltac:(lia)) as (_ & -> & _). done. }
  assert (Hother : forall v, v mod 4096 = 0 -> v <> pgdir -> v <> t -> page_eq mem mem' v).
  { intros v Hv Hd Hvt. eapply page_eq_trans; [apply (page_eq_memset mem v t 0)|apply page_eq_insert]; auto. }
  split; [done|]. split; [|done]. intros va. unfold pte_at.
  destruct (Hview (PDX va) (PDX_range va)) as [-> ->]. destruct (decide (PDX va = i)) as [->|Hne].
  - rewrite Habs. unfold mem', with_table. rewrite word_insert, decide_False.
    + apply word_zeroed, PTX_range.
    + pose proof (PTX_range va). apply apart; lia || done.
  - destruct (has_tab mem pgdir (PDX va)) eqn:E; [|done].
    destruct (wf_tab _ _ _ Hwf _ (has_is_tab mem _ (PDX_range va) E)) as (Hok & Hne' & Hnin).
    apply Hother; [now apply (page_aligned k)|done| |apply PTX_range]. intros Heq. fold mem in Hnin. rewrite Heq in Hnin. contradiction.
Qed.
End View.

(** ** Page-table operations as updates of the view *)
Definition pt_ok (s : kst) (pgdir : Z) (l : list Z) : Prop :=
  ready [KMEM_LOCK] (ks_mach s) /\ free_pages (ks_kmem s) l /\ pt_wf (ks_kmem s) pgdir l.

(** What an operation on the page tables of [pgdir] leaves alone: the pages
    that it took from the free list may have become page tables; every other
    page that is neither the directory nor a page table is unchanged. *)
Definition kept (pgdir : Z) (k k' : kmem) (l l' : list Z) : Prop :=
  km_end k' = km_end k /\ exists used, l = used ++ l' /\
  (forall v, is_tab (km_mem k') pgdir v <-> is_tab (km_mem k) pgdir v \/ v ∈ used) /\
  (forall v, v mod 4096 = 0 -> v <> pgdir -> ~ is_tab (km_mem k) pgdir v -> v ∉ used ->
    page_eq (km_mem k) (km_mem k') v).

Lemma kept_refl pgdir k l : kept pgdir k k l l.
Proof. split; [done|]. exists []. split; [done|]. split; [intros v; rewrite elem_of_nil; tauto|intros v _ _ _ _ i _; reflexivity]. Qed.

Lemma kept_trans pgdir k1 k2 k3 l1 l2 l3 : kept pgdir k1 k2 l1 l2 -> kept pgdir k2 k3 l2 l3 -> kept pgdir k1 k3 l1 l3.
Proof.
  intros (E1 & u1 & -> & T1 & P1) (E2 & u2 & -> & T2 & P2). split; [congruence|]. exists (u1 ++ u2).
  split; [now rewrite app_assoc|]. split.
  - intros v. rewrite T2, T1, elem_of_app. tauto.
  - intros v Hv Hd Ht Hu. eapply page_eq_trans; [apply P1; set_solver|]. apply P2; try done; [|set_solver].
    intros [H|H]%T1; [done|set_solver].
Qed.

Lemma free_pages_mem s l f :
  free_pages (ks_kmem s) l ->
  (forall a, a ∈ l -> word (f (km_mem (ks_kmem s))) a = word (km_mem (ks_kmem s)) a) ->
  free_pages (ks_kmem (upd_mem f s)) l.
Proof.
  intros (Hc & Hnd & Hok) Hext. split; [|split; [done|]].
  - eapply chain_ext; [exact Hc|exact Hext].
  - eapply Forall_impl; [exact Hok|]. intros v. now apply page_ok_irrel.
Qed.

(** The tables depend on the directory only. *)
Lemma pt_wf_ext k k' pgdir l l' : pt_wf k pgdir l -> km_end k' = km_end k -> page_eq (km_mem k) (km_mem k') pgdir ->
  (forall v, v ∈ l' -> v ∈ l \/ v <> pgdir /\ ~ is_tab (km_mem k) pgdir v) -> pt_wf k' pgdir l'.
Proof.
  intros Hwf He Heq Hl. split.
  - now apply (page_ok_irrel k), Hwf.
  - intros [Hin|[Hne _]]%Hl; [now apply (wf_dir_used _ _ _ Hwf)|done].
  - intros v Hv%(is_tab_ext pgdir _ _ v Heq). destruct (wf_tab _ _ _ Hwf v Hv) as (H1 & H2 & H3).
    split; [now apply (page_ok_irrel k)|]. split; [done|]. intros [Hin|[_ Hnt]]%Hl; contradiction.
  - intros i j Hi Hj. destruct (dir_ext pgdir _ _ i Heq Hi) as [-> ->], (dir_ext pgdir _ _ j Heq Hj) as [-> ->].
    now apply (wf_inj _ _ _ Hwf).
Qed.

(** A new table from the top of the free list. *)
Lemma pt_wf_table k k' pgdir l t i : pt_wf k pgdir (t :: l) -> page_ok k t -> t ∉ l -> 0 <= i < 1024 ->
  has_tab (km_mem k) pgdir i = false -> km_end k' = km_end k -> km_mem k' = with_table pgdir i t (km_mem k) ->
  pt_wf k' pgdir l /\ forall v, is_tab (km_mem k') pgdir v <-> is_tab (km_mem k) pgdir v \/ v ∈ [t].
Proof.
  intros Hwf Hpt Hnin Hi Habs He Hm.
  destruct (with_table_view pgdir k (t :: l) i t Hwf Hpt ltac:(now left) Hi Habs) as (Hview & _). rewrite <- Hm in Hview.
  assert (Htabs : forall v, is_tab (km_mem k') pgdir v <-> is_tab (km_mem k) pgdir v \/ v ∈ [t]).
  { intros v. split; [intros (j & Hj & Hp & Hv)|intros [(j & Hj & Hp & Hv)|Hv%list_elem_of_singleton]].
    2: { exists j. destruct (Hview j Hj) as [-> ->]. destruct (decide (j = i)) as [->|]; [congruence|]. split; [exact Hj|now split]. }
    2: { exists i. destruct (Hview i Hi) as [-> ->]. rewrite !decide_True by done. split; [exact Hi|now split]. }
    destruct (Hview j Hj) as [F1 F2]. rewrite F1 in Hp. rewrite F2 in Hv.
    destruct (decide (j = i)); [right; now apply list_elem_of_singleton|left; exists j; split; [exact Hj|split; assumption]]. }
  split; [|done]. split.
  - now apply (page_ok_irrel k), Hwf.
  - intros Hin. apply (wf_dir_used _ _ _ Hwf). now right.
  - intros v [Hv|Hv]%Htabs.
    + destruct (wf_tab _ _ _ Hwf v Hv) as (H1 & H2 & H3). split; [now apply (page_ok_irrel k)|]. split; [done|]. intros Hin. apply H3. now right.
    + apply list_elem_of_singleton in Hv as ->. split; [now apply (page_ok_irrel k)|]. split; [|done].
      intros ->. apply (wf_dir_used _ _ _ Hwf). now left.
  - intros a b Ha Hb. destruct (Hview a Ha) as [-> ->], (Hview b Hb) as [-> ->].
    destruct (decide (a = i)) as [->|], (decide (b = i)) as [->|]; intros A B C; auto.
    + destruct (wf_tab _ _ _ Hwf _ (has_is_tab pgdir _ _ Hb B)) as (_ & _ & H3). rewrite <- C in H3. exfalso. apply H3. now left.
    + destruct (wf_tab _ _ _ Hwf _ (has_is_tab pgdir _ _ Ha A)) as (_ & _ & H3). rewrite C in H3. exfalso. apply H3. now left.
    + now apply (wf_inj _ _ _ Hwf).
Qed.

Lemma set_pte_ok s pgdir l va e : pt_ok s pgdir l -> has_tab (km_mem (ks_kmem s)) pgdir (PDX va) = true -> 0 <= va < 2 ^ 32 ->
  let s' := upd_mem (<[tab (km_mem (ks_kmem s)) pgdir (PDX va) + 4 * PTX va := e]>) s in
  pt_ok s' pgdir l /\ kept pgdir (ks_kmem s) (ks_kmem s') l l /\
  forall va', 0 <= va' < 2 ^ 32 -> pte_at (km_mem (ks_kmem s')) pgdir va' =
    if decide (va' / 4096 = va / 4096) then e else pte_at (km_mem (ks_kmem s)) pgdir va'.
Proof.
  intros (Hr & Hf & Hwf) Ht Hva s'. destruct s as [m k]. cbn [ks_kmem ks_mach] in *.
  destruct (store_pte pgdir k l va e Hwf Ht Hva) as [Hdir Hpte].
  pose proof (has_is_tab pgdir _ _ (PDX_range va) Ht) as Hist.
  destruct (wf_tab _ _ _ Hwf _ Hist) as (Hok & Hne & Hnin). pose proof (PTX_range va) as Hx.
  split; [split; [exact Hr|split]|split; [|exact Hpte]].
  - apply free_pages_mem; [exact Hf|]. intros a Ha. rewrite word_insert, decide_False; [done|].
    destruct Hf as (_ & _ & Hall). eapply Forall_forall in Hall; [|exact Ha].
    rewrite <- (Z.add_0_r a). apply apart; try lia; [now apply (page_aligned k)..|]. intros Heq. rewrite Heq in Hnin. contradiction.
  - apply (pt_wf_ext k _ pgdir l); [done..|]. intros v Hv. now left.
  - split; [done|]. exists []. split; [done|]. split.
    + intros v. rewrite elem_of_nil. pose proof (is_tab_ext pgdir _ _ v Hdir) as Hx'. tauto.
    + intros v Hv Hd Hnt _. apply page_eq_insert; try done; [now apply (page_aligned k)|]. intros ->. contradiction.
Qed.

Lemma pt_ok_walk s pgdir l va : pt_ok s pgdir l ->
  exists slot s' l', walkpgdir pgdir va true s = Done slot s' /\ pt_ok s' pgdir l' /\ kept pgdir (ks_kmem s) (ks_kmem s') l l' /\
    (length l <= length l' + 1)%nat /\
    (forall va', pte_at (km_mem (ks_kmem s')) pgdir va' = pte_at (km_mem (ks_kmem s)) pgdir va') /\
    (slot = 0 /\ l = [] /\ l' = [] \/
     has_tab (km_mem (ks_kmem s')) pgdir (PDX va) = true /\ slot = tab (km_mem (ks_kmem s')) pgdir (PDX va) + 4 * PTX va /\ slot <> 0).
Proof.
  intros (Hr & Hf & Hwf). destruct s as [m k]. cbn [ks_kmem ks_mach] in *. unfold walkpgdir.
  erewrite bind_done by apply gets_done. cbn [ks_kmem]. fold (has_tab (km_mem k) pgdir (PDX va)).
  pose proof (PDX_range va) as Hi. pose proof (PTX_range va) as Hx. destruct (has_tab (km_mem k) pgdir (PDX va)) eqn:Ht.
  { eexists _, (mkKst m k), l. split; [reflexivity|]. split; [done|]. split; [apply kept_refl|]. split; [lia|]. split; [done|]. right.
    split; [done|]. split; [done|]. fold (tab (km_mem k) pgdir (PDX va)).
    destruct (wf_tab _ _ _ Hwf _ (has_is_tab pgdir _ _ Hi Ht)) as (Hok & _). pose proof (page_ok_pos _ _ Hok). lia. }
  cbn [negb]. destruct (kalloc_run (mkKst m k) l Hr Hf) as (k' & Hrun & Hf' & Hmem & Hend & Hul).
  erewrite bind_done by exact Hrun. cbn [ks_kmem] in *. destruct l as [|t l]; cbn [default head tail from_option id] in *.
  { exists 0, (mkKst (after_lock (mkKst m k)) k'), []. split; [reflexivity|]. cbn [ks_kmem]. rewrite Hmem.
    assert (Hsame : page_eq (km_mem k) (km_mem k') pgdir) by (intros i' _; now rewrite Hmem).
    split; [|split; [|split; [simpl; lia|split; [done|left; done]]]].
    - split; [now apply after_lock_ready|]. split; [exact Hf'|]. apply (pt_wf_ext k _ pgdir []); [done..|]. intros v Hv. now left.
    - split; [exact Hend|]. exists []. rewrite Hmem. split; [done|].
      split; [intros v; rewrite elem_of_nil; tauto|intros v _ _ _ _ i' _; reflexivity]. }
  pose proof Hf as (_ & Hnd & Hall). apply Forall_cons_iff in Hall as [Hpt Hall]. apply NoDup_cons in Hnd as [Hnin Hnd].
  pose proof (page_ok_pos _ _ Hpt). replace (t =? 0) with false by lia.
  destruct (with_table_view pgdir k (t :: l) (PDX va) t Hwf Hpt ltac:(now left) Hi Ht) as (Hview & Hpte & Hother).
  set (s1 := mkKst (after_lock (mkKst m k)) k') in *.
  set (s2 := upd_mem (<[pgdir + 4 * PDX va := new_pde t]>) (upd_mem (fun mem => memset_page mem t 0) s1)).
  assert (Hm2 : km_mem (ks_kmem s2) = with_table pgdir (PDX va) t (km_mem k)).
  { unfold s2. rewrite !upd_mem_mem. unfold s1. cbn [ks_kmem]. now rewrite Hmem. }
  destruct (pt_wf_table k (ks_kmem s2) pgdir l t (PDX va) Hwf Hpt Hnin Hi Ht Hend Hm2) as [Hwf2 Htabs].
  exists (t + 4 * PTX va), s2, l. split.
  { cbv beta iota. unfold zero_page, store. now rewrite !bind_modify. }
  destruct (Hview (PDX va) Hi) as [E1 E2]. rewrite decide_True in E1 by done. rewrite decide_True in E2 by done. rewrite <- Hm2 in E1, E2, Hpte, Hother.
  split; [|split; [|split; [simpl; lia|split; [exact Hpte|right; split; [exact E1|split; [now rewrite E2|lia]]]]]].
  - split; [now apply after_lock_ready|]. split; [|done].
    assert (Hw : forall a, a ∈ l -> word (km_mem (ks_kmem s2)) a = word (km_mem (ks_kmem s1)) a);
      [|split; [eapply chain_ext; [apply Hf'|exact Hw]|split; [apply Hf'|]]].
    2: { eapply Forall_impl; [apply Hf'|]. intros v. now apply page_ok_irrel. }
    intros a Ha. change (km_mem (ks_kmem s1)) with (km_mem k'). rewrite Hmem.
    assert (Hpa : page_ok k a) by (eapply Forall_forall in Hall; eauto). pose proof (page_aligned _ _ Hpa).
    replace a with (a + 4 * 0) by lia. apply Hother; [done| | |lia].
    + intros ->. apply (wf_dir_used _ _ _ Hwf). now right.
    + intros ->. contradiction.
  - split; [exact Hend|]. exists [t]. split; [done|]. split; [exact Htabs|].
    intros v Hv Hd Hnt Hu. apply (Hother v Hv Hd). intros ->. apply Hu. now left.
Qed.

(** The pages of a range, and the entry [mappages] gives to one of them. *)
Definition in_range (a : Z) (n : nat) (va : Z) : Prop := a / 4096 <= va / 4096 < a / 4096 + Z.of_nat n.
#[global] Instance in_range_dec a n va : Decision (in_range a n va).
Proof. unfold in_range. apply _. Defined.
Definition entry (a pa perm va : Z) : Z := Z.lor (Z.lor (pa + 4096 * (va / 4096 - a / 4096)) perm) PTE_P.

(** What mapping [j] pages from [a] makes of the view. *)
Definition mapped (pgdir : Z) (mem mem' : gmap Z Z) (a : Z) (j : nat) (pa perm : Z) : Prop :=
  forall va, 0 <= va < 2 ^ 32 ->
    pte_at mem' pgdir va = if decide (in_range a j va) then entry a pa perm va else pte_at mem pgdir va.

Lemma mapped_none pgdir mem mem' a pa perm :
  (forall va, pte_at mem' pgdir va = pte_at mem pgdir va) -> mapped pgdir mem mem' a 0 pa perm.
Proof. intros H va _. rewrite H, decide_False; [done|]. unfold in_range. lia. Qed.

(** One page and the rest of the range. *)
Lemma mapped_cons pgdir mem m1 m2 a j pa perm : a mod 4096 = 0 ->
  (forall va, 0 <= va < 2 ^ 32 ->
     pte_at m1 pgdir va = if decide (va / 4096 = a / 4096) then Z.lor (Z.lor pa perm) PTE_P else pte_at mem pgdir va) ->
  mapped pgdir m1 m2 (a + 4096) j (pa + 4096) perm -> mapped pgdir mem m2 a (S j) pa perm.
Proof.
  intros Ha H1 H2 va Hva. rewrite (H2 va Hva), (H1 va Hva). unfold entry.
  assert (E : (a + 4096) / 4096 = a / 4096 + 1) by (Z.div_mod_to_equations; lia).
  destruct (decide (in_range (a + 4096) j va)) as [Hr|Hr]; unfold in_range in Hr; rewrite E in *.
  - rewrite decide_True by (unfold in_range; lia). do 2 f_equal. lia.
  - destruct (decide (va / 4096 = a / 4096)) as [Heq|].
    + rewrite decide_True by (unfold in_range; lia). do 2 f_equal. lia.
    + now rewrite decide_False by (unfold in_range; lia).
Qed.

Lemma bind_load a {B} (k : Z -> M kst B) s : bind (load a) k s = k (word (km_mem (ks_kmem s)) a) s.
Proof. reflexivity. Qed.
Lemma bind_store a v {B} (k : unit -> M kst B) s : bind (store a v) k s = k tt (upd_mem (<[a := v]>) s).
Proof. reflexivity. Qed.
Lemma bind_zero v {B} (k : unit -> M kst B) s : bind (zero_page v) k s = k tt (upd_mem (fun mem => memset_page mem v 0) s).
Proof. reflexivity. Qed.

Lemma mappages_run n s pgdir l a pa perm :
  pt_ok s pgdir l -> a mod 4096 = 0 -> 0 <= a -> a + 4096 * Z.of_nat (S n) <= 2 ^ 32 ->
  0 <= pa -> pa + 4096 * Z.of_nat (S n) <= 2 ^ 32 ->
  (forall va, 0 <= va < 2 ^ 32 -> in_range a (S n) va -> present (pte_at (km_mem (ks_kmem s)) pgdir va) = false) ->
  exists r s' l' j, mappages_loop (S n) pgdir a (a + 4096 * Z.of_nat n) pa perm s = Done r s' /\ pt_ok s' pgdir l' /\
    kept pgdir (ks_kmem s) (ks_kmem s') l l' /\ (length l <= length l' + S n)%nat /\ (r = 0 /\ j = S n \/ r = -1 /\ (j <= n)%nat /\ l' = [] /\ (length l <= j)%nat) /\
    mapped pgdir (km_mem (ks_kmem s)) (km_mem (ks_kmem s')) a j pa perm.
Proof.
  revert s l a pa. induction n as [|n IH]; intros s l a pa Hok Hal Ha Hhi Hpa Hpahi Hun;
    (destruct (pt_ok_walk s pgdir l a Hok) as (slot & s1 & l1 & Hw & Hok1 & Hk1 & Hl1 & Hp1 & Hslot);
     cbn [mappages_loop]; erewrite bind_done by exact Hw;
     destruct Hslot as [(-> & -> & ->)|(Ht & -> & Hnz)];
     [exists (-1), s1, [], 0%nat; split; [reflexivity|]; split; [done|]; split; [done|]; split; [simpl in *; lia|]; split; [right; repeat split; simpl; lia|];
      now apply mapped_none|]);
    rewrite (proj2 (Z.eqb_neq _ _) Hnz), bind_load;
    (assert (E : word (km_mem (ks_kmem s1)) (tab (km_mem (ks_kmem s1)) pgdir (PDX a) + 4 * PTX a)
                 = pte_at (km_mem (ks_kmem s)) pgdir a) by (rewrite <- Hp1; unfold pte_at; now rewrite Ht));
    rewrite E, Hun by (unfold in_range; lia); rewrite bind_store;
    destruct (set_pte_ok s1 pgdir l1 a (Z.lor (Z.lor pa perm) PTE_P) Hok1 Ht ltac:(lia)) as (Hok2 & Hk2 & Hp2);
    pose proof (kept_trans _ _ _ _ _ _ _ Hk1 Hk2) as Hk12.
  - rewrite (proj2 (Z.eqb_eq _ _)) by lia. eexists 0, _, l1, 1%nat. split; [reflexivity|]. split; [done|]. split; [done|].
    split; [lia|]. split; [now left|]. apply mapped_cons with (m1 := km_mem (ks_kmem (upd_mem
      (<[tab (km_mem (ks_kmem s1)) pgdir (PDX a) + 4 * PTX a:=Z.lor (Z.lor pa perm) PTE_P]>) s1))); [done| |now apply mapped_none].
    intros va Hva. rewrite Hp2 by done. now rewrite Hp1.
  - rewrite (proj2 (Z.eqb_neq _ _)) by lia. unfold PGSIZE. rewrite !u32_small by lia.
    destruct (IH _ l1 (a + 4096) (pa + 4096) Hok2) as (r & s' & l' & j & Hrun & Hok' & Hk' & Hl' & Hr & Hm);
      [Z.div_mod_to_equations; lia|lia|lia|lia|lia| |].
    { intros va Hva Hin. unfold in_range in Hin. rewrite Hp2, decide_False by (done || (Z.div_mod_to_equations; lia)).
      rewrite Hp1. apply Hun; [done|]. unfold in_range. Z.div_mod_to_equations. lia. }
    exists r, s', l', (S j). replace (a + 4096 * Z.of_nat (S n)) with (a + 4096 + 4096 * Z.of_nat n) by lia.
    split; [exact Hrun|]. split; [done|]. split; [eapply kept_trans; eauto|]. split; [lia|].
    split; [destruct Hr as [[-> ->]|(-> & ? & -> & ?)]; [now left|right; repeat split; lia]|].
    eapply mapped_cons; [done| |exact Hm]. intros va Hva. rewrite Hp2 by done. now rewrite Hp1.
Qed.

(** [mappages] on every path: for a range of addresses none of which is
    mapped, with page tables that are distinct pages in use, it ends; it
    returns 0 with exactly the pages of the range mapped to consecutive
    physical pages with the given permissions, or -1 when the free pages are
    used up, with a part of the range mapped.  In both cases the mapping of
    every other address is unchanged, the page tables are again distinct pages
    in use, and no page changes except the directory, the page tables and free
    pages. *)
Theorem mappages_spec (s : kst) (pgdir va size pa perm : Z) (l : list Z) :
  pt_ok s pgdir l -> 0 <= va -> 0 < size -> va + size <= 2 ^ 32 ->
  let a := PGROUNDDOWN va in
  let n := Z.to_nat (PGROUNDDOWN (va + size - 1) / 4096 - a / 4096) in
  0 <= pa -> pa + 4096 * Z.of_nat (S n) <= 2 ^ 32 ->
  (forall v, 0 <= v < 2 ^ 32 -> in_range a (S n) v -> present (pte_at (km_mem (ks_kmem s)) pgdir v) = false) ->
  exists r s' l' j, mappages pgdir va size pa perm s = Done r s' /\ pt_ok s' pgdir l' /\
    kept pgdir (ks_kmem s) (ks_kmem s') l l' /\ (r = 0 /\ j = S n \/ r = -1 /\ (j <= n)%nat /\ l' = []) /\
    mapped pgdir (km_mem (ks_kmem s)) (km_mem (ks_kmem s')) a j pa perm.
Proof.
  intros Hok Hva Hsz Hhi a n Hpa Hpahi Hun.
  assert (Ea : a = 4096 * (va / 4096)) by (apply PGROUNDDOWN_eq; lia).
  assert (El : PGROUNDDOWN (va + size - 1) = a + 4096 * Z.of_nat n).
  { unfold n. rewrite Ea, PGROUNDDOWN_eq by lia. Z.div_mod_to_equations. lia. }
  destruct (mappages_run n s pgdir l a pa perm Hok) as (r & s' & l' & j & Hrun & Hok' & Hk & _ & Hr & Hm); auto.
  - rewrite Ea. Z.div_mod_to_equations. lia.
  - rewrite Ea. Z.div_mod_to_equations. lia.
  - rewrite PGROUNDDOWN_eq in El by lia. Z.div_mod_to_equations. lia.
  - exists r, s', l', j. split; [|split; [done|split; [done|split; [tauto|done]]]]. unfold mappages.
    rewrite (u32_small (va + size - 1)) by lia. fold a. rewrite El.
    rewrite u32_small by (rewrite PGROUNDDOWN_eq in El by lia; Z.div_mod_to_equations; lia).
    replace (Z.to_nat ((a + 4096 * Z.of_nat n - a) / PGSIZE)) with n; [exact Hrun|].
    unfold PGSIZE. replace (a + 4096 * Z.of_nat n - a) with (Z.of_nat n * 4096) by lia. rewrite Z.div_mul by lia. lia.
Qed.

(** A directory without page tables and three free pages. *)
Definition empty_space : kst :=
  mkKst two_cpus (mkKmem true 0x80118000 (<[0x80118000 := 0x80119000]> (<[0x80119000 := 0x8011a000]> {[0x8011a000 := 0]})) 0x80115000).
Definition empty_dir : Z := 0x80116000.
Definition empty_free : list Z := [0x80118000; 0x80119000; 0x8011a000].

Lemma empty_no_table i : 0 <= i < 1024 -> has_tab (km_mem (ks_kmem empty_space)) empty_dir i = false.
Proof.
  intros Hi. unfold has_tab, empty_space, empty_dir, word. cbn [ks_kmem km_mem].
  rewrite !lookup_insert_ne, lookup_singleton_ne by lia. reflexivity.
Qed.

Lemma empty_pte va : pte_at (km_mem (ks_kmem empty_space)) empty_dir va = 0.
Proof. unfold pte_at. now rewrite empty_no_table by apply PDX_range. Qed.

Lemma empty_ok : pt_ok empty_space empty_dir empty_free.
Proof.
  assert (Hp : forall v, v ∈ empty_dir :: empty_free -> page_ok (ks_kmem empty_space) v).
  { apply Forall_forall. unfold empty_dir, empty_free.
    repeat (apply Forall_cons; split; [split; [reflexivity|lia]|]). constructor. }
  split; [apply (boot_ready true)|]. split; [split; [|split]|split].
  - unfold empty_free. repeat (apply chain_cons; [discriminate|]). apply chain_nil.
  - apply NoDup_ListNoDup. repeat constructor; simpl; lia.
  - apply Forall_forall. intros v Hv. apply Hp. now right.
  - apply Hp. now left.
  - unfold empty_dir, empty_free. rewrite !elem_of_cons, elem_of_nil. lia.
  - intros v (i & Hi & Ht & _). now rewrite empty_no_table in Ht.
  - intros i j Hi Hj Ht. now rewrite empty_no_table in Ht.
Qed.

Lemma mappages_spec_witness :
  exists r s' l' j, mappages empty_dir 0x1234 0x2000 0x300000 PTE_U empty_space = Done r s' /\ pt_ok s' empty_dir l' /\
    mapped empty_dir (km_mem (ks_kmem empty_space)) (km_mem (ks_kmem s')) 0x1000 j 0x300000 PTE_U.
Proof.
  destruct (mappages_spec empty_space empty_dir 0x1234 0x2000 0x300000 PTE_U empty_free empty_ok)
    as (r & s' & l' & j & H1 & H2 & _ & _ & H3); [lia|lia|lia|lia|vm_compute; discriminate| |].
  - intros v _ _. now rewrite empty_pte.
  - exists r, s', l', j. split; [exact H1|]. split; [exact H2|exact H3].
Defined.
