(* ===== verification/Uvm.v ===== *)
(** * User address spaces (vm.c)

    The part of a page directory below [KERNBASE].  [as_ok] is the isolation
    invariant: every page mapped there is a page of physical memory that is
    not free and holds neither the directory nor a page table, and no two
    virtual pages share a frame.  [allocuvm] and [deallocuvm] keep it, and
    grow or shrink the space by exactly the pages of the range, or leave it
    as it was when memory runs out. *)
From S2P Require Import Prelude Mmu Spinlock Kalloc Vm.

#[local] Opaque memset_page upd_mem.

Definition user (va : Z) : Prop := 0 <= va < KERNBASE.

Record as_ok (k : kmem) (pgdir : Z) (l : list Z) : Prop := {
  as_end : KERNBASE < km_end k;
  as_frame va : user va -> present (pte_at (km_mem k) pgdir va) = true ->
    let v := frame (km_mem k) pgdir va in page_ok k v /\ v ∉ l /\ v <> pgdir /\ ~ is_tab (km_mem k) pgdir v;
  as_inj va va' : user va -> user va' -> present (pte_at (km_mem k) pgdir va) = true ->
    present (pte_at (km_mem k) pgdir va') = true -> frame (km_mem k) pgdir va = frame (km_mem k) pgdir va' ->
    va / 4096 = va' / 4096;
}.
Definition vm_ok (s : kst) (pgdir : Z) (l : list Z) : Prop := pt_ok s pgdir l /\ as_ok (ks_kmem s) pgdir l.

Lemma user_range va : user va -> 0 <= va < 2 ^ 32.
Proof. unfold user, KERNBASE. lia. Qed.

(** Operations that map no user page, and take from the free list only. *)
Lemma as_ok_ext k k' pgdir l l' : as_ok k pgdir l -> km_end k' = km_end k ->
  (forall va, user va -> present (pte_at (km_mem k') pgdir va) = true -> pte_at (km_mem k') pgdir va = pte_at (km_mem k) pgdir va) ->
  (forall va, user va -> present (pte_at (km_mem k') pgdir va) = true ->
     let v := frame (km_mem k) pgdir va in v ∉ l' /\ ~ is_tab (km_mem k') pgdir v) ->
  as_ok k' pgdir l'.
Proof.
  intros Has He Hp Hn. split.
  - rewrite He. apply Has.
  - intros va Hu Hpr v. pose proof (Hp va Hu Hpr) as E. unfold v, frame. rewrite E.
    destruct (Hn va Hu Hpr) as [H1 H2]. rewrite E in Hpr. destruct (as_frame _ _ _ Has va Hu Hpr) as (H3 & _ & H4 & _).
    repeat split; try assumption; apply H3 || (eapply page_ok_irrel; [|exact H3]; congruence).
  - intros va va' Hu Hu' Hpr Hpr'. pose proof (Hp va Hu Hpr) as E1. pose proof (Hp va' Hu' Hpr') as E2.
    unfold frame. rewrite E1, E2. rewrite E1 in Hpr. rewrite E2 in Hpr'. now apply (as_inj _ _ _ Has).
Qed.

(** ** Freeing a page *)
Lemma kfree_page_eq mem v h c w : v mod 4096 = 0 -> w mod 4096 = 0 -> v <> w ->
  page_eq mem (<[v := h]> (memset_page mem v c)) w.
Proof.
  intros Hv Hw Hne. eapply page_eq_trans; [now apply (page_eq_memset mem w v c)|].
  pose proof (page_eq_insert (memset_page mem v c) w v 0 h Hw Hv (not_eq_sym Hne) ltac:(lia)) as H.
  now rewrite Z.add_0_r in H.
Qed.

Lemma pt_ok_kfree s pgdir l v : pt_ok s pgdir l -> page_ok (ks_kmem s) v -> v ∉ l -> v <> pgdir ->
  ~ is_tab (km_mem (ks_kmem s)) pgdir v ->
  exists s', kfree v s = Done tt s' /\ pt_ok s' pgdir (v :: l) /\ km_end (ks_kmem s') = km_end (ks_kmem s) /\
    (forall w, w mod 4096 = 0 -> w <> v -> page_eq (km_mem (ks_kmem s)) (km_mem (ks_kmem s')) w) /\
    (forall va, pte_at (km_mem (ks_kmem s')) pgdir va = pte_at (km_mem (ks_kmem s)) pgdir va).
Proof.
  intros (Hr & Hf & Hwf) Hv Hnin Hne Hnt.
  destruct (kfree_run s l v Hr Hf Hv Hnin) as (k' & Hrun & Hf' & He & _ & Hm).
  assert (Hother : forall w, w mod 4096 = 0 -> w <> v -> page_eq (km_mem (ks_kmem s)) (km_mem k') w).
  { intros w Hw Hwv. rewrite Hm. apply kfree_page_eq; [now apply (page_aligned (ks_kmem s))|exact Hw|congruence]. }
  clear Hm. assert (Hdir : page_eq (km_mem (ks_kmem s)) (km_mem k') pgdir).
  { apply Hother; [|congruence]. apply (page_aligned (ks_kmem s)), Hwf. }
  exists (mkKst (after_lock s) k'). split; [exact Hrun|]. split; [|split; [exact He|split; [exact Hother|]]].
  - split; [now apply after_lock_ready|]. split; [exact Hf'|]. apply (pt_wf_ext (ks_kmem s) k' pgdir l (v :: l) Hwf He Hdir).
    intros w [->|Hw]%elem_of_cons; [now right|now left].
  - intros va. apply pte_ext; [exact Hdir|]. intros w Hw. destruct (wf_tab _ _ _ Hwf w Hw) as (Hok & _).
    apply Hother; [now apply (page_aligned (ks_kmem s))|]. intros ->. contradiction.
Qed.

(** Freeing the frame of the present page [va] and clearing its entry. *)
Lemma unmap_page s pgdir l va : vm_ok s pgdir l -> user va -> present (pte_at (km_mem (ks_kmem s)) pgdir va) = true ->
  let mem := km_mem (ks_kmem s) in
  let slot := tab mem pgdir (PDX va) + 4 * PTX va in
  exists s', (kfree (frame mem pgdir va) ;;; store slot 0) s = Done tt s' /\ vm_ok s' pgdir (frame mem pgdir va :: l) /\
    km_end (ks_kmem s') = km_end (ks_kmem s) /\ page_eq mem (km_mem (ks_kmem s')) pgdir /\
    (forall w, w mod 4096 = 0 -> w <> frame mem pgdir va -> w <> pgdir -> ~ is_tab mem pgdir w -> page_eq mem (km_mem (ks_kmem s')) w) /\
    (forall va', 0 <= va' < 2 ^ 32 -> pte_at (km_mem (ks_kmem s')) pgdir va' =
       if decide (va' / 4096 = va / 4096) then 0 else pte_at mem pgdir va').
Proof.
  intros [Hok Has] Hu Hp mem slot. destruct (as_frame _ _ _ Has va Hu Hp) as (Hv & Hnin & Hne & Hnt).
  destruct (pt_ok_kfree s pgdir l _ Hok Hv Hnin Hne Hnt) as (s1 & Hrun & Hok1 & He1 & Hpg1 & Hpte1).
  fold mem in Hrun, Hok1, Hpg1, Hpte1. pose proof Hok as (_ & _ & Hwf).
  assert (Hdir1 : page_eq mem (km_mem (ks_kmem s1)) pgdir).
  { apply Hpg1; [|exact (not_eq_sym Hne)]. apply (page_aligned (ks_kmem s)), Hwf. }
  destruct (dir_ext pgdir _ _ (PDX va) Hdir1 (PDX_range va)) as [Eh Et].
  assert (Ht : has_tab mem pgdir (PDX va) = true).
  { unfold pte_at in Hp. fold mem in Hp. destruct (has_tab mem pgdir (PDX va)); [done|discriminate]. }
  destruct (set_pte_ok s1 pgdir _ va 0 Hok1 ltac:(congruence) (user_range _ Hu)) as (Hok2 & Hk2 & Hpte2).
  rewrite Et in Hok2, Hk2, Hpte2. fold slot in Hok2, Hk2, Hpte2. set (s2 := upd_mem (<[slot := 0]>) s1) in *.
  assert (Hpte : forall va', 0 <= va' < 2 ^ 32 -> pte_at (km_mem (ks_kmem s2)) pgdir va' =
       if decide (va' / 4096 = va / 4096) then 0 else pte_at mem pgdir va') by (intros va' Hva'; now rewrite Hpte2, Hpte1).
  assert (Htab2 : forall v, is_tab (km_mem (ks_kmem s2)) pgdir v -> is_tab mem pgdir v).
  { intros v Hv2. destruct Hk2 as (_ & u & Hu2 & HT & _). destruct u; [|apply (f_equal length) in Hu2; rewrite length_app in Hu2; simpl in Hu2; lia].
    destruct (proj1 (HT v) Hv2) as [H|H]; [|now apply not_elem_of_nil in H]. now apply (is_tab_ext pgdir mem _ v Hdir1). }
  exists s2. split; [erewrite bind_done by exact Hrun; reflexivity|]. split; [split; [done|]|].
  - apply (as_ok_ext (ks_kmem s) _ pgdir l); [done|exact He1| |].
    + intros va' Hu' Hp'. rewrite Hpte in * by now apply user_range. destruct (decide _); [discriminate|done].
    + intros va' Hu' Hp' v. rewrite Hpte in Hp' by now apply user_range.
      destruct (decide (va' / 4096 = va / 4096)) as [|Hn]; [discriminate|].
      destruct (as_frame _ _ _ Has va' Hu' Hp') as (_ & H2 & _ & H4). split; [|now intros H%Htab2].
      intros [H|H]%elem_of_cons; [|done]. apply Hn. now apply (as_inj _ _ _ Has).
  - split; [exact He1|]. split; [|split; [|exact Hpte]].
    + eapply page_eq_trans; [exact Hdir1|]. pose proof (proj1 (store_pte pgdir (ks_kmem s1) _ va 0 (proj2 (proj2 Hok1)) ltac:(congruence) (user_range _ Hu))) as H.
      rewrite Et in H. exact H.
    + intros w Hw Hwf' Hwd Hwt. eapply page_eq_trans; [now apply Hpg1|]. destruct Hk2 as (_ & u & Hu2 & _ & HP).
      destruct u; [|apply (f_equal length) in Hu2; rewrite length_app in Hu2; simpl in Hu2; lia].
      apply HP; try done; [|apply not_elem_of_nil]. intros H%(is_tab_ext pgdir mem _ w Hdir1). contradiction.
Qed.

(** ** Shrinking *)

(** The virtual addresses [deallocuvm] visits from the page boundary [a]. *)
Definition visited (a oldsz va : Z) : Prop := 0 <= va /\ a <= 4096 * (va / 4096) < oldsz.
#[global] Instance visited_dec a oldsz va : Decision (visited a oldsz va).
Proof. unfold visited. apply _. Defined.

(** What shrinking makes of the space: the present pages visited are gone and
    their frames free, everything else is as it was. *)
Record shrunk (pgdir : Z) (k k' : kmem) (l l' : list Z) (a oldsz : Z) : Prop := {
  sh_end : km_end k' = km_end k;
  sh_dir : page_eq (km_mem k) (km_mem k') pgdir;
  sh_pte va : 0 <= va < 2 ^ 32 -> pte_at (km_mem k') pgdir va =
    if decide (visited a oldsz va /\ present (pte_at (km_mem k) pgdir va) = true) then 0 else pte_at (km_mem k) pgdir va;
  sh_free v : v ∈ l' <-> v ∈ l \/ exists va, visited a oldsz va /\ present (pte_at (km_mem k) pgdir va) = true /\ frame (km_mem k) pgdir va = v;
  sh_page w : w mod 4096 = 0 -> w <> pgdir -> ~ is_tab (km_mem k) pgdir w -> w ∉ l' -> page_eq (km_mem k) (km_mem k') w;
}.

Lemma shrunk_refl pgdir k l a oldsz :
  (forall va, visited a oldsz va -> present (pte_at (km_mem k) pgdir va) = false) -> shrunk pgdir k k l l a oldsz.
Proof.
  intros Hn. split; [done|done| | |done].
  - intros va _. rewrite decide_False; [done|]. intros [Hv Hp]. now rewrite Hn in Hp.
  - intros v. split; [now left|]. intros [H|(va & Hv & Hp & _)]; [done|]. now rewrite Hn in Hp.
Qed.

(** Skipping pages that are not present. *)
Lemma shrunk_skip pgdir k k' l l' a a' oldsz : a <= a' ->
  (forall va, visited a oldsz va -> ~ visited a' oldsz va -> present (pte_at (km_mem k) pgdir va) = false) ->
  shrunk pgdir k k' l l' a' oldsz -> shrunk pgdir k k' l l' a oldsz.
Proof.
  intros Ha Hn [He Hd Hp Hf Hw].
  assert (Hiff : forall va, visited a oldsz va /\ present (pte_at (km_mem k) pgdir va) = true <->
                            visited a' oldsz va /\ present (pte_at (km_mem k) pgdir va) = true).
  { intros va. split; intros [Hv Hpr]; split; try done; [|unfold visited in *; lia].
    destruct (decide (visited a' oldsz va)); [done|]. now rewrite Hn in Hpr. }
  split; try done.
  - intros va Hva. rewrite Hp by done. specialize (Hiff va). repeat destruct (decide _); tauto.
  - intros v. rewrite Hf. split; (intros [H|(va & Hv & Hpr & Hfr)]; [now left|right; exists va]).
    + destruct (proj2 (Hiff va) (conj Hv Hpr)). auto.
    + destruct (proj1 (Hiff va) (conj Hv Hpr)). auto.
Qed.

(** Unmapping a page and going on after it. *)
Lemma shrunk_cons pgdir k k1 k2 l l2 a oldsz : a mod 4096 = 0 -> 0 <= a < oldsz -> oldsz <= KERNBASE ->
  present (pte_at (km_mem k) pgdir a) = true -> (forall va, user va -> va / 4096 <> a / 4096 ->
    present (pte_at (km_mem k) pgdir va) = true -> frame (km_mem k) pgdir va <> frame (km_mem k) pgdir a) ->
  km_end k1 = km_end k -> page_eq (km_mem k) (km_mem k1) pgdir ->
  (forall w, w mod 4096 = 0 -> w <> frame (km_mem k) pgdir a -> w <> pgdir -> ~ is_tab (km_mem k) pgdir w ->
     page_eq (km_mem k) (km_mem k1) w) ->
  (forall va, 0 <= va < 2 ^ 32 -> pte_at (km_mem k1) pgdir va =
     if decide (va / 4096 = a / 4096) then 0 else pte_at (km_mem k) pgdir va) ->
  shrunk pgdir k1 k2 (frame (km_mem k) pgdir a :: l) l2 (a + 4096) oldsz -> shrunk pgdir k k2 l l2 a oldsz.
Proof.
  intros Hal Ha Ho Hpa Hinj He1 Hd1 Hw1 Hp1 [He2 Hd2 Hp2 Hf2 Hw2].
  assert (Hstep : forall va, 0 <= va < 2 ^ 32 -> visited a oldsz va <-> va / 4096 = a / 4096 \/ visited (a + 4096) oldsz va).
  { intros va Hva. unfold visited. Z.div_mod_to_equations. lia. }
  assert (Hr : forall va, visited (a + 4096) oldsz va -> 0 <= va < 2 ^ 32 /\ user va /\ va / 4096 <> a / 4096).
  { intros va Hv. unfold visited, user, KERNBASE in *. Z.div_mod_to_equations. lia. }
  assert (Hsame : forall va, va / 4096 = a / 4096 -> 0 <= va < 2 ^ 32 -> pte_at (km_mem k) pgdir va = pte_at (km_mem k) pgdir a).
  { intros va Hva Hb. unfold pte_at. assert (PDX va = PDX a /\ PTX va = PTX a) as [-> ->]; [|done].
    apply same_page; unfold KERNBASE in *; lia. }
  split; [congruence|eapply page_eq_trans; eauto| | |].
  - intros va Hva. rewrite Hp2, !Hp1 by done. destruct (decide (va / 4096 = a / 4096)) as [Heq|Hne].
    + rewrite (decide_True (P := visited a oldsz va /\ _)) by (rewrite Hsame by done; split; [apply Hstep; auto|done]).
      now destruct (decide _).
    + pose proof (Hstep va Hva). repeat destruct (decide _); tauto.
  - intros v. rewrite Hf2, elem_of_cons. split.
    + intros [[->|H]|(va & Hv & Hp & Hfr)]; [right; exists a|now left|right; exists va].
      * split; [apply Hstep; [unfold KERNBASE in *; lia|now left]|]. now split.
      * destruct (Hr va Hv) as (Hb & Hu & Hne). unfold frame in Hfr. rewrite Hp1, decide_False in Hp, Hfr by done.
        split; [apply Hstep; auto|]. now split.
    + intros [H|(va & Hv & Hp & Hfr)]; [left; now right|].
      assert (Hb : 0 <= va < 2 ^ 32) by (unfold visited, KERNBASE in *; Z.div_mod_to_equations; lia).
      apply Hstep in Hv as [Heq|Hv]; [|right; exists va|done].
      * left; left. unfold frame in *. now rewrite (Hsame va Heq Hb) in Hfr.
      * destruct (Hr va Hv) as (_ & Hu & Hne). split; [done|]. unfold frame in *. rewrite !Hp1, decide_False by done. now split.
  - intros w Hw Hwd Hwt Hwl. eapply page_eq_trans; [apply Hw1; try done|apply Hw2; try done].
    + intros ->. apply Hwl, Hf2. left. now left.
    + now intros H%(is_tab_ext pgdir _ _ w Hd1).
Qed.

Lemma walk_no_alloc s pgdir va : walkpgdir pgdir va false s =
  Done (if has_tab (km_mem (ks_kmem s)) pgdir (PDX va) then tab (km_mem (ks_kmem s)) pgdir (PDX va) + 4 * PTX va else 0) s.
Proof.
  unfold walkpgdir. rewrite bind_load. fold (has_tab (km_mem (ks_kmem s)) pgdir (PDX va)).
  now destruct (has_tab (km_mem (ks_kmem s)) pgdir (PDX va)).
Qed.

Lemma slot_nonzero k pgdir l va : pt_wf k pgdir l -> has_tab (km_mem k) pgdir (PDX va) = true ->
  tab (km_mem k) pgdir (PDX va) + 4 * PTX va <> 0.
Proof.
  intros Hwf Ht. destruct (wf_tab _ _ _ Hwf _ (has_is_tab pgdir _ _ (PDX_range va) Ht)) as (Hok & _).
  pose proof (page_ok_pos _ _ Hok). pose proof (PTX_range va). lia.
Qed.

(** The address after a missing page table. *)
Lemma next_table a : 0 <= a < KERNBASE -> u32 (u32 (PGADDR (PDX a + 1) 0 0 - PGSIZE) + PGSIZE) = (a / 2 ^ 22 + 1) * 2 ^ 22.
Proof.
  unfold KERNBASE, PGSIZE. intros Ha. rewrite PDX_eq by lia.
  assert (0 <= a / 2 ^ 22 < 512) by (split; [apply Z.div_pos; lia|apply Z.div_lt_upper_bound; lia]).
  rewrite PGADDR_eq by lia. rewrite (u32_small (_ - 4096)) by lia. rewrite u32_small; lia.
Qed.

Lemma pte_no_table mem pgdir a va : 0 <= a < 2 ^ 32 -> 0 <= va < 2 ^ 32 -> va / 2 ^ 22 = a / 2 ^ 22 ->
  has_tab mem pgdir (PDX a) = false -> present (pte_at mem pgdir va) = false.
Proof. intros Ha Hva Heq Ht. unfold pte_at. rewrite PDX_eq in * by done. now rewrite Heq, Ht. Qed.

Lemma frame_nonnull k pgdir l va : as_ok k pgdir l -> user va -> present (pte_at (km_mem k) pgdir va) = true ->
  PTE_ADDR (pte_at (km_mem k) pgdir va) <> 0.
Proof.
  intros Has Hu Hp Hz. destruct (as_frame _ _ _ Has va Hu Hp) as (Hok & _). pose proof (as_end _ _ _ Has) as He.
  unfold frame in Hok. rewrite Hz in Hok. destruct Hok as [Hok _]. unfold kfree_bad in Hok.
  change (P2V 0) with KERNBASE in Hok. lia.
Qed.

Lemma deallocuvm_loop_run n s pgdir l a oldsz : vm_ok s pgdir l -> a mod 4096 = 0 -> 0 <= a -> oldsz <= KERNBASE ->
  oldsz <= a + 4096 * Z.of_nat n ->
  exists s' l', deallocuvm_loop (S n) pgdir a oldsz s = Done tt s' /\ vm_ok s' pgdir l' /\
    shrunk pgdir (ks_kmem s) (ks_kmem s') l l' a oldsz.
Proof.
  revert s l a. induction n as [|n IH]; intros s l a Hok Hal Ha Ho Hn; cbn [deallocuvm_loop];
    (destruct (Z.ltb_spec a oldsz) as [Hlt|Hge];
     [|exists s, l; split; [reflexivity|]; split; [exact Hok|]; apply shrunk_refl; unfold visited; lia]); [lia|].
  assert (Hu : user a) by (unfold user; lia). pose proof (user_range _ Hu) as Hb.
  rewrite (bind_done _ _ _ _ _ (walk_no_alloc s pgdir a)). set (mem := km_mem (ks_kmem s)).
  destruct (has_tab mem pgdir (PDX a)) eqn:Ht.
  2: { cbn [Z.eqb]. rewrite next_table by exact Hu. set (a' := (a / 2 ^ 22 + 1) * 2 ^ 22).
       assert (Ha' : a + 4096 <= a' /\ a' mod 4096 = 0) by (unfold a'; Z.div_mod_to_equations; lia).
       destruct (IH s l a' Hok) as (s' & l' & Hrun & Hok' & Hsh); [lia..|].
       exists s', l'. split; [exact Hrun|]. split; [exact Hok'|]. apply (shrunk_skip _ _ _ _ _ a a'); [lia| |exact Hsh].
       intros va Hv Hv'. apply (pte_no_table _ pgdir a va); [exact Hb| | |exact Ht];
         unfold visited, a', KERNBASE in *; Z.div_mod_to_equations; lia. }
  pose proof Hok as [(_ & _ & Hwf) Has]. pose proof (slot_nonzero _ _ _ a Hwf Ht) as Hnz. fold mem in Hnz.
  rewrite (proj2 (Z.eqb_neq _ _) Hnz), bind_load.
  assert (E : word mem (tab mem pgdir (PDX a) + 4 * PTX a) = pte_at mem pgdir a) by (unfold pte_at; now rewrite Ht).
  fold mem. rewrite E, u32_small by (unfold PGSIZE, KERNBASE in *; lia). unfold PGSIZE. destruct (present (pte_at mem pgdir a)) eqn:Hp.
  - cbn [when]. pose proof (frame_nonnull _ _ _ a Has Hu Hp) as Hz. fold mem in Hz. rewrite (proj2 (Z.eqb_neq _ _) Hz).
    destruct (unmap_page s pgdir l a Hok Hu Hp) as (s1 & Hrun1 & Hok1 & He1 & Hd1 & Hw1 & Hp1).
    rewrite (bind_done _ _ _ _ _ Hrun1). destruct (IH s1 _ (a + 4096) Hok1) as (s' & l' & Hrun & Hok2 & Hsh);
      [Z.div_mod_to_equations; lia|lia..|].
    exists s', l'. split; [exact Hrun|]. split; [exact Hok2|].
    eapply shrunk_cons; try eassumption; [lia|]. intros va Hu' Hne Hp' Hfr. apply Hne. now apply (as_inj _ _ _ Has).
  - cbn [when]. rewrite (bind_done _ _ _ _ _ (eq_refl : ret tt s = Done tt s)).
    destruct (IH s l (a + 4096) Hok) as (s' & l' & Hrun & Hok2 & Hsh); [Z.div_mod_to_equations; lia|lia..|].
    exists s', l'. split; [exact Hrun|]. split; [exact Hok2|]. apply (shrunk_skip _ _ _ _ _ a (a + 4096)); [lia| |exact Hsh].
    intros va Hv Hv'. assert (va / 4096 = a / 4096) by (unfold visited in *; Z.div_mod_to_equations; lia).
    rewrite <- Hp. f_equal. unfold pte_at. assert (PDX va = PDX a /\ PTX va = PTX a) as [-> ->]; [|done].
    apply same_page; [|done..]. unfold visited, KERNBASE in *. Z.div_mod_to_equations. lia.
Qed.

Lemma deallocuvm_run s pgdir l oldsz newsz : vm_ok s pgdir l -> 0 <= newsz < oldsz -> oldsz <= KERNBASE ->
  exists s' l', deallocuvm pgdir oldsz newsz s = Done newsz s' /\ vm_ok s' pgdir l' /\
    shrunk pgdir (ks_kmem s) (ks_kmem s') l l' (PGROUNDUP newsz) oldsz.
Proof.
  intros Hok Hn Ho. unfold deallocuvm. replace (oldsz <=? newsz) with false by lia.
  assert (Hup : PGROUNDUP newsz = 4096 * ((newsz + 4095) / 4096)) by (apply PGROUNDUP_eq; unfold KERNBASE in *; lia).
  destruct (deallocuvm_loop_run (Z.to_nat (oldsz / PGSIZE) + 1) s pgdir l (PGROUNDUP newsz) oldsz Hok) as (s' & l' & Hrun & H);
    [rewrite ?Hup; unfold PGSIZE, KERNBASE in *; Z.div_mod_to_equations; lia..|].
  exists s', l'. split; [|exact H]. now rewrite (bind_done _ _ _ _ _ Hrun).
Qed.

(** ** Growing *)
Lemma no_page s pgdir : vm_ok s pgdir [] ->
  exists s1, kalloc s = Done 0 s1 /\ vm_ok s1 pgdir [] /\ km_mem (ks_kmem s1) = km_mem (ks_kmem s) /\ km_end (ks_kmem s1) = km_end (ks_kmem s).
Proof.
  intros [(Hr & Hf & Hwf) Has]. destruct (kalloc_run s [] Hr Hf) as (k' & Hrun & Hf' & Hm & He & _).
  exists (mkKst (after_lock s) k'). split; [exact Hrun|]. split; [|now split]. split.
  - split; [now apply after_lock_ready|]. split; [exact Hf'|]. apply (pt_wf_ext (ks_kmem s) k' pgdir [] [] Hwf He);
      [intros i _; now rewrite Hm|intros v Hv; now left].
  - apply (as_ok_ext (ks_kmem s) k' pgdir [] [] Has He).
    + intros va _ _. now rewrite Hm.
    + intros va Hu Hp. rewrite Hm in *. now destruct (as_frame _ _ _ Has va Hu Hp) as (_ & H2 & _ & H4).
Qed.

(** A page taken from the free list and cleared. *)
Definition fresh_page (s2 : kst) (pgdir m : Z) (l : list Z) : Prop :=
  pt_ok s2 pgdir l /\ as_ok (ks_kmem s2) pgdir (m :: l) /\ page_ok (ks_kmem s2) m /\ m ∉ l /\ m <> pgdir /\
  ~ is_tab (km_mem (ks_kmem s2)) pgdir m.
Definition zeroed (mem : gmap Z Z) (m : Z) : Prop := forall i, 0 <= i < 1024 -> word mem (m + 4 * i) = 0.

Lemma take_page s pgdir m l : vm_ok s pgdir (m :: l) ->
  exists s1, kalloc s = Done m s1 /\ let s2 := upd_mem (fun mem => memset_page mem m 0) s1 in
    fresh_page s2 pgdir m l /\ zeroed (km_mem (ks_kmem s2)) m /\ km_end (ks_kmem s2) = km_end (ks_kmem s) /\
    page_eq (km_mem (ks_kmem s)) (km_mem (ks_kmem s2)) pgdir /\
    (forall va, pte_at (km_mem (ks_kmem s2)) pgdir va = pte_at (km_mem (ks_kmem s)) pgdir va) /\
    (forall w, w mod 4096 = 0 -> w <> m -> page_eq (km_mem (ks_kmem s)) (km_mem (ks_kmem s2)) w).
Proof.
  intros [(Hr & Hf & Hwf) Has]. destruct (kalloc_run s (m :: l) Hr Hf) as (k' & Hrun & Hf' & Hm & He & _).
  pose proof Hf as (_ & Hnd & Hall). apply NoDup_cons in Hnd as [Hnin _]. apply Forall_cons_iff in Hall as [Hpm Hall].
  set (s1 := mkKst (after_lock s) k') in *. exists s1. split; [exact Hrun|]. intros s2.
  assert (Hm2 : km_mem (ks_kmem s2) = memset_page (km_mem (ks_kmem s)) m 0).
  { unfold s2. rewrite upd_mem_mem. unfold s1. cbn [ks_kmem]. now rewrite Hm. }
  assert (He2 : km_end (ks_kmem s2) = km_end (ks_kmem s)) by (unfold s2; rewrite upd_mem_end; exact He).
  assert (Hother : forall w, w mod 4096 = 0 -> w <> m -> page_eq (km_mem (ks_kmem s)) (km_mem (ks_kmem s2)) w).
  { intros w Hw Hne. rewrite Hm2. apply page_eq_memset; [exact Hw|now apply (page_aligned (ks_kmem s))|exact Hne]. }
  assert (Hz : zeroed (km_mem (ks_kmem s2)) m) by (intros i Hi; rewrite Hm2; now apply word_zeroed). clear Hm2.
  assert (Hmd : m <> pgdir) by (intros ->; apply (wf_dir_used _ _ _ Hwf); now left).
  assert (Hdir : page_eq (km_mem (ks_kmem s)) (km_mem (ks_kmem s2)) pgdir).
  { apply Hother; [apply (page_aligned (ks_kmem s)), Hwf|congruence]. }
  assert (Hnt : forall v, is_tab (km_mem (ks_kmem s)) pgdir v -> v <> m).
  { intros v Hv ->. destruct (wf_tab _ _ _ Hwf m Hv) as (_ & _ & H). apply H. now left. }
  assert (Hpte : forall va, pte_at (km_mem (ks_kmem s2)) pgdir va = pte_at (km_mem (ks_kmem s)) pgdir va).
  { intros va. apply pte_ext; [exact Hdir|]. intros v Hv. apply Hother; [|now apply Hnt].
    destruct (wf_tab _ _ _ Hwf v Hv) as (H & _). now apply (page_aligned (ks_kmem s)). }
  split; [|now split; [|split; [|split; [|split]]]]. split; [|split; [|split; [|split; [|split]]]].
  - split; [now apply after_lock_ready|]. split.
    + apply free_pages_mem; [exact Hf'|]. intros a Ha. change (km_mem (ks_kmem s1)) with (km_mem k'). rewrite Hm.
      pose proof (proj1 (Forall_forall _ _) Hall a Ha) as Hpa. rewrite <- (Z.add_0_r a). apply word_outside; [|..|lia].
      * now apply (page_aligned (ks_kmem s)).
      * now apply (page_aligned (ks_kmem s)).
      * intros ->. contradiction.
    + apply (pt_wf_ext (ks_kmem s) _ pgdir (m :: l) l Hwf He2 Hdir). intros v Hv. left. now right.
  - apply (as_ok_ext (ks_kmem s) _ pgdir (m :: l) (m :: l) Has He2); [intros; apply Hpte|].
    intros va Hu Hp. rewrite Hpte in Hp. destruct (as_frame _ _ _ Has va Hu Hp) as (_ & H2 & _ & H4).
    split; [exact H2|]. now rewrite (is_tab_ext pgdir _ _ _ Hdir).
  - now apply (page_ok_irrel (ks_kmem s)).
  - exact Hnin.
  - exact Hmd.
  - rewrite (is_tab_ext pgdir _ _ _ Hdir). intros H. now apply (Hnt m H).
Qed.

Lemma mappages_one pgdir a pa perm : 0 <= a < KERNBASE -> a mod 4096 = 0 ->
  mappages pgdir a PGSIZE pa perm = mappages_loop 1 pgdir a (a + 4096 * Z.of_nat 0) pa perm.
Proof.
  unfold KERNBASE, PGSIZE. intros Ha Hal. unfold mappages, PGSIZE. rewrite (u32_small (a + 4096 - 1)) by lia.
  rewrite !PGROUNDDOWN_eq by lia. replace ((a + 4096 - 1) / 4096) with (a / 4096) by (Z.div_mod_to_equations; lia).
  rewrite Z.sub_diag. replace (4096 * (a / 4096)) with a by (Z.div_mod_to_equations; lia).
  change (Z.to_nat (u32 0 / 4096)) with 0%nat. now rewrite Z.add_0_r.
Qed.

(** The flags of a user page. *)
Definition user_pte (m : Z) : Z := V2P m + 7.

Lemma user_entry k a m va : page_ok k m -> va / 4096 = a / 4096 -> entry a (V2P m) (Z.lor PTE_W PTE_U) va = user_pte m.
Proof.
  intros Hm Hva. unfold entry, user_pte. rewrite Hva, Z.sub_diag, Z.mul_0_r, Z.add_0_r, <- Z.lor_assoc.
  apply (entry_frame k m 7 Hm). lia.
Qed.

(** A frame that nobody uses becomes the frame of the page of [a]. *)
Lemma as_ok_add k k' pgdir m l l' a : as_ok k pgdir (m :: l) -> km_end k' = km_end k -> page_ok k m -> m <> pgdir -> m ∉ l' ->
  ~ is_tab (km_mem k') pgdir m ->
  (forall va, user va -> present (pte_at (km_mem k) pgdir va) = true ->
     let v := frame (km_mem k) pgdir va in v <> m /\ v ∉ l' /\ ~ is_tab (km_mem k') pgdir v) ->
  (forall va, 0 <= va < 2 ^ 32 -> pte_at (km_mem k') pgdir va =
     if decide (va / 4096 = a / 4096) then user_pte m else pte_at (km_mem k) pgdir va) -> as_ok k' pgdir l'.
Proof.
  intros Has He Hpm Hmd Hm Hnt Hold Hpte. destruct (entry_frame _ m 7 Hpm ltac:(lia)) as (_ & Hfr & _). split.
  - rewrite He. apply Has.
  - intros va Hua Hp v. unfold v, frame. rewrite Hpte in * by now apply user_range.
    destruct (decide (va / 4096 = a / 4096)) as [Heq|Hne].
    + unfold user_pte. rewrite Hfr. split; [now apply (page_ok_irrel k)|]. now split.
    + destruct (Hold va Hua Hp) as (_ & H2 & H3). destruct (as_frame _ _ _ Has va Hua Hp) as (H4 & _ & H5 & _).
      split; [now apply (page_ok_irrel k)|]. now split.
  - intros va va' Hua Hua' Hp Hp'. unfold frame. rewrite Hpte in Hp by now apply user_range. rewrite Hpte in Hp' by now apply user_range.
    rewrite !Hpte by now apply user_range.
    destruct (decide (va / 4096 = a / 4096)) as [Heq|Hne], (decide (va' / 4096 = a / 4096)) as [Heq'|Hne'].
    + congruence.
    + unfold user_pte. rewrite Hfr. intros E. destruct (Hold va' Hua' Hp') as (H & _). now destruct H.
    + unfold user_pte. rewrite Hfr. intros E. destruct (Hold va Hua Hp) as (H & _). now destruct H.
    + now apply (as_inj _ _ _ Has).
Qed.

(** Mapping a fresh page at [a], or failing for want of a page table. *)
Lemma map_fresh s2 pgdir m l a : fresh_page s2 pgdir m l -> user a -> a mod 4096 = 0 ->
  present (pte_at (km_mem (ks_kmem s2)) pgdir a) = false ->
  exists r s3 l3, mappages pgdir a PGSIZE (V2P m) (Z.lor PTE_W PTE_U) s2 = Done r s3 /\ pt_ok s3 pgdir l3 /\
    kept pgdir (ks_kmem s2) (ks_kmem s3) l l3 /\ (length l <= length l3 + 1)%nat /\ ~ is_tab (km_mem (ks_kmem s3)) pgdir m /\ m ∉ l3 /\
    (r = 0 /\ as_ok (ks_kmem s3) pgdir l3 /\
       (forall va, 0 <= va < 2 ^ 32 -> pte_at (km_mem (ks_kmem s3)) pgdir va =
          if decide (va / 4096 = a / 4096) then user_pte m else pte_at (km_mem (ks_kmem s2)) pgdir va) \/
     r = -1 /\ l = [] /\ l3 = [] /\ as_ok (ks_kmem s3) pgdir [m] /\
       (forall va, 0 <= va < 2 ^ 32 -> pte_at (km_mem (ks_kmem s3)) pgdir va = pte_at (km_mem (ks_kmem s2)) pgdir va)).
Proof.
  intros (Hok & Has & Hpm & Hnin & Hmd & Hnt) Hu Hal Hpa. rewrite mappages_one by done.
  pose proof (user_range _ Hu) as Hb. destruct (page_ok_high _ _ Hpm) as [Hhi Hv2p].
  destruct (mappages_run 0 s2 pgdir l a (V2P m) (Z.lor PTE_W PTE_U) Hok Hal ltac:(lia) ltac:(unfold user, KERNBASE in *; lia)
    ltac:(lia) ltac:(unfold KERNBASE, PHYSTOP in *; lia)) as (r & s3 & l3 & j & Hrun & Hok3 & Hk & Hlen & Hr & Hmap).
  { intros va Hva Hin. unfold in_range in Hin. rewrite <- Hpa. f_equal. unfold pte_at.
    assert (PDX va = PDX a /\ PTX va = PTX a) as [-> ->]; [apply same_page; [done..|lia]|done]. }
  pose proof Hk as (He & used & Hl & Htabs & _).
  assert (Hnt3 : ~ is_tab (km_mem (ks_kmem s3)) pgdir m).
  { rewrite Htabs. intros [H|H]; [contradiction|]. apply Hnin. rewrite Hl. apply elem_of_app. now left. }
  assert (Hnin3 : m ∉ l3) by (intros H; apply Hnin; rewrite Hl; apply elem_of_app; now right).
  assert (Hold : forall va, user va -> present (pte_at (km_mem (ks_kmem s2)) pgdir va) = true ->
    let v := frame (km_mem (ks_kmem s2)) pgdir va in v <> m /\ v ∉ l3 /\ ~ is_tab (km_mem (ks_kmem s3)) pgdir v).
  { intros va Hua Hp v. destruct (as_frame _ _ _ Has va Hua Hp) as (_ & H2 & _ & H4). split; [intros E; apply H2; unfold v in E; rewrite E; now left|].
    split; [intros H; apply H2; right; rewrite Hl; apply elem_of_app; now right|]. rewrite Htabs. intros [H|H]; [contradiction|].
    apply H2. right. rewrite Hl. apply elem_of_app. now left. }
  exists r, s3, l3. split; [exact Hrun|]. split; [exact Hok3|]. split; [exact Hk|]. split; [lia|]. split; [exact Hnt3|]. split; [exact Hnin3|].
  destruct Hr as [[-> ->]|(-> & Hj & -> & Hl0)].
  - left. split; [done|].
    assert (Hpte : forall va, 0 <= va < 2 ^ 32 -> pte_at (km_mem (ks_kmem s3)) pgdir va =
          if decide (va / 4096 = a / 4096) then user_pte m else pte_at (km_mem (ks_kmem s2)) pgdir va).
    { intros va Hva. rewrite (Hmap va Hva). destruct (decide (va / 4096 = a / 4096)) as [Heq|Hne].
      - rewrite decide_True by (unfold in_range; lia). now apply (user_entry (ks_kmem s2)).
      - now rewrite decide_False by (unfold in_range; lia). }
    split; [|exact Hpte]. now apply (as_ok_add (ks_kmem s2) _ pgdir m l l3 a).
  - right. split; [done|]. split; [destruct l; [done|simpl in Hl0; lia]|]. split; [done|].
    assert (Hpte : forall va, 0 <= va < 2 ^ 32 -> pte_at (km_mem (ks_kmem s3)) pgdir va = pte_at (km_mem (ks_kmem s2)) pgdir va).
    { intros va Hva. rewrite (Hmap va Hva), decide_False; [done|]. unfold in_range. lia. }
    split; [|exact Hpte]. apply (as_ok_ext (ks_kmem s2) _ pgdir (m :: l) [m] Has He).
    + intros va Hua _. apply Hpte. now apply user_range.
    + intros va Hua Hp. rewrite Hpte in Hp by now apply user_range. destruct (Hold va Hua Hp) as (H1 & _ & H3).
      split; [|exact H3]. now rewrite list_elem_of_singleton.
Qed.

(** What growing makes of the space: each page visited is mapped, for the user
    to write, to a cleared frame that was free; everything else is as it was. *)
Record grown (pgdir : Z) (k k' : kmem) (l l' : list Z) (a newsz : Z) : Prop := {
  gr_end : km_end k' = km_end k;
  gr_free v : v ∈ l' -> v ∈ l;
  gr_tab v : is_tab (km_mem k') pgdir v -> is_tab (km_mem k) pgdir v \/ v ∈ l;
  gr_old va : 0 <= va < 2 ^ 32 -> ~ visited a newsz va -> pte_at (km_mem k') pgdir va = pte_at (km_mem k) pgdir va;
  gr_new va : visited a newsz va -> exists m, m ∈ l /\ pte_at (km_mem k') pgdir va = user_pte m /\ zeroed (km_mem k') m;
  gr_page w : w mod 4096 = 0 -> w <> pgdir -> ~ is_tab (km_mem k) pgdir w -> w ∉ l -> page_eq (km_mem k) (km_mem k') w;
}.
(** What a failed growth leaves: no page of the range is present, and every
    page that was free or mapped in the range is free or holds a page table. *)
Record reverted (pgdir : Z) (k k' : kmem) (l l' : list Z) (a newsz : Z) : Prop := {
  rv_old va : 0 <= va < 2 ^ 32 -> ~ visited a newsz va -> pte_at (km_mem k') pgdir va = pte_at (km_mem k) pgdir va;
  rv_gone va : visited a newsz va -> present (pte_at (km_mem k') pgdir va) = false;
  rv_tab v : is_tab (km_mem k) pgdir v -> is_tab (km_mem k') pgdir v;
  rv_account v : v ∈ l \/ (exists va, visited a newsz va /\ present (pte_at (km_mem k) pgdir va) = true /\ frame (km_mem k) pgdir va = v) ->
    v ∈ l' \/ is_tab (km_mem k') pgdir v;
  rv_page w : w mod 4096 = 0 -> w <> pgdir -> ~ is_tab (km_mem k) pgdir w -> w ∉ l -> w ∉ l' -> page_eq (km_mem k) (km_mem k') w;
}.

Lemma visited_range a newsz va : newsz < KERNBASE -> visited a newsz va -> 0 <= va < 2 ^ 32.
Proof. unfold visited, KERNBASE. intros. Z.div_mod_to_equations. lia. Qed.

Lemma visited_user a newsz va : newsz < KERNBASE -> visited a newsz va -> user va.
Proof. unfold visited, user, KERNBASE. intros. Z.div_mod_to_equations. lia. Qed.

(** A page mapped at [a] to the fresh frame [m]. *)
Definition grown1 (pgdir : Z) (k k3 : kmem) (m : Z) (l l3 : list Z) (a : Z) : Prop :=
  km_end k3 = km_end k /\ m ∉ l3 /\ m <> pgdir /\ m mod 4096 = 0 /\ ~ is_tab (km_mem k3) pgdir m /\ zeroed (km_mem k3) m /\
  P2V (PTE_ADDR (user_pte m)) = m /\ present (user_pte m) = true /\
  (exists used, l = used ++ l3 /\ (forall v, is_tab (km_mem k3) pgdir v <-> is_tab (km_mem k) pgdir v \/ v ∈ used)) /\
  (forall va, 0 <= va < 2 ^ 32 -> pte_at (km_mem k3) pgdir va =
     if decide (va / 4096 = a / 4096) then user_pte m else pte_at (km_mem k) pgdir va) /\
  (forall w, w mod 4096 = 0 -> w <> pgdir -> ~ is_tab (km_mem k) pgdir w -> w ∉ m :: l -> page_eq (km_mem k) (km_mem k3) w).

Lemma visited_step a newsz va : a mod 4096 = 0 -> 0 <= a < newsz -> newsz < KERNBASE ->
  0 <= va < 2 ^ 32 -> visited a newsz va <-> va / 4096 = a / 4096 \/ visited (a + 4096) newsz va.
Proof. unfold visited, KERNBASE. intros. Z.div_mod_to_equations. lia. Qed.

Lemma grown_cons pgdir k k3 k' m l l3 l' a newsz : a mod 4096 = 0 -> 0 <= a < newsz -> newsz < KERNBASE ->
  grown1 pgdir k k3 m l l3 a -> grown pgdir k3 k' l3 l' (a + 4096) newsz -> grown pgdir k k' (m :: l) l' a newsz.
Proof.
  intros Hal Ha Hn (He & Hm3 & Hmd & Hmal & Hmt & Hz & _ & _ & (used & Hl & Htabs) & Hp & Hw) [He' Hf' Ht' Ho' Hn' Hp'].
  assert (H3 : forall v, v ∈ l3 -> v ∈ m :: l) by (intros v Hv; right; rewrite Hl; apply elem_of_app; now right).
  assert (Hu : forall v, v ∈ used -> v ∈ m :: l) by (intros v Hv; right; rewrite Hl; apply elem_of_app; now left).
  split.
  - congruence.
  - intros v Hv. auto.
  - intros v [H|H]%Ht'; [|auto]. apply Htabs in H as [H|H]; [now left|auto].
  - intros va Hva Hnv. rewrite (visited_step a newsz va) in Hnv by done. rewrite Ho', Hp, decide_False by tauto. done.
  - intros va Hv. pose proof (visited_range _ _ _ Hn Hv) as Hva. apply (visited_step a newsz va Hal Ha Hn Hva) in Hv as [Heq|Hv].
    + exists m. split; [now left|]. rewrite Ho', Hp, decide_True by (done || (unfold visited; Z.div_mod_to_equations; lia)). split; [done|].
      intros i Hi. rewrite (Hp' m Hmal Hmd Hmt Hm3 i Hi). now apply Hz.
    + destruct (Hn' va Hv) as (m' & Hm' & Hpte & Hz'). exists m'. auto.
  - intros w Hwal Hwd Hwt Hwl. eapply page_eq_trans; [now apply Hw|]. apply Hp'; [done|done| |auto].
    rewrite Htabs. intros [H|H]; auto.
Qed.

Lemma reverted_cons pgdir k k3 k' m l l3 l' a0 a newsz : newsz < KERNBASE -> visited a0 newsz a -> a mod 4096 = 0 ->
  present (pte_at (km_mem k) pgdir a) = false ->
  grown1 pgdir k k3 m l l3 a -> reverted pgdir k3 k' l3 l' a0 newsz -> reverted pgdir k k' (m :: l) l' a0 newsz.
Proof.
  intros Hn Hva Hal Hpa (He & Hm3 & Hmd & Hmal & Hmt & Hz & Hadr & Hpr & (used & Hl & Htabs) & Hp & Hw) [Ho' Hg' Ht' Ha' Hp'].
  assert (Hvis : forall va, va / 4096 = a / 4096 -> 0 <= va -> visited a0 newsz va) by (unfold visited in *; intros va ->; lia).
  pose proof (visited_range _ _ _ Hn Hva) as Hb.
  split.
  - intros va Hb' Hnv. rewrite Ho', Hp, decide_False by (auto || (intros E; apply Hnv, Hvis; lia)). done.
  - exact Hg'.
  - intros v Hv. apply Ht', Htabs. now left.
  - intros v [[->|Hv]%elem_of_cons|(va & Hv & Hpv & Hfr)].
    + apply Ha'. right. exists a. split; [done|]. unfold frame. rewrite Hp, decide_True by done. now rewrite Hadr.
    + rewrite Hl in Hv. apply elem_of_app in Hv as [Hv|Hv]; [right; apply Ht', Htabs; now right|apply Ha'; now left].
    + apply Ha'. right. exists va. split; [done|]. pose proof (visited_range _ _ _ Hn Hv) as Hb'. unfold frame. rewrite Hp by done.
      destruct (decide (va / 4096 = a / 4096)) as [Heq|]; [|now split]. exfalso.
      assert (pte_at (km_mem k) pgdir va = pte_at (km_mem k) pgdir a) as E; [|congruence].
      unfold pte_at. assert (PDX va = PDX a /\ PTX va = PTX a) as [-> ->]; [now apply same_page|done].
  - intros w Hwal Hwd Hwt Hwl Hwl'. eapply page_eq_trans; [now apply Hw|]. apply Hp'; try done.
    + rewrite Htabs. intros [H|H]; [done|]. apply Hwl. right. rewrite Hl. apply elem_of_app. now left.
    + intros H. apply Hwl. right. rewrite Hl. apply elem_of_app. now right.
Qed.

(** The view of the space depends on the memory only. *)
Lemma reverted_of_shrunk pgdir k k1 k' l l' a newsz :
  km_mem k1 = km_mem k -> shrunk pgdir k1 k' l l' a newsz -> newsz < KERNBASE -> reverted pgdir k k' l l' a newsz.
Proof.
  intros Hm [He Hd Hp Hf Hw] Hn. rewrite Hm in *. split.
  - intros va Hva Hnv. rewrite Hp, decide_False by (done || tauto). done.
  - intros va Hv. rewrite Hp by now apply (visited_range a newsz). destruct (decide _) as [|Hnp]; [done|].
    destruct (present (pte_at (km_mem k) pgdir va)); [exfalso; auto|done].
  - intros v Hv. now apply (is_tab_ext pgdir _ _ v Hd).
  - intros v Hv. left. now apply Hf.
  - intros w H1 H2 H3 H4 H5. now apply Hw.
Qed.

Lemma alloc_no_frame s pgdir oldsz newsz : vm_ok s pgdir [] -> 0 <= oldsz < newsz -> newsz < KERNBASE ->
  exists s1 s' l', kalloc s = Done 0 s1 /\ (deallocuvm pgdir newsz oldsz ;;; ret 0) s1 = Done 0 s' /\ vm_ok s' pgdir l' /\
    reverted pgdir (ks_kmem s) (ks_kmem s') [] l' (PGROUNDUP oldsz) newsz.
Proof.
  intros Hok Ho Hn. destruct (no_page s pgdir Hok) as (s1 & Hrun & Hok1 & Hm & He).
  destruct (deallocuvm_run s1 pgdir [] newsz oldsz Hok1 Ho ltac:(lia)) as (s' & l' & Hrun' & Hok' & Hsh).
  exists s1, s', l'. split; [exact Hrun|]. split; [now rewrite (bind_done _ _ _ _ _ Hrun')|]. split; [exact Hok'|].
  now apply (reverted_of_shrunk _ _ (ks_kmem s1)).
Qed.

(** The page table for [a] could not be made: the fresh frame is freed too. *)
Lemma alloc_no_table s s2 s3 pgdir m l oldsz newsz : 0 <= oldsz < newsz -> newsz < KERNBASE ->
  pt_ok s3 pgdir [] -> as_ok (ks_kmem s3) pgdir [m] -> page_ok (ks_kmem s3) m -> m <> pgdir -> ~ is_tab (km_mem (ks_kmem s3)) pgdir m ->
  kept pgdir (ks_kmem s2) (ks_kmem s3) l [] -> page_eq (km_mem (ks_kmem s)) (km_mem (ks_kmem s2)) pgdir ->
  (forall w, w mod 4096 = 0 -> w <> m -> page_eq (km_mem (ks_kmem s)) (km_mem (ks_kmem s2)) w) ->
  (forall va, 0 <= va < 2 ^ 32 -> pte_at (km_mem (ks_kmem s3)) pgdir va = pte_at (km_mem (ks_kmem s)) pgdir va) ->
  exists s' l', (deallocuvm pgdir newsz oldsz ;;; kfree m ;;; ret 0) s3 = Done 0 s' /\ vm_ok s' pgdir (m :: l') /\
    reverted pgdir (ks_kmem s) (ks_kmem s') (m :: l) (m :: l') (PGROUNDUP oldsz) newsz.
Proof.
  intros Ho Hn Hok3 Has3 Hpm Hmd Hnt Hk Hd2 Hw2 Hpte.
  assert (Hnot : forall va, user va -> present (pte_at (km_mem (ks_kmem s3)) pgdir va) = true -> frame (km_mem (ks_kmem s3)) pgdir va <> m).
  { intros va Hu Hp E. destruct (as_frame _ _ _ Has3 va Hu Hp) as (_ & H & _). apply H. rewrite E. now left. }
  assert (Has0 : as_ok (ks_kmem s3) pgdir []).
  { apply (as_ok_ext (ks_kmem s3) _ pgdir [m] [] Has3 eq_refl); [done|]. intros va Hu Hp.
    destruct (as_frame _ _ _ Has3 va Hu Hp) as (_ & _ & _ & H). split; [apply not_elem_of_nil|exact H]. }
  destruct (deallocuvm_run s3 pgdir [] newsz oldsz (conj Hok3 Has0) Ho ltac:(lia)) as (s4 & l4 & Hrun4 & [Hok4 Has4] & [He4 Hd4 Hp4 Hf4 Hw4]).
  assert (Hnin : m ∉ l4).
  { intros [H|(va & Hv & Hp & E)]%Hf4; [now apply not_elem_of_nil in H|]. apply (Hnot va); [|done|done].
    now apply (visited_user _ newsz _ Hn Hv). }
  destruct (pt_ok_kfree s4 pgdir l4 m Hok4) as (s5 & Hrun5 & Hok5 & He5 & Hw5 & Hp5);
    [now apply (page_ok_irrel (ks_kmem s3))|done|done|now rewrite (is_tab_ext pgdir _ _ m Hd4)|].
  assert (Hdir5 : page_eq (km_mem (ks_kmem s4)) (km_mem (ks_kmem s5)) pgdir).
  { apply Hw5; [|congruence]. apply (page_aligned (ks_kmem s4)), Hok4. }
  exists s5, l4. split; [rewrite (bind_done _ _ _ _ _ Hrun4); now rewrite (bind_done _ _ _ _ _ Hrun5)|]. split; [split; [exact Hok5|]|].
  - apply (as_ok_ext (ks_kmem s4) _ pgdir l4 (m :: l4) Has4 He5); [intros; apply Hp5|]. intros va Hu Hp. rewrite Hp5 in Hp.
    destruct (as_frame _ _ _ Has4 va Hu Hp) as (_ & H2 & _ & H4). split; [|now rewrite (is_tab_ext pgdir _ _ _ Hdir5)].
    intros [H|H]%elem_of_cons; [|done]. unfold frame in H. rewrite Hp4 in Hp, H by now apply user_range.
    destruct (decide _); [discriminate|]. now apply (Hnot va Hu Hp).
  - destruct Hk as (_ & used & Hl & Htabs & Hwk). rewrite app_nil_r in Hl. subst used.
    assert (Hist : forall v, is_tab (km_mem (ks_kmem s)) pgdir v \/ v ∈ l <-> is_tab (km_mem (ks_kmem s5)) pgdir v).
    { intros v. rewrite (is_tab_ext pgdir _ _ v Hdir5), (is_tab_ext pgdir _ _ v Hd4), Htabs. now rewrite (is_tab_ext pgdir _ _ v Hd2). }
    split.
    + intros va Hva Hnv. rewrite Hp5, Hp4, decide_False by (done || tauto). now apply Hpte.
    + intros va Hv. rewrite Hp5, Hp4 by exact (visited_range _ _ _ Hn Hv). destruct (decide _) as [|Hnp]; [done|].
      destruct (present (pte_at (km_mem (ks_kmem s3)) pgdir va)); [exfalso; auto|done].
    + intros v Hv. apply Hist. now left.
    + intros v [[->|Hv]%elem_of_cons|(va & Hv & Hp & E)]; [left; now left|right; apply Hist; now right|].
      left. right. apply Hf4. right. exists va. unfold frame in *. rewrite Hpte by exact (visited_range _ _ _ Hn Hv). auto.
    + intros w Hw Hwd Hwt Hwl Hwl'. apply not_elem_of_cons in Hwl as [Hwm Hwl], Hwl' as [_ Hwl'].
      eapply page_eq_trans; [now apply Hw2|]. eapply page_eq_trans; [apply Hwk; [done..| |done]|].
      { now rewrite (is_tab_ext pgdir _ _ w Hd2). }
      eapply page_eq_trans; [apply Hw4; try done|now apply Hw5]. rewrite Htabs, (is_tab_ext pgdir _ _ w Hd2). tauto.
Qed.

Lemma grown1_intro s s2 s3 pgdir m l l3 a : fresh_page s2 pgdir m l -> zeroed (km_mem (ks_kmem s2)) m ->
  km_end (ks_kmem s2) = km_end (ks_kmem s) -> page_eq (km_mem (ks_kmem s)) (km_mem (ks_kmem s2)) pgdir ->
  (forall va, pte_at (km_mem (ks_kmem s2)) pgdir va = pte_at (km_mem (ks_kmem s)) pgdir va) ->
  (forall w, w mod 4096 = 0 -> w <> m -> page_eq (km_mem (ks_kmem s)) (km_mem (ks_kmem s2)) w) ->
  kept pgdir (ks_kmem s2) (ks_kmem s3) l l3 -> ~ is_tab (km_mem (ks_kmem s3)) pgdir m -> m ∉ l3 ->
  (forall va, 0 <= va < 2 ^ 32 -> pte_at (km_mem (ks_kmem s3)) pgdir va =
     if decide (va / 4096 = a / 4096) then user_pte m else pte_at (km_mem (ks_kmem s2)) pgdir va) ->
  grown1 pgdir (ks_kmem s) (ks_kmem s3) m l l3 a.
Proof.
  intros (Hok & Has & Hpm & Hnin & Hmd & Hnt) Hz He2 Hd2 Hp2 Hw2 (He3 & used & Hl & Htabs & Hw3) Hnt3 Hm3 Hp3.
  pose proof (page_aligned _ _ Hpm) as Hmal. destruct (entry_frame _ m 7 Hpm ltac:(lia)) as (_ & Hfr & _).
  split; [congruence|]. split; [done|]. split; [done|]. split; [done|]. split; [done|]. split.
  { intros i Hi. rewrite (Hw3 m); [now apply Hz|done|done|done| |done]. intros H. apply Hnin. rewrite Hl. apply elem_of_app. now left. }
  split; [exact Hfr|]. split; [unfold user_pte; now rewrite (present_add _ m 7 Hpm)|]. split; [|split].
  - exists used. split; [exact Hl|]. intros v. now rewrite Htabs, (is_tab_ext pgdir _ _ v Hd2).
  - intros va Hva. now rewrite Hp3, Hp2.
  - intros w Hw Hwd Hwt Hwl. apply not_elem_of_cons in Hwl as [Hwm Hwl]. eapply page_eq_trans; [now apply Hw2|].
    apply Hw3; [done|done|now rewrite (is_tab_ext pgdir _ _ w Hd2)|]. intros H. apply Hwl. rewrite Hl. apply elem_of_app. now left.
Qed.

Lemma allocuvm_loop_run n N s pgdir l a oldsz newsz : vm_ok s pgdir l -> a mod 4096 = 0 -> 0 <= oldsz -> oldsz <= PGROUNDUP oldsz <= a ->
  newsz < KERNBASE -> newsz <= a + 4096 * Z.of_nat n -> newsz <= a + 4096 * Z.of_nat N ->
  (forall va, visited a newsz va -> present (pte_at (km_mem (ks_kmem s)) pgdir va) = false) ->
  exists r s' l', allocuvm_loop (S n) pgdir a oldsz newsz s = Done r s' /\ vm_ok s' pgdir l' /\
    (r = newsz /\ grown pgdir (ks_kmem s) (ks_kmem s') l l' a newsz \/
     r = 0 /\ (length l < 2 * N)%nat /\ reverted pgdir (ks_kmem s) (ks_kmem s') l l' (PGROUNDUP oldsz) newsz).
Proof.
  revert N s l a. induction n as [|n IH]; intros N s l a Hok Hal Ho Hup Hn Hf HN Hun; cbn [allocuvm_loop];
    (destruct (Z.ltb_spec a newsz) as [Hlt|Hge];
     [|exists newsz, s, l; split; [reflexivity|]; split; [exact Hok|]; left; split; [done|];
       split; try done; [intros v Hv; now left|unfold visited; lia]]); [lia|].
  assert (Hv : visited a newsz a) by (unfold visited; Z.div_mod_to_equations; lia).
  pose proof (visited_user _ _ _ Hn Hv) as Hu. pose proof (user_range _ Hu) as Hb. destruct l as [|m l].
  { destruct (alloc_no_frame s pgdir oldsz newsz Hok ltac:(lia) Hn) as (s1 & s' & l' & Hr1 & Hr2 & Hok' & Hrev).
    exists 0, s', l'. rewrite (bind_done _ _ _ _ _ Hr1). split; [exact Hr2|]. split; [exact Hok'|]. right.
    split; [done|]. split; [simpl; lia|exact Hrev]. }
  destruct (take_page s pgdir m l Hok) as (s1 & Hr1 & Hfresh & Hz & He2 & Hd2 & Hp2 & Hw2).
  rewrite (bind_done _ _ _ _ _ Hr1). pose proof Hfresh as (_ & _ & Hpm & _ & Hmd & _).
  replace (m =? 0) with false by (pose proof (page_ok_pos _ _ Hpm); lia). rewrite bind_zero.
  set (s2 := upd_mem (fun mem => memset_page mem m 0) s1) in *.
  destruct (map_fresh s2 pgdir m l a Hfresh Hu Hal ltac:(rewrite Hp2; now apply Hun))
    as (r & s3 & l3 & Hr3 & Hok3 & Hk3 & Hlen & Hnt3 & Hm3 & [(-> & Has3 & Hp3)|(-> & Hl0 & -> & Has3 & Hp3)]); rewrite (bind_done _ _ _ _ _ Hr3).
  - change (0 <? 0) with false. cbv iota. rewrite u32_small by (unfold PGSIZE, user, KERNBASE in *; lia). unfold PGSIZE.
    pose proof (grown1_intro s s2 s3 pgdir m l l3 a Hfresh Hz He2 Hd2 Hp2 Hw2 Hk3 Hnt3 Hm3 Hp3) as Hg1.
    destruct (IH (N - 1)%nat s3 l3 (a + 4096) (conj Hok3 Has3)) as (r & s' & l' & Hrun & Hok' & Hr);
      [Z.div_mod_to_equations; lia|lia|lia|lia|lia|lia| |].
    { intros va Hva. pose proof (visited_range _ _ _ Hn Hva) as Hbv. rewrite Hp3 by exact Hbv.
      rewrite decide_False by (unfold visited in Hva; Z.div_mod_to_equations; lia). rewrite Hp2. apply Hun. apply visited_step; auto; lia. }
    exists r, s', l'. split; [exact Hrun|]. split; [exact Hok'|]. destruct Hr as [[-> Hg]|(-> & Hl & Hrev)]; [left|right]; (split; [done|]).
    + eapply grown_cons; eauto; lia.
    + split; [simpl; lia|]. eapply reverted_cons; eauto. unfold visited. Z.div_mod_to_equations. lia.
  - change (-1 <? 0) with true. cbv iota.
    destruct (alloc_no_table s s2 s3 pgdir m l oldsz newsz ltac:(lia) Hn Hok3 Has3) as (s' & l' & Hrun & Hok' & Hrev); try assumption.
    { apply (page_ok_irrel (ks_kmem s2)); [|exact Hpm]. symmetry. apply Hk3. }
    { intros va Hva. now rewrite Hp3, Hp2. }
    exists 0, s', (m :: l'). split; [exact Hrun|]. split; [exact Hok'|]. right. split; [done|]. split; [rewrite Hl0; simpl; lia|exact Hrev].
Qed.

Lemma allocuvm_run s pgdir l oldsz newsz : vm_ok s pgdir l -> 0 <= oldsz <= newsz -> newsz < KERNBASE ->
  (forall va, visited (PGROUNDUP oldsz) newsz va -> present (pte_at (km_mem (ks_kmem s)) pgdir va) = false) ->
  exists r s' l', allocuvm pgdir oldsz newsz s = Done r s' /\ vm_ok s' pgdir l' /\
    (r = newsz /\ grown pgdir (ks_kmem s) (ks_kmem s') l l' (PGROUNDUP oldsz) newsz \/
     r = 0 /\ (length l < 2 * Z.to_nat ((newsz + 4095) / 4096 - PGROUNDUP oldsz / 4096))%nat /\
     reverted pgdir (ks_kmem s) (ks_kmem s') l l' (PGROUNDUP oldsz) newsz).
Proof.
  intros Hok Ho Hn Hun. unfold allocuvm. replace (KERNBASE <=? newsz) with false by lia. replace (newsz <? oldsz) with false by lia.
  assert (Hup : PGROUNDUP oldsz = 4096 * ((oldsz + 4095) / 4096)) by (apply PGROUNDUP_eq; unfold KERNBASE in *; lia).
  apply allocuvm_loop_run; try done; rewrite ?Hup; unfold PGSIZE, KERNBASE in *; Z.div_mod_to_equations; lia.
Qed.

(** C27. Growing a user address space.  From an isolated address space in
    which the pages between the two sizes are not mapped, [allocuvm] ends with
    an isolated address space.  Either it returns the new size, every page of
    the range is mapped writable for the user to a cleared frame that was
    free, and no other mapping or used page changes; or it returns 0, which it
    can only do with fewer than two free pages for each page of the range,
    and then no page of the range is mapped, no other mapping changed, and
    every page that was free is free again or holds a page table. *)
Theorem allocuvm_spec (s : kst) (pgdir : Z) (l : list Z) (oldsz newsz : Z) :
  vm_ok s pgdir l -> 0 <= oldsz <= newsz -> newsz < KERNBASE ->
  (forall va, visited (PGROUNDUP oldsz) newsz va -> present (pte_at (km_mem (ks_kmem s)) pgdir va) = false) ->
  exists r s' l', allocuvm pgdir oldsz newsz s = Done r s' /\ vm_ok s' pgdir l' /\
    (r = newsz /\ grown pgdir (ks_kmem s) (ks_kmem s') l l' (PGROUNDUP oldsz) newsz \/
     r = 0 /\ (length l < 2 * Z.to_nat ((newsz + 4095) / 4096 - PGROUNDUP oldsz / 4096))%nat /\
     reverted pgdir (ks_kmem s) (ks_kmem s') l l' (PGROUNDUP oldsz) newsz).
Proof. apply allocuvm_run. Qed.

(** Shrinking a user address space.  From an isolated address space
    [deallocuvm] ends with an isolated one and returns the new size; exactly
    the present pages above the new size are gone and their frames are free,
    every other mapping and used page is unchanged.  In particular it undoes a
    growth: the pages [allocuvm] mapped are free again. *)
Theorem deallocuvm_spec (s : kst) (pgdir : Z) (l : list Z) (oldsz newsz : Z) :
  vm_ok s pgdir l -> 0 <= newsz < oldsz -> oldsz <= KERNBASE ->
  (exists s' l', deallocuvm pgdir oldsz newsz s = Done newsz s' /\ vm_ok s' pgdir l' /\
     shrunk pgdir (ks_kmem s) (ks_kmem s') l l' (PGROUNDUP newsz) oldsz) /\
  (oldsz < KERNBASE ->
   (forall va, visited (PGROUNDUP newsz) oldsz va -> present (pte_at (km_mem (ks_kmem s)) pgdir va) = false) ->
   (2 * Z.to_nat ((oldsz + 4095) / 4096 - PGROUNDUP newsz / 4096) <= length l)%nat ->
   exists s' s'' l'', allocuvm pgdir newsz oldsz s = Done oldsz s' /\ deallocuvm pgdir oldsz newsz s' = Done newsz s'' /\
     vm_ok s'' pgdir l'' /\
     forall va, 0 <= va < 2 ^ 32 -> present (pte_at (km_mem (ks_kmem s'')) pgdir va) = present (pte_at (km_mem (ks_kmem s)) pgdir va)).
Proof.
  intros Hok Hn Ho. split; [now apply deallocuvm_run|]. intros Hk Hun Hlen.
  destruct (allocuvm_run s pgdir l newsz oldsz Hok ltac:(lia) Hk Hun) as (r & s' & l' & Hrun & Hok' & [[-> Hg]|(_ & Hl & _)]); [|lia].
  destruct (deallocuvm_run s' pgdir l' oldsz newsz Hok' Hn Ho) as (s'' & l'' & Hrun' & Hok'' & Hsh).
  exists s', s'', l''. split; [exact Hrun|]. split; [exact Hrun'|]. split; [exact Hok''|]. intros va Hva.
  rewrite (sh_pte _ _ _ _ _ _ _ Hsh va Hva). destruct (decide (visited (PGROUNDUP newsz) oldsz va)) as [Hv|Hv].
  - rewrite (Hun va Hv). destruct (decide _) as [|Hnp]; [done|]. destruct (present _); [exfalso; auto|done].
  - rewrite decide_False by tauto. now rewrite (gr_old _ _ _ _ _ _ _ Hg va Hva Hv).
Qed.

Lemma empty_vm_ok : vm_ok empty_space empty_dir empty_free.
Proof.
  split; [apply empty_ok|]. split.
  - reflexivity.
  - intros va _. now rewrite empty_pte.
  - intros va va' _ _. now rewrite empty_pte.
Qed.

Lemma allocuvm_spec_witness :
  exists r s' l', allocuvm empty_dir 0 5000 empty_space = Done r s' /\ vm_ok s' empty_dir l'.
Proof.
  destruct (allocuvm_spec empty_space empty_dir empty_free 0 5000 empty_vm_ok ltac:(lia) ltac:(reflexivity))
    as (r & s' & l' & H1 & H2 & _); [intros va _; now rewrite empty_pte|].
  exists r, s', l'. split; [exact H1|exact H2].
Defined.

Lemma deallocuvm_spec_witness :
  exists s' s'' l'', allocuvm empty_dir 0 4000 empty_space = Done 4000 s' /\ deallocuvm empty_dir 4000 0 s' = Done 0 s'' /\
    vm_ok s'' empty_dir l''.
Proof.
  destruct (deallocuvm_spec empty_space empty_dir empty_free 4000 0 empty_vm_ok ltac:(lia) ltac:(discriminate)) as [_ H].
  destruct H as (s' & s'' & l'' & H1 & H2 & H3 & _); [reflexivity|intros va _; now rewrite empty_pte|vm_compute; lia|].
  exists s', s'', l''. split; [exact H1|]. split; [exact H2|exact H3].
Defined.
