(* ===== verification/Proc.v ===== *)
(** * Processes and kernel threads: data and primitives (proc.h, kthread.h,
      kthread_mutex.h, proc.c)

    The process table is a list of [NPROC] records, each with its [NTHREAD]
    threads; pointers into the tables are indices ([nat] for a process, a
    pair for a thread) and null is [None].  Addresses of kernel objects used
    as sleep channels are the constructors of [chan].  The record [kstate]
    holds the tables, the machine with its locks and the page allocator
    ([k_base]) and, in [k_ext], the state of the components proc.c calls
    (virtual memory, files, inodes, log), whose operations are the fields of
    the class [KernelExt].  The trap frame and the context a thread keeps on
    its kernel stack are fields of the thread next to the pointers [th_tf]
    and [th_context]. *)
From S2P Require Import Prelude Code Mmu Str Spinlock Kalloc.

Definition NPROC : nat := 64%nat.
Definition NTHREAD : nat := 16%nat.
Definition NOFILE : nat := 16%nat.
Definition MAX_MUTEXES : nat := 64%nat.
Definition KSTACKSIZE : Z := 4096.
Definition MAX_STACK_SIZE : Z := 4000.

Inductive states := UNUSED | EMBRYO | SLEEPING | RUNNABLE | RUNNING | ZOMBIE.
#[global] Instance states_eq_dec : EqDecision states.
Proof. solve_decision. Defined.

Inductive chan :=
| CNull
| CThread (p t : nat)
| CProc (p : nat)
| CMutex (i : nat)
| CObj (a : Z).
#[global] Instance chan_eq_dec : EqDecision chan.
Proof. solve_decision. Defined.

(** [struct trapframe] (x86.h), without its padding. *)
Record trapframe := mkTf {
  tf_edi : Z; tf_esi : Z; tf_ebp : Z; tf_oesp : Z; tf_ebx : Z; tf_edx : Z; tf_ecx : Z; tf_eax : Z;
  tf_gs : Z; tf_fs : Z; tf_es : Z; tf_ds : Z; tf_trapno : Z;
  tf_err : Z; tf_eip : Z; tf_cs : Z; tf_eflags : Z; tf_esp : Z; tf_ss : Z;
}.
Definition tf_zero : trapframe := mkTf 0 0 0 0 0 0 0 0 0 0 0 0 0 0 0 0 0 0 0.
Definition tf_size : Z := 76.

(** [struct context]. *)
Record context := mkCtx { cx_edi : Z; cx_esi : Z; cx_ebx : Z; cx_ebp : Z; cx_eip : Z }.
Definition ctx_zero : context := mkCtx 0 0 0 0 0.
Definition ctx_size : Z := 20.

(** [struct thread]; [th_frame], [th_ctx] and [th_ret] are the trap frame, the
    saved context and the word above it on the thread's kernel stack. *)
Record thread := mkThread {
  th_chan : chan;
  th_tid : Z;
  th_killed : Z;
  th_state : states;
  th_context : Z;
  th_kstack : Z;
  th_tf : Z;
  th_parent : option (nat * nat);
  th_myproc : option nat;
  th_blocked : Z;
  th_frame : trapframe;
  th_ctx : context;
  th_ret : Z;
}.
Definition thread0 : thread :=
  mkThread CNull 0 0 UNUSED 0 0 0 None None 0 tf_zero ctx_zero 0.

(** [struct proc]. *)
Record proc := mkProc {
  p_sz : Z;
  p_pgdir : Z;
  p_state : states;
  p_pid : Z;
  p_parent : option nat;
  p_killed : Z;
  p_ofile : list (option nat);
  p_cwd : option nat;
  p_threads : list thread;
  p_ttlock : option nat;
  p_mid : list Z;
  p_name : list Z;
}.
Definition proc0 : proc :=
  mkProc 0 0 UNUSED 0 None 0 (replicate NOFILE None) None (replicate NTHREAD thread0) None
    (replicate MAX_MUTEXES 0) (replicate 16 0).

(** [struct kthread_mutex]; [mx_name] is the process whose name array the
    pointer [name] points to, [None] for the empty string literal. *)
Record kthread_mutex := mkMutex {
  mx_locked : Z;
  mx_allocated : Z;
  mx_name : option nat;
  mx_tid : Z;
}.
Definition mutex0 : kthread_mutex := mkMutex 0 0 None 0.

Record kstate (E : Type) := mkK {
  k_base : kst;
  k_procs : list proc;
  k_mutex : list kthread_mutex;
  k_initproc : option nat;
  k_nextpid : Z;
  k_first : bool;
  k_ext : E;
}.
Arguments mkK {E}.
Arguments k_base {E}.
Arguments k_procs {E}.
Arguments k_mutex {E}.
Arguments k_initproc {E}.
Arguments k_nextpid {E}.
Arguments k_first {E}.
Arguments k_ext {E}.

(** Addresses of [ptable.lock] and [mtable.lock]. *)
Definition PTABLE_LOCK : nat := 0%nat.
Definition MTABLE_LOCK : nat := 1%nat.

(** ** Field updates *)
Definition set_chan (c : chan) (t : thread) : thread :=
  mkThread c (th_tid t) (th_killed t) (th_state t) (th_context t) (th_kstack t) (th_tf t) (th_parent t) (th_myproc t) (th_blocked t) (th_frame t) (th_ctx t) (th_ret t).
Definition set_tid (z : Z) (t : thread) : thread :=
  mkThread (th_chan t) z (th_killed t) (th_state t) (th_context t) (th_kstack t) (th_tf t) (th_parent t) (th_myproc t) (th_blocked t) (th_frame t) (th_ctx t) (th_ret t).
Definition set_killed (z : Z) (t : thread) : thread :=
  mkThread (th_chan t) (th_tid t) z (th_state t) (th_context t) (th_kstack t) (th_tf t) (th_parent t) (th_myproc t) (th_blocked t) (th_frame t) (th_ctx t) (th_ret t).
Definition set_state (st : states) (t : thread) : thread :=
  mkThread (th_chan t) (th_tid t) (th_killed t) st (th_context t) (th_kstack t) (th_tf t) (th_parent t) (th_myproc t) (th_blocked t) (th_frame t) (th_ctx t) (th_ret t).
Definition set_context (z : Z) (t : thread) : thread :=
  mkThread (th_chan t) (th_tid t) (th_killed t) (th_state t) z (th_kstack t) (th_tf t) (th_parent t) (th_myproc t) (th_blocked t) (th_frame t) (th_ctx t) (th_ret t).
Definition set_kstack (z : Z) (t : thread) : thread :=
  mkThread (th_chan t) (th_tid t) (th_killed t) (th_state t) (th_context t) z (th_tf t) (th_parent t) (th_myproc t) (th_blocked t) (th_frame t) (th_ctx t) (th_ret t).
Definition set_tf (z : Z) (t : thread) : thread :=
  mkThread (th_chan t) (th_tid t) (th_killed t) (th_state t) (th_context t) (th_kstack t) z (th_parent t) (th_myproc t) (th_blocked t) (th_frame t) (th_ctx t) (th_ret t).
Definition set_tparent (q : option (nat * nat)) (t : thread) : thread :=
  mkThread (th_chan t) (th_tid t) (th_killed t) (th_state t) (th_context t) (th_kstack t) (th_tf t) q (th_myproc t) (th_blocked t) (th_frame t) (th_ctx t) (th_ret t).
Definition set_myproc (q : option nat) (t : thread) : thread :=
  mkThread (th_chan t) (th_tid t) (th_killed t) (th_state t) (th_context t) (th_kstack t) (th_tf t) (th_parent t) q (th_blocked t) (th_frame t) (th_ctx t) (th_ret t).
Definition set_blocked (z : Z) (t : thread) : thread :=
  mkThread (th_chan t) (th_tid t) (th_killed t) (th_state t) (th_context t) (th_kstack t) (th_tf t) (th_parent t) (th_myproc t) z (th_frame t) (th_ctx t) (th_ret t).
Definition set_frame (f : trapframe) (t : thread) : thread :=
  mkThread (th_chan t) (th_tid t) (th_killed t) (th_state t) (th_context t) (th_kstack t) (th_tf t) (th_parent t) (th_myproc t) (th_blocked t) f (th_ctx t) (th_ret t).
Definition set_ctx (c : context) (t : thread) : thread :=
  mkThread (th_chan t) (th_tid t) (th_killed t) (th_state t) (th_context t) (th_kstack t) (th_tf t) (th_parent t) (th_myproc t) (th_blocked t) (th_frame t) c (th_ret t).
Definition set_ret (z : Z) (t : thread) : thread :=
  mkThread (th_chan t) (th_tid t) (th_killed t) (th_state t) (th_context t) (th_kstack t) (th_tf t) (th_parent t) (th_myproc t) (th_blocked t) (th_frame t) (th_ctx t) z.

Definition tf_set_eax (z : Z) (f : trapframe) : trapframe :=
  mkTf (tf_edi f) (tf_esi f) (tf_ebp f) (tf_oesp f) (tf_ebx f) (tf_edx f) (tf_ecx f) z (tf_gs f) (tf_fs f) (tf_es f) (tf_ds f) (tf_trapno f) (tf_err f) (tf_eip f) (tf_cs f) (tf_eflags f) (tf_esp f) (tf_ss f).
Definition tf_set_eip (z : Z) (f : trapframe) : trapframe :=
  mkTf (tf_edi f) (tf_esi f) (tf_ebp f) (tf_oesp f) (tf_ebx f) (tf_edx f) (tf_ecx f) (tf_eax f) (tf_gs f) (tf_fs f) (tf_es f) (tf_ds f) (tf_trapno f) (tf_err f) z (tf_cs f) (tf_eflags f) (tf_esp f) (tf_ss f).
Definition tf_set_esp (z : Z) (f : trapframe) : trapframe :=
  mkTf (tf_edi f) (tf_esi f) (tf_ebp f) (tf_oesp f) (tf_ebx f) (tf_edx f) (tf_ecx f) (tf_eax f) (tf_gs f) (tf_fs f) (tf_es f) (tf_ds f) (tf_trapno f) (tf_err f) (tf_eip f) (tf_cs f) (tf_eflags f) z (tf_ss f).
Definition ctx_set_eip (z : Z) (c : context) : context :=
  mkCtx (cx_edi c) (cx_esi c) (cx_ebx c) (cx_ebp c) z.

Definition set_p_sz (v : Z) (p : proc) : proc :=
  mkProc v (p_pgdir p) (p_state p) (p_pid p) (p_parent p) (p_killed p) (p_ofile p) (p_cwd p) (p_threads p) (p_ttlock p) (p_mid p) (p_name p).
Definition set_p_pgdir (v : Z) (p : proc) : proc :=
  mkProc (p_sz p) v (p_state p) (p_pid p) (p_parent p) (p_killed p) (p_ofile p) (p_cwd p) (p_threads p) (p_ttlock p) (p_mid p) (p_name p).
Definition set_p_state (v : states) (p : proc) : proc :=
  mkProc (p_sz p) (p_pgdir p) v (p_pid p) (p_parent p) (p_killed p) (p_ofile p) (p_cwd p) (p_threads p) (p_ttlock p) (p_mid p) (p_name p).
Definition set_p_pid (v : Z) (p : proc) : proc :=
  mkProc (p_sz p) (p_pgdir p) (p_state p) v (p_parent p) (p_killed p) (p_ofile p) (p_cwd p) (p_threads p) (p_ttlock p) (p_mid p) (p_name p).
Definition set_p_parent (v : option nat) (p : proc) : proc :=
  mkProc (p_sz p) (p_pgdir p) (p_state p) (p_pid p) v (p_killed p) (p_ofile p) (p_cwd p) (p_threads p) (p_ttlock p) (p_mid p) (p_name p).
Definition set_p_killed (v : Z) (p : proc) : proc :=
  mkProc (p_sz p) (p_pgdir p) (p_state p) (p_pid p) (p_parent p) v (p_ofile p) (p_cwd p) (p_threads p) (p_ttlock p) (p_mid p) (p_name p).
Definition set_p_ofile (v : list (option nat)) (p : proc) : proc :=
  mkProc (p_sz p) (p_pgdir p) (p_state p) (p_pid p) (p_parent p) (p_killed p) v (p_cwd p) (p_threads p) (p_ttlock p) (p_mid p) (p_name p).
Definition set_p_cwd (v : option nat) (p : proc) : proc :=
  mkProc (p_sz p) (p_pgdir p) (p_state p) (p_pid p) (p_parent p) (p_killed p) (p_ofile p) v (p_threads p) (p_ttlock p) (p_mid p) (p_name p).
Definition set_p_threads (v : list thread) (p : proc) : proc :=
  mkProc (p_sz p) (p_pgdir p) (p_state p) (p_pid p) (p_parent p) (p_killed p) (p_ofile p) (p_cwd p) v (p_ttlock p) (p_mid p) (p_name p).
Definition set_p_ttlock (v : option nat) (p : proc) : proc :=
  mkProc (p_sz p) (p_pgdir p) (p_state p) (p_pid p) (p_parent p) (p_killed p) (p_ofile p) (p_cwd p) (p_threads p) v (p_mid p) (p_name p).
Definition set_p_mid (v : list Z) (p : proc) : proc :=
  mkProc (p_sz p) (p_pgdir p) (p_state p) (p_pid p) (p_parent p) (p_killed p) (p_ofile p) (p_cwd p) (p_threads p) (p_ttlock p) v (p_name p).
Definition set_p_name (v : list Z) (p : proc) : proc :=
  mkProc (p_sz p) (p_pgdir p) (p_state p) (p_pid p) (p_parent p) (p_killed p) (p_ofile p) (p_cwd p) (p_threads p) (p_ttlock p) (p_mid p) v.

Definition set_k_base {E} (v : kst) (s : kstate E) : kstate E :=
  mkK v (k_procs s) (k_mutex s) (k_initproc s) (k_nextpid s) (k_first s) (k_ext s).
Definition set_k_procs {E} (v : list proc) (s : kstate E) : kstate E :=
  mkK (k_base s) v (k_mutex s) (k_initproc s) (k_nextpid s) (k_first s) (k_ext s).
Definition set_k_mutex {E} (v : list kthread_mutex) (s : kstate E) : kstate E :=
  mkK (k_base s) (k_procs s) v (k_initproc s) (k_nextpid s) (k_first s) (k_ext s).
Definition set_k_initproc {E} (v : option nat) (s : kstate E) : kstate E :=
  mkK (k_base s) (k_procs s) (k_mutex s) v (k_nextpid s) (k_first s) (k_ext s).
Definition set_k_nextpid {E} (v : Z) (s : kstate E) : kstate E :=
  mkK (k_base s) (k_procs s) (k_mutex s) (k_initproc s) v (k_first s) (k_ext s).
Definition set_k_first {E} (v : bool) (s : kstate E) : kstate E :=
  mkK (k_base s) (k_procs s) (k_mutex s) (k_initproc s) (k_nextpid s) v (k_ext s).
Definition set_k_ext {E} (v : E) (s : kstate E) : kstate E :=
  mkK (k_base s) (k_procs s) (k_mutex s) (k_initproc s) (k_nextpid s) (k_first s) v.

(** ** Reading and writing the tables *)
Definition the_proc {E} (p : nat) (s : kstate E) : proc := default proc0 (k_procs s !! p).
Definition the_thread {E} (t : nat * nat) (s : kstate E) : thread :=
  default thread0 (p_threads (the_proc t.1 s) !! t.2).
Definition upd_proc {E} (p : nat) (f : proc -> proc) (s : kstate E) : kstate E :=
  set_k_procs (alter f p (k_procs s)) s.
Definition on_thread (i : nat) (f : thread -> thread) (p : proc) : proc :=
  set_p_threads (alter f i (p_threads p)) p.
Definition upd_thread {E} (t : nat * nat) (f : thread -> thread) (s : kstate E) : kstate E :=
  upd_proc t.1 (on_thread t.2 f) s.
Definition the_mutex {E} (i : nat) (s : kstate E) : kthread_mutex := default mutex0 (k_mutex s !! i).

(** The components proc.c calls, one field per C function: vm.c, file.c, fs.c,
    log.c, and the addresses of the assembly entry points. *)
Class KernelExt (E : Type) := {
  x_trapret : Z;
  x_forkret : Z;
  x_setupkvm : M (kstate E) Z;
  x_inituvm : Z -> M (kstate E) unit;
  x_copyuvm : Z -> Z -> M (kstate E) Z;
  x_freevm : Z -> M (kstate E) unit;
  x_allocuvm : Z -> Z -> Z -> M (kstate E) Z;
  x_deallocuvm : Z -> Z -> Z -> M (kstate E) Z;
  x_filedup : nat -> M (kstate E) unit;
  x_fileclose : nat -> M (kstate E) unit;
  x_idup : nat -> M (kstate E) unit;
  x_iput : nat -> M (kstate E) unit;
  x_namei : list Z -> M (kstate E) (option nat);
  x_begin_op : M (kstate E) unit;
  x_end_op : M (kstate E) unit;
  x_iinit : M (kstate E) unit;
  x_initlog : M (kstate E) unit;
}.

Section Operations.
Context {E : Type} {X : KernelExt E}.

Definition on_base {A : Type} (m : M kst A) : M (kstate E) A := zoom k_base set_k_base m.
Definition on_cpus {A : Type} (m : M mach A) : M (kstate E) A := on_base (on_mach m).
Definition k_mach (s : kstate E) : mach := ks_mach (k_base s).
Definition kacquire (a : nat) : M (kstate E) unit := on_cpus (acquire a).
Definition krelease (a : nat) : M (kstate E) unit := on_cpus (release a).

(** Following a null pointer has no defined result in C: the run stops. *)
Definition deref {A : Type} (o : option A) : M (kstate E) A :=
  match o with
  | Some a => ret a
  | None => panic "null pointer"
  end.

Definition mythread : M (kstate E) (option (nat * nat)) :=
  on_cpus (pushcli ;;;
           c <~ mycpu ;;
           t <~ gets (cpu_field None c_thread c) ;;
           popcli ;;;
           ret t).

Definition myproc : M (kstate E) (option nat) :=
  on_cpus (pushcli ;;;
           c <~ mycpu ;;
           p <~ gets (cpu_field None c_proc c) ;;
           popcli ;;;
           ret p).

Definition pinit : M (kstate E) unit := on_cpus (initlock PTABLE_LOCK "ptable").

(** [allocthread]: the stack layout is [kstack | ... | context | trapret |
    trap frame] with the frame at the top. *)
Definition stack_setup (stack_size : Z) (t : thread) : thread :=
  let sp := u32 (th_kstack t + stack_size) in
  let sp := u32 (sp - tf_size) in
  let t := set_tf sp t in
  let sp := u32 (sp - 4) in
  let t := set_ret x_trapret t in
  let sp := u32 (sp - ctx_size) in
  let t := set_context sp t in
  let t := set_ctx ctx_zero t in
  set_ctx (ctx_set_eip x_forkret (th_ctx t)) t.

Definition allocthread (p : nat) (stack_size : Z) : M (kstate E) (option (nat * nat)) :=
  lk <~ gets (fun s => p_ttlock (the_proc p s)) ;;
  lk <~ deref lk ;;
  kacquire lk ;;;
  ts <~ gets (fun s => p_threads (the_proc p s)) ;;
  match find_idx (fun t => bool_decide (th_state t = UNUSED)) ts with
  | None => krelease lk ;;; ret None
  | Some indx =>
      modify (upd_thread (p, indx) (fun t =>
        set_myproc (Some p) (set_tid (Z.of_nat indx) (set_state EMBRYO t)))) ;;;
      krelease lk ;;;
      r <~ on_base kalloc ;;
      modify (upd_thread (p, indx) (set_kstack r)) ;;;
      if r =? 0 then
        modify (upd_thread (p, indx) (set_state UNUSED)) ;;;
        ret None
      else
        modify (upd_thread (p, indx) (stack_setup stack_size)) ;;;
        ret (Some (p, indx))
  end.

(** [allocproc] scans under the lock and marks the slot after releasing it. *)
Definition allocproc_scan : M (kstate E) (option nat) :=
  kacquire PTABLE_LOCK ;;;
  ps <~ gets k_procs ;;
  match find_idx (fun p => bool_decide (p_state p = UNUSED)) ps with
  | None => krelease PTABLE_LOCK ;;; ret None
  | Some p => krelease PTABLE_LOCK ;;; ret (Some p)
  end.

Definition allocproc_claim (p : nat) : M (kstate E) (option nat) :=
  modify (upd_proc p (set_p_state EMBRYO)) ;;;
  modify (upd_proc p (fun q => set_p_mid (replicate MAX_MUTEXES 0) q)) ;;;
  modify (upd_proc p (set_p_ttlock (Some PTABLE_LOCK))) ;;;
  pid <~ gets k_nextpid ;;
  modify (set_k_nextpid (s32 (pid + 1))) ;;;
  modify (upd_proc p (set_p_pid pid)) ;;;
  t <~ allocthread p KSTACKSIZE ;;
  match t with
  | None => modify (upd_proc p (set_p_state UNUSED)) ;;; ret None
  | Some _ => ret (Some p)
  end.

Definition allocproc : M (kstate E) (option nat) :=
  p <~ allocproc_scan ;;
  match p with
  | None => ret None
  | Some p => allocproc_claim p
  end.

(** [switchuvm] (vm.c): task state and page directory of the processor. *)
(** [mycpu()->gdt[SEG_TSS]] and [ltr]; the task state has 104 bytes. *)
Definition TASKSTATE : Z := 104.
Definition tss_desc (ts : Z) : segdesc := set_sd_s 0 (SEG16 STS_T32A ts (TASKSTATE - 1) 0).
Definition load_tss (c : cpu) : cpu :=
  let g := c_seg c in
  set_seg (mkSeg (sg_ts g) (<[Z.to_nat SEG_TSS := tss_desc (sg_ts g)]> (sg_gdt g)) (sg_gdtr g) (sg_idtr g) (sg_tr g)) c.
Definition load_tr (c : cpu) : cpu :=
  let g := c_seg c in
  set_seg (mkSeg (sg_ts g) (sg_gdt g) (sg_gdtr g) (sg_idtr g) (Z.shiftl SEG_TSS 3)) c.
Definition switchuvm (p : option nat) : M (kstate E) unit :=
  match p with
  | None => panic "switchuvm: no process"
  | Some p =>
      t <~ mythread ;;
      match t with
      | None => panic "switchuvm: no thrad"
      | Some t =>
          ks <~ gets (fun s => th_kstack (the_thread t s)) ;;
          if ks =? 0 then panic "switchuvm: no kstack"
          else
            pg <~ gets (fun s => p_pgdir (the_proc p s)) ;;
            if pg =? 0 then panic "switchuvm: no pgdir"
            else
              on_cpus pushcli ;;;
              c <~ on_cpus mycpu ;;
              on_cpus (modify (upd_cpu c load_tss)) ;;;
              t' <~ mythread ;;
              t' <~ deref t' ;;
              ks' <~ gets (fun s => th_kstack (the_thread t' s)) ;;
              on_cpus (modify (upd_cpu c (set_ts (Z.shiftl SEG_KDATA 3) (u32 (ks' + KSTACKSIZE)) 0xFFFF))) ;;;
              on_cpus (modify (upd_cpu c load_tr)) ;;;
              on_cpus (modify (upd_cpu c (set_cr3 (V2P pg)))) ;;;
              on_cpus popcli
      end
  end.

(** Segment selectors and flags of the first frame (mmu.h). *)
Definition FL_IF : Z := 0x200.
Definition user_frame : trapframe :=
  let ds := Z.lor (Z.shiftl SEG_UDATA 3) DPL_USER in
  mkTf 0 0 0 0 0 0 0 0 0 0 ds ds 0 0 0 (Z.lor (Z.shiftl SEG_UCODE 3) DPL_USER) FL_IF PGSIZE ds.

Definition userinit : M (kstate E) unit :=
  p <~ allocproc ;;
  modify (set_k_initproc p) ;;;
  p <~ deref p ;;
  pg <~ x_setupkvm ;;
  modify (upd_proc p (set_p_pgdir pg)) ;;;
  if pg =? 0 then panic "userinit: out of memory?"
  else
    x_inituvm pg ;;;
    modify (upd_proc p (set_p_sz PGSIZE)) ;;;
    modify (upd_thread (p, 0%nat) (set_frame user_frame)) ;;;
    modify (upd_proc p (fun q => set_p_name (safestrcpy (p_name q) (cstr "initcode") 16) q)) ;;;
    ip <~ x_namei (cstr "/") ;;
    modify (upd_proc p (set_p_cwd ip)) ;;;
    lk <~ gets (fun s => p_ttlock (the_proc p s)) ;;
    lk <~ deref lk ;;
    kacquire lk ;;;
    modify (upd_thread (p, 0%nat) (set_state RUNNABLE)) ;;;
    krelease lk ;;;
    kacquire PTABLE_LOCK ;;;
    modify (upd_proc p (set_p_state RUNNABLE)) ;;;
    krelease PTABLE_LOCK.

Definition growproc (n : Z) : M (kstate E) Z :=
  cp <~ myproc ;;
  kacquire PTABLE_LOCK ;;;
  p <~ deref cp ;;
  sz <~ gets (fun s => p_sz (the_proc p s)) ;;
  pg <~ gets (fun s => p_pgdir (the_proc p s)) ;;
  r <~ (if 0 <? n then
          sz' <~ x_allocuvm pg sz (u32 (sz + n)) ;;
          ret (if sz' =? 0 then None else Some sz')
        else if n <? 0 then
          sz' <~ x_deallocuvm pg sz (u32 (sz + n)) ;;
          ret (if sz' =? 0 then None else Some sz')
        else ret (Some sz)) ;;
  match r with
  | None => krelease PTABLE_LOCK ;;; ret (-1)
  | Some sz' =>
      modify (upd_proc p (set_p_sz sz')) ;;;
      krelease PTABLE_LOCK ;;;
      switchuvm cp ;;;
      ret 0
  end.

(** ** [fork] *)
Definition fork_files (curproc np : nat) : M (kstate E) unit :=
  for_each (seq 0 NOFILE) (fun i =>
    f <~ gets (fun s => p_ofile (the_proc curproc s) !! i) ;;
    match f with
    | Some (Some f) =>
        x_filedup f ;;;
        modify (upd_proc np (fun q => set_p_ofile (<[i := Some f]> (p_ofile q)) q))
    | _ => ret tt
    end).

Definition fork : M (kstate E) Z :=
  curproc <~ myproc ;;
  curthread <~ mythread ;;
  np <~ allocproc ;;
  match np with
  | None => ret (-1)
  | Some np =>
      let nt := (np, 0%nat) in
      curproc <~ deref curproc ;;
      pg <~ gets (fun s => p_pgdir (the_proc curproc s)) ;;
      sz <~ gets (fun s => p_sz (the_proc curproc s)) ;;
      pg <~ x_copyuvm pg sz ;;
      modify (upd_proc np (set_p_pgdir pg)) ;;;
      if pg =? 0 then
        ks <~ gets (fun s => th_kstack (the_thread nt s)) ;;
        on_base (kfree ks) ;;;
        modify (upd_thread nt (set_kstack 0)) ;;;
        modify (upd_thread nt (set_state UNUSED)) ;;;
        modify (upd_proc np (set_p_state UNUSED)) ;;;
        ret (-1)
      else
        sz <~ gets (fun s => p_sz (the_proc curproc s)) ;;
        modify (upd_proc np (set_p_sz sz)) ;;;
        curthread <~ deref curthread ;;
        fr <~ gets (fun s => th_frame (the_thread curthread s)) ;;
        modify (upd_thread nt (set_frame fr)) ;;;
        modify (upd_thread nt (fun t => set_frame (tf_set_eax 0 (th_frame t)) t)) ;;;
        fork_files curproc np ;;;
        cwd <~ gets (fun s => p_cwd (the_proc curproc s)) ;;
        ip <~ deref cwd ;;
        x_idup ip ;;;
        modify (upd_proc np (set_p_cwd (Some ip))) ;;;
        name <~ gets (fun s => p_name (the_proc curproc s)) ;;
        modify (upd_proc np (fun q => set_p_name (safestrcpy (p_name q) name 16) q)) ;;;
        pid <~ gets (fun s => p_pid (the_proc np s)) ;;
        lk <~ gets (fun s => p_ttlock (the_proc np s)) ;;
        lk <~ deref lk ;;
        kacquire lk ;;;
        modify (upd_thread nt (set_state RUNNABLE)) ;;;
        krelease lk ;;;
        kacquire PTABLE_LOCK ;;;
        modify (upd_proc np (set_p_parent (Some curproc))) ;;;
        modify (upd_thread nt (set_tparent (Some curthread))) ;;;
        modify (upd_proc np (set_p_state RUNNABLE)) ;;;
        krelease PTABLE_LOCK ;;;
        ret pid
  end.

(** ** Sleeping and waking *)

(** [sched]: the only way back to the scheduler; the panics check that the
    caller holds [ptable.lock] and nothing else and has given up RUNNING. *)
Definition sched : M (kstate E) unit :=
  p <~ myproc ;;
  t <~ mythread ;;
  h <~ on_cpus (holding PTABLE_LOCK) ;;
  if negb h then panic "sched ptable.lock"
  else
    c <~ on_cpus mycpu ;;
    n <~ on_cpus (gets (cpu_field 0 c_ncli c)) ;;
    if negb (n =? 1) then panic "sched locks"
    else
      p <~ deref p ;;
      pst <~ gets (fun s => p_state (the_proc p s)) ;;
      if bool_decide (pst = RUNNING) then panic "sched running"
      else
        t <~ deref t ;;
        tst <~ gets (fun s => th_state (the_thread t s)) ;;
        if bool_decide (tst = RUNNING) then panic "sched thread running"
        else
          fi <~ on_cpus readeflags_IF ;;
          if (fi : bool) then panic "sched interruptible"
          else
            c <~ on_cpus mycpu ;;
            intena <~ on_cpus (gets (cpu_field false c_intena c)) ;;
            swtch ;;;
            c <~ on_cpus mycpu ;;
            on_cpus (modify (upd_cpu c (set_intena intena))).

(** [yield], [sleep] and [wakeup] as their actions, in the order of the source;
    SleepSys interleaves them on several processors. *)
Definition yield_code : kcode (kstate E) unit :=
  (kacquire PTABLE_LOCK ;;;
   p <~ myproc ;;
   p <~ deref p ;;
   modify (upd_proc p (set_p_state RUNNABLE)) ;;;
   t <~ mythread ;;
   t <~ deref t ;;
   modify (upd_thread t (set_state RUNNABLE)) ;;;
   sched ;;;
   krelease PTABLE_LOCK ;;;
   KRet tt)%code.
Definition yield : M (kstate E) unit := run yield_code.

Definition forkret : M (kstate E) unit :=
  krelease PTABLE_LOCK ;;;
  first <~ gets k_first ;;
  when first (modify (set_k_first false) ;;; x_iinit ;;; x_initlog).

(** A thread that keeps its process from being marked SLEEPING. *)
Definition active (st : states) : bool :=
  match st with RUNNABLE | RUNNING | EMBRYO => true | _ => false end.
Definition others_active (p : nat) (cur : nat * nat) (ts : list thread) : bool :=
  existsb (fun '(i, t) => negb (bool_decide ((p, i) = cur)) && active (th_state t)) (imap pair ts).

Definition sleep_code (ch : chan) (lk : option nat) : kcode (kstate E) unit :=
  (curthread <~ mythread ;;
   p <~ myproc ;;
   match p, curthread, lk with
   | None, _, _ => @panic (kstate E) unit "sleeping proc" ;;; KRet tt
   | _, None, _ => @panic (kstate E) unit "sleeping thread" ;;; KRet tt
   | _, _, None => @panic (kstate E) unit "sleep without lk" ;;; KRet tt
   | Some p, Some curthread, Some lk =>
       _ <-- kwhen (negb (Nat.eqb lk PTABLE_LOCK)) (kacquire PTABLE_LOCK ;;; krelease lk ;;; KRet tt) ;;
       modify (upd_thread curthread (set_chan ch)) ;;;
       ts <~ gets (fun s => p_threads (the_proc p s)) ;;
       _ <-- (if others_active p curthread ts then
                modify (upd_thread curthread (set_state SLEEPING)) ;;;
                modify (upd_proc p (set_p_state RUNNABLE)) ;;;
                KRet tt
              else
                modify (upd_proc p (set_p_state SLEEPING)) ;;;
                modify (upd_thread curthread (set_state SLEEPING)) ;;;
                KRet tt) ;;
       sched ;;;
       modify (upd_thread curthread (set_chan CNull)) ;;;
       kwhen (negb (Nat.eqb lk PTABLE_LOCK)) (krelease PTABLE_LOCK ;;; kacquire lk ;;; KRet tt)
   end)%code.
Definition sleep (ch : chan) (lk : option nat) : M (kstate E) unit := run (sleep_code ch lk).

Definition sleeping_on (ch : chan) (t : thread) : bool :=
  bool_decide (th_state t = SLEEPING) && bool_decide (th_chan t = ch).
Definition wake_thread (ch : chan) (t : thread) : thread :=
  if sleeping_on ch t then set_state RUNNABLE t else t.
Definition wakeable (st : states) : bool :=
  match st with SLEEPING | RUNNABLE | RUNNING => true | _ => false end.
Definition wake_proc (ch : chan) (p : proc) : proc :=
  if wakeable (p_state p) then
    set_p_state (if existsb (sleeping_on ch) (p_threads p) then RUNNABLE else p_state p)
      (set_p_threads (wake_thread ch <$> p_threads p) p)
  else p.
Definition wakeup1 (ch : chan) : M (kstate E) unit :=
  modify (fun s => set_k_procs (wake_proc ch <$> k_procs s) s).

Definition wakeup_code (ch : chan) : kcode (kstate E) unit :=
  (kacquire PTABLE_LOCK ;;;
   wakeup1 ch ;;;
   krelease PTABLE_LOCK ;;;
   KRet tt)%code.
Definition wakeup (ch : chan) : M (kstate E) unit := run (wakeup_code ch).

(** [kill]: the whole update of the process found. *)
Definition kill_proc (p : proc) : proc :=
  let p := set_p_killed 1 p in
  if bool_decide (p_state p = SLEEPING) then
    let p := set_p_state RUNNABLE p in
    match find_idx (fun t => bool_decide (th_state t = SLEEPING)) (p_threads p) with
    | Some i => on_thread i (set_state RUNNABLE) p
    | None => p
    end
  else p.
Definition kill (pid : Z) : M (kstate E) Z :=
  kacquire PTABLE_LOCK ;;;
  ps <~ gets k_procs ;;
  match find_idx (fun p => p_pid p =? pid) ps with
  | Some p =>
      modify (upd_proc p kill_proc) ;;;
      krelease PTABLE_LOCK ;;;
      ret 0
  | None => krelease PTABLE_LOCK ;;; ret (-1)
  end.

(** ** [exit], [wait] and the kernel threads *)
Definition chan_of_proc (p : option nat) : chan :=
  match p with Some p => CProc p | None => CNull end.
Definition chan_of_thread (t : nat * nat) : chan := CThread t.1 t.2.

Definition finished (st : states) : bool :=
  match st with UNUSED | ZOMBIE => true | _ => false end.
Definition allzombies (p : nat) (curthread : option (nat * nat)) (q : proc) : bool :=
  bool_decide (p_state q = ZOMBIE) ||
  forallb (fun '(i, t) => bool_decide (Some (p, i) = curthread) || finished (th_state t))
    (imap pair (p_threads q)).

(** The first loop of [exit] on one thread. *)
Definition exit_mark (p : nat) (cur : nat * nat) (i : nat) (t : thread) : thread :=
  if bool_decide ((p, i) = cur) then t
  else
    let t := if bool_decide (th_state t = UNUSED) then t else set_killed 1 t in
    match th_state t with
    | RUNNABLE | SLEEPING => set_state ZOMBIE t
    | _ => t
    end.

(** The second loop: one [sleep] per thread that is still running. *)
Definition exit_wait (p : nat) (cur : nat * nat) : M (kstate E) unit :=
  for_each (seq 0 NTHREAD) (fun i =>
    st <~ gets (fun s => th_state (the_thread (p, i) s)) ;;
    when (negb (bool_decide ((p, i) = cur)) && negb (finished st))
      (sleep (CThread p i) (Some PTABLE_LOCK))).

Definition close_files (p : nat) : M (kstate E) unit :=
  for_each (seq 0 NOFILE) (fun fd =>
    f <~ gets (fun s => p_ofile (the_proc p s) !! fd) ;;
    match f with
    | Some (Some f) =>
        x_fileclose f ;;;
        modify (upd_proc p (fun q => set_p_ofile (<[fd := None]> (p_ofile q)) q))
    | _ => ret tt
    end).

Definition reparent (curproc : nat) : M (kstate E) unit :=
  for_each (seq 0 NPROC) (fun p =>
    q <~ gets (the_proc p) ;;
    when (bool_decide (p_parent q = Some curproc))
      (ip <~ gets k_initproc ;;
       modify (upd_proc p (set_p_parent ip)) ;;;
       when (bool_decide (p_state q = ZOMBIE)) (wakeup1 (chan_of_proc ip)))).

Definition exit : M (kstate E) unit :=
  curproc <~ myproc ;;
  curthread <~ mythread ;;
  kacquire PTABLE_LOCK ;;;
  p <~ deref curproc ;;
  t <~ deref curthread ;;
  modify (upd_proc p (fun q => set_p_threads (imap (exit_mark p t) (p_threads q)) q)) ;;;
  exit_wait p t ;;;
  krelease PTABLE_LOCK ;;;
  ip <~ gets k_initproc ;;
  if bool_decide (Some p = ip) then panic "init exiting"
  else
    close_files p ;;;
    x_begin_op ;;;
    cwd <~ gets (fun s => p_cwd (the_proc p s)) ;;
    cwd <~ deref cwd ;;
    x_iput cwd ;;;
    x_end_op ;;;
    modify (upd_proc p (set_p_cwd None)) ;;;
    kacquire PTABLE_LOCK ;;;
    reparent p ;;;
    par <~ gets (fun s => p_parent (the_proc p s)) ;;
    wakeup1 (chan_of_proc par) ;;;
    modify (upd_proc p (set_p_state ZOMBIE)) ;;;
    modify (upd_thread t (set_state ZOMBIE)) ;;;
    sched ;;;
    panic "zombie exit".

Definition clear_thread (t : nat * nat) : M (kstate E) unit :=
  modify (upd_thread t (set_chan CNull)) ;;;
  ks <~ gets (fun s => th_kstack (the_thread t s)) ;;
  on_base (kfree ks) ;;;
  modify (upd_thread t (fun th =>
    set_state UNUSED (set_blocked 0 (set_killed 0 (set_tid (-1) (set_kstack 0 th)))))).

(** Reaping the child [p] found by [wait]. *)
Definition reap (p : nat) : M (kstate E) Z :=
  for_each (seq 0 NTHREAD) (fun i =>
    st <~ gets (fun s => th_state (the_thread (p, i) s)) ;;
    when (negb (bool_decide (st = UNUSED))) (clear_thread (p, i))) ;;;
  pid <~ gets (fun s => p_pid (the_proc p s)) ;;
  modify (upd_proc p (fun q => set_p_mid (replicate MAX_MUTEXES 0) q)) ;;;
  modify (upd_proc p (fun q =>
    set_p_killed 0 (set_p_name (<[0%nat := 0]> (p_name q)) (set_p_parent None (set_p_pid 0 q))))) ;;;
  pg <~ gets (fun s => p_pgdir (the_proc p s)) ;;
  x_freevm pg ;;;
  modify (upd_proc p (set_p_state UNUSED)) ;;;
  ret pid.

(** The scan of [wait]: the first child whose threads have all finished, and
    whether there is a child. *)
Definition exited_child (cur : option nat) (ps : list proc) : option nat :=
  find_idx (fun '(p, q) => bool_decide (p_parent q = cur) && allzombies p None q) (imap pair ps).
Definition havekids (cur : option nat) (ps : list proc) : bool :=
  existsb (fun q => bool_decide (p_parent q = cur)) ps.

(** [fuel] bounds the number of times the loop goes to sleep. *)
Fixpoint wait_loop (fuel : nat) (curproc : option nat) : M (kstate E) Z :=
  match fuel with
  | O => fun _ => Spin
  | S fuel =>
      ps <~ gets k_procs ;;
      match exited_child curproc ps with
      | Some p =>
          pid <~ reap p ;;
          krelease PTABLE_LOCK ;;;
          ret pid
      | None =>
          if negb (havekids curproc ps) then krelease PTABLE_LOCK ;;; ret (-1)
          else
            cp <~ deref curproc ;;
            killed <~ gets (fun s => p_killed (the_proc cp s)) ;;
            if negb (killed =? 0) then krelease PTABLE_LOCK ;;; ret (-1)
            else
              sleep (chan_of_proc curproc) (Some PTABLE_LOCK) ;;;
              wait_loop fuel curproc
      end
  end.
Definition wait (fuel : nat) : M (kstate E) Z :=
  curproc <~ myproc ;;
  kacquire PTABLE_LOCK ;;;
  wait_loop fuel curproc.

Definition kthread_exit : M (kstate E) unit :=
  curproc <~ myproc ;;
  curthread <~ mythread ;;
  p <~ deref curproc ;;
  t <~ deref curthread ;;
  lk <~ gets (fun s => p_ttlock (the_proc p s)) ;;
  lk <~ deref lk ;;
  kacquire lk ;;;
  wakeup1 (chan_of_thread t) ;;;
  areAllout <~ gets (fun s => allzombies p (Some t) (the_proc p s)) ;;
  when areAllout (krelease lk ;;; exit) ;;;
  modify (upd_thread t (set_state ZOMBIE)) ;;;
  krelease lk ;;;
  kacquire PTABLE_LOCK ;;;
  modify (upd_proc p (set_p_state RUNNABLE)) ;;;
  sched ;;;
  panic "zombie exit".

Definition kthread_id : M (kstate E) Z :=
  p <~ myproc ;;
  p <~ deref p ;;
  lk <~ gets (fun s => p_ttlock (the_proc p s)) ;;
  lk <~ deref lk ;;
  kacquire lk ;;;
  t <~ mythread ;;
  t <~ deref t ;;
  id <~ gets (fun s => th_tid (the_thread t s)) ;;
  krelease lk ;;;
  ret id.

Fixpoint kthread_join_loop (fuel : nat) (cur t : nat * nat) (lk : nat) : M (kstate E) Z :=
  match fuel with
  | O => fun _ => Spin
  | S fuel =>
      st <~ gets (fun s => th_state (the_thread t s)) ;;
      if bool_decide (st = ZOMBIE) then
        clear_thread t ;;;
        krelease lk ;;;
        ret 0
      else
        killed <~ gets (fun s => th_killed (the_thread cur s)) ;;
        if negb (killed =? 0) then krelease lk ;;; ret (-1)
        else
          sleep (chan_of_thread t) (Some lk) ;;;
          kthread_join_loop fuel cur t lk
  end.
Definition kthread_join (fuel : nat) (thread_id : Z) : M (kstate E) Z :=
  curproc <~ myproc ;;
  currthread <~ mythread ;;
  cur <~ deref currthread ;;
  mytid <~ gets (fun s => th_tid (the_thread cur s)) ;;
  if (thread_id =? mytid) || (thread_id <? 0) || (15 <? thread_id) then ret (-1)
  else
    p <~ deref curproc ;;
    lk <~ gets (fun s => p_ttlock (the_proc p s)) ;;
    lk <~ deref lk ;;
    kacquire lk ;;;
    let t := (p, Z.to_nat thread_id) in
    tid <~ gets (fun s => th_tid (the_thread t s)) ;;
    if negb (tid =? thread_id) then krelease lk ;;; ret (-1)
    else kthread_join_loop fuel cur t lk.

Definition kthread_create (start_func stack : Z) : M (kstate E) Z :=
  curproc <~ myproc ;;
  curthread <~ mythread ;;
  p <~ deref curproc ;;
  t <~ allocthread p KSTACKSIZE ;;
  match t with
  | None => ret (-1)
  | Some t =>
      cur <~ deref curthread ;;
      fr <~ gets (fun s => th_frame (the_thread cur s)) ;;
      modify (upd_thread t (set_frame fr)) ;;;
      modify (upd_thread t (fun th =>
        set_frame (tf_set_eax 0 (tf_set_esp (u32 (stack + MAX_STACK_SIZE))
                                   (tf_set_eip (u32 start_func) (th_frame th)))) th)) ;;;
      modify (upd_thread t (set_myproc (Some p))) ;;;
      lk <~ gets (fun s => p_ttlock (the_proc p s)) ;;
      lk <~ deref lk ;;
      kacquire lk ;;;
      modify (upd_thread t (set_state RUNNABLE)) ;;;
      krelease lk ;;;
      gets (fun s => th_tid (the_thread t s))
  end.

(** ** The scheduler

    One round of the infinite loop of [scheduler] on the processor [c];
    [Switch] is here the [swtch] to the thread that [c_thread] names, and the
    continuation runs when that thread calls [sched].  [switchkvm] loads
    [kpgdir], the argument [kpg]. *)
Definition switchkvm (kpg : Z) (c : nat) : M (kstate E) unit :=
  on_cpus (modify (upd_cpu c (set_cr3 (V2P kpg)))).

Definition run_thread (kpg : Z) (c p t : nat) : M (kstate E) unit :=
  st <~ gets (fun s => th_state (the_thread (p, t) s)) ;;
  when (bool_decide (st = RUNNABLE))
    (on_cpus (modify (upd_cpu c (set_cproc (Some p)))) ;;;
     on_cpus (modify (upd_cpu c (set_cthread (Some (p, t))))) ;;;
     switchuvm (Some p) ;;;
     modify (upd_proc p (set_p_state RUNNING)) ;;;
     modify (upd_thread (p, t) (set_state RUNNING)) ;;;
     swtch ;;;
     switchkvm kpg c ;;;
     on_cpus (modify (upd_cpu c (set_cthread None)))).

Definition run_proc (kpg : Z) (c p : nat) : M (kstate E) unit :=
  st <~ gets (fun s => p_state (the_proc p s)) ;;
  when (bool_decide (st = RUNNABLE))
    (for_each (seq 0 NTHREAD) (run_thread kpg c p) ;;;
     on_cpus (modify (upd_cpu c (set_cproc None)))).

Definition scheduler_round (kpg : Z) (c : nat) : M (kstate E) unit :=
  on_cpus sti ;;;
  kacquire PTABLE_LOCK ;;;
  for_each (seq 0 NPROC) (run_proc kpg c) ;;;
  krelease PTABLE_LOCK.

Definition scheduler (rounds : nat) (kpg : Z) : M (kstate E) unit :=
  c <~ on_cpus mycpu ;;
  on_cpus (modify (upd_cpu c (set_cproc None))) ;;;
  on_cpus (modify (upd_cpu c (set_cthread None))) ;;;
  for_each (seq 0 rounds) (fun _ => scheduler_round kpg c).

End Operations.
