(* ===== verification/Exec.v ===== *)
(** * Execution of kernel operations

    The facts about the machine that operations above the locks rely on, and
    rules that run an operation forward.  [mst x hs m] summarises a machine
    that executes on the processor [x_cpu x] for the thread [x_thread x]: it
    holds exactly the locks [hs], its nesting depth is their number, and the
    interrupt flag to be restored is [x_ie x]; in [mst_at n x hs m] there are
    [n] more [pushcli]s without a lock.  What the summary says of the other
    locks and processors is the parameter [others]; by default ([lone]) the
    other locks are free.  [total m s Q]: the operation
    [m] started in [s] returns, without panicking, spinning or giving up the
    processor, and its result satisfies [Q]. *)
From S2P Require Import Prelude Code Mmu Spinlock Kalloc Proc.

Record exe := mkExe {
  x_cpu : nat;
  x_ie : bool;
  x_proc : option nat;
  x_thread : option (nat * nat);
}.

(** What is known of the locks the processor does not hold and of the other
    processors. *)
Class others := mkOthers {
  o_lock : nat -> spinlock -> Prop;
  o_cpu : nat -> option cpu -> Prop;
}.
#[export] Instance lone : others := mkOthers (fun _ l => lk_locked l = 0) (fun _ _ => True).

Definition mst_at {W : others} (n : nat) (x : exe) (hs : gset nat) (m : mach) : Prop :=
  m_cur m = x_cpu x /\ (n + size hs <= 8)%nat /\
  (exists c, on_cpu m c /\ c_ncli c = Z.of_nat (n + size hs) /\ c_proc c = x_proc x /\ c_thread c = x_thread x /\
     (if c_ncli c =? 0 then c_IF c else c_intena c) = x_ie x) /\
  (forall a, a ∈ hs -> held_by a (x_cpu x) m) /\
  (forall a, a ∉ hs -> o_lock a (the_lock a m)) /\
  (forall j, j <> x_cpu x -> o_cpu j (m_cpus m !! j)).
Abbreviation mst := (mst_at 0).

Definition total {S A : Type} (m : M S A) (s : S) (Q : A -> S -> Prop) : Prop :=
  match m s with Done a s' => Q a s' | _ => False end.

(** [m] started in [s] gives up the processor in a state and with a
    continuation that satisfy [Q]. *)
Definition yields {S A : Type} (m : M S A) (s : S) (Q : S -> (S -> prog S A) -> Prop) : Prop :=
  match m s with Switch s' k => Q s' k | _ => False end.

(** The kernel state with another machine. *)
Definition with_mach {E} (m : mach) (s : kstate E) : kstate E := set_k_base (set_mach m (k_base s)) s.

(** ** Rules *)
Lemma total_ret {S A} (a : A) (s : S) Q : Q a s -> total (ret a) s Q.
Proof. intros H. exact H. Qed.

Lemma total_gets {S A} (f : S -> A) s (Q : A -> S -> Prop) : Q (f s) s -> total (gets f) s Q.
Proof. intros H. exact H. Qed.

Lemma total_modify {S} (f : S -> S) s (Q : unit -> S -> Prop) : Q tt (f s) -> total (modify f) s Q.
Proof. intros H. exact H. Qed.

Lemma total_bind {S A B} (m : M S A) (f : A -> M S B) s Q :
  total m s (fun a s' => total (f a) s' Q) -> total (bind m f) s Q.
Proof. unfold total, bind. destruct (m s); simpl; tauto. Qed.

Lemma total_mono {S A} (m : M S A) s (Q Q' : A -> S -> Prop) :
  (forall a s', Q a s' -> Q' a s') -> total m s Q -> total m s Q'.
Proof. unfold total. destruct (m s); auto. Qed.

Lemma total_done {S A} (m : M S A) s Q : total m s Q -> exists a s', m s = Done a s' /\ Q a s'.
Proof. unfold total. destruct (m s); try tauto. eauto. Qed.

Lemma total_done_eq {S A} (m : M S A) s b (Q : S -> Prop) :
  total m s (fun a s' => a = b /\ Q s') -> exists s', m s = Done b s' /\ Q s'.
Proof. unfold total. destruct (m s); try tauto. intros [-> HQ]. eauto. Qed.

Lemma total_intro {S A} (m : M S A) s a s' (Q : A -> S -> Prop) : m s = Done a s' -> Q a s' -> total m s Q.
Proof. unfold total. now intros ->. Qed.

(** Running a first part that returns, towards a property [P] or a known
    outcome [r] of the whole. *)
Lemma run_bindP {S A B} (P : prog S B -> Prop) (m : M S A) (f : A -> M S B) s :
  total m s (fun a s' => P (f a s')) -> P (bind m f s).
Proof. unfold total, bind. destruct (m s); simpl; tauto. Qed.

Lemma run_bind {S A B} (m : M S A) (f : A -> M S B) s r :
  total m s (fun a s' => f a s' = r) -> bind m f s = r.
Proof. unfold total, bind. destruct (m s); simpl; tauto. Qed.

Lemma yields_bind_total {S A B} (m : M S A) (f : A -> M S B) s Q :
  total m s (fun a s' => yields (f a) s' Q) -> yields (bind m f) s Q.
Proof. unfold total, yields, bind. destruct (m s); simpl; tauto. Qed.

Lemma yields_bind {S A B} (m : M S A) (f : A -> M S B) s Q :
  yields m s (fun s' k => Q s' (fun s'' => prog_bind (k s'') f)) -> yields (bind m f) s Q.
Proof. unfold yields, bind. destruct (m s); simpl; tauto. Qed.

Lemma yields_run_kbind {S A B} (c : kcode S A) (f : A -> kcode S B) s Q :
  total (run c) s (fun a s' => yields (run (f a)) s' Q) -> yields (run (kbind c f)) s Q.
Proof.
  intros H. apply total_done in H as (a & s' & Hc & Ha). unfold yields.
  rewrite (run_kbind_done c f s a s' Hc). exact Ha.
Qed.

Lemma yields_swtch_then {S A} (rest : M S A) s (Q : S -> (S -> prog S A) -> Prop) :
  Q s rest -> yields (swtch ;;; rest) s Q.
Proof. intros H. exact H. Qed.

Lemma yields_mono {S A} (m : M S A) s (Q Q' : S -> (S -> prog S A) -> Prop) :
  (forall s' k, Q s' k -> Q' s' k) -> yields m s Q -> yields m s Q'.
Proof. unfold yields. destruct (m s); auto. Qed.

Lemma yields_switch {S A} (m : M S A) s Q : yields m s Q -> exists s' k, m s = Switch s' k /\ Q s' k.
Proof. unfold yields. destruct (m s); try tauto. eauto. Qed.

Lemma total_when {S} b (m : M S unit) s Q :
  (b = true -> total m s Q) -> (b = false -> Q tt s) -> total (when b m) s Q.
Proof. unfold when. destruct b; intros H1 H2; [now apply H1|now apply H2]. Qed.

(** Loops over a table: iterations that keep [J], then one that switches. *)
Lemma for_each_total {S A} (J : S -> Prop) (l : list A) body s :
  J s -> (forall a s, a ∈ l -> J s -> total (body a) s (fun _ s' => J s')) ->
  total (for_each l body) s (fun _ s' => J s').
Proof.
  revert s. induction l as [|a l IH]; intros s HJ Hb; [exact HJ|]. simpl. apply total_bind.
  eapply total_mono; [|apply Hb; [now left|exact HJ]]. intros [] s' HJ'.
  apply IH; [exact HJ'|]. intros b s0 Hin. apply Hb. now right.
Qed.

Lemma for_each_yields {S A} (J : S -> Prop) (l1 l2 : list A) a body s (P : S -> Prop) :
  J s -> (forall b s, b ∈ l1 -> J s -> total (body b) s (fun _ s' => J s')) ->
  (forall s, J s -> yields (body a) s (fun s' _ => P s')) ->
  yields (for_each (l1 ++ a :: l2) body) s (fun s' _ => P s').
Proof.
  revert s. induction l1 as [|b l1 IH]; intros s HJ Hb Ha; simpl.
  - apply yields_bind. now apply Ha.
  - apply yields_bind_total. eapply total_mono; [|apply Hb; [now left|exact HJ]]. intros [] s' HJ'.
    apply IH; [exact HJ'| |exact Ha]. intros c s0 Hin. apply Hb. now right.
Qed.

Lemma seq_split n i : (i < n)%nat -> seq 0 n = seq 0 i ++ i :: seq (S i) (n - S i).
Proof.
  intros H. replace n with (i + S (n - S i))%nat at 1 by lia. rewrite seq_app. reflexivity.
Qed.

(** ** The machine summary under the lock operations *)
Section Summary.
Context {W : others}.

Lemma mst_on n x hs m : mst_at n x hs m ->
  exists c, on_cpu m c /\ c_ncli c = Z.of_nat (n + size hs) /\ c_proc c = x_proc x /\ c_thread c = x_thread x.
Proof. intros (_ & _ & (c & ? & ? & ? & ? & _) & _). eauto. Qed.

Lemma on_cpu_fun m c c' : on_cpu m c -> on_cpu m c' -> c = c'.
Proof. intros (E1 & _) (E2 & _). congruence. Qed.

(** The summary when only the entry of the processor changes. *)
Lemma mst_with n n' x x' hs m c c' :
  mst_at n x hs m -> on_cpu m c -> (n' + size hs <= 8)%nat -> x_cpu x' = x_cpu x ->
  cwf c' -> c_apicid c' = c_apicid c ->
  c_ncli c' = Z.of_nat (n' + size hs) -> c_proc c' = x_proc x' -> c_thread c' = x_thread x' ->
  (if c_ncli c' =? 0 then c_IF c' else c_intena c') = x_ie x' ->
  mst_at n' x' hs (with_cur c' m).
Proof.
  intros (Hcur & Hsz & _ & Hheld & Hfree & Hoth) Hon Hsz' Hx Hwf Hid Hn Hp Ht Hie.
  split; [simpl; congruence|]. split; [done|]. split; [|split; [|split]].
  - exists c'. split; [exact (on_cpu_with _ _ _ Hon Hwf Hid)|auto].
  - intros a Ha. rewrite Hx. now apply Hheld.
  - intros a Ha. now apply Hfree.
  - intros j Hj. rewrite Hx in Hj. cbn [with_cur m_cpus]. rewrite list_lookup_insert_ne by congruence. now apply Hoth.
Qed.

Lemma mst_push n x hs m c :
  mst_at n x hs m -> on_cpu m c -> (n + size hs < 8)%nat -> mst_at (S n) x hs (with_cur (push c) m).
Proof.
  intros Hm Hon Hlt. pose proof Hm as (_ & _ & (c' & Hon' & Hn & Hp & Ht & Hie) & _).
  rewrite <- (on_cpu_fun _ _ _ Hon Hon') in *.
  eapply (mst_with n (S n) x x); [exact Hm|exact Hon|lia|done|apply push_cwf; [apply Hon|lia]|done|simpl; lia|done..|].
  simpl. replace (c_ncli c + 1 =? 0) with false by lia. exact Hie.
Qed.

Lemma mst_pop n x hs m c : mst_at (S n) x hs m -> on_cpu m c -> mst_at n x hs (with_cur (pop c) m).
Proof.
  intros Hm Hon. pose proof Hm as (_ & _ & (c' & Hon' & Hn & Hp & Ht & Hie) & _).
  rewrite <- (on_cpu_fun _ _ _ Hon Hon') in *.
  eapply (mst_with (S n) n x x); [exact Hm|exact Hon|destruct Hm; lia|done|apply pop_cwf; [apply Hon|lia]|done|simpl; lia|done..|].
  simpl. destruct Hon as (_ & _ & _ & HIF). rewrite HIF by lia. rewrite orb_false_r.
  replace (c_ncli c =? 0) with false in Hie by lia.
  destruct (Z.eqb_spec (c_ncli c) 1) as [E|E].
  - replace (c_ncli c - 1 =? 0) with true by lia. exact Hie.
  - replace (c_ncli c - 1 =? 0) with false by lia. exact Hie.
Qed.

(** Turning a bare [pushcli] into a held lock, and back. *)
Lemma mst_lock n x hs m a nm :
  mst_at (S n) x hs m -> a ∉ hs -> mst_at n x ({[a]} ∪ hs) (set_lock a (mkSpin 1 nm (Some (x_cpu x))) m).
Proof.
  intros (Hcur & Hsz & (c & Hon & Hn & Hrest) & Hheld & Hfree & Hoth) Ha.
  assert (Hs : size ({[a]} ∪ hs) = S (size hs)).
  { rewrite size_union by set_solver. now rewrite size_singleton. }
  split; [exact Hcur|]. split; [lia|]. split; [exists c; split; [exact Hon|split; [lia|done]]|split].
  - intros b Hb. unfold held_by. destruct (decide (a = b)) as [<-|Hne]; [now rewrite the_lock_set|].
    rewrite the_lock_set_ne by done. apply Hheld. set_solver.
  - split; [|exact Hoth]. intros b Hb. rewrite the_lock_set_ne by set_solver. apply Hfree. set_solver.
Qed.

Lemma mst_unlock n x hs m a nm :
  mst_at n x hs m -> a ∈ hs -> o_lock a (mkSpin 0 nm None) -> mst_at (S n) x (hs ∖ {[a]}) (set_lock a (mkSpin 0 nm None) m).
Proof.
  intros (Hcur & Hsz & (c & Hon & Hn & Hrest) & Hheld & Hfree & Hoth) Ha Hw.
  assert (Hs : size hs = S (size (hs ∖ {[a]}))).
  { pose proof (size_difference hs {[a]} ltac:(set_solver)) as Hd. rewrite size_singleton in Hd.
    assert (size hs <> 0%nat) by (intros H%size_empty_inv; set_solver). lia. }
  split; [exact Hcur|]. split; [lia|]. split; [exists c; split; [exact Hon|split; [lia|done]]|split].
  - intros b Hb. unfold held_by. rewrite the_lock_set_ne by set_solver. apply Hheld. set_solver.
  - split; [|exact Hoth]. intros b Hb. destruct (decide (a = b)) as [<-|Hne]; [now rewrite the_lock_set|].
    rewrite the_lock_set_ne by done. apply Hfree. set_solver.
Qed.

Lemma acquire_mst n x hs m a :
  mst_at n x hs m -> a ∉ hs -> lock_free a m -> (n + size hs < 8)%nat ->
  exists m', acquire a m = Done tt m' /\ mst_at n x ({[a]} ∪ hs) m' /\ forall b, b <> a -> the_lock b m' = the_lock b m.
Proof.
  intros Hm Ha Hfree Hlt. destruct (mst_on _ _ _ _ Hm) as (c & Hon & Hn & _).
  eexists. split; [apply (acquire_ok a m c Hon); [lia|exact Hfree]|]. split.
  - pose proof Hm as (-> & _). apply mst_lock; [now apply mst_push|done].
  - intros b Hb. now rewrite the_lock_set_ne.
Qed.

Lemma release_mst n x hs m a :
  mst_at n x hs m -> a ∈ hs -> o_lock a (mkSpin 0 (lk_name (the_lock a m)) None) ->
  exists m', release a m = Done tt m' /\ mst_at n x (hs ∖ {[a]}) m' /\ lock_free a m' /\
    forall b, b <> a -> the_lock b m' = the_lock b m.
Proof.
  intros Hm Ha Hw. destruct (mst_on _ _ _ _ Hm) as (c & Hon & Hn & _).
  pose proof Hm as (Hcur & Hsz & _ & Hheld & _).
  assert (size hs <> 0%nat) by (intros H%size_empty_inv; set_solver).
  eexists. split; [apply (release_ok a m c Hon); [lia|rewrite Hcur; now apply Hheld]|]. split.
  - apply (mst_pop n x _ (set_lock a (mkSpin 0 (lk_name (the_lock a m)) None) m) c);
      [now apply mst_unlock|exact Hon].
  - split; [unfold lock_free; now rewrite the_lock_set|]. intros b Hb. now rewrite the_lock_set_ne.
Qed.
End Summary.

Lemma mst_acquire n x hs m a :
  mst_at n x hs m -> a ∉ hs -> (n + size hs < 8)%nat ->
  exists m', acquire a m = Done tt m' /\ mst_at n x ({[a]} ∪ hs) m'.
Proof.
  intros Hm Ha Hlt. destruct (acquire_mst n x hs m a Hm Ha) as (m' & Hr & Hm' & _); [now apply Hm|done|eauto].
Qed.

Lemma mst_release n x hs m a :
  mst_at n x hs m -> a ∈ hs -> exists m', release a m = Done tt m' /\ mst_at n x (hs ∖ {[a]}) m'.
Proof. intros Hm Ha. destruct (release_mst n x hs m a Hm Ha eq_refl) as (m' & Hr & Hm' & _). eauto. Qed.

(** ** Kernel operations on the locks and the processor *)
Section Kernel.
Context {E : Type} {X : KernelExt E}.
Implicit Types (s : kstate E) (x : exe) (hs : gset nat).

Lemma on_cpus_done {A} (op : M mach A) s a m' :
  op (k_mach s) = Done a m' -> on_cpus op s = Done a (with_mach m' s).
Proof. unfold on_cpus, on_base, on_mach, zoom, k_mach. intros ->. reflexivity. Qed.

Lemma kacquire_total n x hs a s (Q : unit -> kstate E -> Prop) :
  mst_at n x hs (k_mach s) -> a ∉ hs -> (n + size hs < 8)%nat ->
  (forall m', mst_at n x ({[a]} ∪ hs) m' -> Q tt (with_mach m' s)) -> total (kacquire a) s Q.
Proof.
  intros Hm Ha Hsz HQ. destruct (mst_acquire n x hs _ a Hm Ha Hsz) as (m' & Hrun & Hm').
  eapply total_intro; [eapply on_cpus_done, Hrun|auto].
Qed.

Lemma krelease_total n x hs a s (Q : unit -> kstate E -> Prop) :
  mst_at n x hs (k_mach s) -> a ∈ hs ->
  (forall m', mst_at n x (hs ∖ {[a]}) m' -> Q tt (with_mach m' s)) -> total (krelease a) s Q.
Proof.
  intros Hm Ha HQ. destruct (mst_release n x hs _ a Hm Ha) as (m' & Hrun & Hm').
  eapply total_intro; [eapply on_cpus_done, Hrun|auto].
Qed.

End Kernel.

Section Processor.
Context {E : Type} {X : KernelExt E} {W : others}.
Implicit Types (s : kstate E) (x : exe) (hs : gset nat).

(** The page directory in use. *)
Definition cr3_at (m : mach) : Z := cpu_field 0 c_cr3 (m_cur m) m.

Lemma cpu_read_run {A} (d : A) (f : cpu -> A) n x hs m c :
  mst_at n x hs m -> (n + size hs < 8)%nat -> on_cpu m c -> f (push c) = f c ->
  exists m', (pushcli ;;; i <~ mycpu ;; v <~ gets (cpu_field d f i) ;; popcli ;;; ret v) m = Done (f c) m' /\
    mst_at n x hs m' /\ cr3_at m' = c_cr3 c.
Proof.
  intros Hm Hsz Hon Hf. pose proof (mst_push _ _ _ _ _ Hm Hon Hsz) as Hm1.
  destruct (mst_on _ _ _ _ Hm) as (c' & Hon' & Hn & _).
  rewrite <- (on_cpu_fun _ _ _ Hon Hon') in *.
  destruct (mycpu_in_push m c Hon ltac:(lia)) as [Hon1 Hmy].
  eexists. split; [|split; [exact (mst_pop _ _ _ _ _ Hm1 Hon1)|exact (cpu_field_with 0 c_cr3 (with_cur (push c) m) (push c) (pop (push c)) (proj1 Hon1))]].
  erewrite bind_done by (apply (pushcli_ok _ _ Hon)). erewrite bind_done by (apply Hmy).
  erewrite bind_done by (apply gets_done).
  erewrite bind_done by (apply (popcli_ok _ _ Hon1); simpl; lia).
  rewrite (cpu_field_with d f _ c) by apply Hon. unfold ret. now rewrite Hf.
Qed.

Lemma mythread_cr3_total n x hs s (Q : option (nat * nat) -> kstate E -> Prop) :
  mst_at n x hs (k_mach s) -> (n + size hs < 8)%nat ->
  (forall m', mst_at n x hs m' -> cr3_at m' = cr3_at (k_mach s) -> Q (x_thread x) (with_mach m' s)) -> total mythread s Q.
Proof.
  intros Hm Hsz HQ. destruct (mst_on _ _ _ _ Hm) as (c & Hon & _ & _ & Ht).
  destruct (cpu_read_run None c_thread n x hs _ c Hm Hsz Hon eq_refl) as (m' & Hrun & Hm' & Hcr).
  eapply total_intro; [eapply on_cpus_done, Hrun|]. rewrite Ht. apply HQ; [exact Hm'|].
  rewrite Hcr. symmetry. apply cpu_field_cur, Hon.
Qed.

Lemma myproc_cr3_total n x hs s (Q : option nat -> kstate E -> Prop) :
  mst_at n x hs (k_mach s) -> (n + size hs < 8)%nat ->
  (forall m', mst_at n x hs m' -> cr3_at m' = cr3_at (k_mach s) -> Q (x_proc x) (with_mach m' s)) -> total myproc s Q.
Proof.
  intros Hm Hsz HQ. destruct (mst_on _ _ _ _ Hm) as (c & Hon & _ & Hp & _).
  destruct (cpu_read_run None c_proc n x hs _ c Hm Hsz Hon eq_refl) as (m' & Hrun & Hm' & Hcr).
  eapply total_intro; [eapply on_cpus_done, Hrun|]. rewrite Hp. apply HQ; [exact Hm'|].
  rewrite Hcr. symmetry. apply cpu_field_cur, Hon.
Qed.

Lemma mythread_total n x hs s (Q : option (nat * nat) -> kstate E -> Prop) :
  mst_at n x hs (k_mach s) -> (n + size hs < 8)%nat ->
  (forall m', mst_at n x hs m' -> Q (x_thread x) (with_mach m' s)) -> total mythread s Q.
Proof. intros Hm Hsz HQ. eapply mythread_cr3_total; eauto. Qed.

Lemma myproc_total n x hs s (Q : option nat -> kstate E -> Prop) :
  mst_at n x hs (k_mach s) -> (n + size hs < 8)%nat ->
  (forall m', mst_at n x hs m' -> Q (x_proc x) (with_mach m' s)) -> total myproc s Q.
Proof. intros Hm Hsz HQ. eapply myproc_cr3_total; eauto. Qed.

Lemma kholding_total n x hs a s (Q : bool -> kstate E -> Prop) :
  mst_at n x hs (k_mach s) -> (n + size hs < 8)%nat -> a ∈ hs ->
  (forall m', mst_at n x hs m' -> Q true (with_mach m' s)) -> total (on_cpus (holding a)) s Q.
Proof.
  intros Hm Hsz Ha HQ. destruct (mst_on _ _ _ _ Hm) as (c & Hon & Hn & _).
  pose proof (mst_push _ _ _ _ _ Hm Hon Hsz) as Hm1.
  destruct (mycpu_in_push _ c Hon ltac:(lia)) as [Hon1 _].
  pose proof (mst_pop _ _ _ _ _ Hm1 Hon1) as Hm2. rewrite with_cur_with in Hm2.
  pose proof Hm as (Hcur & _ & _ & Hheld & _).
  eapply total_intro; [eapply on_cpus_done, (holding_ok a _ _ Hon); lia|].
  destruct (Hheld a Ha) as [-> ->]. rewrite Hcur, bool_decide_eq_true_2 by done. now apply HQ.
Qed.

(** The flag [sched] puts back. *)
Definition resume_exe (x : exe) (ie : bool) : exe := mkExe (x_cpu x) ie (x_proc x) (x_thread x).

Lemma mst_off n x hs m c :
  mst_at n x hs m -> (0 < n + size hs)%nat -> on_cpu m c -> c_IF c = false /\ c_intena c = x_ie x.
Proof.
  intros (_ & _ & (c' & Hon & Hn & _ & _ & Hie) & _) Hne Hon'.
  rewrite <- (on_cpu_fun _ _ _ Hon' Hon) in *.
  replace (c_ncli c =? 0) with false in Hie by lia. split; [|exact Hie]. apply Hon'. lia.
Qed.

(** Writing a field of the processor's entry. *)
Lemma upd_cpu_total n x x' hs (f : cpu -> cpu) s (Q : unit -> kstate E -> Prop) :
  mst_at n x hs (k_mach s) -> (forall c, on_cpu (k_mach s) c -> x_cpu x' = x_cpu x /\
    c_apicid (f c) = c_apicid c /\ c_ncli (f c) = c_ncli c /\ c_IF (f c) = c_IF c /\
    c_proc (f c) = x_proc x' /\ c_thread (f c) = x_thread x' /\
    (if c_ncli c =? 0 then c_IF (f c) else c_intena (f c)) = x_ie x') ->
  (forall m', mst_at n x' hs m' -> (forall c, on_cpu (k_mach s) c -> on_cpu m' (f c)) -> Q tt (with_mach m' s)) ->
  total (on_cpus (modify (upd_cpu (x_cpu x) f))) s Q.
Proof.
  intros Hm Hf HQ. destruct (mst_on _ _ _ _ Hm) as (c & Hon & Hn & _).
  destruct (Hf c Hon) as (Hx & Hid & Hn' & HIF & Hp & Ht & Hie).
  assert (Hwf : cwf (f c)) by (unfold cwf; rewrite Hn', HIF; apply Hon).
  eapply total_intro; [eapply on_cpus_done; reflexivity|].
  pose proof Hm as (<- & Hsz & _). rewrite (upd_cur _ _ c) by apply Hon. apply HQ.
  - eapply (mst_with n n x x'); eauto; [congruence|]. now rewrite Hn'.
  - intros c' Hc'. rewrite (on_cpu_fun _ _ _ Hc' Hon). exact (on_cpu_with _ _ _ Hon Hwf Hid).
Qed.

(** With a lock held interrupts are off, so [mycpu] may be called. *)
Lemma kmycpu_total n x hs s (Q : nat -> kstate E -> Prop) :
  mst_at n x hs (k_mach s) -> (0 < n + size hs)%nat -> Q (x_cpu x) s -> total (on_cpus mycpu) s Q.
Proof.
  intros Hm Hne HQ. destruct (mst_on _ _ _ _ Hm) as (c & Hon & _).
  destruct (mst_off _ _ _ _ _ Hm Hne Hon) as [HIF _].
  eapply total_intro; [eapply on_cpus_done, (mycpu_ok _ _ Hon HIF)|].
  destruct Hm as (-> & _). destruct s as [[] ]. exact HQ.
Qed.

Lemma cpu_get_total {A} (d : A) f n x hs s c (Q : A -> kstate E -> Prop) :
  mst_at n x hs (k_mach s) -> on_cpu (k_mach s) c -> Q (f c) s ->
  total (on_cpus (gets (cpu_field d f (x_cpu x)))) s Q.
Proof.
  intros (Hcur & _) Hon HQ. eapply total_intro; [eapply on_cpus_done; apply gets_done|].
  rewrite <- Hcur, (cpu_field_cur _ _ _ c) by apply Hon. destruct s as [[] ]. exact HQ.
Qed.

Lemma ksti_total x s (Q : unit -> kstate E -> Prop) :
  mst x ∅ (k_mach s) -> (forall m', mst (resume_exe x true) ∅ m' -> Q tt (with_mach m' s)) ->
  total (on_cpus sti) s Q.
Proof.
  intros Hm HQ. pose proof Hm as (Hcur & _ & (c & Hon & Hn & Hp & Ht & _) & _).
  rewrite size_empty in Hn. eapply total_intro; [eapply on_cpus_done; reflexivity|].
  rewrite (upd_cur _ _ c) by apply Hon. apply HQ.
  eapply (mst_with 0 0 x); [exact Hm|exact Hon|rewrite size_empty; lia|done| |done|rewrite size_empty; exact Hn|done..|].
  - split; simpl; [lia|]. rewrite Hn. simpl. lia.
  - simpl. now rewrite Hn.
Qed.

Lemma kpushcli_total n x hs s (Q : unit -> kstate E -> Prop) :
  mst_at n x hs (k_mach s) -> (n + size hs < 8)%nat ->
  (forall m', mst_at (S n) x hs m' -> Q tt (with_mach m' s)) -> total (on_cpus pushcli) s Q.
Proof.
  intros Hm Hsz HQ. destruct (mst_on _ _ _ _ Hm) as (c & Hon & _).
  eapply total_intro; [eapply on_cpus_done, (pushcli_ok _ _ Hon)|]. apply HQ. now apply mst_push.
Qed.

Lemma kpopcli_total n x hs s (Q : unit -> kstate E -> Prop) :
  mst_at (S n) x hs (k_mach s) ->
  (forall m', mst_at n x hs m' -> (forall c, on_cpu (k_mach s) c -> on_cpu m' (pop c)) ->
     Q tt (with_mach m' s)) -> total (on_cpus popcli) s Q.
Proof.
  intros Hm HQ. destruct (mst_on _ _ _ _ Hm) as (c & Hon & Hn & _).
  eapply total_intro; [eapply on_cpus_done, (popcli_ok _ _ Hon); lia|]. apply HQ; [now apply mst_pop|].
  intros c' Hc'. rewrite (on_cpu_fun _ _ _ Hc' Hon).
  eapply on_cpu_with; [exact Hon|apply pop_cwf; [apply Hon|lia]|reflexivity].
Qed.

(** A field that changes neither what runs nor the interrupt state. *)
Lemma upd_cpu_same n x hs (f : cpu -> cpu) s (Q : unit -> kstate E -> Prop) :
  mst_at n x hs (k_mach s) -> (forall c, c_apicid (f c) = c_apicid c /\ c_ncli (f c) = c_ncli c /\
    c_IF (f c) = c_IF c /\ c_intena (f c) = c_intena c /\ c_proc (f c) = c_proc c /\ c_thread (f c) = c_thread c) ->
  (forall m', mst_at n x hs m' -> (forall c, on_cpu (k_mach s) c -> on_cpu m' (f c)) -> Q tt (with_mach m' s)) ->
  total (on_cpus (modify (upd_cpu (x_cpu x) f))) s Q.
Proof.
  intros Hm Hf HQ. eapply (upd_cpu_total n x x); [exact Hm| |exact HQ].
  intros c Hon. pose proof Hm as (_ & _ & (c' & Hon' & Hn & Hp & Ht & Hie) & _).
  rewrite <- (on_cpu_fun _ _ _ Hon Hon') in *.
  destruct (Hf c) as (-> & -> & -> & -> & -> & ->). repeat split; done.
Qed.

Lemma kset_cproc_total n x hs c pp s (Q : unit -> kstate E -> Prop) :
  mst_at n x hs (k_mach s) -> c = x_cpu x ->
  (forall m', mst_at n (mkExe (x_cpu x) (x_ie x) pp (x_thread x)) hs m' -> Q tt (with_mach m' s)) ->
  total (on_cpus (modify (upd_cpu c (set_cproc pp)))) s Q.
Proof.
  intros Hm -> HQ. eapply (upd_cpu_total n x (mkExe (x_cpu x) (x_ie x) pp (x_thread x))); [exact Hm| |auto].
  intros c Hon. pose proof Hm as (_ & _ & (c' & Hon' & Hn & Hp & Ht & Hie) & _).
  rewrite <- (on_cpu_fun _ _ _ Hon Hon') in *. repeat split; done.
Qed.

Lemma kset_cthread_total n x hs c tt' s (Q : unit -> kstate E -> Prop) :
  mst_at n x hs (k_mach s) -> c = x_cpu x ->
  (forall m', mst_at n (mkExe (x_cpu x) (x_ie x) (x_proc x) tt') hs m' -> Q tt (with_mach m' s)) ->
  total (on_cpus (modify (upd_cpu c (set_cthread tt')))) s Q.
Proof.
  intros Hm -> HQ. eapply (upd_cpu_total n x (mkExe (x_cpu x) (x_ie x) (x_proc x) tt')); [exact Hm| |auto].
  intros c Hon. pose proof Hm as (_ & _ & (c' & Hon' & Hn & Hp & Ht & Hie) & _).
  rewrite <- (on_cpu_fun _ _ _ Hon Hon') in *. repeat split; done.
Qed.

(** [switchuvm] for the thread the processor is about to run: the task state
    points at the top of its kernel stack, the page directory is the
    process's. *)
Lemma switchuvm_total n x hs s p t (Q : unit -> kstate E -> Prop) :
  mst_at n x hs (k_mach s) -> (n + size hs < 6)%nat -> x_thread x = Some t ->
  th_kstack (the_thread t s) <> 0 -> p_pgdir (the_proc p s) <> 0 ->
  (forall m' c, mst_at n x hs m' -> on_cpu m' c ->
     c_esp0 c = u32 (th_kstack (the_thread t s) + KSTACKSIZE) -> c_cr3 c = V2P (p_pgdir (the_proc p s)) ->
     Q tt (with_mach m' s)) ->
  total (switchuvm (Some p)) s Q.
Proof.
  intros Hm Hsz Ht Hks Hpg HQ. apply Z.eqb_neq in Hks, Hpg. unfold switchuvm.
  apply total_bind. eapply mythread_total; [eassumption|lia|]. intros m1 H1. rewrite Ht.
  apply total_bind, total_gets. change (the_thread t (with_mach m1 s)) with (the_thread t s). rewrite Hks.
  apply total_bind, total_gets. change (the_proc p (with_mach m1 s)) with (the_proc p s). rewrite Hpg.
  apply total_bind. eapply kpushcli_total; [exact H1|lia|]. intros m2 H2.
  apply total_bind. eapply kmycpu_total; [exact H2|lia|].
  apply total_bind. eapply upd_cpu_same; [exact H2|done|]. intros m2' H2' _.
  apply total_bind. eapply mythread_total; [exact H2'|lia|]. intros m3 H3. rewrite Ht.
  apply total_bind, total_ret. apply total_bind, total_gets.
  apply total_bind. eapply upd_cpu_same; [exact H3|done|]. intros m4 H4 Hc4.
  apply total_bind. eapply upd_cpu_same; [exact H4|done|]. intros m4' H4' Hc4'.
  apply total_bind. eapply upd_cpu_same; [exact H4'|done|]. intros m5 H5 Hc5.
  eapply kpopcli_total; [exact H5|]. intros m6 H6 Hc6.
  destruct (mst_on _ _ _ _ H3) as (c & Hon & _). specialize (Hc6 _ (Hc5 _ (Hc4' _ (Hc4 _ Hon)))).
  eapply (HQ m6 _ H6 Hc6); reflexivity.
Qed.

Lemma total_deref {A} (o : option A) a s (Q : A -> kstate E -> Prop) :
  o = Some a -> Q a s -> total (deref o) s Q.
Proof. intros -> H. exact H. Qed.

End Processor.

(** ** Tactics: run an operation forward under the summary [mst] *)
Ltac kbind :=
  lazymatch goal with
  | |- yields (bind _ _) _ _ => apply yields_bind_total
  | |- total (bind _ _) _ _ => apply total_bind
  | _ => idtac
  end.
Tactic Notation "krun" uconstr(lem) := kbind; eapply lem; [eassumption|..].
Ltac kgo1 :=
  lazymatch goal with
  | |- total (bind _ _) _ _ => apply total_bind
  | |- total (gets _) _ _ => apply total_gets
  | |- total (modify _) _ _ => apply total_modify
  | |- total (ret _) _ _ => apply total_ret
  | |- total (deref (Some _)) _ _ => eapply total_deref; [reflexivity|]
  | |- total (deref _) _ _ => eapply total_deref; [eassumption|]
  | |- yields (bind ?m _) _ _ =>
      lazymatch m with
      | gets _ => apply yields_bind_total | modify _ => apply yields_bind_total
      | deref _ => apply yields_bind_total | ret _ => apply yields_bind_total
      | on_cpus _ => apply yields_bind_total
      end
  end.
Ltac kgo := repeat kgo1.
Ltac kset :=
  lazymatch goal with
  | |- context [size _] => rewrite ?size_union, ?size_singleton, ?size_empty by set_solver; lia
  | _ => set_solver
  end.

(** ** A machine with one processor that satisfies a summary *)
Definition one_cpu (x : exe) (hs : gset nat) : mach :=
  mkMach [mkCpu 0 (x_ie x && bool_decide (hs = ∅)) (Z.of_nat (size hs)) (x_ie x) (x_proc x) (x_thread x) 0 0 0 0 segregs0 0] 0
    (gset_to_gmap (mkSpin 1 EmptyString (Some 0%nat)) hs).

Lemma one_cpu_mst x hs : x_cpu x = 0%nat -> (size hs <= 8)%nat -> mst x hs (one_cpu x hs).
Proof.
  intros Hx Hsz. split; [now rewrite Hx|]. split; [lia|]. split; [|split; [|split; [|done]]].
  - eexists. split; [split; [reflexivity|split; [apply NoDup_singleton|]]|].
    + split; simpl; [lia|]. intros Hpos. apply andb_false_iff. right. apply bool_decide_eq_false_2.
      intros ->. rewrite size_empty in Hpos. lia.
    + simpl. repeat split. destruct (Z.eqb_spec (Z.of_nat (size hs)) 0) as [Hz|Hz]; [|reflexivity].
      assert (hs = ∅) as -> by (apply leibniz_equiv, size_empty_inv; lia).
      rewrite bool_decide_eq_true_2 by done. apply andb_true_r.
  - intros a Ha. unfold held_by, the_lock, one_cpu. cbn [m_locks]. rewrite lookup_total_alt.
    rewrite (proj2 (lookup_gset_to_gmap_Some _ hs a _)) by done. simpl. now rewrite Hx.
  - intros a Ha. unfold the_lock, one_cpu. cbn [m_locks]. rewrite lookup_total_alt.
    rewrite (proj2 (lookup_gset_to_gmap_None _ hs a)) by done. reflexivity.
Qed.
