(* ===== verification/Sched.v ===== *)
(** * Sleeping, waking and scheduling (sched, sleep, wakeup1, kill, yield,
      scheduler of proc.c)

    The handover between a kernel thread and the scheduler: what [sched]
    requires and restores, the state [sleep] leaves behind and what holds when
    it returns, which threads [wakeup1] and [kill] make runnable, and which
    thread a round of [scheduler] runs.  The process and its threads have
    each a state; [pwf] is the invariant that ties them together. *)
From S2P Require Import Prelude Code Mmu Str Spinlock Kalloc Proc Exec.

(** What [sleep] does to the process of the sleeping thread [i]. *)
Definition fall_asleep (p i : nat) (ch : chan) (q : proc) : proc :=
  set_p_state (if others_active p (p, i) (p_threads q) then RUNNABLE else SLEEPING)
    (on_thread i (fun t => set_state SLEEPING (set_chan ch t)) q).

(** A process whose state agrees with its threads': a SLEEPING process has no
    thread that could run, a RUNNING one has a thread that is running. *)
Definition pwf (q : proc) : Prop :=
  (p_state q = SLEEPING -> Forall (fun t => active (th_state t) = false) (p_threads q)) /\
  (p_state q = RUNNING -> Exists (fun t => th_state t = RUNNING) (p_threads q)).

(** What the scheduler does to the process whose thread [t] it runs, and the
    thread a round finds first. *)
Definition dispatch (t : nat) (q : proc) : proc :=
  on_thread t (set_state RUNNING) (set_p_state RUNNING q).
Definition thread_ready (t : thread) : bool := bool_decide (th_state t = RUNNABLE).
Definition proc_ready (q : proc) : bool :=
  bool_decide (p_state q = RUNNABLE) && existsb thread_ready (p_threads q).
Definition pick (ps : list proc) : option (nat * nat) :=
  match find_idx proc_ready ps with
  | Some p =>
      match ps !! p with
      | Some q => pair p <$> find_idx thread_ready (p_threads q)
      | None => None
      end
  | None => None
  end.

(** The shape of the tables, fixed by the C array types. *)
Definition shape (q : proc) : Prop :=
  length (p_threads q) = NTHREAD /\ length (p_ofile q) = NOFILE /\ length (p_mid q) = MAX_MUTEXES.
Definition table_ok {E} (s : kstate E) : Prop :=
  length (k_procs s) = NPROC /\ Forall shape (k_procs s).

(** Whatever the scheduler may run has a kernel stack and a page directory. *)
Definition loadable (q : proc) : Prop :=
  p_state q = RUNNABLE -> p_pgdir q <> 0 /\ Forall (fun t => th_state t = RUNNABLE -> th_kstack t <> 0) (p_threads q).

(** The thread at [t] of the table. *)
Definition at_thread {E} (s : kstate E) (t : nat * nat) (th : thread) : Prop :=
  exists q, k_procs s !! t.1 = Some q /\ p_threads q !! t.2 = Some th.

(** ** Lemmas on the tables *)
Lemma the_proc_upd {E} p f (s : kstate E) q :
  k_procs s !! p = Some q -> the_proc p (upd_proc p f s) = f q.
Proof. intros H. unfold the_proc, upd_proc. simpl. rewrite list_lookup_alter_eq, H. reflexivity. Qed.

Lemma the_proc_lookup {E} p (s : kstate E) q : k_procs s !! p = Some q -> the_proc p s = q.
Proof. intros H. unfold the_proc. now rewrite H. Qed.

Lemma the_thread_at {E} t (s : kstate E) th : at_thread s t th -> the_thread t s = th.
Proof. intros (q & Hq & Ht). unfold the_thread, the_proc. rewrite Hq. simpl. now rewrite Ht. Qed.

Lemma upd_proc_comp {E} p f g (s : kstate E) : upd_proc p f (upd_proc p g s) = upd_proc p (fun q => f (g q)) s.
Proof. unfold upd_proc. simpl. now rewrite list_alter_alter_eq. Qed.

Lemma upd_proc_ext {E} p f g (s : kstate E) :
  (forall q, k_procs s !! p = Some q -> f q = g q) -> upd_proc p f s = upd_proc p g s.
Proof. intros H. unfold upd_proc. f_equal. now apply list_alter_ext. Qed.

Lemma upd_thread_proc {E} p i f (s : kstate E) : upd_thread (p, i) f s = upd_proc p (on_thread i f) s.
Proof. reflexivity. Qed.

Lemma on_thread_comp i f g q : on_thread i f (on_thread i g q) = on_thread i (fun t => f (g t)) q.
Proof. unfold on_thread. simpl. now rewrite list_alter_alter_eq. Qed.

Lemma upd_thread_comp {E} t f g (s : kstate E) :
  upd_thread t f (upd_thread t g s) = upd_thread t (fun th => f (g th)) s.
Proof.
  unfold upd_thread. rewrite upd_proc_comp. apply upd_proc_ext. intros q _. now rewrite on_thread_comp.
Qed.

Lemma the_proc_ne {E} p p' f (s : kstate E) : p <> p' -> the_proc p (upd_proc p' f s) = the_proc p s.
Proof. intros H. unfold the_proc, upd_proc. simpl. now rewrite list_lookup_alter_ne by done. Qed.

Lemma the_thread_ne {E} t t' f (s : kstate E) : t <> t' -> the_thread t (upd_thread t' f s) = the_thread t s.
Proof.
  destruct t as [p i], t' as [p' i']. intros H. unfold the_thread, upd_thread, upd_proc, the_proc.
  cbn [fst snd k_procs set_k_procs]. destruct (decide (p = p')) as [->|Hp].
  - rewrite list_lookup_alter_eq. destruct (k_procs s !! p') as [q|]; simpl; [|done].
    now rewrite list_lookup_alter_ne by congruence.
  - now rewrite list_lookup_alter_ne by done.
Qed.

Lemma the_thread_upd {E} t f (s : kstate E) th :
  at_thread s t th -> the_thread t (upd_thread t f s) = f th.
Proof.
  intros (q & Hq & Ht). unfold the_thread, upd_thread, upd_proc, the_proc. cbn [k_procs set_k_procs].
  rewrite list_lookup_alter_eq, Hq. simpl. now rewrite list_lookup_alter_eq, Ht.
Qed.

Lemma the_proc_thread {E} p i f (s : kstate E) q :
  k_procs s !! p = Some q -> the_proc p (upd_thread (p, i) f s) = on_thread i f q.
Proof. apply the_proc_upd. Qed.

(** The thread of a process after an update of the process. *)
Lemma the_thread_upd_proc {E} p i f (s : kstate E) q th :
  k_procs s !! p = Some q -> p_threads (f q) !! i = Some th -> the_thread (p, i) (upd_proc p f s) = th.
Proof.
  intros Hq Hi. apply the_thread_at. exists (f q). split; [|exact Hi].
  unfold upd_proc. simpl. now rewrite list_lookup_alter_eq, Hq.
Qed.

Lemma lookup_on_thread i f q th : p_threads q !! i = Some th -> p_threads (on_thread i f q) !! i = Some (f th).
Proof. intros H. simpl. now rewrite list_lookup_alter_eq, H. Qed.

(** Normal form of a state: the machine outermost, then the tables. *)
Lemma with_mach_mach {E} m m' (s : kstate E) : with_mach m (with_mach m' s) = with_mach m s.
Proof. reflexivity. Qed.
Lemma upd_proc_mach {E} p f m (s : kstate E) : upd_proc p f (with_mach m s) = with_mach m (upd_proc p f s).
Proof. reflexivity. Qed.
Lemma upd_thread_mach {E} t f m (s : kstate E) : upd_thread t f (with_mach m s) = with_mach m (upd_thread t f s).
Proof. reflexivity. Qed.
Lemma the_proc_mach {E} p m (s : kstate E) : the_proc p (with_mach m s) = the_proc p s.
Proof. reflexivity. Qed.
Lemma the_thread_mach {E} t m (s : kstate E) : the_thread t (with_mach m s) = the_thread t s.
Proof. reflexivity. Qed.
#[export] Hint Rewrite @the_proc_mach @the_thread_mach : kstate.
#[export] Hint Rewrite @with_mach_mach @upd_proc_mach @upd_thread_mach @upd_proc_comp @upd_thread_comp : kstate.

Lemma others_active_alter p i f ts :
  others_active p (p, i) (alter f i ts) = others_active p (p, i) ts.
Proof.
  apply eq_true_iff_eq. unfold others_active. rewrite !existsb_exists.
  split; intros ([j t] & Hin & Ht); exists (j, t); (split; [|exact Ht]).
  all: apply andb_true_iff in Ht as [Hne _]; apply negb_true_iff, bool_decide_eq_false in Hne.
  all: apply list_elem_of_In in Hin; apply list_elem_of_In.
  all: apply elem_of_lookup_imap in Hin as (k & t' & E & Hk); simplify_eq; apply elem_of_lookup_imap.
  - rewrite list_lookup_alter_ne in Hk by congruence. eauto.
  - exists k, t'. split; [done|]. rewrite list_lookup_alter_ne by congruence. done.
Qed.

Section Sched.
Context {E : Type} {X : KernelExt E}.
Implicit Types (s : kstate E) (x : exe) (hs : gset nat).

(** The state after [sched] returns on the processor of [x2]: the interrupt
    flag to restore is the one the thread had. *)
Lemma sched_yields {W : others} x s p t :
  mst x {[PTABLE_LOCK]} (k_mach s) -> x_proc x = Some p -> x_thread x = Some t ->
  p_state (the_proc p s) <> RUNNING -> th_state (the_thread t s) <> RUNNING ->
  yields sched s (fun s' k =>
    (exists m', s' = with_mach m' s /\ mst x {[PTABLE_LOCK]} m') /\
    forall (W2 : others) x2 s2, mst_at (W := W2) 0 x2 {[PTABLE_LOCK]} (k_mach s2) ->
      total k s2 (fun _ s3 => exists m3, s3 = with_mach m3 s2 /\
        mst_at (W := W2) 0 (resume_exe x2 (x_ie x)) {[PTABLE_LOCK]} m3)).
Proof.
  intros Hm Hp Ht Hps Hts. unfold sched.
  krun myproc_total; [kset|]. intros m1 H1. rewrite Hp.
  krun mythread_total; [kset|]. intros m2 H2. rewrite Ht.
  krun kholding_total; [kset|kset|]. intros m3 H3. cbn [negb].
  destruct (mst_on _ _ _ _ H3) as (c & Hon & Hn & _). rewrite size_singleton in Hn.
  destruct (mst_off _ _ _ _ _ H3 ltac:(kset) Hon) as [HIF Hie].
  krun kmycpu_total; [kset|].
  krun @cpu_get_total; [exact Hon|]. rewrite Hn. change (Z.of_nat (0 + 1) =? 1) with true. cbn [negb].
  kgo. rewrite bool_decide_eq_false_2 by exact Hps.
  kgo. rewrite bool_decide_eq_false_2 by exact Hts.
  kgo. eapply total_intro; [eapply on_cpus_done; apply gets_done|].
  rewrite (cpu_field_cur _ _ _ c) by apply Hon. rewrite HIF.
  krun kmycpu_total; [kset|].
  krun @cpu_get_total; [exact Hon|]. rewrite Hie.
  apply yields_swtch_then. split; [now exists m3|]. intros W2 x2 s2 Hx2.
  krun (kmycpu_total (W := W2)); [kset|].
  eapply (upd_cpu_total (W := W2) _ _ (resume_exe x2 (x_ie x))); [exact Hx2| |eauto].
  intros c2 Hc2. destruct (mst_on (W := W2) _ _ _ _ Hx2) as (c2' & Hon2 & Hn2 & ? & ?).
  rewrite <- (on_cpu_fun _ _ _ Hc2 Hon2) in *. rewrite size_singleton in Hn2. rewrite Hn2. repeat split; done.
Qed.

(** The body of [sleep] once [ptable.lock] is held. *)
Lemma sleep_effect p i ch q :
  (if others_active p (p, i) (p_threads (on_thread i (set_chan ch) q))
   then set_p_state RUNNABLE (on_thread i (set_state SLEEPING) (on_thread i (set_chan ch) q))
   else on_thread i (set_state SLEEPING) (set_p_state SLEEPING (on_thread i (set_chan ch) q)))
  = fall_asleep p i ch q.
Proof.
  unfold fall_asleep. cbn [p_threads on_thread set_p_threads]. rewrite others_active_alter.
  unfold on_thread. cbn [p_threads set_p_threads set_p_state].
  rewrite list_alter_alter_eq. now destruct (others_active p (p, i) (p_threads q)).
Qed.

Lemma sleep_mid p i ch s q :
  k_procs s !! p = Some q ->
  run (if others_active p (p, i) (p_threads (on_thread i (set_chan ch) q)) then
         modify (upd_thread (p, i) (set_state SLEEPING)) ;;; modify (upd_proc p (set_p_state RUNNABLE)) ;;; KRet tt
       else
         modify (upd_proc p (set_p_state SLEEPING)) ;;; modify (upd_thread (p, i) (set_state SLEEPING)) ;;; KRet tt)%code
    (upd_proc p (on_thread i (set_chan ch)) s)
  = Done tt (upd_proc p (fall_asleep p i ch) s).
Proof.
  intros Hq. destruct (others_active _ _ _) eqn:Ho; cbn [run]; unfold bind, modify, ret; cbn [prog_bind];
    rewrite ?upd_thread_proc, !upd_proc_comp; f_equal; apply upd_proc_ext; intros q' Hq';
    assert (q' = q) as -> by congruence; rewrite <- sleep_effect, Ho; reflexivity.
Qed.

Lemma fall_asleep_state p i ch q : p_state (fall_asleep p i ch q) <> RUNNING.
Proof. unfold fall_asleep. simpl. now destruct (others_active _ _ _). Qed.

(** Swapping the caller's lock for [ptable.lock], and back. *)
Lemma swap_locks x s a b :
  mst x {[a]} (k_mach s) ->
  total (run (kwhen (negb (Nat.eqb a b)) (kacquire b ;;; krelease a ;;; KRet tt)%code)) s
    (fun _ s' => exists m', s' = with_mach m' s /\ mst x {[b]} m').
Proof.
  intros Hm. unfold kwhen. destruct (negb (Nat.eqb a b)) eqn:Heq; cbn [run].
  - apply negb_true_iff, Nat.eqb_neq in Heq.
    krun kacquire_total; [kset..|]. intros m3 H3. krun krelease_total; [kset|].
    intros m4 H4. exists m4. split; [reflexivity|].
    replace ({[b]} : gset nat) with (({[b]} ∪ {[a]}) ∖ {[a]} : gset nat) by kset. exact H4.
  - exists (k_mach s). split; [now destruct s as [[] ]|].
    now replace b with a by (apply negb_false_iff, Nat.eqb_eq in Heq; done).
Qed.

Lemma release_then_acquire x s a b :
  mst x {[b]} (k_mach s) ->
  total (run (kwhen (negb (Nat.eqb a b)) (krelease b ;;; kacquire a ;;; KRet tt)%code)) s
    (fun _ s' => exists m', s' = with_mach m' s /\ mst x {[a]} m').
Proof.
  intros Hm. unfold kwhen. destruct (negb (Nat.eqb a b)) eqn:Heq; cbn [run].
  - krun krelease_total; [kset|]. intros m3 H3.
    replace ({[b]} ∖ {[b]} : gset nat) with (∅ : gset nat) in H3 by kset.
    krun kacquire_total; [kset|kset|]. intros m4 H4. exists m4. split; [reflexivity|].
    now rewrite union_empty_r_L in H4.
  - exists (k_mach s). split; [now destruct s as [[] ]|].
    now replace a with b by (apply negb_false_iff, Nat.eqb_eq in Heq; done).
Qed.

Lemma sleep_yields x s p i ch lk q th :
  mst x {[lk]} (k_mach s) -> x_proc x = Some p -> x_thread x = Some (p, i) ->
  k_procs s !! p = Some q -> p_threads q !! i = Some th ->
  yields (sleep ch (Some lk)) s (fun s' k =>
    (exists m', s' = with_mach m' (upd_proc p (fall_asleep p i ch) s) /\ mst x {[PTABLE_LOCK]} m') /\
    forall x2 s2, mst x2 {[PTABLE_LOCK]} (k_mach s2) ->
      total k s2 (fun _ s3 => exists m3, s3 = with_mach m3 (upd_thread (p, i) (set_chan CNull) s2) /\
        mst (resume_exe x2 (x_ie x)) {[lk]} m3)).
Proof.
  intros Hm Hp Ht Hq Hth. unfold sleep, sleep_code. cbn [run].
  krun mythread_total; [kset|]. intros m1 H1. rewrite Ht.
  krun myproc_total; [kset|]. intros m2 H2. rewrite Hp.
  apply yields_run_kbind. eapply total_mono; [|eapply swap_locks; exact H2]. intros _ ? (m3 & -> & H3). cbn [run].
  kgo. rewrite !upd_thread_proc, (the_proc_upd _ _ _ q) by exact Hq.
  apply yields_run_kbind. eapply total_intro; [exact (sleep_mid p i ch (with_mach m3 s) q Hq)|]. cbn [run].
  apply yields_bind. eapply yields_mono; [|eapply (sched_yields x _ p (p, i)); [exact H3|done..| |]].
  - intros s' k ((m' & -> & Hm') & Hk). split; [exists m'; split; [reflexivity|exact Hm']|].
    intros x2 s2 Hs2. apply (total_bind k). eapply total_mono; [|apply (Hk _ x2 s2 Hs2)].
    intros _ ? (m4 & -> & H4). kgo. eapply total_mono; [|eapply release_then_acquire; exact H4].
    intros _ ? (m5 & -> & H5). exists m5. split; [reflexivity|exact H5].
  - rewrite (the_proc_upd _ _ _ q) by exact Hq. apply fall_asleep_state.
  - autorewrite with kstate. erewrite the_thread_upd_proc; [|exact Hq|apply lookup_on_thread, Hth]. discriminate.
Qed.

(** ** The scheduler *)
Lemma run_thread_yields {W : others} kpg x s p t q th :
  mst x {[PTABLE_LOCK]} (k_mach s) -> k_procs s !! p = Some q -> p_threads q !! t = Some th ->
  th_state th = RUNNABLE -> th_kstack th <> 0 -> p_pgdir q <> 0 ->
  yields (run_thread kpg (x_cpu x) p t) s (fun s' k =>
    (exists m' c, s' = with_mach m' (upd_proc p (dispatch t) s) /\
       mst (mkExe (x_cpu x) (x_ie x) (Some p) (Some (p, t))) {[PTABLE_LOCK]} m' /\ on_cpu m' c /\
       c_esp0 c = u32 (th_kstack th + KSTACKSIZE) /\ c_cr3 c = V2P (p_pgdir q)) /\
    forall (W2 : others) x2 s2, mst_at (W := W2) 0 x2 {[PTABLE_LOCK]} (k_mach s2) -> x_cpu x2 = x_cpu x ->
      total k s2 (fun _ s3 => exists m3, s3 = with_mach m3 s2 /\
        mst_at (W := W2) 0 (mkExe (x_cpu x) (x_ie x2) (x_proc x2) None) {[PTABLE_LOCK]} m3)).
Proof.
  intros Hm Hq Hth Hst Hks Hpg. unfold run_thread.
  assert (Hat : the_thread (p, t) s = th) by (apply the_thread_at; now exists q).
  kgo. rewrite Hat, Hst, bool_decide_eq_true_2 by done. cbn [when].
  kgo. eapply kset_cproc_total; [exact Hm|done|]. intros m1 H1.
  kgo. eapply kset_cthread_total; [exact H1|done|]. intros m2 H2. apply yields_bind_total.
  assert (Hq' : the_proc p s = q) by now apply the_proc_lookup.
  eapply (switchuvm_total _ _ _ _ p (p, t)); [exact H2|kset|done| | |].
  - intros Hz. apply Hks. now rewrite <- Hat.
  - intros Hz. apply Hpg. now rewrite <- Hq'.
  - intros m3 c H3 Hon3 Hesp Hcr. kgo. apply yields_swtch_then. split.
    + exists m3, c. split; [|split; [exact H3|split; [exact Hon3|]]].
      * rewrite upd_thread_proc, upd_proc_comp. reflexivity.
      * change (the_thread _ _) with (the_thread (p, t) s) in Hesp.
        change (the_proc _ _) with (the_proc p s) in Hcr. rewrite Hat in Hesp. rewrite Hq' in Hcr. done.
    + intros W2 x2 s2 H2' Hcpu.
      apply total_bind. unfold switchkvm. rewrite <- Hcpu.
      eapply (upd_cpu_same (W := W2) _ x2); [exact H2'|done|]. intros m4 H4 _.
      eapply kset_cthread_total; [exact H4|done|eauto].
Qed.

(** The state of the table and the machine while a round has run nothing. *)
Definition idle (x : exe) (s0 : kstate E) (s : kstate E) : Prop :=
  exists m, s = with_mach m s0 /\ mst x {[PTABLE_LOCK]} m.

Lemma run_thread_skip kpg x c p t s0 s :
  idle x s0 s -> thread_ready (the_thread (p, t) s0) = false ->
  total (run_thread kpg c p t) s (fun _ s' => idle x s0 s').
Proof.
  intros HJ Hn. unfold run_thread. kgo. pose proof HJ as (m & -> & Hm).
  change (the_thread (p, t) (with_mach m s0)) with (the_thread (p, t) s0).
  unfold thread_ready in Hn. rewrite Hn. exact HJ.
Qed.

Lemma thread_not_ready p t q (s0 : kstate E) :
  k_procs s0 !! p = Some q -> (forall th, p_threads q !! t = Some th -> thread_ready th = false) ->
  thread_ready (the_thread (p, t) s0) = false.
Proof.
  intros Hq Hn. unfold the_thread. cbn [fst snd]. rewrite (the_proc_lookup _ _ _ Hq).
  destruct (p_threads q !! t) as [th|] eqn:Ht; [now apply Hn|reflexivity].
Qed.

Lemma run_proc_skip kpg x p q s0 s :
  idle x s0 s -> x_proc x = None -> k_procs s0 !! p = Some q -> proc_ready q = false ->
  total (run_proc kpg (x_cpu x) p) s (fun _ s' => idle x s0 s').
Proof.
  intros HJ Hx Hq Hn. unfold run_proc. kgo. pose proof HJ as (m & -> & Hm).
  change (the_proc p (with_mach m s0)) with (the_proc p s0). rewrite (the_proc_lookup _ _ _ Hq).
  apply total_when; [intros Hr|intros _; exact HJ].
  unfold proc_ready in Hn. rewrite Hr in Hn. simpl in Hn. kgo.
  eapply total_mono; [|apply (for_each_total (idle x s0)); [exact HJ|]].
  - intros _ ? (m' & -> & Hm'). eapply kset_cproc_total; [exact Hm'|done|].
    intros m2 Hm2. exists m2. split; [reflexivity|]. rewrite <- Hx in Hm2. now destruct x.
  - intros t s' _ HJ'. eapply run_thread_skip; [exact HJ'|]. eapply thread_not_ready; [exact Hq|].
    intros th Hth. apply not_true_is_false. intros Hy. apply not_true_iff_false in Hn. apply Hn.
    apply existsb_exists. exists th. split; [|exact Hy]. apply list_elem_of_In. eauto using list_elem_of_lookup_2.
Qed.

Lemma pick_Some ps p t : pick ps = Some (p, t) ->
  exists q th, ps !! p = Some q /\ p_threads q !! t = Some th /\ p_state q = RUNNABLE /\ th_state th = RUNNABLE /\
    (forall p' q', (p' < p)%nat -> ps !! p' = Some q' -> proc_ready q' = false) /\
    (forall t' th', (t' < t)%nat -> p_threads q !! t' = Some th' -> thread_ready th' = false).
Proof.
  unfold pick. destruct (find_idx proc_ready ps) as [p0|] eqn:Hp; [|discriminate].
  apply find_idx_Some in Hp as ((q & Hq & Hr) & Hlt). rewrite Hq.
  destruct (find_idx thread_ready (p_threads q)) as [t0|] eqn:Ht; [|discriminate].
  apply find_idx_Some in Ht as ((th & Hth & Hrt) & Hltt). intros [= <- <-].
  apply andb_true_iff in Hr as [Hr _]. apply bool_decide_eq_true in Hr, Hrt. eauto 10.
Qed.

Lemma pick_None ps p q : pick ps = None -> ps !! p = Some q -> proc_ready q = false.
Proof.
  unfold pick. destruct (find_idx proc_ready ps) as [p0|] eqn:Hp.
  - pose proof Hp as Hp'. apply find_idx_Some in Hp' as ((q0 & Hq & Hr) & _). rewrite Hq.
    destruct (find_idx thread_ready (p_threads q0)) eqn:Ht; [discriminate|].
    apply find_idx_None in Ht. apply andb_true_iff in Hr as [_ Hr].
    apply existsb_exists in Hr as (th & Hin & Hy). apply list_elem_of_In in Hin.
    eapply Forall_forall in Ht; [|exact Hin]. congruence.
  - intros _ Hq. apply find_idx_None in Hp. eapply Forall_lookup in Hp; [exact Hp|exact Hq].
Qed.

Lemma run_proc_yields kpg x p t q th s0 s :
  idle x s0 s -> table_ok s0 -> Forall loadable (k_procs s0) ->
  k_procs s0 !! p = Some q -> p_threads q !! t = Some th -> p_state q = RUNNABLE -> th_state th = RUNNABLE ->
  (forall t' th', (t' < t)%nat -> p_threads q !! t' = Some th' -> thread_ready th' = false) ->
  yields (run_proc kpg (x_cpu x) p) s (fun s' _ =>
    exists m' c, s' = with_mach m' (upd_proc p (dispatch t) s0) /\
      mst (mkExe (x_cpu x) (x_ie x) (Some p) (Some (p, t))) {[PTABLE_LOCK]} m' /\ on_cpu m' c /\
      c_esp0 c = u32 (th_kstack th + KSTACKSIZE) /\ c_cr3 c = V2P (p_pgdir q)).
Proof.
  intros HJ [_ Hsh] Hload Hq Hth Hqs Hths Hbefore. unfold run_proc. kgo. pose proof HJ as (m & -> & Hm).
  change (the_proc p (with_mach m s0)) with (the_proc p s0). rewrite (the_proc_lookup _ _ _ Hq).
  rewrite bool_decide_eq_true_2 by done. cbn [when]. apply yields_bind.
  assert (Ht : (t < NTHREAD)%nat).
  { eapply Forall_lookup in Hsh as [<- _]; [|exact Hq]. eauto using lookup_lt_Some. }
  rewrite (seq_split NTHREAD t Ht). apply (for_each_yields (idle x s0)); [exact HJ| |].
  - intros t' s' Ht' HJ'. apply elem_of_seq in Ht'. eapply run_thread_skip; [exact HJ'|].
    eapply thread_not_ready; [exact Hq|]. intros th' Hth'. eapply Hbefore; [|exact Hth']. lia.
  - intros s' (m' & -> & Hm').
    eapply Forall_lookup in Hload; [|exact Hq]. destruct (Hload Hqs) as [Hpg Hks].
    eapply Forall_lookup in Hks; [|exact Hth].
    eapply yields_mono; [|eapply (run_thread_yields kpg x (with_mach m' s0) p t q th); eauto].
    intros s1 k [(m1 & c & -> & H1) _]. exists m1, c. split; [reflexivity|exact H1].
Qed.

Lemma scheduler_round_yields kpg x s p t q th :
  mst x ∅ (k_mach s) -> x_proc x = None -> table_ok s -> Forall loadable (k_procs s) ->
  k_procs s !! p = Some q -> p_threads q !! t = Some th -> p_state q = RUNNABLE -> th_state th = RUNNABLE ->
  (forall p' q', (p' < p)%nat -> k_procs s !! p' = Some q' -> proc_ready q' = false) ->
  (forall t' th', (t' < t)%nat -> p_threads q !! t' = Some th' -> thread_ready th' = false) ->
  yields (scheduler_round kpg (x_cpu x)) s (fun s' _ =>
    exists m' c, s' = with_mach m' (upd_proc p (dispatch t) s) /\
      mst (mkExe (x_cpu x) true (Some p) (Some (p, t))) {[PTABLE_LOCK]} m' /\ on_cpu m' c /\
      c_esp0 c = u32 (th_kstack th + KSTACKSIZE) /\ c_cr3 c = V2P (p_pgdir q)).
Proof.
  intros Hm Hx Hok Hload Hq Hth Hqs Hths Hpb Htb. unfold scheduler_round. krun ksti_total. intros m1 H1.
  krun kacquire_total; [kset|kset|]. intros m2 H2. rewrite union_empty_r_L in H2. apply yields_bind.
  assert (Hp : (p < NPROC)%nat) by (destruct Hok as [<- _]; eauto using lookup_lt_Some).
  rewrite (seq_split NPROC p Hp).
  apply (for_each_yields (idle (resume_exe x true) s)); [now exists m2| |].
  - intros p' s' Hp' HJ. apply elem_of_seq in Hp'.
    destruct (lookup_lt_is_Some_2 (k_procs s) p') as [q' Hq']; [destruct Hok; lia|].
    eapply (run_proc_skip kpg (resume_exe x true)); eauto. eapply Hpb; [|exact Hq']. lia.
  - intros s' HJ. now eapply (run_proc_yields kpg (resume_exe x true)).
Qed.

Lemma scheduler_round_idle kpg x s :
  mst x ∅ (k_mach s) -> x_proc x = None -> table_ok s -> pick (k_procs s) = None ->
  total (scheduler_round kpg (x_cpu x)) s (fun _ s' =>
    exists m', s' = with_mach m' s /\ mst (resume_exe x true) ∅ m').
Proof.
  intros Hm Hx Hok Hpick. unfold scheduler_round. krun ksti_total. intros m1 H1.
  krun kacquire_total; [kset|kset|]. intros m2 H2. rewrite union_empty_r_L in H2. apply total_bind.
  eapply total_mono; [|apply (for_each_total (idle (resume_exe x true) s)); [now exists m2|]].
  - intros _ ? (m3 & -> & H3). eapply krelease_total; [exact H3|kset|]. intros m4 H4.
    exists m4. split; [reflexivity|]. now rewrite difference_diag_L in H4.
  - intros p' s' Hp' HJ. apply elem_of_seq in Hp'.
    destruct (lookup_lt_is_Some_2 (k_procs s) p') as [q' Hq']; [destruct Hok; lia|].
    eapply (run_proc_skip kpg (resume_exe x true)); eauto using pick_None.
Qed.

(** C12. A round of the scheduler: with interrupts enabled it takes
    [ptable.lock] and runs the first RUNNABLE thread of the first RUNNABLE
    process that has one, marking both RUNNING, with that thread's kernel
    stack and that process's page directory loaded and nothing but
    [ptable.lock] held; when no thread can run it releases the lock and leaves
    the table as it was. *)
Theorem scheduler_runs_first (kpg : Z) (x : exe) (s : kstate E) :
  mst x ∅ (k_mach s) -> x_proc x = None -> table_ok s -> Forall loadable (k_procs s) ->
  match pick (k_procs s) with
  | Some (p, t) =>
      exists m' c k, scheduler_round kpg (x_cpu x) s = Switch (with_mach m' (upd_proc p (dispatch t) s)) k /\
        mst (mkExe (x_cpu x) true (Some p) (Some (p, t))) {[PTABLE_LOCK]} m' /\ on_cpu m' c /\
        c_esp0 c = u32 (th_kstack (the_thread (p, t) s) + KSTACKSIZE) /\ c_cr3 c = V2P (p_pgdir (the_proc p s))
  | None => exists m', scheduler_round kpg (x_cpu x) s = Done tt (with_mach m' s) /\ mst (resume_exe x true) ∅ m'
  end.
Proof.
  intros Hm Hx Hok Hload.
  destruct (pick (k_procs s)) as [[p t]|] eqn:Hpick.
  - apply pick_Some in Hpick as (q & th & Hq & Hth & Hqs & Hths & Hpb & Htb).
    assert (Hy := scheduler_round_yields kpg x s p t q th Hm Hx Hok Hload Hq Hth Hqs Hths Hpb Htb).
    apply yields_switch in Hy as (s' & k & Hrun & m' & c & -> & Hrest). exists m', c, k.
    rewrite (the_proc_lookup _ _ _ Hq), (the_thread_at (p, t) s th) by now exists q. done.
  - assert (Ht := scheduler_round_idle kpg x s Hm Hx Hok Hpick).
    apply total_done in Ht as ([] & s' & Hrun & m' & -> & Hm'). eauto.
Qed.

(** ** Waking *)
Lemma wake_proc_asleep ch q i th :
  wakeable (p_state q) = true -> p_threads q !! i = Some th -> sleeping_on ch th = true ->
  p_state (wake_proc ch q) = RUNNABLE /\ p_threads (wake_proc ch q) !! i = Some (set_state RUNNABLE th).
Proof.
  intros Hw Hi Hs. unfold wake_proc. rewrite Hw. simpl. split.
  - replace (existsb _ _) with true; [reflexivity|]. symmetry. apply existsb_exists. exists th.
    split; [apply list_elem_of_In; eauto using list_elem_of_lookup_2|done].
  - rewrite list_lookup_fmap, Hi. simpl. unfold wake_thread. now rewrite Hs.
Qed.

Lemma fall_asleep_thread p i ch q th :
  p_threads q !! i = Some th ->
  p_threads (fall_asleep p i ch q) !! i = Some (set_state SLEEPING (set_chan ch th)).
Proof. intros Hi. unfold fall_asleep. simpl. now rewrite list_lookup_alter_eq, Hi. Qed.

(** [sleep] run without interruption.  A thread that calls it with its
    condition's lock held gives up the processor holding [ptable.lock] alone,
    already marked SLEEPING on the channel, so a [wakeup1] on that channel from
    then on makes it and its process RUNNABLE; when it runs again, on whatever
    processor, [sleep] returns with the channel cleared, the condition's lock
    held and nothing else, and the interrupt flag the caller had.  SleepSys
    shows that no wakeup is lost before that. *)
Theorem sleep_then_wakeup1 (x : exe) (s : kstate E) (p i lk : nat) (ch : chan) (q : proc) (th : thread) :
  mst x {[lk]} (k_mach s) -> x_proc x = Some p -> x_thread x = Some (p, i) ->
  k_procs s !! p = Some q -> p_threads q !! i = Some th ->
  exists m' k, let s' := with_mach m' (upd_proc p (fall_asleep p i ch) s) in
    sleep ch (Some lk) s = Switch s' k /\ mst x {[PTABLE_LOCK]} m' /\
    (exists s1 q1, wakeup1 ch s' = Done tt s1 /\ k_procs s1 !! p = Some q1 /\ p_state q1 = RUNNABLE /\
       p_threads q1 !! i = Some (set_state RUNNABLE (set_chan ch th))) /\
    (forall x2 s2, mst x2 {[PTABLE_LOCK]} (k_mach s2) ->
       exists m3, k s2 = Done tt (with_mach m3 (upd_thread (p, i) (set_chan CNull) s2)) /\
         mst (resume_exe x2 (x_ie x)) {[lk]} m3).
Proof.
  intros Hm Hp Ht Hq Hth. pose proof (sleep_yields x s p i ch lk q th Hm Hp Ht Hq Hth) as Hy.
  apply yields_switch in Hy as (s' & k & Hrun & (m' & -> & Hm') & Hk). exists m', k.
  split; [exact Hrun|]. split; [exact Hm'|]. split.
  - eexists _, (wake_proc ch (fall_asleep p i ch q)). split; [reflexivity|]. split.
    + simpl. now rewrite list_lookup_fmap, list_lookup_alter_eq, Hq.
    + apply (wake_proc_asleep ch _ i (set_state SLEEPING (set_chan ch th))); [|now apply fall_asleep_thread|].
      * unfold fall_asleep. simpl. now destruct (others_active _ _ _).
      * unfold sleeping_on. simpl. now rewrite !bool_decide_eq_true_2 by done.
  - intros x2 s2 H2. specialize (Hk x2 s2 H2). unfold total in Hk. destruct (k s2) as [[] s3| | |]; try done.
    destruct Hk as (m3 & -> & H3). eauto.
Qed.

(** ** The process state agrees with the threads' *)
Lemma pwf_other q : p_state q <> SLEEPING -> p_state q <> RUNNING -> pwf q.
Proof. intros H1 H2. split; intros H; contradiction. Qed.

Lemma existsb_false_Forall {A} (f : A -> bool) l : existsb f l = false -> Forall (fun a => f a = false) l.
Proof. induction l as [|a l IH]; simpl; [constructor|]. intros [Ha Hl]%orb_false_iff. constructor; auto. Qed.

Lemma wake_none ch ts : existsb (sleeping_on ch) ts = false -> wake_thread ch <$> ts = ts.
Proof.
  intros H%existsb_false_Forall. induction H as [|t ts Ht _ IH]; [reflexivity|].
  rewrite fmap_cons, IH. unfold wake_thread. now rewrite Ht.
Qed.

Lemma pwf_wake ch q : pwf q -> pwf (wake_proc ch q).
Proof.
  intros Hq. unfold wake_proc. destruct (wakeable (p_state q)); [|exact Hq].
  destruct (existsb (sleeping_on ch) (p_threads q)) eqn:He; [now apply pwf_other|].
  rewrite (wake_none _ _ He). now destruct q.
Qed.

Lemma pwf_kill q : pwf q -> pwf (kill_proc q).
Proof.
  intros Hq. unfold kill_proc. simpl. destruct (decide (p_state q = SLEEPING)) as [Hs|Hs].
  - rewrite bool_decide_eq_true_2 by done. destruct (find_idx _ _); now apply pwf_other.
  - rewrite bool_decide_eq_false_2 by done. exact Hq.
Qed.

Lemma others_inactive p i ts :
  others_active p (p, i) ts = false -> forall j t, ts !! j = Some t -> j <> i -> active (th_state t) = false.
Proof.
  intros Ho%existsb_false_Forall j t Hj Hne.
  eapply Forall_lookup in Ho; [|rewrite list_lookup_imap, Hj; reflexivity]. simpl in Ho.
  rewrite bool_decide_eq_false_2 in Ho by congruence. exact Ho.
Qed.

Lemma pwf_fall_asleep p i ch q : pwf (fall_asleep p i ch q).
Proof.
  unfold fall_asleep. destruct (others_active p (p, i) (p_threads q)) eqn:Ho; [now apply pwf_other|].
  split; [|discriminate]. intros _. simpl. apply Forall_lookup. intros j t Hj.
  destruct (decide (j = i)) as [->|Hne].
  - rewrite list_lookup_alter_eq in Hj. destruct (p_threads q !! i); simplify_eq/=. reflexivity.
  - rewrite list_lookup_alter_ne in Hj by done. eauto using others_inactive.
Qed.

Lemma pwf_dispatch t q th : p_threads q !! t = Some th -> pwf (dispatch t q).
Proof.
  intros Ht. split; [discriminate|]. intros _. apply Exists_exists. exists (set_state RUNNING th).
  split; [|reflexivity]. eapply (list_elem_of_lookup_2 _ t). simpl. now rewrite list_lookup_alter_eq, Ht.
Qed.

Lemma Forall_alter {A} (P : A -> Prop) f i l :
  Forall P l -> (forall a, l !! i = Some a -> P (f a)) -> Forall P (alter f i l).
Proof.
  intros Hl Hf. apply Forall_lookup. intros j a Hj. destruct (decide (j = i)) as [->|Hne].
  - rewrite list_lookup_alter_eq in Hj. destruct (l !! i) as [b|] eqn:El; simplify_eq/=. now apply Hf.
  - rewrite list_lookup_alter_ne in Hj by done. eapply Forall_lookup; eauto.
Qed.

Definition cede (i : nat) (q : proc) : proc :=
  on_thread i (set_state RUNNABLE) (set_p_state RUNNABLE q).

Lemma yield_yields x s p i q th :
  mst x ∅ (k_mach s) -> x_proc x = Some p -> x_thread x = Some (p, i) ->
  k_procs s !! p = Some q -> p_threads q !! i = Some th ->
  yields yield s (fun s' k =>
    (exists m', s' = with_mach m' (upd_proc p (cede i) s) /\ mst x {[PTABLE_LOCK]} m') /\
    forall x2 s2, mst x2 {[PTABLE_LOCK]} (k_mach s2) ->
      total k s2 (fun _ s3 => exists m3, s3 = with_mach m3 s2 /\ mst (resume_exe x2 (x_ie x)) ∅ m3)).
Proof.
  intros Hm Hp Ht Hq Hth. unfold yield, yield_code. cbn [run].
  krun kacquire_total; [kset|kset|]. intros m1 H1. rewrite union_empty_r_L in H1.
  krun myproc_total; [kset|]. intros m2 H2. kgo.
  apply yields_bind_total. eapply mythread_total; [exact H2|kset|]. intros m3 H3. kgo.
  rewrite upd_thread_proc. change (upd_proc p ?f (with_mach m3 (upd_proc p ?g ?s0)))
    with (with_mach m3 (upd_proc p f (upd_proc p g s))). rewrite upd_proc_comp.
  change (fun q0 => on_thread i _ _) with (cede i).
  apply yields_bind. eapply yields_mono; [|eapply (sched_yields x _ p (p, i)); [exact H3|done..| |]].
  - intros s' k ((m' & -> & Hm') & Hk). split; [exists m'; split; [reflexivity|exact Hm']|].
    intros x2 s2 H2'. apply (total_bind k). eapply total_mono; [|apply (Hk _ x2 s2 H2')].
    intros _ ? (m4 & -> & H4). krun krelease_total; [kset|]. intros m5 H5.
    exists m5. split; [reflexivity|]. now rewrite difference_diag_L in H5.
  - change (the_proc p (with_mach ?m ?s0)) with (the_proc p s0).
    rewrite (the_proc_upd _ _ _ q) by exact Hq. discriminate.
  - autorewrite with kstate. erewrite the_thread_upd_proc; [|exact Hq|]; [|apply (lookup_on_thread i _ (set_p_state RUNNABLE q)), Hth].
    discriminate.
Qed.

Lemma kill_run x s pid :
  mst x ∅ (k_mach s) ->
  total (kill pid) s (fun r s' => exists m', mst x ∅ m' /\
    match find_idx (fun q => p_pid q =? pid) (k_procs s) with
    | Some p => r = 0 /\ s' = with_mach m' (upd_proc p kill_proc s)
    | None => r = -1 /\ s' = with_mach m' s
    end).
Proof.
  intros Hm. unfold kill. krun kacquire_total; [kset|kset|]. intros m1 H1. kgo.
  change (k_procs (with_mach m1 s)) with (k_procs s).
  destruct (find_idx _ (k_procs s)) as [p|]; kgo; (eapply krelease_total; [exact H1|kset|]);
    intros m2 H2; exists m2; (split; [|split; reflexivity]);
    now replace (∅ : gset nat) with (({[PTABLE_LOCK]} ∪ ∅) ∖ {[PTABLE_LOCK]} : gset nat) by kset.
Qed.

Lemma wakeup_total n x hs s ch (Q : unit -> kstate E -> Prop) :
  mst_at n x hs (k_mach s) -> PTABLE_LOCK ∉ hs -> (n + size hs < 8)%nat ->
  (forall m', mst_at n x hs m' -> Q tt (with_mach m' (set_k_procs (wake_proc ch <$> k_procs s) s))) ->
  total (wakeup ch) s Q.
Proof.
  intros Hm Hn Hsz HQ. unfold wakeup, wakeup_code, wakeup1. cbn [run]. krun kacquire_total; [done|done|]. intros m1 H1. kgo.
  eapply krelease_total; [exact H1|set_solver|]. intros m2 H2. apply total_ret, HQ.
  now replace hs with (({[PTABLE_LOCK]} ∪ hs) ∖ {[PTABLE_LOCK]} : gset nat) by set_solver.
Qed.

Lemma wakeup_run x s ch :
  mst x ∅ (k_mach s) ->
  total (wakeup ch) s (fun _ s' => exists m', mst x ∅ m' /\
    s' = with_mach m' (set_k_procs (wake_proc ch <$> k_procs s) s)).
Proof. intros Hm. eapply wakeup_total; [exact Hm|kset|kset|]. eauto. Qed.

(** C13. The state of a process agrees with its threads' in every state the
    scheduler sees: [wakeup] and [kill] keep the invariant, [sleep] and
    [yield] hand it over to the scheduler, and dispatching a thread keeps it;
    so a RUNNABLE thread is never hidden in a SLEEPING process. *)
Theorem process_state_agrees (x : exe) (s : kstate E) (p i : nat) (q : proc) (th : thread) :
  Forall pwf (k_procs s) -> k_procs s !! p = Some q -> p_threads q !! i = Some th ->
  (forall ch, mst x ∅ (k_mach s) -> exists s', wakeup ch s = Done tt s' /\ Forall pwf (k_procs s')) /\
  (forall pid, mst x ∅ (k_mach s) -> exists r s', kill pid s = Done r s' /\ Forall pwf (k_procs s')) /\
  (x_proc x = Some p -> x_thread x = Some (p, i) ->
     (forall ch lk, mst x {[lk]} (k_mach s) -> exists s' k, sleep ch (Some lk) s = Switch s' k /\ Forall pwf (k_procs s')) /\
     (mst x ∅ (k_mach s) -> exists s' k, yield s = Switch s' k /\ Forall pwf (k_procs s'))) /\
  (forall kpg, mst x {[PTABLE_LOCK]} (k_mach s) -> th_state th = RUNNABLE -> th_kstack th <> 0 -> p_pgdir q <> 0 ->
     exists s' k, run_thread kpg (x_cpu x) p i s = Switch s' k /\ Forall pwf (k_procs s')).
Proof.
  intros HF Hq Hth. split; [|split; [|split]].
  - intros ch Hm. destruct (total_done _ _ _ (wakeup_run x s ch Hm)) as ([] & s' & Hr & m' & _ & ->).
    eexists. split; [exact Hr|]. simpl. apply Forall_fmap. eapply Forall_impl; [exact HF|]. intros; now apply pwf_wake.
  - intros pid Hm. destruct (total_done _ _ _ (kill_run x s pid Hm)) as (r & s' & Hr & m' & _ & Hs').
    exists r, s'. split; [exact Hr|]. destruct (find_idx _ _) as [p0|]; destruct Hs' as [_ ->]; [|exact HF].
    simpl. apply Forall_alter; [exact HF|]. intros q0 H0. apply pwf_kill. eapply Forall_lookup; eauto.
  - intros Hp Ht. split.
    + intros ch lk Hm. destruct (yields_switch _ _ _ (sleep_yields x s p i ch lk q th Hm Hp Ht Hq Hth))
        as (s' & k & Hr & (m' & -> & _) & _). do 2 eexists. split; [exact Hr|].
      simpl. apply Forall_alter; [exact HF|]. intros. apply pwf_fall_asleep.
    + intros Hm. destruct (yields_switch _ _ _ (yield_yields x s p i q th Hm Hp Ht Hq Hth))
        as (s' & k & Hr & (m' & -> & _) & _). do 2 eexists. split; [exact Hr|].
      simpl. apply Forall_alter; [exact HF|]. intros. now apply pwf_other.
  - intros kpg Hm Hst Hks Hpg.
    destruct (yields_switch _ _ _ (run_thread_yields kpg x s p i q th Hm Hq Hth Hst Hks Hpg))
      as (s' & k & Hr & (m' & c & -> & _) & _). do 2 eexists. split; [exact Hr|].
    simpl. apply Forall_alter; [exact HF|]. intros q' Hq'. apply (pwf_dispatch i q' th). congruence.
Qed.

End Sched.

(** ** A concrete table: process 0 with two threads *)
Definition demo_thread (st : states) (ch : chan) (tid : Z) : thread :=
  mkThread ch tid 0 st 0x80117f9c 0x80117000 0x80117fb4 None (Some 0%nat) 0 tf_zero ctx_zero 0.
Definition demo_proc (ps ts : states) : proc :=
  mkProc 0x4000 0x80118000 ps 1 None 0 (replicate NOFILE None) (Some 0%nat)
    (demo_thread ts CNull 0 :: demo_thread RUNNABLE CNull 1 :: replicate 14 thread0)
    (Some PTABLE_LOCK) (replicate MAX_MUTEXES 0) (replicate 16 0).
Definition demo (x : exe) (hs : gset nat) (ps ts : states) : kstate unit :=
  mkK (mkKst (one_cpu x hs) (mkKmem true 0 ∅ 0x80115000))
    (demo_proc ps ts :: replicate 63 proc0) (replicate MAX_MUTEXES mutex0) (Some 0%nat) 2 false tt.
Definition demo_exe : exe := mkExe 0 true (Some 0%nat) (Some (0%nat, 0%nat)).
Definition idle_exe : exe := mkExe 0 false None None.

Lemma demo_mst x hs ps ts : x_cpu x = 0%nat -> (size hs <= 8)%nat -> mst x hs (k_mach (demo x hs ps ts)).
Proof. apply one_cpu_mst. Qed.

Lemma demo_table x hs ps ts : table_ok (demo x hs ps ts).
Proof.
  split; [reflexivity|]. apply Forall_cons. split; [repeat split|].
  apply Forall_replicate. repeat split.
Qed.

Lemma demo_loadable x hs ps ts : Forall loadable (k_procs (demo x hs ps ts)).
Proof.
  apply Forall_cons. split; [|apply Forall_replicate; discriminate].
  intros _. split; [discriminate|]. apply Forall_cons. split; [discriminate|].
  apply Forall_cons. split; [discriminate|]. apply Forall_replicate. discriminate.
Qed.

Lemma demo_pwf x hs : Forall pwf (k_procs (demo x hs RUNNING RUNNING)).
Proof.
  apply Forall_cons. split; [|apply Forall_replicate; now apply pwf_other].
  split; [discriminate|]. intros _. constructor. reflexivity.
Qed.

Lemma scheduler_runs_first_witness :
  exists m' c k,
    scheduler_round 0x80119000 0 (demo idle_exe ∅ RUNNABLE SLEEPING) =
      Switch (with_mach m' (upd_proc 0 (dispatch 1) (demo idle_exe ∅ RUNNABLE SLEEPING))) k /\
    mst (mkExe 0 true (Some 0%nat) (Some (0, 1)%nat)) {[PTABLE_LOCK]} m' /\ on_cpu m' c /\
    c_esp0 c = 0x80118000 /\ c_cr3 c = 0x118000.
Proof.
  pose proof (scheduler_runs_first 0x80119000 idle_exe (demo idle_exe ∅ RUNNABLE SLEEPING)
    (demo_mst idle_exe ∅ _ _ eq_refl ltac:(kset)) eq_refl (demo_table _ _ _ _) (demo_loadable _ _ _ _)) as H.
  exact H.
Defined.

Lemma process_state_agrees_witness :
  exists s' k, sleep (CObj 77) (Some 5%nat) (demo demo_exe {[5%nat]} RUNNING RUNNING) = Switch s' k /\
    Forall pwf (k_procs s').
Proof.
  destruct (process_state_agrees demo_exe (demo demo_exe {[5%nat]} RUNNING RUNNING) 0 0 _ _
    (demo_pwf _ _) eq_refl eq_refl) as (_ & _ & H & _).
  apply (H eq_refl eq_refl). apply demo_mst; [reflexivity|kset].
Defined.
