(* ===== verification/SleepSys.v ===== *)
(** * sleep and wakeup on several processors (proc.c)

    The contract of [sleep] and [wakeup]: a condition that lives in [k_ext] and
    is protected by a spin lock [lk].  Any number of threads, on any number of
    processors, wait for the condition in the loop every caller of [sleep]
    uses, or change the state it depends on and call [wakeup], or yield; the
    schedulers of the processors switch between them.  The atomic actions are
    those of [sleep_code], [wakeup_code] and [yield_code]: an [acquire] (which
    SpinSys justifies), a [release], one store to the table, one test.  [Inv]
    describes the shared state by a ghost value per processor; [typed] says that
    a piece of code keeps [Inv] whatever the other processors do between its
    actions, also when the thread gives up the processor and goes on elsewhere. *)
From S2P Require Import Prelude Code Mmu Str Spinlock Kalloc Proc Exec Sched.

Section System.
Context {E : Type} {X : KernelExt E}.
Context (lk : nat) (ch : chan) (kpg : Z) (cond : E -> bool) (put take : E -> E).
Implicit Types (s : kstate E) (t : nat * nat) (ps : list proc).

(** ** The clients *)
Definition upd_ext (f : E -> E) (s : kstate E) : kstate E := set_k_ext (f (k_ext s)) s.

(** [while(!cond) sleep(ch, &lk);] with at most [n] turns. *)
Fixpoint wait_until (n : nat) : kcode (kstate E) unit :=
  (ok <~ gets (fun s => cond (k_ext s)) ;;
   if (ok : bool) then KRet tt
   else match n with
        | O => (fun _ => @Spin (kstate E) unit) ;;; KRet tt
        | S n => _ <-- sleep_code ch (Some lk) ;; wait_until n
        end)%code.

Inductive client := Wait (n : nat) | Wake | Yield.
Definition client_code (c : client) : kcode (kstate E) unit :=
  match c with
  | Wait n => (kacquire lk ;;; _ <-- wait_until n ;; modify (upd_ext take) ;;; krelease lk ;;; KRet tt)%code
  | Wake => (kacquire lk ;;; modify (upd_ext put) ;;; _ <-- wakeup_code ch ;; krelease lk ;;; KRet tt)%code
  | Yield => yield_code
  end.

(** What a processor does: it runs the thread [t], which has still to run [c],
    while its scheduler waits in [ks]; or the scheduler runs, with [ptable.lock]
    held or between two rounds. *)
Inductive job :=
| Run (t : nat * nat) (c : kcode (kstate E) unit) (ks : kstate E -> prog (kstate E) unit)
| Scheduling
| Between.

Definition suspended : Type := kstate E -> prog (kstate E) (kcode (kstate E) unit).
Record sys := mkSys { y_k : kstate E; y_jobs : list job; y_pool : gmap (nat * nat) suspended }.

Definition cur (i : nat) (s : kstate E) : kstate E := with_mach (at_cpu i (k_mach s)) s.

(** A thread that has never run starts in [forkret]. *)
Definition fresh : suspended := fun s => Done (krelease PTABLE_LOCK ;;; KRet tt)%code s.

Inductive sstep : sys -> sys -> Prop :=
| s_call s js pool i t ks cl :
    js !! i = Some (Run t (KRet tt) ks) ->
    sstep (mkSys s js pool) (mkSys s (<[i := Run t (client_code cl) ks]> js) pool)
| s_act s js pool i t c ks c' s' :
    js !! i = Some (Run t c ks) -> kstep c (cur i s) = Done c' s' ->
    sstep (mkSys s js pool) (mkSys s' (<[i := Run t c' ks]> js) pool)
| s_switch s js pool i t c ks kk s1 s2 :
    js !! i = Some (Run t c ks) -> kstep c (cur i s) = Switch s1 kk -> ks s1 = Done tt s2 ->
    sstep (mkSys s js pool) (mkSys s2 (<[i := Scheduling]> js) (<[t := kk]> pool))
| s_dispatch s js pool i t kk s1 ks c s2 :
    js !! i = Some Scheduling -> pool !! t = Some kk ->
    run_thread kpg i t.1 t.2 (cur i s) = Switch s1 ks -> kk s1 = Done c s2 ->
    sstep (mkSys s js pool) (mkSys s2 (<[i := Run t c ks]> js) (delete t pool))
| s_no_proc s js pool i s' :
    js !! i = Some Scheduling -> on_cpus (modify (upd_cpu i (set_cproc None))) (cur i s) = Done tt s' ->
    sstep (mkSys s js pool) (mkSys s' js pool)
| s_unlock s js pool i s' :
    js !! i = Some Scheduling -> krelease PTABLE_LOCK (cur i s) = Done tt s' ->
    sstep (mkSys s js pool) (mkSys s' (<[i := Between]> js) pool)
| s_lock s js pool i s' :
    js !! i = Some Between -> (on_cpus sti ;;; kacquire PTABLE_LOCK) (cur i s) = Done tt s' ->
    sstep (mkSys s js pool) (mkSys s' (<[i := Scheduling]> js) pool).

(** ** The threads in the table *)
Definition thread_in (ps : list proc) (t : nat * nat) (q : proc) (th : thread) : Prop :=
  ps !! t.1 = Some q /\ p_threads q !! t.2 = Some th.

(** A thread that the scheduler can run once it is RUNNABLE. *)
Definition alive (ps : list proc) (t : nat * nat) (P : thread -> Prop) : Prop :=
  exists q th, thread_in ps t q th /\ wakeable (p_state q) = true /\ p_pgdir q <> 0 /\ th_kstack th <> 0 /\ P th.

Lemma alive_mono ps t (P P' : thread -> Prop) : (forall th, P th -> P' th) -> alive ps t P -> alive ps t P'.
Proof. intros H (q & th & Hin & Hw & Hp & Hk & HP). exists q, th. auto 10. Qed.

Definition no_sleeper (ps : list proc) : Prop :=
  forall t q th, thread_in ps t q th -> sleeping_on ch th = false.

(** At the start every processor is between two rounds, no lock is held, no
    thread sleeps on [ch], and the threads of the pool are new and RUNNABLE. *)
Definition sys_start (y : sys) : Prop :=
  (forall i jb, y_jobs y !! i = Some jb -> jb = Between /\
     exists ie pr, mst (mkExe i ie pr None) ∅ (at_cpu i (k_mach (y_k y)))) /\
  (forall a, lock_free a (k_mach (y_k y))) /\
  no_sleeper (k_procs (y_k y)) /\
  (forall t kk, y_pool y !! t = Some kk -> kk = fresh /\ alive (k_procs (y_k y)) t (fun th => th_state th = RUNNABLE)).

(** ** The invariant
    The ghost value of a processor: what it executes, the locks it holds and the
    thread that runs on it; the table and the state of the condition, as long as
    it holds the lock that protects them; whether it has changed that state and
    has still to wake the sleepers ([g_pend]); and whether it has found the
    condition false and is about to sleep ([g_com]). *)
Record ghost := mkGhost {
  g_x : exe;
  g_hs : gset nat;
  g_run : option (nat * nat);
  g_tab : option (list proc);
  g_ext : option E;
  g_pend : bool;
  g_com : bool;
}.

Definition anyone : others := mkOthers (fun _ _ => True) (fun _ _ => True).
Definition frozen (m : mach) : others := mkOthers (fun a l => l = the_lock a m) (fun j c => c = m_cpus m !! j).

Record gwf (g : ghost) : Prop := {
  gwf_tab : forall ps, g_tab g = Some ps -> PTABLE_LOCK ∈ g_hs g;
  gwf_ext : forall e, g_ext g = Some e -> lk ∈ g_hs g;
  gwf_pend : g_pend g = true -> lk ∈ g_hs g;
  gwf_com : g_com g = true -> PTABLE_LOCK ∈ g_hs g;
  gwf_run : forall t, g_run g = Some t -> x_proc (g_x g) = Some t.1 /\ x_thread (g_x g) = Some t;
}.

Record InvM (m : mach) (gs : list ghost) : Prop := {
  im_cpu : forall i g, gs !! i = Some g -> x_cpu (g_x g) = i /\ mst_at (W := anyone) 0 (g_x g) (g_hs g) (at_cpu i m);
  im_free : forall a, (forall i g, gs !! i = Some g -> a ∉ g_hs g) -> lock_free a m;
}.

Record InvL (ps : list proc) (e : E) (gs : list ghost) (sus : gset (nat * nat)) : Prop := {
  il_wf : forall i g, gs !! i = Some g -> gwf g;
  il_tab : forall i g ps', gs !! i = Some g -> g_tab g = Some ps' -> ps' = ps;
  il_ext : forall i g e', gs !! i = Some g -> g_ext g = Some e' -> e' = e;
  il_run : forall i g t, gs !! i = Some g -> g_run g = Some t ->
    t ∉ sus /\ alive ps t (fun th => g_tab g = None -> th_state th = RUNNING);
  il_one : forall i j g g' t, gs !! i = Some g -> gs !! j = Some g' -> g_run g = Some t -> g_run g' = Some t -> i = j;
  il_sus : forall t, t ∈ sus -> alive ps t (fun th => th_state th = RUNNABLE \/ sleeping_on ch th = true);
  il_wake : forall t q th, thread_in ps t q th -> sleeping_on ch th = true -> wakeable (p_state q) = true;
  il_cond : cond e = true -> (forall i g, gs !! i = Some g -> g_pend g = false) ->
    (forall i g, gs !! i = Some g -> g_com g = false) /\ no_sleeper ps;
}.

Definition Inv (s : kstate E) (gs : list ghost) (sus : gset (nat * nat)) : Prop :=
  InvM (k_mach s) gs /\ InvL (k_procs s) (k_ext s) gs sus.

(** ** The machine part *)
Lemma mst_others {W W2 : others} n x hs m :
  mst_at (W := W) n x hs m -> (forall a, a ∉ hs -> o_lock (others := W2) a (the_lock a m)) ->
  (forall j, j <> x_cpu x -> o_cpu (others := W2) j (m_cpus m !! j)) -> mst_at (W := W2) n x hs m.
Proof. intros (? & ? & ? & ? & _) Hl Hc. done. Qed.

Lemma mst_frozen x hs m : mst_at (W := anyone) 0 x hs m -> mst_at (W := frozen m) 0 x hs m.
Proof. intros H. now apply (mst_others (W := anyone) _ _ _ _ H). Qed.

Lemma mst_anyone {W : others} x hs m : mst_at (W := W) 0 x hs m -> mst_at (W := anyone) 0 x hs m.
Proof. intros H. now apply (mst_others _ _ _ _ H). Qed.

(** The summary of another processor. *)
Lemma mst_elsewhere {W : others} xi hi x hs j m m' :
  mst_at (W := W) 0 xi hi m' -> mst_at (W := anyone) 0 x hs (at_cpu j m) ->
  m_cpus m' !! j = m_cpus m !! j -> (forall a, a ∈ hs -> the_lock a m' = the_lock a m) ->
  mst_at (W := anyone) 0 x hs (at_cpu j m').
Proof.
  intros (_ & _ & (ci & (_ & Hid & _) & _) & _) (Hcur & Hsz & (c & (Hc & _ & Hwf) & Hrest) & Hheld & _) Hj Hl.
  split; [exact Hcur|]. split; [exact Hsz|]. split; [|split; [|done]].
  - exists c. split; [|exact Hrest]. split; [exact (eq_trans Hj Hc)|now split].
  - intros a Ha. destruct (Hheld a Ha) as [H1 H2]. unfold held_by.
    change (the_lock a (at_cpu j m')) with (the_lock a m'). rewrite (Hl a Ha). now split.
Qed.

Lemma invM_excl m gs i j g g' a :
  InvM m gs -> gs !! i = Some g -> gs !! j = Some g' -> a ∈ g_hs g -> a ∈ g_hs g' -> i = j.
Proof.
  intros HM Hi Hj Ha Ha'. destruct (im_cpu _ _ HM i g Hi) as (Hx & _ & _ & _ & Hh & _).
  destruct (im_cpu _ _ HM j g' Hj) as (Hx' & _ & _ & _ & Hh' & _).
  destruct (Hh a Ha) as [_ H1], (Hh' a Ha') as [_ H2]. cbv [the_lock at_cpu m_locks] in *. congruence.
Qed.

Lemma invM_step m gs i g g' m' :
  InvM m gs -> gs !! i = Some g -> x_cpu (g_x g') = i -> mst_at (W := anyone) 0 (g_x g') (g_hs g') m' ->
  (forall j, j <> i -> m_cpus m' !! j = m_cpus m !! j) ->
  (forall a, a ∉ g_hs g -> a ∉ g_hs g' -> the_lock a m' = the_lock a m) ->
  (forall a, a ∉ g_hs g -> a ∈ g_hs g' -> lock_free a m) ->
  (forall a, a ∈ g_hs g -> a ∉ g_hs g' -> lock_free a m') ->
  InvM m' (<[i := g']> gs).
Proof.
  intros HM Hi Hx Hm Hcpu Hsame Hgot Hput. split.
  - intros j gj [(<- & <- & _)|[Hne Hj]]%list_lookup_insert_Some.
    + split; [exact Hx|]. pose proof Hm as (Hc & _). rewrite Hx in Hc. rewrite <- Hc. destruct m'. exact Hm.
    + destruct (im_cpu _ _ HM j gj Hj) as [Hxj Hmj]. split; [exact Hxj|].
      eapply (mst_elsewhere (W := anyone)); [exact Hm|exact Hmj|now apply Hcpu|]. intros a Ha.
      assert (Hn : a ∉ g_hs g) by (intros Ha'; apply Hne; eapply (invM_excl m gs i j); eauto).
      apply Hsame; [exact Hn|]. intros Ha'. specialize (Hgot a Hn Ha').
      destruct Hmj as (_ & _ & _ & Hheld & _). destruct (Hheld a Ha) as [H1 _].
      unfold lock_free in Hgot. cbv [the_lock at_cpu m_locks] in *. lia.
  - intros a Ha. assert (Ha' : a ∉ g_hs g').
    { apply (Ha i). apply list_lookup_insert_eq. eauto using lookup_lt_Some. }
    destruct (decide (a ∈ g_hs g)) as [Hin|Hn]; [now apply Hput|].
    unfold lock_free. rewrite (Hsame a Hn Ha'). apply (im_free _ _ HM). intros j gj Hj.
    destruct (decide (j = i)) as [->|Hne]; [now replace gj with g by congruence|].
    apply (Ha j). now rewrite list_lookup_insert_ne.
Qed.

Lemma invM_at i m gs : InvM m gs -> InvM (at_cpu i m) gs.
Proof. intros [H1 H2]. split; assumption. Qed.

Lemma inv_at i s gs sus : Inv s gs sus -> Inv (cur i s) gs sus.
Proof. intros [HM HL]. split; [exact (invM_at i _ _ HM)|exact HL]. Qed.

(** ** The tables and the condition *)
Lemma invL_set ps e gs sus i g ps' e' g' sus' :
  InvL ps e gs sus -> gs !! i = Some g -> gwf g' ->
  (forall ps0, g_tab g' = Some ps0 -> ps0 = ps') -> (forall e0, g_ext g' = Some e0 -> e0 = e') ->
  (ps' = ps \/ forall j gj, j <> i -> gs !! j = Some gj -> g_tab gj = None) ->
  (e' = e \/ forall j gj, j <> i -> gs !! j = Some gj -> g_ext gj = None) ->
  (forall t, g_run g' = Some t -> t ∉ sus' /\ alive ps' t (fun th => g_tab g' = None -> th_state th = RUNNING)) ->
  (forall j gj t, j <> i -> gs !! j = Some gj -> g_run gj = Some t ->
     t ∉ sus' /\ g_run g' <> Some t /\ alive ps' t (fun th => g_tab gj = None -> th_state th = RUNNING)) ->
  (forall t, t ∈ sus' -> alive ps' t (fun th => th_state th = RUNNABLE \/ sleeping_on ch th = true)) ->
  (forall t q th, thread_in ps' t q th -> sleeping_on ch th = true -> wakeable (p_state q) = true) ->
  (cond e' = true -> (forall j gj, j <> i -> gs !! j = Some gj -> g_pend gj = false) -> g_pend g' = false ->
     g_com g' = false /\ (forall j gj, j <> i -> gs !! j = Some gj -> g_com gj = false) /\ no_sleeper ps') ->
  InvL ps' e' (<[i := g']> gs) sus'.
Proof.
  intros HL Hi Hwf Ht He Hot Hoe Hrun Hruns Hsus Hwake Hcond. destruct HL as [Lwf Ltab Lext Lrun Lone _ _ _].
  assert (Hup : forall j gj, <[i := g']> gs !! j = Some gj -> (j = i /\ gj = g') \/ (j <> i /\ gs !! j = Some gj)).
  { intros j gj [(-> & -> & _)|[? ?]]%list_lookup_insert_Some; auto. }
  assert (Hset : <[i := g']> gs !! i = Some g') by (apply list_lookup_insert_eq; eauto using lookup_lt_Some).
  split.
  - intros j gj [[-> ->]|[_ Hj]]%Hup; [exact Hwf|eauto].
  - intros j gj ps0 [[-> ->]|[Hne Hj]]%Hup Hp; [now apply Ht|].
    destruct Hot as [->|Hot]; [eauto|]. rewrite (Hot j gj Hne Hj) in Hp. discriminate.
  - intros j gj e0 [[-> ->]|[Hne Hj]]%Hup Hp; [now apply He|].
    destruct Hoe as [->|Hoe]; [eauto|]. rewrite (Hoe j gj Hne Hj) in Hp. discriminate.
  - intros j gj t [[-> ->]|[Hne Hj]]%Hup Hr; [now apply Hrun|]. destruct (Hruns j gj t Hne Hj Hr) as (H1 & _ & H2). done.
  - intros j k gj gk t [[-> ->]|[Hne Hj]]%Hup [[-> ->]|[Hne' Hk]]%Hup Hrj Hrk; [done| | |eauto].
    + destruct (Hruns k gk t Hne' Hk Hrk) as (_ & H & _). contradiction.
    + destruct (Hruns j gj t Hne Hj Hrj) as (_ & H & _). contradiction.
  - exact Hsus.
  - exact Hwake.
  - intros Hc Hp. destruct Hcond as (H1 & H2 & H3); [exact Hc| |now apply (Hp i)|].
    + intros j gj Hne Hj. apply (Hp j). now rewrite list_lookup_insert_ne.
    + split; [|exact H3]. intros j gj [[-> ->]|[Hne Hj]]%Hup; eauto.
Qed.

(** The condition clause, with the processor [i] set apart. *)
Lemma il_cond_at ps e gs sus i g :
  InvL ps e gs sus -> gs !! i = Some g -> cond e = true ->
  (forall j gj, j <> i -> gs !! j = Some gj -> g_pend gj = false) -> g_pend g = false ->
  g_com g = false /\ (forall j gj, j <> i -> gs !! j = Some gj -> g_com gj = false) /\ no_sleeper ps.
Proof.
  intros HL Hi Hc Hp Hg. destruct (il_cond _ _ _ _ HL Hc) as [H1 H2].
  - intros j gj Hj. destruct (decide (j = i)) as [->|Hne]; [now replace gj with g by congruence|eauto].
  - split; [eauto|]. split; [eauto|exact H2].
Qed.

(** Only the ghost value changes. *)
Lemma invL_ghost ps e gs sus i g g' :
  InvL ps e gs sus -> gs !! i = Some g -> gwf g' -> g_run g' = g_run g ->
  (forall ps0, g_tab g' = Some ps0 -> ps0 = ps) -> (forall e0, g_ext g' = Some e0 -> e0 = e) ->
  (forall t, g_run g = Some t -> g_tab g' = None -> alive ps t (fun th => th_state th = RUNNING)) ->
  (cond e = true -> (forall j gj, j <> i -> gs !! j = Some gj -> g_pend gj = false) -> g_pend g' = false ->
     g_com g' = false /\ (forall j gj, j <> i -> gs !! j = Some gj -> g_com gj = false) /\ no_sleeper ps) ->
  InvL ps e (<[i := g']> gs) sus.
Proof.
  intros HL Hi Hwf Hr Ht He Hal Hc. eapply (invL_set ps e gs sus i g); try eassumption; auto.
  - intros t Hr'. rewrite Hr in Hr'. destruct (il_run _ _ _ _ HL i g t Hi Hr') as [H1 H2]. split; [exact H1|].
    destruct (g_tab g') eqn:Et; [|specialize (Hal t Hr' eq_refl); eapply alive_mono; [|exact Hal]; auto].
    eapply alive_mono; [|exact H2]. discriminate.
  - intros j gj t Hne Hj Hrj. destruct (il_run _ _ _ _ HL j gj t Hj Hrj) as [H1 H2]. split; [exact H1|]. split; [|exact H2].
    rewrite Hr. intros Hri. apply Hne. eapply (il_one _ _ _ _ HL j i); eauto.
  - apply HL.
  - apply HL.
Qed.

(** While a processor holds a lock, the others do not have what it protects. *)
Lemma inv_table_mine s gs sus i g : Inv s gs sus -> gs !! i = Some g -> PTABLE_LOCK ∈ g_hs g ->
  forall j gj, j <> i -> gs !! j = Some gj -> g_tab gj = None /\ g_com gj = false.
Proof.
  intros [HM HL] Hi Ha j gj Hne Hj. pose proof (il_wf _ _ _ _ HL j gj Hj) as W.
  assert (Hn : PTABLE_LOCK ∉ g_hs gj) by (intros Ha'; apply Hne; eapply invM_excl; eauto). split.
  - destruct (g_tab gj) eqn:Et; [|done]. destruct (Hn (gwf_tab _ W _ Et)).
  - apply not_true_is_false. intros Ec. destruct (Hn (gwf_com _ W Ec)).
Qed.

Lemma inv_ext_mine s gs sus i g : Inv s gs sus -> gs !! i = Some g -> lk ∈ g_hs g ->
  forall j gj, j <> i -> gs !! j = Some gj -> g_ext gj = None /\ g_pend gj = false.
Proof.
  intros [HM HL] Hi Ha j gj Hne Hj. pose proof (il_wf _ _ _ _ HL j gj Hj) as W.
  assert (Hn : lk ∉ g_hs gj) by (intros Ha'; apply Hne; eapply invM_excl; eauto). split.
  - destruct (g_ext gj) eqn:Et; [|done]. destruct (Hn (gwf_ext _ W _ Et)).
  - apply not_true_is_false. intros Ec. destruct (Hn (gwf_pend _ W Ec)).
Qed.

(** ** Typed code *)
Definition resg (j : nat) (t : nat * nat) (ie : bool) (ps : list proc) : ghost :=
  mkGhost (mkExe j ie (Some t.1) (Some t)) {[PTABLE_LOCK]} (Some t) (Some ps) None false false.
Definition outg (i : nat) (t : nat * nat) (ie : bool) : ghost :=
  mkGhost (mkExe i ie (Some t.1) (Some t)) ∅ (Some t) None None false false.
Definition schedg (x : exe) : ghost := mkGhost x {[PTABLE_LOCK]} None None None false false.
Definition idleg (x : exe) : ghost := mkGhost x ∅ None None None false false.

Fixpoint typed {A : Type} (t : nat * nat) (i : nat) (c : kcode (kstate E) A) (g : ghost) (Q : nat -> A -> ghost -> Prop) : Prop :=
  match c with
  | KRet a => Q i a g
  | KAct act k => forall s gs sus, Inv s gs sus -> gs !! i = Some g ->
      match act (cur i s) with
      | Done b s' => exists g', Inv s' (<[i := g']> gs) sus /\ typed t i (k b) g' Q
      | Switch s' kk =>
          (exists x, x_cpu x = i /\ m_cur (k_mach s') = i /\ Inv s' (<[i := schedg x]> gs) ({[t]} ∪ sus)) /\
          forall j ie ps s2 gs2 sus2, Inv s2 gs2 sus2 -> gs2 !! j = Some (resg j t ie ps) -> m_cur (k_mach s2) = j ->
            alive ps t (fun th => th_state th = RUNNING) ->
            match kk s2 with
            | Done b s3 => exists g', Inv s3 (<[j := g']> gs2) sus2 /\ typed t j (k b) g' Q
            | _ => False
            end
      | Spin => True
      | Crash _ => False
      end
  end.

(** One action that returns, or spins. *)
Definition does {B : Type} (i : nat) (g : ghost) (act : M (kstate E) B) (Q : B -> ghost -> Prop) : Prop :=
  forall s gs sus, Inv s gs sus -> gs !! i = Some g ->
    match act (cur i s) with
    | Done b s' => exists g', Inv s' (<[i := g']> gs) sus /\ Q b g'
    | Spin => True
    | _ => False
    end.

Lemma typed_does {A B} t i (act : M (kstate E) B) (k : B -> kcode (kstate E) A) g Q :
  does i g act (fun b g' => typed t i (k b) g' Q) -> typed t i (KAct act k) g Q.
Proof. intros H s gs sus HI Hi. specialize (H s gs sus HI Hi). cbn. destruct (act (cur i s)); auto. contradiction. Qed.

Lemma typed_bind {A B} t i (c : kcode (kstate E) A) (f : A -> kcode (kstate E) B) g Q :
  typed t i c g (fun j a g' => typed t j (f a) g' Q) -> typed t i (kbind c f) g Q.
Proof.
  revert i g. induction c as [a|C act k IH]; intros i g H; [exact H|]. cbn [kbind].
  intros s gs sus HI Hi. specialize (H s gs sus HI Hi). destruct (act (cur i s)) as [b s'| |s' kk|]; try done.
  - destruct H as (g' & HI' & Ht). eauto.
  - destruct H as [H1 H2]. split; [exact H1|]. intros j ie ps s2 gs2 sus2 HI2 Hj Hc Hal.
    specialize (H2 j ie ps s2 gs2 sus2 HI2 Hj Hc Hal). destruct (kk s2); try done. destruct H2 as (g' & ? & ?). eauto.
Qed.

Lemma typed_mono {A} t i (c : kcode (kstate E) A) g (Q Q' : nat -> A -> ghost -> Prop) :
  (forall j a g', Q j a g' -> Q' j a g') -> typed t i c g Q -> typed t i c g Q'.
Proof.
  intros HQ. revert i g. induction c as [a|C act k IH]; intros i g H; [exact (HQ _ _ _ H)|].
  intros s gs sus HI Hi. specialize (H s gs sus HI Hi). destruct (act (cur i s)) as [b s'| |s' kk|]; try done.
  - destruct H as (g' & HI' & Ht). eauto.
  - destruct H as [H1 H2]. split; [exact H1|]. intros j ie ps s2 gs2 sus2 HI2 Hj Hc Hal.
    specialize (H2 j ie ps s2 gs2 sus2 HI2 Hj Hc Hal). destruct (kk s2); try done. destruct H2 as (g' & ? & ?). eauto.
Qed.

(** ** The actions *)
Definition on_x (x : exe) (g : ghost) : ghost :=
  mkGhost x (g_hs g) (g_run g) (g_tab g) (g_ext g) (g_pend g) (g_com g).

Lemma inv_on_x s gs sus i g x m' :
  Inv s gs sus -> gs !! i = Some g -> x_cpu x = i ->
  (forall t, g_run g = Some t -> x_proc x = Some t.1 /\ x_thread x = Some t) ->
  mst_at (W := frozen (at_cpu i (k_mach s))) 0 x (g_hs g) m' -> Inv (with_mach m' s) (<[i := on_x x g]> gs) sus.
Proof.
  intros [HM HL] Hi Hx Hr Hm. pose proof Hm as (_ & _ & _ & _ & Hl & Hc). rewrite Hx in Hc. split.
  - apply (invM_step (k_mach s) gs i g); try done.
    + exact (mst_anyone (W := frozen (at_cpu i (k_mach s))) _ _ _ Hm).
    + intros a Ha _. exact (Hl a Ha).
  - apply (invL_ghost _ _ _ _ i g); try done.
    + destruct (il_wf _ _ _ _ HL i g Hi). split; assumption.
    + intros ps0 Hp. exact (il_tab _ _ _ _ HL i g ps0 Hi Hp).
    + intros e0 Hp. exact (il_ext _ _ _ _ HL i g e0 Hi Hp).
    + intros t Ht Hn. destruct (il_run _ _ _ _ HL i g t Hi Ht) as [_ Hal]. eapply alive_mono; [|exact Hal]. auto.
    + intros Hcd Hp Hpg. exact (il_cond_at _ _ _ _ i g HL Hi Hcd Hp Hpg).
Qed.

(** An action that only reads or writes the processor's entry. *)
Lemma does_mach {B} i g (act : M (kstate E) B) (b : B) x' (Q : B -> ghost -> Prop) :
  (forall s, mst_at (W := frozen (k_mach s)) 0 (g_x g) (g_hs g) (k_mach s) ->
     total act s (fun b' s' => b' = b /\ exists m', s' = with_mach m' s /\ mst_at (W := frozen (k_mach s)) 0 x' (g_hs g) m')) ->
  x_cpu x' = x_cpu (g_x g) -> x_proc x' = x_proc (g_x g) -> x_thread x' = x_thread (g_x g) ->
  Q b (on_x x' g) -> does i g act Q.
Proof.
  intros Hact Hc Hp Ht HQ s gs sus HI Hi. pose proof HI as [HM HL].
  destruct (im_cpu _ _ HM i g Hi) as [Hx Hm]. specialize (Hact (cur i s) (mst_frozen _ _ _ Hm)).
  unfold total in Hact. destruct (act (cur i s)) as [b' s'| | |]; try done. destruct Hact as (-> & m' & -> & Hm').
  exists (on_x x' g). split; [|exact HQ]. apply (inv_on_x s gs sus i g x' m'); [exact HI|exact Hi|congruence| |exact Hm'].
  intros t Hr. rewrite Hp, Ht. apply (gwf_run _ (il_wf _ _ _ _ HL i g Hi) t Hr).
Qed.

Lemma does_mythread i g (Q : option (nat * nat) -> ghost -> Prop) :
  (size (g_hs g) < 8)%nat -> Q (x_thread (g_x g)) g -> does i g mythread Q.
Proof.
  intros Hsz HQ. apply (does_mach i g _ (x_thread (g_x g)) (g_x g)); try done; [|now destruct g].
  intros s Hm. eapply (mythread_total (W := frozen (k_mach s))); [exact Hm|exact Hsz|]. eauto.
Qed.

Lemma does_myproc i g (Q : option nat -> ghost -> Prop) :
  (size (g_hs g) < 8)%nat -> Q (x_proc (g_x g)) g -> does i g myproc Q.
Proof.
  intros Hsz HQ. apply (does_mach i g _ (x_proc (g_x g)) (g_x g)); try done; [|now destruct g].
  intros s Hm. eapply (myproc_total (W := frozen (k_mach s))); [exact Hm|exact Hsz|]. eauto.
Qed.

Lemma does_gets {B} i g (h : kstate E -> B) (v : B) (Q : B -> ghost -> Prop) :
  (forall s gs sus, Inv s gs sus -> gs !! i = Some g -> h s = v) -> Q v g -> does i g (gets h) Q.
Proof.
  intros Hh HQ s gs sus HI Hi. exists g. rewrite list_insert_id by exact Hi. split; [exact (inv_at i s gs sus HI)|].
  now rewrite (Hh (cur i s) gs sus (inv_at i s gs sus HI) Hi).
Qed.

Lemma does_ret {B} i g (v : B) (Q : B -> ghost -> Prop) : Q v g -> does i g (ret v) Q.
Proof. intros HQ s gs sus HI Hi. exists g. rewrite list_insert_id by exact Hi. auto using inv_at. Qed.

(** Taking a lock gives what it protects. *)
Definition got (a : nat) (ps : list proc) (e : E) (g : ghost) : ghost :=
  mkGhost (g_x g) ({[a]} ∪ g_hs g) (g_run g) (if decide (a = PTABLE_LOCK) then Some ps else g_tab g)
    (if decide (a = lk) then Some e else g_ext g) (g_pend g) (g_com g).

Lemma acquire_spins a m c :
  on_cpu m c -> c_ncli c < 2 ^ 31 - 10 -> lk_locked (the_lock a m) = 1 -> lk_cpu (the_lock a m) <> Some (m_cur m) ->
  acquire a m = Spin.
Proof.
  intros Hon Hb Hl Hc. rewrite (acquire_enters a m c Hon Hb), Hl, bool_decide_eq_false_2 by exact Hc.
  cbn [negb andb Z.eqb kbind xchg_loop run]. unfold xchg, bind, gets, modify, ret. cbn [prog_bind].
  rewrite the_lock_with, Hl. reflexivity.
Qed.

Lemma does_acquire i g a (Q : unit -> ghost -> Prop) :
  a ∉ g_hs g -> (size (g_hs g) < 8)%nat ->
  (forall ps e, (forall t, g_run g = Some t -> alive ps t (fun th => g_tab g = None -> th_state th = RUNNING)) ->
     Q tt (got a ps e g)) ->
  does i g (kacquire a) Q.
Proof.
  intros Ha Hsz HQ s gs sus HI Hi. pose proof HI as [HM HL]. destruct (im_cpu _ _ HM i g Hi) as [Hx Hm].
  destruct (decide (Exists (fun g => a ∈ g_hs g) gs)) as [Hex|Hex].
  - apply Exists_exists in Hex as (gj & Hin & Haj). apply list_elem_of_lookup in Hin as [j Hj].
    destruct (im_cpu _ _ HM j gj Hj) as (Hxj & _ & _ & _ & Hh & _). destruct (Hh a Haj) as [Hl Hc].
    destruct (mst_on (W := anyone) _ _ _ _ Hm) as (c & Hon & Hn & _).
    assert (acquire a (at_cpu i (k_mach s)) = Spin) as Hs.
    { apply (acquire_spins a _ c Hon); [lia|exact Hl|]. rewrite Hxj in Hc. cbv [the_lock at_cpu m_locks m_cur] in *.
      rewrite Hc. intros [= ->]. apply Ha. now replace g with gj by congruence. }
    unfold kacquire, on_cpus, on_base, on_mach, zoom. change (ks_mach (k_base (cur i s))) with (at_cpu i (k_mach s)).
    now rewrite Hs.
  - assert (Hfree : lock_free a (k_mach s)).
    { apply (im_free _ _ HM). intros j gj Hj Hin. apply Hex, Exists_exists. eauto using list_elem_of_lookup_2. }
    destruct (acquire_mst (W := frozen (at_cpu i (k_mach s))) 0 _ _ _ a (mst_frozen _ _ _ Hm) Ha Hfree Hsz) as (m' & Hr & Hm' & Hl).
    unfold kacquire. rewrite (on_cpus_done _ (cur i s) tt m' Hr).
    exists (got a (k_procs s) (k_ext s) g). pose proof Hm' as (_ & _ & _ & _ & Hl' & Hc'). rewrite Hx in Hc'. split.
    + split.
      * apply (invM_step (k_mach s) gs i g); try done; cbn [got g_hs].
        -- exact (mst_anyone (W := frozen (at_cpu i (k_mach s))) _ _ _ Hm').
        -- intros b _ Hb. exact (Hl' b Hb).
        -- intros b Hb Hb'. replace b with a by set_solver. exact Hfree.
        -- set_solver.
      * apply (invL_ghost _ _ _ _ i g _ HL Hi); cbn [got g_hs g_run g_tab g_ext g_pend g_com g_x].
        -- destruct (il_wf _ _ _ _ HL i g Hi) as [W1 W2 W3 W4 W5].
           split; cbn [got g_hs g_run g_tab g_ext g_pend g_com g_x]; intros; try case_decide; subst; set_solver.
        -- done.
        -- intros ps0. case_decide; [congruence|]. intros Hp. exact (il_tab _ _ _ _ HL i g ps0 Hi Hp).
        -- intros e0. case_decide; [congruence|]. intros Hp. exact (il_ext _ _ _ _ HL i g e0 Hi Hp).
        -- intros t Ht. case_decide; [discriminate|]. intros Hn.
           destruct (il_run _ _ _ _ HL i g t Hi Ht) as [_ Hal]. eapply alive_mono; [|exact Hal]. auto.
        -- intros Hcd Hp Hpg. exact (il_cond_at _ _ _ _ i g HL Hi Hcd Hp Hpg).
    + apply HQ. intros t Ht. apply (il_run _ _ _ _ HL i g t Hi Ht).
Qed.

(** Giving it back: the table is left with the thread RUNNING.  A thread that
    has found the condition false may commit itself to sleep when it releases
    another lock than [ptable.lock]. *)
Definition lost (a : nat) (com : bool) (g : ghost) : ghost :=
  mkGhost (g_x g) (g_hs g ∖ {[a]}) (g_run g) (if decide (a = PTABLE_LOCK) then None else g_tab g)
    (if decide (a = lk) then None else g_ext g) (g_pend g) com.

Lemma does_release i g a com (Q : unit -> ghost -> Prop) :
  a ∈ g_hs g -> (a = lk -> g_pend g = false) ->
  (a = PTABLE_LOCK -> com = false /\ forall t, g_run g = Some t -> exists ps, g_tab g = Some ps /\ alive ps t (fun th => th_state th = RUNNING)) ->
  (com = true -> g_com g = true \/ (PTABLE_LOCK ∈ g_hs g /\ exists e, g_ext g = Some e /\ cond e = false)) ->
  Q tt (lost a com g) -> does i g (krelease a) Q.
Proof.
  intros Ha Hpl Htl Hcom HQ s gs sus HI Hi. pose proof HI as [HM HL]. destruct (im_cpu _ _ HM i g Hi) as [Hx Hm].
  set (W := mkOthers (fun b l => b <> a -> l = the_lock b (at_cpu i (k_mach s))) (fun j c => c = m_cpus (k_mach s) !! j)).
  assert (HmW : mst_at (W := W) 0 (g_x g) (g_hs g) (at_cpu i (k_mach s))) by now apply (mst_others (W := anyone) _ _ _ _ Hm).
  destruct (release_mst (W := W) 0 _ _ _ a HmW Ha) as (m' & Hr & Hm' & Hf & Hl); [intros H; contradiction|].
  unfold krelease. rewrite (on_cpus_done _ (cur i s) tt m' Hr).
  exists (lost a com g). split; [|exact HQ]. pose proof Hm' as (_ & _ & _ & _ & _ & Hc'). rewrite Hx in Hc'. split.
  - apply (invM_step (k_mach s) gs i g); try done; cbn [lost g_hs].
    + exact (mst_anyone (W := W) _ _ _ Hm').
    + intros b Hb _. apply Hl. congruence.
    + set_solver.
    + intros b Hb Hb'. destruct (decide (b = a)) as [->|Hne]; [exact Hf|]. destruct Hb'. now apply elem_of_difference; rewrite elem_of_singleton.
  - apply (invL_ghost _ _ _ _ i g _ HL Hi); cbn [lost g_hs g_run g_tab g_ext g_pend g_com g_x].
    + destruct (il_wf _ _ _ _ HL i g Hi) as [W1 W2 W3 W4 W5].
      split; cbn [lost g_hs g_run g_tab g_ext g_pend g_com g_x].
      * intros ps0. case_decide; [discriminate|]. intros Hp. specialize (W1 _ Hp). set_solver.
      * intros e0. case_decide; [discriminate|]. intros Hp. specialize (W2 _ Hp). set_solver.
      * intros Hp. specialize (W3 Hp). destruct (decide (a = lk)) as [->|Hne]; [|set_solver].
        rewrite Hpl in Hp by done. discriminate.
      * intros Hc. destruct (decide (a = PTABLE_LOCK)) as [->|Hne]; [destruct (Htl eq_refl); congruence|].
        destruct (Hcom Hc) as [Hg|[Hg _]]; [specialize (W4 Hg)|]; set_solver.
      * exact W5.
    + done.
    + intros ps0. case_decide; [discriminate|]. intros Hp. exact (il_tab _ _ _ _ HL i g ps0 Hi Hp).
    + intros e0. case_decide; [discriminate|]. intros Hp. exact (il_ext _ _ _ _ HL i g e0 Hi Hp).
    + intros t Ht. case_decide as Hd.
      * intros _. destruct (proj2 (Htl Hd) t Ht) as (ps & Hp & Hal). now rewrite <- (il_tab _ _ _ _ HL i g ps Hi Hp).
      * intros Hn. destruct (il_run _ _ _ _ HL i g t Hi Ht) as [_ Hal]. eapply alive_mono; [|exact Hal]. auto.
    + intros Hcd Hp Hpg. destruct (il_cond_at _ _ _ _ i g HL Hi Hcd Hp Hpg) as (H1 & H2 & H3).
      split; [|now split]. apply not_true_is_false. intros Hc. destruct (Hcom Hc) as [Hg|(_ & e & He & Hce)]; [congruence|].
      rewrite (il_ext _ _ _ _ HL i g e Hi He) in Hce. congruence.
Qed.

(** ** Stores to the table *)

(** A step of the thread [th] of the process [q] that concerns no other. *)
Record own_step (com : bool) (j : nat) (q q' : proc) (th th' : thread) : Prop := {
  os_pgdir : p_pgdir q' = p_pgdir q;
  os_state : wakeable (p_state q) = true -> wakeable (p_state q') = true;
  os_at : p_threads q' !! j = Some th';
  os_other : forall k, k <> j -> p_threads q' !! k = p_threads q !! k;
  os_kstack : th_kstack th' = th_kstack th;
  os_sleeps : sleeping_on ch th' = true -> com = true;
}.

Section Own.
Context (ps : list proc) (t : nat * nat) (q : proc) (th th' : thread) (f : proc -> proc) (com : bool).
Context (Hin : thread_in ps t q th) (Hos : own_step com t.2 q (f q) th th').

Lemma own_at : thread_in (alter f t.1 ps) t (f q) th'.
Proof. destruct Hin as [Hq _]. split; [now rewrite list_lookup_alter_eq, Hq|apply Hos]. Qed.

Lemma own_inv t' q2 th2 : thread_in (alter f t.1 ps) t' q2 th2 ->
  (t' = t /\ q2 = f q /\ th2 = th') \/
  (t' <> t /\ exists q0, thread_in ps t' q0 th2 /\ (wakeable (p_state q0) = true -> wakeable (p_state q2) = true)).
Proof.
  intros [Hq2 Hth2]. destruct Hin as [Hq Hth]. destruct (decide (t'.1 = t.1)) as [E1|E1].
  - rewrite E1, list_lookup_alter_eq, Hq in Hq2. injection Hq2 as <-.
    destruct (decide (t'.2 = t.2)) as [E2|E2].
    + left. split; [destruct t, t'; simpl in *; congruence|]. split; [done|]. rewrite E2, (os_at _ _ _ _ _ _ Hos) in Hth2. congruence.
    + right. split; [congruence|]. rewrite (os_other _ _ _ _ _ _ Hos) in Hth2 by done.
      exists q. split; [split; congruence|apply Hos].
  - right. split; [congruence|]. rewrite list_lookup_alter_ne in Hq2 by congruence. exists q2. done.
Qed.

Lemma own_alive t' P : t' <> t -> alive ps t' P -> alive (alter f t.1 ps) t' P.
Proof.
  intros Hne (q0 & th0 & [Hq0 Hth0] & Hw & Hp & Hk & HP). destruct Hin as [Hq _]. destruct (decide (t'.1 = t.1)) as [E1|E1].
  - assert (E2 : t'.2 <> t.2) by (intros E2; apply Hne; destruct t, t'; simpl in *; congruence).
    rewrite E1, Hq in Hq0. injection Hq0 as <-. exists (f q), th0. split.
    + split; [now rewrite E1, list_lookup_alter_eq, Hq|]. now rewrite (os_other _ _ _ _ _ _ Hos).
    + rewrite (os_pgdir _ _ _ _ _ _ Hos). split; [now apply (os_state _ _ _ _ _ _ Hos)|done].
  - exists q0, th0. split; [|done]. split; [|done]. now rewrite list_lookup_alter_ne by congruence.
Qed.

Lemma own_alive_self (P : thread -> Prop) : (alive ps t (fun _ => True)) -> P th' -> alive (alter f t.1 ps) t P.
Proof.
  intros (q0 & th0 & [Hq0 Hth0] & Hw & Hp & Hk & _) HP. pose proof Hin as [Hq Hth].
  assert (q0 = q) as -> by congruence. assert (th0 = th) as -> by congruence.
  exists (f q), th'. split; [exact own_at|]. rewrite (os_pgdir _ _ _ _ _ _ Hos), (os_kstack _ _ _ _ _ _ Hos).
  split; [now apply (os_state _ _ _ _ _ _ Hos)|done].
Qed.
End Own.

Definition on_tab (ps : list proc) (pend : bool) (g : ghost) : ghost :=
  mkGhost (g_x g) (g_hs g) (g_run g) (Some ps) (g_ext g) pend (g_com g).

Lemma invM_ghost m gs i g g' : InvM m gs -> gs !! i = Some g -> g_x g' = g_x g -> g_hs g' = g_hs g -> InvM m (<[i := g']> gs).
Proof.
  intros HM Hi Ex Eh. destruct (im_cpu _ _ HM i g Hi) as [Hx Hm]. pose proof (invM_at i _ _ HM) as HMi.
  assert (InvM (at_cpu i m) (<[i := g']> gs)) as [H1 H2].
  { apply (invM_step (at_cpu i m) gs i g g'); try done; rewrite ?Ex, ?Eh; done. }
  split; assumption.
Qed.

Lemma does_own i g t ps q th th' f (Q : unit -> ghost -> Prop) :
  g_run g = Some t -> g_tab g = Some ps -> thread_in ps t q th -> own_step (g_com g) t.2 q (f q) th th' ->
  Q tt (on_tab (alter f t.1 ps) (g_pend g) g) -> does i g (modify (upd_proc t.1 f)) Q.
Proof.
  intros Hr Ht Hin Hos HQ s gs sus HI Hi. pose proof HI as [HM HL]. exists (on_tab (alter f t.1 ps) (g_pend g) g).
  split; [|exact HQ]. pose proof (il_tab _ _ _ _ HL i g ps Hi Ht) as ->. pose proof (il_wf _ _ _ _ HL i g Hi) as [W1 W2 W3 W4 W5].
  pose proof (inv_table_mine s gs sus i g HI Hi (W1 _ Ht)) as Hmine.
  destruct (il_run _ _ _ _ HL i g t Hi Hr) as [Hns Hal]. split; [now apply (invM_ghost (at_cpu i (k_mach s)) gs i g); [apply invM_at|..]|].
  apply (invL_set (k_procs s) (k_ext s) gs sus i g _ _ _ _ HL Hi); cbn [on_tab g_hs g_run g_tab g_ext g_pend g_com g_x].
  - split; cbn [on_tab g_hs g_run g_tab g_ext g_pend g_com g_x]; eauto.
  - intros ps0 [= <-]. done.
  - intros e0 He. exact (il_ext _ _ _ _ HL i g e0 Hi He).
  - right. intros j gj Hne Hj. apply (Hmine j gj Hne Hj).
  - now left.
  - intros t' Ht'. assert (t' = t) as -> by congruence. split; [exact Hns|].
    apply (own_alive_self _ _ _ _ _ _ _ Hin Hos); [|discriminate]. eapply alive_mono; [|exact Hal]. done.
  - intros j gj t' Hne Hj Hrj. destruct (il_run _ _ _ _ HL j gj t' Hj Hrj) as [H1 H2]. split; [exact H1|].
    assert (Hd : g_run g <> Some t') by (intros Hri; apply Hne; eapply (il_one _ _ _ _ HL j i); eauto).
    split; [exact Hd|]. apply (own_alive _ _ _ _ _ _ _ Hin Hos); [congruence|exact H2].
  - intros t' Ht'. apply (own_alive _ _ _ _ _ _ _ Hin Hos); [congruence|exact (il_sus _ _ _ _ HL t' Ht')].
  - intros t' q2 th2 Hin2 Hsl. destruct (own_inv _ _ _ _ _ _ _ Hin Hos t' q2 th2 Hin2) as [(-> & -> & ->)|(_ & q0 & H0 & Hw)].
    + destruct Hal as (q0 & th0 & [Hq0 _] & Hw & _). destruct Hin as [Hq _]. replace q0 with q in Hw by congruence. now apply Hos.
    + apply Hw. exact (il_wake _ _ _ _ HL t' q0 th2 H0 Hsl).
  - intros Hcd Hp Hpg. destruct (il_cond_at _ _ _ _ i g HL Hi Hcd Hp Hpg) as (H1 & H2 & H3). split; [exact H1|]. split; [exact H2|].
    intros t' q2 th2 Hin2. destruct (own_inv _ _ _ _ _ _ _ Hin Hos t' q2 th2 Hin2) as [(-> & -> & ->)|(_ & q0 & H0 & _)].
    + apply not_true_is_false. intros Hsl. pose proof (os_sleeps _ _ _ _ _ _ Hos Hsl). congruence.
    + exact (H3 t' q0 th2 H0).
Qed.

(** [wakeup1] *)
Lemma wake_thread_awake th : sleeping_on ch (wake_thread ch th) = false.
Proof. unfold wake_thread. destruct (sleeping_on ch th) eqn:H; [reflexivity|exact H]. Qed.

Lemma wake_thread_other th : sleeping_on ch th = false -> wake_thread ch th = th.
Proof. unfold wake_thread. now intros ->. Qed.

Lemma wake_kept q : p_pgdir (wake_proc ch q) = p_pgdir q /\ (wakeable (p_state q) = true -> wakeable (p_state (wake_proc ch q)) = true).
Proof.
  unfold wake_proc. destruct (wakeable (p_state q)) eqn:Hw; [|done]. split; [reflexivity|]. intros _. simpl.
  now destruct (existsb _ _).
Qed.

Lemma wake_alive ps t (P P' : thread -> Prop) :
  (forall th, P th -> P' (wake_thread ch th)) -> alive ps t P -> alive (wake_proc ch <$> ps) t P'.
Proof.
  intros HP (q & th & [Hq Hth] & Hw & Hp & Hk & H). destruct (wake_kept q) as [Hpg Hwk].
  exists (wake_proc ch q), (wake_thread ch th). split; [split|].
  - now rewrite list_lookup_fmap, Hq.
  - unfold wake_proc. rewrite Hw. simpl. now rewrite list_lookup_fmap, Hth.
  - rewrite Hpg. split; [auto|]. split; [exact Hp|]. split; [|auto]. unfold wake_thread. now destruct (sleeping_on ch th).
Qed.

Lemma wake_awake ps : (forall t q th, thread_in ps t q th -> sleeping_on ch th = true -> wakeable (p_state q) = true) ->
  no_sleeper (wake_proc ch <$> ps).
Proof.
  intros Hall t q' th' [Hq' Hth']. apply list_lookup_fmap_Some in Hq' as (q & -> & Hq).
  unfold wake_proc in Hth'. destruct (wakeable (p_state q)) eqn:Hw.
  - simpl in Hth'. apply list_lookup_fmap_Some in Hth' as (th & -> & Hth). apply wake_thread_awake.
  - apply not_true_is_false. intros Hs. rewrite (Hall t q th') in Hw; [discriminate|done|done].
Qed.

Lemma does_wake i g ps (Q : unit -> ghost -> Prop) :
  g_tab g = Some ps -> g_com g = false -> Q tt (on_tab (wake_proc ch <$> ps) false g) -> does i g (wakeup1 ch) Q.
Proof.
  intros Ht Hc HQ s gs sus HI Hi. pose proof HI as [HM HL]. exists (on_tab (wake_proc ch <$> ps) false g).
  split; [|exact HQ]. pose proof (il_tab _ _ _ _ HL i g ps Hi Ht) as ->. pose proof (il_wf _ _ _ _ HL i g Hi) as [W1 W2 W3 W4 W5].
  pose proof (inv_table_mine s gs sus i g HI Hi (W1 _ Ht)) as Hmine.
  pose proof (wake_awake (k_procs s) (il_wake _ _ _ _ HL)) as Hno.
  split; [now apply (invM_ghost (at_cpu i (k_mach s)) gs i g); [apply invM_at|..]|].
  apply (invL_set (k_procs s) (k_ext s) gs sus i g _ _ _ _ HL Hi); cbn [on_tab g_hs g_run g_tab g_ext g_pend g_com g_x].
  - split; cbn [on_tab g_hs g_run g_tab g_ext g_pend g_com g_x]; eauto. discriminate.
  - intros ps0 [= <-]. done.
  - intros e0 He. exact (il_ext _ _ _ _ HL i g e0 Hi He).
  - right. intros j gj Hne Hj. apply (Hmine j gj Hne Hj).
  - now left.
  - intros t Hr. destruct (il_run _ _ _ _ HL i g t Hi Hr) as [H1 H2]. split; [exact H1|].
    eapply wake_alive; [|exact H2]. discriminate.
  - intros j gj t Hne Hj Hrj. destruct (il_run _ _ _ _ HL j gj t Hj Hrj) as [H1 H2]. split; [exact H1|].
    split; [intros Hri; apply Hne; eapply (il_one _ _ _ _ HL j i); eauto|].
    eapply wake_alive; [|exact H2]. intros th Hrun Hn. specialize (Hrun Hn). rewrite wake_thread_other; [exact Hrun|].
    unfold sleeping_on. now rewrite Hrun.
  - intros t Hs. eapply wake_alive; [|exact (il_sus _ _ _ _ HL t Hs)]. intros th Hor. left. unfold wake_thread.
    destruct (sleeping_on ch th) eqn:E2; [reflexivity|]. destruct Hor; [done|congruence].
  - intros t q th Hin Hs. rewrite (Hno t q th Hin) in Hs. discriminate.
  - intros _ _ _. split; [exact Hc|]. split; [|exact Hno]. intros j gj Hne Hj. apply (Hmine j gj Hne Hj).
Qed.

(** ** Changes of the condition *)
Definition on_ext (e : E) (pend : bool) (g : ghost) : ghost :=
  mkGhost (g_x g) (g_hs g) (g_run g) (g_tab g) (Some e) pend (g_com g).

Lemma does_ext i g e f pend (Q : unit -> ghost -> Prop) :
  g_ext g = Some e -> (pend = false -> g_pend g = false /\ cond e = true) ->
  Q tt (on_ext (f e) pend g) -> does i g (modify (upd_ext f)) Q.
Proof.
  intros He Hpd HQ s gs sus HI Hi. pose proof HI as [HM HL]. exists (on_ext (f e) pend g).
  split; [|exact HQ]. pose proof (il_ext _ _ _ _ HL i g e Hi He) as ->. pose proof (il_wf _ _ _ _ HL i g Hi) as [W1 W2 W3 W4 W5].
  pose proof (inv_ext_mine s gs sus i g HI Hi (W2 _ He)) as Hmine.
  split; [now apply (invM_ghost (at_cpu i (k_mach s)) gs i g); [apply invM_at|..]|].
  apply (invL_set (k_procs s) (k_ext s) gs sus i g _ _ _ _ HL Hi); cbn [on_ext g_hs g_run g_tab g_ext g_pend g_com g_x].
  - split; cbn [on_ext g_hs g_run g_tab g_ext g_pend g_com g_x]; eauto.
  - intros ps0 Hp. exact (il_tab _ _ _ _ HL i g ps0 Hi Hp).
  - intros e0 [= <-]. done.
  - now left.
  - right. intros j gj Hne Hj. apply (Hmine j gj Hne Hj).
  - intros t Hr. exact (il_run _ _ _ _ HL i g t Hi Hr).
  - intros j gj t Hne Hj Hrj. destruct (il_run _ _ _ _ HL j gj t Hj Hrj) as [H1 H2]. split; [exact H1|].
    split; [intros Hri; apply Hne; eapply (il_one _ _ _ _ HL j i); eauto|exact H2].
  - apply HL.
  - apply HL.
  - intros _ _ Hp. destruct (Hpd Hp) as [Hg Hce]. apply (il_cond_at _ _ _ _ i g HL Hi Hce); [|exact Hg].
    intros j gj Hne Hj. apply (Hmine j gj Hne Hj).
Qed.

(** ** Giving up the processor and getting one again *)
Lemma at_cur i m : m_cur m = i -> at_cpu i m = m.
Proof. intros <-. now destruct m. Qed.

Lemma invL_suspend ps e gs sus i g t q th x :
  InvL ps e gs sus -> gs !! i = Some g -> g_run g = Some t -> g_pend g = false ->
  thread_in ps t q th -> (th_state th = RUNNABLE \/ sleeping_on ch th = true) ->
  InvL ps e (<[i := schedg x]> gs) ({[t]} ∪ sus).
Proof.
  intros HL Hi Hr Hpd Hin Hst. destruct (il_run _ _ _ _ HL i g t Hi Hr) as [Hns Hal].
  apply (invL_set ps e gs sus i g _ _ _ _ HL Hi); cbn [schedg g_hs g_run g_tab g_ext g_pend g_com g_x]; try done; auto.
  - intros j gj t' Hne Hj Hrj. destruct (il_run _ _ _ _ HL j gj t' Hj Hrj) as [H1 H2]. split; [|split; [discriminate|exact H2]].
    intros [->%elem_of_singleton|?]%elem_of_union; [|contradiction]. apply Hne. eapply (il_one _ _ _ _ HL j i); eauto.
  - intros t' [->%elem_of_singleton|Ht']%elem_of_union; [|exact (il_sus _ _ _ _ HL t' Ht')].
    destruct Hal as (q0 & th0 & Hin0 & Hw & Hp & Hk & _). destruct Hin as [Hq Hth], Hin0 as [Hq0 Hth0].
    replace q0 with q in * by congruence. replace th0 with th in * by congruence. exists q, th. done.
  - apply HL.
  - intros Hcd Hp _. destruct (il_cond_at _ _ _ _ i g HL Hi Hcd Hp Hpd) as (_ & H2 & H3). done.
Qed.

Lemma typed_sched {A} t i g ps q th (k : unit -> kcode (kstate E) A) Q :
  g_run g = Some t -> g_hs g = {[PTABLE_LOCK]} -> g_tab g = Some ps -> g_pend g = false ->
  thread_in ps t q th -> p_state q <> RUNNING -> (th_state th = RUNNABLE \/ sleeping_on ch th = true) ->
  (forall j ie ps', alive ps' t (fun th => th_state th = RUNNING) -> typed t j (k tt) (resg j t ie ps') Q) ->
  typed t i (KAct sched k) g Q.
Proof.
  intros Hr Hh Ht Hpd Hin Hq Hst Hk s gs sus HI Hi. pose proof HI as [HM HL].
  destruct (im_cpu _ _ HM i g Hi) as [Hx Hm]. pose proof (il_tab _ _ _ _ HL i g ps Hi Ht) as ->.
  destruct (gwf_run _ (il_wf _ _ _ _ HL i g Hi) t Hr) as [Hxp Hxt]. rewrite Hh in Hm.
  pose proof (sched_yields (W := frozen (at_cpu i (k_mach s))) (g_x g) (cur i s) t.1 t (mst_frozen _ _ _ Hm) Hxp Hxt) as Hy.
  rewrite (the_proc_lookup _ (cur i s) q (proj1 Hin)), (the_thread_at t (cur i s) th) in Hy by (exists q; exact Hin).
  specialize (Hy Hq). apply yields_switch in Hy as (s1 & kk & -> & (m' & -> & Hm') & Hkk).
  2: { destruct Hst as [->|Hst]; [discriminate|]. intros Hc. unfold sleeping_on in Hst. rewrite Hc in Hst. discriminate. }
  split.
  - exists (g_x g). split; [exact Hx|]. split; [exact (eq_trans (proj1 Hm') Hx)|].
    destruct (inv_on_x s gs sus i g (g_x g) m' HI Hi Hx (gwf_run _ (il_wf _ _ _ _ HL i g Hi))) as [HM' _]; [now rewrite Hh|].
    split; [|exact (invL_suspend _ _ _ _ i g t q th _ HL Hi Hr Hpd Hin Hst)].
    rewrite <- (list_insert_insert_eq gs i _ (on_x (g_x g) g)). apply (invM_ghost _ _ i (on_x (g_x g) g)); [exact HM'| |reflexivity|symmetry; exact Hh].
    apply list_lookup_insert_eq. eauto using lookup_lt_Some.
  - intros j ie ps' s2 gs2 sus2 HI2 Hj Hc2 Hal. pose proof HI2 as [HM2 HL2].
    destruct (im_cpu _ _ HM2 j _ Hj) as [_ Hm2]. rewrite (at_cur j _ Hc2) in Hm2.
    destruct (total_done _ _ _ (Hkk (frozen (k_mach s2)) _ s2 (mst_frozen _ _ _ Hm2))) as ([] & s3 & -> & m3 & -> & Hm3).
    exists (resg j t (x_ie (g_x g)) ps'). split; [|now apply Hk].
    apply (inv_on_x s2 gs2 sus2 j _ (resume_exe (g_x (resg j t ie ps')) (x_ie (g_x g))) m3 HI2 Hj); [done| |].
    + intros t' [= <-]. done.
    + rewrite (at_cur j _ Hc2). exact Hm3.
Qed.

(** The scheduler's part of a switch. *)
Definition sched_cont (i : nat) (ks : kstate E -> prog (kstate E) unit) : Prop :=
  forall s gs sus x, Inv s gs sus -> gs !! i = Some (schedg x) -> m_cur (k_mach s) = i ->
    total ks s (fun _ s' => exists x', Inv s' (<[i := schedg x']> gs) sus).

Lemma dispatch_step q th j :
  p_threads q !! j = Some th -> own_step false j q (dispatch j q) th (set_state RUNNING th).
Proof.
  intros Hth. split; try done.
  - now apply (lookup_on_thread j _ (set_p_state RUNNING q)).
  - intros k Hk. simpl. now rewrite list_lookup_alter_ne by congruence.
Qed.

Lemma run_thread_idle i t s q th : thread_in (k_procs s) t q th -> th_state th <> RUNNABLE ->
  run_thread kpg i t.1 t.2 s = Done tt s.
Proof.
  intros Hin Hst. unfold run_thread. erewrite bind_done by apply gets_done.
  rewrite <- surjective_pairing, (the_thread_at t s th) by (exists q; exact Hin). now rewrite bool_decide_eq_false_2.
Qed.

Lemma invL_dispatch ps e gs sus i x t q th ie :
  InvL ps e gs sus -> gs !! i = Some (schedg x) -> (forall j gj, j <> i -> gs !! j = Some gj -> g_tab gj = None) ->
  t ∈ sus -> thread_in ps t q th ->
  InvL (alter (dispatch t.2) t.1 ps) e (<[i := resg i t ie (alter (dispatch t.2) t.1 ps)]> gs) (sus ∖ {[t]}).
Proof.
  intros HL Hi Hmine Hs Hin. pose proof (dispatch_step q th t.2 (proj2 Hin)) as Hos.
  apply (invL_set ps e gs sus i (schedg x) _ _ _ _ HL Hi); cbn [resg g_hs g_run g_tab g_ext g_pend g_com g_x].
  - split; cbn [resg g_hs g_run g_tab g_ext g_pend g_com g_x]; try discriminate; [intros; now apply elem_of_singleton|].
    intros t' [= <-]. done.
  - intros ps0 [= <-]. done.
  - discriminate.
  - now right.
  - now left.
  - intros t' [= <-]. split; [set_solver|]. apply (own_alive_self _ _ _ _ _ _ _ Hin Hos); [|discriminate].
    eapply alive_mono; [|exact (il_sus _ _ _ _ HL t Hs)]. done.
  - intros j gj t' Hne Hj Hrj. destruct (il_run _ _ _ _ HL j gj t' Hj Hrj) as [H1 H2]. split; [set_solver|].
    split; [congruence|]. apply (own_alive _ _ _ _ _ _ _ Hin Hos); [congruence|exact H2].
  - intros t' Ht'. apply (own_alive _ _ _ _ _ _ _ Hin Hos); [set_solver|]. apply (il_sus _ _ _ _ HL). set_solver.
  - intros t' q2 th2 Hin2 Hsl. destruct (own_inv _ _ _ _ _ _ _ Hin Hos t' q2 th2 Hin2) as [(-> & -> & ->)|(_ & q0 & H0 & Hw)].
    + reflexivity.
    + apply Hw. exact (il_wake _ _ _ _ HL t' q0 th2 H0 Hsl).
  - intros Hcd Hp _. destruct (il_cond_at _ _ _ _ i _ HL Hi Hcd Hp eq_refl) as (_ & H2 & H3). split; [done|]. split; [exact H2|].
    intros t' q2 th2 Hin2. destruct (own_inv _ _ _ _ _ _ _ Hin Hos t' q2 th2 Hin2) as [(-> & -> & ->)|(_ & q0 & H0 & _)].
    + reflexivity.
    + exact (H3 t' q0 th2 H0).
Qed.

Lemma run_thread_ready i s gs sus x t :
  Inv s gs sus -> gs !! i = Some (schedg x) -> t ∈ sus -> th_state (the_thread t s) = RUNNABLE ->
  exists s1 ks, run_thread kpg i t.1 t.2 (cur i s) = Switch s1 ks.
Proof.
  intros [HM HL] Hi Hs Hr. destruct (im_cpu _ _ HM i _ Hi) as [Hx Hm].
  destruct (il_sus _ _ _ _ HL t Hs) as (q & th & Hin & _ & Hpg & Hks & _).
  rewrite (the_thread_at t s th) in Hr by (exists q; exact Hin).
  pose proof (run_thread_yields (W := frozen (at_cpu i (k_mach s))) kpg x (cur i s) t.1 t.2 q th (mst_frozen _ _ _ Hm)
    (proj1 Hin) (proj2 Hin) Hr Hks Hpg) as Hy. cbn [schedg g_x] in Hx. rewrite Hx in Hy.
  apply yields_switch in Hy as (s1 & ks & Hrun & _). eauto.
Qed.

Lemma inv_dispatch i s gs sus x t s1 ks :
  Inv s gs sus -> gs !! i = Some (schedg x) -> t ∈ sus -> run_thread kpg i t.1 t.2 (cur i s) = Switch s1 ks ->
  exists ie ps, m_cur (k_mach s1) = i /\ Inv s1 (<[i := resg i t ie ps]> gs) (sus ∖ {[t]}) /\
    alive ps t (fun th => th_state th = RUNNING) /\ sched_cont i ks.
Proof.
  intros HI Hi Hs Hrun. pose proof HI as [HM HL]. destruct (im_cpu _ _ HM i _ Hi) as [Hx Hm].
  pose proof (il_sus _ _ _ _ HL t Hs) as Hal0.
  destruct (il_sus _ _ _ _ HL t Hs) as (q & th & Hin & Hw & Hpg & Hks & Hst).
  destruct (decide (th_state th = RUNNABLE)) as [Hr|Hr].
  2: { rewrite (run_thread_idle i t (cur i s) q th Hin Hr) in Hrun. discriminate. }
  pose proof (run_thread_yields (W := frozen (at_cpu i (k_mach s))) kpg x (cur i s) t.1 t.2 q th (mst_frozen _ _ _ Hm)
    (proj1 Hin) (proj2 Hin) Hr Hks Hpg) as Hy. cbn [schedg g_x] in Hx. rewrite Hx in Hy. unfold yields in Hy. rewrite Hrun in Hy.
  destruct Hy as ((m' & c & -> & Hm' & _) & Hk).
  exists (x_ie x), (alter (dispatch t.2) t.1 (k_procs s)). split; [exact (proj1 Hm')|]. split; [|split].
  - split.
    + apply (invM_step (k_mach s) gs i (schedg x)); try done.
      * rewrite <- (surjective_pairing t) in Hm'. exact (mst_anyone (W := frozen (at_cpu i (k_mach s))) _ _ _ Hm').
      * intros j Hj. destruct Hm' as (_ & _ & _ & _ & _ & Hc). exact (Hc j Hj).
      * intros a Ha _. destruct Hm' as (_ & _ & _ & _ & Hl & _). exact (Hl a Ha).
    + eapply invL_dispatch; [exact HL|exact Hi| |exact Hs|exact Hin].
      intros j gj Hne Hj. apply (inv_table_mine s gs sus i _ HI Hi (proj2 (elem_of_singleton _ _) eq_refl) j gj Hne Hj).
  - apply (own_alive_self _ _ _ _ _ _ _ Hin (dispatch_step q th t.2 (proj2 Hin))); [|done].
    eapply alive_mono; [|exact Hal0]. done.
  - intros s2 gs2 sus2 x2 HI2 Hj Hc2. destruct (im_cpu _ _ (proj1 HI2) i _ Hj) as [Hx2 Hm2]. rewrite (at_cur i _ Hc2) in Hm2.
    eapply total_mono; [|apply (Hk (frozen (k_mach s2)) x2 s2 (mst_frozen _ _ _ Hm2) Hx2)].
    intros _ ? (m3 & -> & Hm3). exists (mkExe i (x_ie x2) (x_proc x2) None).
    apply (inv_on_x s2 gs2 sus2 i (schedg x2) _ m3 HI2 Hj); [done|discriminate|]. now rewrite (at_cur i _ Hc2).
Qed.

(** ** The clients *)
Context (Hlk : lk <> PTABLE_LOCK).

Lemma own_thread com j q th f :
  p_threads q !! j = Some th -> th_kstack (f th) = th_kstack th -> (sleeping_on ch (f th) = true -> com = true) ->
  own_step com j q (on_thread j f q) th (f th).
Proof.
  intros Hth Hk Hs. split; try done; [now apply lookup_on_thread|].
  intros k Hne. simpl. now rewrite list_lookup_alter_ne by congruence.
Qed.

Lemma own_state com j q th st :
  p_threads q !! j = Some th -> wakeable st = true -> (sleeping_on ch th = true -> com = true) ->
  own_step com j q (set_p_state st q) th th.
Proof. intros Hth Hw Hs. now split. Qed.

Definition exe_of (i : nat) (t : nat * nat) (ie : bool) : exe := mkExe i ie (Some t.1) (Some t).

(** With [lk] held, the condition's state being [e]; with [ptable.lock] held. *)
Definition critg (i : nat) (t : nat * nat) (ie : bool) (e : E) (pend : bool) : ghost :=
  mkGhost (exe_of i t ie) {[lk]} (Some t) None (Some e) pend false.
Definition tabg (i : nat) (t : nat * nat) (ie : bool) (ps : list proc) (com : bool) : ghost :=
  mkGhost (exe_of i t ie) {[PTABLE_LOCK]} (Some t) (Some ps) None false com.
Definition bothg (i : nat) (t : nat * nat) (ie : bool) (ps : list proc) (e : E) (pend : bool) : ghost :=
  mkGhost (exe_of i t ie) ({[PTABLE_LOCK]} ∪ {[lk]}) (Some t) (Some ps) (Some e) pend false.

Lemma got_lk i t ie ps e : got lk ps e (outg i t ie) = critg i t ie e false.
Proof. unfold got, critg, outg, exe_of. cbn [g_x g_hs g_run g_tab g_ext g_pend g_com]. rewrite decide_False, decide_True by done. f_equal; set_solver. Qed.
Lemma got_table i t ie ps e : got PTABLE_LOCK ps e (outg i t ie) = tabg i t ie ps false.
Proof. unfold got, tabg, outg, exe_of. cbn [g_x g_hs g_run g_tab g_ext g_pend g_com]. rewrite decide_True, decide_False by done. f_equal; set_solver. Qed.
Lemma got_both i t ie ps e e' pend : got PTABLE_LOCK ps e' (critg i t ie e pend) = bothg i t ie ps e pend.
Proof. unfold got, critg, bothg, exe_of. cbn [g_x g_hs g_run g_tab g_ext g_pend g_com]. now rewrite decide_True, decide_False by done. Qed.
Lemma lost_lk i t ie e : lost lk false (critg i t ie e false) = outg i t ie.
Proof. unfold lost, critg, outg, exe_of. cbn [g_x g_hs g_run g_tab g_ext g_pend g_com]. rewrite decide_False, decide_True by done. f_equal; set_solver. Qed.
Lemma lost_table i t ie ps com : lost PTABLE_LOCK false (tabg i t ie ps com) = outg i t ie.
Proof. unfold lost, tabg, outg, exe_of. cbn [g_x g_hs g_run g_tab g_ext g_pend g_com]. rewrite decide_True, decide_False by done. f_equal; set_solver. Qed.
Lemma lost_both i t ie ps e : lost PTABLE_LOCK false (bothg i t ie ps e false) = critg i t ie e false.
Proof. unfold lost, critg, bothg, exe_of. cbn [g_x g_hs g_run g_tab g_ext g_pend g_com]. rewrite decide_True, decide_False by done. f_equal; set_solver. Qed.
Lemma lost_commit i t ie ps e : lost lk true (bothg i t ie ps e false) = tabg i t ie ps true.
Proof. unfold lost, tabg, bothg, exe_of. cbn [g_x g_hs g_run g_tab g_ext g_pend g_com]. rewrite decide_False, decide_True by done. f_equal; set_solver. Qed.

Ltac one_lock := cbn [critg tabg bothg outg resg idleg g_hs]; rewrite ?size_union, ?size_singleton, ?size_empty by set_solver; lia.

(** The store [upd_thread t f] of the thread that runs, and of its process's
    state. *)
Lemma does_tab_thread i t ie ps com q th f (Q : unit -> ghost -> Prop) :
  thread_in ps t q th -> th_kstack (f th) = th_kstack th -> (sleeping_on ch (f th) = true -> com = true) ->
  (forall ps', thread_in ps' t (on_thread t.2 f q) (f th) -> ps' = alter (on_thread t.2 f) t.1 ps -> Q tt (tabg i t ie ps' com)) ->
  does i (tabg i t ie ps com) (modify (upd_thread t f)) Q.
Proof.
  intros Hin Hk Hs HQ. pose proof (own_thread com t.2 q th f (proj2 Hin) Hk Hs) as Hos.
  eapply (does_own _ (tabg i t ie ps com) t ps q th (f th) (on_thread t.2 f)); [done|done|exact Hin|exact Hos|].
  apply HQ; [|done]. exact (own_at _ _ _ _ _ _ _ Hin Hos).
Qed.

Lemma does_tab_state i t ie ps com q th st (Q : unit -> ghost -> Prop) :
  thread_in ps t q th -> wakeable st = true -> (sleeping_on ch th = true -> com = true) ->
  (forall ps', thread_in ps' t (set_p_state st q) th -> ps' = alter (set_p_state st) t.1 ps -> Q tt (tabg i t ie ps' com)) ->
  does i (tabg i t ie ps com) (modify (upd_proc t.1 (set_p_state st))) Q.
Proof.
  intros Hin Hw Hs HQ. pose proof (own_state com t.2 q th st (proj2 Hin) Hw Hs) as Hos.
  eapply (does_own _ (tabg i t ie ps com) t ps q th th (set_p_state st)); [done|done|exact Hin|exact Hos|].
  apply HQ; [|done]. exact (own_at _ _ _ _ _ _ _ Hin Hos).
Qed.

Lemma does_tab_gets {B} i t ie ps com q (h : proc -> B) (Q : B -> ghost -> Prop) :
  ps !! t.1 = Some q -> Q (h q) (tabg i t ie ps com) -> does i (tabg i t ie ps com) (gets (fun s => h (the_proc t.1 s))) Q.
Proof.
  intros Hq HQ. eapply does_gets; [|exact HQ]. intros s gs sus [_ HL] Hi.
  rewrite (il_tab _ _ _ _ HL i _ ps Hi eq_refl) in Hq. now rewrite (the_proc_lookup _ s q Hq).
Qed.

Lemma does_drop_table i t ie ps com (Q : unit -> ghost -> Prop) :
  alive ps t (fun th => th_state th = RUNNING) -> Q tt (outg i t ie) -> does i (tabg i t ie ps com) (krelease PTABLE_LOCK) Q.
Proof.
  intros Hal HQ. eapply (does_release _ _ PTABLE_LOCK false); [cbn [tabg g_hs]; set_solver|done| |done|now rewrite lost_table].
  intros _. split; [done|]. intros t' [= <-]. exists ps. done.
Qed.

(** The rest of [sleep] once the thread is marked. *)
Lemma sleep_tail t i ie ps q th :
  thread_in ps t q th -> p_state q <> RUNNING -> sleeping_on ch th = true ->
  typed t i (sched ;;; modify (upd_thread t (set_chan CNull)) ;;; krelease PTABLE_LOCK ;;; kacquire lk ;;; KRet tt)%code
    (tabg i t ie ps true) (fun j _ g => exists ie' e', g = critg j t ie' e' false).
Proof.
  intros Hin Hq Hs. eapply (typed_sched t i (tabg i t ie ps true)); [done|done|done|done|exact Hin|exact Hq|now right|].
  intros j ie' ps' (q' & th' & Hin' & Hw & Hpg & Hks & Hrun). change (resg j t ie' ps') with (tabg j t ie' ps' false).
  apply typed_does. eapply does_tab_thread; [exact Hin'|done| |].
  - unfold sleeping_on. simpl. rewrite Hrun. discriminate.
  - intros ps2 Hin2 _. apply typed_does, does_drop_table.
    + exists (on_thread t.2 (set_chan CNull) q'), (set_chan CNull th'). done.
    + apply typed_does, does_acquire; [set_solver|one_lock|]. intros ps3 e' _. rewrite got_lk. cbn. eauto.
Qed.

Lemma sleep_typed t i ie e :
  cond e = false ->
  typed t i (sleep_code ch (Some lk)) (critg i t ie e false) (fun j _ g => exists ie' e', g = critg j t ie' e' false).
Proof.
  intros Hc. unfold sleep_code. apply typed_does, does_mythread; [one_lock|]. apply typed_does, does_myproc; [one_lock|].
  cbn [critg g_x exe_of x_proc x_thread]. fold (exe_of i t ie). fold (critg i t ie e false).
  replace (negb (Nat.eqb lk PTABLE_LOCK)) with true by (symmetry; now apply negb_true_iff, Nat.eqb_neq). cbn [kwhen kbind].
  apply typed_does, does_acquire; [cbn [critg g_hs]; set_solver|one_lock|]. intros ps e' Hal. rewrite got_both.
  destruct (Hal t eq_refl) as (q & th & Hin & Hw & Hpg & Hks & Hrun). specialize (Hrun eq_refl).
  apply typed_does, (does_release _ _ lk true); [cbn [bothg g_hs]; set_solver|done|done| |].
  { intros _. right. split; [cbn [bothg g_hs]; set_solver|]. exists e. done. }
  rewrite lost_commit. apply typed_does. eapply does_tab_thread; [exact Hin|done|done|]. intros ps1 Hin1 _.
  apply typed_does, (does_tab_gets _ _ _ _ _ _ p_threads _ (proj1 Hin1)).
  pose proof (sleep_tail t i ie) as Htail.
  assert (Hsl : sleeping_on ch (set_state SLEEPING (set_chan ch th)) = true).
  { unfold sleeping_on. simpl. now rewrite !bool_decide_eq_true_2 by done. }
  destruct (others_active _ _ _); cbn [kbind].
  - apply typed_does. eapply does_tab_thread; [exact Hin1|done|done|]. intros ps2 Hin2 _.
    apply typed_does. eapply does_tab_state; [exact Hin2|done|done|]. intros ps3 Hin3 _.
    eapply Htail; [exact Hin3|done|exact Hsl].
  - apply typed_does. eapply does_tab_state; [exact Hin1|done|done|]. intros ps2 Hin2 _.
    apply typed_does. eapply does_tab_thread; [exact Hin2|done|done|]. intros ps3 Hin3 _.
    eapply Htail; [exact Hin3|done|exact Hsl].
Qed.

Lemma wait_loop_typed t n : forall i ie e,
  typed t i (wait_until n) (critg i t ie e false) (fun j _ g => exists ie' e', cond e' = true /\ g = critg j t ie' e' false).
Proof.
  induction n as [|n IH]; intros i ie e; cbn [wait_until]; apply typed_does; eapply does_gets.
  1, 3: intros s gs sus [_ HL] Hi; now rewrite <- (il_ext _ _ _ _ HL i _ e Hi eq_refl).
  - destruct (cond e) eqn:Hc; [cbn; eauto|]. apply typed_does. intros s gs sus _ _. exact I.
  - destruct (cond e) eqn:Hc; [cbn; eauto|]. apply typed_bind. eapply typed_mono; [|now apply sleep_typed]. intros j [] g (ie' & e' & ->). apply IH.
Qed.

Lemma client_typed t i ie cl : typed t i (client_code cl) (outg i t ie) (fun j _ g => exists ie', g = outg j t ie').
Proof.
  destruct cl as [n| |]; cbn [client_code].
  - apply typed_does, does_acquire; [set_solver|one_lock|]. intros ps e _. rewrite got_lk.
    apply typed_bind. eapply typed_mono; [|apply wait_loop_typed]. intros j [] g (ie' & e' & Hc & ->).
    apply typed_does, (does_ext _ _ e' take false); [done|done|]. change (on_ext _ _ _) with (critg j t ie' (take e') false).
    apply typed_does, (does_release _ _ lk false); [cbn [critg g_hs]; set_solver|done|done|done|].
    rewrite lost_lk. cbn. eauto.
  - apply typed_does, does_acquire; [set_solver|one_lock|]. intros ps e Hal. rewrite got_lk.
    apply typed_does, (does_ext _ _ e put true); [done|done|]. change (on_ext _ _ _) with (critg i t ie (put e) true).
    unfold wakeup_code. cbn [kbind].
    apply typed_does, does_acquire; [cbn [critg g_hs]; set_solver|one_lock|]. intros ps1 e1 Hal1. rewrite got_both.
    apply typed_does, (does_wake _ _ ps1); [done|done|].
    change (on_tab _ _ _) with (bothg i t ie (wake_proc ch <$> ps1) (put e) false).
    apply typed_does, (does_release _ _ PTABLE_LOCK false); [cbn [bothg g_hs]; set_solver|done| |done|].
    { intros _. split; [done|]. intros t' Ht'. eexists. split; [reflexivity|]. eapply wake_alive; [|exact (Hal1 t' Ht')].
      intros th Hr. specialize (Hr eq_refl). rewrite wake_thread_other; [exact Hr|]. unfold sleeping_on. now rewrite Hr. }
    rewrite lost_both. apply typed_does, (does_release _ _ lk false); [cbn [critg g_hs]; set_solver|done|done|done|].
    rewrite lost_lk. cbn. eauto.
  - unfold yield_code. apply typed_does, does_acquire; [set_solver|one_lock|]. intros ps e Hal. rewrite got_table.
    destruct (Hal t eq_refl) as (q & th & Hin & Hw & Hpg & Hks & Hrun). specialize (Hrun eq_refl).
    assert (Hno : sleeping_on ch th = true -> false = true) by (unfold sleeping_on; rewrite Hrun; discriminate).
    apply typed_does, does_myproc; [one_lock|]. apply typed_does, does_ret.
    apply typed_does. eapply does_tab_state; [exact Hin|done|exact Hno|]. intros ps1 Hin1 _.
    apply typed_does, does_mythread; [one_lock|]. apply typed_does, does_ret.
    apply typed_does. eapply does_tab_thread; [exact Hin1|done|done|]. intros ps2 Hin2 _.
    eapply (typed_sched t i (tabg i t ie ps2 false)); [done|done|done|done|exact Hin2|done|now left|].
    intros j ie' ps' Hal'. change (resg j t ie' ps') with (tabg j t ie' ps' false).
    apply typed_does, does_drop_table; [exact Hal'|]. cbn. eauto.
Qed.

(** ** The system *)
Definition returns (t : nat * nat) (j : nat) (_ : unit) (g : ghost) : Prop := exists ie, g = outg j t ie.

Definition job_ok (i : nat) (jb : job) (g : ghost) : Prop :=
  match jb with
  | Run t c ks => typed t i c g (returns t) /\ sched_cont i ks
  | Scheduling => exists x, g = schedg x
  | Between => exists x, g = idleg x
  end.

Definition resumable (t : nat * nat) (kk : suspended) : Prop :=
  forall j ie ps s gs sus, Inv s gs sus -> gs !! j = Some (resg j t ie ps) -> m_cur (k_mach s) = j ->
    alive ps t (fun th => th_state th = RUNNING) ->
    total kk s (fun c s' => exists g', Inv s' (<[j := g']> gs) sus /\ typed t j c g' (returns t)).

Definition sys_inv (y : sys) : Prop :=
  exists gs, Inv (y_k y) gs (dom (y_pool y)) /\
    (forall i jb, y_jobs y !! i = Some jb -> exists g, gs !! i = Some g /\ job_ok i jb g) /\
    (forall t kk, y_pool y !! t = Some kk -> resumable t kk).

(** The processor [i] goes on to [jb]. *)
Lemma sys_inv_update s gs js pool i jb0 jb g :
  js !! i = Some jb0 -> (forall j jb, js !! j = Some jb -> exists g, gs !! j = Some g /\ job_ok j jb g) ->
  (forall t kk, pool !! t = Some kk -> resumable t kk) ->
  Inv s (<[i := g]> gs) (dom pool) -> job_ok i jb g -> sys_inv (mkSys s (<[i := jb]> js) pool).
Proof.
  intros Hi Hjs Hpool HI Hok. exists (<[i := g]> gs). split; [exact HI|]. split; [|exact Hpool]. cbn [y_jobs].
  intros j jb' [(<- & <- & _)|[Hne Hj]]%list_lookup_insert_Some.
  - exists g. split; [|exact Hok]. destruct (Hjs i jb0 Hi) as (g0 & Hg0 & _). apply list_lookup_insert_eq. eauto using lookup_lt_Some.
  - rewrite list_lookup_insert_ne by done. auto.
Qed.

Lemma fresh_resumable t : resumable t fresh.
Proof.
  intros j ie ps s gs sus HI Hj Hc Hal. exists (resg j t ie ps). rewrite list_insert_id by exact Hj. split; [exact HI|].
  apply typed_does. change (resg j t ie ps) with (tabg j t ie ps false). apply does_drop_table; [exact Hal|]. cbn. now exists ie.
Qed.

(** What one action of a running thread may do. *)
Lemma typed_action t i c g s gs sus : typed t i c g (returns t) -> Inv s gs sus -> gs !! i = Some g ->
  match kstep c (cur i s) with
  | Done c' s' => exists g', Inv s' (<[i := g']> gs) sus /\ typed t i c' g' (returns t)
  | Switch s' kk => (exists x, m_cur (k_mach s') = i /\ Inv s' (<[i := schedg x]> gs) ({[t]} ∪ sus)) /\ resumable t kk
  | Spin => True
  | Crash _ => False
  end.
Proof.
  intros Ht HI Hi. destruct c as [u|B act k]; cbn [kstep].
  - exists g. rewrite list_insert_id by exact Hi. split; [exact (inv_at i s gs sus HI)|exact Ht].
  - specialize (Ht s gs sus HI Hi). unfold bind. destruct (act (cur i s)) as [b s'| |s' kk|]; cbn [prog_bind]; try done.
    destruct Ht as [(x & _ & Hc & HI') Hres]. split; [eauto|].
    intros j ie ps s2 gs2 sus2 HI2 Hj Hc2 Hal. specialize (Hres j ie ps s2 gs2 sus2 HI2 Hj Hc2 Hal). unfold total.
    destruct (kk s2); done.
Qed.

(** The scheduler's own steps. *)
Lemma inv_unlock i s gs sus x s' : Inv s gs sus -> gs !! i = Some (schedg x) ->
  krelease PTABLE_LOCK (cur i s) = Done tt s' -> Inv s' (<[i := idleg x]> gs) sus.
Proof.
  intros HI Hi Hr. assert (Hd : does i (schedg x) (krelease PTABLE_LOCK) (fun _ g => g = idleg x)).
  { eapply (does_release _ _ PTABLE_LOCK false); [cbn [schedg g_hs]; set_solver|done|done|done|].
    unfold lost, schedg, idleg. cbn [g_x g_hs g_run g_tab g_ext g_pend g_com]. rewrite decide_True, decide_False by done. f_equal; set_solver. }
  specialize (Hd s gs sus HI Hi). rewrite Hr in Hd. destruct Hd as (g' & HI' & ->). exact HI'.
Qed.

Lemma inv_no_proc i s gs sus x s' : Inv s gs sus -> gs !! i = Some (schedg x) ->
  on_cpus (modify (upd_cpu i (set_cproc None))) (cur i s) = Done tt s' -> exists x', Inv s' (<[i := schedg x']> gs) sus.
Proof.
  intros HI Hi Hr. destruct (im_cpu _ _ (proj1 HI) i _ Hi) as [Hx Hm]. cbn [schedg g_x g_hs] in Hx, Hm.
  assert (Ht : total (on_cpus (modify (upd_cpu i (set_cproc None)))) (cur i s)
    (fun _ s' => exists m', s' = with_mach m' s /\ mst_at (W := frozen (at_cpu i (k_mach s))) 0 (mkExe (x_cpu x) (x_ie x) None (x_thread x)) {[PTABLE_LOCK]} m')).
  { eapply (kset_cproc_total (W := frozen (at_cpu i (k_mach s)))); [exact (mst_frozen _ _ _ Hm)|done|]. intros m' Hm'. exists m'. done. }
  unfold total in Ht. rewrite Hr in Ht. destruct Ht as (m' & -> & Hm').
  exists (mkExe (x_cpu x) (x_ie x) None (x_thread x)). apply (inv_on_x s gs sus i (schedg x) _ m' HI Hi); [exact Hx|discriminate|exact Hm'].
Qed.

Lemma inv_lock i s gs sus x s' : Inv s gs sus -> gs !! i = Some (idleg x) ->
  (on_cpus sti ;;; kacquire PTABLE_LOCK) (cur i s) = Done tt s' -> exists x', Inv s' (<[i := schedg x']> gs) sus.
Proof.
  intros HI Hi Hr. destruct (im_cpu _ _ (proj1 HI) i _ Hi) as [Hx Hm]. cbn [idleg g_x g_hs] in Hx, Hm.
  assert (Ht : total (on_cpus sti) (cur i s)
    (fun _ s1 => m_cur (k_mach s1) = i /\ Inv s1 (<[i := idleg (resume_exe x true)]> gs) sus)).
  { eapply (ksti_total (W := frozen (at_cpu i (k_mach s)))); [exact (mst_frozen _ _ _ Hm)|]. intros m' Hm'.
    split; [exact (eq_trans (proj1 Hm') Hx)|].
    apply (inv_on_x s gs sus i (idleg x) _ m' HI Hi); [exact Hx|discriminate|exact Hm']. }
  apply total_done in Ht as ([] & s1 & Hs1 & Hc & HI1). rewrite (bind_done _ _ _ _ _ Hs1) in Hr.
  assert (Hd : does i (idleg (resume_exe x true)) (kacquire PTABLE_LOCK) (fun _ g => exists ps, g = on_tab ps false (schedg (resume_exe x true)))).
  { apply does_acquire; [cbn [idleg g_hs]; set_solver|one_lock|]. intros ps e _. exists ps.
    unfold got, on_tab, schedg, idleg. cbn [g_x g_hs g_run g_tab g_ext g_pend g_com]. rewrite decide_True, decide_False by done. f_equal; set_solver. }
  assert (Hi1 : <[i := idleg (resume_exe x true)]> gs !! i = Some (idleg (resume_exe x true))).
  { apply list_lookup_insert_eq. eauto using lookup_lt_Some. }
  specialize (Hd s1 _ sus HI1 Hi1). replace (cur i s1) with s1 in Hd.
  2: { unfold cur. rewrite (at_cur i _ Hc). now destruct s1 as [[] ]. }
  rewrite Hr in Hd. destruct Hd as (g' & [HM2 HL2] & ps & ->). rewrite list_insert_insert_eq in HM2, HL2.
  exists (resume_exe x true). rewrite <- (list_insert_insert_eq gs i _ (on_tab ps false (schedg (resume_exe x true)))).
  assert (Hi2 : <[i := on_tab ps false (schedg (resume_exe x true))]> gs !! i = Some (on_tab ps false (schedg (resume_exe x true)))).
  { apply list_lookup_insert_eq. eauto using lookup_lt_Some. }
  split; [now apply (invM_ghost _ _ i _ _ HM2 Hi2)|].
  apply (invL_ghost _ _ _ _ i _ _ HL2 Hi2); try done.
  intros Hcd Hp Hpg. exact (il_cond_at _ _ _ _ i _ HL2 Hi2 Hcd Hp Hpg).
Qed.

Lemma sys_inv_step y y' : sys_inv y -> sstep y y' -> sys_inv y'.
Proof.
  intros (gs & HI & Hjs & Hpool) Hstep. destruct Hstep as
    [s js pool i t ks cl Hi|s js pool i t c ks c' s' Hi Hs|s js pool i t c ks kk s1 s2 Hi Hs Hks
    |s js pool i t kk s1 ks c s2 Hi Ht Hrun Hkk|s js pool i s' Hi Hs|s js pool i s' Hi Hs|s js pool i s' Hi Hs];
    cbn [y_k y_jobs y_pool] in *; destruct (Hjs _ _ Hi) as (g & Hg & Hok).
  - destruct Hok as [[ie ->] Hks]. eapply sys_inv_update; [exact Hi|exact Hjs|exact Hpool|rewrite list_insert_id by exact Hg; exact HI|].
    split; [apply client_typed|exact Hks].
  - destruct Hok as [Hty Hks]. pose proof (typed_action _ _ _ _ s gs _ Hty HI Hg) as Hk. rewrite Hs in Hk.
    destruct Hk as (g' & HI' & Hty'). eapply sys_inv_update; eauto. now split.
  - destruct Hok as [Hty Hcont]. pose proof (typed_action _ _ _ _ s gs _ Hty HI Hg) as Hk. rewrite Hs in Hk.
    destruct Hk as ((x & Hc & HI1) & Hres).
    assert (Hl : <[i := schedg x]> gs !! i = Some (schedg x)) by (apply list_lookup_insert_eq; eauto using lookup_lt_Some).
    specialize (Hcont s1 _ _ x HI1 Hl Hc). unfold total in Hcont. rewrite Hks in Hcont.
    destruct Hcont as (x' & HI2). rewrite list_insert_insert_eq in HI2.
    eapply sys_inv_update; [exact Hi|exact Hjs| |rewrite dom_insert_L; exact HI2|now exists x'].
    intros t' kk' [[<- <-]|[_ Hl']]%lookup_insert_Some; eauto.
  - destruct Hok as [x ->].
    destruct (inv_dispatch i s gs _ x t s1 ks HI Hg (elem_of_dom_2 _ _ _ Ht) Hrun) as (ie & ps & Hc & HI1 & Hal & Hcont).
    assert (Hl : <[i := resg i t ie ps]> gs !! i = Some (resg i t ie ps)) by (apply list_lookup_insert_eq; eauto using lookup_lt_Some).
    pose proof (Hpool t kk Ht i ie ps s1 _ _ HI1 Hl Hc Hal) as Hk. unfold total in Hk. rewrite Hkk in Hk.
    destruct Hk as (g' & HI2 & Hty). rewrite list_insert_insert_eq in HI2.
    eapply sys_inv_update; [exact Hi|exact Hjs| |rewrite dom_delete_L; exact HI2|now split].
    intros t' kk' [_ Hl']%lookup_delete_Some. eauto.
  - destruct Hok as [x ->]. destruct (inv_no_proc i s gs _ x s' HI Hg Hs) as (x' & HI').
    rewrite <- (list_insert_id js i Scheduling Hi). eapply sys_inv_update; eauto. now exists x'.
  - destruct Hok as [x ->]. eapply sys_inv_update; [exact Hi|exact Hjs|exact Hpool|exact (inv_unlock i s gs _ x s' HI Hg Hs)|now exists x].
  - destruct Hok as [x ->]. destruct (inv_lock i s gs _ x s' HI Hg Hs) as (x' & HI').
    eapply sys_inv_update; eauto. now exists x'.
Qed.

Lemma sys_start_inv y : sys_start y -> sys_inv y.
Proof.
  intros (Hjobs & Hfree & Hno & Hpool). destruct y as [s js pool]. cbn [y_k y_jobs y_pool] in *.
  destruct (list_choice (fun i g => exists ie pr, g = idleg (mkExe i ie pr None) /\
    mst_at (W := anyone) 0 (mkExe i ie pr None) ∅ (at_cpu i (k_mach s))) js) as (gs & Hlen & Hgs).
  { intros i jb Hi. destruct (Hjobs i jb Hi) as (_ & ie & pr & Hm). eexists. exists ie, pr. split; [reflexivity|].
    exact (mst_anyone (W := lone) _ _ _ Hm). }
  exists gs. cbn [y_k y_jobs y_pool]. split; [split; split|split].
  - intros i g Hg. destruct (Hgs i g Hg) as (ie & pr & -> & Hm). done.
  - auto.
  - intros i g Hg. destruct (Hgs i g Hg) as (ie & pr & -> & _). split; discriminate.
  - intros i g ps' Hg. destruct (Hgs i g Hg) as (ie & pr & -> & _). discriminate.
  - intros i g e' Hg. destruct (Hgs i g Hg) as (ie & pr & -> & _). discriminate.
  - intros i g t Hg. destruct (Hgs i g Hg) as (ie & pr & -> & _). discriminate.
  - intros i j g g' t Hg _. destruct (Hgs i g Hg) as (ie & pr & -> & _). discriminate.
  - intros t [kk Hkk]%elem_of_dom. destruct (Hpool t kk Hkk) as [_ Hal]. eapply alive_mono; [|exact Hal]. auto.
  - intros t q th Hin Hs. rewrite (Hno t q th Hin) in Hs. discriminate.
  - intros _ _. split; [|exact Hno]. intros i g Hg. destruct (Hgs i g Hg) as (ie & pr & -> & _). done.
  - intros i jb Hi. destruct (lookup_lt_is_Some_2 gs i) as [g Hg]; [rewrite Hlen; eauto using lookup_lt_Some|].
    exists g. split; [exact Hg|]. destruct (Hgs i g Hg) as (ie & pr & -> & _). destruct (Hjobs i jb Hi) as [-> _]. eexists. reflexivity.
  - intros t kk Hkk. destruct (Hpool t kk Hkk) as [-> _]. apply fresh_resumable.
Qed.

End System.

(** ** Schedules
    [snext] makes the step of processor [i] that the event asks for. *)
Inductive sevent := Go | Call (cl : client) | Dispatch (t : nat * nat) | Unlock | Lock.

Section Schedules.
Context {E : Type} (lk : nat) (ch : chan) (kpg : Z) (cond : E -> bool) (put take : E -> E).

Definition snext (e : nat * sevent) (y : sys) : option sys :=
  let '(i, ev) := e in
  let goto (jb : job) (s : kstate E) pool := Some (mkSys s (<[i := jb]> (y_jobs y)) pool) in
  match y_jobs y !! i, ev with
  | Some (Run t (KRet tt) ks), Call cl => goto (Run t (client_code lk ch cond put take cl) ks) (y_k y) (y_pool y)
  | Some (Run t c ks), Go =>
      match kstep c (cur i (y_k y)) with
      | Done c' s' => goto (Run t c' ks) s' (y_pool y)
      | Switch s1 kk => match ks s1 with Done tt s2 => goto Scheduling s2 (<[t := kk]> (y_pool y)) | _ => None end
      | _ => None
      end
  | Some Scheduling, Dispatch t =>
      match y_pool y !! t, run_thread kpg i t.1 t.2 (cur i (y_k y)) with
      | Some kk, Switch s1 ks => match kk s1 with Done c s2 => goto (Run t c ks) s2 (delete t (y_pool y)) | _ => None end
      | _, _ => None
      end
  | Some Scheduling, Unlock =>
      match krelease PTABLE_LOCK (cur i (y_k y)) with Done tt s' => goto Between s' (y_pool y) | _ => None end
  | Some Between, Lock =>
      match (on_cpus sti ;;; kacquire PTABLE_LOCK) (cur i (y_k y)) with Done tt s' => goto Scheduling s' (y_pool y) | _ => None end
  | _, _ => None
  end.

Fixpoint srun_events (es : list (nat * sevent)) (y : sys) : sys :=
  match es with
  | [] => y
  | e :: es' => srun_events es' (default y (snext e y))
  end.

Lemma snext_sstep e y y' : snext e y = Some y' -> sstep lk ch kpg cond put take y y'.
Proof.
  destruct e as [i ev], y as [s js pool]. unfold snext. cbn [y_k y_jobs y_pool].
  destruct (js !! i) as [[t c ks| |]|] eqn:Hi; try discriminate.
  - destruct c as [[]|B act k], ev; try discriminate.
    + intros [= <-]. eapply s_act; [exact Hi|reflexivity].
    + intros [= <-]. now constructor.
    + repeat case_match; intros; simplify_eq; econstructor; eassumption.
  - destruct ev; try discriminate; repeat case_match; intros; simplify_eq; econstructor; eassumption.
  - destruct ev; try discriminate; repeat case_match; intros; simplify_eq; econstructor; eassumption.
Qed.

Lemma srun_rtc es : forall y, rtc (sstep lk ch kpg cond put take) y (srun_events es y).
Proof.
  induction es as [|e es IH]; cbn [srun_events]; intros y; [constructor|].
  destruct (snext e y) as [y'|] eqn:He; [|apply IH]. eapply rtc_l; [exact (snext_sstep _ _ _ He)|apply IH].
Qed.
End Schedules.

(** Two processors; thread 0 of process 0 finds the condition false and goes to
    sleep while thread 1, on the other processor, is already waiting for [lk] in
    order to make it true. *)
Definition two_sys : sys :=
  mkSys (mkK (mkKst two_cpus (mkKmem true 0 ∅ 0x80115000)) (demo_proc RUNNABLE RUNNABLE :: replicate 63 proc0)
           (replicate MAX_MUTEXES mutex0) (Some 0%nat) 2 false 0)
    [Between; Between] {[ (0, 0)%nat := fresh; (0, 1)%nat := fresh ]}.

Definition race : list (nat * sevent) :=
  [(0%nat, Lock); (0%nat, Dispatch (0, 0)%nat); (0%nat, Go); (1%nat, Lock); (1%nat, Dispatch (0, 1)%nat); (1%nat, Go);
   (0%nat, Call (Wait 3)); (0%nat, Go); (1%nat, Call Wake)] ++
  concat (replicate 10 [(0%nat, Go); (1%nat, Go)]) ++ [(0%nat, Unlock)] ++ replicate 5 (1%nat, Go).
Definition after (n : nat) : sys := srun_events 5 (CObj 77) 0x80119000 (fun n => 0 <? n) Z.succ Z.pred (take n race) two_sys.

Lemma two_sys_start : sys_start (CObj 77) two_sys.
Proof.
  split; [|split; [|split]].
  - intros i jb Hi. split; [now destruct i as [|[|]]; simplify_eq/=|]. exists true, None.
    assert (i = 0 \/ i = 1)%nat as Hi2 by (destruct i as [|[|]]; [auto|auto|simplify_eq/=]).
    split; [done|]. split; [rewrite size_empty; lia|]. split; [|split; [set_solver|split; [|done]]].
    + destruct Hi2 as [->| ->]; (eexists; split; [split; [reflexivity|split]|]); try done.
      all: apply NoDup_ListNoDup; repeat constructor; simpl; intuition lia.
    + intros a _. unfold the_lock. cbn. now rewrite lookup_total_empty.
  - intros a. unfold lock_free, the_lock. cbn. now rewrite lookup_total_empty.
  - intros [p j] q th [Hq Hth]. cbn [fst snd] in *. destruct p as [|p].
    + injection Hq as <-. cbn [demo_proc p_threads] in Hth. destruct j as [|[|j]]; [by injection Hth as <-|by injection Hth as <-|].
      cbn [lookup list_lookup] in Hth. apply lookup_replicate in Hth as [-> _]. reflexivity.
    + cbn [two_sys y_k k_procs lookup list_lookup] in Hq. apply lookup_replicate in Hq as [-> _].
      apply lookup_replicate in Hth as [-> _]. reflexivity.
  - intros t kk Hkk. cbn [two_sys y_pool] in Hkk. apply lookup_insert_Some in Hkk as [[<- <-]|[_ [<- <-]%lookup_singleton_Some]].
    all: split; [done|]. all: eexists _, _; repeat split; discriminate.
Qed.

