(* ===== verification/Store.v ===== *)
(** * The data of the storage system (buf.h, fs.h, file.h, log.c, pipe.c, console.c,
    ide.c, lapic.c, ioapic.c)

    The part of the kernel's state that the buffer cache, the log, the file
    system, the file table, the pipes, the console and the drivers use, and
    sleeping locks (sleeplock.c).
    A pointer to a buffer, inode or file is its index in the table; a sleeping
    lock is named by a number, from which the spin lock inside it and the
    channel of its sleepers derive.

    [st_disk] is the disk of memide.c; [st_writes] records the blocks written
    to it in order, which no code reads: the disk after a power failure is the
    result of a prefix of them. *)
From S2P Require Import Prelude Mmu Str Spinlock Kalloc Proc Exec Sched.

Definition BSIZE : Z := 512.
Definition MAXOPBLOCKS : Z := 10.
Definition LOGSIZE : Z := MAXOPBLOCKS * 3.
Definition NBUF : nat := 30.
Definition NINODE : nat := 50.
Definition NFILE : nat := 100.
Definition NDEV : Z := 10.
Definition FSSIZE : Z := 1000.
Definition ROOTDEV : Z := 1.
Definition ROOTINO : Z := 1.
Definition NDIRECT : Z := 12.
Definition NINDIRECT : Z := BSIZE / 4.
Definition MAXFILE : Z := NDIRECT + NINDIRECT.
Definition DIRSIZ : Z := 14.
Definition B_VALID : Z := 2.
Definition B_DIRTY : Z := 4.
Definition T_DIR : Z := 1.
Definition T_FILE : Z := 2.
Definition T_DEV : Z := 3.

Record sleeplock := mkSleep { sl_locked : Z; sl_pid : Z }.

Record buf := mkBuf {
  b_flags : Z;
  b_dev : Z;
  b_blockno : Z;
  b_refcnt : Z;
  b_prev : nat;
  b_next : nat;
  b_data : list Z;
}.
Definition buf0 : buf := mkBuf 0 0 0 0 0 0 (replicate (Z.to_nat BSIZE) 0).

Record log := mkLog {
  lg_start : Z;
  lg_size : Z;
  lg_outstanding : Z;
  lg_committing : Z;
  lg_dev : Z;
  lg_n : Z;
  lg_block : list Z;
}.
Definition log0 : log := mkLog 0 0 0 0 0 0 (replicate (Z.to_nat LOGSIZE) 0).

Record superblock := mkSb {
  sb_size : Z;
  sb_nblocks : Z;
  sb_ninodes : Z;
  sb_nlog : Z;
  sb_logstart : Z;
  sb_inodestart : Z;
  sb_bmapstart : Z;
}.

Record inode := mkInode {
  i_dev : Z;
  i_inum : Z;
  i_ref : Z;
  i_valid : Z;
  i_type : Z;
  i_major : Z;
  i_minor : Z;
  i_nlink : Z;
  i_size : Z;
  i_addrs : list Z;
}.
Definition inode0 : inode := mkInode 0 0 0 0 0 0 0 0 0 (replicate 13 0).

Inductive filetype := FD_NONE | FD_PIPE | FD_INODE.
#[global] Instance filetype_eq_dec : EqDecision filetype.
Proof. solve_decision. Defined.

(** [f_pipe] is the address of the pipe's page. *)
Record file := mkFile {
  f_type : filetype;
  f_ref : Z;
  f_readable : Z;
  f_writable : Z;
  f_pipe : Z;
  f_ip : option nat;
  f_off : Z;
}.
Definition file0 : file := mkFile FD_NONE 0 0 0 0 None 0.

Record pipe := mkPipe {
  pi_data : list Z;
  pi_nread : Z;
  pi_nwrite : Z;
  pi_readopen : Z;
  pi_writeopen : Z;
}.

(** The console (console.c, kbd.c, uart.c): the ring of typed characters, the
    memory of the screen with the cursor register, what was sent over the
    serial line, and what the keyboard controller and the serial port have
    received and not yet delivered.  [c_port] tells whether there is a port. *)
Record input := mkInput { in_buf : list Z; in_r : Z; in_w : Z; in_e : Z }.
Record console := mkConsole {
  c_locking : Z;
  c_panicked : Z;
  c_input : input;
  c_crt : list Z;
  c_pos : Z;
  c_port : bool;
  c_uart : Z;
  c_serial : list Z;
  c_shift : Z;
  c_kbd : list Z;
  c_com : list Z;
}.
Definition INPUT_BUF : Z := 128.
Definition input0 : input := mkInput (replicate (Z.to_nat INPUT_BUF) 0) 0 0 0.
Definition console0 : console := mkConsole 0 0 input0 (replicate (128 * 128) 0) 0 true 0 [] 0 [] [].

(** The driver of the IDE disks (ide.c): the queue of requests, linked through
    the buffers, and the controller: the bytes last written to its ports, the
    values that its status port will show, whether a command has been given and
    its interrupt not yet raised, and the sectors of disk 0; those of disk 1 are
    the disk below. *)
Record ide := mkIde {
  id_queue : option nat;
  id_qnext : list (option nat);
  id_havedisk1 : Z;
  id_reg : gmap Z Z;
  id_status : list Z;
  id_pending : bool;
  id_disk0 : gmap Z (list Z);
}.
Definition ide0 : ide := mkIde None (replicate NBUF None) 0 ∅ [] false ∅.

(** The interrupt controllers and other devices (lapic.c, ioapic.c, picirq.c,
    mp.c, trap.c): the id of the I/O APIC and the address of the local one, both
    found by mp.c; the registers of the local APICs that were written, in order,
    with the processor that wrote, the version register and the values that the
    command register will show; the selected register of the I/O APIC and its
    registers; the bytes sent to other ports, in order, the value of the port
    of the interrupt mode; the interrupt descriptor table. *)
Record devs := mkDevs {
  dv_ioapicid : Z;
  dv_lapic : Z;
  dv_apic : list (nat * Z * Z);
  dv_apicver : Z;
  dv_icr : list Z;
  dv_ioreg : Z;
  dv_ioapic : gmap Z Z;
  dv_ports : list (Z * Z);
  dv_imcr : Z;
  dv_idt : list gatedesc;
}.
Definition devs0 : devs := mkDevs 0 0 [] 0 [] 0 ∅ [] 0 (replicate 256 gatedesc0).

Record storage := mkStorage {
  st_sleep : gmap nat sleeplock;
  st_bufs : list buf;
  st_disk : gmap Z (list Z);
  st_disksize : Z;
  st_writes : list (Z * list Z);
  st_log : log;
  st_sb : superblock;
  st_inodes : list inode;
  st_files : list file;
  st_pipes : gmap Z pipe;
  st_ticks : Z;
  st_cons : console;
  st_ide : ide;
  st_devs : devs;
}.

Abbreviation kfs := (kstate storage).

(** ** Updates *)
Definition upd_store (f : storage -> storage) (s : kfs) : kfs := set_k_ext (f (k_ext s)) s.

Definition set_sleep (i : nat) (v : sleeplock) (st : storage) : storage :=
  mkStorage (<[i := v]> (st_sleep st)) (st_bufs st) (st_disk st) (st_disksize st) (st_writes st) (st_log st) (st_sb st) (st_inodes st) (st_files st) (st_pipes st) (st_ticks st) (st_cons st) (st_ide st) (st_devs st).
Definition set_bufs (v : list buf) (st : storage) : storage :=
  mkStorage (st_sleep st) v (st_disk st) (st_disksize st) (st_writes st) (st_log st) (st_sb st) (st_inodes st) (st_files st) (st_pipes st) (st_ticks st) (st_cons st) (st_ide st) (st_devs st).
Definition set_log (v : log) (st : storage) : storage :=
  mkStorage (st_sleep st) (st_bufs st) (st_disk st) (st_disksize st) (st_writes st) v (st_sb st) (st_inodes st) (st_files st) (st_pipes st) (st_ticks st) (st_cons st) (st_ide st) (st_devs st).
Definition set_sb (v : superblock) (st : storage) : storage :=
  mkStorage (st_sleep st) (st_bufs st) (st_disk st) (st_disksize st) (st_writes st) (st_log st) v (st_inodes st) (st_files st) (st_pipes st) (st_ticks st) (st_cons st) (st_ide st) (st_devs st).
Definition set_inodes (v : list inode) (st : storage) : storage :=
  mkStorage (st_sleep st) (st_bufs st) (st_disk st) (st_disksize st) (st_writes st) (st_log st) (st_sb st) v (st_files st) (st_pipes st) (st_ticks st) (st_cons st) (st_ide st) (st_devs st).
Definition set_files (v : list file) (st : storage) : storage :=
  mkStorage (st_sleep st) (st_bufs st) (st_disk st) (st_disksize st) (st_writes st) (st_log st) (st_sb st) (st_inodes st) v (st_pipes st) (st_ticks st) (st_cons st) (st_ide st) (st_devs st).
Definition set_pipes (v : gmap Z pipe) (st : storage) : storage :=
  mkStorage (st_sleep st) (st_bufs st) (st_disk st) (st_disksize st) (st_writes st) (st_log st) (st_sb st) (st_inodes st) (st_files st) v (st_ticks st) (st_cons st) (st_ide st) (st_devs st).
Definition set_ticks (v : Z) (st : storage) : storage :=
  mkStorage (st_sleep st) (st_bufs st) (st_disk st) (st_disksize st) (st_writes st) (st_log st) (st_sb st) (st_inodes st) (st_files st) (st_pipes st) v (st_cons st) (st_ide st) (st_devs st).
Definition set_cons (v : console) (st : storage) : storage :=
  mkStorage (st_sleep st) (st_bufs st) (st_disk st) (st_disksize st) (st_writes st) (st_log st) (st_sb st) (st_inodes st) (st_files st) (st_pipes st) (st_ticks st) v (st_ide st) (st_devs st).
Definition set_ide (v : ide) (st : storage) : storage :=
  mkStorage (st_sleep st) (st_bufs st) (st_disk st) (st_disksize st) (st_writes st) (st_log st) (st_sb st) (st_inodes st) (st_files st) (st_pipes st) (st_ticks st) (st_cons st) v (st_devs st).
Definition set_dev (v : devs) (st : storage) : storage :=
  mkStorage (st_sleep st) (st_bufs st) (st_disk st) (st_disksize st) (st_writes st) (st_log st) (st_sb st) (st_inodes st) (st_files st) (st_pipes st) (st_ticks st) (st_cons st) (st_ide st) v.
Definition set_disksize (v : Z) (st : storage) : storage :=
  mkStorage (st_sleep st) (st_bufs st) (st_disk st) v (st_writes st) (st_log st) (st_sb st) (st_inodes st) (st_files st) (st_pipes st) (st_ticks st) (st_cons st) (st_ide st) (st_devs st).
(** A block written to the disk. *)
Definition disk_write (b : Z) (d : list Z) (st : storage) : storage :=
  mkStorage (st_sleep st) (st_bufs st) (<[b := d]> (st_disk st)) (st_disksize st) (st_writes st ++ [(b, d)]) (st_log st) (st_sb st) (st_inodes st) (st_files st) (st_pipes st) (st_ticks st) (st_cons st) (st_ide st) (st_devs st).

Definition upd_buf (i : nat) (f : buf -> buf) (st : storage) : storage := set_bufs (alter f i (st_bufs st)) st.
Definition upd_log (f : log -> log) (st : storage) : storage := set_log (f (st_log st)) st.
Definition upd_inode (i : nat) (f : inode -> inode) (st : storage) : storage := set_inodes (alter f i (st_inodes st)) st.
Definition upd_file (i : nat) (f : file -> file) (st : storage) : storage := set_files (alter f i (st_files st)) st.

Definition the_buf (i : nat) (st : storage) : buf := default buf0 (st_bufs st !! i).
Definition the_inode (i : nat) (st : storage) : inode := default inode0 (st_inodes st !! i).
Definition the_file (i : nat) (st : storage) : file := default file0 (st_files st !! i).
Definition the_sleep (i : nat) (st : storage) : sleeplock := default (mkSleep 0 0) (st_sleep st !! i).
Definition block (b : Z) (st : storage) : list Z := default (replicate (Z.to_nat BSIZE) 0) (st_disk st !! b).

Definition getst {A} (f : storage -> A) : M kfs A := gets (fun s => f (k_ext s)).
Definition modst (f : storage -> storage) : M kfs unit := modify (upd_store f).

(** ** Numbers in blocks, little-endian *)
Definition byte (d : list Z) (i : Z) : Z := default 0 (d !! Z.to_nat i).
Definition set_byte (i v : Z) (d : list Z) : list Z := <[Z.to_nat i := u8 v]> d.
Definition get16 (d : list Z) (i : Z) : Z := byte d i + 256 * byte d (i + 1).
Definition get32 (d : list Z) (i : Z) : Z := byte d i + 256 * byte d (i + 1) + 65536 * byte d (i + 2) + 16777216 * byte d (i + 3).
Definition put16 (i v : Z) (d : list Z) : list Z := set_byte (i + 1) (v / 256) (set_byte i v d).
Definition put32 (i v : Z) (d : list Z) : list Z :=
  set_byte (i + 3) (v / 16777216) (set_byte (i + 2) (v / 65536) (set_byte (i + 1) (v / 256) (set_byte i v d))).
Definition s16 (z : Z) : Z := (z + 32768) mod 65536 - 32768.

(** ** Sleeping locks

    The number of times a sleeper is woken to find the lock still held is
    bounded by [wait_bound]; a run that needs more is [Spin]. *)
Class Wait := wait_bound : nat.

(** The sleeping lock of a buffer and of an inode, the spin lock inside and the
    channel. *)
Definition buf_lock (i : nat) : nat := i.
Definition inode_lock (i : nat) : nat := (NBUF + i)%nat.
Definition sleep_spin (l : nat) : nat := (200 + l)%nat.
Definition sleep_chan (l : nat) : chan := CObj (Z.of_nat l).

Section Sleep.
Context {W : Wait}.

Definition initsleeplock (l : nat) : M kfs unit :=
  on_cpus (initlock (sleep_spin l) "sleep lock") ;;;
  modst (set_sleep l (mkSleep 0 0)).

Fixpoint acquiresleep_loop (fuel l : nat) : M kfs unit :=
  v <~ getst (fun st => sl_locked (the_sleep l st)) ;;
  if v =? 0 then ret tt
  else match fuel with
       | O => fun _ => Spin
       | S fuel => sleep (sleep_chan l) (Some (sleep_spin l)) ;;; acquiresleep_loop fuel l
       end.
Definition mypid : M kfs Z :=
  p <~ myproc ;;
  p <~ deref p ;;
  gets (fun s => p_pid (the_proc p s)).
Definition acquiresleep (l : nat) : M kfs unit :=
  kacquire (sleep_spin l) ;;;
  acquiresleep_loop wait_bound l ;;;
  modst (fun st => set_sleep l (mkSleep 1 (sl_pid (the_sleep l st))) st) ;;;
  pid <~ mypid ;;
  modst (fun st => set_sleep l (mkSleep (sl_locked (the_sleep l st)) pid) st) ;;;
  krelease (sleep_spin l).

Definition releasesleep (l : nat) : M kfs unit :=
  kacquire (sleep_spin l) ;;;
  modst (set_sleep l (mkSleep 0 0)) ;;;
  wakeup (sleep_chan l) ;;;
  krelease (sleep_spin l).

Definition holdingsleep (l : nat) : M kfs bool :=
  kacquire (sleep_spin l) ;;;
  v <~ getst (fun st => the_sleep l st) ;;
  r <~ (if sl_locked v =? 0 then ret false
        else pid <~ mypid ;; ret (sl_pid v =? pid)) ;;
  krelease (sleep_spin l) ;;;
  ret r.
End Sleep.

(** ** Runs of storage operations

    An operation called by the process [w_pid w] on the processor of
    [w_exe w], with the spin locks [hs] held, changes the storage and may make
    threads runnable.  [srun w hs m st hs' Q]: from any such state with the
    storage [st] it returns, without a panic and without sleeping, holding
    [hs'], and its result and the new storage satisfy [Q]. *)
Record who := mkWho { w_exe : exe; w_pid : Z; w_kmem : kmem }.

Definition env (w : who) (hs : gset nat) (s : kfs) : Prop :=
  mst (w_exe w) hs (k_mach s) /\ ks_kmem (k_base s) = w_kmem w /\
  exists p q, x_proc (w_exe w) = Some p /\ k_procs s !! p = Some q /\ p_pid q = w_pid w.

Definition srun {A : Type} (w : who) (hs : gset nat) (m : M kfs A) (st : storage) (hs' : gset nat)
    (Q : A -> storage -> Prop) : Prop :=
  forall s, env w hs s -> k_ext s = st -> total m s (fun a s' => env w hs' s' /\ Q a (k_ext s')).

Section Runs.
Context (w : who).
Implicit Types (hs : gset nat) (st : storage).

Lemma srun_bind {A B} hs hs1 hs2 (m : M kfs A) (f : A -> M kfs B) st Q :
  srun w hs m st hs1 (fun a st1 => srun w hs1 (f a) st1 hs2 Q) -> srun w hs (bind m f) st hs2 Q.
Proof.
  intros H s He Hs. apply total_bind. eapply total_mono; [|exact (H s He Hs)].
  intros a s' [He' H']. now apply H'.
Qed.

Lemma srun_mono {A} hs hs' (m : M kfs A) st (Q Q' : A -> storage -> Prop) :
  (forall a st', Q a st' -> Q' a st') -> srun w hs m st hs' Q -> srun w hs m st hs' Q'.
Proof.
  intros HQ H s He Hs. eapply total_mono; [|exact (H s He Hs)]. intros a s' [? ?]. auto.
Qed.

Lemma srun_ret {A} hs (a : A) st (Q : A -> storage -> Prop) : Q a st -> srun w hs (ret a) st hs Q.
Proof. intros HQ s He <-. now split. Qed.

Lemma srun_getst {A} hs (f : storage -> A) st (Q : A -> storage -> Prop) :
  Q (f st) st -> srun w hs (getst f) st hs Q.
Proof. intros HQ s He <-. now split. Qed.

Lemma srun_modst hs f st (Q : unit -> storage -> Prop) : Q tt (f st) -> srun w hs (modst f) st hs Q.
Proof. intros HQ s (Hm & Hk & Hp) <-. split; [|exact HQ]. split; [exact Hm|]. split; [exact Hk|exact Hp]. Qed.

Lemma srun_when hs b m st (Q : unit -> storage -> Prop) :
  (b = true -> srun w hs m st hs Q) -> (b = false -> Q tt st) -> srun w hs (when b m) st hs Q.
Proof. destruct b; intros H1 H2; [now apply H1|apply srun_ret; auto]. Qed.

Lemma env_with hs hs' m s : env w hs s -> mst (w_exe w) hs' m -> env w hs' (with_mach m s).
Proof. intros (_ & Hk & Hp) Hm. split; [exact Hm|]. split; [exact Hk|exact Hp]. Qed.

Lemma srun_kacquire hs a st (Q : unit -> storage -> Prop) :
  a ∉ hs -> (size hs < 8)%nat -> Q tt st -> srun w hs (kacquire a) st ({[a]} ∪ hs) Q.
Proof.
  intros Ha Hsz HQ s He <-. eapply kacquire_total; [apply He|done|done|].
  intros m' Hm'. split; [eauto using env_with|exact HQ].
Qed.

Lemma srun_krelease hs hs' a st (Q : unit -> storage -> Prop) :
  hs = {[a]} ∪ hs' -> a ∉ hs' -> Q tt st -> srun w hs (krelease a) st hs' Q.
Proof.
  intros -> Ha HQ s He <-. eapply krelease_total; [apply He|set_solver|].
  intros m' Hm'. split; [|exact HQ]. eapply env_with; [exact He|].
  now replace hs' with (({[a]} ∪ hs') ∖ {[a]} : gset nat) by set_solver.
Qed.

Lemma srun_initlock hs a nm st (Q : unit -> storage -> Prop) :
  a ∉ hs -> Q tt st -> srun w hs (on_cpus (initlock a nm)) st hs Q.
Proof.
  intros Ha HQ s He <-. eapply total_intro; [eapply on_cpus_done; reflexivity|]. split; [|exact HQ].
  eapply env_with; [exact He|]. destruct He as ((Hcur & Hsz & Hc & Hh & Hf & _) & _).
  split; [exact Hcur|]. split; [exact Hsz|]. split; [exact Hc|]. split; [|split; [|done]]; intros b Hb.
  - unfold held_by. rewrite the_lock_set_ne by set_solver. now apply Hh.
  - destruct (decide (a = b)) as [<-|Hne]; [now rewrite the_lock_set|].
    rewrite the_lock_set_ne by done. now apply Hf.
Qed.

Lemma srun_mypid hs st (Q : Z -> storage -> Prop) :
  (size hs < 8)%nat -> Q (w_pid w) st -> srun w hs mypid st hs Q.
Proof.
  intros Hsz HQ s He <-. pose proof He as (Hm & _ & (p & q & Hx & Hp & Hpid)).
  unfold mypid. apply total_bind. eapply myproc_total; [exact Hm|done|]. intros m1 H1. rewrite Hx.
  kgo. unfold the_proc. simpl. rewrite Hp. simpl. rewrite Hpid. split; [eauto using env_with|exact HQ].
Qed.

Lemma srun_wakeup hs ch st (Q : unit -> storage -> Prop) :
  PTABLE_LOCK ∉ hs -> (size hs < 8)%nat -> Q tt st -> srun w hs (wakeup ch) st hs Q.
Proof.
  intros Hn Hsz HQ s (Hm & Hk & (p & q & Hx & Hp & Hpid)) <-. eapply wakeup_total; [exact Hm|done|done|].
  intros m' Hm'. split; [|exact HQ]. split; [exact Hm'|]. split; [exact Hk|].
  exists p, (wake_proc ch q). split; [exact Hx|]. split; [simpl; now rewrite list_lookup_fmap, Hp|].
  rewrite <- Hpid. unfold wake_proc. now destruct (wakeable _).
Qed.
End Runs.

Lemma srun_done {A} w (m : M kfs A) s Q : srun w ∅ m (k_ext s) ∅ Q -> env w ∅ s ->
  exists a s', m s = Done a s' /\ env w ∅ s' /\ Q a (k_ext s').
Proof.
  intros H He. destruct (total_done _ _ _ (H s He eq_refl)) as (a & s' & Hr & He' & HQ). eauto.
Qed.

Lemma set_sleep_set l v u st : set_sleep l v (set_sleep l u st) = set_sleep l v st.
Proof. unfold set_sleep. simpl. now rewrite insert_insert_eq. Qed.

Lemma the_sleep_set l v st : the_sleep l (set_sleep l v st) = v.
Proof. unfold the_sleep. simpl. now rewrite lookup_insert_eq. Qed.

Lemma the_sleep_set_ne l k v st : l <> k -> the_sleep k (set_sleep l v st) = the_sleep k st.
Proof. intros H. unfold the_sleep. simpl. now rewrite lookup_insert_ne. Qed.

(** Forward execution: one step of a storage program whose first operation is
    simple. *)
Ltac sbind := lazymatch goal with |- srun _ _ (bind _ _) _ _ _ => eapply srun_bind | _ => idtac end.
Ltac sgo1 :=
  lazymatch goal with
  | |- srun _ _ (bind ?m _) _ _ _ =>
      lazymatch m with
      | getst _ => eapply srun_bind, srun_getst | modst _ => eapply srun_bind, srun_modst
      | ret _ => eapply srun_bind, srun_ret
      | kacquire _ => eapply srun_bind, srun_kacquire; [set_solver|kset|]
      | krelease _ => eapply srun_bind, srun_krelease; [reflexivity|set_solver|]
      | on_cpus (initlock _ _) => eapply srun_bind, srun_initlock; [set_solver|]
      | mypid => eapply srun_bind, srun_mypid; [kset|]
      | bind _ _ => eapply srun_bind
      end
  | |- srun _ _ (getst _) _ _ _ => apply srun_getst
  | |- srun _ _ (modst _) _ _ _ => apply srun_modst
  | |- srun _ _ (ret _) _ _ _ => apply srun_ret
  | |- srun _ _ (krelease _) _ _ _ => eapply srun_krelease; [reflexivity|set_solver|]
  end.
Ltac sgo := repeat sgo1.

Section SleepRuns.
Context {W : Wait} (w : who).

Lemma srun_acquiresleep hs l st (Q : unit -> storage -> Prop) :
  sleep_spin l ∉ hs -> (size hs < 7)%nat -> sl_locked (the_sleep l st) = 0 ->
  Q tt (set_sleep l (mkSleep 1 (w_pid w)) st) -> srun w hs (acquiresleep l) st hs Q.
Proof.
  intros Ha Hsz Hl HQ. unfold acquiresleep. sgo. eapply srun_bind.
  unfold acquiresleep_loop. destruct wait_bound; sgo; rewrite Hl; simpl; sgo;
    rewrite set_sleep_set, the_sleep_set; exact HQ.
Qed.

Lemma srun_releasesleep hs l st (Q : unit -> storage -> Prop) :
  sleep_spin l ∉ hs -> PTABLE_LOCK ∉ hs -> (size hs < 7)%nat ->
  Q tt (set_sleep l (mkSleep 0 0) st) -> srun w hs (releasesleep l) st hs Q.
Proof.
  intros Ha Hp Hsz HQ. unfold releasesleep. sgo. eapply srun_bind, srun_wakeup; [|kset|].
  - assert (sleep_spin l <> PTABLE_LOCK) by (unfold sleep_spin, PTABLE_LOCK; lia). set_solver.
  - sgo. exact HQ.
Qed.

Lemma srun_holdingsleep hs l st (Q : bool -> storage -> Prop) :
  sleep_spin l ∉ hs -> (size hs < 7)%nat ->
  Q (negb (sl_locked (the_sleep l st) =? 0) && (sl_pid (the_sleep l st) =? w_pid w)) st ->
  srun w hs (holdingsleep l) st hs Q.
Proof.
  intros Ha Hsz HQ. unfold holdingsleep. sgo. destruct (sl_locked _ =? 0); sgo; exact HQ.
Qed.
End SleepRuns.

(** ** Numbers in blocks *)
Lemma length_put32 i v d : length (put32 i v d) = length d.
Proof. unfold put32, set_byte. now rewrite !length_insert. Qed.

Lemma length_put16 i v d : length (put16 i v d) = length d.
Proof. unfold put16, set_byte. now rewrite !length_insert. Qed.

Lemma byte_set i v d j : 0 <= i < Z.of_nat (length d) -> 0 <= j ->
  byte (set_byte i v d) j = if decide (i = j) then u8 v else byte d j.
Proof.
  intros Hi Hj. unfold byte, set_byte. destruct (decide (i = j)) as [<-|Hne].
  - rewrite list_lookup_insert_eq; [done|lia].
  - rewrite list_lookup_insert_ne; [done|lia].
Qed.

Lemma length_set_byte i v d : length (set_byte i v d) = length d.
Proof. apply length_insert. Qed.

Lemma byte_put32 i v d j : 0 <= i -> i + 3 < Z.of_nat (length d) -> 0 <= j ->
  byte (put32 i v d) j =
    if decide (j = i + 3) then u8 (v / 16777216) else if decide (j = i + 2) then u8 (v / 65536)
    else if decide (j = i + 1) then u8 (v / 256) else if decide (j = i) then u8 v else byte d j.
Proof.
  intros Hi Hl Hj. unfold put32. rewrite !byte_set by (rewrite ?length_set_byte; lia).
  repeat (destruct (decide _); try lia); done.
Qed.

Lemma get32_put32 i v d : 0 <= i -> i + 3 < Z.of_nat (length d) -> get32 (put32 i v d) i = u32 v.
Proof.
  intros Hi Hl. unfold get32. rewrite !byte_put32 by lia.
  repeat (destruct (decide _); try lia). unfold u8, u32. clear. change (2 ^ 32) with 4294967296.
  Z.to_euclidean_division_equations. lia.
Qed.

Lemma get32_put32_ne i v d j : 0 <= i -> i + 3 < Z.of_nat (length d) -> 0 <= j -> (j + 4 <= i \/ i + 4 <= j) ->
  get32 (put32 i v d) j = get32 d j.
Proof.
  intros Hi Hl Hj Hij. unfold get32. rewrite !byte_put32 by lia.
  repeat (destruct (decide _); try lia); done.
Qed.
