(* ===== verification/Apic.v ===== *)
(** * The interrupt controllers (lapic.c, ioapic.c, picirq.c)

    The functions that program the local APIC of a processor, the I/O APIC and
    the 8259A controllers, over the registers of [Store.devs].  The write of a
    local register is recorded with the processor that makes it; the read that
    follows it in the source only waits for it.  [microdelay] does nothing in
    the source, and the message of [ioapicinit] about an unexpected identifier
    is left out.

    The clock of lapic.c is in the file Rtc. *)
From S2P Require Import Prelude Mmu Str Spinlock Kalloc Vm Proc Exec Sched Store.

Definition T_SYSCALL : Z := 64.
Definition T_IRQ0 : Z := 32.
Definition IRQ_TIMER : Z := 0.
Definition IRQ_KBD : Z := 1.
Definition IRQ_COM1 : Z := 4.
Definition IRQ_IDE : Z := 14.
Definition IRQ_ERROR : Z := 19.
Definition IRQ_SPURIOUS : Z := 31.

Definition get_dev {A} (f : devs -> A) : M kfs A := getst (fun st => f (st_devs st)).
Definition upd_dev (f : devs -> devs) : M kfs unit := modst (fun st => set_dev (f (st_devs st)) st).

Definition add_port (port v : Z) (d : devs) : devs :=
  mkDevs (dv_ioapicid d) (dv_lapic d) (dv_apic d) (dv_apicver d) (dv_icr d) (dv_ioreg d) (dv_ioapic d) (dv_ports d ++ [(port, u8 v)]) (dv_imcr d) (dv_idt d).
Definition add_apic (c : nat) (index v : Z) (d : devs) : devs :=
  mkDevs (dv_ioapicid d) (dv_lapic d) (dv_apic d ++ [(c, index, u32 v)]) (dv_apicver d) (dv_icr d) (dv_ioreg d) (dv_ioapic d) (dv_ports d) (dv_imcr d) (dv_idt d).
Definition set_icr (v : list Z) (d : devs) : devs :=
  mkDevs (dv_ioapicid d) (dv_lapic d) (dv_apic d) (dv_apicver d) v (dv_ioreg d) (dv_ioapic d) (dv_ports d) (dv_imcr d) (dv_idt d).
Definition set_ioapic (r : Z) (regs : gmap Z Z) (d : devs) : devs :=
  mkDevs (dv_ioapicid d) (dv_lapic d) (dv_apic d) (dv_apicver d) (dv_icr d) r regs (dv_ports d) (dv_imcr d) (dv_idt d).
Definition set_found (lapic ioapicid : Z) (d : devs) : devs :=
  mkDevs ioapicid lapic (dv_apic d) (dv_apicver d) (dv_icr d) (dv_ioreg d) (dv_ioapic d) (dv_ports d) (dv_imcr d) (dv_idt d).
Definition set_idt (v : list gatedesc) (d : devs) : devs :=
  mkDevs (dv_ioapicid d) (dv_lapic d) (dv_apic d) (dv_apicver d) (dv_icr d) (dv_ioreg d) (dv_ioapic d) (dv_ports d) (dv_imcr d) v.

(** [outb] to a port that only its device reads. *)
Definition outb (port v : Z) : M kfs unit := upd_dev (add_port port v).

(** ** picirq.c *)
Definition IO_PIC1 : Z := 0x20.
Definition IO_PIC2 : Z := 0xA0.
Definition picinit : M kfs unit :=
  outb (IO_PIC1 + 1) 0xFF ;;;
  outb (IO_PIC2 + 1) 0xFF.

(** ** ioapic.c *)
Definition REG_ID : Z := 0x00.
Definition REG_VER : Z := 0x01.
Definition REG_TABLE : Z := 0x10.
Definition INT_DISABLED : Z := 0x00010000.

Definition ioapicread (reg : Z) : M kfs Z :=
  upd_dev (fun d => set_ioapic reg (dv_ioapic d) d) ;;;
  get_dev (fun d => default 0 (dv_ioapic d !! dv_ioreg d)).
Definition ioapicwrite (reg data : Z) : M kfs unit :=
  upd_dev (fun d => set_ioapic reg (dv_ioapic d) d) ;;;
  upd_dev (fun d => set_ioapic (dv_ioreg d) (<[dv_ioreg d := u32 data]> (dv_ioapic d)) d).

(** The message of [ioapicinit] when the id is not the one of the table is left
    out. *)
Definition ioapicinit : M kfs unit :=
  v <~ ioapicread REG_VER ;;
  let maxintr := Z.land (Z.shiftr v 16) 0xFF in
  _ <~ ioapicread REG_ID ;;
  for_each (seqZ 0 (maxintr + 1)) (fun i =>
    ioapicwrite (REG_TABLE + 2 * i) (Z.lor INT_DISABLED (T_IRQ0 + i)) ;;;
    ioapicwrite (REG_TABLE + 2 * i + 1) 0).
Definition ioapicenable (irq cpunum : Z) : M kfs unit :=
  ioapicwrite (REG_TABLE + 2 * irq) (T_IRQ0 + irq) ;;;
  ioapicwrite (REG_TABLE + 2 * irq + 1) (Z.shiftl cpunum 24).

(** ** lapic.c *)
Definition VER : Z := 0x0030 / 4.
Definition TPR : Z := 0x0080 / 4.
Definition EOI : Z := 0x00B0 / 4.
Definition SVR : Z := 0x00F0 / 4.
Definition ENABLE : Z := 0x00000100.
Definition ESR : Z := 0x0280 / 4.
Definition ICRLO : Z := 0x0300 / 4.
Definition INIT : Z := 0x00000500.
Definition STARTUP : Z := 0x00000600.
Definition DELIVS : Z := 0x00001000.
Definition ASSERT : Z := 0x00004000.
Definition LEVEL : Z := 0x00008000.
Definition BCAST : Z := 0x00080000.
Definition ICRHI : Z := 0x0310 / 4.
Definition TIMER : Z := 0x0320 / 4.
Definition X1 : Z := 0x0000000B.
Definition PERIODIC : Z := 0x00020000.
Definition PCINT : Z := 0x0340 / 4.
Definition LINT0 : Z := 0x0350 / 4.
Definition LINT1 : Z := 0x0360 / 4.
Definition ERROR : Z := 0x0370 / 4.
Definition MASKED : Z := 0x00010000.
Definition TICR : Z := 0x0380 / 4.
Definition TDCR : Z := 0x03E0 / 4.
Definition CMOS_PORT : Z := 0x70.

Definition lapicw (index value : Z) : M kfs unit :=
  c <~ gets (fun s => m_cur (k_mach s)) ;;
  upd_dev (add_apic c index value).

(** The loop that polls the delivery status: the values read, up to the first
    that shows delivery. *)
Fixpoint delivered (icr : list Z) : option (list Z) :=
  match icr with
  | [] => None
  | v :: icr => if Z.land v DELIVS =? 0 then Some icr else delivered icr
  end.
Definition wait_delivery : M kfs unit :=
  icr <~ get_dev dv_icr ;;
  match delivered icr with
  | None => fun _ => Spin
  | Some icr => upd_dev (set_icr icr)
  end.

Definition lapicinit : M kfs unit :=
  lapic <~ get_dev dv_lapic ;;
  if lapic =? 0 then ret tt
  else
    lapicw SVR (Z.lor ENABLE (T_IRQ0 + IRQ_SPURIOUS)) ;;;
    lapicw TDCR X1 ;;;
    lapicw TIMER (Z.lor PERIODIC (T_IRQ0 + IRQ_TIMER)) ;;;
    lapicw TICR 10000000 ;;;
    lapicw LINT0 MASKED ;;;
    lapicw LINT1 MASKED ;;;
    ver <~ get_dev dv_apicver ;;
    when (4 <=? Z.land (Z.shiftr ver 16) 0xFF) (lapicw PCINT MASKED) ;;;
    lapicw ERROR (T_IRQ0 + IRQ_ERROR) ;;;
    lapicw ESR 0 ;;;
    lapicw ESR 0 ;;;
    lapicw EOI 0 ;;;
    lapicw ICRHI 0 ;;;
    lapicw ICRLO (Z.lor (Z.lor BCAST INIT) LEVEL) ;;;
    wait_delivery ;;;
    lapicw TPR 0.

Definition lapiceoi : M kfs unit :=
  lapic <~ get_dev dv_lapic ;;
  when (negb (lapic =? 0)) (lapicw EOI 0).

(** The warm reset vector, two 16-bit numbers. *)
Definition WRV : Z := P2V (Z.lor (Z.shiftl 0x40 4) 0x67).
Definition put_ushort (a v : Z) (mem : gmap Z Z) : gmap Z Z := put_byte (a + 1) (Z.shiftr v 8) (put_byte a v mem).
Definition lapicstartap (apicid addr : Z) : M kfs unit :=
  outb CMOS_PORT 0xF ;;;
  outb (CMOS_PORT + 1) 0x0A ;;;
  on_base (modify (upd_mem (put_ushort WRV 0))) ;;;
  on_base (modify (upd_mem (put_ushort (WRV + 2) (Z.shiftr addr 4)))) ;;;
  lapicw ICRHI (Z.shiftl apicid 24) ;;;
  lapicw ICRLO (Z.lor (Z.lor INIT LEVEL) ASSERT) ;;;
  lapicw ICRLO (Z.lor INIT LEVEL) ;;;
  for_each (seq 0 2) (fun _ =>
    lapicw ICRHI (Z.shiftl apicid 24) ;;;
    lapicw ICRLO (Z.lor STARTUP (Z.shiftr addr 12))).
