(* ===== verification/Bio.v ===== *)
(** * The buffer cache (bio.c) over the disk in memory (memide.c)

    Each function of bio.c and [iderw]; the cache is the doubly linked ring of
    the source, threaded through [b_prev] and [b_next], with the list head as
    the entry [HEAD] after the buffers.

    The specification is an abstract cache: [v_cur b] is the content of the
    block [b] that readers see, [v_disk b] the one on the disk, [v_dirty] the
    blocks pinned for the log and [v_held] the buffers that are locked, with
    their blocks.  [Rep] relates it to the state of the program, and the rules
    [bread_run], [bwrite_run], [brelse_run] are the operations of the abstract
    cache: the recycling of buffers, the order of the ring, reference counts
    and sleeping locks do not show. *)
From S2P Require Import Prelude Mmu Str Spinlock Kalloc Proc Exec Sched Store.

Definition BCACHE_LOCK : nat := 4%nat.
Definition HEAD : nat := NBUF.

Definition set_flags (v : Z) (b : buf) : buf := mkBuf v (b_dev b) (b_blockno b) (b_refcnt b) (b_prev b) (b_next b) (b_data b).
Definition set_refcnt (v : Z) (b : buf) : buf := mkBuf (b_flags b) (b_dev b) (b_blockno b) v (b_prev b) (b_next b) (b_data b).
Definition set_prev (v : nat) (b : buf) : buf := mkBuf (b_flags b) (b_dev b) (b_blockno b) (b_refcnt b) v (b_next b) (b_data b).
Definition set_next (v : nat) (b : buf) : buf := mkBuf (b_flags b) (b_dev b) (b_blockno b) (b_refcnt b) (b_prev b) v (b_data b).
Definition set_data (v : list Z) (b : buf) : buf := mkBuf (b_flags b) (b_dev b) (b_blockno b) (b_refcnt b) (b_prev b) (b_next b) v.

Section Bio.
Context {W : Wait}.

(** ** memide.c: the disk is the image linked with the kernel, of [img_size]
    bytes *)
Definition ideinit (img_size : Z) : M kfs unit := modst (set_disksize (s32 (u32 img_size / BSIZE))).
Definition iderw (b : nat) : M kfs unit :=
  h <~ holdingsleep (buf_lock b) ;;
  if negb h then panic "iderw: buf not locked"
  else
    bb <~ getst (the_buf b) ;;
    n <~ getst st_disksize ;;
    if Z.land (b_flags bb) (Z.lor B_VALID B_DIRTY) =? B_VALID then panic "iderw: nothing to do"
    else if negb (b_dev bb =? 1) then panic "iderw: request not for disk 1"
    else if n <=? b_blockno bb then panic "iderw: block out of range"
    else
      (if negb (Z.land (b_flags bb) B_DIRTY =? 0) then
         modst (upd_buf b (set_flags (Z.land (b_flags bb) (Z.lnot B_DIRTY)))) ;;;
         modst (disk_write (b_blockno bb) (b_data bb))
       else modst (fun st => upd_buf b (set_data (block (b_blockno bb) st)) st)) ;;;
      modst (upd_buf b (fun bb => set_flags (Z.lor (b_flags bb) B_VALID) bb)).

(** ** bio.c *)
Definition binit : M kfs unit :=
  on_cpus (initlock BCACHE_LOCK "bcache") ;;;
  modst (upd_buf HEAD (set_prev HEAD)) ;;;
  modst (upd_buf HEAD (set_next HEAD)) ;;;
  for_each (seq 0 NBUF) (fun b =>
    modst (fun st => upd_buf b (set_next (b_next (the_buf HEAD st))) st) ;;;
    modst (upd_buf b (set_prev HEAD)) ;;;
    initsleeplock (buf_lock b) ;;;
    modst (fun st => upd_buf (b_next (the_buf HEAD st)) (set_prev b) st) ;;;
    modst (upd_buf HEAD (set_next b))).

(** The two loops over the ring. *)
Fixpoint find_cached (fuel : nat) (dev blockno : Z) (b : nat) : M kfs (option nat) :=
  match fuel with
  | O => fun _ => Spin
  | S fuel =>
      if (b =? HEAD)%nat then ret None
      else
        bb <~ getst (the_buf b) ;;
        if (b_dev bb =? dev) && (b_blockno bb =? blockno) then ret (Some b)
        else find_cached fuel dev blockno (b_next bb)
  end.
Fixpoint find_unused (fuel : nat) (b : nat) : M kfs (option nat) :=
  match fuel with
  | O => fun _ => Spin
  | S fuel =>
      if (b =? HEAD)%nat then ret None
      else
        bb <~ getst (the_buf b) ;;
        if (b_refcnt bb =? 0) && (Z.land (b_flags bb) B_DIRTY =? 0) then ret (Some b)
        else find_unused fuel (b_prev bb)
  end.
Definition bget (dev blockno : Z) : M kfs nat :=
  kacquire BCACHE_LOCK ;;;
  first <~ getst (fun st => b_next (the_buf HEAD st)) ;;
  o <~ find_cached (S NBUF) dev blockno first ;;
  match o with
  | Some b =>
      modst (upd_buf b (fun bb => set_refcnt (u32 (b_refcnt bb + 1)) bb)) ;;;
      krelease BCACHE_LOCK ;;;
      acquiresleep (buf_lock b) ;;;
      ret b
  | None =>
      last <~ getst (fun st => b_prev (the_buf HEAD st)) ;;
      o <~ find_unused (S NBUF) last ;;
      match o with
      | Some b =>
          modst (upd_buf b (fun bb => mkBuf 0 dev blockno 1 (b_prev bb) (b_next bb) (b_data bb))) ;;;
          krelease BCACHE_LOCK ;;;
          acquiresleep (buf_lock b) ;;;
          ret b
      | None => panic "bget: no buffers"
      end
  end.

Definition bread (dev blockno : Z) : M kfs nat :=
  b <~ bget dev blockno ;;
  bb <~ getst (the_buf b) ;;
  when (Z.land (b_flags bb) B_VALID =? 0) (iderw b) ;;;
  ret b.

Definition bwrite (b : nat) : M kfs unit :=
  h <~ holdingsleep (buf_lock b) ;;
  if negb h then panic "bwrite"
  else
    modst (upd_buf b (fun bb => set_flags (Z.lor (b_flags bb) B_DIRTY) bb)) ;;;
    iderw b.

(** Taking a buffer out of the ring and putting it at its front. *)
Definition move_to_front (b : nat) (st : storage) : storage :=
  let st := upd_buf (b_next (the_buf b st)) (set_prev (b_prev (the_buf b st))) st in
  let st := upd_buf (b_prev (the_buf b st)) (set_next (b_next (the_buf b st))) st in
  let st := upd_buf b (set_next (b_next (the_buf HEAD st))) st in
  let st := upd_buf b (set_prev HEAD) st in
  let st := upd_buf (b_next (the_buf HEAD st)) (set_prev b) st in
  upd_buf HEAD (set_next b) st.

Definition brelse (b : nat) : M kfs unit :=
  h <~ holdingsleep (buf_lock b) ;;
  if negb h then panic "brelse"
  else
    releasesleep (buf_lock b) ;;;
    kacquire BCACHE_LOCK ;;;
    modst (upd_buf b (fun bb => set_refcnt (u32 (b_refcnt bb - 1)) bb)) ;;;
    r <~ getst (fun st => b_refcnt (the_buf b st)) ;;
    when (r =? 0) (modst (move_to_front b)) ;;;
    krelease BCACHE_LOCK.
End Bio.

(** ** The ring *)

(** From [a] the function [f] leads through the elements of [l] to [e]. *)
Fixpoint fpath (f : nat -> nat) (a : nat) (l : list nat) (e : nat) : Prop :=
  match l with
  | [] => f a = e
  | b :: l => f a = b /\ fpath f b l e
  end.

Lemma fpath_app f a l1 b l2 e : fpath f a (l1 ++ b :: l2) e <-> fpath f a l1 b /\ fpath f b l2 e.
Proof. revert a. induction l1 as [|c l1 IH]; intros a; simpl; [tauto|]. rewrite IH. tauto. Qed.

Lemma fpath_ext f g a l e : (forall x, x ∈ a :: l -> g x = f x) -> fpath f a l e -> fpath g a l e.
Proof.
  revert a. induction l as [|c l IH]; intros a Hx; simpl.
  - intros <-. apply Hx. now left.
  - intros [<- Hp]. split; [apply Hx; now left|]. apply IH; [|exact Hp]. intros x Hin. apply Hx. now right.
Qed.

(** The last element of [a :: l]. *)
Fixpoint lastd (a : nat) (l : list nat) : nat :=
  match l with
  | [] => a
  | b :: l => lastd b l
  end.

Lemma fpath_last f a l e : fpath f a l e -> f (lastd a l) = e.
Proof. revert a. induction l as [|c l IH]; intros a; simpl; [done|]. intros [_ Hp]. now apply IH. Qed.

Lemma lastd_in a l : lastd a l ∈ a :: l.
Proof. revert a. induction l as [|c l IH]; intros a; simpl; [now left|]. right. apply IH. Qed.

Lemma lastd_snoc a l b : lastd a (l ++ [b]) = b.
Proof. revert a. induction l as [|c l IH]; intros a; simpl; [done|]. apply IH. Qed.

Lemma fpath_unlink f g a l1 b l2 e :
  fpath f a (l1 ++ b :: l2) e -> NoDup (a :: l1 ++ b :: l2) ->
  g (lastd a l1) = f b -> (forall x, x <> lastd a l1 -> g x = f x) -> fpath g a (l1 ++ l2) e.
Proof.
  revert a. induction l1 as [|c l1 IH]; simpl; intros a [Ha Hp] Hnd Hg Hx.
  - apply NoDup_cons in Hnd as [Hn _]. destruct l2 as [|c l2]; simpl in *; [now rewrite Hg|].
    destruct Hp as [Hb Hp]. split; [now rewrite Hg|].
    apply (fpath_ext f); [|exact Hp]. intros x Hin. apply Hx. intros ->. apply Hn. now right.
  - apply NoDup_cons in Hnd as [Hn Hnd]. split.
    + rewrite <- Ha. apply Hx. intros E. apply Hn. rewrite E. apply (elem_of_app (_ :: l1)). left. apply lastd_in.
    + now apply IH.
Qed.

Lemma fpath_front f g a b l e :
  fpath f a l e -> NoDup (a :: b :: l) -> g a = b -> g b = f a ->
  (forall x, x <> a -> x <> b -> g x = f x) -> fpath g a (b :: l) e.
Proof.
  intros Hp Hnd Ha Hb Hx. split; [exact Ha|]. apply NoDup_cons in Hnd as [Hn [Hn' _]%NoDup_cons].
  destruct l as [|c l]; simpl in *; [congruence|]. destruct Hp as [Hc Hp]. split; [congruence|].
  apply (fpath_ext f); [|exact Hp]. intros x Hin.
  apply Hx; intros ->; [apply Hn; now right|now apply Hn'].
Qed.

Lemma fpath_back f g a b l e :
  fpath f a l e -> NoDup (a :: b :: l) -> g (lastd a l) = b -> g b = e ->
  (forall x, x <> lastd a l -> x <> b -> g x = f x) -> fpath g a (l ++ [b]) e.
Proof.
  revert a. induction l as [|c l IH]; simpl; intros a Hp Hnd Ha Hb Hx; [done|].
  destruct Hp as [Hc Hp]. apply NoDup_cons in Hnd as [Hn Hnd]. split.
  - rewrite Hx; [exact Hc| |].
    + intros ->. apply Hn. right. apply lastd_in.
    + intros ->. apply Hn. now left.
  - apply IH; try done. apply NoDup_cons in Hnd as [Hn' [Hn2 Hnd]%NoDup_cons].
    apply NoDup_cons. split; [|apply NoDup_cons; split; [|done]].
    + intros [->|Hin]%elem_of_cons; [apply Hn'; now left|done].
    + intros Hin. apply Hn'. now right.
Qed.

Definition nxt (bs : list buf) (i : nat) : nat := b_next (default buf0 (bs !! i)).
Definition prv (bs : list buf) (i : nat) : nat := b_prev (default buf0 (bs !! i)).

(** The ring visits [l], forwards along [b_next] and backwards along [b_prev]. *)
Definition ring (l : list nat) (bs : list buf) : Prop :=
  fpath (nxt bs) HEAD l HEAD /\ fpath (prv bs) HEAD (reverse l) HEAD.

(** What the links do not touch. *)
Definition cell (b : buf) : Z * Z * Z * Z * list Z := (b_flags b, b_dev b, b_blockno b, b_refcnt b, b_data b).

Section Links.
Context (bs : list buf) (i : nat) (v : nat).

Lemma nxt_set_next x : (i < length bs)%nat -> nxt (alter (set_next v) i bs) x = if decide (x = i) then v else nxt bs x.
Proof.
  intros Hi. unfold nxt. destruct (decide (x = i)) as [->|Hne].
  - rewrite list_lookup_alter_eq. destruct (lookup_lt_is_Some_2 bs i Hi) as [b ->]. reflexivity.
  - now rewrite list_lookup_alter_ne.
Qed.
Lemma prv_set_prev x : (i < length bs)%nat -> prv (alter (set_prev v) i bs) x = if decide (x = i) then v else prv bs x.
Proof.
  intros Hi. unfold prv. destruct (decide (x = i)) as [->|Hne].
  - rewrite list_lookup_alter_eq. destruct (lookup_lt_is_Some_2 bs i Hi) as [b ->]. reflexivity.
  - now rewrite list_lookup_alter_ne.
Qed.
Lemma alter_keeps {A} (f : buf -> A) g x : (forall b, f (g b) = f b) ->
  f (default buf0 (alter g i bs !! x)) = f (default buf0 (bs !! x)).
Proof.
  intros H. destruct (decide (x = i)) as [->|Hne]; [|now rewrite list_lookup_alter_ne].
  rewrite list_lookup_alter_eq. destruct (bs !! i); [apply H|done].
Qed.
Lemma nxt_set_prev x : nxt (alter (set_prev v) i bs) x = nxt bs x.
Proof. now apply alter_keeps. Qed.
Lemma prv_set_next x : prv (alter (set_next v) i bs) x = prv bs x.
Proof. now apply alter_keeps. Qed.
Lemma cell_set_prev x : cell (default buf0 (alter (set_prev v) i bs !! x)) = cell (default buf0 (bs !! x)).
Proof. now apply alter_keeps. Qed.
Lemma cell_set_next x : cell (default buf0 (alter (set_next v) i bs !! x)) = cell (default buf0 (bs !! x)).
Proof. now apply alter_keeps. Qed.
End Links.

Section MoveToFront.
Context (bs : list buf) (b : nat) (l1 l2 : list nat).
Context (Hring : ring (l1 ++ b :: l2) bs).
Context (Hnd : NoDup (HEAD :: l1 ++ b :: l2)).
Context (Hlen : forall x, x ∈ HEAD :: l1 ++ b :: l2 -> (x < length bs)%nat).

Let bs1 := alter (set_prev (prv bs b)) (nxt bs b) bs.
Let bs2 := alter (set_next (nxt bs1 b)) (prv bs1 b) bs1.
Let bs3 := alter (set_next (nxt bs2 HEAD)) b bs2.
Let bs4 := alter (set_prev HEAD) b bs3.
Let bs5 := alter (set_prev b) (nxt bs4 HEAD) bs4.
Let bs6 := alter (set_next b) HEAD bs5.

Lemma nxt_b : nxt bs b = lastd HEAD (reverse l2).
Proof.
  destruct Hring as [Hf _]. apply fpath_app in Hf as [_ Hf].
  destruct l2 as [|c l]; [exact Hf|]. destruct Hf as [-> _]. now rewrite reverse_cons, lastd_snoc.
Qed.
Lemma prv_b : prv bs b = lastd HEAD l1.
Proof.
  destruct Hring as [_ Hp]. rewrite reverse_app, reverse_cons, <- app_assoc in Hp.
  apply fpath_app in Hp as [_ Hp]. rewrite <- (reverse_involutive l1) at 1.
  destruct (reverse l1) as [|c l]; [exact Hp|]. destruct Hp as [-> _]. now rewrite reverse_cons, lastd_snoc.
Qed.
Lemma nxt_b_in : nxt bs b ∈ HEAD :: l2.
Proof. rewrite nxt_b. pose proof (lastd_in HEAD (reverse l2)) as H. rewrite elem_of_cons, elem_of_reverse in H. now apply elem_of_cons. Qed.
Lemma prv_b_in : prv bs b ∈ HEAD :: l1.
Proof. rewrite prv_b. apply lastd_in. Qed.

Lemma mtf_facts : b <> HEAD /\ nxt bs b <> b /\ prv bs b <> b /\
  (nxt bs b < length bs)%nat /\ (prv bs b < length bs)%nat /\ (b < length bs)%nat /\ (HEAD < length bs)%nat.
Proof.
  pose proof nxt_b_in as Hn. pose proof prv_b_in as Hp.
  assert (Hb : (b < length bs)%nat) by (apply Hlen; right; apply elem_of_app; right; now left).
  assert (HH : (HEAD < length bs)%nat) by (apply Hlen; now left).
  apply NoDup_cons in Hnd as [Hh Hnd']. apply NoDup_app in Hnd' as (_ & Hd & [Hb2 _]%NoDup_cons).
  assert (Hne : b <> HEAD) by (intros E; apply Hh; rewrite <- E; apply elem_of_app; right; now left).
  repeat split; try done.
  - intros E. rewrite E in Hn. apply elem_of_cons in Hn as [?|?]; done.
  - intros E. rewrite E in Hp. apply elem_of_cons in Hp as [?|Hin]; [done|]. apply (Hd _ Hin). now left.
  - apply elem_of_cons in Hn as [->|Hin]; [done|]. apply Hlen. right. apply elem_of_app. right. now right.
  - apply elem_of_cons in Hp as [->|Hin]; [done|]. apply Hlen. right. apply elem_of_app. now left.
Qed.

(** The links after the unlinking, and at the end. *)
Let n2 (x : nat) : nat := if decide (x = prv bs b) then nxt bs b else nxt bs x.
Let p1 (x : nat) : nat := if decide (x = nxt bs b) then prv bs b else prv bs x.

Lemma mtf_links :
  (forall x, nxt bs6 x = if decide (x = HEAD) then b else if decide (x = b) then n2 HEAD else n2 x) /\
  (forall x, prv bs6 x = if decide (x = n2 HEAD) then b else if decide (x = b) then HEAD else p1 x) /\
  nxt bs4 HEAD = n2 HEAD.
Proof.
  destruct mtf_facts as (Hb & Hn & Hp & Ln & Lp & Lb & LH).
  assert (E1n : forall x, nxt bs1 x = nxt bs x) by (intros; apply nxt_set_prev).
  assert (E1p : forall x, prv bs1 x = p1 x) by (intros; now apply prv_set_prev).
  assert (E1b : prv bs1 b = prv bs b) by (rewrite E1p; unfold p1; rewrite decide_False; done).
  assert (E2n : forall x, nxt bs2 x = n2 x).
  { intros x. unfold bs2. rewrite E1b, nxt_set_next by (unfold bs1; now rewrite length_alter). unfold n2. now rewrite !E1n. }
  assert (E3n : forall x, nxt bs3 x = if decide (x = b) then n2 HEAD else n2 x).
  { intros x. unfold bs3. rewrite nxt_set_next by (unfold bs2, bs1; now rewrite !length_alter). now rewrite !E2n. }
  assert (E4n : forall x, nxt bs4 x = if decide (x = b) then n2 HEAD else n2 x).
  { intros x. unfold bs4. now rewrite nxt_set_prev. }
  assert (E4H : nxt bs4 HEAD = n2 HEAD) by (rewrite E4n, decide_False; done).
  assert (E4p : forall x, prv bs4 x = if decide (x = b) then HEAD else p1 x).
  { intros x. unfold bs4. rewrite prv_set_prev by (unfold bs3, bs2, bs1; now rewrite !length_alter).
    unfold bs3, bs2. now rewrite !prv_set_next, E1p. }
  split; [|split; [|exact E4H]].
  - intros x. unfold bs6. rewrite nxt_set_next by (unfold bs5, bs4, bs3, bs2, bs1; now rewrite !length_alter).
    unfold bs5. now rewrite nxt_set_prev, E4n.
  - intros x. unfold bs6. rewrite prv_set_next. unfold bs5. rewrite prv_set_prev, E4H, E4p; [done|].
    rewrite E4H. unfold bs4, bs3, bs2, bs1. rewrite !length_alter. unfold n2. destruct (decide _); [exact Ln|].
    destruct Hring as [Hf _]. destruct l1 as [|c l]; destruct Hf as [-> _]; [exact Lb|].
    apply Hlen. right. now left.
Qed.

Lemma mtf_ring : ring (b :: l1 ++ l2) bs6.
Proof.
  destruct mtf_links as (En & Ep & _). destruct mtf_facts as (Hb & Hn & Hp & _).
  destruct Hring as [Hf Hr].
  assert (Hnd1 : NoDup (HEAD :: b :: l1 ++ l2)).
  { assert (HP : HEAD :: b :: l1 ++ l2 ≡ₚ HEAD :: l1 ++ b :: l2) by solve_Permutation. now rewrite HP. }
  assert (H2 : fpath n2 HEAD (l1 ++ l2) HEAD).
  { eapply fpath_unlink; [exact Hf|exact Hnd| |]; unfold n2; rewrite <- prv_b; [now rewrite decide_True|].
    intros x Hx. now rewrite decide_False. }
  assert (H1 : fpath p1 HEAD (reverse (l1 ++ l2)) HEAD).
  { rewrite reverse_app. rewrite reverse_app, reverse_cons, <- app_assoc in Hr.
    eapply fpath_unlink; [exact Hr| | |]; unfold p1; rewrite <- ?nxt_b; [|now rewrite decide_True|].
    - assert (HP : HEAD :: reverse l2 ++ b :: reverse l1 ≡ₚ HEAD :: l1 ++ b :: l2).
      { rewrite !reverse_Permutation. solve_Permutation. }
      simpl. now rewrite HP.
    - intros x Hx. now rewrite decide_False. }
  assert (EH : n2 HEAD = lastd HEAD (reverse (l1 ++ l2))).
  { destruct (l1 ++ l2) as [|c l]; [exact H2|]. destruct H2 as [-> _]. now rewrite reverse_cons, lastd_snoc. }
  split.
  - eapply fpath_front; [exact H2|exact Hnd1| | |].
    + now rewrite En, decide_True.
    + now rewrite En, decide_False, decide_True by done.
    + intros x Hx Hx'. now rewrite En, !decide_False by done.
  - rewrite reverse_cons. eapply fpath_back; [exact H1| | | |]; rewrite <- ?EH.
    + assert (HP : HEAD :: b :: reverse (l1 ++ l2) ≡ₚ HEAD :: b :: l1 ++ l2) by now rewrite reverse_Permutation.
      now rewrite HP.
    + now rewrite Ep, decide_True.
    + rewrite Ep, decide_False, decide_True; [done|done|]. rewrite EH.
      pose proof (lastd_in HEAD (reverse (l1 ++ l2))) as Hin. intros E. rewrite <- E in Hin.
      apply NoDup_cons in Hnd1 as [_ [Hd _]%NoDup_cons].
      apply elem_of_cons in Hin as [?|Hin]; [done|]. now apply Hd, elem_of_reverse.
    + intros x Hx Hx'. now rewrite Ep, !decide_False by done.
Qed.
End MoveToFront.

Lemma move_to_front_cell b st x : cell (the_buf x (move_to_front b st)) = cell (the_buf x st).
Proof. unfold the_buf, move_to_front, upd_buf. simpl. now rewrite ?cell_set_next, ?cell_set_prev, ?cell_set_next, ?cell_set_prev, ?cell_set_next, ?cell_set_prev. Qed.

Lemma move_to_front_ring b l1 l2 st :
  ring (l1 ++ b :: l2) (st_bufs st) -> NoDup (HEAD :: l1 ++ b :: l2) ->
  (forall x, x ∈ HEAD :: l1 ++ b :: l2 -> (x < length (st_bufs st))%nat) ->
  ring (b :: l1 ++ l2) (st_bufs (move_to_front b st)).
Proof. intros H1 H2 H3. exact (mtf_ring _ _ _ _ H1 H2 H3). Qed.

(** ** The loops follow the ring *)
Definition is_block (dev blockno : Z) (st : storage) (x : nat) : bool :=
  (b_dev (the_buf x st) =? dev) && (b_blockno (the_buf x st) =? blockno).
Definition is_unused (st : storage) (x : nat) : bool :=
  (b_refcnt (the_buf x st) =? 0) && (Z.land (b_flags (the_buf x st)) B_DIRTY =? 0).

Lemma srun_find_cached w hs dev blockno st l a fuel (Q : option nat -> storage -> Prop) :
  fpath (nxt (st_bufs st)) a l HEAD -> HEAD ∉ l -> (length l < fuel)%nat ->
  Q (find (is_block dev blockno st) l) st ->
  srun w hs (find_cached fuel dev blockno (b_next (the_buf a st))) st hs Q.
Proof.
  revert a fuel. induction l as [|c l IH]; simpl; intros a fuel Hp Hn Hf HQ;
    (destruct fuel as [|fuel]; [lia|]); simpl.
  - change (b_next (the_buf a st)) with (nxt (st_bufs st) a). rewrite Hp, Nat.eqb_refl. now apply srun_ret.
  - destruct Hp as [Ha Hp]. change (b_next (the_buf a st)) with (nxt (st_bufs st) a). rewrite Ha.
    apply not_elem_of_cons in Hn as [Hn Hn']. destruct (Nat.eqb_spec c HEAD); [congruence|]. sgo.
    unfold is_block in HQ at 1. destruct (_ && _); [sgo; exact HQ|]. apply IH; [done|done|lia|exact HQ].
Qed.

Lemma srun_find_unused w hs st l a fuel (Q : option nat -> storage -> Prop) :
  fpath (prv (st_bufs st)) a l HEAD -> HEAD ∉ l -> (length l < fuel)%nat ->
  Q (find (is_unused st) l) st ->
  srun w hs (find_unused fuel (b_prev (the_buf a st))) st hs Q.
Proof.
  revert a fuel. induction l as [|c l IH]; simpl; intros a fuel Hp Hn Hf HQ;
    (destruct fuel as [|fuel]; [lia|]); simpl.
  - change (b_prev (the_buf a st)) with (prv (st_bufs st) a). rewrite Hp, Nat.eqb_refl. now apply srun_ret.
  - destruct Hp as [Ha Hp]. change (b_prev (the_buf a st)) with (prv (st_bufs st) a). rewrite Ha.
    apply not_elem_of_cons in Hn as [Hn Hn']. destruct (Nat.eqb_spec c HEAD); [congruence|]. sgo.
    unfold is_unused in HQ at 1. destruct (_ && _); [sgo; exact HQ|]. apply IH; [done|done|lia|exact HQ].
Qed.

(** ** The abstract cache *)
Record view := mkView {
  v_cur : Z -> list Z;
  v_disk : Z -> list Z;
  v_dirty : gset Z;
  v_writes : list (Z * list Z);
  v_held : gmap nat Z;
}.
Definition hold (i : nat) (b : Z) (v : view) : view := mkView (v_cur v) (v_disk v) (v_dirty v) (v_writes v) (<[i := b]> (v_held v)).
Definition unhold (i : nat) (v : view) : view := mkView (v_cur v) (v_disk v) (v_dirty v) (v_writes v) (delete i (v_held v)).
Definition put (b : Z) (d : list Z) (v : view) : view := mkView (<[b := d]> (v_cur v)) (v_disk v) (v_dirty v) (v_writes v) (v_held v).
Definition pin (b : Z) (v : view) : view := mkView (v_cur v) (v_disk v) ({[b]} ∪ v_dirty v) (v_writes v) (v_held v).
Definition flush (b : Z) (v : view) : view :=
  mkView (v_cur v) (<[b := v_cur v b]> (v_disk v)) (v_dirty v ∖ {[b]}) (v_writes v ++ [(b, v_cur v b)]) (v_held v).

Lemma unhold_hold i b v : v_held v !! i = None -> unhold i (hold i b v) = v.
Proof. intros H. destruct v. unfold unhold, hold. simpl in *. f_equal. now rewrite delete_insert_id. Qed.

(** A buffer that has never been used, or one that holds a block. *)
Definition in_cell (w : who) (st : storage) (v : view) (i : nat) : Prop :=
  let b := the_buf i st in
  (b_dev b = 0 /\ b_flags b = 0 /\ b_refcnt b = 0 /\ sl_locked (the_sleep (buf_lock i) st) = 0 /\ v_held v !! i = None) \/
  (b_dev b = 1 /\ 0 <= b_blockno b < st_disksize st /\ b_data b = v_cur v (b_blockno b) /\
   b_flags b = (if decide (b_blockno b ∈ v_dirty v) then 6 else 2) /\
   match v_held v !! i with
   | Some c => c = b_blockno b /\ b_refcnt b = 1 /\ the_sleep (buf_lock i) st = mkSleep 1 (w_pid w)
   | None => b_refcnt b = 0 /\ sl_locked (the_sleep (buf_lock i) st) = 0
   end).

Record Rep (w : who) (st : storage) (v : view) : Prop := mkRep {
  rep_len : length (st_bufs st) = S NBUF;
  rep_ring : exists l, l ≡ₚ seq 0 NBUF /\ ring l (st_bufs st);
  rep_cell : forall i, (i < NBUF)%nat -> in_cell w st v i;
  rep_uniq : forall i j, (i < NBUF)%nat -> (j < NBUF)%nat -> b_dev (the_buf i st) = 1 -> b_dev (the_buf j st) = 1 ->
    b_blockno (the_buf i st) = b_blockno (the_buf j st) -> i = j;
  rep_dirty : forall b, b ∈ v_dirty v -> exists i, (i < NBUF)%nat /\ b_dev (the_buf i st) = 1 /\ b_blockno (the_buf i st) = b;
  rep_held : forall i b, v_held v !! i = Some b -> (i < NBUF)%nat;
  rep_coh : forall b, b ∉ v_dirty v -> (forall i, v_held v !! i <> Some b) -> v_cur v b = v_disk v b;
  rep_disk : forall b, v_disk v b = block b st;
  rep_writes : v_writes v = st_writes st;
  rep_size : forall b, length (v_cur v b) = Z.to_nat BSIZE /\ length (v_disk v b) = Z.to_nat BSIZE;
}.

(** What the operations of the cache leave alone. *)
Definition same (st st' : storage) : Prop :=
  st_disksize st' = st_disksize st /\ st_log st' = st_log st /\ st_sb st' = st_sb st /\
  st_inodes st' = st_inodes st /\ st_files st' = st_files st /\ st_pipes st' = st_pipes st /\
  (forall l, (NBUF <= l)%nat -> the_sleep l st' = the_sleep l st).

#[global] Instance same_preorder : PreOrder same.
Proof.
  split; [now repeat split|]. intros a b c (?&?&?&?&?&?&H) (?&?&?&?&?&?&H').
  repeat split; try congruence. intros l Hl. now rewrite H', H.
Qed.

(** A change of the buffer [i] that keeps its links. *)
Definition touched (i : nat) (st st' : storage) : Prop :=
  same st st' /\ length (st_bufs st') = length (st_bufs st) /\
  (forall x, nxt (st_bufs st') x = nxt (st_bufs st) x) /\ (forall x, prv (st_bufs st') x = prv (st_bufs st) x) /\
  (forall j, j <> i -> cell (the_buf j st') = cell (the_buf j st) /\ the_sleep (buf_lock j) st' = the_sleep (buf_lock j) st).

#[global] Instance touched_preorder i : PreOrder (touched i).
Proof.
  split; [now repeat split|]. intros a b c (S1 & L1 & N1 & P1 & C1) (S2 & L2 & N2 & P2 & C2).
  split; [now transitivity b|]. split; [congruence|]. split; [intros; congruence|]. split; [intros; congruence|].
  intros j Hj. destruct (C1 j Hj), (C2 j Hj). split; congruence.
Qed.

Lemma touched_upd i f st : (forall b, b_next (f b) = b_next b /\ b_prev (f b) = b_prev b) -> touched i st (upd_buf i f st).
Proof.
  intros Hf. split; [now repeat split|]. split; [apply length_alter|].
  split; [intros x; apply alter_keeps; apply Hf|]. split; [intros x; apply alter_keeps; apply Hf|].
  intros j Hj. split; [|done]. unfold the_buf, upd_buf. simpl. now rewrite list_lookup_alter_ne.
Qed.

Lemma touched_sleep i v st : (i < NBUF)%nat -> touched i st (set_sleep (buf_lock i) v st).
Proof.
  intros Hi. split; [|split; [done|split; [done|split; [done|]]]].
  - repeat split. intros l Hl. apply the_sleep_set_ne. unfold buf_lock. lia.
  - intros j Hj. split; [done|]. apply the_sleep_set_ne. unfold buf_lock. done.
Qed.

Lemma touched_disk i b d st : touched i st (disk_write b d st).
Proof. now repeat split. Qed.

Lemma ring_same l bs bs' :
  (forall x, nxt bs' x = nxt bs x) -> (forall x, prv bs' x = prv bs x) -> ring l bs -> ring l bs'.
Proof. intros Hn Hp [H1 H2]. split; eapply fpath_ext; eauto. Qed.

(** Views that differ only in the block [b] and the buffer [i]. *)
Definition off (i : nat) (b : Z) (v v' : view) : Prop :=
  (forall c, c <> b -> v_cur v' c = v_cur v c /\ (c ∈ v_dirty v' <-> c ∈ v_dirty v)) /\
  (forall j, j <> i -> v_held v' !! j = v_held v !! j).

Lemma in_cell_off w st st' v v' i b j :
  in_cell w st v j -> touched i st st' -> off i b v v' -> j <> i ->
  (b_dev (the_buf j st) = 1 -> b_blockno (the_buf j st) <> b) -> in_cell w st' v' j.
Proof.
  intros Hc (Hs & _ & _ & _ & Ht) [Hb Hh] Hj Hne. destruct (Ht j Hj) as [Hcell Hsl].
  unfold in_cell in *. unfold cell in Hcell. simplify_eq. rewrite Hsl, Hh by done.
  repeat match goal with H : _ (the_buf j st') = _ |- _ => rewrite H end.
  destruct Hs as [-> _]. destruct Hc as [Hc|(Hd & Hr & Hdat & Hf & Hhe)]; [left; exact Hc|right].
  destruct (Hb _ (Hne Hd)) as [-> Hdir]. split; [done|]. split; [done|]. split; [done|].
  split; [|exact Hhe]. rewrite Hf. destruct (decide _), (decide _); tauto.
Qed.

Lemma touched_field {A} i st st' j (f : buf -> A) (g : Z * Z * Z * Z * list Z -> A) :
  touched i st st' -> j <> i -> (forall b, f b = g (cell b)) -> f (the_buf j st') = f (the_buf j st).
Proof. intros (_ & _ & _ & _ & Ht) Hj Hg. rewrite !Hg. now rewrite (proj1 (Ht j Hj)). Qed.

Lemma touched_dev i st st' j : touched i st st' -> j <> i -> b_dev (the_buf j st') = b_dev (the_buf j st).
Proof. intros H Hj. exact (touched_field i st st' j b_dev (fun t => t.1.1.1.2) H Hj (fun _ => eq_refl)). Qed.
Lemma touched_blockno i st st' j : touched i st st' -> j <> i -> b_blockno (the_buf j st') = b_blockno (the_buf j st).
Proof. intros H Hj. exact (touched_field i st st' j b_blockno (fun t => t.1.1.2) H Hj (fun _ => eq_refl)). Qed.

Lemma rep_touch w st st' v v' i b :
  Rep w st v -> (i < NBUF)%nat -> touched i st st' -> off i b v v' ->
  in_cell w st' v' i -> b_dev (the_buf i st') = 1 -> b_blockno (the_buf i st') = b ->
  (forall j, (j < NBUF)%nat -> j <> i -> b_dev (the_buf j st) = 1 -> b_blockno (the_buf j st) <> b) ->
  (b_dev (the_buf i st) = 1 -> b_blockno (the_buf i st) = b \/ b_blockno (the_buf i st) ∉ v_dirty v) ->
  (forall c, c ∉ v_dirty v' -> (forall j, v_held v' !! j <> Some c) -> v_cur v' c = v_disk v' c) ->
  (forall c, v_disk v' c = block c st') -> v_writes v' = st_writes st' ->
  (forall c, length (v_cur v' c) = Z.to_nat BSIZE /\ length (v_disk v' c) = Z.to_nat BSIZE) ->
  Rep w st' v'.
Proof.
  intros HR Hi Ht Hoff Hci Hdev Hblk Hoth Hold Hcoh Hdisk Hwr Hsz.
  pose proof Ht as (_ & HL & HN & HP & _). constructor; try done.
  - rewrite HL. apply HR.
  - destruct (rep_ring _ _ _ HR) as (l & Hl & Hr). exists l. split; [done|]. eapply ring_same; eauto.
  - intros j Hj. destruct (decide (j = i)) as [->|Hne]; [exact Hci|].
    eapply in_cell_off; eauto. now apply HR.
  - intros j k Hj Hk. destruct (decide (j = i)) as [->|Hji], (decide (k = i)) as [->|Hki]; try done;
      rewrite ?(touched_dev i st st' j), ?(touched_dev i st st' k), ?(touched_blockno i st st' j), ?(touched_blockno i st st' k) by done.
    + intros _ Hk1 E. exfalso. apply (Hoth k); congruence.
    + intros Hj1 _ E. exfalso. apply (Hoth j); congruence.
    + now apply HR.
  - intros c Hc. destruct (decide (c = b)) as [->|Hcb]; [now exists i|].
    destruct (rep_dirty _ _ _ HR c) as (j & Hj & Hj1 & Hjc); [now apply Hoff|].
    exists j. destruct (decide (j = i)) as [->|Hji].
    + exfalso. destruct (Hold Hj1) as [?|Hn]; [congruence|]. apply Hn. rewrite Hjc. now apply Hoff.
    + rewrite (touched_dev i st st' j), (touched_blockno i st st' j) by done. done.
  - intros j c Hj. destruct (decide (j = i)) as [->|Hji]; [done|].
    destruct Hoff as [_ Hh]. rewrite Hh in Hj by done. eapply rep_held; eauto.
Qed.

Lemma the_buf_upd i f st : (i < length (st_bufs st))%nat -> the_buf i (upd_buf i f st) = f (the_buf i st).
Proof.
  intros Hi. unfold the_buf, upd_buf. simpl. rewrite list_lookup_alter_eq.
  now destruct (lookup_lt_is_Some_2 _ _ Hi) as [b ->].
Qed.

Lemma the_buf_upd_ne i j f st : i <> j -> the_buf j (upd_buf i f st) = the_buf j st.
Proof. intros Hi. unfold the_buf, upd_buf. simpl. now rewrite list_lookup_alter_ne. Qed.

Section Rules.
Context {W : Wait} (w : who).

Lemma rep_lt st v i : Rep w st v -> (i < NBUF)%nat -> (i < length (st_bufs st))%nat.
Proof. intros HR Hi. rewrite (rep_len _ _ _ HR). lia. Qed.

Lemma rep_order st v : Rep w st v -> exists l, ring l (st_bufs st) /\ NoDup (HEAD :: l) /\
  length l = NBUF /\ (forall i, i ∈ l <-> (i < NBUF)%nat).
Proof.
  intros HR. destruct (rep_ring _ _ _ HR) as (l & Hl & Hr). exists l. split; [done|].
  assert (Hin : forall i, i ∈ l <-> (i < NBUF)%nat).
  { intros i. rewrite Hl. rewrite elem_of_seq. lia. }
  split; [|split; [now rewrite Hl, length_seq|exact Hin]].
  apply NoDup_cons. split; [rewrite Hin; unfold HEAD; lia|]. rewrite Hl. apply NoDup_seq.
Qed.

(** A buffer that nobody holds and the log has not pinned can be recycled. *)
Lemma unused_cell st v i : Rep w st v -> (i < NBUF)%nat ->
  (is_unused st i = true <-> v_held v !! i = None /\ (b_dev (the_buf i st) = 1 -> b_blockno (the_buf i st) ∉ v_dirty v)).
Proof.
  intros HR Hi. unfold is_unused. rewrite andb_true_iff, !Z.eqb_eq.
  destruct (rep_cell _ _ _ HR i Hi) as [(Hd & Hf & Hr & _ & Hh)|(Hd & _ & _ & Hf & Hh)].
  - rewrite Hr, Hf. split; [intros _; split; [done|congruence]|done].
  - rewrite Hf. destruct (v_held v !! i).
    + destruct Hh as (_ & -> & _). split; [intros [? _]; lia|intros [? _]; done].
    + destruct Hh as [-> _]. destruct (decide _) as [Hdirty|Hdirty].
      * split; [intros [_ H]; discriminate|intros [_ H]; now destruct (H Hd)].
      * split; [intros _; split; done|done].
Qed.

Lemma room_unused st v : Rep w st v -> (size (v_held v) + size (v_dirty v) < NBUF)%nat ->
  exists i, (i < NBUF)%nat /\ is_unused st i = true.
Proof.
  intros HR Hroom. destruct (find (is_unused st) (seq 0 NBUF)) as [i|] eqn:Ef.
  { apply find_some in Ef as [Hin Hu]. exists i. apply list_elem_of_In, elem_of_seq in Hin. split; [lia|done]. }
  exfalso. pose proof (find_none _ _ Ef) as Hnone.
  set (T := filter (fun i => v_held v !! i = None) (seq 0 NBUF)).
  assert (HT : forall i, i ∈ T -> (i < NBUF)%nat /\ b_dev (the_buf i st) = 1 /\ b_blockno (the_buf i st) ∈ v_dirty v).
  { intros i [Hh Hin]%list_elem_of_filter. assert (Hi : (i < NBUF)%nat) by (apply elem_of_seq in Hin; lia).
    split; [done|]. apply list_elem_of_In, Hnone in Hin. apply not_true_iff_false in Hin.
    rewrite (unused_cell st v i HR Hi) in Hin.
    destruct (decide (b_dev (the_buf i st) = 1)) as [E|E]; [|naive_solver].
    split; [done|]. destruct (decide (b_blockno (the_buf i st) ∈ v_dirty v)); [done|naive_solver]. }
  assert (H1 : (length T <= size (v_dirty v))%nat).
  { rewrite <- (length_fmap (fun i => b_blockno (the_buf i st)) T).
    assert (Hnd : NoDup ((fun i => b_blockno (the_buf i st)) <$> T)).
    { apply NoDup_fmap_2_strong; [|apply NoDup_filter, NoDup_seq]. intros x y Hx Hy E.
      destruct (HT x Hx) as (? & ? & _), (HT y Hy) as (? & ? & _). eapply rep_uniq; eauto. }
    rewrite <- (size_list_to_set (C := gset Z)) by exact Hnd. apply subseteq_size. intros b Hb.
    apply elem_of_list_to_set, list_elem_of_fmap in Hb as (i & -> & Hi). now apply HT. }
  assert (H2 : (NBUF <= length T + size (v_held v))%nat).
  { rewrite <- (length_seq NBUF 0) at 1. rewrite <- (filter_app_complement (fun i => v_held v !! i = None)), length_app. apply Nat.add_le_mono_l.
    rewrite <- size_dom. rewrite <- (size_list_to_set (C := gset nat)) by apply NoDup_filter, NoDup_seq.
    apply subseteq_size. intros i [Hh _]%elem_of_list_to_set%list_elem_of_filter. apply elem_of_dom.
    destruct (v_held v !! i); [eauto|done]. }
  lia.
Qed.

(** [bget] finds the buffer of a cached block, or recycles an unused one. *)
Lemma srun_bget st v b (Q : nat -> storage -> Prop) :
  Rep w st v -> (forall i, v_held v !! i <> Some b) ->
  (b ∈ v_dirty v \/ (size (v_held v) + size (v_dirty v) < NBUF)%nat) ->
  (forall i, (i < NBUF)%nat -> v_held v !! i = None -> b_dev (the_buf i st) = 1 -> b_blockno (the_buf i st) = b ->
     Q i (set_sleep (buf_lock i) (mkSleep 1 (w_pid w)) (upd_buf i (fun bb => set_refcnt (u32 (b_refcnt bb + 1)) bb) st))) ->
  (forall i, (i < NBUF)%nat -> v_held v !! i = None -> b ∉ v_dirty v ->
     (b_dev (the_buf i st) = 1 -> b_blockno (the_buf i st) ∉ v_dirty v) ->
     (forall j, (j < NBUF)%nat -> b_dev (the_buf j st) = 1 -> b_blockno (the_buf j st) <> b) ->
     Q i (set_sleep (buf_lock i) (mkSleep 1 (w_pid w))
       (upd_buf i (fun bb => mkBuf 0 1 b 1 (b_prev bb) (b_next bb) (b_data bb)) st))) ->
  srun w ∅ (bget 1 b) st ∅ Q.
Proof.
  intros HR Hnh Hroom Hhit Hmiss. destruct (rep_order _ _ HR) as (l & [Hf Hp] & [Hh Hnd]%NoDup_cons & Hlen & Hin).
  unfold bget. sgo. eapply srun_bind, (srun_find_cached _ _ _ _ _ l HEAD); [exact Hf|exact Hh|rewrite Hlen; lia|].
  destruct (find (is_block 1 b st) l) as [i|] eqn:Ef; sgo.
  - apply find_some in Ef as [Hi Hb]. apply list_elem_of_In, Hin in Hi. unfold is_block in Hb.
    apply andb_true_iff in Hb as [Hd%Z.eqb_eq Hb%Z.eqb_eq].
    destruct (rep_cell _ _ _ HR i Hi) as [(Hd' & _)|(_ & _ & _ & _ & Hs)]; [lia|].
    destruct (v_held v !! i) as [c|] eqn:Ei; [destruct Hs as [-> _]; congruence|].
    eapply srun_bind, srun_acquiresleep; [set_solver|kset|apply Hs|]. sgo. now apply Hhit.
  - assert (Hno : forall j, (j < NBUF)%nat -> b_dev (the_buf j st) = 1 -> b_blockno (the_buf j st) <> b).
    { intros j Hj Hd E. apply Hin, list_elem_of_In in Hj. pose proof (find_none _ _ Ef j Hj) as Hn.
      unfold is_block in Hn. rewrite Hd, E, !Z.eqb_refl in Hn. discriminate. }
    assert (Hnd' : b ∉ v_dirty v).
    { intros Hd. destruct (rep_dirty _ _ _ HR b Hd) as (j & Hj & Hj1 & Hjb). now apply (Hno j). }
    destruct Hroom as [|Hroom]; [done|]. destruct (room_unused _ _ HR Hroom) as (k & Hk & Hku).
    eapply srun_bind, (srun_find_unused _ _ _ (reverse l) HEAD);
      [exact Hp|now rewrite elem_of_reverse|rewrite length_reverse, Hlen; lia|].
    destruct (find (is_unused st) (reverse l)) as [i|] eqn:Eu.
    + apply find_some in Eu as [Hi Hu]. apply list_elem_of_In, elem_of_reverse, Hin in Hi. sgo.
      destruct (proj1 (unused_cell st v i HR Hi) Hu) as [Hn Hd].
      eapply srun_bind, srun_acquiresleep; [set_solver|kset| |sgo; now apply Hmiss].
      destruct (rep_cell _ _ _ HR i Hi) as [(_ & _ & _ & Hs & _)|(_ & _ & _ & _ & Hs)]; [exact Hs|].
      rewrite Hn in Hs. apply Hs.
    + exfalso. apply Hin in Hk. apply elem_of_reverse, list_elem_of_In in Hk.
      pose proof (find_none _ _ Eu k Hk). congruence.
Qed.
Lemma rep_hold st st' v i b :
  Rep w st v -> (i < NBUF)%nat -> touched i st st' -> st_disk st' = st_disk st -> st_writes st' = st_writes st ->
  v_held v !! i = None -> 0 <= b < st_disksize st ->
  (forall j, (j < NBUF)%nat -> j <> i -> b_dev (the_buf j st) = 1 -> b_blockno (the_buf j st) <> b) ->
  (b_dev (the_buf i st) = 1 -> b_blockno (the_buf i st) = b \/ b_blockno (the_buf i st) ∉ v_dirty v) ->
  cell (the_buf i st') = (if decide (b ∈ v_dirty v) then 6 else 2, 1, b, 1, v_cur v b) ->
  the_sleep (buf_lock i) st' = mkSleep 1 (w_pid w) -> Rep w st' (hold i b v).
Proof.
  intros HR Hi Ht Hd Hw Hh Hb Hoth Hold Hc Hs. unfold cell in Hc. injection Hc as Hcf Hcd Hcb Hcr Hcdat.
  eapply (rep_touch w st st' v (hold i b v) i b); try done; simpl.
  - split; [done|]. intros j Hj. simpl. now rewrite lookup_insert_ne.
  - right. simpl. rewrite lookup_insert_eq, Hcb. destruct Ht as [[-> _] _]. done.
  - intros c Hc Hn. apply (rep_coh _ _ _ HR c Hc). intros j Hj. apply (Hn j).
    rewrite lookup_insert_ne; [exact Hj|congruence].
  - intros c. rewrite (rep_disk _ _ _ HR). unfold block. now rewrite Hd.
  - rewrite (rep_writes _ _ _ HR). done.
  - apply HR.
Qed.

Lemma srun_iderw_read i st (Q : unit -> storage -> Prop) :
  the_sleep (buf_lock i) st = mkSleep 1 (w_pid w) -> (i < length (st_bufs st))%nat ->
  b_flags (the_buf i st) = 0 -> b_dev (the_buf i st) = 1 -> b_blockno (the_buf i st) < st_disksize st ->
  Q tt (upd_buf i (fun bb => set_flags (Z.lor (b_flags bb) B_VALID) bb)
         (upd_buf i (set_data (block (b_blockno (the_buf i st)) st)) st)) ->
  srun w ∅ (iderw i) st ∅ Q.
Proof.
  intros Hs Hi Hf Hd Hb HQ. unfold iderw. eapply srun_bind, srun_holdingsleep; [set_solver|kset|].
  rewrite Hs. cbn [sl_locked sl_pid]. rewrite Z.eqb_refl. cbn [Z.eqb negb andb]. sgo. rewrite Hf, Hd. simpl.
  replace (_ <=? _) with false by lia. sgo. exact HQ.
Qed.

Lemma bread_run st v b (Q : nat -> storage -> Prop) :
  Rep w st v -> 0 <= b < st_disksize st -> (forall i, v_held v !! i <> Some b) ->
  (b ∈ v_dirty v \/ (size (v_held v) + size (v_dirty v) < NBUF)%nat) ->
  (forall i st', v_held v !! i = None -> Rep w st' (hold i b v) -> same st st' ->
     b_data (the_buf i st') = v_cur v b -> Q i st') ->
  srun w ∅ (bread 1 b) st ∅ Q.
Proof.
  intros HR Hb Hnh Hroom HQ. unfold bread. eapply srun_bind, (srun_bget st v); [done..| |].
  - intros i Hi Hh Hd Hbk. pose proof (rep_lt _ _ _ HR Hi) as Hlt.
    destruct (rep_cell _ _ _ HR i Hi) as [(Hd' & _)|(_ & _ & Hdat & Hf & Hr)]; [lia|]. rewrite Hh in Hr.
    set (st1 := set_sleep _ _ _). assert (Ht : touched i st st1).
    { transitivity (upd_buf i (fun bb => set_refcnt (u32 (b_refcnt bb + 1)) bb) st);
        [now apply touched_upd|now apply touched_sleep]. }
    assert (Hc : cell (the_buf i st1) = (if decide (b ∈ v_dirty v) then 6 else 2, 1, b, 1, v_cur v b)).
    { change (the_buf i st1) with (the_buf i (upd_buf i (fun bb => set_refcnt (u32 (b_refcnt bb + 1)) bb) st)).
      rewrite the_buf_upd by done. unfold cell. simpl. destruct Hr as [-> _]. rewrite Hf, Hd, Hdat, Hbk. reflexivity. }
    sgo. assert (Hv : (Z.land (b_flags (the_buf i st1)) B_VALID =? 0) = false).
    { unfold cell in Hc. inversion Hc as [Hfl]. rewrite Hfl. now destruct (decide (b ∈ v_dirty v)). }
    rewrite Hv. cbn [when]. sgo. apply HQ; [done| |apply Ht|now injection Hc].
    eapply (rep_hold st st1); eauto; [|apply the_sleep_set]. intros j Hj Hne Hj1 E.
    apply Hne. eapply rep_uniq; eauto. congruence.
  - intros i Hi Hh Hnd Hold Hno. pose proof (rep_lt _ _ _ HR Hi) as Hlt.
    set (f := fun bb => mkBuf 0 1 b 1 _ _ _). set (st1 := set_sleep _ _ _).
    assert (Hb1 : the_buf i st1 = f (the_buf i st)) by exact (the_buf_upd i f st Hlt).
    assert (Hl1 : (i < length (st_bufs st1))%nat) by (unfold st1; simpl; now rewrite length_alter).
    sgo. rewrite Hb1. simpl. eapply srun_bind, srun_iderw_read; rewrite ?Hb1; simpl;
      [apply the_sleep_set|done|done|done|lia|].
    sgo. set (st2 := upd_buf i _ _).
    assert (Ht : touched i st st2).
    { unfold st2. etransitivity; [|now apply touched_upd]. etransitivity; [|now apply touched_upd].
      unfold st1. etransitivity; [|now apply touched_sleep]. now apply touched_upd. }
    assert (Hc : cell (the_buf i st2) = (if decide (b ∈ v_dirty v) then 6 else 2, 1, b, 1, v_cur v b)).
    { unfold st2. rewrite !the_buf_upd by (simpl; rewrite ?length_alter; done). rewrite Hb1, decide_False by done.
      unfold cell. simpl. rewrite (rep_coh _ _ _ HR b Hnd Hnh), (rep_disk _ _ _ HR). reflexivity. }
    apply HQ; [done| |apply Ht|now injection Hc].
    eapply (rep_hold st st2); eauto. apply the_sleep_set.
Qed.
Lemma held_cell st v i b : Rep w st v -> v_held v !! i = Some b ->
  (i < NBUF)%nat /\ cell (the_buf i st) = (if decide (b ∈ v_dirty v) then 6 else 2, 1, b, 1, v_cur v b) /\
  0 <= b < st_disksize st /\ the_sleep (buf_lock i) st = mkSleep 1 (w_pid w) /\
  (forall j, (j < NBUF)%nat -> j <> i -> b_dev (the_buf j st) = 1 -> b_blockno (the_buf j st) <> b).
Proof.
  intros HR Hh. pose proof (rep_held _ _ _ HR i b Hh) as Hi. split; [done|].
  destruct (rep_cell _ _ _ HR i Hi) as [(_ & _ & _ & _ & E)|(Hd & Hr & Hdat & Hf & Hs)]; [congruence|].
  rewrite Hh in Hs. destruct Hs as (Hbk & Hrc & Hsl).
  split; [unfold cell; rewrite Hf, Hd, Hdat, Hrc, <- Hbk; reflexivity|]. split; [now rewrite Hbk|]. split; [done|].
  intros j Hj Hne Hj1 E. apply Hne. eapply rep_uniq; eauto. congruence.
Qed.

(** The rule behind every change of a held buffer. *)
Lemma rep_change st st' v v' i b :
  Rep w st v -> v_held v !! i = Some b -> touched i st st' -> off i b v v' -> v_held v' = v_held v ->
  the_sleep (buf_lock i) st' = the_sleep (buf_lock i) st ->
  cell (the_buf i st') = (if decide (b ∈ v_dirty v') then 6 else 2, 1, b, 1, v_cur v' b) ->
  (forall c, c <> b -> v_disk v' c = v_disk v c) -> (forall c, v_disk v' c = block c st') ->
  v_writes v' = st_writes st' -> length (v_cur v' b) = Z.to_nat BSIZE -> length (v_disk v' b) = Z.to_nat BSIZE ->
  Rep w st' v'.
Proof.
  intros HR Hh Ht Hoff Hhe Hs Hc Hdk Hdisk Hw Hl1 Hl2.
  destruct (held_cell _ _ _ _ HR Hh) as (Hi & Hc0 & Hb & Hs0 & Hoth).
  unfold cell in Hc, Hc0. injection Hc as Hcf Hcd Hcb Hcr Hcdat. injection Hc0 as _ _ Hb0 _ _.
  eapply (rep_touch w st st' v v' i b); try done.
  - right. rewrite Hcb, Hhe, Hh. destruct Ht as [[-> _] _]. rewrite Hs. done.
  - intros _. now left.
  - intros c Hcn Hn. destruct (decide (c = b)) as [->|Hne]; [exfalso; apply (Hn i); now rewrite Hhe|].
    rewrite Hdk by done. destruct Hoff as [Ho _]. destruct (Ho c Hne) as [-> Hd]. apply (rep_coh _ _ _ HR c); [tauto|].
    now rewrite <- Hhe.
  - intros c. destruct (decide (c = b)) as [->|Hne]; [done|]. rewrite Hdk by done.
    destruct Hoff as [Ho _]. destruct (Ho c Hne) as [-> _]. apply HR.
Qed.

Lemma rep_put st v i b d : Rep w st v -> v_held v !! i = Some b -> length d = Z.to_nat BSIZE ->
  Rep w (upd_buf i (set_data d) st) (put b d v).
Proof.
  intros HR Hh Hd. destruct (held_cell _ _ _ _ HR Hh) as (Hi & Hc & _).
  eapply (rep_change st _ v (put b d v) i b HR Hh); try done; simpl.
  - now apply touched_upd.
  - split; [|done]. intros c Hc'. simpl. now rewrite fn_lookup_insert_ne.
  - rewrite the_buf_upd by (eapply rep_lt; eauto). unfold cell in *.
    cbn [set_data b_flags b_dev b_blockno b_refcnt b_data]. injection Hc as -> -> -> -> _. now rewrite fn_lookup_insert.
  - intros c. apply HR.
  - apply HR.
  - now rewrite fn_lookup_insert.
  - apply (rep_size _ _ _ HR).
Qed.

Lemma rep_edit st v i b f : Rep w st v -> v_held v !! i = Some b -> (forall d, length (f d) = length d) ->
  Rep w (upd_buf i (fun bb => set_data (f (b_data bb)) bb) st) (put b (f (v_cur v b)) v).
Proof.
  intros HR Hh Hf. destruct (held_cell _ _ _ _ HR Hh) as (Hi & Hc & _).
  assert (E : upd_buf i (fun bb => set_data (f (b_data bb)) bb) st = upd_buf i (set_data (f (v_cur v b))) st).
  { unfold upd_buf. f_equal. apply list_eq. intros j. destruct (decide (i = j)) as [<-|Hne].
    - rewrite !list_lookup_alter_eq. destruct (lookup_lt_is_Some_2 _ _ (rep_lt _ _ _ HR Hi)) as [bb Hbb].
      rewrite Hbb. simpl. unfold cell, the_buf in Hc. rewrite Hbb in Hc. simpl in Hc. inversion Hc as [[E1 E2 E3 E4 E5]].
      now rewrite E5.
    - now rewrite !list_lookup_alter_ne. }
  rewrite E. apply rep_put; [done|done|]. rewrite Hf. apply (rep_size _ _ _ HR).
Qed.

Lemma rep_pin st v i b : Rep w st v -> v_held v !! i = Some b ->
  Rep w (upd_buf i (fun bb => set_flags (Z.lor (b_flags bb) B_DIRTY) bb) st) (pin b v).
Proof.
  intros HR Hh. destruct (held_cell _ _ _ _ HR Hh) as (Hi & Hc & _).
  eapply (rep_change st _ v (pin b v) i b HR Hh); try done; simpl.
  - now apply touched_upd.
  - split; [|done]. intros c Hc'. simpl. set_solver.
  - rewrite the_buf_upd by (eapply rep_lt; eauto). unfold cell in *.
    cbn [set_flags b_flags b_dev b_blockno b_refcnt b_data]. injection Hc as -> -> -> -> ->.
    destruct (decide (b ∈ {[b]} ∪ v_dirty v)); [now destruct (decide (b ∈ v_dirty v))|set_solver].
  - intros c. apply HR.
  - apply HR.
  - apply (rep_size _ _ _ HR).
  - apply (rep_size _ _ _ HR).
Qed.

Lemma block_write b d c st : block c (disk_write b d st) = if decide (c = b) then d else block c st.
Proof.
  unfold block. simpl. destruct (decide (c = b)) as [->|Hne]; [now rewrite lookup_insert_eq|now rewrite lookup_insert_ne].
Qed.

Lemma bwrite_run st v i b (Q : unit -> storage -> Prop) :
  Rep w st v -> v_held v !! i = Some b ->
  (forall st', Rep w st' (flush b v) -> same st st' -> b_data (the_buf i st') = b_data (the_buf i st) -> Q tt st') ->
  srun w ∅ (bwrite i) st ∅ Q.
Proof.
  intros HR Hh HQ. destruct (held_cell _ _ _ _ HR Hh) as (Hi & Hc & Hb & Hs & _).
  pose proof (rep_lt _ _ _ HR Hi) as Hlt. unfold bwrite.
  eapply srun_bind, srun_holdingsleep; [set_solver|kset|].
  rewrite Hs. cbn [sl_locked sl_pid]. rewrite Z.eqb_refl. cbn [Z.eqb negb andb]. sgo.
  set (st1 := upd_buf i _ st). assert (H1 : the_buf i st1 = set_flags 6 (the_buf i st)).
  { unfold st1. rewrite the_buf_upd by done. f_equal. unfold cell in Hc. injection Hc as -> _ _ _ _.
    now destruct (decide _). }
  unfold cell in Hc. injection Hc as Hf Hd Hbk Hr Hdat.
  unfold iderw. eapply srun_bind, srun_holdingsleep; [set_solver|kset|].
  change (the_sleep (buf_lock i) st1) with (the_sleep (buf_lock i) st). rewrite Hs.
  cbn [sl_locked sl_pid]. rewrite Z.eqb_refl. cbn [Z.eqb negb andb]. sgo. rewrite H1.
  cbn [set_flags b_flags b_dev b_blockno b_data]. rewrite Hd, Hbk, Hdat. cbn [Z.eqb negb].
  replace (_ <=? b) with false by (change (st_disksize st1) with (st_disksize st); lia). simpl. sgo.
  set (st2 := upd_buf i _ (disk_write _ _ _)).
  assert (Ht : touched i st st2).
  { unfold st2, st1. etransitivity; [|now apply touched_upd]. etransitivity; [|apply touched_disk].
    etransitivity; [|now apply touched_upd]. now apply touched_upd. }
  assert (H2 : the_buf i st2 = set_flags 2 (the_buf i st)).
  { unfold st2. rewrite the_buf_upd by (simpl; now rewrite !length_alter).
    change (the_buf i (disk_write _ _ ?s)) with (the_buf i s).
    rewrite the_buf_upd by (simpl; now rewrite !length_alter). rewrite H1. reflexivity. }
  apply HQ; [|apply Ht|now rewrite H2].
  eapply (rep_change st st2 v (flush b v) i b HR Hh); try done; simpl.
  - split; [|done]. intros c Hc. simpl. split; [done|set_solver].
  - rewrite H2, decide_False by set_solver. unfold cell. simpl. now rewrite Hd, Hbk, Hr, Hdat.
  - intros c Hc. now rewrite fn_lookup_insert_ne.
  - intros c. unfold st2. change (block c (upd_buf _ _ ?s)) with (block c s). rewrite block_write.
    destruct (decide (c = b)) as [->|Hne]; [now rewrite fn_lookup_insert|].
    rewrite fn_lookup_insert_ne by done. apply HR.
  - now rewrite (rep_writes _ _ _ HR).
  - apply (rep_size _ _ _ HR).
  - rewrite fn_lookup_insert. apply (rep_size _ _ _ HR).
Qed.
Lemma rep_front st v i : Rep w st v -> (i < NBUF)%nat -> Rep w (move_to_front i st) v.
Proof.
  intros HR Hi. destruct (rep_order _ _ HR) as (l & Hring & Hnd & Hlen & Hin).
  assert (Hc : forall x, cell (the_buf x (move_to_front i st)) = cell (the_buf x st)) by (intros; apply move_to_front_cell).
  assert (Hd : forall x, b_dev (the_buf x (move_to_front i st)) = b_dev (the_buf x st))
    by (intros x; specialize (Hc x); unfold cell in Hc; congruence).
  assert (Hb : forall x, b_blockno (the_buf x (move_to_front i st)) = b_blockno (the_buf x st))
    by (intros x; specialize (Hc x); unfold cell in Hc; congruence).
  destruct HR as [HL HR1 HR2 HR3 HR4 HR5 HR6 HR7 HR8 HR9]. constructor; try done.
  - unfold move_to_front, upd_buf. simpl. now rewrite !length_alter.
  - apply Hin in Hi. apply list_elem_of_split in Hi as (l1 & l2 & ->). exists (i :: l1 ++ l2). split.
    + destruct HR1 as (l' & Hl' & _). apply NoDup_Permutation.
      * apply NoDup_cons in Hnd as [_ Hnd]. assert (HP : i :: l1 ++ l2 ≡ₚ l1 ++ i :: l2) by solve_Permutation. now rewrite HP.
      * apply NoDup_seq.
      * intros x. assert (HP : i :: l1 ++ l2 ≡ₚ l1 ++ i :: l2) by solve_Permutation. rewrite HP, Hin, elem_of_seq. lia.
    + apply move_to_front_ring; [done|done|]. intros x [->|Hx]%elem_of_cons; rewrite HL; [unfold HEAD; lia|].
      apply Hin in Hx. lia.
  - intros j Hj. specialize (HR2 j Hj). unfold in_cell in *. specialize (Hc j). unfold cell in Hc.
    injection Hc as -> -> -> -> ->. exact HR2.
  - intros j k Hj Hk. rewrite !Hd, !Hb. now apply HR3.
  - intros b Hb'. destruct (HR4 b Hb') as (j & Hj). exists j. now rewrite Hd, Hb.
Qed.

Lemma brelse_run st v i b (Q : unit -> storage -> Prop) :
  Rep w st v -> v_held v !! i = Some b -> (b ∈ v_dirty v \/ v_cur v b = v_disk v b) ->
  (forall st', Rep w st' (unhold i v) -> same st st' -> Q tt st') ->
  srun w ∅ (brelse i) st ∅ Q.
Proof.
  intros HR Hh Hcl HQ. destruct (held_cell _ _ _ _ HR Hh) as (Hi & Hc & Hb & Hs & Hoth).
  pose proof (rep_lt _ _ _ HR Hi) as Hlt. unfold brelse.
  eapply srun_bind, srun_holdingsleep; [set_solver|kset|].
  rewrite Hs. cbn [sl_locked sl_pid]. rewrite Z.eqb_refl. cbn [Z.eqb negb andb].
  eapply srun_bind, srun_releasesleep; [set_solver|set_solver|kset|]. sgo.
  set (st1 := upd_buf i _ (set_sleep _ _ st)). unfold cell in Hc. injection Hc as Hf Hd Hbk Hr Hdat.
  assert (H1 : the_buf i st1 = set_refcnt 0 (the_buf i st)).
  { unfold st1. rewrite the_buf_upd by done. change (the_buf i (set_sleep _ _ ?s)) with (the_buf i s).
    rewrite Hr. reflexivity. }
  rewrite H1. cbn [set_refcnt b_refcnt Z.eqb when]. sgo.
  assert (Ht : touched i st st1) by (etransitivity; [now apply touched_sleep|now apply touched_upd]).
  assert (HR1 : Rep w st1 (unhold i v)).
  { eapply (rep_touch w st st1 v (unhold i v) i b); try done; rewrite ?H1; try done.
    - split; [done|]. intros j Hj. simpl. now rewrite lookup_delete_ne.
    - right. rewrite H1. simpl. rewrite lookup_delete_eq, Hbk. split; [done|]. split; [done|]. split; [done|].
      split; [done|]. split; [done|]. unfold st1. change (the_sleep ?l (upd_buf _ _ ?s)) with (the_sleep l s).
      now rewrite the_sleep_set.
    - intros _. now left.
    - simpl. intros c Hcn Hn. destruct (decide (c = b)) as [->|Hne]; [now destruct Hcl|].
      apply (rep_coh _ _ _ HR c Hcn). intros j Hj. apply (Hn j). rewrite lookup_delete_ne; congruence.
    - intros c. apply HR.
    - apply HR.
    - apply HR. }
  apply HQ; [now apply rep_front|apply Ht].
Qed.
(** Reading a block without changing it. *)
Lemma peek_run {A} st v b (k : list Z -> M kfs A) (Q : A -> storage -> Prop) :
  Rep w st v -> v_held v = ∅ -> (size (v_dirty v) < NBUF)%nat -> 0 <= b < st_disksize st ->
  (forall st', Rep w st' v -> same st st' -> srun w ∅ (k (v_cur v b)) st' ∅ Q) ->
  srun w ∅ (bp <~ bread 1 b ;; d <~ getst (fun st => b_data (the_buf bp st)) ;; brelse bp ;;; k d) st ∅ Q.
Proof.
  intros HR Hh Hn Hb HQ. eapply srun_bind, (bread_run st v b); [exact HR|exact Hb|now rewrite Hh|right; rewrite Hh, map_size_empty; lia|].
  intros i st1 Hi HR1 S1 Hdat. sgo. rewrite Hdat.
  eapply srun_bind, (brelse_run _ (hold i b v) i b); [exact HR1|apply lookup_insert_eq| |].
  { destruct (decide (b ∈ v_dirty v)) as [Hd|Hd]; [now left|right]. apply (rep_coh _ _ _ HR); [done|now rewrite Hh]. }
  intros st2 HR2 S2. rewrite unhold_hold in HR2 by done. apply HQ; [exact HR2|now transitivity st1].
Qed.
End Rules.


(** ** Initialisation *)
Section Init.
Context {W : Wait} (w : who).

Definition link_front (bs : list buf) (b : nat) : list buf :=
  let bs := alter (set_next (nxt bs HEAD)) b bs in
  let bs := alter (set_prev HEAD) b bs in
  let bs := alter (set_prev b) (nxt bs HEAD) bs in
  alter (set_next b) HEAD bs.

Lemma binit_loop l st (Q : unit -> storage -> Prop) :
  (forall i, i ∈ l -> (i < NBUF)%nat) ->
  (forall st', st_bufs st' = foldl link_front (st_bufs st) l -> st_disk st' = st_disk st -> st_writes st' = st_writes st ->
     (forall i, i ∈ l -> the_sleep (buf_lock i) st' = mkSleep 0 0) ->
     (forall i, i ∉ l -> the_sleep i st' = the_sleep i st) -> same st st' -> Q tt st') ->
  srun w ∅ (for_each l (fun b =>
    modst (fun st => upd_buf b (set_next (b_next (the_buf HEAD st))) st) ;;;
    modst (upd_buf b (set_prev HEAD)) ;;;
    initsleeplock (buf_lock b) ;;;
    modst (fun st => upd_buf (b_next (the_buf HEAD st)) (set_prev b) st) ;;;
    modst (upd_buf HEAD (set_next b)))) st ∅ Q.
Proof.
  revert st. induction l as [|b l IH]; intros st Hl HQ; simpl.
  - apply srun_ret. apply HQ; try done. set_solver.
  - sgo. unfold initsleeplock. sgo.
    set (st1 := upd_buf HEAD _ _). assert (Hb : (b < NBUF)%nat) by (apply Hl; now left).
    assert (Hs1 : forall i, the_sleep i st1 = the_sleep i (set_sleep (buf_lock b) (mkSleep 0 0) st)) by done.
    apply IH; [intros i Hi; apply Hl; now right|]. intros st' Hbs Hd Hw Hin Hout Hsame.
    apply HQ; [exact Hbs|exact Hd|exact Hw| | |].
    + intros i [->|Hi]%elem_of_cons; [|now apply Hin]. destruct (decide (b ∈ l)) as [Hbl|Hbl]; [now apply Hin|].
      change b with (buf_lock b) in Hbl at 1. rewrite (Hout _ Hbl), Hs1. apply the_sleep_set.
    + intros i Hi. apply not_elem_of_cons in Hi as [Hi Hi']. rewrite (Hout i Hi'), Hs1.
      apply the_sleep_set_ne. unfold buf_lock. congruence.
    + destruct Hsame as (?&?&?&?&?&?&Hs). repeat split; try done. intros k Hk.
      rewrite Hs by done. rewrite Hs1. apply the_sleep_set_ne. unfold buf_lock. lia.
Qed.
Definition zero_links : list buf := alter (set_next HEAD) HEAD (alter (set_prev HEAD) HEAD (replicate (S NBUF) buf0)).

Lemma link_front_keeps l bs :
  length (foldl link_front bs l) = length bs /\
  forall x, cell (default buf0 (foldl link_front bs l !! x)) = cell (default buf0 (bs !! x)).
Proof.
  revert bs. induction l as [|b l IH]; intros bs; simpl; [done|]. destruct (IH (link_front bs b)) as [-> Hc].
  unfold link_front in *. split; [now rewrite !length_alter|]. intros x. rewrite Hc.
  now rewrite cell_set_next, !cell_set_prev, cell_set_next.
Qed.

Lemma zero_links_ring : ring (reverse (seq 0 NBUF)) (foldl link_front zero_links (seq 0 NBUF)).
Proof. split; vm_compute; repeat split. Qed.

Lemma zero_links_cell x : cell (default buf0 (zero_links !! x)) = cell buf0.
Proof.
  unfold zero_links. rewrite cell_set_next, cell_set_prev.
  destruct (replicate (S NBUF) buf0 !! x) as [b|] eqn:E; [|done]. now apply lookup_replicate in E as [-> _].
Qed.

Lemma boot_bufs_ok bs : bs = foldl link_front zero_links (seq 0 NBUF) ->
  length bs = S NBUF /\ ring (reverse (seq 0 NBUF)) bs /\ forall x, cell (default buf0 (bs !! x)) = cell buf0.
Proof.
  intros ->. destruct (link_front_keeps (seq 0 NBUF) zero_links) as [HL HC].
  split; [rewrite HL; reflexivity|]. split; [exact zero_links_ring|]. intros x. etransitivity; [apply HC|apply zero_links_cell].
Qed.

(** The empty cache over the disk of [st]. *)
Definition fresh_view (st : storage) : view :=
  mkView (fun b => block b st) (fun b => block b st) ∅ (st_writes st) ∅.

Lemma binit_run st (Q : unit -> storage -> Prop) :
  st_bufs st = replicate (S NBUF) buf0 -> (forall b, length (block b st) = Z.to_nat BSIZE) ->
  (forall st', Rep w st' (fresh_view st) -> same st st' -> Q tt st') -> srun w ∅ binit st ∅ Q.
Proof.
  intros Hz Hlen HQ. unfold binit. sgo. apply binit_loop; [intros i Hi; apply elem_of_seq in Hi; lia|].
  intros st' Hbs Hd Hw Hs _ Hsame. unfold upd_buf, set_bufs in Hbs. cbn [st_bufs] in Hbs. rewrite Hz in Hbs.
  destruct (boot_bufs_ok _ Hbs) as (HL & Hring & HC). clear Hbs.
  assert (Hc : forall x, cell (the_buf x st') = cell buf0) by exact HC.
  assert (Hdv : forall x, b_dev (the_buf x st') = 0) by (intros x; specialize (Hc x); unfold cell in Hc; now injection Hc).
  apply HQ; [|exact Hsame]. constructor; try done; try apply Hlen.
  - exists (reverse (seq 0 NBUF)). split; [apply reverse_Permutation|]. exact Hring.
  - intros i Hi. left. specialize (Hc i). unfold cell in Hc. injection Hc as -> -> _ -> _. rewrite Hs; [done|].
    apply elem_of_seq. lia.
  - intros i j _ _ Hi. rewrite Hdv in Hi. done.
  - intros b. simpl. unfold block. now rewrite Hd.
  - intros b. simpl. now rewrite Hlen.
Qed.
End Init.

(** C4. The buffer cache implements an abstract one.  Whatever the order of
    the ring, [bread] locks a buffer with the current content of the block,
    provided the block is pinned or fewer than [NBUF] buffers are locked or
    pinned; [bwrite] makes the content of a locked buffer that of the disk;
    and [brelse] gives back a buffer that is pinned or agrees with the disk.
    None of them panics, and no content that readers see is lost when a buffer
    is recycled for another block. *)
Theorem buffer_cache_refines `{Wait} (w : who) (s : kfs) (v : view) :
  env w ∅ s -> Rep w (k_ext s) v ->
  (forall b, 0 <= b < st_disksize (k_ext s) -> (forall i, v_held v !! i <> Some b) ->
     (b ∈ v_dirty v \/ (size (v_held v) + size (v_dirty v) < NBUF)%nat) ->
     exists i s', bread 1 b s = Done i s' /\ env w ∅ s' /\ v_held v !! i = None /\
       Rep w (k_ext s') (hold i b v) /\ b_data (the_buf i (k_ext s')) = v_cur v b) /\
  (forall i b, v_held v !! i = Some b ->
     exists s', bwrite i s = Done tt s' /\ env w ∅ s' /\ Rep w (k_ext s') (flush b v)) /\
  (forall i b, v_held v !! i = Some b -> (b ∈ v_dirty v \/ v_cur v b = v_disk v b) ->
     exists s', brelse i s = Done tt s' /\ env w ∅ s' /\ Rep w (k_ext s') (unhold i v)).
Proof.
  intros He HR. split; [|split].
  - intros b Hb Hh Hroom. apply (srun_done w (bread 1 b) s (fun i st' => v_held v !! i = None /\
      Rep w st' (hold i b v) /\ b_data (the_buf i st') = v_cur v b)); [|exact He].
    apply (bread_run w _ v b); auto.
  - intros i b Hi. destruct (srun_done w (bwrite i) s (fun _ st' => Rep w st' (flush b v))) as ([] & s' & ?); [|exact He|eauto].
    apply (bwrite_run w _ v i b); auto.
  - intros i b Hi Hcl. destruct (srun_done w (brelse i) s (fun _ st' => Rep w st' (unhold i v))) as ([] & s' & ?); [|exact He|eauto].
    apply (brelse_run w _ v i b); auto.
Qed.
