(* ===== verification/Ide.v ===== *)
(** * The driver of the IDE disks (ide.c)

    Every function of ide.c, on the state [Store.ide].  The queue of requests
    is linked through the buffers ([id_qnext]); the controller is what the
    registers written to it say: the byte written to the command port starts
    the command on the sector that the other ports select, after which the
    controller is busy until it raises its interrupt.  Programming it while it
    is busy has no defined result, so that a run that returns has not done it.
    [id_status] is the sequence of values that the status port will show.

    [disk_rep q] says that the queue is the list [q] of buffers, each of which
    wants its block read or written, and that the controller is working for the
    first of them.  Under it a request is appended and its thread sleeps
    ([iderw]), and each interrupt finishes the first request and starts the
    next ([ideintr]). *)
From S2P Require Import Prelude Mmu Str Spinlock Kalloc Vm Proc Exec Sched Store Apic Bio.

Definition IDE_LOCK : nat := 10%nat.
(** The channel of the threads that wait for a buffer. *)
Definition buf_chan (b : nat) : chan := CObj (2000 + Z.of_nat b).

Definition SECTOR_SIZE : Z := 512.
Definition IDE_BSY : Z := 0x80.
Definition IDE_DRDY : Z := 0x40.
Definition IDE_DF : Z := 0x20.
Definition IDE_ERR : Z := 0x01.
Definition IDE_CMD_READ : Z := 0x20.
Definition IDE_CMD_WRITE : Z := 0x30.
Definition IDE_CMD_RDMUL : Z := 0xc4.
Definition IDE_CMD_WRMUL : Z := 0xc5.

Definition set_queue (v : option nat) (i : ide) : ide :=
  mkIde v (id_qnext i) (id_havedisk1 i) (id_reg i) (id_status i) (id_pending i) (id_disk0 i).
Definition set_qnext (b : nat) (v : option nat) (i : ide) : ide :=
  mkIde (id_queue i) (<[b := v]> (id_qnext i)) (id_havedisk1 i) (id_reg i) (id_status i) (id_pending i) (id_disk0 i).
Definition set_havedisk1 (v : Z) (i : ide) : ide :=
  mkIde (id_queue i) (id_qnext i) v (id_reg i) (id_status i) (id_pending i) (id_disk0 i).
Definition set_reg (port v : Z) (i : ide) : ide :=
  mkIde (id_queue i) (id_qnext i) (id_havedisk1 i) (<[port := v]> (id_reg i)) (id_status i) (id_pending i) (id_disk0 i).
Definition set_status (v : list Z) (i : ide) : ide :=
  mkIde (id_queue i) (id_qnext i) (id_havedisk1 i) (id_reg i) v (id_pending i) (id_disk0 i).
Definition set_pending (v : bool) (i : ide) : ide :=
  mkIde (id_queue i) (id_qnext i) (id_havedisk1 i) (id_reg i) (id_status i) v (id_disk0 i).
Definition set_disk0 (n : Z) (d : list Z) (i : ide) : ide :=
  mkIde (id_queue i) (id_qnext i) (id_havedisk1 i) (id_reg i) (id_status i) (id_pending i) (<[n := d]> (id_disk0 i)).

Definition get_ide {A} (f : ide -> A) : M kfs A := getst (fun st => f (st_ide st)).
Definition on_ide (f : ide -> ide) (st : storage) : storage := set_ide (f (st_ide st)) st.
Definition upd_ide (f : ide -> ide) : M kfs unit := modst (on_ide f).

(** ** The controller *)
Definition CMD_PORT : Z := 0x1f7.
Definition reg (port : Z) (i : ide) : Z := default 0 (id_reg i !! port).
(** The drive and the sector that the registers select. *)
Definition drive (i : ide) : Z := Z.land (Z.shiftr (reg 0x1f6 i) 4) 1.
Definition lba (i : ide) : Z :=
  reg 0x1f3 i + 256 * reg 0x1f4 i + 65536 * reg 0x1f5 i + 16777216 * Z.land (reg 0x1f6 i) 0xf.
(** The sectors of a drive: drive 1 is the disk of the file system. *)
Definition sector (drv n : Z) (st : storage) : list Z :=
  if drv =? 0 then default (replicate (Z.to_nat BSIZE) 0) (id_disk0 (st_ide st) !! n) else block n st.
Definition put_sector (drv n : Z) (d : list Z) (st : storage) : storage :=
  if drv =? 0 then set_ide (set_disk0 n d (st_ide st)) st else disk_write n d st.

Definition outb (port v : Z) : M kfs unit :=
  busy <~ get_ide id_pending ;;
  if (busy : bool) then (fun _ => Crash "controller busy")
  else
    upd_ide (set_reg port (u8 v)) ;;;
    when (port =? CMD_PORT) (upd_ide (set_pending true)).
(** [insl] and [outsl] move the words of one sector through the data port. *)
Definition insl (b : nat) : M kfs unit :=
  modst (fun st => upd_buf b (set_data (sector (drive (st_ide st)) (lba (st_ide st)) st)) st).
Definition outsl (b : nat) : M kfs unit :=
  modst (fun st => put_sector (drive (st_ide st)) (lba (st_ide st)) (b_data (the_buf b st)) st).

(** ** ide.c *)
(** The value that ends the polling, and the values that follow it. *)
Fixpoint poll (l : list Z) : option (Z * list Z) :=
  match l with
  | [] => None
  | r :: l => if Z.land r (Z.lor IDE_BSY IDE_DRDY) =? IDE_DRDY then Some (r, l) else poll l
  end.
Definition idewait (checkerr : bool) : M kfs Z :=
  l <~ get_ide id_status ;;
  match poll l with
  | None => fun _ => Spin
  | Some (r, l) =>
      upd_ide (set_status l) ;;;
      ret (if checkerr && negb (Z.land r (Z.lor IDE_DF IDE_ERR) =? 0) then -1 else 0)
  end.

(** [inb(0x1f7)]. *)
Definition inb_status : M kfs Z :=
  l <~ get_ide id_status ;;
  match l with
  | [] => fun _ => Spin
  | r :: l => upd_ide (set_status l) ;;; ret r
  end.
Fixpoint probe (n : nat) : M kfs unit :=
  match n with
  | O => ret tt
  | S n =>
      r <~ inb_status ;;
      if negb (r =? 0) then upd_ide (set_havedisk1 1) else probe n
  end.
Definition ideinit : M kfs unit :=
  on_cpus (initlock IDE_LOCK "ide") ;;;
  ncpu <~ gets (fun s => Z.of_nat (length (m_cpus (k_mach s)))) ;;
  ioapicenable IRQ_IDE (ncpu - 1) ;;;
  _ <~ idewait false ;;
  outb 0x1f6 (Z.lor 0xe0 (Z.shiftl 1 4)) ;;;
  probe 1000 ;;;
  outb 0x1f6 (Z.lor 0xe0 (Z.shiftl 0 4)).

Definition idestart (b : option nat) : M kfs unit :=
  match b with
  | None => panic "idestart"
  | Some b =>
      bb <~ getst (the_buf b) ;;
      if FSSIZE <=? b_blockno bb then panic "incorrect blockno"
      else
        let sector_per_block := BSIZE / SECTOR_SIZE in
        let sector := b_blockno bb * sector_per_block in
        let read_cmd := if sector_per_block =? 1 then IDE_CMD_READ else IDE_CMD_RDMUL in
        let write_cmd := if sector_per_block =? 1 then IDE_CMD_WRITE else IDE_CMD_WRMUL in
        if 7 <? sector_per_block then panic "idestart"
        else
          _ <~ idewait false ;;
          outb 0x3f6 0 ;;;
          outb 0x1f2 sector_per_block ;;;
          outb 0x1f3 (Z.land sector 0xff) ;;;
          outb 0x1f4 (Z.land (Z.shiftr sector 8) 0xff) ;;;
          outb 0x1f5 (Z.land (Z.shiftr sector 16) 0xff) ;;;
          outb 0x1f6 (Z.lor (Z.lor 0xe0 (Z.shiftl (Z.land (b_dev bb) 1) 4)) (Z.land (Z.shiftr sector 24) 0x0f)) ;;;
          if negb (Z.land (b_flags bb) B_DIRTY =? 0) then outb CMD_PORT write_cmd ;;; outsl b
          else outb CMD_PORT read_cmd
  end.

(** The data of a request to read. *)
Definition get_data (b : nat) (bb : buf) : M kfs unit :=
  if Z.land (b_flags bb) B_DIRTY =? 0 then
    r <~ idewait true ;;
    when (0 <=? r) (insl b)
  else ret tt.

Definition ideintr : M kfs unit :=
  kacquire IDE_LOCK ;;;
  q <~ get_ide id_queue ;;
  match q with
  | None => krelease IDE_LOCK
  | Some b =>
      upd_ide (fun i => set_queue (default None (id_qnext i !! b)) i) ;;;
      bb <~ getst (the_buf b) ;;
      get_data b bb ;;;
      modst (upd_buf b (fun bb => set_flags (Z.lor (b_flags bb) B_VALID) bb)) ;;;
      modst (upd_buf b (fun bb => set_flags (Z.land (b_flags bb) (Z.lnot B_DIRTY)) bb)) ;;;
      wakeup (buf_chan b) ;;;
      q <~ get_ide id_queue ;;
      when (bool_decide (q <> None)) (idestart q) ;;;
      krelease IDE_LOCK
  end.

Section Driver.
Context {W : Wait}.

(** The place where the link to the new request goes: the end of the chain from
    [pp], where [None] is the variable [idequeue]. *)
Definition link (pp : option nat) (i : ide) : option nat :=
  match pp with
  | None => id_queue i
  | Some p => default None (id_qnext i !! p)
  end.
Fixpoint queue_end (fuel : nat) (pp : option nat) : M kfs (option nat) :=
  match fuel with
  | O => fun _ => Spin
  | S fuel =>
      n <~ get_ide (link pp) ;;
      match n with
      | None => ret pp
      | Some p => queue_end fuel (Some p)
      end
  end.
Definition set_link (pp : option nat) (v : option nat) (i : ide) : ide :=
  match pp with
  | None => set_queue v i
  | Some p => set_qnext p v i
  end.
Definition append_request (b : nat) : M kfs unit :=
  upd_ide (set_qnext b None) ;;;
  pp <~ queue_end (S NBUF) None ;;
  upd_ide (set_link pp (Some b)).

Definition in_sync (bb : buf) : bool := Z.land (b_flags bb) (Z.lor B_VALID B_DIRTY) =? B_VALID.
Fixpoint wait_sync (fuel : nat) (b : nat) : M kfs unit :=
  bb <~ getst (the_buf b) ;;
  if in_sync bb then ret tt
  else match fuel with
       | O => fun _ => Spin
       | S fuel => sleep (buf_chan b) (Some IDE_LOCK) ;;; wait_sync fuel b
       end.

Definition iderw (b : nat) : M kfs unit :=
  h <~ holdingsleep (buf_lock b) ;;
  if negb h then panic "iderw: buf not locked"
  else
    bb <~ getst (the_buf b) ;;
    hd <~ get_ide id_havedisk1 ;;
    if in_sync bb then panic "iderw: nothing to do"
    else if negb (b_dev bb =? 0) && (hd =? 0) then panic "iderw: ide disk 1 not present"
    else
      kacquire IDE_LOCK ;;;
      append_request b ;;;
      q <~ get_ide id_queue ;;
      when (bool_decide (q = Some b)) (idestart (Some b)) ;;;
      wait_sync wait_bound b ;;;
      krelease IDE_LOCK.
End Driver.

(** ** Runs that only change the storage *)
Definition runs {A : Type} (m : M kfs A) (st : storage) (a : A) (st' : storage) : Prop :=
  forall s, m (set_k_ext st s) = Done a (set_k_ext st' s).

Lemma runs_bind {A B} (m : M kfs A) (f : A -> M kfs B) st a st1 b st2 :
  runs m st a st1 -> runs (f a) st1 b st2 -> runs (bind m f) st b st2.
Proof. intros H1 H2 s. unfold bind. rewrite H1. apply H2. Qed.

Lemma runs_getst {A B} (f : storage -> A) (g : A -> M kfs B) st b st' :
  runs (g (f st)) st b st' -> runs (bind (getst f) g) st b st'.
Proof. intros H. eapply runs_bind; [|exact H]. intros s. reflexivity. Qed.

Lemma runs_modst {B} (f : storage -> storage) (m : M kfs B) st b st' :
  runs m (f st) b st' -> runs (modst f ;;; m) st b st'.
Proof. intros H. eapply runs_bind; [|exact H]. intros s. reflexivity. Qed.

Lemma runs_modst1 (f : storage -> storage) st : runs (modst f) st tt (f st).
Proof. intros s. reflexivity. Qed.

Lemma runs_ret {A} (a : A) st : runs (ret a) st a st.
Proof. intros s. reflexivity. Qed.

Lemma runs_to {A} (m : M kfs A) st a st1 st2 : runs m st a st1 -> st1 = st2 -> runs m st a st2.
Proof. now intros H <-. Qed.

Lemma set_k_ext_id (s : kfs) : set_k_ext (k_ext s) s = s.
Proof. now destruct s. Qed.

Lemma runs_total {A} (m : M kfs A) s a st' (Q : A -> kfs -> Prop) :
  runs m (k_ext s) a st' -> Q a (set_k_ext st' s) -> total m s Q.
Proof. intros H HQ. eapply total_intro; [|exact HQ]. rewrite <- (H s). now rewrite set_k_ext_id. Qed.

Lemma total_getst {A} (f : storage -> A) (s : kfs) (Q : A -> kfs -> Prop) : Q (f (k_ext s)) s -> total (getst f) s Q.
Proof. intros H. exact H. Qed.

Lemma total_modst f (s : kfs) (Q : unit -> kfs -> Prop) : Q tt (set_k_ext (f (k_ext s)) s) -> total (modst f) s Q.
Proof. intros H. exact H. Qed.

(** ** The controller *)
Lemma idewait_runs c st r l :
  poll (id_status (st_ide st)) = Some (r, l) ->
  runs (idewait c) st (if c && negb (Z.land r (Z.lor IDE_DF IDE_ERR) =? 0) then -1 else 0) (on_ide (set_status l) st).
Proof.
  intros H. unfold idewait. apply runs_getst. rewrite H. apply runs_modst, runs_ret.
Qed.

Lemma outb_runs port v st : id_pending (st_ide st) = false -> port <> CMD_PORT ->
  runs (outb port v) st tt (on_ide (set_reg port (u8 v)) st).
Proof.
  intros H Hp. unfold outb. apply runs_getst. rewrite H. apply runs_modst.
  rewrite (proj2 (Z.eqb_neq _ _) Hp). apply runs_ret.
Qed.

Lemma command_runs v st : id_pending (st_ide st) = false ->
  runs (outb CMD_PORT v) st tt (on_ide (fun i => set_pending true (set_reg CMD_PORT (u8 v) i)) st).
Proof. intros H. unfold outb. apply runs_getst. rewrite H. apply runs_modst. intros s. reflexivity. Qed.

(** What the request of a buffer is. *)
Definition dirty (bb : buf) : bool := negb (Z.land (b_flags bb) B_DIRTY =? 0).
Definition drive_of (bb : buf) : Z := Z.land (b_dev bb) 1.

(** The registers after [idestart]. *)
Definition commanded (bb : buf) (l : list Z) (i : ide) : ide :=
  mkIde (id_queue i) (id_qnext i) (id_havedisk1 i)
    (<[CMD_PORT := if dirty bb then IDE_CMD_WRITE else IDE_CMD_READ]>
     (<[0x1f6 := u8 (Z.lor (Z.lor 0xe0 (Z.shiftl (drive_of bb) 4)) (Z.land (Z.shiftr (b_blockno bb) 24) 0x0f))]>
      (<[0x1f5 := u8 (Z.land (Z.shiftr (b_blockno bb) 16) 0xff)]>
       (<[0x1f4 := u8 (Z.land (Z.shiftr (b_blockno bb) 8) 0xff)]>
        (<[0x1f3 := u8 (Z.land (b_blockno bb) 0xff)]> (<[0x1f2 := 1]> (<[0x3f6 := 0]> (id_reg i))))))))
    l true (id_disk0 i).
Definition started (b : nat) (l : list Z) (st : storage) : storage :=
  let bb := the_buf b st in
  let st := on_ide (commanded bb l) st in
  if dirty bb then put_sector (drive (st_ide st)) (lba (st_ide st)) (b_data bb) st else st.

Lemma idestart_runs b st r l :
  b_blockno (the_buf b st) < FSSIZE -> id_pending (st_ide st) = false ->
  poll (id_status (st_ide st)) = Some (r, l) ->
  runs (idestart (Some b)) st tt (started b l st).
Proof.
  intros Hb Hp Hr. unfold idestart. apply runs_getst. rewrite (proj2 (Z.leb_gt _ _)) by exact Hb.
  change (BSIZE / SECTOR_SIZE) with 1. rewrite !Z.mul_1_r. cbv zeta. change (7 <? 1) with false. cbn match.
  eapply runs_bind; [apply idewait_runs, Hr|].
  do 6 (eapply runs_bind; [apply outb_runs; [exact Hp|done]|]).
  unfold started, commanded, dirty. destruct (Z.land (b_flags _) B_DIRTY =? 0); cbn [negb].
  - eapply runs_to; [apply command_runs, Hp|reflexivity].
  - eapply runs_bind; [apply command_runs, Hp|]. eapply runs_to; [apply runs_modst1|reflexivity].
Qed.

Lemma drive_of_bit bb : drive_of bb = 0 \/ drive_of bb = 1.
Proof. change (drive_of bb) with (Z.land (b_dev bb) (Z.ones 1)). rewrite Z.land_ones by lia. pose proof (Z.mod_pos_bound (b_dev bb) (2 ^ 1)). lia. Qed.

Lemma lor_drive bb : 0 <= b_blockno bb < FSSIZE ->
  u8 (Z.lor (Z.lor 0xe0 (Z.shiftl (drive_of bb) 4)) (Z.land (Z.shiftr (b_blockno bb) 24) 0x0f)) = 0xe0 + 16 * drive_of bb.
Proof.
  intros Hb. rewrite Z.shiftr_div_pow2, (Z.div_small (b_blockno bb)) by (unfold FSSIZE in Hb; lia).
  rewrite Z.land_0_l, Z.lor_0_r. now destruct (drive_of_bit bb) as [-> | ->].
Qed.

Lemma drive_commanded bb l i : 0 <= b_blockno bb < FSSIZE -> drive (commanded bb l i) = drive_of bb.
Proof.
  intros Hb. unfold drive, reg, commanded. cbn [id_reg]. rewrite lookup_insert_ne, lookup_insert_eq by done.
  cbn [default from_option]. rewrite lor_drive by exact Hb. now destruct (drive_of_bit bb) as [-> | ->].
Qed.

Lemma lba_commanded bb l i : 0 <= b_blockno bb < FSSIZE -> lba (commanded bb l i) = b_blockno bb.
Proof.
  intros Hb. unfold lba, reg, commanded. cbn [id_reg].
  rewrite (lookup_insert_ne _ CMD_PORT 0x1f6), lookup_insert_eq by done.
  rewrite (lookup_insert_ne _ CMD_PORT 0x1f5), (lookup_insert_ne _ 0x1f6 0x1f5), lookup_insert_eq by done.
  rewrite (lookup_insert_ne _ CMD_PORT 0x1f4), (lookup_insert_ne _ 0x1f6 0x1f4), (lookup_insert_ne _ 0x1f5 0x1f4), lookup_insert_eq by done.
  rewrite (lookup_insert_ne _ CMD_PORT 0x1f3), (lookup_insert_ne _ 0x1f6 0x1f3), (lookup_insert_ne _ 0x1f5 0x1f3), (lookup_insert_ne _ 0x1f4 0x1f3), lookup_insert_eq by done.
  cbn [default from_option]. unfold id. rewrite lor_drive by exact Hb. change 0xff with (Z.ones 8). rewrite !Z.land_ones by lia.
  rewrite !Z.shiftr_div_pow2 by lia. replace (Z.land (0xe0 + 16 * drive_of bb) 0xf) with 0 by now destruct (drive_of_bit bb) as [-> | ->].
  unfold u8. unfold FSSIZE in Hb. change (2 ^ 8) with 256. change (2 ^ 16) with 65536.
  Z.to_euclidean_division_equations. lia.
Qed.

(** ** The sectors *)
Lemma sector_put_eq d n x st : sector d n (put_sector d n x st) = x.
Proof.
  unfold sector, put_sector. destruct (d =? 0); [|unfold block]; simpl; now rewrite lookup_insert_eq.
Qed.

Lemma sector_put_ne d n d' n' x st : (d = 0 \/ d = 1) -> (d' = 0 \/ d' = 1) -> ~ (d = d' /\ n = n') ->
  sector d' n' (put_sector d n x st) = sector d' n' st.
Proof.
  intros [-> | ->] [-> | ->] Hne; unfold sector, put_sector; simpl; [|done..|unfold block; simpl]; rewrite lookup_insert_ne; [done| |done|]; intros ->; tauto.
Qed.

(** The storage apart from the driver, the buffers and the sectors. *)
Definition rest (st : storage) :=
  (st_sleep st, st_disksize st, st_log st, st_sb st, st_inodes st, st_files st, st_pipes st, st_ticks st, st_cons st, st_devs st).

Lemma the_buf_put d n x st b : the_buf b (put_sector d n x st) = the_buf b st.
Proof. unfold put_sector. now destruct (d =? 0). Qed.

(** ** The queue of requests *)
Fixpoint queued (i : ide) (p : option nat) (q : list nat) : Prop :=
  match q with
  | [] => p = None
  | b :: q => p = Some b /\ queued i (default None (id_qnext i !! b)) q
  end.

(** A buffer whose block has to be read or written. *)
Record request_ok (st : storage) (b : nat) : Prop := {
  ro_buf : (b < NBUF)%nat;
  ro_work : in_sync (the_buf b st) = false;
  ro_block : 0 <= b_blockno (the_buf b st) < FSSIZE;
}.

(** The controller works for the buffer [b]; what is to be written has been
    handed to it. *)
Record serving (b : nat) (st : storage) : Prop := {
  sv_drive : drive (st_ide st) = drive_of (the_buf b st);
  sv_lba : lba (st_ide st) = b_blockno (the_buf b st);
  sv_cmd : reg CMD_PORT (st_ide st) = if dirty (the_buf b st) then IDE_CMD_WRITE else IDE_CMD_READ;
  sv_data : dirty (the_buf b st) = true ->
    sector (drive_of (the_buf b st)) (b_blockno (the_buf b st)) st = b_data (the_buf b st);
}.

(** [busy] is whether the controller is still working. *)
Record disk_state (busy : bool) (q : list nat) (st : storage) : Prop := {
  ds_qnext : length (id_qnext (st_ide st)) = NBUF;
  ds_bufs : length (st_bufs st) = S NBUF;
  ds_queue : queued (st_ide st) (id_queue (st_ide st)) q;
  ds_nodup : NoDup q;
  ds_ok : Forall (request_ok st) q;
  ds_pending : id_pending (st_ide st) = busy;
  ds_head : forall b q', q = b :: q' -> serving b st;
}.
Definition nonempty (q : list nat) : bool := match q with [] => false | _ :: _ => true end.
Definition disk_rep (q : list nat) (st : storage) : Prop := disk_state (nonempty q) q st.
(** The controller has finished and raises its interrupt. *)
Definition controller_done : storage -> storage := on_ide (set_pending false).

Lemma queued_ext i i' p q :
  (forall b, b ∈ q -> id_qnext i' !! b = id_qnext i !! b) -> queued i p q -> queued i' p q.
Proof.
  revert p. induction q as [|b q IH]; intros p He; [done|]. simpl. intros [-> H]. split; [done|].
  rewrite He by set_solver. apply IH; [set_solver|exact H].
Qed.

Fixpoint last_link (pp : option nat) (q : list nat) : option nat :=
  match q with
  | [] => pp
  | b :: q => last_link (Some b) q
  end.

Lemma last_link_in c q : exists z, last_link (Some c) q = Some z /\ z ∈ c :: q.
Proof.
  revert c. induction q as [|b q IH]; intros c; [exists c; split; [done|set_solver]|].
  destruct (IH b) as (z & Hz & Hin). exists z. split; [exact Hz|set_solver].
Qed.

Lemma queue_end_runs fuel pp q st : queued (st_ide st) (link pp (st_ide st)) q -> (length q < fuel)%nat ->
  runs (queue_end fuel pp) st (last_link pp q) st.
Proof.
  revert pp q. induction fuel as [|fuel IH]; intros pp q Hq Hl; [lia|]. cbn [queue_end]. apply runs_getst.
  destruct q as [|b q]; simpl in Hq; [rewrite Hq; apply runs_ret|]. destruct Hq as [-> Hq].
  cbn [last_link]. apply IH; [exact Hq|]. simpl in Hl. lia.
Qed.

Lemma queued_snoc i pp q b : b ∉ q -> NoDup q -> pp <> Some b -> (forall p, pp = Some p -> (p ∉ q) /\ (p < length (id_qnext i))%nat) ->
  Forall (fun c => (c < length (id_qnext i))%nat) q -> default None (id_qnext i !! b) = None ->
  queued i (link pp i) q ->
  let i' := set_link (last_link pp q) (Some b) i in queued i' (link pp i') (q ++ [b]).
Proof.
  intros Hb. revert pp. induction q as [|c q IH]; intros pp Hnd Hpp Hpq Hlt Hn Hq; cbn [app].
  - cbv zeta. destruct pp as [p|]; simpl.
    + rewrite list_lookup_insert_eq by now apply Hpq. split; [done|].
      rewrite list_lookup_insert_ne by congruence. exact Hn.
    + split; [done|exact Hn].
  - inversion_clear Hlt as [|? ? Hc Hlt']. inversion_clear Hnd as [|? ? Hcq Hnd'].
    destruct Hq as [Hl Hq]. cbv zeta. cbn [last_link]. split.
    + destruct (last_link_in c q) as (z & -> & Hz). destruct pp as [p|]; simpl in *; [|exact Hl].
      rewrite list_lookup_insert_ne; [exact Hl|]. intros ->. now destruct (Hpq p eq_refl).
    + apply IH with (pp := Some c); [set_solver|done| | |done|done|exact Hq].
      * intros [= ->]. set_solver.
      * intros p [= <-]. now split.
Qed.

(** ** Starting a request *)
Lemma started_eq b l st : 0 <= b_blockno (the_buf b st) < FSSIZE ->
  started b l st = let bb := the_buf b st in
    if dirty bb then put_sector (drive_of bb) (b_blockno bb) (b_data bb) (on_ide (commanded bb l) st)
    else on_ide (commanded bb l) st.
Proof.
  intros Hb. unfold started. cbv zeta. cbn [st_ide on_ide set_ide].
  now rewrite drive_commanded, lba_commanded by exact Hb.
Qed.

Lemma sector_on_ide d n f st : (forall i, id_disk0 (f i) = id_disk0 i) -> sector d n (on_ide f st) = sector d n st.
Proof. intros Hf. unfold sector, on_ide. simpl. now rewrite Hf. Qed.

Section Started.
Context (b : nat) (l : list Z) (st : storage) (Hb : 0 <= b_blockno (the_buf b st) < FSSIZE).
Let bb := the_buf b st.

Lemma started_the_buf c : the_buf c (started b l st) = the_buf c st.
Proof. rewrite started_eq by exact Hb. cbv zeta. destruct (dirty _); [|done]. now rewrite the_buf_put. Qed.

Lemma started_bufs : st_bufs (started b l st) = st_bufs st.
Proof. rewrite started_eq by exact Hb. cbv zeta. unfold put_sector. destruct (dirty _); [|done]. now destruct (_ =? 0). Qed.

Lemma started_rest : rest (started b l st) = rest st.
Proof. rewrite started_eq by exact Hb. cbv zeta. unfold put_sector. destruct (dirty _); [|done]. now destruct (_ =? 0). Qed.

Lemma started_ide : exists d0, st_ide (started b l st) =
  mkIde (id_queue (st_ide st)) (id_qnext (st_ide st)) (id_havedisk1 (st_ide st)) (id_reg (commanded bb l (st_ide st))) l true d0.
Proof. rewrite started_eq by exact Hb. cbv zeta. unfold put_sector. destruct (dirty _); [|eexists; reflexivity]. destruct (_ =? 0); eexists; reflexivity. Qed.

Lemma started_sector d n : (d = 0 \/ d = 1) ->
  sector d n (started b l st) = if dirty bb && bool_decide (d = drive_of bb /\ n = b_blockno bb) then b_data bb else sector d n st.
Proof.
  intros Hd. rewrite started_eq by exact Hb. cbv zeta. fold bb. destruct (dirty bb); [|now rewrite sector_on_ide].
  simpl. case_bool_decide as H.
  - destruct H as [-> ->]. apply sector_put_eq.
  - rewrite sector_put_ne; [now rewrite sector_on_ide|apply drive_of_bit|done|]. intros [<- <-]. now apply H.
Qed.

Lemma started_serving : serving b (started b l st).
Proof.
  destruct started_ide as (d0 & Hi). constructor; rewrite ?started_the_buf, ?Hi.
  - rewrite <- (drive_commanded _ l (st_ide st) Hb). reflexivity.
  - rewrite <- (lba_commanded _ l (st_ide st) Hb). reflexivity.
  - unfold reg. cbn [id_reg commanded]. now rewrite lookup_insert_eq.
  - intros Hd. fold bb in Hd |- *. rewrite started_sector by apply drive_of_bit. rewrite Hd. now rewrite bool_decide_eq_true_2.
Qed.
End Started.

(** Starting the first request of a queue for which the controller is idle. *)
Lemma start_head b q l st :
  length (id_qnext (st_ide st)) = NBUF -> length (st_bufs st) = S NBUF -> queued (st_ide st) (id_queue (st_ide st)) (b :: q) ->
  NoDup (b :: q) -> Forall (request_ok st) (b :: q) -> disk_rep (b :: q) (started b l st).
Proof.
  intros Hn Hl Hq Hnd Hok. pose proof (ro_block _ _ (Forall_inv Hok)) as Hb. destruct (started_ide b l st Hb) as (d0 & Hi).
  constructor; rewrite ?Hi, ?started_bufs by exact Hb; try done.
  - eapply queued_ext; [|exact Hq]. done.
  - eapply Forall_impl; [exact Hok|]. intros c [H1 H2 H3]. constructor; [done|now rewrite started_the_buf..].
  - intros c q' [= <- <-]. now apply started_serving.
Qed.

(** ** The interrupt *)
(** How often the controller will be found ready, and the answer it gives
    next. *)
Definition is_ready (r : Z) : bool := Z.land r (Z.lor IDE_BSY IDE_DRDY) =? IDE_DRDY.
Fixpoint nready (l : list Z) : nat :=
  match l with
  | [] => 0
  | r :: l => if is_ready r then S (nready l) else nready l
  end.
Definition failed (r : Z) : bool := negb (Z.land r (Z.lor IDE_DF IDE_ERR) =? 0).
Definition next_answer (st : storage) : Z := match poll (id_status (st_ide st)) with Some (r, _) => r | None => 0 end.

Lemma poll_next l : (0 < nready l)%nat ->
  exists r l1 l', poll l = Some (r, l') /\ l = l1 ++ r :: l' /\ nready l = S (nready l').
Proof.
  induction l as [|r l IH]; cbn [nready poll]; [lia|]. unfold is_ready. destruct (Z.land r _ =? IDE_DRDY).
  - intros _. now exists r, [], l.
  - intros H. destruct (IH H) as (r' & l1 & l' & H1 & -> & H3). now exists r', (r :: l1), l'.
Qed.

(** The buffer of a finished request: in step with the disk, and with the data
    of the sector if that was asked for and the controller reported no error. *)
Definition done_buf (b : nat) (st : storage) : buf :=
  let bb := the_buf b st in
  mkBuf (Z.land (Z.lor (b_flags bb) B_VALID) (Z.lnot B_DIRTY)) (b_dev bb) (b_blockno bb) (b_refcnt bb) (b_prev bb) (b_next bb)
    (if dirty bb || failed (next_answer st) then b_data bb else sector (drive_of bb) (b_blockno bb) st).
(** The sectors when the request of a buffer has been carried out. *)
Definition write_req (bb : buf) (D : Z -> Z -> list Z) (d n : Z) : list Z :=
  if dirty bb && bool_decide (d = drive_of bb /\ n = b_blockno bb) then b_data bb else D d n.
Definition sectors (st : storage) (d n : Z) : list Z := sector d n st.

Record stepped (b : nat) (q : list nat) (st st' : storage) : Prop := {
  sp_rep : disk_rep q st';
  sp_buf : the_buf b st' = done_buf b st;
  sp_others : forall c, c <> b -> the_buf c st' = the_buf c st;
  sp_sector : forall d n, d = 0 \/ d = 1 ->
    sector d n st' = match q with [] => sector d n st | c :: _ => write_req (the_buf c st) (sectors st) d n end;
  sp_rest : rest st' = rest st;
  sp_disk1 : id_havedisk1 (st_ide st') = id_havedisk1 (st_ide st);
  sp_status : exists l, id_status (st_ide st) = l ++ id_status (st_ide st') /\ (nready (id_status (st_ide st)) <= S (S (nready (id_status (st_ide st')))))%nat;
}.

Lemma in_sync_done b st : in_sync (done_buf b st) = true.
Proof.
  unfold in_sync, done_buf. cbn [b_flags]. apply Z.eqb_eq. generalize (b_flags (the_buf b st)). intros f.
  apply Z.bits_inj'. intros k Hk. rewrite !Z.land_spec, Z.lor_spec, Z.lnot_spec by exact Hk.
  destruct (Z.eq_dec k 1) as [->|H1]; [simpl; now rewrite orb_true_r|]. destruct (Z.eq_dec k 2) as [->|H2]; [simpl; now rewrite andb_false_r|].
  assert (Z.testbit (Z.lor B_VALID B_DIRTY) k = false /\ Z.testbit B_VALID k = false) as [-> ->]; [|now rewrite andb_false_r].
  destruct (Z.eq_dec k 0) as [->|H0]; [done|]. split; apply Z.bits_above_log2; try done; simpl; lia.
Qed.

(** What [get_data] does to the buffer and the storage. *)
Record fetched (b : nat) (st st' : storage) : Prop := {
  ft_len : length (st_bufs st') = length (st_bufs st);
  ft_buf : the_buf b st' = set_data (if dirty (the_buf b st) || failed (next_answer st) then b_data (the_buf b st)
                                     else sector (drive_of (the_buf b st)) (b_blockno (the_buf b st)) st) (the_buf b st);
  ft_others : forall c, c <> b -> the_buf c st' = the_buf c st;
  ft_sector : forall d n, sector d n st' = sector d n st;
  ft_rest : rest st' = rest st;
  ft_ide : exists l l', id_status (st_ide st) = l ++ l' /\ (nready (id_status (st_ide st)) <= S (nready l'))%nat /\
    st_ide st' = set_status l' (st_ide st);
}.

Lemma set_status_id i : set_status (id_status i) i = i.
Proof. now destruct i. Qed.

Lemma set_data_id bb : set_data (b_data bb) bb = bb.
Proof. now destruct bb. Qed.

Lemma get_data_runs b st : (b < length (st_bufs st))%nat -> serving b st -> (0 < nready (id_status (st_ide st)))%nat ->
  exists st', runs (get_data b (the_buf b st)) st tt st' /\ fetched b st st'.
Proof.
  intros Hlt Hsv Hn. unfold get_data. destruct (Z.land (b_flags _) B_DIRTY =? 0) eqn:Hd.
  2:{ exists st. split; [apply runs_ret|]. constructor; try done.
      - unfold dirty. rewrite Hd. simpl. now rewrite set_data_id.
      - exists [], (id_status (st_ide st)). rewrite set_status_id. split; [done|]. split; [lia|done]. }
  destruct (poll_next _ Hn) as (r & l1 & l & Hr & Hl & Hc). pose proof (idewait_runs true _ _ _ Hr) as Hw.
  assert (next_answer st = r) as Ha by (unfold next_answer; now rewrite Hr).
  assert (dirty (the_buf b st) = false) as Hdf by (unfold dirty; now rewrite Hd). cbn [andb] in Hw. fold (failed r) in Hw.
  assert (exists l0 l', id_status (st_ide st) = l0 ++ l' /\ (nready (id_status (st_ide st)) <= S (nready l'))%nat /\ set_status l (st_ide st) = set_status l' (st_ide st)) as Hi
    by (exists (l1 ++ [r]), l; rewrite <- app_assoc; simpl; split; [exact Hl|]; split; [lia|done]).
  destruct (failed r) eqn:Hf.
  - exists (on_ide (set_status l) st). split; [eapply runs_bind; [exact Hw|apply runs_ret]|].
    constructor; try done. rewrite Ha, Hf, orb_true_r, set_data_id. done.
  - eexists. split; [eapply runs_bind; [exact Hw|apply runs_modst1]|]. simpl.
    change (drive _) with (drive (st_ide st)). change (lba _) with (lba (st_ide st)).
    rewrite (sv_drive _ _ Hsv), (sv_lba _ _ Hsv), sector_on_ide by done.
    constructor; try done.
    + simpl. apply length_alter.
    + rewrite the_buf_upd by done. rewrite Ha, Hf, Hdf. done.
    + intros c Hc'. now rewrite the_buf_upd_ne.
Qed.

(** What [ideintr] does before it wakes the threads that wait. *)
Definition finish_head (b : nat) (st : storage) : storage :=
  upd_buf b (fun bb => set_flags (Z.land (b_flags bb) (Z.lnot B_DIRTY)) bb)
    (upd_buf b (fun bb => set_flags (Z.lor (b_flags bb) B_VALID) bb) st).

Lemma fetched_finish b st st1 : (b < length (st_bufs st))%nat -> fetched b st st1 ->
  the_buf b (finish_head b st1) = done_buf b st /\ (forall c, c <> b -> the_buf c (finish_head b st1) = the_buf c st).
Proof.
  intros Hb Hf. unfold finish_head. split.
  - rewrite !the_buf_upd by (simpl; rewrite ?length_alter, (ft_len _ _ _ Hf); exact Hb). rewrite (ft_buf _ _ _ Hf). reflexivity.
  - intros c Hc. rewrite !the_buf_upd_ne by done. now apply (ft_others _ _ _ Hf).
Qed.

(** The rest of the queue when the first request has been taken off it. *)
Lemma queue_tail b q st st1 :
  disk_state false (b :: q) st -> fetched b (on_ide (set_queue (default None (id_qnext (st_ide st) !! b))) st) st1 ->
  let st2 := finish_head b st1 in
  length (id_qnext (st_ide st2)) = NBUF /\ length (st_bufs st2) = S NBUF /\ queued (st_ide st2) (id_queue (st_ide st2)) q /\
  NoDup q /\ Forall (request_ok st2) q /\ id_pending (st_ide st2) = false.
Proof.
  intros D F st2. destruct (ds_queue _ _ _ D) as [_ Hq]. pose proof (ds_nodup _ _ _ D) as [Hbq Hnd]%NoDup_cons.
  assert (b < S NBUF)%nat as Hb by (pose proof (ro_buf _ _ (Forall_inv (ds_ok _ _ _ D))); lia).
  rewrite <- (ds_bufs _ _ _ D) in Hb. destruct (fetched_finish b (on_ide _ st) st1 Hb F) as [_ Ho].
  destruct (ft_ide _ _ _ F) as (l & l' & _ & _ & Hi).
  assert (st_ide st2 = set_status l' (set_queue (default None (id_qnext (st_ide st) !! b)) (st_ide st))) as E2 by exact Hi.
  rewrite E2. split; [exact (ds_qnext _ _ _ D)|]. split.
  { unfold st2, finish_head. simpl. rewrite !length_alter, (ft_len _ _ _ F). exact (ds_bufs _ _ _ D). }
  split; [eapply queued_ext; [|exact Hq]; done|]. split; [exact Hnd|]. split; [|exact (ds_pending _ _ _ D)].
  apply Forall_forall. intros c Hc. destruct (proj1 (Forall_forall _ _) (Forall_inv_tail (ds_ok _ _ _ D)) c Hc) as [H1 H2 H3].
  assert (the_buf c st2 = the_buf c st) as E by (apply Ho; set_solver).
  now constructor; rewrite ?E.
Qed.

Lemma ideintr_total x s b q (Q : unit -> kfs -> Prop) :
  mst x ∅ (k_mach s) -> disk_state false (b :: q) (k_ext s) -> (2 <= nready (id_status (st_ide (k_ext s))))%nat ->
  (forall m' st', mst x ∅ m' -> stepped b q (k_ext s) st' ->
     Q tt (with_mach m' (set_k_procs (wake_proc (buf_chan b) <$> k_procs s) (set_k_ext st' s)))) ->
  total ideintr s Q.
Proof.
  intros Hm D Hn HQ. set (st := k_ext s) in *. unfold ideintr. krun kacquire_total; [kset|kset|]. intros m1 H1.
  destruct (ds_queue _ _ _ D) as [Hq0 _]. assert (b < length (st_bufs st))%nat as Hb by (rewrite (ds_bufs _ _ _ D); pose proof (ro_buf _ _ (Forall_inv (ds_ok _ _ _ D))); lia).
  apply total_bind, total_getst. change (k_ext (with_mach m1 s)) with st. rewrite Hq0.
  set (st0 := on_ide (set_queue (default None (id_qnext (st_ide st) !! b))) st).
  apply total_bind, total_modst. apply total_bind, total_getst.
  destruct (get_data_runs b st0) as (st1 & R1 & F); [exact Hb| |change (0 < nready (id_status (st_ide st)))%nat; lia|].
  { destruct (ds_head _ _ _ D b q eq_refl) as [V1 V2 V3 V4]. constructor; assumption. }
  apply total_bind. eapply runs_total; [exact R1|].
  set (st2 := finish_head b st1).
  apply total_bind, total_modst. apply total_bind, total_modst.
  krun wakeup_total; [set_solver|kset|]. intros m2 H2.
  destruct (queue_tail b q st st1 D F) as (T1 & T2 & T3 & T4 & T5 & T6). fold st2 in T1, T2, T3, T4, T5, T6.
  destruct (fetched_finish b st0 st1 Hb F) as [B1 B2]. fold st2 in B1, B2.
  destruct (ft_ide _ _ _ F) as (l & l' & Hl & Hnl & Hi). change (id_status (st_ide st0)) with (id_status (st_ide st)) in Hl, Hnl.
  assert (st_ide st2 = set_status l' (st_ide st0)) as Hi2 by exact Hi.
  match goal with |- total _ ?S _ => change S with (with_mach m2 (set_k_procs (wake_proc (buf_chan b) <$> k_procs s) (set_k_ext st2 s))) end.
  apply total_bind, total_getst. match goal with |- context [id_queue (st_ide ?X)] => change X with st2 end.
  assert (rest st2 = rest st) as Hrest by exact (ft_rest _ _ _ F).
  assert (forall d n, sector d n st2 = sector d n st) as Hsec by (intros d n; exact (ft_sector _ _ _ F d n)).
  destruct q as [|c q].
  - rewrite T3. apply total_bind, total_ret. eapply krelease_total; [exact H2|set_solver|]. intros m3 H3. apply (HQ m3 st2); [now replace ∅ with (({[IDE_LOCK]} ∪ ∅) ∖ {[IDE_LOCK]} : gset nat) by set_solver|].
    constructor; [now constructor|exact B1|exact B2|intros; apply Hsec|exact Hrest|now rewrite Hi2|].
    exists l. rewrite Hi2. split; [exact Hl|]. cbn [id_status set_status]. lia.
  - destruct T3 as [T3 T3']. rewrite T3. pose proof (ro_block _ _ (Forall_inv T5)) as Hc.
    destruct (poll_next l') as (r & l1 & l2 & Hr & Hl2 & Hn2); [lia|].
    apply total_bind. apply total_when; [intros _|discriminate].
    eapply runs_total; [eapply idestart_runs; [apply Hc|exact T6|change (k_ext _) with st2; rewrite Hi2; exact Hr]|].
    change (k_ext _) with st2. eapply krelease_total; [exact H2|set_solver|]. intros m3 H3.
    apply (HQ m3 (started c l2 st2)); [now replace ∅ with (({[IDE_LOCK]} ∪ ∅) ∖ {[IDE_LOCK]} : gset nat) by set_solver|].
    destruct (started_ide c l2 st2 Hc) as (d0 & Hd0).
    assert (c <> b) as Hcb by (pose proof (ds_nodup _ _ _ D) as [? ?]%NoDup_cons; set_solver).
    constructor.
    + apply start_head; done.
    + rewrite started_the_buf by exact Hc. exact B1.
    + intros c' Hc'. rewrite started_the_buf by exact Hc. now apply B2.
    + intros d n Hd. rewrite started_sector by done. unfold write_req, sectors. rewrite (B2 c Hcb), Hsec. reflexivity.
    + rewrite started_rest by exact Hc. exact Hrest.
    + rewrite Hd0, Hi2. done.
    + exists (l ++ l1 ++ [r]). rewrite Hd0. cbn [id_status].
      rewrite <- !app_assoc. simpl. rewrite <- Hl2. split; [exact Hl|]. lia.
Qed.

(** ** The requests of a queue, carried out in order *)
Fixpoint after (bufs : nat -> buf) (q : list nat) (D : Z -> Z -> list Z) : Z -> Z -> list Z :=
  match q with
  | [] => D
  | b :: q => after bufs q (write_req (bufs b) D)
  end.
(** The interrupts of as many requests. *)
Fixpoint interrupts (n : nat) : M kfs unit :=
  match n with
  | O => ret tt
  | S n => modst controller_done ;;; ideintr ;;; interrupts n
  end.

(** Disks that agree on both drives. *)
Definition deq (D D' : Z -> Z -> list Z) : Prop := forall d n, d = 0 \/ d = 1 -> D d n = D' d n.
#[global] Instance deq_equivalence : Equivalence deq.
Proof.
  split; [intros D d n _; reflexivity|intros D D' H d n Hd; symmetry; now apply H|].
  intros D1 D2 D3 H1 H2 d n Hd. etransitivity; [now apply H1|now apply H2].
Qed.
#[global] Instance write_req_proper bb : Proper (deq ==> deq) (write_req bb).
Proof. intros D D' H d n Hd. unfold write_req. destruct (_ && _); [done|now apply H]. Qed.
#[global] Instance after_proper bufs q : Proper (deq ==> deq) (after bufs q).
Proof. induction q as [|b q IH]; intros D D' H; simpl; [exact H|]. apply IH. now apply write_req_proper. Qed.

Lemma write_req_idem bb D : deq (write_req bb (write_req bb D)) (write_req bb D).
Proof. intros d n Hd. unfold write_req. now destruct (_ && _). Qed.

Lemma write_req_done b st : serving b st -> deq (write_req (the_buf b st) (sectors st)) (sectors st).
Proof.
  intros Hv d n Hd. unfold write_req, sectors. destruct (dirty _) eqn:E; [|done]. simpl.
  case_bool_decide as H; [|done]. destruct H as [-> ->]. symmetry. now apply (sv_data _ _ Hv).
Qed.

Lemma after_bufs bufs bufs' q D : (forall b, b ∈ q -> bufs b = bufs' b) -> after bufs q D = after bufs' q D.
Proof.
  revert D. induction q as [|b q IH]; intros D H; [done|]. simpl. rewrite (H b) by set_solver. apply IH. set_solver.
Qed.

Lemma write_step b e q st st' : stepped b (e :: q) st st' ->
  deq (write_req (the_buf e st) (sectors st')) (write_req (the_buf e st) (sectors st)).
Proof.
  intros S. rewrite <- (write_req_idem _ (sectors st)). apply write_req_proper.
  intros d n Hd. exact (sp_sector _ _ _ _ S d n Hd).
Qed.

(** The sectors after a step, as far as the rest of the queue sees them. *)
Lemma after_step b q st st' : stepped b q st st' -> NoDup (b :: q) ->
  deq (after (fun c => the_buf c st') q (sectors st')) (after (fun c => the_buf c st) q (sectors st)).
Proof.
  intros S [Hb _]%NoDup_cons. rewrite (after_bufs _ (fun c => the_buf c st)) by (intros c Hc; apply (sp_others _ _ _ _ S); set_solver).
  destruct q as [|c q]; [intros d n Hd; exact (sp_sector _ _ _ _ S d n Hd)|]. simpl.
  apply after_proper. now apply (write_step b _ q).
Qed.

Lemma after_take_step b q st st' k c d n : stepped b q st st' -> NoDup (b :: q) -> d = 0 \/ d = 1 ->
  q !! k = Some c -> dirty (the_buf c st) = false ->
  after (fun c => the_buf c st') (take k q) (sectors st') d n = after (fun c => the_buf c st) (take k q) (sectors st) d n.
Proof.
  intros S [Hb _]%NoDup_cons Hd Hk Hc.
  rewrite (after_bufs _ (fun c => the_buf c st)) by (intros e He; apply (sp_others _ _ _ _ S); apply elem_of_take in He as (? & ? & _); apply list_elem_of_lookup_2 in H; set_solver).
  destruct q as [|e q]; [done|]. destruct k as [|k]; simpl.
  - injection Hk as ->. unfold sectors. rewrite (sp_sector _ _ _ _ S d n Hd). unfold write_req. now rewrite Hc.
  - apply after_proper; [|exact Hd]. now apply (write_step b _ q).
Qed.

(** What the requests of the queue [q] have led to. *)
Record queue_done (q : list nat) (st st' : storage) : Prop := {
  qd_rep : disk_rep [] st';
  qd_sector : deq (sectors st') (after (fun b => the_buf b st) q (sectors st));
  qd_sync : forall b, b ∈ q -> in_sync (the_buf b st') = true;
  qd_data : forall k b, q !! k = Some b -> b_data (the_buf b st') =
    let bb := the_buf b st in
    if dirty bb then b_data bb else after (fun b => the_buf b st) (take k q) (sectors st) (drive_of bb) (b_blockno bb);
  qd_others : forall b, b ∉ q -> the_buf b st' = the_buf b st;
  qd_rest : rest st' = rest st;
}.

Lemma queue_done_cons b q st st1 st2 : serving b st -> NoDup (b :: q) -> stepped b q st st1 -> failed (next_answer st) = false ->
  queue_done q st1 st2 -> queue_done (b :: q) st st2.
Proof.
  intros V Hnd S Hf QD. pose proof (proj1 (NoDup_cons _ _) Hnd) as [Hb _].
  assert (the_buf b st2 = done_buf b st) as Eb by (rewrite (qd_others _ _ _ QD b Hb); apply (sp_buf _ _ _ _ S)).
  constructor.
  - exact (qd_rep _ _ _ QD).
  - simpl. rewrite (write_req_done b st V). etransitivity; [apply (qd_sector _ _ _ QD)|]. now apply (after_step b).
  - intros c [->|Hc]%elem_of_cons; [rewrite Eb; apply in_sync_done|now apply (qd_sync _ _ _ QD)].
  - intros [|k] c Hk; simpl in Hk.
    + injection Hk as ->. rewrite Eb. unfold done_buf. simpl. rewrite Hf, orb_false_r. now destruct (dirty _).
    + rewrite (qd_data _ _ _ QD k c Hk). apply list_elem_of_lookup_2 in Hk as Hin.
      rewrite (sp_others _ _ _ _ S c) by set_solver. cbv zeta. destruct (dirty (the_buf c st)) eqn:Hd; [done|].
      rewrite (after_take_step b q st st1 k c) by (try done; apply drive_of_bit).
      simpl. symmetry. apply after_proper; [now apply write_req_done|apply drive_of_bit].
  - intros c Hc. rewrite (qd_others _ _ _ QD) by set_solver. apply (sp_others _ _ _ _ S). set_solver.
  - rewrite (qd_rest _ _ _ QD). apply (sp_rest _ _ _ _ S).
Qed.

Lemma done_state b q st : disk_rep (b :: q) st -> disk_state false (b :: q) (controller_done st).
Proof.
  intros [H1 H2 H3 H4 H5 H6 H7]. constructor; try done.
  - eapply queued_ext; [|exact H3]. done.
  - eapply Forall_impl; [exact H5|]. intros c [? ? ?]. now constructor.
  - intros c q' E. destruct (H7 c q' E). now constructor.
Qed.

Lemma queue_done_pending q st st' : queue_done q (controller_done st) st' -> queue_done q st st'.
Proof. intros [H1 H2 H3 H4 H5 H6]. now constructor. Qed.

Lemma next_answer_ok st : (0 < nready (id_status (st_ide st)))%nat ->
  Forall (fun r => failed r = false) (id_status (st_ide st)) -> failed (next_answer st) = false.
Proof.
  intros Hn Hok. destruct (poll_next _ Hn) as (r & l1 & l & Hr & Hl & _). unfold next_answer. rewrite Hr.
  rewrite Hl in Hok. apply Forall_app in Hok as [_ Hok]. now inversion Hok.
Qed.

Lemma interrupts_total x q s :
  mst x ∅ (k_mach s) -> disk_rep q (k_ext s) -> (2 * length q <= nready (id_status (st_ide (k_ext s))))%nat ->
  Forall (fun r => failed r = false) (id_status (st_ide (k_ext s))) ->
  total (interrupts (length q)) s (fun _ s' => mst x ∅ (k_mach s') /\ queue_done q (k_ext s) (k_ext s') /\
    k_procs s' = foldl (fun ps b => wake_proc (buf_chan b) <$> ps) (k_procs s) q).
Proof.
  revert s. induction q as [|b q IH]; intros s Hm R Hn Hok; cbn [interrupts length].
  - apply total_ret. split; [exact Hm|]. split; [|done]. constructor; try done; set_solver.
  - simpl length in Hn. apply total_bind, total_modst. apply total_bind. pose proof (done_state _ _ _ R) as D.
    eapply (ideintr_total x _ b q); [exact Hm|exact D|simpl; lia|]. intros m' st' Hm' S. cbn [k_ext set_k_ext] in S.
    destruct (sp_status _ _ _ _ S) as (l & El & Hl). cbn [k_procs].
    eapply total_mono; [|apply IH]; cbn beta.
    + intros [] s2 (H1 & H2 & H3). split; [exact H1|]. split; [|exact H3]. apply queue_done_pending.
      eapply queue_done_cons; [exact (ds_head _ _ _ D b q eq_refl)|exact (ds_nodup _ _ _ D)|exact S| |exact H2].
      apply next_answer_ok; [simpl; lia|exact Hok].
    + exact Hm'.
    + exact (sp_rep _ _ _ _ S).
    + change (k_ext _) with st'. change (id_status (st_ide (controller_done (k_ext s)))) with (id_status (st_ide (k_ext s))) in Hl. lia.
    + change (k_ext _) with st'. change (id_status (st_ide (controller_done (k_ext s)))) with (id_status (st_ide (k_ext s))) in El.
      rewrite El in Hok. now apply Forall_app in Hok.
Qed.

(** ** A request *)
Section Request.
Context {W : Wait}.

Lemma append_runs q b st : disk_rep q st -> b ∉ q -> (b < NBUF)%nat ->
  exists i, runs (append_request b) st tt (set_ide i st) /\ queued i (id_queue i) (q ++ [b]) /\ length (id_qnext i) = NBUF /\
    id_havedisk1 i = id_havedisk1 (st_ide st) /\ id_reg i = id_reg (st_ide st) /\ id_status i = id_status (st_ide st) /\
    id_pending i = id_pending (st_ide st) /\ id_disk0 i = id_disk0 (st_ide st).
Proof.
  intros R Hb Hlt. set (i0 := set_qnext b None (st_ide st)). exists (set_link (last_link None q) (Some b) i0).
  assert (length (id_qnext i0) = NBUF) as Hl by (simpl; rewrite length_insert; apply (ds_qnext _ _ _ R)).
  assert (queued i0 (id_queue i0) q) as Hq.
  { eapply queued_ext; [|exact (ds_queue _ _ _ R)]. intros c Hc. simpl. rewrite list_lookup_insert_ne; [done|set_solver]. }
  assert (length q <= NBUF)%nat as Hlen.
  { rewrite <- (length_seq NBUF 0). apply submseteq_length, NoDup_submseteq; [exact (ds_nodup _ _ _ R)|]. intros c Hc.
    apply elem_of_seq. pose proof (proj1 (Forall_forall _ _) (ds_ok _ _ _ R) c Hc) as [? _ _]. lia. }
  split.
  - unfold append_request. apply runs_modst. eapply runs_bind; [eapply (queue_end_runs _ _ q); [exact Hq|lia]|]. eapply runs_to; [apply runs_modst1|reflexivity].
  - split; [apply (queued_snoc i0 None q b)|].
    + exact Hb.
    + exact (ds_nodup _ _ _ R).
    + done.
    + done.
    + eapply Forall_impl; [exact (ds_ok _ _ _ R)|]. intros c [? _ _]. now rewrite Hl.
    + simpl. rewrite list_lookup_insert_eq; [done|]. rewrite (ds_qnext _ _ _ R). exact Hlt.
    + exact Hq.
    + destruct q as [|c q]; [done|]. simpl. destruct (last_link_in c q) as (z & -> & _). simpl. now rewrite !length_insert, (ds_qnext _ _ _ R).
Qed.

(** The request of [b] has been added to the queue [q]. *)
Record submitted (q : list nat) (b : nat) (st st' : storage) : Prop := {
  sb_rep : disk_rep (q ++ [b]) st';
  sb_bufs : st_bufs st' = st_bufs st;
  sb_sector : deq (sectors st') (if nonempty q then sectors st else write_req (the_buf b st) (sectors st));
  sb_rest : rest st' = rest st;
  sb_status : exists l, id_status (st_ide st) = l ++ id_status (st_ide st') /\ (nready (id_status (st_ide st)) <= S (nready (id_status (st_ide st'))))%nat;
}.

Lemma submit_runs q b st : disk_rep q st -> b ∉ q -> request_ok st b -> (0 < nready (id_status (st_ide st)))%nat ->
  exists st1 st2, runs (append_request b) st tt st1 /\
    runs (when (bool_decide (id_queue (st_ide st1) = Some b)) (idestart (Some b))) st1 tt st2 /\ submitted q b st st2.
Proof.
  intros R Hb Hok Hn. pose proof (ro_block _ _ Hok) as Hbl.
  destruct (append_runs q b st R Hb (ro_buf _ _ Hok)) as (i & Ra & Hq & Hl & E1 & E2 & E3 & E4 & E5).
  exists (set_ide i st). cbn [st_ide set_ide].
  assert (Forall (request_ok (set_ide i st)) (q ++ [b])) as Hoks.
  { apply Forall_app. split; [|constructor; [|done]]; [eapply Forall_impl; [exact (ds_ok _ _ _ R)|]; intros c [? ? ?]; now constructor|].
    destruct Hok as [? ? ?]. now constructor. }
  assert (NoDup (q ++ [b])) as Hnd by (apply NoDup_app; split; [exact (ds_nodup _ _ _ R)|]; split; [set_solver|apply NoDup_singleton]).
  destruct q as [|c q].
  - destruct Hq as [Hq Hq']. destruct (poll_next _ Hn) as (r & l1 & l & Hr & Hls & Hc). exists (started b l (set_ide i st)).
    split; [exact Ra|]. split; [rewrite bool_decide_eq_true_2 by exact Hq; eapply (idestart_runs _ _ r l)|].
    + apply Hbl.
    + simpl. rewrite E4. exact (ds_pending _ _ _ R).
    + simpl. now rewrite E3.
    + destruct (started_ide b l (set_ide i st) Hbl) as (d0 & Hd0). constructor.
      * apply start_head; try done. exact (ds_bufs _ _ _ R).
      * now rewrite started_bufs.
      * intros d n Hd. unfold sectors at 1. rewrite started_sector by done. unfold write_req, sectors.
        replace (sector d n (set_ide i st)) with (sector d n st) by (unfold sector; simpl; now rewrite E5). reflexivity.
      * now rewrite started_rest.
      * exists (l1 ++ [r]). rewrite Hd0. simpl. rewrite <- app_assoc. split; [exact Hls|lia].
  - exists (set_ide i st). split; [exact Ra|]. destruct Hq as [Hq Hq']. split.
    { rewrite bool_decide_eq_false_2; [apply runs_ret|]. rewrite Hq. intros [= ->]. set_solver. }
    constructor; try done.
    + constructor; try done; [exact (ds_bufs _ _ _ R)|simpl; rewrite E4; exact (ds_pending _ _ _ R)|].
      intros e q' [= <- <-]. destruct (ds_head _ _ _ R c q eq_refl) as [V1 V2 V3 V4]. unfold drive, lba, reg in V1, V2, V3.
      constructor; simpl; unfold drive, lba, reg; rewrite ?E2; try done.
      intros Hd. specialize (V4 Hd). unfold sector in *. simpl. now rewrite E5.
    + intros d n Hd. unfold sectors, sector. simpl. now rewrite E5.
    + exists []. simpl. rewrite E3. split; [done|lia].
Qed.

(** The caller of [iderw], a thread that holds the lock of the buffer. *)
Record caller (x : exe) (p i b : nat) (s : kfs) : Prop := {
  ca_mst : mst x ∅ (k_mach s);
  ca_proc : x_proc x = Some p;
  ca_thread : x_thread x = Some (p, i);
  ca_here : exists q th, k_procs s !! p = Some q /\ p_threads q !! i = Some th;
  ca_lock : sl_locked (the_sleep (buf_lock b) (k_ext s)) <> 0;
  ca_pid : sl_pid (the_sleep (buf_lock b) (k_ext s)) = p_pid (the_proc p s);
}.

Lemma holdingsleep_total x p i b s (Q : bool -> kfs -> Prop) : caller x p i b s ->
  (forall m', mst x ∅ m' -> Q true (with_mach m' s)) -> total (holdingsleep (buf_lock b)) s Q.
Proof.
  intros C HQ. pose proof (ca_mst _ _ _ _ _ C) as Hm. unfold holdingsleep, mypid. krun kacquire_total; [set_solver|kset|]. intros m1 H1.
  apply total_bind, total_getst. change (k_ext (with_mach m1 s)) with (k_ext s).
  rewrite (proj2 (Z.eqb_neq _ _) (ca_lock _ _ _ _ _ C)). apply total_bind. apply total_bind. apply total_bind.
  eapply myproc_total; [exact H1|kset|]. intros m2 H2. rewrite (ca_proc _ _ _ _ _ C).
  apply total_bind. eapply total_deref; [reflexivity|]. apply total_gets. apply total_ret.
  change (the_proc p (with_mach m2 (with_mach m1 s))) with (the_proc p s). rewrite (ca_pid _ _ _ _ _ C), Z.eqb_refl.
  apply total_bind. eapply krelease_total; [exact H2|set_solver|]. intros m3 H3. apply total_ret. apply (HQ m3).
  now replace ∅ with (({[sleep_spin (buf_lock b)]} ∪ ∅) ∖ {[sleep_spin (buf_lock b)]} : gset nat) by set_solver.
Qed.

(** The wait: the thread sleeps until its buffer is in step with the disk. *)
Lemma wait_sync_done fuel b s (Q : unit -> kfs -> Prop) : in_sync (the_buf b (k_ext s)) = true -> Q tt s -> total (wait_sync fuel b) s Q.
Proof. intros H HQ. destruct fuel; cbn [wait_sync]; apply total_bind, total_getst; rewrite H; now apply total_ret. Qed.

Definition asleep_for (p i b : nat) (st : storage) (m : mach) (s : kfs) : kfs :=
  with_mach m (upd_proc p (fall_asleep p i (buf_chan b)) (set_k_ext st s)).

Lemma iderw_yields n x p i b q s :
  wait_bound = S n -> caller x p i b s -> disk_rep q (k_ext s) -> b ∉ q -> request_ok (k_ext s) b ->
  (b_dev (the_buf b (k_ext s)) <> 0 -> id_havedisk1 (st_ide (k_ext s)) <> 0) -> (0 < nready (id_status (st_ide (k_ext s))))%nat ->
  yields (iderw b) s (fun s' k =>
    (exists m' st', s' = asleep_for p i b st' m' s /\ mst x {[PTABLE_LOCK]} m' /\ submitted q b (k_ext s) st') /\
    forall x2 s2, mst x2 {[PTABLE_LOCK]} (k_mach s2) -> in_sync (the_buf b (k_ext s2)) = true ->
      total k s2 (fun _ s3 => exists m3, s3 = with_mach m3 (upd_thread (p, i) (set_chan CNull) s2) /\ mst (resume_exe x2 (x_ie x)) ∅ m3)).
Proof.
  intros Hw C R Hb Hok Hdev Hn. destruct (ca_here _ _ _ _ _ C) as (pr & th & Hp & Hth). unfold iderw.
  apply yields_bind_total. eapply holdingsleep_total; [exact C|]. intros m1 H1. cbn [negb].
  apply yields_bind_total, total_getst. apply yields_bind_total, total_getst. change (k_ext (with_mach m1 s)) with (k_ext s).
  rewrite (ro_work _ _ Hok).
  assert (negb (b_dev (the_buf b (k_ext s)) =? 0) && (id_havedisk1 (st_ide (k_ext s)) =? 0) = false) as ->
    by (destruct (Z.eqb_spec (b_dev (the_buf b (k_ext s))) 0) as [|E]; [done|]; apply Hdev in E; now apply Z.eqb_neq in E as ->).
  apply yields_bind_total. eapply kacquire_total; [exact H1|set_solver|kset|]. intros m2 H2.
  destruct (submit_runs q b (k_ext s) R Hb Hok Hn) as (st1 & st2 & R1 & R2 & S).
  apply yields_bind_total. eapply runs_total; [exact R1|]. apply yields_bind_total, total_getst. cbn [k_ext set_k_ext].
  apply yields_bind_total. eapply runs_total; [exact R2|].
  rewrite Hw. apply yields_bind. cbn [wait_sync]. apply yields_bind_total, total_getst. cbn [k_ext set_k_ext].
  replace (the_buf b st2) with (the_buf b (k_ext s)) by (unfold the_buf; now rewrite (sb_bufs _ _ _ _ S)). rewrite (ro_work _ _ Hok).
  apply yields_bind. rewrite union_empty_r_L in H2.
  eapply yields_mono; [|eapply (sleep_yields x _ p i (buf_chan b) IDE_LOCK pr th); [exact H2|apply C|apply C|exact Hp|exact Hth]].
  intros s' k ((m' & -> & Hm') & Hk). split.
  - exists m', st2. split; [reflexivity|]. split; [exact Hm'|exact S].
  - intros x2 s2 Hs2 Hsync. apply (total_bind (fun s => prog_bind (k s) _)). apply (total_bind k). eapply total_mono; [|apply (Hk x2 s2 Hs2)].
    intros _ ? (m3 & -> & H3). apply wait_sync_done; [exact Hsync|].
    eapply krelease_total; [exact H3|set_solver|]. intros m4 H4. exists m4. split; [reflexivity|].
    now replace ∅ with ({[IDE_LOCK]} ∖ {[IDE_LOCK]} : gset nat) by set_solver.
Qed.

(** ** The driver and the memory disk *)
(** The buffers, the blocks of disk 1 and the rest of the storage agree. *)
Definition same_storage (st st' : storage) : Prop :=
  (forall c, the_buf c st = the_buf c st') /\ (forall n, block n st = block n st') /\ rest st = rest st'.

Lemma done_flags f : Z.lor (Z.land f (Z.lnot B_DIRTY)) B_VALID = Z.land (Z.lor f B_VALID) (Z.lnot B_DIRTY).
Proof. rewrite Z.land_lor_distr_l. f_equal. Qed.

Lemma clear_dirty f : Z.land f B_DIRTY = 0 -> Z.land f (Z.lnot B_DIRTY) = f.
Proof. intros H. rewrite <- Z.ldiff_land. rewrite <- (Z.lor_ldiff_and f B_DIRTY) at 2. now rewrite H, Z.lor_0_r. Qed.

(** What [iderw] of memide.c does. *)
Definition synced (b : nat) (st : storage) : storage :=
  let bb := the_buf b st in
  upd_buf b (fun bb => set_flags (Z.lor (b_flags bb) B_VALID) bb)
    (if dirty bb then disk_write (b_blockno bb) (b_data bb) (upd_buf b (set_flags (Z.land (b_flags bb) (Z.lnot B_DIRTY))) st)
     else upd_buf b (set_data (block (b_blockno bb) st)) st).

Lemma memory_disk_total x p i b s (Q : unit -> kfs -> Prop) :
  caller x p i b s -> request_ok (k_ext s) b -> b_dev (the_buf b (k_ext s)) = 1 -> st_disksize (k_ext s) = FSSIZE ->
  (forall m', mst x ∅ m' -> Q tt (with_mach m' (set_k_ext (synced b (k_ext s)) s))) -> total (Bio.iderw b) s Q.
Proof.
  intros C Hok Hdev Hsz HQ. unfold Bio.iderw. apply total_bind. eapply holdingsleep_total; [exact C|]. intros m1 H1. cbn [negb].
  apply total_bind, total_getst. apply total_bind, total_getst. change (k_ext (with_mach m1 s)) with (k_ext s). fold (in_sync (the_buf b (k_ext s))).
  rewrite (ro_work _ _ Hok), Hdev, Hsz. pose proof (ro_block _ _ Hok) as Hb. rewrite (proj2 (Z.leb_gt _ _)) by lia. simpl negb.
  unfold synced, dirty in HQ. destruct (Z.land _ B_DIRTY =? 0); cbn [negb] in HQ |- *; apply total_bind.
  - apply total_modst, total_modst. exact (HQ m1 H1).
  - apply total_bind, total_modst, total_modst, total_modst. exact (HQ m1 H1).
Qed.

Lemma synced_same b st st' : (b < length (st_bufs st))%nat -> drive_of (the_buf b st) = 1 ->
  (forall c, c <> b -> the_buf c st' = the_buf c st) -> the_buf b st' = done_buf b st -> failed (next_answer st) = false ->
  (forall n, sector 1 n st' = write_req (the_buf b st) (sectors st) 1 n) -> rest st' = rest st -> same_storage st' (synced b st).
Proof.
  intros Hb Hd Ho Hbuf Hf Hs Hr. unfold synced. split; [|split].
  - intros c. destruct (decide (c = b)) as [->|Hne].
    + rewrite Hbuf. unfold done_buf. rewrite Hf, orb_false_r, Hd, <- done_flags. cbv zeta.
      destruct (dirty (the_buf b st)) eqn:E; rewrite the_buf_upd by (simpl; now rewrite length_alter).
      * change (the_buf b (disk_write _ _ ?s)) with (the_buf b s). now rewrite the_buf_upd.
      * rewrite the_buf_upd by done. unfold set_flags, set_data, sector. cbn.
        unfold dirty in E. apply negb_false_iff, Z.eqb_eq in E. now rewrite clear_dirty.
    + rewrite Ho, the_buf_upd_ne by congruence. destruct (dirty _); [|now rewrite the_buf_upd_ne by congruence].
      change (the_buf c (disk_write _ _ ?s)) with (the_buf c s). now rewrite the_buf_upd_ne by congruence.
  - intros n. specialize (Hs n). unfold sector in Hs. cbn [Z.eqb] in Hs. change (block n st' = write_req (the_buf b st) (sectors st) 1 n) in Hs. rewrite Hs.
    unfold write_req. rewrite Hd. destruct (dirty _); simpl; [|done]. case_bool_decide as E; unfold block; simpl.
    + destruct E as [_ ->]. now rewrite lookup_insert_eq.
    + rewrite lookup_insert_ne; [done|]. intros <-. now apply E.
  - rewrite Hr. now destruct (dirty _).
Qed.

Lemma served_same b st st1 st3 : (b < length (st_bufs st))%nat -> drive_of (the_buf b st) = 1 ->
  submitted [] b st st1 -> stepped b [] (controller_done st1) st3 -> (3 <= nready (id_status (st_ide st)))%nat ->
  Forall (fun r => failed r = false) (id_status (st_ide st)) -> same_storage st3 (synced b st).
Proof.
  intros Hb Hd S1 S3 Hn Hok. destruct (sb_status _ _ _ _ S1) as (l & El & Hl).
  assert (forall c, the_buf c (controller_done st1) = the_buf c st) as Eb by (intros c; unfold the_buf; simpl; now rewrite (sb_bufs _ _ _ _ S1)).
  assert (failed (next_answer (controller_done st1)) = false) as Hf1
    by (apply next_answer_ok; change (id_status (st_ide (controller_done st1))) with (id_status (st_ide st1));
        [lia|]; rewrite El in Hok; now apply Forall_app in Hok).
  assert (failed (next_answer st) = false) as Hf by (apply next_answer_ok; [lia|exact Hok]).
  assert (forall n, sector 1 n (controller_done st1) = write_req (the_buf b st) (sectors st) 1 n) as Hs
    by (intros n; apply (sb_sector _ _ _ _ S1 1 n); now right).
  apply synced_same; try done.
  - intros c Hc. rewrite (sp_others _ _ _ _ S3 c Hc). apply Eb.
  - rewrite (sp_buf _ _ _ _ S3). unfold done_buf. rewrite Eb, Hf, Hf1, Hd, Hs, !orb_false_r. cbv zeta. f_equal.
    unfold write_req. now destruct (dirty _).
  - intros m. rewrite (sp_sector _ _ _ _ S3 1 m) by now right. apply Hs.
  - rewrite (sp_rest _ _ _ _ S3). exact (sb_rest _ _ _ _ S1).
Qed.

(** C5. The driver of the real disk does what the memory disk does.  When no
    other request is queued, [iderw] of a locked buffer whose block has to be
    read or written programs the controller and gives up the processor with the
    thread asleep on the channel of the buffer; the interrupt that the
    controller raises makes the thread and its process RUNNABLE; and when the
    thread runs again [iderw] returns, with no lock held, and the buffers, the
    blocks of the disk and the rest of the storage are what [iderw] of memide.c
    would have left at once. *)
Theorem ide_implements_memory_disk n (x : exe) (p i b : nat) (s : kfs) :
  wait_bound = S n -> caller x p i b s -> disk_rep [] (k_ext s) -> request_ok (k_ext s) b ->
  b_dev (the_buf b (k_ext s)) = 1 -> id_havedisk1 (st_ide (k_ext s)) <> 0 -> st_disksize (k_ext s) = FSSIZE ->
  (3 <= nready (id_status (st_ide (k_ext s))))%nat -> Forall (fun r => failed r = false) (id_status (st_ide (k_ext s))) ->
  exists sm s1 k, Bio.iderw b s = Done tt sm /\ iderw b s = Switch s1 k /\ mst x {[PTABLE_LOCK]} (k_mach s1) /\
    forall x2 s2, mst x2 ∅ (k_mach s2) -> k_procs s2 = k_procs s1 -> k_ext s2 = controller_done (k_ext s1) ->
    exists s3 q3, ideintr s2 = Done tt s3 /\ k_procs s3 !! p = Some q3 /\ p_state q3 = RUNNABLE /\
      (exists th, p_threads q3 !! i = Some th /\ th_state th = RUNNABLE) /\
      forall x4 s4, mst x4 {[PTABLE_LOCK]} (k_mach s4) -> k_ext s4 = k_ext s3 ->
      exists s5, k s4 = Done tt s5 /\ mst (resume_exe x4 (x_ie x)) ∅ (k_mach s5) /\ same_storage (k_ext s5) (k_ext sm).
Proof.
  intros Hw C R Hok Hdev Hhd Hsz Hn Hgood. destruct (ca_here _ _ _ _ _ C) as (pr & th & Hp & Hth).
  destruct (total_done _ _ _ (memory_disk_total x p i b s (fun _ s' => k_ext s' = synced b (k_ext s)) C Hok Hdev Hsz (fun _ _ => eq_refl)))
    as ([] & sm & Rm & Em).
  destruct (yields_switch _ _ _ (iderw_yields n x p i b [] s Hw C R (not_elem_of_nil _) Hok (fun _ => Hhd) ltac:(lia)))
    as (s1 & k & R1 & (m1 & st1 & -> & Hm1 & S1) & Hk).
  exists sm, (asleep_for p i b st1 m1 s), k. split; [exact Rm|]. split; [exact R1|]. split; [exact Hm1|].
  intros x2 s2 Hm2 Hp2 He2. change (k_ext (asleep_for p i b st1 m1 s)) with st1 in He2.
  destruct (sb_status _ _ _ _ S1) as (l & El & Hl).
  assert (D : disk_state false [b] (k_ext s2)) by (rewrite He2; apply done_state, (sb_rep _ _ _ _ S1)).
  destruct (total_done _ _ _ (ideintr_total x2 s2 b [] (fun _ s3 => stepped b [] (k_ext s2) (k_ext s3) /\ k_procs s3 = wake_proc (buf_chan b) <$> k_procs s2)
    Hm2 D ltac:(rewrite He2; change (id_status _) with (id_status (st_ide st1)); lia)
    (fun m' st' _ S => conj S eq_refl))) as ([] & s3 & R3 & S3 & P3).
  exists s3, (wake_proc (buf_chan b) (fall_asleep p i (buf_chan b) pr)). split; [exact R3|].
  assert (Hwake : p_state (wake_proc (buf_chan b) (fall_asleep p i (buf_chan b) pr)) = RUNNABLE /\
    p_threads (wake_proc (buf_chan b) (fall_asleep p i (buf_chan b) pr)) !! i = Some (set_state RUNNABLE (set_state SLEEPING (set_chan (buf_chan b) th)))).
  { apply wake_proc_asleep; [unfold fall_asleep; simpl; now destruct (others_active _ _ _)|now apply fall_asleep_thread|].
    unfold sleeping_on. simpl. now rewrite !bool_decide_eq_true_2. }
  split; [rewrite P3, Hp2; simpl; now rewrite list_lookup_fmap, list_lookup_alter_eq, Hp|]. split; [apply Hwake|].
  split; [eexists; split; [apply Hwake|done]|]. intros x4 s4 Hm4 He4.
  destruct (total_done _ _ _ (Hk x4 s4 Hm4 ltac:(rewrite He4, (sp_buf _ _ _ _ S3); apply in_sync_done))) as ([] & s5 & R5 & m5 & -> & Hm5).
  eexists. split; [exact R5|]. split; [exact Hm5|]. rewrite Em. change (k_ext (with_mach _ _)) with (k_ext s4). rewrite He4.
  rewrite He2 in S3. apply (served_same b _ st1); [rewrite (ds_bufs _ _ _ R); pose proof (ro_buf _ _ Hok); lia| |done|done| |done].
  - unfold drive_of. now rewrite Hdev.
  - lia.
Qed.
End Request.

(** C8. The requests of the queue are served in order, one interrupt each, and
    the controller is never programmed while it is busy.  When the controller
    is found ready and reports no error, as many interrupts as there are
    requests empty the queue: the sectors of both disks are those that the
    requests carried out one after the other leave, every buffer of the queue
    is in step with the disk, a buffer to be read holds what its sector
    contained when the requests before it had been carried out, no other buffer
    changes, and the threads that wait for the buffers have been woken in the
    order of the queue. *)
Theorem disk_queue_fifo (x : exe) (s : kfs) (q : list nat) :
  mst x ∅ (k_mach s) -> disk_rep q (k_ext s) -> (2 * length q <= nready (id_status (st_ide (k_ext s))))%nat ->
  Forall (fun r => failed r = false) (id_status (st_ide (k_ext s))) ->
  exists s', interrupts (length q) s = Done tt s' /\ mst x ∅ (k_mach s') /\ queue_done q (k_ext s) (k_ext s') /\
    k_procs s' = foldl (fun ps b => wake_proc (buf_chan b) <$> ps) (k_procs s) q.
Proof.
  intros Hm R Hn Hok. destruct (total_done _ _ _ (interrupts_total x q s Hm R Hn Hok)) as ([] & s' & Hr & H). eauto.
Qed.

(** A read that the controller reports as failed is not reported to the caller:
    the buffer keeps its old contents and is marked as valid. *)
Lemma read_error_hidden (x : exe) (s : kfs) (b : nat) :
  mst x ∅ (k_mach s) -> disk_rep [b] (k_ext s) -> (2 <= nready (id_status (st_ide (k_ext s))))%nat ->
  dirty (the_buf b (k_ext s)) = false -> failed (next_answer (k_ext s)) = true ->
  exists s', interrupts 1 s = Done tt s' /\ in_sync (the_buf b (k_ext s')) = true /\
    b_data (the_buf b (k_ext s')) = b_data (the_buf b (k_ext s)).
Proof.
  intros Hm R Hn Hd Hf.
  assert (T : total (interrupts 1) s (fun _ s' => stepped b [] (controller_done (k_ext s)) (k_ext s'))).
  { cbn [interrupts]. apply total_bind, total_modst, total_bind. eapply (ideintr_total x _ b []); [exact Hm|now apply done_state|exact Hn|].
    intros m' st' _ S. apply total_ret. exact S. }
  destruct (total_done _ _ _ T) as ([] & s' & Hr & S). exists s'. split; [exact Hr|]. rewrite (sp_buf _ _ _ _ S).
  split; [apply in_sync_done|]. unfold done_buf. change (next_answer (controller_done (k_ext s))) with (next_answer (k_ext s)).
  now rewrite Hf, orb_true_r.
Qed.

(** ** A disk with two requests for the same block *)
Definition nines : list Z := replicate (Z.to_nat BSIZE) 9.
Definition demo_bufs : list buf :=
  <[3%nat := mkBuf B_DIRTY 1 7 1 0 0 nines]> (<[5%nat := mkBuf 0 1 7 1 0 0 (replicate (Z.to_nat BSIZE) 0)]> (replicate (S NBUF) buf0)).
Definition demo_ide (q : option nat) (next : list (option nat)) : storage :=
  mkStorage {[buf_lock 3 := mkSleep 1 1]} demo_bufs ∅ FSSIZE [] log0 (mkSb 0 0 0 0 0 0 0) [] [] ∅ 0 console0
    (mkIde q next 1 ∅ [0x80; 0x50; 0x40; 0x80; 0x50; 0x50; 0x50] false ∅) devs0.
Definition demo_ide_kfs (st : storage) : kfs :=
  let s := demo demo_exe ∅ RUNNING RUNNING in
  mkK (k_base s) (k_procs s) (k_mutex s) (k_initproc s) (k_nextpid s) (k_first s) st.
Definition idle_disk : storage := demo_ide None (replicate NBUF None).
Definition busy_disk : storage :=
  started 3 [0x40; 0x80; 0x50; 0x50; 0x50] (demo_ide (Some 3%nat) (<[3%nat := Some 5%nat]> (replicate NBUF None))).

Lemma demo_ide_mst st : mst demo_exe ∅ (k_mach (demo_ide_kfs st)).
Proof. exact (demo_mst demo_exe ∅ RUNNING RUNNING eq_refl ltac:(kset)). Qed.

Lemma demo_request q next b : b = 3%nat \/ b = 5%nat -> request_ok (demo_ide q next) b.
Proof. intros [-> | ->]; constructor; try done; unfold NBUF; lia. Qed.

Lemma busy_disk_rep : disk_rep [3%nat; 5%nat] busy_disk.
Proof.
  apply start_head; try done.
  - repeat constructor; set_solver.
  - repeat constructor; try apply demo_request; try (unfold NBUF; lia); auto; vm_compute; try done; split; discriminate || done.
Qed.

Lemma disk_queue_fifo_witness : exists s', interrupts 2 (demo_ide_kfs busy_disk) = Done tt s' /\
  disk_rep [] (k_ext s') /\ b_data (the_buf 5 (k_ext s')) = nines /\ block 7 (k_ext s') = nines.
Proof.
  destruct (disk_queue_fifo demo_exe (demo_ide_kfs busy_disk) [3%nat; 5%nat]) as (s' & Hr & _ & QD & _).
  - apply demo_ide_mst.
  - exact busy_disk_rep.
  - vm_compute. lia.
  - vm_compute. repeat constructor.
  - exists s'. split; [exact Hr|]. split; [exact (qd_rep _ _ _ QD)|]. split.
    + rewrite (qd_data _ _ _ QD 1%nat 5%nat eq_refl). vm_compute. reflexivity.
    + change (block 7 (k_ext s')) with (sectors (k_ext s') 1 7). rewrite (qd_sector _ _ _ QD 1 7 (or_intror eq_refl)). vm_compute. reflexivity.
Defined.

Lemma ide_implements_memory_disk_witness : exists sm s1 k, Bio.iderw 3 (demo_ide_kfs idle_disk) = Done tt sm /\
  @iderw 1%nat 3 (demo_ide_kfs idle_disk) = Switch s1 k /\ mst demo_exe {[PTABLE_LOCK]} (k_mach s1).
Proof.
  destruct (@ide_implements_memory_disk 1%nat 0 demo_exe 0 0 3 (demo_ide_kfs idle_disk)) as (sm & s1 & k & H1 & H2 & H3 & _).
  - reflexivity.
  - constructor; try done. + apply demo_ide_mst. + eexists _, _. split; reflexivity.
  - constructor; try done. constructor.
  - apply demo_request. auto.
  - reflexivity.
  - done.
  - reflexivity.
  - vm_compute. lia.
  - vm_compute. repeat constructor.
  - exists sm, s1, k. split; [exact H1|]. split; [exact H2|exact H3].
Defined.
