(* ===== verification/Mp.v ===== *)
(** * The description of a multiprocessor (mp.c, mp.h)

    mp.c looks in the memory of the BIOS for the floating pointer structure and
    the configuration table it points to, and fills the table of processors.
    The memory is that of the kernel, byte by byte; the searches only read it.
    The table [cpus] holds the processors found, so that [ncpu] is its length;
    [ts_addr i] is the address of [cpus[i].ts], which the linker chooses.

    The specification of a table is a list of entries ([table_at]). *)
From S2P Require Import Prelude Mmu Str Spinlock Kalloc Vm Proc Exec Sched Store Apic Bio Ide.

Definition NCPU : Z := 8.
Definition MPPROC : Z := 0x00.
Definition MPBUS : Z := 0x01.
Definition MPIOAPIC : Z := 0x02.
Definition MPIOINTR : Z := 0x03.
Definition MPLINTR : Z := 0x04.

(** The sizes of [struct mp], [mpconf], [mpproc], [mpioapic], and their fields
    that are used. *)
Definition MP_SIZE : Z := 16.
Definition MPCONF_SIZE : Z := 44.
Definition MPPROC_SIZE : Z := 20.
Definition MPIOAPIC_SIZE : Z := 8.
Definition ushort_at (m : mem) (a : Z) : Z := m a + 256 * m (a + 1).
Definition uint_at (m : mem) (a : Z) : Z := m a + 256 * m (a + 1) + 65536 * m (a + 2) + 16777216 * m (a + 3).
Definition mp_physaddr (m : mem) (a : Z) : Z := uint_at m (a + 4).
Definition mp_imcrp (m : mem) (a : Z) : Z := m (a + 12).
Definition conf_length (m : mem) (a : Z) : Z := ushort_at m (a + 4).
Definition conf_version (m : mem) (a : Z) : Z := m (a + 6).
Definition conf_lapicaddr (m : mem) (a : Z) : Z := uint_at m (a + 36).
Definition proc_apicid (m : mem) (a : Z) : Z := m (a + 1).
Definition ioapic_apicno (m : mem) (a : Z) : Z := m (a + 1).

(** [memcmp(p, s, 4) == 0] for a string literal. *)
Definition has_sig (m : mem) (p : Z) (s : list Z) : bool :=
  forallb (fun k => m (p + Z.of_nat k) =? default 0 (s !! k)) (seq 0 (length s)).
Definition SIG_MP : list Z := [95; 77; 80; 95].
Definition SIG_PCMP : list Z := [80; 67; 77; 80].

Fixpoint sum_loop (m : mem) (addr : Z) (len : nat) (sum : Z) : Z :=
  match len with
  | O => sum
  | S len => sum_loop m (addr + 1) len (s32 (sum + m addr))
  end.
Definition sum (m : mem) (addr len : Z) : Z := u8 (sum_loop m addr (Z.to_nat len) 0).

(** The loop over the addresses from [p] below [e]; [fuel] bounds its rounds. *)
Fixpoint mpsearch1_loop (fuel : nat) (m : mem) (p e : Z) : option Z :=
  match fuel with
  | O => None
  | S fuel =>
      if p <? e then
        if has_sig m p SIG_MP && (sum m p MP_SIZE =? 0) then Some p
        else mpsearch1_loop fuel m (p + MP_SIZE) e
      else None
  end.
Definition mpsearch1 (m : mem) (a len : Z) : option Z :=
  let addr := P2V a in
  mpsearch1_loop (S (Z.to_nat len)) m addr (addr + len).

Definition mpsearch (m : mem) : option Z :=
  let bda := P2V 0x400 in
  let p := Z.shiftl (Z.lor (Z.shiftl (m (bda + 0x0F)) 8) (m (bda + 0x0E))) 4 in
  let first :=
    if negb (p =? 0) then mpsearch1 m p 1024
    else
      let p := Z.lor (Z.shiftl (m (bda + 0x14)) 8) (m (bda + 0x13)) * 1024 in
      mpsearch1 m (u32 (p - 1024)) 1024 in
  match first with
  | Some mp => Some mp
  | None => mpsearch1 m 0xF0000 0x10000
  end.

(** The two pointers, [*pmp] and the result. *)
Definition mpconfig (m : mem) : option (Z * Z) :=
  match mpsearch m with
  | None => None
  | Some mp =>
      if mp_physaddr m mp =? 0 then None
      else
        let conf := P2V (mp_physaddr m mp) in
        if negb (has_sig m conf SIG_PCMP) then None
        else if negb (conf_version m conf =? 1) && negb (conf_version m conf =? 4) then None
        else if negb (sum m conf (conf_length m conf) =? 0) then None
        else Some (mp, conf)
  end.

Definition kernel_mem (s : kfs) : mem := byte_at (km_mem (ks_kmem (k_base s))).

Section Mp.
Context (ts_addr : nat -> Z).

Definition new_cpu (i : nat) (apicid : Z) : cpu :=
  mkCpu apicid false 0 false None None 0 0 0 0 (mkSeg (ts_addr i) (replicate NSEGS segdesc0) false false 0) 0.
Definition add_cpu (apicid : Z) : M kfs unit :=
  on_cpus (modify (fun m =>
    if Z.of_nat (length (m_cpus m)) <? NCPU
    then mkMach (m_cpus m ++ [new_cpu (length (m_cpus m)) apicid]) (m_cur m) (m_locks m)
    else m)).

(** The loop over the entries of the table; its result is [ismp].  The [break]
    of the default case only leaves the [switch], so the loop goes on with the
    same entry. *)
Fixpoint entries_loop (fuel : nat) (m : mem) (p e : Z) (ismp : bool) : M kfs bool :=
  match fuel with
  | O => fun _ => Spin
  | S fuel =>
      if p <? e then
        if m p =? MPPROC then
          add_cpu (proc_apicid m p) ;;;
          entries_loop fuel m (p + MPPROC_SIZE) e ismp
        else if m p =? MPIOAPIC then
          upd_dev (fun d => set_found (dv_lapic d) (ioapic_apicno m p) d) ;;;
          entries_loop fuel m (p + MPIOAPIC_SIZE) e ismp
        else if (m p =? MPBUS) || (m p =? MPIOINTR) || (m p =? MPLINTR) then
          entries_loop fuel m (p + 8) e ismp
        else entries_loop fuel m p e false
      else ret ismp
  end.

Definition mpinit : M kfs unit :=
  m <~ gets kernel_mem ;;
  match mpconfig m with
  | None => panic "Expect to run on an SMP"
  | Some (mp, conf) =>
      upd_dev (fun d => set_found (conf_lapicaddr m conf) (dv_ioapicid d) d) ;;;
      ismp <~ entries_loop (S (Z.to_nat (conf_length m conf))) m (conf + MPCONF_SIZE) (conf + conf_length m conf) true ;;
      if negb ismp then panic "Didn't find a suitable machine"
      else
        when (negb (mp_imcrp m mp =? 0)) (
          Apic.outb 0x22 0x70 ;;;
          v <~ get_dev dv_imcr ;;
          Apic.outb 0x23 (Z.lor v 1))
  end.
End Mp.

(** ** The search *)
Fixpoint sum_list (l : list Z) : Z := match l with [] => 0 | a :: l => a + sum_list l end.
Definition bytes_at (m : mem) (a : Z) (n : nat) : list Z := (fun k => m (a + Z.of_nat k)) <$> seq 0 n.

Lemma bytes_at_S m a n : bytes_at m a (S n) = m a :: bytes_at m (a + 1) n.
Proof.
  unfold bytes_at. cbn [seq]. rewrite fmap_cons, Z.add_0_r. f_equal. rewrite <- fmap_S_seq, <- list_fmap_compose.
  apply list_fmap_ext. intros i k _. cbn. f_equal. lia.
Qed.

(** The checksum is the sum of the bytes, modulo 256. *)
Lemma sum_eq m a n : sum m a n = sum_list (bytes_at m a (Z.to_nat n)) mod 256.
Proof.
  unfold sum. generalize (Z.to_nat n). clear n. intros n.
  assert (forall v, u8 (sum_loop m a n v) = u8 (v + sum_list (bytes_at m a n))) as H; [|rewrite H; reflexivity].
  revert a. induction n as [|n IH]; intros a v; [cbn; now rewrite Z.add_0_r|].
  cbn [sum_loop]. rewrite IH, bytes_at_S. cbn [sum_list]. rewrite Z.add_assoc. generalize (v + m a), (sum_list (bytes_at m (a + 1) n)).
  intros x y. unfold u8, s32. change (2 ^ 32) with 4294967296. change (2 ^ 31) with 2147483648.
  Z.to_euclidean_division_equations. lia.
Qed.

(** A floating pointer structure, by its signature and its checksum. *)
Definition mp_valid (m : mem) (p : Z) : bool := has_sig m p SIG_MP && (sum m p MP_SIZE =? 0).

Lemma mpsearch1_loop_spec fuel m p e : (Z.to_nat (e - p) < fuel)%nat ->
  match mpsearch1_loop fuel m p e with
  | Some r => exists k, 0 <= k /\ r = p + MP_SIZE * k /\ r < e /\ mp_valid m r = true /\
                forall j, 0 <= j < k -> mp_valid m (p + MP_SIZE * j) = false
  | None => forall j, 0 <= j -> p + MP_SIZE * j < e -> mp_valid m (p + MP_SIZE * j) = false
  end.
Proof.
  unfold MP_SIZE. revert p. induction fuel as [|fuel IH]; intros p Hf; [lia|]. cbn [mpsearch1_loop].
  destruct (Z.ltb_spec p e) as [Hp|Hp]; [|intros; lia]. fold (mp_valid m p). destruct (mp_valid m p) eqn:Hv.
  - exists 0. rewrite Z.mul_0_r, Z.add_0_r. repeat split; try done; lia.
  - specialize (IH (p + 16) ltac:(lia)). unfold MP_SIZE in *. destruct (mpsearch1_loop _ _ _ _) as [r|].
    + destruct IH as (k & H1 & H2 & H3 & H4 & H5). exists (k + 1). split; [lia|]. split; [lia|]. split; [done|]. split; [done|].
      intros j Hj. destruct (Z.eq_dec j 0) as [->|]; [now rewrite Z.mul_0_r, Z.add_0_r|].
      replace (p + 16 * j) with (p + 16 + 16 * (j - 1)) by lia. apply H5. lia.
    + intros j H0 H1. destruct (Z.eq_dec j 0) as [->|]; [now rewrite Z.mul_0_r, Z.add_0_r|].
      replace (p + 16 * j) with (p + 16 + 16 * (j - 1)) by lia. apply IH; lia.
Qed.

Lemma mpsearch1_spec m a len : 0 <= len ->
  match mpsearch1 m a len with
  | Some r => exists k, 0 <= k /\ r = P2V a + MP_SIZE * k /\ r < P2V a + len /\ mp_valid m r = true /\
                forall j, 0 <= j < k -> mp_valid m (P2V a + MP_SIZE * j) = false
  | None => forall j, 0 <= j -> P2V a + MP_SIZE * j < P2V a + len -> mp_valid m (P2V a + MP_SIZE * j) = false
  end.
Proof. intros H. apply mpsearch1_loop_spec. replace (P2V a + len - P2V a) with len by lia. lia. Qed.

(** What [mpconfig] returns is valid: both signatures and both checksums. *)
Lemma mpconfig_valid m mp conf : mpconfig m = Some (mp, conf) ->
  mp_valid m mp = true /\ mp_physaddr m mp <> 0 /\ conf = P2V (mp_physaddr m mp) /\ has_sig m conf SIG_PCMP = true /\
  (conf_version m conf = 1 \/ conf_version m conf = 4) /\
  sum_list (bytes_at m conf (Z.to_nat (conf_length m conf))) mod 256 = 0.
Proof.
  unfold mpconfig. destruct (mpsearch m) as [r|] eqn:Es; [|done].
  assert (mp_valid m r = true) as Hv.
  { assert (forall a len, 0 <= len -> mpsearch1 m a len = Some r -> mp_valid m r = true) as H1
      by (intros a len Hl E; pose proof (mpsearch1_spec m a len Hl) as H; rewrite E in H; destruct H as (k & _ & _ & _ & H & _); exact H).
    unfold mpsearch in Es. cbv zeta in Es.
    destruct (if negb _ then _ else _) as [r'|] eqn:E1; [injection Es as ->|now apply H1 in Es].
    destruct (negb _); now apply H1 in E1. }
  destruct (Z.eqb_spec (mp_physaddr m r) 0) as [|Hp]; [done|]. cbv zeta.
  destruct (has_sig m (P2V (mp_physaddr m r)) SIG_PCMP) eqn:Hs; [|done]. cbn [negb].
  destruct (_ && _) eqn:Ev; [done|]. rewrite sum_eq. destruct (_ =? 0) eqn:Hc; [apply Z.eqb_eq in Hc|done]. cbn [negb].
  intros [= <- <-]. repeat split; try done. apply andb_false_iff in Ev as [Ev|Ev]; apply negb_false_iff, Z.eqb_eq in Ev; auto.
Qed.

(** ** The entries of the table *)
Inductive entry := Eproc (apicid : Z) | Eioapic (apicno : Z) | Eother (type : Z).
Definition entry_size (x : entry) : Z := match x with Eproc _ => MPPROC_SIZE | _ => 8 end.
Definition entry_at (m : mem) (p : Z) (x : entry) : Prop :=
  match x with
  | Eproc a => m p = MPPROC /\ m (p + 1) = a
  | Eioapic a => m p = MPIOAPIC /\ m (p + 1) = a
  | Eother t => m p = t /\ (t = MPBUS \/ t = MPIOINTR \/ t = MPLINTR)
  end.
Fixpoint table_at (m : mem) (p : Z) (l : list entry) (e : Z) : Prop :=
  match l with
  | [] => p = e
  | x :: l => entry_at m p x /\ p < e /\ table_at m (p + entry_size x) l e
  end.
Definition known (t : Z) : bool := (t =? MPPROC) || (t =? MPIOAPIC) || (t =? MPBUS) || (t =? MPIOINTR) || (t =? MPLINTR).

(** The processors and the I/O APIC that the entries name. *)
Fixpoint procs_of (l : list entry) : list Z :=
  match l with
  | [] => []
  | Eproc a :: l => a :: procs_of l
  | _ :: l => procs_of l
  end.
Fixpoint ioapic_of (l : list entry) (old : Z) : Z :=
  match l with
  | [] => old
  | Eioapic a :: l => ioapic_of l a
  | _ :: l => ioapic_of l old
  end.

Section Found.
Context (ts_addr : nat -> Z).

Fixpoint cpus_of (n : nat) (ids : list Z) : list cpu :=
  match ids with
  | [] => []
  | a :: ids => if Z.of_nat n <? NCPU then new_cpu ts_addr n a :: cpus_of (S n) ids else cpus_of n ids
  end.

Lemma cpus_of_apicids n ids : c_apicid <$> cpus_of n ids = take (8 - n) ids.
Proof.
  revert n. induction ids as [|a ids IH]; intros n; [now rewrite take_nil|]. cbn [cpus_of].
  destruct (Z.ltb_spec (Z.of_nat n) NCPU) as [H|H]; unfold NCPU in H.
  - replace (8 - n)%nat with (S (8 - S n)) by lia. rewrite fmap_cons, IH. done.
  - rewrite IH. now replace (8 - n)%nat with 0%nat by lia.
Qed.

(** The kernel state when the entries [l] have been read. *)
Definition found (l : list entry) (s : kfs) : kfs :=
  let m := k_mach s in
  let d := st_devs (k_ext s) in
  with_mach (mkMach (m_cpus m ++ cpus_of (length (m_cpus m)) (procs_of l)) (m_cur m) (m_locks m))
    (set_k_ext (set_dev (set_found (dv_lapic d) (ioapic_of l (dv_ioapicid d)) d) (k_ext s)) s).

Lemma found_nil s : found [] s = s.
Proof.
  unfold found. cbn [procs_of cpus_of ioapic_of]. rewrite app_nil_r.
  destruct s as [[[cs cur lks] km] ps mx ip np fi st]. destruct st. destruct st_devs. reflexivity.
Qed.

Lemma add_cpu_found a l s : exists s1, add_cpu ts_addr a s = Done tt s1 /\ found l s1 = found (Eproc a :: l) s.
Proof.
  eexists. split; [reflexivity|]. unfold found. cbn [procs_of cpus_of ioapic_of]. unfold k_mach. cbn.
  destruct (Z.of_nat (length (m_cpus (ks_mach (k_base s)))) <? NCPU) eqn:E; cbn; [|reflexivity].
  rewrite length_app. cbn [length]. rewrite Nat.add_1_r, <- app_assoc. reflexivity.
Qed.

Lemma entries_run l : forall fuel m p e b s, table_at m p l e -> (length l < fuel)%nat ->
  entries_loop ts_addr fuel m p e b s = Done b (found l s).
Proof.
  induction l as [|x l IH]; intros [|fuel] m p e b s Ht Hf; cbn [length] in Hf; try lia; cbn [entries_loop].
  - cbn in Ht. subst p. rewrite Z.ltb_irrefl, found_nil. reflexivity.
  - destruct Ht as (Hx & Hp & Ht). rewrite (proj2 (Z.ltb_lt _ _) Hp). destruct x as [a|a|t]; cbn [entry_at entry_size] in *.
    + destruct Hx as [Hx Ha]. rewrite Hx. cbn [Z.eqb MPPROC]. unfold proc_apicid. rewrite Ha.
      destruct (add_cpu_found a l s) as (s1 & R1 & <-). unfold bind at 1. rewrite R1. apply IH; [done|lia].
    + destruct Hx as [Hx Ha]. rewrite Hx. change (MPIOAPIC =? MPPROC) with false. change (MPIOAPIC =? MPIOAPIC) with true. cbn match. unfold ioapic_apicno. rewrite Ha.
      unfold upd_dev, modst. rewrite bind_modify. rewrite IH by (done || lia). reflexivity.
    + destruct Hx as [Hx [-> | [-> | ->]]]; rewrite Hx; cbn; (rewrite IH by (done || lia)); reflexivity.
Qed.

(** An entry of another type: the loop never ends, however long it runs. *)
Lemma entries_stuck l : forall fuel m p e e' b s, table_at m p l e' -> e' < e -> known (m e') = false ->
  entries_loop ts_addr fuel m p e b s = Spin.
Proof.
  intros fuel. revert l. induction fuel as [|fuel IH]; intros l m p e e' b s Ht He Hk; [done|]. cbn [entries_loop].
  destruct l as [|x l]; cbn [table_at] in Ht.
  - subst p. rewrite (proj2 (Z.ltb_lt _ _) He). unfold known in Hk. apply orb_false_iff in Hk as [Hk H4].
    apply orb_false_iff in Hk as [Hk H3]. apply orb_false_iff in Hk as [Hk H2]. apply orb_false_iff in Hk as [H0 H1].
    rewrite H0, H1, H2, H3, H4. apply (IH []) with (e' := e'); [done|done|]. unfold known. now rewrite H0, H1, H2, H3, H4.
  - destruct Ht as (Hx & Hp & Ht). rewrite (proj2 (Z.ltb_lt p e)) by lia. destruct x as [a|a|t]; cbn [entry_at entry_size] in *.
    + destruct Hx as [Hx Ha]. rewrite Hx. cbn [Z.eqb MPPROC].
      destruct (add_cpu_found (proc_apicid m p) l s) as (s1 & R1 & _). unfold bind at 1. rewrite R1. eapply IH; eauto.
    + destruct Hx as [Hx Ha]. rewrite Hx. change (MPIOAPIC =? MPPROC) with false. change (MPIOAPIC =? MPIOAPIC) with true. cbn match. unfold upd_dev, modst. rewrite bind_modify. eapply IH; eauto.
    + destruct Hx as [Hx [-> | [-> | ->]]]; rewrite Hx; cbn; eapply IH; eauto.
Qed.

Lemma table_size m p l e : table_at m p l e -> p + 8 * Z.of_nat (length l) <= e.
Proof.
  revert p. induction l as [|x l IH]; intros p H; cbn [table_at length] in *; [lia|]. destruct H as (_ & _ & H). apply IH in H.
  assert (8 <= entry_size x) by now destruct x. lia.
Qed.

Definition imcr_writes (m : mem) (mp old : Z) : list (Z * Z) :=
  if mp_imcrp m mp =? 0 then [] else [(0x22, 0x70); (0x23, u8 (Z.lor old 1))].

(** C38. [mpinit] reads the description of the machine.  Without a valid
    configuration table it panics.  The structures it uses have their signatures
    and checksums right.  When the table is a sequence of known entries, it
    returns with the table of processors holding the APIC ids of the first eight
    processor entries in order, the id of the last I/O APIC entry, the address
    of the local APIC, and the interrupt mode switched if the structure asks for
    it.  When an entry of an unknown type follows known ones, it never returns:
    the message for an unsuitable machine is not reached. *)
Theorem mpinit_reads_table (s : kfs) (l : list entry) :
  m_cpus (k_mach s) = [] ->
  let m := kernel_mem s in
  match mpconfig m with
  | None => mpinit ts_addr s = Crash "Expect to run on an SMP"
  | Some (mp, conf) =>
      mp_valid m mp = true /\ conf = P2V (mp_physaddr m mp) /\ has_sig m conf SIG_PCMP = true /\
      sum_list (bytes_at m conf (Z.to_nat (conf_length m conf))) mod 256 = 0 /\
      (table_at m (conf + MPCONF_SIZE) l (conf + conf_length m conf) ->
       exists s', mpinit ts_addr s = Done tt s' /\ c_apicid <$> m_cpus (k_mach s') = take 8 (procs_of l) /\
         let d := st_devs (k_ext s) in let d' := st_devs (k_ext s') in
         dv_lapic d' = conf_lapicaddr m conf /\ dv_ioapicid d' = ioapic_of l (dv_ioapicid d) /\
         dv_ports d' = dv_ports d ++ imcr_writes m mp (dv_imcr d)) /\
      (forall e, table_at m (conf + MPCONF_SIZE) l e -> e < conf + conf_length m conf -> known (m e) = false ->
       mpinit ts_addr s = Spin)
  end.
Proof.
  intros Hc m. unfold mpinit. rewrite bind_gets. fold m. destruct (mpconfig m) as [[mp conf]|] eqn:E; [|done].
  destruct (mpconfig_valid m mp conf E) as (V1 & _ & V2 & V3 & _ & V4). split; [exact V1|]. split; [exact V2|]. split; [exact V3|].
  split; [exact V4|]. unfold upd_dev, modst. rewrite bind_modify. set (s1 := upd_store _ s). split.
  - intros Ht. pose proof (table_size _ _ _ _ Ht) as Hl. unfold MPCONF_SIZE in Hl.
    unfold bind at 1. rewrite (entries_run l) by (done || lia). cbn [prog_bind negb].
    assert (c_apicid <$> m_cpus (k_mach (found l s1)) = take 8 (procs_of l)) as Ha.
    { unfold found. unfold k_mach. cbn. change (m_cpus (ks_mach (k_base s))) with (m_cpus (k_mach s)). rewrite Hc. cbn. apply (cpus_of_apicids 0). }
    unfold imcr_writes. destruct (mp_imcrp m mp =? 0); cbn [when negb].
    + eexists. split; [reflexivity|]. split; [exact Ha|]. cbn. split; [done|]. split; [done|]. now rewrite app_nil_r.
    + eexists. split; [reflexivity|]. split; [exact Ha|]. cbn. split; [done|]. split; [done|]. now rewrite <- app_assoc.
  - intros e Ht He Hk. unfold bind at 1. now rewrite (entries_stuck l _ m _ _ e).
Qed.
End Found.

(** ** A machine with two processors *)
Definition demo_entries : list entry := [Eproc 4; Eproc 0; Eother 1; Eioapic 2; Eother 3].
Definition demo_conf : list Z :=
  SIG_PCMP ++ [108; 0; 4; 118] ++ replicate 20 0 ++ replicate 8 0 ++ [0; 0; 224; 254] ++ replicate 4 0 ++
  [0; 4] ++ replicate 18 0 ++ [0; 0] ++ replicate 18 0 ++ [1] ++ replicate 7 0 ++ [2; 2] ++ replicate 6 0 ++ [3] ++ replicate 7 0.
Definition demo_mp : list Z := SIG_MP ++ [16; 0; 15; 0] ++ [1; 4; 128; 0; 1; 0; 0; 0].
Definition demo_machine : kfs :=
  mkK (mkKst (mkMach [] 0 ∅) (mkKmem false 0 (put_bytes (P2V 0xF0010) demo_conf (put_bytes (P2V 0xF0000) demo_mp ∅)) 0x80115000))
    [] [] None 1 true (mkStorage ∅ [] ∅ 0 [] log0 (mkSb 0 0 0 0 0 0 0) [] [] ∅ 0 console0 ide0 devs0).

Lemma mpinit_reads_table_witness : exists s', mpinit (fun _ => 0) demo_machine = Done tt s' /\
  c_apicid <$> m_cpus (k_mach s') = [4; 0] /\ dv_ioapicid (st_devs (k_ext s')) = 2 /\ dv_lapic (st_devs (k_ext s')) = 0xFEE00000.
Proof.
  pose proof (mpinit_reads_table (fun _ => 0) demo_machine demo_entries eq_refl) as H. cbv zeta in H.
  assert (E : mpconfig (kernel_mem demo_machine) = Some (P2V 0xF0000, P2V 0xF0010)) by (vm_compute; reflexivity).
  rewrite E in H. destruct H as (_ & _ & _ & _ & H & _). destruct H as (s' & H1 & H2 & H3 & H4 & _).
  - vm_compute. repeat split; auto.
  - exists s'. split; [exact H1|]. split; [exact H2|]. split; [exact H4|]. rewrite H3. vm_compute. reflexivity.
Defined.
