(* ===== verification/Rtc.v ===== *)
(** * The clock of the machine (cmostime of lapic.c, date.h)

    [clock n r] is the value that the clock's register [r] shows at the [n]-th
    read; the state is the register selected and the number of reads so far.
    The clock may change between two reads, so that the fields of a date read
    one after the other need not belong together; [cmostime] reads the date
    twice and accepts it when both agree. *)
From S2P Require Import Prelude.

Record rtcdate := mkDate { second : Z; minute : Z; hour : Z; day : Z; month : Z; year : Z }.
#[global] Instance rtcdate_eq_dec : EqDecision rtcdate.
Proof. solve_decision. Defined.

Definition CMOS_STATA : Z := 0x0a.
Definition CMOS_STATB : Z := 0x0b.
Definition CMOS_UIP : Z := Z.shiftl 1 7.
Definition SECS : Z := 0x00.
Definition MINS : Z := 0x02.
Definition HOURS : Z := 0x04.
Definition DAY : Z := 0x07.
Definition MONTH : Z := 0x08.
Definition YEAR : Z := 0x09.

Record rtc := mkRtc { rt_reg : Z; rt_reads : nat }.

Section Clock.
Context (clock : nat -> Z -> Z).

Definition cmos_read (reg : Z) : M rtc Z :=
  modify (fun c => mkRtc reg (rt_reads c)) ;;;
  v <~ gets (fun c => clock (rt_reads c) (rt_reg c)) ;;
  modify (fun c => mkRtc (rt_reg c) (S (rt_reads c))) ;;;
  ret v.

Definition fill_rtcdate : M rtc rtcdate :=
  s <~ cmos_read SECS ;;
  m <~ cmos_read MINS ;;
  h <~ cmos_read HOURS ;;
  d <~ cmos_read DAY ;;
  mo <~ cmos_read MONTH ;;
  y <~ cmos_read YEAR ;;
  ret (mkDate s m h d mo y).

(** The loop; [fuel] bounds the attempts. *)
Fixpoint stable_date (fuel : nat) : M rtc rtcdate :=
  match fuel with
  | O => fun _ => Spin
  | S fuel =>
      t1 <~ fill_rtcdate ;;
      a <~ cmos_read CMOS_STATA ;;
      if negb (Z.land a CMOS_UIP =? 0) then stable_date fuel
      else
        t2 <~ fill_rtcdate ;;
        if bool_decide (t1 = t2) then ret t1 else stable_date fuel
  end.

Definition CONV (x : Z) : Z := Z.shiftr x 4 * 10 + Z.land x 0xf.
Definition conv_date (t : rtcdate) : rtcdate :=
  mkDate (CONV (second t)) (CONV (minute t)) (CONV (hour t)) (CONV (day t)) (CONV (month t)) (CONV (year t)).
Definition cmostime (fuel : nat) : M rtc rtcdate :=
  sb <~ cmos_read CMOS_STATB ;;
  let bcd := Z.land sb (Z.shiftl 1 2) =? 0 in
  t1 <~ stable_date fuel ;;
  let t1 := if bcd then conv_date t1 else t1 in
  ret (mkDate (second t1) (minute t1) (hour t1) (day t1) (month t1) (year t1 + 2000)).

(** ** What the clock shows *)
(** The date in the registers at a read. *)
Definition shown (n : nat) : rtcdate :=
  mkDate (clock n SECS) (clock n MINS) (clock n HOURS) (clock n DAY) (clock n MONTH) (clock n YEAR).

(** During any thirteen reads in a row the date changes at most once. *)
Definition changes_once : Prop :=
  forall n, exists k, forall i, (i < 13)%nat -> shown (n + i) = if (i <? k)%nat then shown n else shown (n + 12).

(** A date read field by field. *)
Definition read_at (n : nat) : rtcdate :=
  mkDate (second (shown n)) (minute (shown (n + 1))) (hour (shown (n + 2))) (day (shown (n + 3)))
    (month (shown (n + 4))) (year (shown (n + 5))).

Lemma cmos_read_run r c : cmos_read r c = Done (clock (rt_reads c) r) (mkRtc r (S (rt_reads c))).
Proof. reflexivity. Qed.

Lemma fill_rtcdate_run c : exists r, fill_rtcdate c = Done (read_at (rt_reads c)) (mkRtc r (rt_reads c + 6)).
Proof.
  eexists. unfold fill_rtcdate, bind, prog_bind, cmos_read, modify, gets, ret, read_at. cbn.
  rewrite !Nat.add_succ_r, Nat.add_0_r. reflexivity.
Qed.

(** Two readings that agree are a date that the clock showed. *)
Lemma agree_shown n : changes_once -> read_at n = read_at (n + 7) -> read_at n = shown n \/ read_at n = shown (n + 12).
Proof.
  intros Hc He. destruct (Hc n) as (k & Hk).
  assert (forall i, (i < 13)%nat -> (i < k)%nat -> shown (n + i) = shown n) as Hlo
    by (intros i Hi Hik; rewrite Hk by done; now rewrite (proj2 (Nat.ltb_lt _ _) Hik)).
  assert (forall i, (i < 13)%nat -> (k <= i)%nat -> shown (n + i) = shown (n + 12)) as Hhi
    by (intros i Hi Hik; rewrite Hk by done; now rewrite (proj2 (Nat.ltb_ge _ _) Hik)).
  destruct (decide (6 <= k)%nat) as [H6|H6].
  - left. unfold read_at. rewrite !Hlo by lia. now destruct (shown n).
  - right. rewrite He. assert (forall j, (j < 6)%nat -> shown (n + 7 + j) = shown (n + 12)) as E
      by (intros j Hj; rewrite <- Nat.add_assoc; apply Hhi; lia).
    unfold read_at. rewrite !E, Hhi by lia. now destruct (shown (n + 12)).
Qed.

(** Each attempt makes at most thirteen reads, and at least seven. *)
Lemma stable_date_step fuel c :
  let n := rt_reads c in let uip := negb (Z.land (clock (n + 6) CMOS_STATA) CMOS_UIP =? 0) in
  exists r1 r2, stable_date (S fuel) c =
    if uip then stable_date fuel (mkRtc r1 (n + 7))
    else if bool_decide (read_at n = read_at (n + 7)) then Done (read_at n) (mkRtc r2 (n + 13))
    else stable_date fuel (mkRtc r2 (n + 13)).
Proof.
  cbv zeta. destruct (fill_rtcdate_run c) as (r0 & R0). destruct (fill_rtcdate_run (mkRtc CMOS_STATA (rt_reads c + 7))) as (r2 & R2).
  exists CMOS_STATA, r2. cbn [stable_date]. unfold bind at 1. rewrite R0. cbn [prog_bind]. unfold bind at 1. rewrite cmos_read_run.
  cbn [prog_bind rt_reads]. replace (S (rt_reads c + 6)) with (rt_reads c + 7)%nat by lia. destruct (negb _); [done|].
  unfold bind at 1. rewrite R2. cbn [prog_bind rt_reads]. replace (rt_reads c + 7 + 6)%nat with (rt_reads c + 13)%nat by lia.
  now destruct (bool_decide _).
Qed.

Lemma stable_date_sound fuel c d c' : changes_once -> stable_date fuel c = Done d c' ->
  exists n, (rt_reads c <= n < rt_reads c')%nat /\ d = shown n.
Proof.
  intros Hc. revert c. induction fuel as [|fuel IH]; intros c H; [done|].
  destruct (stable_date_step fuel c) as (r1 & r2 & E). rewrite E in H. destruct (negb _).
  - destruct (IH _ H) as (n & Hn & ->). exists n. cbn [rt_reads] in Hn. split; [lia|done].
  - case_bool_decide as Ha.
    + injection H as <- <-. destruct (agree_shown _ Hc Ha) as [-> | ->]; eexists; (split; [|reflexivity]); cbn; lia.
    + destruct (IH _ H) as (n & Hn & ->). exists n. cbn [rt_reads] in Hn. split; [lia|done].
Qed.

(** Twenty-six reads from the [n]-th on during which the date stands still and
    no update is announced. *)
Definition quiet (n : nat) : Prop :=
  forall i, (i < 26)%nat -> shown (n + i) = shown n /\ Z.land (clock (n + i) CMOS_STATA) CMOS_UIP = 0.

Lemma quiet_read n i : quiet n -> (i + 6 <= 26)%nat -> read_at (n + i) = shown n.
Proof.
  intros Hq Hi. assert (forall j, (j < 6)%nat -> shown (n + i + j) = shown n) as E by (intros j Hj; rewrite <- Nat.add_assoc; apply Hq; lia).
  unfold read_at. rewrite !E by lia. rewrite <- (Nat.add_0_r (n + i)), E by lia. now destruct (shown n).
Qed.

Lemma stable_date_ends n fuel c : quiet n -> (rt_reads c < n + 13)%nat -> (n + 13 - rt_reads c < fuel)%nat ->
  exists d c', stable_date fuel c = Done d c'.
Proof.
  intros Hq. revert c. induction fuel as [|fuel IH]; intros c Hc Hf; [lia|].
  destruct (stable_date_step fuel c) as (r1 & r2 & E). rewrite E. clear E.
  destruct (decide (n <= rt_reads c)%nat) as [Hn|Hn].
  - set (i := (rt_reads c - n)%nat). replace (rt_reads c) with (n + i)%nat by lia.
    rewrite <- !Nat.add_assoc. rewrite (proj2 (Hq (i + 6)%nat ltac:(lia))). cbn [Z.eqb negb].
    rewrite !quiet_read by (done || lia). rewrite bool_decide_eq_true_2 by done. eauto.
  - destruct (negb _); [apply IH; cbn; lia|]. case_bool_decide; [eauto|]. destruct (decide (rt_reads c < n)%nat); apply IH; cbn; lia.
Qed.

(** The number of two decimal digits, as the clock shows it. *)
Definition bcd (v : Z) : Z := 16 * (v / 10) + v mod 10.
Definition bcd_date (t : rtcdate) : rtcdate :=
  mkDate (bcd (second t)) (bcd (minute t)) (bcd (hour t)) (bcd (day t)) (bcd (month t)) (bcd (year t)).
Definition two_digits (t : rtcdate) : Prop :=
  0 <= second t < 100 /\ 0 <= minute t < 100 /\ 0 <= hour t < 100 /\ 0 <= day t < 100 /\ 0 <= month t < 100 /\ 0 <= year t < 100.
Definition add_century (t : rtcdate) : rtcdate :=
  mkDate (second t) (minute t) (hour t) (day t) (month t) (year t + 2000).

Lemma CONV_bcd v : 0 <= v < 100 -> CONV (bcd v) = v.
Proof.
  intros Hv. unfold CONV, bcd. rewrite Z.shiftr_div_pow2 by lia. change 0xf with (Z.ones 4). rewrite Z.land_ones by lia.
  change (2 ^ 4) with 16. Z.to_euclidean_division_equations. lia.
Qed.

Lemma conv_bcd_date t : two_digits t -> conv_date (bcd_date t) = t.
Proof.
  intros (H1 & H2 & H3 & H4 & H5 & H6). destruct t. unfold conv_date, bcd_date. cbn in *. now rewrite !CONV_bcd.
Qed.

(** C34. [cmostime] returns a date that the clock showed while it ran, never one
    put together from two, in binary or decimal coding, provided that the date
    changes at most once during any thirteen reads; and it returns once the
    clock has been quiet for twenty-six reads. *)
Theorem cmostime_reads_clock (date : nat -> rtcdate) (c : rtc) (n fuel : nat) :
  let decimal := Z.land (clock (rt_reads c) CMOS_STATB) 4 =? 0 in
  (forall k, two_digits (date k) /\ shown k = if decimal then bcd_date (date k) else date k) ->
  changes_once -> quiet n -> (rt_reads c < n)%nat -> (n + 13 - rt_reads c <= fuel)%nat ->
  exists k c', cmostime fuel c = Done (add_century (date k)) c' /\ (rt_reads c < k < rt_reads c')%nat.
Proof.
  intros decimal Hd Hc Hq Hn Hf.
  destruct (stable_date_ends n fuel (mkRtc CMOS_STATB (S (rt_reads c))) Hq) as (d & c' & R); [cbn; lia..|].
  destruct (stable_date_sound _ _ _ _ Hc R) as (k & Hk & ->). cbn [rt_reads] in Hk. exists k, c'. split; [|lia].
  unfold cmostime. unfold bind at 1. rewrite cmos_read_run. cbn [prog_bind]. unfold bind at 1. rewrite R. cbn [prog_bind].
  change (Z.land _ (Z.shiftl 1 2) =? 0) with decimal. destruct (Hd k) as [H2 ->].
  destruct decimal; [rewrite conv_bcd_date by exact H2|]; reflexivity.
Qed.
End Clock.

(** ** A clock that strikes midnight at the end of 2025 *)
Definition demo_date (n : nat) : rtcdate := if (n <? 4)%nat then mkDate 59 59 23 31 12 25 else mkDate 0 0 0 1 1 26.
Definition demo_clock (n : nat) (r : Z) : Z :=
  let d := bcd_date (demo_date n) in
  if r =? SECS then second d else if r =? MINS then minute d else if r =? HOURS then hour d
  else if r =? DAY then day d else if r =? MONTH then month d else if r =? YEAR then year d else 0.

Lemma demo_shown n : shown demo_clock n = bcd_date (demo_date n).
Proof. reflexivity. Qed.

Lemma demo_date_late n : (4 <= n)%nat -> demo_date n = demo_date 4.
Proof. intros H. unfold demo_date. now rewrite (proj2 (Nat.ltb_ge n 4) H). Qed.

Lemma cmostime_reads_clock_witness : exists k c', cmostime demo_clock 30 (mkRtc 0 0) = Done (add_century (demo_date k)) c' /\ (0 < k)%nat.
Proof.
  destruct (cmostime_reads_clock demo_clock demo_date (mkRtc 0 0) 4 30) as (k & c' & R & Hk); [| | |cbn; lia..|].
  - intros k. split; [|reflexivity]. unfold demo_date. destruct (k <? 4)%nat; unfold two_digits; cbn; lia.
  - intros n. exists (4 - n)%nat. intros i Hi. rewrite !demo_shown. f_equal.
    destruct (Nat.ltb_spec i (4 - n)) as [H|H].
    + unfold demo_date. now rewrite !(proj2 (Nat.ltb_lt _ 4)) by lia.
    + now rewrite !(demo_date_late (n + _)) by lia.
  - intros i Hi. rewrite !demo_shown, (demo_date_late (4 + i)) by lia. split; reflexivity.
  - exists k, c'. split; [exact R|]. cbn in Hk. lia.
Defined.
