(* ===== verification/Loader.v ===== *)
(** * The boot loader (bootmain.c)

    The loader reads an ELF image from the disk, starting at sector 1, through
    the registers of the controller, and copies its segments to their physical
    addresses.  The state is the memory, byte by byte, the sectors of the disk
    and the controller: the bytes last written to its ports and the values that
    its status port will show.  [bootmain] returns the entry point it would
    call, or nothing when the image is not an ELF file.

    The specification takes the image as a function from offsets to bytes and
    describes the memory as a function of it ([loaded], [segment_in]). *)
From S2P Require Import Prelude Mmu Str Spinlock Kalloc Proc Exec Sched Store Apic Bio Ide Mp.

Record boot := mkBoot {
  bt_mem : mem;
  bt_disk : Z -> list Z;
  bt_reg : gmap Z Z;
  bt_status : list Z;
}.
Definition set_bmem (v : mem) (s : boot) : boot := mkBoot v (bt_disk s) (bt_reg s) (bt_status s).
Definition set_breg (port v : Z) (s : boot) : boot := mkBoot (bt_mem s) (bt_disk s) (<[port := u8 v]> (bt_reg s)) (bt_status s).
Definition set_bstatus (v : list Z) (s : boot) : boot := mkBoot (bt_mem s) (bt_disk s) (bt_reg s) v.

Definition SECTSIZE : Z := 512.
Definition ELF_SCRATCH : Z := 0x10000.
Definition ELF_MAGIC : Z := 0x464C457F.
Definition PROGHDR : Z := 32.

(** ** The disk *)
Definition boot_outb (port v : Z) : M boot unit := modify (set_breg port v).
Definition breg (port : Z) (s : boot) : Z := default 0 (bt_reg s !! port).
Definition selected (s : boot) : Z :=
  breg 0x1F3 s + 256 * breg 0x1F4 s + 65536 * breg 0x1F5 s + 16777216 * Z.land (breg 0x1F6 s) 0xf.
(** [insl]: the bytes of a sector to the memory from [dst] on. *)
Definition copy_in (dst : Z) (d : list Z) (m : mem) : mem :=
  fun a => if (dst <=? a) && (a <? dst + Z.of_nat (length d)) then default 0 (d !! Z.to_nat (a - dst)) else m a.
Definition boot_insl (dst : Z) : M boot unit :=
  modify (fun s => set_bmem (copy_in dst (bt_disk s (selected s)) (bt_mem s)) s).

Definition waitdisk : M boot unit :=
  l <~ gets bt_status ;;
  match poll l with
  | None => fun _ => Spin
  | Some (_, l) => modify (set_bstatus l)
  end.

Definition readsect (dst offset : Z) : M boot unit :=
  waitdisk ;;;
  boot_outb 0x1F2 1 ;;;
  boot_outb 0x1F3 offset ;;;
  boot_outb 0x1F4 (Z.shiftr offset 8) ;;;
  boot_outb 0x1F5 (Z.shiftr offset 16) ;;;
  boot_outb 0x1F6 (Z.lor (Z.shiftr offset 24) 0xE0) ;;;
  boot_outb 0x1F7 0x20 ;;;
  waitdisk ;;;
  boot_insl dst.

Fixpoint readseg_loop (fuel : nat) (pa epa offset : Z) : M boot unit :=
  match fuel with
  | O => fun _ => Spin
  | S fuel =>
      if pa <? epa then
        readsect pa offset ;;;
        readseg_loop fuel (u32 (pa + SECTSIZE)) epa (u32 (offset + 1))
      else ret tt
  end.
Definition readseg (pa count offset : Z) : M boot unit :=
  let epa := u32 (pa + count) in
  let pa := u32 (pa - offset mod SECTSIZE) in
  let offset := u32 (offset / SECTSIZE + 1) in
  readseg_loop (3 + Z.to_nat (count / SECTSIZE)) pa epa offset.

(** ** The image *)
Definition elf_magic (m : mem) : Z := uint_at m ELF_SCRATCH.
Definition elf_entry (m : mem) : Z := uint_at m (ELF_SCRATCH + 24).
Definition elf_phoff (m : mem) : Z := uint_at m (ELF_SCRATCH + 28).
Definition elf_phnum (m : mem) : Z := ushort_at m (ELF_SCRATCH + 44).
Record segment := mkSegment { sg_off : Z; sg_paddr : Z; sg_filesz : Z; sg_memsz : Z }.
Definition segment_at (m : mem) (ph : Z) : segment :=
  mkSegment (uint_at m (ph + 4)) (uint_at m (ph + 12)) (uint_at m (ph + 16)) (uint_at m (ph + 20)).
(** [stosb]. *)
Definition fill_zero (dst n : Z) (m : mem) : mem := fun a => if (dst <=? a) && (a <? dst + n) then 0 else m a.

(** One round of the loop over the program headers. *)
Definition load_one (g : segment) : M boot unit :=
  readseg (sg_paddr g) (sg_filesz g) (sg_off g) ;;;
  when (sg_filesz g <? sg_memsz g)
    (modify (fun s => set_bmem (fill_zero (u32 (sg_paddr g + sg_filesz g)) (sg_memsz g - sg_filesz g) (bt_mem s)) s)).
Fixpoint load_segments (n : nat) (ph : Z) : M boot unit :=
  match n with
  | O => ret tt
  | S n =>
      g <~ gets (fun s => segment_at (bt_mem s) ph) ;;
      load_one g ;;;
      load_segments n (u32 (ph + PROGHDR))
  end.
Definition bootmain : M boot (option Z) :=
  readseg ELF_SCRATCH 4096 0 ;;;
  m <~ gets bt_mem ;;
  if negb (elf_magic m =? ELF_MAGIC) then ret None
  else
    load_segments (Z.to_nat (elf_phnum m)) (u32 (ELF_SCRATCH + elf_phoff m)) ;;;
    entry <~ gets (fun s => elf_entry (bt_mem s)) ;;
    ret (Some entry).

(** ** Reading sectors *)
Section Load.
Context (image : Z -> Z).

(** The image is on the disk from sector 1 on. *)
Definition on_disk (s : boot) : Prop :=
  forall n, 1 <= n -> length (bt_disk s n) = 512%nat /\
    forall j, 0 <= j < 512 -> bt_disk s n !! Z.to_nat j = Some (image (512 * (n - 1) + j)).

Lemma waitdisk_run s : (0 < nready (bt_status s))%nat ->
  exists l, waitdisk s = Done tt (set_bstatus l s) /\ nready (bt_status s) = S (nready l).
Proof.
  intros H. destruct (poll_next _ H) as (r & l1 & l & Hp & _ & Hn). exists l. split; [|exact Hn].
  unfold waitdisk. rewrite bind_gets, Hp. reflexivity.
Qed.

Definition programmed (offset : Z) (s : boot) : boot :=
  set_breg 0x1F7 0x20 (set_breg 0x1F6 (Z.lor (Z.shiftr offset 24) 0xE0) (set_breg 0x1F5 (Z.shiftr offset 16)
    (set_breg 0x1F4 (Z.shiftr offset 8) (set_breg 0x1F3 offset (set_breg 0x1F2 1 s))))).

Lemma programmed_selects offset s : 0 <= offset < 2 ^ 24 -> selected (programmed offset s) = offset.
Proof.
  intros H. unfold selected, breg, programmed, set_breg. cbn [bt_reg].
  rewrite (lookup_insert_ne _ 0x1F7 0x1F6), lookup_insert_eq by done.
  rewrite (lookup_insert_ne _ 0x1F7 0x1F5), (lookup_insert_ne _ 0x1F6 0x1F5), lookup_insert_eq by done.
  rewrite (lookup_insert_ne _ 0x1F7 0x1F4), (lookup_insert_ne _ 0x1F6 0x1F4), (lookup_insert_ne _ 0x1F5 0x1F4), lookup_insert_eq by done.
  rewrite (lookup_insert_ne _ 0x1F7 0x1F3), (lookup_insert_ne _ 0x1F6 0x1F3), (lookup_insert_ne _ 0x1F5 0x1F3), (lookup_insert_ne _ 0x1F4 0x1F3), lookup_insert_eq by done.
  cbn [default from_option]. unfold id. rewrite !Z.shiftr_div_pow2, (Z.div_small offset (2 ^ 24)) by lia. change (Z.land (u8 (Z.lor 0 0xE0)) 0xf) with 0.
  unfold u8. change (2 ^ 8) with 256. change (2 ^ 16) with 65536. change (2 ^ 24) with 16777216 in H.
  Z.to_euclidean_division_equations. lia.
Qed.

Lemma readsect_run dst offset s : 0 <= offset < 2 ^ 24 -> (2 <= nready (bt_status s))%nat ->
  exists s', readsect dst offset s = Done tt s' /\ bt_mem s' = copy_in dst (bt_disk s offset) (bt_mem s) /\ bt_disk s' = bt_disk s /\
    nready (bt_status s) = S (S (nready (bt_status s'))).
Proof.
  intros Ho Hn. destruct (waitdisk_run s) as (l1 & R1 & N1); [lia|]. set (s1 := programmed offset (set_bstatus l1 s)).
  destruct (waitdisk_run s1) as (l2 & R2 & N2); [change (0 < nready l1)%nat; lia|]. change (bt_status s1) with l1 in N2.
  exists (set_bmem (copy_in dst (bt_disk s (selected s1)) (bt_mem s)) (set_bstatus l2 s1)). split; [|split; [|split; [done|cbn; lia]]].
  - unfold readsect, boot_outb. unfold bind at 1. rewrite R1. cbn [prog_bind]. rewrite !bind_modify. fold (programmed offset (set_bstatus l1 s)). fold s1.
    unfold bind at 1. rewrite R2. reflexivity.
  - cbn. f_equal. unfold s1. now rewrite programmed_selects.
Qed.

(** Case analysis on the comparisons of the goal. *)
Ltac zcases :=
  repeat match goal with
         | |- context [?x <=? ?y] => destruct (Z.leb_spec x y)
         | |- context [?x <? ?y] => destruct (Z.ltb_spec x y)
         end; cbn [andb]; try lia.
Definition within (lo a hi : Z) : bool := (lo <=? a) && (a <? hi).

Lemma copy_in_sector s dst n a : on_disk s -> 1 <= n ->
  copy_in dst (bt_disk s n) (bt_mem s) a = if within dst a (dst + 512) then image (512 * (n - 1) + (a - dst)) else bt_mem s a.
Proof.
  intros Hd Hn. destruct (Hd n Hn) as [Hl Hj]. unfold copy_in, within. rewrite Hl. change (Z.of_nat 512) with 512.
  destruct (Z.leb_spec dst a); [|done]. destruct (Z.ltb_spec a (dst + 512)); [|done]. cbn [andb]. now rewrite Hj by lia.
Qed.

(** [n] rounds of the loop. *)
Lemma readseg_loop_run n : forall fuel pa epa off s, (n < fuel)%nat -> 0 <= pa -> pa + 512 * Z.of_nat n < 2 ^ 32 ->
  1 <= off -> off + Z.of_nat n <= 2 ^ 24 -> epa <= pa + 512 * Z.of_nat n -> (n <> 0%nat -> pa + 512 * (Z.of_nat n - 1) < epa) ->
  on_disk s -> (2 * n <= nready (bt_status s))%nat ->
  exists s', readseg_loop fuel pa epa off s = Done tt s' /\ bt_disk s' = bt_disk s /\
    (forall a, bt_mem s' a = if within pa a (pa + 512 * Z.of_nat n) then image (512 * (off - 1) + (a - pa)) else bt_mem s a) /\
    nready (bt_status s) = (2 * n + nready (bt_status s'))%nat.
Proof.
  induction n as [|n IH]; intros [|fuel] pa epa off s Hf H0 H1 H2 H3 H4 H5 Hd Hn; try lia; cbn [readseg_loop].
  - rewrite (proj2 (Z.ltb_ge pa epa)) by lia. exists s. split; [done|]. split; [done|]. split; [|done]. intros a. unfold within.
    destruct (Z.leb_spec pa a); [|done]. destruct (Z.ltb_spec a (pa + 512 * Z.of_nat 0)); [lia|done].
  - rewrite (proj2 (Z.ltb_lt pa epa)) by lia. destruct (readsect_run pa off s) as (s1 & R1 & M1 & D1 & N1); [lia|lia|].
    unfold bind at 1. rewrite R1. cbn [prog_bind]. unfold SECTSIZE. rewrite !u32_small by lia.
    destruct (IH fuel (pa + 512) epa (off + 1) s1) as (s2 & R2 & D2 & M2 & N2); try lia.
    { intros k Hk. rewrite D1. now apply Hd. }
    exists s2. split; [exact R2|]. split; [congruence|]. split; [|lia]. intros a. rewrite M2, M1, copy_in_sector by (done || lia). unfold within.
    zcases; try (f_equal; lia); done.
Qed.

(** The sectors that [readseg] reads, and the addresses it fills. *)
Definition nsect (count off : Z) : Z := (count + off mod 512 + 511) / 512.
Definition seg_lo (pa off : Z) : Z := pa - off mod 512.
Definition seg_hi (pa count off : Z) : Z := seg_lo pa off + 512 * nsect count off.

Lemma readseg_run pa count off s : 0 <= seg_lo pa off -> 0 <= count -> 0 <= off < 2 ^ 32 -> seg_hi pa count off < 2 ^ 32 ->
  on_disk s -> 2 * nsect count off <= Z.of_nat (nready (bt_status s)) ->
  exists s', readseg pa count off s = Done tt s' /\ bt_disk s' = bt_disk s /\
    (forall a, bt_mem s' a = if within (seg_lo pa off) a (seg_hi pa count off) then image (off + (a - pa)) else bt_mem s a) /\
    Z.of_nat (nready (bt_status s)) = 2 * nsect count off + Z.of_nat (nready (bt_status s')).
Proof.
  unfold seg_hi, seg_lo. intros Hlo Hc Ho Hhi Hd Hn. set (n := Z.to_nat (nsect count off)).
  assert (E : Z.of_nat n = nsect count off) by (unfold n, nsect in *; Z.to_euclidean_division_equations; lia).
  assert (A : off mod 512 + count <= 512 * nsect count off /\ (n <> 0%nat -> 512 * (nsect count off - 1) < off mod 512 + count) /\
    off / 512 + 1 + nsect count off <= 2 ^ 24 /\ nsect count off < 3 + count / 512 /\ 0 <= off mod 512 < 512 /\ 0 <= off / 512 /\ 0 <= nsect count off).
  { unfold nsect in *. change (2 ^ 32) with 4294967296 in *. change (2 ^ 24) with 16777216. Z.to_euclidean_division_equations. lia. }
  destruct A as (A1 & A2 & A3 & A4 & A5 & A6 & A7). unfold readseg, SECTSIZE. cbv zeta.
  rewrite !u32_small by lia. destruct (readseg_loop_run n (3 + Z.to_nat (count / 512)) (pa - off mod 512) (pa + count) (off / 512 + 1) s)
    as (s' & R & D & Mm & N); try lia; try done.
  exists s'. split; [exact R|]. split; [exact D|]. split; [|lia]. intros a. rewrite Mm, E.
  destruct (within _ _ _); [|done]. f_equal. rewrite (Z.div_mod off 512) at 3 by lia. lia.
Qed.

(** ** The segments *)
(** The memory that holds a segment. *)
Definition segment_in (g : segment) (m : mem) : Prop :=
  (forall k, 0 <= k < sg_filesz g -> m (sg_paddr g + k) = image (sg_off g + k)) /\
  (forall k, sg_filesz g <= k < sg_memsz g -> m (sg_paddr g + k) = 0).
(** What loading it writes: whole sectors. *)
Definition span_lo (g : segment) : Z := seg_lo (sg_paddr g) (sg_off g).
Definition span_hi (g : segment) : Z := Z.max (seg_hi (sg_paddr g) (sg_filesz g) (sg_off g)) (sg_paddr g + sg_memsz g).
Definition segment_fits (g : segment) : Prop :=
  0 <= span_lo g /\ span_hi g < 2 ^ 32 /\ 0 <= sg_filesz g /\ 0 <= sg_memsz g /\ 0 <= sg_off g < 2 ^ 32.
Definition sectors_of (g : segment) : Z := nsect (sg_filesz g) (sg_off g).
Definition clear_of (lo hi : Z) (g : segment) : Prop := hi <= span_lo g \/ span_hi g <= lo.
Definition seg_end (g : segment) : Z := sg_paddr g + Z.max (sg_filesz g) (sg_memsz g).

Lemma seg_hi_end g : segment_fits g -> sg_paddr g + sg_filesz g <= seg_hi (sg_paddr g) (sg_filesz g) (sg_off g) /\ span_lo g <= sg_paddr g.
Proof. intros (H1 & H2 & H3 & H4 & H5). unfold span_lo, seg_hi, seg_lo, nsect. Z.to_euclidean_division_equations. lia. Qed.

Lemma load_one_run g s : segment_fits g -> on_disk s -> 2 * sectors_of g <= Z.of_nat (nready (bt_status s)) ->
  exists s', load_one g s = Done tt s' /\ bt_disk s' = bt_disk s /\ segment_in g (bt_mem s') /\
    (forall a, a < span_lo g \/ span_hi g <= a -> bt_mem s' a = bt_mem s a) /\
    Z.of_nat (nready (bt_status s)) = 2 * sectors_of g + Z.of_nat (nready (bt_status s')).
Proof.
  intros F Hd Hn. pose proof (seg_hi_end g F) as [E1 E2]. pose proof F as (F1 & F2 & F3 & F4 & F5). unfold span_lo, span_hi in *.
  destruct (readseg_run (sg_paddr g) (sg_filesz g) (sg_off g) s) as (s1 & R1 & D1 & M1 & N1); try done; try lia.
  unfold load_one. unfold bind at 1. rewrite R1. cbn [prog_bind]. destruct (Z.ltb_spec (sg_filesz g) (sg_memsz g)) as [Hz|Hz]; cbn [when].
  - eexists. split; [reflexivity|]. split; [exact D1|]. cbn [bt_mem set_bmem]. rewrite u32_small by lia. unfold fill_zero, segment_in. split; [split|split].
    + intros k Hk. rewrite (proj2 (Z.leb_gt _ _)) by lia. cbn [andb]. rewrite M1. unfold within.
      rewrite (proj2 (Z.leb_le _ _)), (proj2 (Z.ltb_lt _ _)) by lia. cbn [andb]. f_equal. lia.
    + intros k Hk. rewrite (proj2 (Z.leb_le _ _)), (proj2 (Z.ltb_lt _ _)) by lia. done.
    + intros a Ha. rewrite M1. unfold within. zcases; done.
    + exact N1.
  - exists s1. split; [reflexivity|]. split; [exact D1|]. split; [split|split; [|exact N1]].
    + intros k Hk. rewrite M1. unfold within. rewrite (proj2 (Z.leb_le _ _)), (proj2 (Z.ltb_lt _ _)) by lia. cbn [andb]. f_equal. lia.
    + intros k Hk. lia.
    + intros a Ha. rewrite M1. unfold within. zcases; done.
Qed.

(** The header, as the scratch page holds it, and the program headers. *)
Definition header : mem := fun a => image (a - ELF_SCRATCH).
Definition header_in (m : mem) : Prop := forall a, ELF_SCRATCH <= a < ELF_SCRATCH + 4096 -> m a = header a.
Fixpoint segments_from (n : nat) (ph : Z) : list segment :=
  match n with
  | O => []
  | S n => segment_at header ph :: segments_from n (ph + PROGHDR)
  end.
(** No segment is overwritten by the sectors of a later one. *)
Fixpoint apart (gs : list segment) : Prop :=
  match gs with
  | [] => True
  | g :: gs => Forall (clear_of (sg_paddr g) (seg_end g)) gs /\ apart gs
  end.
Definition total_sectors (gs : list segment) : Z := sum_list (sectors_of <$> gs).

Lemma uint_header m a : header_in m -> ELF_SCRATCH <= a -> a + 4 <= ELF_SCRATCH + 4096 -> uint_at m a = uint_at header a.
Proof. intros H H1 H2. unfold uint_at. now rewrite !H by lia. Qed.

Lemma segment_header m ph : header_in m -> ELF_SCRATCH <= ph -> ph + PROGHDR <= ELF_SCRATCH + 4096 ->
  segment_at m ph = segment_at header ph.
Proof. intros H H1 H2. unfold PROGHDR in H2. unfold segment_at. now rewrite !(uint_header m) by (exact H || lia). Qed.

Lemma segment_in_ext g m m' : (forall a, sg_paddr g <= a < seg_end g -> m' a = m a) -> segment_in g m -> 0 <= sg_filesz g -> segment_in g m'.
Proof. unfold seg_end. intros He [H1 H2] H0. split; intros k Hk; rewrite He by lia; auto. Qed.

Definition untouched (gs : list segment) (m m' : mem) : Prop :=
  forall lo hi, Forall (clear_of lo hi) gs -> forall a, lo <= a < hi -> m' a = m a.

Lemma sectors_nonneg g : segment_fits g -> 0 <= sectors_of g.
Proof. intros (_ & _ & H & _ & _). unfold sectors_of, nsect. pose proof (Z.mod_pos_bound (sg_off g) 512). apply Z.div_pos; lia. Qed.

Lemma total_nonneg gs : Forall segment_fits gs -> 0 <= total_sectors gs.
Proof.
  unfold total_sectors. induction 1 as [|g gs H _ IH]; [done|]. rewrite fmap_cons. cbn [sum_list]. pose proof (sectors_nonneg g H). lia.
Qed.

Lemma load_segments_run n : forall ph s, let gs := segments_from n ph in
  header_in (bt_mem s) -> ELF_SCRATCH <= ph -> ph + PROGHDR * Z.of_nat n <= ELF_SCRATCH + 4096 ->
  Forall segment_fits gs -> Forall (clear_of ELF_SCRATCH (ELF_SCRATCH + 4096)) gs -> apart gs -> on_disk s ->
  2 * total_sectors gs <= Z.of_nat (nready (bt_status s)) ->
  exists s', load_segments n ph s = Done tt s' /\ Forall (fun g => segment_in g (bt_mem s')) gs /\ untouched gs (bt_mem s) (bt_mem s').
Proof.
  induction n as [|n IH]; intros ph s gs Hh H1 H2 Hf Hc Ha Hd Hn; cbn [segments_from] in gs; cbn [load_segments].
  - exists s. split; [done|]. split; [constructor|]. now intros lo hi _ a _.
  - unfold gs in *. clear gs. rewrite bind_gets. unfold PROGHDR in *.
    rewrite (segment_header (bt_mem s)) by (done || unfold PROGHDR; lia). set (g := segment_at header ph) in *.
    apply Forall_cons in Hf as [Hf Hfs]. apply Forall_cons in Hc as [Hc Hcs]. destruct Ha as [Hg Ha].
    unfold total_sectors in Hn. rewrite fmap_cons in Hn. cbn [sum_list] in Hn. fold (total_sectors (segments_from n (ph + 32))) in Hn.
    pose proof (sectors_nonneg g Hf). pose proof (total_nonneg _ Hfs).
    destruct (load_one_run g s Hf Hd) as (s1 & R1 & D1 & S1 & U1 & N1); [lia|].
    unfold bind at 1. rewrite R1. cbn [prog_bind]. rewrite u32_small by (unfold ELF_SCRATCH in *; lia).
    destruct (IH (ph + 32) s1) as (s2 & R2 & S2 & U2); try done; try (unfold PROGHDR; lia).
    { intros a Hr. rewrite U1; [now apply Hh|]. destruct Hc; lia. }
    { intros k Hk. rewrite D1. now apply Hd. }
    exists s2. split; [exact R2|]. split; [constructor; [|exact S2]|].
    + eapply segment_in_ext; [apply (U2 _ _ Hg)|exact S1|apply Hf].
    + intros lo hi [Hx Hxs]%Forall_cons a Hr. rewrite (U2 lo hi Hxs a Hr). apply U1. destruct Hx; lia.
Qed.

(** Outside of the page the header is read to. *)
Definition outside_scratch (a : Z) : Prop := a < ELF_SCRATCH \/ ELF_SCRATCH + 4096 <= a.

Lemma read_header s : on_disk s -> 16 <= Z.of_nat (nready (bt_status s)) ->
  exists s1, readseg ELF_SCRATCH 4096 0 s = Done tt s1 /\ bt_disk s1 = bt_disk s /\ header_in (bt_mem s1) /\
    (forall a, outside_scratch a -> bt_mem s1 a = bt_mem s a) /\
    Z.of_nat (nready (bt_status s)) = 16 + Z.of_nat (nready (bt_status s1)).
Proof.
  intros Hd Hn. destruct (readseg_run ELF_SCRATCH 4096 0 s) as (s1 & R & D & Mm & N); try done.
  exists s1. split; [exact R|]. split; [exact D|].
  change (seg_lo ELF_SCRATCH 0) with ELF_SCRATCH in Mm. change (seg_hi ELF_SCRATCH 4096 0) with (ELF_SCRATCH + 4096) in Mm. split; [|split; [|exact N]].
  - intros a Ha. rewrite Mm. unfold header, within. rewrite (proj2 (Z.leb_le _ _)), (proj2 (Z.ltb_lt _ _)) by lia. done.
  - intros a Ha. rewrite Mm. unfold within. destruct Ha as [Ha|Ha]; [now rewrite (proj2 (Z.leb_gt _ _))|].
    rewrite (proj2 (Z.ltb_ge _ _)) by lia. now rewrite andb_false_r.
Qed.

(** C21. The boot loader loads the kernel.  With an image on the disk from sector
    1 on and a controller that becomes ready often enough, [bootmain] returns
    without jumping when the image does not start with the ELF magic number.
    Otherwise, when the program headers lie in the first page, the sectors that
    hold a segment fall neither on the header nor on an earlier segment, and
    addresses do not wrap, it reaches the entry point of the header with every
    segment in memory: its bytes from the file at its physical address, and
    zeros up to its size in memory.  In both cases memory changes only in the
    page the header is read to and in the sectors' span of the segments, which
    [span_lo] and [span_hi] delimit: [readseg] copies whole sectors. *)
Theorem bootmain_loads_kernel (s : boot) :
  let gs := segments_from (Z.to_nat (elf_phnum header)) (ELF_SCRATCH + elf_phoff header) in
  on_disk s -> 16 <= Z.of_nat (nready (bt_status s)) ->
  (elf_magic header <> ELF_MAGIC ->
   exists s', bootmain s = Done None s' /\ forall a, outside_scratch a -> bt_mem s' a = bt_mem s a) /\
  (elf_magic header = ELF_MAGIC -> 0 <= elf_phoff header -> 0 <= elf_phnum header ->
   elf_phoff header + PROGHDR * elf_phnum header <= 4096 ->
   Forall segment_fits gs -> Forall (clear_of ELF_SCRATCH (ELF_SCRATCH + 4096)) gs -> apart gs ->
   16 + 2 * total_sectors gs <= Z.of_nat (nready (bt_status s)) ->
   exists s', bootmain s = Done (Some (elf_entry header)) s' /\ Forall (fun g => segment_in g (bt_mem s')) gs /\
     forall a, outside_scratch a -> Forall (fun g => a < span_lo g \/ span_hi g <= a) gs -> bt_mem s' a = bt_mem s a).
Proof.
  intros gs Hd H16. destruct (read_header s Hd H16) as (s1 & R1 & D1 & Hh & F1 & N1).
  assert (E : bootmain s = (if negb (elf_magic header =? ELF_MAGIC) then ret None
    else load_segments (Z.to_nat (elf_phnum header)) (u32 (ELF_SCRATCH + elf_phoff header)) ;;;
         entry <~ gets (fun s => elf_entry (bt_mem s)) ;; ret (Some entry)) s1).
  { unfold bootmain. unfold bind at 1. rewrite R1. cbn [prog_bind]. rewrite bind_gets. unfold elf_magic, elf_phnum, elf_phoff, ushort_at.
    rewrite !(uint_header (bt_mem s1)) by (done || unfold ELF_SCRATCH; lia). now rewrite !Hh by (unfold ELF_SCRATCH; lia). }
  rewrite E. split.
  - intros Hm. rewrite (proj2 (Z.eqb_neq _ _) Hm). eexists. split; [reflexivity|exact F1].
  - intros Hm H0 H0' H1 Hf Hc Ha Hn. rewrite Hm, Z.eqb_refl. cbn [negb].
    unfold PROGHDR in H1. rewrite u32_small by (unfold ELF_SCRATCH; lia).
    destruct (load_segments_run (Z.to_nat (elf_phnum header)) (ELF_SCRATCH + elf_phoff header) s1) as (s2 & R2 & S2 & U2);
      try done; try (unfold PROGHDR; lia).
    { intros k Hk. rewrite D1. now apply Hd. }
    { fold gs. lia. }
    exists s2. unfold bind at 1. rewrite R2. cbn [prog_bind]. split; [rewrite bind_gets|split; [exact S2|]].
    2: { intros a Ho Ha'. rewrite (U2 a (a + 1)); [now apply F1| |lia]. eapply Forall_impl; [exact Ha'|].
         intros g [Hg|Hg]; [left; lia|right; exact Hg]. }
    assert (header_in (bt_mem s2)) as Hh2 by (intros a Hr; rewrite (U2 _ _ Hc a Hr); now apply Hh).
    unfold elf_entry. now rewrite (uint_header (bt_mem s2)) by (done || unfold ELF_SCRATCH; lia).
Qed.
End Load.

(** ** An image with two segments *)
Definition le4 (v : Z) : list Z := [u8 v; u8 (v / 256); u8 (v / 65536); u8 (v / 16777216)].
Definition demo_phdr (off paddr filesz memsz : Z) : list Z :=
  le4 1 ++ le4 off ++ le4 paddr ++ le4 paddr ++ le4 filesz ++ le4 memsz ++ le4 0 ++ le4 0.
Definition demo_file : list Z :=
  le4 ELF_MAGIC ++ replicate 20 0 ++ le4 0x10000C ++ le4 52 ++ replicate 12 0 ++ [2; 0] ++ replicate 6 0 ++
  demo_phdr 0x1000 0x100000 3 3 ++ demo_phdr 0x1200 0x101000 2 5 ++
  replicate (Z.to_nat (0x1000 - 116)) 0 ++ [7; 8; 9] ++ replicate 509 1 ++ [5; 6].
Definition demo_image (a : Z) : Z := default 0 (demo_file !! Z.to_nat a).
Definition demo_boot : boot :=
  mkBoot (fun _ => 0xAA) (fun n => (fun j => demo_image (512 * (n - 1) + Z.of_nat j)) <$> seq 0 512) ∅ (replicate 40 0x50).

Lemma bootmain_loads_kernel_witness : exists s', bootmain demo_boot = Done (Some 0x10000C) s' /\
  bt_mem s' 0x100002 = 9 /\ bt_mem s' 0x101001 = 6 /\ bt_mem s' 0x101004 = 0 /\ bt_mem s' 0x102000 = 0xAA.
Proof.
  destruct (bootmain_loads_kernel demo_image demo_boot) as [_ H].
  - intros n Hn. cbn [bt_disk demo_boot]. split; [now rewrite length_fmap, length_seq|]. intros j Hj. rewrite list_lookup_fmap, lookup_seq_lt by lia.
    cbn. now rewrite Z2Nat.id by lia.
  - vm_compute. discriminate.
  - assert (Eg : segments_from demo_image (Z.to_nat (elf_phnum (header demo_image))) (ELF_SCRATCH + elf_phoff (header demo_image)) =
      [mkSegment 0x1000 0x100000 3 3; mkSegment 0x1200 0x101000 2 5]) by (vm_compute; reflexivity).
    rewrite Eg in H. destruct H as (s' & R & S & F).
    + vm_compute. reflexivity.
    + vm_compute. discriminate.
    + vm_compute. discriminate.
    + vm_compute. discriminate.
    + repeat constructor; vm_compute; (discriminate || reflexivity).
    + constructor; [|constructor; [|constructor]]; left; vm_compute; discriminate.
    + split; [constructor; [left; vm_compute; discriminate|constructor]|split; constructor].
    + vm_compute. discriminate.
    + exists s'. assert (elf_entry (header demo_image) = 0x10000C) as Ee by (vm_compute; reflexivity). rewrite Ee in R.
      split; [exact R|]. apply Forall_cons in S as [[S1 _] S]. apply Forall_cons in S as [[S2 S3] _]. cbn [sg_filesz sg_memsz sg_paddr sg_off] in *.
      pose proof (S1 2 ltac:(lia)) as T1. pose proof (S2 1 ltac:(lia)) as T2. pose proof (S3 4 ltac:(lia)) as T3.
      split; [exact T1|]. split; [exact T2|]. split; [exact T3|]. apply F; [right|constructor; [|constructor; [|constructor]]; right]; vm_compute; discriminate.
Defined.
