(* ===== verification/Log.v ===== *)
(** * The log (log.c)

    Each function of log.c, over the buffer cache.  A transaction's blocks are
    pinned in the cache until [commit] writes them to the log area, writes the
    header that makes the transaction count, installs the blocks and clears
    the header; after a power failure [recover_from_log] installs what the
    header on the disk names.

    The theorems: [log_write] records a block once; [commit] writes these
    blocks to the disk in this order ([commit_run]).  LogCrash.v: whatever number of
    those writes the disk has made when the power fails, recovery leaves every
    block outside the log as it was before the transaction, or every one as it
    is after it ([crash_atomic]). *)
From S2P Require Import Prelude Mmu Str Spinlock Kalloc Proc Exec Sched Store Bio.

Definition LOG_LOCK : nat := 5%nat.
Definition LOG_CHAN : chan := CObj 1000.

Definition set_lg_n (v : Z) (l : log) : log := mkLog (lg_start l) (lg_size l) (lg_outstanding l) (lg_committing l) (lg_dev l) v (lg_block l).
Definition set_lg_block (v : list Z) (l : log) : log := mkLog (lg_start l) (lg_size l) (lg_outstanding l) (lg_committing l) (lg_dev l) (lg_n l) v.
Definition set_lg_outstanding (v : Z) (l : log) : log := mkLog (lg_start l) (lg_size l) v (lg_committing l) (lg_dev l) (lg_n l) (lg_block l).
Definition set_lg_committing (v : Z) (l : log) : log := mkLog (lg_start l) (lg_size l) (lg_outstanding l) v (lg_dev l) (lg_n l) (lg_block l).

(** [log.lh.block[i]]; reading or writing past the array has no defined
    result. *)
Definition log_at (i : Z) : M kfs Z :=
  l <~ getst (fun st => lg_block (st_log st)) ;;
  match l !! Z.to_nat i with
  | Some e => ret e
  | None => panic "log.lh.block: out of bounds"
  end.
Definition log_put (i v : Z) : M kfs unit :=
  log_at i ;;;
  modst (upd_log (fun l => set_lg_block (<[Z.to_nat i := v]> (lg_block l)) l)).

Section Log.
Context {W : Wait}.

(** fs.c *)
Definition sb_of (d : list Z) : superblock :=
  mkSb (get32 d 0) (get32 d 4) (get32 d 8) (get32 d 12) (get32 d 16) (get32 d 20) (get32 d 24).
Definition readsb (dev : Z) : M kfs superblock :=
  bp <~ bread dev 1 ;;
  d <~ getst (fun st => b_data (the_buf bp st)) ;;
  brelse bp ;;;
  ret (sb_of d).

Fixpoint install_loop (fuel : nat) (tail : Z) : M kfs unit :=
  match fuel with
  | O => fun _ => Spin
  | S fuel =>
      lg <~ getst st_log ;;
      if tail <? lg_n lg then
        lbuf <~ bread (lg_dev lg) (u32 (lg_start lg + tail + 1)) ;;
        e <~ log_at tail ;;
        dbuf <~ bread (lg_dev lg) (u32 e) ;;
        modst (fun st => upd_buf dbuf (set_data (b_data (the_buf lbuf st))) st) ;;;
        bwrite dbuf ;;;
        brelse lbuf ;;;
        brelse dbuf ;;;
        install_loop fuel (tail + 1)
      else ret tt
  end.
Definition install_trans : M kfs unit :=
  n <~ getst (fun st => lg_n (st_log st)) ;;
  install_loop (S (Z.to_nat n)) 0.

Fixpoint read_entries (fuel : nat) (d : list Z) (i : Z) : M kfs unit :=
  match fuel with
  | O => fun _ => Spin
  | S fuel =>
      n <~ getst (fun st => lg_n (st_log st)) ;;
      if i <? n then log_put i (s32 (get32 d (4 + 4 * i))) ;;; read_entries fuel d (i + 1)
      else ret tt
  end.
Definition read_head : M kfs unit :=
  lg <~ getst st_log ;;
  buf <~ bread (lg_dev lg) (u32 (lg_start lg)) ;;
  d <~ getst (fun st => b_data (the_buf buf st)) ;;
  modst (upd_log (set_lg_n (s32 (get32 d 0)))) ;;;
  read_entries (S (Z.to_nat (s32 (get32 d 0)))) d 0 ;;;
  brelse buf.

Fixpoint write_entries (fuel buf : nat) (i : Z) : M kfs unit :=
  match fuel with
  | O => fun _ => Spin
  | S fuel =>
      n <~ getst (fun st => lg_n (st_log st)) ;;
      if i <? n then
        e <~ log_at i ;;
        modst (upd_buf buf (fun b => set_data (put32 (4 + 4 * i) e (b_data b)) b)) ;;;
        write_entries fuel buf (i + 1)
      else ret tt
  end.
Definition write_head : M kfs unit :=
  lg <~ getst st_log ;;
  buf <~ bread (lg_dev lg) (u32 (lg_start lg)) ;;
  modst (upd_buf buf (fun b => set_data (put32 0 (lg_n lg) (b_data b)) b)) ;;;
  write_entries (S (Z.to_nat (lg_n lg))) buf 0 ;;;
  bwrite buf ;;;
  brelse buf.

Definition recover_from_log : M kfs unit :=
  read_head ;;;
  install_trans ;;;
  modst (upd_log (set_lg_n 0)) ;;;
  write_head.

(** [sizeof(struct logheader)] is a constant. *)
Definition initlog (dev : Z) : M kfs unit :=
  if BSIZE <=? 4 + 4 * LOGSIZE then panic "initlog: too big logheader"
  else
    on_cpus (initlock LOG_LOCK "log") ;;;
    sb <~ readsb dev ;;
    modst (upd_log (fun l => mkLog (s32 (sb_logstart sb)) (s32 (sb_nlog sb)) (lg_outstanding l) (lg_committing l) dev (lg_n l) (lg_block l))) ;;;
    recover_from_log.

Fixpoint begin_op_loop (fuel : nat) : M kfs unit :=
  lg <~ getst st_log ;;
  if negb (lg_committing lg =? 0) || (LOGSIZE <? lg_n lg + (lg_outstanding lg + 1) * MAXOPBLOCKS) then
    match fuel with
    | O => fun _ => Spin
    | S fuel => sleep LOG_CHAN (Some LOG_LOCK) ;;; begin_op_loop fuel
    end
  else
    modst (upd_log (set_lg_outstanding (lg_outstanding lg + 1))) ;;;
    krelease LOG_LOCK.
Definition begin_op : M kfs unit :=
  kacquire LOG_LOCK ;;;
  begin_op_loop wait_bound.

Fixpoint write_log_loop (fuel : nat) (tail : Z) : M kfs unit :=
  match fuel with
  | O => fun _ => Spin
  | S fuel =>
      lg <~ getst st_log ;;
      if tail <? lg_n lg then
        to <~ bread (lg_dev lg) (u32 (lg_start lg + tail + 1)) ;;
        e <~ log_at tail ;;
        from <~ bread (lg_dev lg) (u32 e) ;;
        modst (fun st => upd_buf to (set_data (b_data (the_buf from st))) st) ;;;
        bwrite to ;;;
        brelse from ;;;
        brelse to ;;;
        write_log_loop fuel (tail + 1)
      else ret tt
  end.
Definition write_log : M kfs unit :=
  n <~ getst (fun st => lg_n (st_log st)) ;;
  write_log_loop (S (Z.to_nat n)) 0.

Definition commit : M kfs unit :=
  n <~ getst (fun st => lg_n (st_log st)) ;;
  when (0 <? n) (
    write_log ;;;
    write_head ;;;
    install_trans ;;;
    modst (upd_log (set_lg_n 0)) ;;;
    write_head).

Definition end_op : M kfs unit :=
  kacquire LOG_LOCK ;;;
  modst (upd_log (fun l => set_lg_outstanding (lg_outstanding l - 1) l)) ;;;
  lg <~ getst st_log ;;
  if negb (lg_committing lg =? 0) then panic "log.committing"
  else
    (if lg_outstanding lg =? 0 then modst (upd_log (set_lg_committing 1))
     else wakeup LOG_CHAN) ;;;
    krelease LOG_LOCK ;;;
    when (lg_outstanding lg =? 0) (
      commit ;;;
      kacquire LOG_LOCK ;;;
      modst (upd_log (set_lg_committing 0)) ;;;
      wakeup LOG_CHAN ;;;
      krelease LOG_LOCK).

(** The index the loop of [log_write] ends with. *)
Definition log_index (blockno : Z) (l : log) : Z :=
  match find_idx (fun e => u32 e =? blockno) (take (Z.to_nat (lg_n l)) (lg_block l)) with
  | Some i => Z.of_nat i
  | None => lg_n l
  end.
Definition log_write (b : nat) : M kfs unit :=
  lg <~ getst st_log ;;
  if (LOGSIZE <=? lg_n lg) || (lg_size lg - 1 <=? lg_n lg) then panic "too big a transaction"
  else if lg_outstanding lg <? 1 then panic "log_write outside of trans"
  else
    kacquire LOG_LOCK ;;;
    lg <~ getst st_log ;;
    bn <~ getst (fun st => b_blockno (the_buf b st)) ;;
    let i := log_index bn lg in
    log_put i (s32 bn) ;;;
    when (i =? lg_n lg) (modst (upd_log (fun l => set_lg_n (lg_n l + 1) l))) ;;;
    modst (upd_buf b (fun bb => set_flags (Z.lor (b_flags bb) B_DIRTY) bb)) ;;;
    krelease LOG_LOCK.
End Log.

(** ** The abstract effect of a transaction *)
Definition outside (lg : log) (b : Z) : Prop := b < lg_start lg \/ lg_start lg + lg_size lg <= b.

(** The log names the blocks [bs], all of them outside the log's area. *)
Record log_ok (bs : list Z) (st : storage) : Prop := mkLogOk {
  lo_dev : lg_dev (st_log st) = 1;
  lo_n : lg_n (st_log st) = Z.of_nat (length bs);
  lo_len : length (lg_block (st_log st)) = Z.to_nat LOGSIZE;
  lo_bs : take (length bs) (lg_block (st_log st)) = bs;
  lo_fit : Z.of_nat (length bs) + 1 <= lg_size (st_log st);
  lo_area : 2 <= lg_start (st_log st) /\ lg_start (st_log st) + lg_size (st_log st) <= st_disksize st /\ st_disksize st <= 2 ^ 31;
  lo_home : forall b, b ∈ bs -> 0 <= b < st_disksize st /\ outside (st_log st) b;
  lo_nodup : NoDup bs;
}.

Lemma log_ok_same bs st st' : same st st' -> log_ok bs st -> log_ok bs st'.
Proof. intros (Hd & Hl & _) [? ? ? ? ? ? ? ?]. constructor; rewrite ?Hl, ?Hd; done. Qed.

(** The block [dst] becomes a copy of [src], on the disk as well. *)
Definition copy (dst src : Z) (v : view) : view := flush dst (put dst (v_cur v src) v).
Definition copies (l : list (Z * Z)) (v : view) : view := foldl (fun v p => copy p.1 p.2 v) v l.
(** The blocks of the log area after the header, from the [t]-th on. *)
Definition slots (start : Z) (t n : nat) : list Z := (fun i => start + Z.of_nat i + 1) <$> seq t n.

(** The header block as [write_head] fills it. *)
Fixpoint put_entries (i : Z) (bs : list Z) (d : list Z) : list Z :=
  match bs with
  | [] => d
  | e :: bs => put_entries (i + 1) bs (put32 (4 + 4 * i) e d)
  end.
Definition put_head (bs : list Z) (d : list Z) : list Z := put_entries 0 bs (put32 0 (Z.of_nat (length bs)) d).

Lemma length_put_entries i bs d : length (put_entries i bs d) = length d.
Proof. revert i d. induction bs as [|e bs IH]; intros i d; simpl; [done|]. now rewrite IH, length_put32. Qed.

Lemma length_put_head bs d : length (put_head bs d) = length d.
Proof. unfold put_head. now rewrite length_put_entries, length_put32. Qed.

(** The blocks a header names, as [read_head] takes them. *)
Definition head_blocks (d : list Z) : list Z :=
  (fun i => s32 (get32 d (4 + 4 * Z.of_nat i))) <$> seq 0 (Z.to_nat (s32 (get32 d 0))).

Lemma get32_put_entries i bs d j : 0 <= i -> 0 <= j -> j + 4 <= 4 + 4 * i -> 4 * (i + Z.of_nat (length bs)) + 4 <= Z.of_nat (length d) ->
  get32 (put_entries i bs d) j = get32 d j.
Proof.
  revert i d. induction bs as [|e bs IH]; intros i d Hi Hj Hij Hl; simpl in *; [done|].
  rewrite IH by (rewrite ?length_put32; lia). apply get32_put32_ne; lia.
Qed.

Lemma put_entries_at i bs d k e : bs !! k = Some e -> 0 <= i -> 4 * (i + Z.of_nat (length bs)) + 4 <= Z.of_nat (length d) ->
  get32 (put_entries i bs d) (4 + 4 * (i + Z.of_nat k)) = u32 e.
Proof.
  revert i d k. induction bs as [|e' bs IH]; intros i d k Hk Hi Hl; simpl in *; [done|].
  destruct k as [|k]; simpl in Hk.
  - injection Hk as ->. rewrite get32_put_entries by (rewrite ?length_put32; lia).
    replace (4 + 4 * (i + Z.of_nat 0)) with (4 + 4 * i) by lia. apply get32_put32; lia.
  - replace (i + Z.of_nat (S k)) with (i + 1 + Z.of_nat k) by lia. apply IH; [done|lia|rewrite length_put32; lia].
Qed.

Lemma s32_u32 z : 0 <= z < 2 ^ 31 -> s32 (u32 z) = z.
Proof. intros H. rewrite u32_small by lia. apply s32_small. lia. Qed.

Lemma head_blocks_put bs d : length d = Z.to_nat BSIZE -> (length bs <= Z.to_nat LOGSIZE)%nat -> Forall (fun b => 0 <= b < 2 ^ 31) bs ->
  head_blocks (put_head bs d) = bs.
Proof.
  unfold BSIZE, LOGSIZE, MAXOPBLOCKS. intros Hd Hb Hf. unfold head_blocks, put_head.
  assert (H4 : 4 * (0 + Z.of_nat (length bs)) + 4 <= Z.of_nat (length d)) by lia.
  rewrite get32_put_entries, get32_put32, s32_u32, Nat2Z.id by (rewrite ?length_put32; lia).
  apply list_eq. intros i. rewrite list_lookup_fmap.
  destruct (decide (i < length bs)%nat) as [Hi|Hi].
  - rewrite lookup_seq_lt by done. destruct (lookup_lt_is_Some_2 bs i Hi) as [e He]. rewrite He. simpl. f_equal.
    rewrite <- (Z.add_0_l (Z.of_nat i)), (put_entries_at 0 bs _ i e) by (rewrite ?length_put32; done || lia).
    apply s32_u32. rewrite Forall_lookup in Hf. eauto.
  - rewrite lookup_seq_ge by lia. simpl. symmetry. apply lookup_ge_None. lia.
Qed.

(** A disk after the writes [ws]. *)
Definition replay (ws : list (Z * list Z)) (d : Z -> list Z) : Z -> list Z := foldl (fun d p => <[p.1 := p.2]> d) d ws.

Lemma replay_app ws ws' d : replay (ws ++ ws') d = replay ws' (replay ws d).
Proof. apply foldl_app. Qed.

Lemma replay_out ws d b : b ∉ ws.*1 -> replay ws d b = d b.
Proof.
  revert d. induction ws as [|p ws IH]; intros d Hb; simpl; [done|].
  apply not_elem_of_cons in Hb as [Hne Hb]. unfold replay in *. simpl. rewrite IH by done. now rewrite fn_lookup_insert_ne.
Qed.

Lemma replay_in ws d b x : NoDup ws.*1 -> (b, x) ∈ ws -> replay ws d b = x.
Proof.
  revert d. induction ws as [|[c y] ws IH]; intros d Hnd Hin; simpl in *; [set_solver|].
  apply NoDup_cons in Hnd as [Hc Hnd]. apply elem_of_cons in Hin as [E|Hin]; [|now apply IH].
  injection E as -> ->. change (replay ((c, y) :: ws) d) with (replay ws (<[c := y]> d)).
  rewrite replay_out by done. apply fn_lookup_insert.
Qed.

Lemma replay_ext ws d d' b : d b = d' b -> replay ws d b = replay ws d' b.
Proof.
  revert d d'. induction ws as [|p ws IH]; intros d d' E; simpl; [done|]. apply IH.
  destruct (decide (p.1 = b)) as [<-|Hne]; [now rewrite !fn_lookup_insert|now rewrite !fn_lookup_insert_ne].
Qed.

(** What a list of copies writes, when no block is written before it is read. *)
Definition copy_writes (l : list (Z * Z)) (v : view) : list (Z * list Z) := (fun p => (p.1, v_cur v p.2)) <$> l.

Lemma copies_spec l v : NoDup l.*1 -> (forall s, s ∈ l.*2 -> s ∉ l.*1) ->
  v_writes (copies l v) = v_writes v ++ copy_writes l v /\
  v_cur (copies l v) = replay (copy_writes l v) (v_cur v) /\
  v_disk (copies l v) = replay (copy_writes l v) (v_disk v) /\
  v_dirty (copies l v) = v_dirty v ∖ list_to_set l.*1 /\ v_held (copies l v) = v_held v.
Proof.
  revert v. induction l as [|[d s] l IH]; intros v Hnd Hs; simpl.
  - unfold copy_writes. simpl. rewrite app_nil_r. repeat split. set_solver.
  - apply NoDup_cons in Hnd as [Hd Hnd]. assert (Hs' : forall x, x ∈ l.*2 -> x ∉ l.*1).
    { intros x Hx Hx'. apply (Hs x); simpl; [now right|now right]. }
    destruct (IH (copy d s v) Hnd Hs') as (-> & -> & -> & -> & ->).
    assert (E : copy_writes l (copy d s v) = copy_writes l v).
    { unfold copy_writes. apply list_fmap_ext. intros k [d' s'] Hk. simpl. f_equal. apply fn_lookup_insert_ne.
      intros <-. apply (Hs d); simpl; [|now left]. right. apply list_elem_of_fmap. exists (d', d). split; [done|].
      eapply list_elem_of_lookup_2, Hk. }
    rewrite E. unfold copy_writes. simpl. rewrite <- app_assoc, fn_lookup_insert. simpl. repeat split. set_solver.
Qed.

Section Runs.
Context {W : Wait} (w : who).

Lemma copy_run {A} st v i j dst src (k : M kfs A) Q :
  Rep w st (mkView (v_cur v) (v_disk v) (v_dirty v) (v_writes v) (<[j := src]> (<[i := dst]> (v_held v)))) ->
  v_held v !! i = None -> v_held v !! j = None -> i <> j -> src <> dst ->
  (src ∈ v_dirty v \/ v_cur v src = v_disk v src) ->
  (forall st', Rep w st' (copy dst src v) -> same st st' -> srun w ∅ k st' ∅ Q) ->
  srun w ∅ (modst (fun st => upd_buf i (set_data (b_data (the_buf j st))) st) ;;;
    bwrite i ;;; brelse j ;;; brelse i ;;; k) st ∅ Q.
Proof.
  intros HR Hi Hj Hij Hne Hsrc HQ. set (u := mkView _ _ _ _ _) in HR.
  assert (Hui : v_held u !! i = Some dst) by (simpl; now rewrite lookup_insert_ne, lookup_insert_eq by done).
  assert (Huj : v_held u !! j = Some src) by (simpl; now rewrite lookup_insert_eq).
  assert (Hdat : b_data (the_buf j st) = v_cur v src).
  { destruct (held_cell w _ _ _ _ HR Huj) as (_ & Hc & _). unfold cell in Hc. now inversion Hc. }
  sgo. rewrite Hdat.
  pose proof (rep_put w _ _ i dst (v_cur v src) HR Hui (proj1 (rep_size _ _ _ HR src))) as H1.
  eapply srun_bind, (bwrite_run w _ _ i dst); [exact H1|exact Hui|]. intros st2 H2 S2 _.
  eapply srun_bind, (brelse_run w _ _ j src); [exact H2|exact Huj| |].
  { simpl. rewrite !fn_lookup_insert_ne by done. destruct Hsrc as [Hs|Hs]; [left; set_solver|now right]. }
  intros st3 H3 S3. eapply srun_bind, (brelse_run w _ _ i dst); [exact H3| | |].
  { simpl. rewrite lookup_delete_ne by done. exact Hui. }
  { right. simpl. now rewrite !fn_lookup_insert. }
  intros st4 H4 S4. apply HQ; [|transitivity st3; [transitivity st2; [exact S2|exact S3]|exact S4]].
  replace (copy dst src v) with (unhold i (unhold j (flush dst (put dst (v_cur v src) u)))); [exact H4|].
  unfold unhold, flush, put, copy, u. simpl. f_equal.
  rewrite delete_insert_id, delete_insert_id; [done|done|]. now rewrite lookup_insert_ne.
Qed.

Lemma log_at_run bs st t e (Q : Z -> storage -> Prop) :
  log_ok bs st -> bs !! t = Some e -> Q e st -> srun w ∅ (log_at (Z.of_nat t)) st ∅ Q.
Proof.
  intros Hl He HQ. unfold log_at. sgo. rewrite Nat2Z.id.
  assert (E : lg_block (st_log st) !! t = Some e).
  { rewrite <- (lo_bs _ _ Hl) in He. rewrite lookup_take_Some in He. apply He. }
  rewrite E. now apply srun_ret.
Qed.

Lemma slot_facts bs st t : log_ok bs st -> (t < length bs)%nat ->
  let b := lg_start (st_log st) + Z.of_nat t + 1 in
  u32 b = b /\ 0 <= b < st_disksize st /\ ~ outside (st_log st) b /\ b <> lg_start (st_log st).
Proof.
  intros Hl Ht. destruct Hl. unfold outside. simpl. split; [apply u32_small|]; lia.
Qed.
Lemma entry_facts bs st t e : log_ok bs st -> bs !! t = Some e ->
  u32 e = e /\ 0 <= e < st_disksize st /\ outside (st_log st) e /\ e <> lg_start (st_log st) + Z.of_nat t + 1 /\ (t < length bs)%nat.
Proof.
  intros Hl He. pose proof (lookup_lt_Some _ _ _ He) as Hlt. destruct (slot_facts _ _ _ Hl Hlt) as (_ & _ & Ho & _).
  destruct (lo_home _ _ Hl e) as [Hr Hh]; [eapply list_elem_of_lookup_2; eauto|].
  split; [apply u32_small; destruct (lo_area _ _ Hl) as (_ & _ & ?); lia|]. split; [done|]. split; [done|]. split; [|done].
  intros ->. now apply Ho.
Qed.

Lemma write_log_run pre todo st v (Q : unit -> storage -> Prop) :
  log_ok (pre ++ todo) st -> Rep w st v -> v_held v = ∅ -> v_dirty v = list_to_set (pre ++ todo) ->
  (length (pre ++ todo) < NBUF)%nat ->
  (forall st', Rep w st' (copies (zip (slots (lg_start (st_log st)) (length pre) (length todo)) todo) v) ->
     same st st' -> Q tt st') ->
  srun w ∅ (write_log_loop (S (length todo)) (Z.of_nat (length pre))) st ∅ Q.
Proof.
  revert pre st v. induction todo as [|e todo IH]; intros pre st v Hl HR Hh Hd Hn HQ; cbn [write_log_loop]; sgo;
    rewrite (lo_n _ _ Hl), length_app.
  - simpl. replace (_ <? _) with false by lia. sgo. apply HQ; [exact HR|reflexivity].
  - replace (_ <? _) with true by (simpl; lia). rewrite (lo_dev _ _ Hl).
    assert (He : (pre ++ e :: todo) !! length pre = Some e) by now rewrite list_lookup_middle.
    destruct (entry_facts _ _ _ _ Hl He) as (Hu & Hr & Ho & Hne & Hlt).
    destruct (slot_facts _ _ _ Hl Hlt) as (Hsu & Hsr & Hso & _). rewrite Hsu.
    set (b := lg_start (st_log st) + Z.of_nat (length pre) + 1) in *.
    eapply srun_bind, (bread_run w st v b); [exact HR|exact Hsr|now rewrite Hh| |].
    { right. rewrite Hh, map_size_empty, Hd, size_list_to_set by apply Hl. lia. }
    intros i st1 Hi HR1 S1 _. eapply srun_bind, (log_at_run (pre ++ e :: todo) st1 _ e); [now apply (log_ok_same _ st)|exact He|].
    rewrite Hu. eapply srun_bind, (bread_run w st1 (hold i b v) e); [exact HR1| | | |].
    { destruct S1 as [-> _]. exact Hr. }
    { intros j. simpl. rewrite Hh. rewrite insert_empty. intros [_ ?]%lookup_singleton_Some. congruence. }
    { left. simpl. rewrite Hd. set_solver. }
    intros j st2 Hj HR2 S2 _. simpl in Hj. apply lookup_insert_None in Hj as [Hj Hij].
    eapply (copy_run st2 v i j b e); [exact HR2|done|done|done|congruence|left; rewrite Hd; set_solver|].
    intros st3 HR3 S3. assert (S03 : same st st3) by (transitivity st2; [transitivity st1|]; done).
    replace (Z.of_nat (length pre) + 1) with (Z.of_nat (length (pre ++ [e]))) by (rewrite length_app; simpl; lia).
    assert (Hb : b ∉ pre ++ e :: todo) by (intros [_ Hx]%(lo_home _ _ Hl); done).
    apply (IH (pre ++ [e]) st3 (copy b e v)); rewrite <- ?app_assoc; simpl; [|done|done| |done|].
    + apply (log_ok_same _ _ _ S03 Hl).
    + rewrite Hd. apply set_eq. intros x. rewrite elem_of_difference, elem_of_list_to_set. set_solver.
    + intros st' HR' S'. apply HQ; [|now transitivity st3].
      destruct S03 as (_ & EL & _). rewrite EL, length_app in HR'. simpl in HR'.
      replace (length pre + 1)%nat with (S (length pre)) in HR' by lia. exact HR'.
Qed.
Lemma install_run pre todo st v (Q : unit -> storage -> Prop) :
  log_ok (pre ++ todo) st -> Rep w st v -> v_held v = ∅ -> (forall x, x ∈ v_dirty v -> outside (st_log st) x) ->
  (size (v_dirty v) < NBUF)%nat -> ((forall e, e ∈ todo -> e ∈ v_dirty v) \/ v_dirty v = ∅) ->
  (forall st', Rep w st' (copies (zip todo (slots (lg_start (st_log st)) (length pre) (length todo))) v) ->
     same st st' -> Q tt st') ->
  srun w ∅ (install_loop (S (length todo)) (Z.of_nat (length pre))) st ∅ Q.
Proof.
  revert pre st v. induction todo as [|e todo IH]; intros pre st v Hl HR Hh Hd Hn Hroom HQ; cbn [install_loop]; sgo;
    rewrite (lo_n _ _ Hl), length_app.
  - simpl. replace (_ <? _) with false by lia. sgo. apply HQ; [exact HR|reflexivity].
  - replace (_ <? _) with true by (simpl; lia). rewrite (lo_dev _ _ Hl).
    assert (He : (pre ++ e :: todo) !! length pre = Some e) by now rewrite list_lookup_middle.
    destruct (entry_facts _ _ _ _ Hl He) as (Hu & Hr & Ho & Hne & Hlt).
    destruct (slot_facts _ _ _ Hl Hlt) as (Hsu & Hsr & Hso & _). rewrite Hsu.
    set (b := lg_start (st_log st) + Z.of_nat (length pre) + 1) in *.
    eapply srun_bind, (bread_run w st v b); [exact HR|exact Hsr|now rewrite Hh| |].
    { right. rewrite Hh, map_size_empty. lia. }
    intros i st1 Hi HR1 S1 _. eapply srun_bind, (log_at_run (pre ++ e :: todo) st1 _ e); [now apply (log_ok_same _ st)|exact He|].
    rewrite Hu. eapply srun_bind, (bread_run w st1 (hold i b v) e); [exact HR1| | | |].
    { destruct S1 as [-> _]. exact Hr. }
    { intros j. simpl. rewrite Hh. rewrite insert_empty. intros [_ ?]%lookup_singleton_Some. congruence. }
    { simpl. destruct Hroom as [Hr1|Hr1]; [left; apply Hr1; now left|right].
      rewrite Hh, Hr1, insert_empty, map_size_singleton, size_empty. unfold NBUF. lia. }
    intros j st2 Hj HR2 S2 _. simpl in Hj. apply lookup_insert_None in Hj as [Hj Hij].
    eapply (copy_run st2 v j i e b); [|done|done|done|congruence| |].
    { unfold hold in HR2. simpl in HR2. rewrite insert_insert_ne by done. exact HR2. }
    { right. apply (rep_coh _ _ _ HR); [intros Hx; now apply Hso, Hd|now rewrite Hh]. }
    intros st3 HR3 S3. assert (S03 : same st st3) by (transitivity st2; [transitivity st1|]; done).
    replace (Z.of_nat (length pre) + 1) with (Z.of_nat (length (pre ++ [e]))) by (rewrite length_app; simpl; lia).
    pose proof S03 as (_ & EL & _).
    apply (IH (pre ++ [e]) st3 (copy e b v)); rewrite <- ?app_assoc; simpl; [|done|done| | | |].
    + apply (log_ok_same _ _ _ S03 Hl).
    + intros x Hx. rewrite EL. apply Hd. set_solver.
    + eapply Nat.le_lt_trans; [apply subseteq_size, subseteq_difference_l; reflexivity|exact Hn].
    + destruct Hroom as [Hr1|Hr1]; [left|right; rewrite Hr1; set_solver].
      intros x Hx. assert (x <> e); [|set_solver]. intros ->. pose proof (lo_nodup _ _ Hl) as Hnd.
      apply NoDup_app in Hnd as (_ & _ & [Hnd _]%NoDup_cons). done.
    + intros st' HR' S'. apply HQ; [|now transitivity st3]. rewrite EL, length_app in HR'. simpl in HR'.
      replace (length pre + 1)%nat with (S (length pre)) in HR' by lia. exact HR'.
Qed.
Lemma rep_upd_log st v f : Rep w st v -> Rep w (upd_log f st) v.
Proof. intros [? ? ? ? ? ? ? ? ? ?]. constructor; done. Qed.

(** Views with the same contents describe the same storage. *)
Lemma rep_ext st v cur disk : Rep w st v -> (forall b, cur b = v_cur v b) -> (forall b, disk b = v_disk v b) ->
  Rep w st (mkView cur disk (v_dirty v) (v_writes v) (v_held v)).
Proof.
  intros [HL HR HC HU HD HH HO HB HW HS] Hc Hd. constructor; simpl; try done.
  - intros i Hi. specialize (HC i Hi). unfold in_cell in *. simpl. now rewrite Hc.
  - intros b. rewrite Hc, Hd. apply HO.
  - intros b. now rewrite Hd.
  - intros b. now rewrite Hc, Hd.
Qed.

Lemma put_put_rep st b d d' v : Rep w st (put b d' (put b d v)) -> Rep w st (put b d' v).
Proof.
  intros HR. apply (rep_ext _ _ (v_cur (put b d' v)) (v_disk v)) in HR; [exact HR| |done].
  intros c. simpl. destruct (decide (b = c)) as [<-|Hne]; [now rewrite !fn_lookup_insert|now rewrite !fn_lookup_insert_ne].
Qed.

Lemma write_entries_run pre todo st v i b (Q : unit -> storage -> Prop) :
  log_ok (pre ++ todo) st -> Rep w st v -> v_held v !! i = Some b ->
  (forall st', Rep w st' (put b (put_entries (Z.of_nat (length pre)) todo (v_cur v b)) v) -> same st st' -> Q tt st') ->
  srun w ∅ (write_entries (S (length todo)) i (Z.of_nat (length pre))) st ∅ Q.
Proof.
  revert pre st v. induction todo as [|e todo IH]; intros pre st v Hl HR Hh HQ; cbn [write_entries]; sgo;
    rewrite (lo_n _ _ Hl), length_app.
  - simpl. replace (_ <? _) with false by lia. sgo. apply HQ; [|reflexivity].
    apply (rep_ext _ _ (v_cur (put b (v_cur v b) v)) (v_disk v)) in HR; [exact HR| |done].
    intros c. simpl. destruct (decide (b = c)) as [<-|Hne]; [now rewrite fn_lookup_insert|now rewrite fn_lookup_insert_ne].
  - replace (_ <? _) with true by (simpl; lia).
    eapply srun_bind, (log_at_run (pre ++ e :: todo) st _ e); [done|now rewrite list_lookup_middle|]. sgo.
    replace (Z.of_nat (length pre) + 1) with (Z.of_nat (length (pre ++ [e]))) by (rewrite length_app; simpl; lia).
    eapply (IH (pre ++ [e]) _ (put b (put32 (4 + 4 * Z.of_nat (length pre)) e (v_cur v b)) v)).
    + rewrite <- app_assoc. apply (log_ok_same _ st); [now repeat split|exact Hl].
    + apply (rep_edit w st v i b (put32 (4 + 4 * Z.of_nat (length pre)) e)); [done|done|]. intros d. apply length_put32.
    + exact Hh.
    + intros st' HR' S'. apply HQ; [|etransitivity; [|exact S']; now repeat split].
      apply put_put_rep in HR'. simpl in HR' |- *. rewrite fn_lookup_insert in HR'.
      rewrite length_app in HR'. simpl in HR'.
      replace (Z.of_nat (length pre + 1)) with (Z.of_nat (length pre) + 1) in HR' by lia. exact HR'.
Qed.

Lemma write_head_run bs st v (Q : unit -> storage -> Prop) :
  log_ok bs st -> Rep w st v -> v_held v = ∅ -> (size (v_dirty v) < NBUF)%nat ->
  (forall st', Rep w st' (flush (lg_start (st_log st)) (put (lg_start (st_log st)) (put_head bs (v_cur v (lg_start (st_log st)))) v)) ->
     same st st' -> Q tt st') ->
  srun w ∅ write_head st ∅ Q.
Proof.
  intros Hl HR Hh Hn HQ. unfold write_head. sgo. rewrite (lo_dev _ _ Hl). set (b := lg_start (st_log st)) in *.
  assert (Hb : u32 b = b /\ 0 <= b < st_disksize st).
  { destruct Hl as [? ? ? ? ? ? ? ?]. split; [apply u32_small|]; lia. }
  destruct Hb as [-> Hb].
  eapply srun_bind, (bread_run w st v b); [exact HR|exact Hb|now rewrite Hh|right; rewrite Hh, map_size_empty; lia|].
  intros i st1 Hi HR1 S1 _. sgo. rewrite (lo_n _ _ Hl), Nat2Z.id.
  assert (Hh1 : v_held (hold i b v) !! i = Some b) by apply lookup_insert_eq.
  pose proof (rep_edit w _ _ i b (put32 0 (Z.of_nat (length bs))) HR1 Hh1 (fun d => length_put32 _ _ d)) as HR2.
  set (st2 := upd_buf i _ st1) in *.
  eapply srun_bind, (write_entries_run [] bs st2 _ i b); [|exact HR2|exact Hh1|].
  { apply (log_ok_same _ st); [|exact Hl]. transitivity st1; [exact S1|now repeat split]. }
  intros st3 HR3 S3. apply put_put_rep in HR3. simpl in HR3. rewrite fn_lookup_insert in HR3.
  eapply srun_bind, (bwrite_run w _ _ i b); [exact HR3|exact Hh1|]. intros st4 HR4 S4 _.
  eapply (brelse_run w _ _ i b); [exact HR4|exact Hh1|right; simpl; now rewrite !fn_lookup_insert|].
  intros st5 HR5 S5. apply HQ.
  - replace (flush b _) with (unhold i (flush b (put b (put_entries 0 bs (put32 0 (Z.of_nat (length bs)) (v_cur v b))) (hold i b v)))); [exact HR5|].
    unfold unhold, flush, put, hold, put_head. simpl. f_equal. now rewrite delete_insert_id.
  - transitivity st4; [|done]. transitivity st3; [|done]. transitivity st2; [|done]. transitivity st1; [done|now repeat split].
Qed.
Definition head_view (start : Z) (bs : list Z) (v : view) : view := flush start (put start (put_head bs (v_cur v start)) v).
Definition install_view (start : Z) (bs : list Z) (v : view) : view := copies (zip bs (slots start 0 (length bs))) v.
Definition commit_view (start : Z) (bs : list Z) (v : view) : view :=
  head_view start [] (install_view start bs (head_view start bs (copies (zip (slots start 0 (length bs)) bs) v))).

Lemma log_ok_clear bs st : log_ok bs st -> log_ok [] (upd_log (set_lg_n 0) st).
Proof.
  intros [? ? ? ? ? ? ? ?]. constructor; simpl; try done; [lia| |constructor]. intros b Hb. set_solver.
Qed.

Lemma slots_not_home bs st x : log_ok bs st -> x ∈ slots (lg_start (st_log st)) 0 (length bs) ->
  ~ outside (st_log st) x /\ x <> lg_start (st_log st) /\ x ∉ bs.
Proof.
  intros Hl (i & -> & Hi)%list_elem_of_fmap. apply elem_of_seq in Hi. assert (Hlt : (i < length bs)%nat) by lia.
  destruct (slot_facts _ _ _ Hl Hlt) as (_ & _ & Ho & Hs). split; [done|]. split; [done|].
  intros [_ Hx]%(lo_home _ _ Hl). done.
Qed.

Lemma length_slots start t n : length (slots start t n) = n.
Proof. unfold slots. now rewrite length_fmap, length_seq. Qed.

Lemma NoDup_slots start t n : NoDup (slots start t n).
Proof. apply NoDup_fmap_2; [|apply NoDup_seq]. intros x y E. lia. Qed.

Lemma write_pairs bs st : log_ok bs st ->
  let l := zip (slots (lg_start (st_log st)) 0 (length bs)) bs in
  NoDup l.*1 /\ (forall s, s ∈ l.*2 -> s ∉ l.*1) /\ l.*1 = slots (lg_start (st_log st)) 0 (length bs) /\ l.*2 = bs.
Proof.
  intros Hl l. assert (E1 : l.*1 = slots (lg_start (st_log st)) 0 (length bs)) by (apply fst_zip; now rewrite length_slots).
  assert (E2 : l.*2 = bs) by (apply snd_zip; now rewrite length_slots). rewrite E1, E2.
  split; [apply NoDup_slots|]. split; [|done]. intros s Hs Hx. now apply (slots_not_home _ _ _ Hl) in Hx as (_ & _ & Hn).
Qed.

Lemma install_pairs bs st : log_ok bs st ->
  let l := zip bs (slots (lg_start (st_log st)) 0 (length bs)) in
  NoDup l.*1 /\ (forall s, s ∈ l.*2 -> s ∉ l.*1) /\ l.*1 = bs /\ l.*2 = slots (lg_start (st_log st)) 0 (length bs).
Proof.
  intros Hl l. assert (E1 : l.*1 = bs) by (apply fst_zip; now rewrite length_slots).
  assert (E2 : l.*2 = slots (lg_start (st_log st)) 0 (length bs)) by (apply snd_zip; now rewrite length_slots).
  rewrite E1, E2. split; [apply Hl|]. split; [|done]. intros s Hs Hx. now apply (slots_not_home _ _ _ Hl) in Hs as (_ & _ & Hn).
Qed.

Lemma commit_run bs st v (Q : unit -> storage -> Prop) :
  log_ok bs st -> Rep w st v -> v_held v = ∅ -> v_dirty v = list_to_set bs -> (0 < length bs < NBUF)%nat ->
  (forall st1, Rep w st1 (commit_view (lg_start (st_log st)) bs v) ->
     same (upd_log (set_lg_n 0) st) st1 -> Q tt st1) ->
  srun w ∅ commit st ∅ Q.
Proof.
  intros Hl HR Hh Hd Hn HQ. unfold commit. sgo. rewrite (lo_n _ _ Hl). replace (0 <? _) with true by lia. cbn [when].
  set (start := lg_start (st_log st)) in *.
  destruct (write_pairs _ _ Hl) as (HW1 & HW2 & HW3 & HW4).
  destruct (copies_spec _ v HW1 HW2) as (_ & _ & _ & Ed & Eh). fold start in Ed, Eh, HW3.
  assert (Hstart : start ∉ (list_to_set bs : gset Z)).
  { rewrite elem_of_list_to_set. intros [_ Hx]%(lo_home _ _ Hl). destruct Hl. unfold outside in Hx. subst start. lia. }
  assert (Hslots : list_to_set bs ∖ list_to_set (slots start 0 (length bs)) = (list_to_set bs : gset Z)).
  { apply set_eq. intros x. rewrite elem_of_difference, !elem_of_list_to_set. split; [tauto|]. intros Hx. split; [done|].
    intros Hx'. now apply (slots_not_home _ _ _ Hl) in Hx' as (_ & _ & ?). }
  eapply srun_bind. unfold write_log. sgo. rewrite (lo_n _ _ Hl), Nat2Z.id.
  apply (write_log_run [] bs st v); [done..|simpl; lia|]. simpl. fold start. intros st1 HR1 S1.
  pose proof (log_ok_same _ _ _ S1 Hl) as Hl1. pose proof S1 as (_ & L1 & _).
  eapply srun_bind, (write_head_run bs st1); [exact Hl1|exact HR1|now rewrite Eh| |].
  { rewrite Ed, Hd, HW3, Hslots, size_list_to_set by apply Hl. lia. }
  rewrite L1. fold start. intros st2 HR2 S2. set (v2 := flush start _) in HR2.
  assert (Ed2 : v_dirty v2 = list_to_set bs).
  { subst v2. simpl. rewrite Ed, Hd, HW3, Hslots. clear -Hstart. set_solver. }
  assert (Eh2 : v_held v2 = ∅) by (subst v2; simpl; now rewrite Eh).
  pose proof (log_ok_same _ _ _ S2 Hl1) as Hl2. pose proof S2 as (_ & L2 & _).
  eapply srun_bind. unfold install_trans. sgo. rewrite (lo_n _ _ Hl2), Nat2Z.id.
  apply (install_run [] bs st2 v2); [exact Hl2|exact HR2|exact Eh2| | | |].
  { intros x. rewrite Ed2, elem_of_list_to_set. apply Hl2. }
  { rewrite Ed2, size_list_to_set by apply Hl. lia. }
  { left. intros e He. now rewrite Ed2, elem_of_list_to_set. }
  rewrite L2, L1. fold start. intros st3 HR3 S3. sgo.
  destruct (install_pairs _ _ Hl) as (HI1 & HI2 & HI3 & _). fold start in HI1, HI2, HI3.
  destruct (copies_spec _ v2 HI1 HI2) as (_ & _ & _ & Ed3 & Eh3).
  pose proof (log_ok_same _ _ _ S3 Hl2) as Hl3. pose proof S3 as (_ & L3 & _).
  eapply (write_head_run []); [now apply (log_ok_clear bs)|apply rep_upd_log, HR3|simpl; now rewrite Eh3| |].
  { simpl. rewrite Ed3, Ed2, HI3, difference_diag_L, size_empty. unfold NBUF. lia. }
  simpl. rewrite L3, L2, L1. fold start. intros st4 HR4 S4. apply HQ; [exact HR4|].
  assert (S03 : same st st3) by (transitivity st2; [transitivity st1|]; done).
  transitivity (upd_log (set_lg_n 0) st3); [|exact S4].
  destruct S03 as (? & E & ? & ? & ? & ? & ?). repeat split; try done. simpl. now rewrite E.
Qed.
End Runs.

(** The blocks [commit] writes to the disk, in this order. *)
Definition commit_writes (start : Z) (bs : list Z) (cur : Z -> list Z) : list (Z * list Z) :=
  zip (slots start 0 (length bs)) (cur <$> bs) ++ [(start, put_head bs (cur start))] ++
  zip bs (cur <$> bs) ++ [(start, put_head [] (put_head bs (cur start)))].

Lemma copy_writes_zip a b v : copy_writes (zip a b) v = zip a (v_cur v <$> b).
Proof. unfold copy_writes. revert b. induction a as [|x a IH]; intros [|y b]; simpl; f_equal; auto. Qed.

Lemma zip_fst {A} (a : list Z) (b : list A) : length a = length b -> (zip a b).*1 = a.
Proof. intros E. apply fst_zip. lia. Qed.

Lemma head_view_spec start bs v :
  v_writes (head_view start bs v) = v_writes v ++ [(start, put_head bs (v_cur v start))] /\
  v_disk (head_view start bs v) = replay [(start, put_head bs (v_cur v start))] (v_disk v) /\
  v_cur (head_view start bs v) = <[start := put_head bs (v_cur v start)]> (v_cur v) /\
  v_dirty (head_view start bs v) = v_dirty v ∖ {[start]} /\ v_held (head_view start bs v) = v_held v.
Proof. unfold head_view. simpl. now rewrite fn_lookup_insert. Qed.

Lemma commit_view_spec bs st v : log_ok bs st -> v_dirty v = list_to_set bs ->
  let start := lg_start (st_log st) in let ws := commit_writes start bs (v_cur v) in
  v_writes (commit_view start bs v) = v_writes v ++ ws /\
  v_disk (commit_view start bs v) = replay ws (v_disk v) /\
  v_dirty (commit_view start bs v) = ∅ /\ v_held (commit_view start bs v) = v_held v.
Proof.
  intros Hl Hd start ws. unfold commit_view. set (v1 := copies (zip (slots start 0 (length bs)) bs) v).
  destruct (write_pairs _ _ Hl) as (HW1 & HW2 & HW3 & _). fold start in HW1, HW2, HW3.
  destruct (copies_spec _ v HW1 HW2) as (Ew1 & Ec1 & Ed1 & Edir1 & Eh1). fold v1 in Ew1, Ec1, Ed1, Edir1, Eh1.
  rewrite copy_writes_zip in Ew1, Ec1, Ed1.
  assert (Hk : (zip (slots start 0 (length bs)) (v_cur v <$> bs)).*1 = slots start 0 (length bs))
    by (apply zip_fst; now rewrite length_slots, length_fmap).
  assert (Es1 : v_cur v1 start = v_cur v start).
  { rewrite Ec1. apply replay_out. rewrite Hk. intros Hx. now apply (slots_not_home _ _ _ Hl) in Hx as (_ & ? & _). }
  destruct (head_view_spec start bs v1) as (Ew2 & Ed2 & Ec2 & Edir2 & Eh2).
  set (v2 := head_view start bs v1) in *. unfold install_view. rewrite Es1 in *.
  destruct (install_pairs _ _ Hl) as (HI1 & HI2 & HI3 & _). fold start in HI1, HI2, HI3.
  destruct (copies_spec _ v2 HI1 HI2) as (Ew3 & Ec3 & Ed3 & Edir3 & Eh3). rewrite copy_writes_zip in Ew3, Ec3, Ed3.
  set (v3 := copies _ v2) in *.
  assert (Esl : v_cur v2 <$> slots start 0 (length bs) = v_cur v <$> bs).
  { rewrite Ec2. apply list_eq. intros i. rewrite !list_lookup_fmap.
    destruct (slots start 0 (length bs) !! i) as [x|] eqn:Ex; simpl.
    - assert (Hx : x ∈ slots start 0 (length bs)) by (eapply list_elem_of_lookup_2; eauto).
      destruct (lookup_lt_is_Some_2 bs i) as [e He].
      { apply lookup_lt_Some in Ex. now rewrite length_slots in Ex. }
      rewrite He. simpl. f_equal. destruct (slots_not_home _ _ _ Hl Hx) as (_ & Hne & _).
      rewrite fn_lookup_insert_ne by done. rewrite Ec1. apply replay_in; [rewrite Hk; apply NoDup_slots|].
      apply list_elem_of_lookup. exists i. rewrite lookup_zip_with, Ex. simpl. now rewrite list_lookup_fmap, He.
    - symmetry. apply fmap_None, lookup_ge_None. apply lookup_ge_None in Ex. now rewrite length_slots in Ex. }
  rewrite Esl in *.
  assert (Hk2 : (zip bs (v_cur v <$> bs)).*1 = bs) by (apply zip_fst; now rewrite length_fmap).
  assert (Es3 : v_cur v3 start = put_head bs (v_cur v start)).
  { rewrite Ec3, replay_out, Ec2; [apply fn_lookup_insert|]. rewrite Hk2. intros [_ Hx]%(lo_home _ _ Hl).
    destruct Hl. unfold outside in Hx. subst start. lia. }
  destruct (head_view_spec start [] v3) as (-> & -> & _ & -> & ->). rewrite Es3, Ew3, Ew2, Ew1, Ed3, Ed2, Ed1.
  subst ws. unfold commit_writes. rewrite !replay_app, <- !app_assoc.
  rewrite Eh3, Eh2, Eh1, Edir3, Edir2, Edir1, Hd, HI3. repeat split. clear. set_solver.
Qed.

(** ** Building and ending a transaction *)
Section Transaction.
Context {W : Wait} (w : who).

Lemma log_put_run st hs i v (Q : unit -> storage -> Prop) :
  (Z.to_nat i < length (lg_block (st_log st)))%nat ->
  Q tt (upd_log (fun l => set_lg_block (<[Z.to_nat i := v]> (lg_block l)) l) st) -> srun w hs (log_put i v) st hs Q.
Proof.
  intros Hi HQ. unfold log_put, log_at. sgo. destruct (lookup_lt_is_Some_2 _ _ Hi) as [x ->]. sgo. exact HQ.
Qed.

Lemma log_index_spec bs st b : log_ok bs st -> 0 <= b < st_disksize st ->
  match find_idx (fun e => e =? b) bs with
  | Some i => log_index b (st_log st) = Z.of_nat i /\ bs !! i = Some b
  | None => log_index b (st_log st) = Z.of_nat (length bs) /\ b ∉ bs
  end.
Proof.
  intros Hl Hb. unfold log_index. rewrite (lo_n _ _ Hl), Nat2Z.id, (lo_bs _ _ Hl).
  assert (E : forall l, (forall x, x ∈ l -> x ∈ bs) -> find_idx (fun e => u32 e =? b) l = find_idx (fun e => e =? b) l).
  { induction l as [|x l IH]; intros Hx; simpl; [done|]. rewrite IH by (intros y Hy; apply Hx; now right).
    destruct (lo_home _ _ Hl x) as [Hr _]; [apply Hx; now left|]. destruct (lo_area _ _ Hl) as (_ & _ & ?).
    now rewrite u32_small by lia. }
  rewrite E by done. destruct (find_idx _ bs) as [i|] eqn:Ef.
  - apply find_idx_Some in Ef as [(x & Hx & Hxb%Z.eqb_eq) _]. split; [done|]. congruence.
  - split; [done|]. apply find_idx_None in Ef. rewrite Forall_forall in Ef. intros Hin.
    specialize (Ef b Hin). rewrite Z.eqb_refl in Ef. discriminate.
Qed.

(** The entries of the log after a block is written. *)
Definition absorb (b : Z) (bs : list Z) : list Z := if bool_decide (b ∈ bs) then bs else bs ++ [b].

Lemma log_ok_absorb bs st b blk :
  log_ok bs st -> 0 <= b < st_disksize st -> outside (st_log st) b -> Z.of_nat (length bs) + 2 <= lg_size (st_log st) ->
  b ∉ bs -> length blk = Z.to_nat LOGSIZE -> take (S (length bs)) blk = bs ++ [b] ->
  log_ok (bs ++ [b]) (upd_log (fun l => set_lg_n (lg_n l + 1) (set_lg_block blk l)) st).
Proof.
  intros [H1 H2 H3 H4 H5 H6 H7 H8] Hb Ho Hs Hn Hl Ht. constructor; simpl; rewrite ?length_app, ?Nat.add_1_r; simpl; try done; try lia.
  - intros x [Hx| ->%list_elem_of_singleton]%elem_of_app; [now apply H7|done].
  - apply NoDup_app. split; [done|]. split; [set_solver|apply NoDup_singleton].
Qed.

Lemma log_write_run bs st v i b (Q : unit -> storage -> Prop) :
  log_ok bs st -> Rep w st v -> v_held v !! i = Some b -> 1 <= lg_outstanding (st_log st) ->
  (length bs < Z.to_nat LOGSIZE)%nat -> Z.of_nat (length bs) + 2 <= lg_size (st_log st) -> outside (st_log st) b ->
  (forall st' blk, length blk = Z.to_nat LOGSIZE -> log_ok (absorb b bs) st' -> Rep w st' (pin b v) ->
     same (upd_log (fun l => set_lg_n (Z.of_nat (length (absorb b bs))) (set_lg_block blk l)) st) st' -> Q tt st') ->
  srun w ∅ (log_write i) st ∅ Q.
Proof.
  intros Hl HR Hh Ho Hn Hs Hout HQ. destruct (held_cell w _ _ _ _ HR Hh) as (Hi & Hc & Hb & _).
  unfold log_write. sgo. rewrite (lo_n _ _ Hl).
  replace ((LOGSIZE <=? _) || _) with false by (unfold LOGSIZE, MAXOPBLOCKS in *; lia).
  replace (_ <? 1) with false by lia. sgo.
  assert (Hbn : b_blockno (the_buf i st) = b) by (unfold cell in Hc; now inversion Hc). rewrite Hbn.
  assert (Hs32 : s32 b = b) by (apply s32_small; destruct (lo_area _ _ Hl) as (_ & _ & ?); lia). rewrite Hs32.
  pose proof (log_index_spec bs st b Hl Hb) as Hidx. pose proof (lo_len _ _ Hl) as Hlen.
  destruct (find_idx _ bs) as [k|] eqn:Ef; destruct Hidx as [-> Hin].
  - assert (Hk : (k < length bs)%nat) by (eapply lookup_lt_Some; eauto).
    eapply srun_bind, log_put_run; [lia|]. rewrite (lo_n _ _ Hl), Nat2Z.id. replace (_ =? _) with false by lia. cbn [when]. sgo.
    assert (Ea : absorb b bs = bs) by (unfold absorb; rewrite bool_decide_eq_true_2; [done|eapply list_elem_of_lookup_2, Hin]).
    assert (Eb : <[k:=b]> (lg_block (st_log st)) = lg_block (st_log st)).
    { apply list_insert_id. rewrite <- (lo_bs _ _ Hl) in Hin. rewrite lookup_take_Some in Hin. apply Hin. }
    apply (HQ _ (lg_block (st_log st))); [done| |apply (rep_pin w _ _ i b); [now apply rep_upd_log|done]|];
      rewrite ?Ea.
    + destruct Hl as [? ? ? ? ? ? ? ?]. constructor; simpl; rewrite ?Eb; done.
    + repeat split. simpl. rewrite Eb. unfold set_lg_n, set_lg_block. simpl. f_equal. apply (lo_n _ _ Hl).
  - eapply srun_bind, log_put_run; [lia|]. rewrite (lo_n _ _ Hl), Nat2Z.id. replace (_ =? _) with true by lia. cbn [when]. sgo.
    assert (Ea : absorb b bs = bs ++ [b]) by (unfold absorb; now rewrite bool_decide_eq_false_2).
    assert (Ht : take (S (length bs)) (<[length bs := b]> (lg_block (st_log st))) = bs ++ [b]).
    { erewrite take_S_r by (apply list_lookup_insert_eq; lia). rewrite take_insert_ge by lia. now rewrite (lo_bs _ _ Hl). }
    apply (HQ _ (<[length bs := b]> (lg_block (st_log st)))); [now rewrite length_insert| |apply (rep_pin w _ _ i b); [now apply rep_upd_log, rep_upd_log|done]|];
      rewrite ?Ea.
    + apply (log_ok_same _ (upd_log (fun l => set_lg_n (lg_n l + 1) (set_lg_block (<[length bs := b]> (lg_block (st_log st))) l)) st)); [now repeat split|].
      apply log_ok_absorb; try done. now rewrite length_insert.
    + repeat split. simpl. unfold set_lg_n, set_lg_block. simpl. f_equal. rewrite (lo_n _ _ Hl), length_app. simpl. lia.
Qed.
Lemma begin_op_run st (Q : unit -> storage -> Prop) :
  lg_committing (st_log st) = 0 -> lg_n (st_log st) + (lg_outstanding (st_log st) + 1) * MAXOPBLOCKS <= LOGSIZE ->
  Q tt (upd_log (set_lg_outstanding (lg_outstanding (st_log st) + 1)) st) -> srun w ∅ begin_op st ∅ Q.
Proof.
  intros Hc Hn HQ. unfold begin_op. sgo. unfold begin_op_loop.
  assert (E : (LOGSIZE <? lg_n (st_log st) + (lg_outstanding (st_log st) + 1) * MAXOPBLOCKS) = false) by lia.
  destruct wait_bound; sgo; rewrite Hc, E; cbn [Z.eqb negb orb]; sgo; exact HQ.
Qed.

Lemma log_ok_fields bs st f : log_ok bs st ->
  (forall l, lg_start (f l) = lg_start l /\ lg_size (f l) = lg_size l /\ lg_dev (f l) = lg_dev l /\ lg_n (f l) = lg_n l /\ lg_block (f l) = lg_block l) ->
  log_ok bs (upd_log f st).
Proof.
  intros [? ? ? ? ? ? ? ?] Hf. destruct (Hf (st_log st)) as (E1 & E2 & E3 & E4 & E5).
  constructor; unfold outside in *; simpl; rewrite ?E1, ?E2, ?E3, ?E4, ?E5; done.
Qed.

Lemma commit_home bs st v b : log_ok bs st -> Rep w st v -> v_held v = ∅ -> v_dirty v = list_to_set bs -> outside (st_log st) b ->
  replay (commit_writes (lg_start (st_log st)) bs (v_cur v)) (v_disk v) b = v_cur v b.
Proof.
  intros Hl HR Hh Hd Ho. unfold commit_writes. rewrite !replay_app.
  assert (Hs : b <> lg_start (st_log st)) by (intros ->; unfold outside in Ho; destruct Hl; lia).
  rewrite (replay_out [(_, put_head [] _)]) by (simpl; set_solver).
  assert (Hk : (zip bs (v_cur v <$> bs)).*1 = bs) by (apply zip_fst; now rewrite length_fmap).
  destruct (decide (b ∈ bs)) as [Hin|Hin].
  - apply replay_in; [rewrite Hk; apply Hl|]. apply list_elem_of_lookup in Hin as [i Hi]. apply list_elem_of_lookup. exists i.
    rewrite lookup_zip_with, Hi. simpl. now rewrite list_lookup_fmap, Hi.
  - rewrite replay_out by now rewrite Hk. rewrite replay_out by (simpl; set_solver). rewrite replay_out.
    + symmetry. apply (rep_coh _ _ _ HR); [now rewrite Hd, elem_of_list_to_set|now rewrite Hh].
    + rewrite zip_fst by now rewrite length_slots, length_fmap. intros Hx. now apply (slots_not_home _ _ _ Hl) in Hx as [? _].
Qed.

Lemma log_ok_blocks bs st blk f : log_ok bs (upd_log f st) -> length blk = Z.to_nat LOGSIZE ->
  (forall l, lg_start (f l) = lg_start l /\ lg_size (f l) = lg_size l /\ lg_dev (f l) = lg_dev l) ->
  log_ok [] (upd_log (fun l => set_lg_block blk (set_lg_n 0 l)) st).
Proof.
  intros [? ? ? ? ? ? ? ?] Hb Hf. destruct (Hf (st_log st)) as (E1 & E2 & E3). simpl in *. rewrite E1, E2, E3 in *.
  constructor; simpl; try done; [lia| |constructor]. intros b Hin. now apply not_elem_of_nil in Hin.
Qed.

(** Between transactions: nothing held or pinned, an empty log, no system call
    in progress. *)
Definition ready (st : storage) : Prop :=
  exists v, Rep w st v /\ v_held v = ∅ /\ v_dirty v = ∅ /\ log_ok [] st /\
    lg_outstanding (st_log st) = 0 /\ lg_committing (st_log st) = 0.

(** The last [end_op] of a group of system calls commits. *)
Lemma end_op_run bs st v (Q : unit -> storage -> Prop) :
  log_ok bs st -> Rep w st v -> v_held v = ∅ -> v_dirty v = list_to_set bs -> (length bs < NBUF)%nat ->
  lg_outstanding (st_log st) = 1 -> lg_committing (st_log st) = 0 ->
  (forall st', (exists v', Rep w st' v' /\ v_held v' = ∅ /\ v_dirty v' = ∅) ->
     same (upd_log (fun l => set_lg_committing 0 (set_lg_outstanding 0 (set_lg_n 0 l))) st) st' ->
     st_writes st' = st_writes st ++ (if bs is [] then [] else commit_writes (lg_start (st_log st)) bs (v_cur v)) ->
     (forall b, outside (st_log st) b -> block b st' = v_cur v b) -> Q tt st') ->
  srun w ∅ end_op st ∅ Q.
Proof.
  intros Hl HR Hh Hd Hn Ho Hc HQ. unfold end_op. sgo. cbn [upd_log set_log st_log set_lg_outstanding lg_committing lg_outstanding].
  rewrite Hc, Ho. change (1 - 1) with 0. cbn [Z.eqb negb]. sgo. cbn [when].
  set (st2 := upd_log (set_lg_committing 1) _).
  assert (Hl2 : log_ok bs st2) by (apply log_ok_fields; [apply log_ok_fields|]; done).
  assert (HR2 : Rep w st2 v) by now apply rep_upd_log, rep_upd_log.
  assert (Hfin : forall st3, (exists v', Rep w st3 v' /\ v_held v' = ∅ /\ v_dirty v' = ∅) -> same (upd_log (set_lg_n 0) st2) st3 ->
     st_writes st3 = st_writes st ++ (if bs is [] then [] else commit_writes (lg_start (st_log st)) bs (v_cur v)) ->
     (forall b, outside (st_log st) b -> block b st3 = v_cur v b) ->
     srun w ∅ (kacquire LOG_LOCK ;;; modst (upd_log (set_lg_committing 0)) ;;; wakeup LOG_CHAN ;;; krelease LOG_LOCK) st3 ∅ Q).
  { intros st3 (v' & HR3 & Hv) S3 Hw3 Hb3. sgo. eapply srun_bind, srun_wakeup; [set_solver|kset|]. sgo.
    apply HQ; [exists v'; split; [now apply rep_upd_log|done]| |done|done].
    destruct S3 as (? & E & ? & ? & ? & ? & ?). repeat split; try done. simpl. rewrite E. simpl.
    unfold set_lg_committing, set_lg_outstanding, set_lg_n. simpl. now rewrite Ho. }
  destruct bs as [|e bs].
  - eapply srun_bind. unfold commit. sgo. rewrite (lo_n _ _ Hl2). apply srun_ret.
    apply Hfin; [exists v; rewrite Hd; done| |now rewrite app_nil_r|].
    + repeat split. simpl. unfold set_lg_n, set_lg_committing, set_lg_outstanding. simpl. now rewrite (lo_n _ _ Hl).
    + intros b _. rewrite (rep_coh _ _ _ HR b); [symmetry; apply (rep_disk _ _ _ HR)|rewrite Hd; set_solver|now rewrite Hh].
  - eapply srun_bind, (commit_run w (e :: bs) st2 v); [exact Hl2|exact HR2|exact Hh|exact Hd|split; [simpl; lia|exact Hn]|].
    change (lg_start (st_log st2)) with (lg_start (st_log st)). intros st3 HR3 S3.
    destruct (commit_view_spec (e :: bs) st v Hl Hd) as (Ew & Ed & Edir & Eh).
    apply Hfin; [eexists; split; [exact HR3|rewrite Eh, Edir; done]|exact S3| |].
    + now rewrite <- (rep_writes _ _ _ HR3), Ew, (rep_writes _ _ _ HR).
    + intros b Hb. rewrite <- (rep_disk _ _ _ HR3), Ed. now apply commit_home.
Qed.
End Transaction.

(** ** What [begin_op] promises *)
Section Reservation.
Context {W : Wait}.

(** One logged write, and three system calls by threads of one process: all are
    admitted, and the [i]-th block is written by the call [i / MAXOPBLOCKS].
    [ms j] is the processor that runs the [j]-th thread. *)
Definition log_block (b : Z) : M kfs unit :=
  bp <~ bread ROOTDEV b ;;
  log_write bp ;;;
  brelse bp.
Definition in_thread {A : Type} (m : mach) (c : M kfs A) : M kfs A := fun s => c (with_mach m s).
Definition three_calls (ms : nat -> mach) (bs : list Z) : M kfs unit :=
  in_thread (ms 0%nat) begin_op ;;;
  in_thread (ms 1%nat) begin_op ;;;
  in_thread (ms 2%nat) begin_op ;;;
  for_each (imap pair bs) (fun '(i, b) => in_thread (ms (i / Z.to_nat MAXOPBLOCKS)%nat) (log_block b)).

(** Three calls in progress that have logged the blocks [bs]. *)
Definition filled (w : who) (start dsz : Z) (bs : list Z) (st : storage) : Prop :=
  exists v, Rep w st v /\ v_held v = ∅ /\ v_dirty v = list_to_set bs /\ log_ok bs st /\
    lg_outstanding (st_log st) = 3 /\ lg_size (st_log st) = LOGSIZE /\ lg_start (st_log st) = start /\ st_disksize st = dsz.

Definition home (start dsz b : Z) : Prop := 0 <= b < dsz /\ (b < start \/ start + LOGSIZE <= b).

Lemma filled_room w bs st v b : Rep w st v -> v_held v = ∅ -> v_dirty v = list_to_set bs -> log_ok bs st ->
  (length bs < Z.to_nat LOGSIZE)%nat -> (forall i, v_held v !! i <> Some b) /\ (size (v_held v) + size (v_dirty v) < NBUF)%nat.
Proof.
  intros _ Hh Hd Hl Hn. rewrite Hh, Hd, map_size_empty, size_list_to_set by apply (lo_nodup _ _ Hl).
  split; [intros i; by rewrite lookup_empty|]. unfold LOGSIZE, MAXOPBLOCKS, NBUF in *. lia.
Qed.

Lemma log_block_run w start dsz bs st b (Q : unit -> storage -> Prop) :
  filled w start dsz bs st -> (length bs + 2 <= Z.to_nat LOGSIZE)%nat -> b ∉ bs -> home start dsz b ->
  (forall st', filled w start dsz (bs ++ [b]) st' -> Q tt st') -> srun w ∅ (log_block b) st ∅ Q.
Proof.
  intros (v & HR & Hh & Hd & Hl & Ho & Hsz & Hst & Hds) Hn Hb [Hb1 Hb2] HQ.
  destruct (filled_room w bs st v b HR Hh Hd Hl ltac:(lia)) as [Hno Hroom]. unfold log_block.
  eapply srun_bind, (bread_run w st v b); [exact HR|lia|exact Hno|now right|].
  intros i st2 Hi HR2 S2 _. pose proof S2 as (D2 & L2 & _).
  assert (Hhi : v_held (hold i b v) !! i = Some b) by apply lookup_insert_eq.
  eapply srun_bind, (log_write_run w bs st2 (hold i b v) i b); [now apply (log_ok_same _ st)|exact HR2|exact Hhi|rewrite L2; lia|lia| | |].
  { rewrite L2, Hsz. unfold LOGSIZE, MAXOPBLOCKS in *. lia. }
  { unfold outside. rewrite L2, Hst, Hsz. exact Hb2. }
  intros st3 blk _ Hl3 HR3 S3. pose proof S3 as (D3 & L3 & _).
  assert (Ea : absorb b bs = bs ++ [b]) by (unfold absorb; now rewrite bool_decide_eq_false_2). rewrite Ea in *.
  eapply (brelse_run w st3 _ i b); [exact HR3|exact Hhi|left; cbn [pin v_dirty]; set_solver|].
  intros st4 HR4 S4. pose proof S4 as (D4 & L4 & _). apply HQ. eexists. split; [exact HR4|]. split; [|split; [|split]].
  - cbn [unhold pin hold v_held]. rewrite Hh. now rewrite insert_empty, delete_singleton_eq.
  - cbn [unhold pin hold v_dirty]. rewrite Hd, list_to_set_app_L. set_solver.
  - now apply (log_ok_same _ st3).
  - rewrite D4, D3. cbn [st_disksize upd_log set_log]. rewrite L4, L3. cbn. rewrite L2, D2. done.
Qed.

(** With one slot left in the log's area nothing can be logged. *)
Lemma log_block_full w start dsz bs s b :
  env w ∅ s -> filled w start dsz bs (k_ext s) -> (length bs + 1 = Z.to_nat LOGSIZE)%nat -> home start dsz b ->
  log_block b s = Crash "too big a transaction".
Proof.
  intros He (v & HR & Hh & Hd & Hl & Ho & Hsz & Hst & Hds) Hn [Hb1 Hb2].
  destruct (filled_room w bs _ v b HR Hh Hd Hl ltac:(lia)) as [Hno Hroom]. unfold log_block.
  destruct (srun_done w (bread ROOTDEV b) s (fun _ st => st_log st = st_log (k_ext s))) as (i & s2 & Hr & _ & L2); [|exact He|].
  { eapply (bread_run w _ v b); [exact HR|lia|exact Hno|now right|]. intros i st2 _ _ (_ & L2 & _) _. exact L2. }
  rewrite (bind_done _ _ _ _ _ Hr). unfold log_write, getst, bind, gets. cbn [prog_bind].
  rewrite L2, Hsz, (lo_n _ _ Hl). replace ((_ <=? _) || (_ <=? _)) with true; [reflexivity|].
  symmetry. apply orb_true_iff. right. unfold LOGSIZE, MAXOPBLOCKS in *. lia.
Qed.

Lemma rep_who w w' st v : w_pid w' = w_pid w -> Rep w st v -> Rep w' st v.
Proof.
  intros E [? ? Hc ? ? ? ? ? ? ?]. constructor; try assumption. intros i Hi. destruct (Hc i Hi) as [H|H]; [now left|right].
  now rewrite E.
Qed.

Lemma filled_who w w' start dsz bs st : w_pid w' = w_pid w -> filled w start dsz bs st -> filled w' start dsz bs st.
Proof. intros E (v & HR & H). exists v. split; [now apply (rep_who w)|exact H]. Qed.

Section Threads.
Context (w : who) (start dsz : Z) (ms : nat -> mach) (xs : nat -> exe).
Context (Hms : forall j, (j < 3)%nat -> mst (xs j) ∅ (ms j) /\ x_proc (xs j) = x_proc (w_exe w)).

(** Some thread of the process runs. *)
Definition some_thread (s : kfs) : Prop := exists x, x_proc x = x_proc (w_exe w) /\ env (mkWho x (w_pid w) (w_kmem w)) ∅ s.

Lemma enter_thread s j : some_thread s -> (j < 3)%nat -> env (mkWho (xs j) (w_pid w) (w_kmem w)) ∅ (with_mach (ms j) s).
Proof.
  intros (x & Hx & _ & Hk & p & q & Hp & Hq & Hpid) Hj. destruct (Hms j Hj) as [Hm Hxj]. split; [exact Hm|]. split; [exact Hk|].
  exists p, q. cbn [w_exe] in *. split; [congruence|]. split; [exact Hq|exact Hpid].
Qed.

Lemma in_thread_run {A} s j (c : M kfs A) (P : storage -> Prop) :
  some_thread s -> (j < 3)%nat -> srun (mkWho (xs j) (w_pid w) (w_kmem w)) ∅ c (k_ext s) ∅ (fun _ st => P st) ->
  exists a s', in_thread (ms j) c s = Done a s' /\ some_thread s' /\ P (k_ext s').
Proof.
  intros Hs Hj Hc. destruct (srun_done _ c (with_mach (ms j) s) _ Hc (enter_thread s j Hs Hj)) as (a & s' & Hr & He & HP).
  exists a, s'. split; [exact Hr|]. split; [|exact HP]. exists (xs j). split; [apply (Hms j Hj)|exact He].
Qed.

Lemma log_blocks_run l : forall bs s, some_thread s -> filled w start dsz bs (k_ext s) ->
  (length bs + length l + 1 <= Z.to_nat LOGSIZE)%nat -> NoDup (bs ++ l.*2) -> Forall (home start dsz) l.*2 ->
  Forall (fun p => p.1 / Z.to_nat MAXOPBLOCKS < 3)%nat l ->
  exists s', for_each l (fun '(i, b) => in_thread (ms (i / Z.to_nat MAXOPBLOCKS)%nat) (log_block b)) s = Done tt s' /\
    some_thread s' /\ filled w start dsz (bs ++ l.*2) (k_ext s').
Proof.
  induction l as [|[i b] l IH]; intros bs s Hs Hf Hn Hd Hh Hi.
  - exists s. rewrite app_nil_r. done.
  - cbn [fmap list_fmap snd length] in *. apply Forall_cons in Hh as [Hb Hh], Hi as [Hi0 Hi]. cbn [fst] in Hi0.
    destruct (in_thread_run s _ (log_block b) (fun st => filled w start dsz (bs ++ [b]) st) Hs Hi0) as ([] & s1 & Hr & Hs1 & Hf1).
    { eapply log_block_run; [eapply filled_who; [|exact Hf]; reflexivity|lia| |exact Hb|].
      - apply NoDup_app in Hd as (_ & Hd & _). intros Hin. apply (Hd b Hin). now left.
      - intros st' Hf'. eapply filled_who; [|exact Hf']. reflexivity. }
    destruct (IH (bs ++ [b]) s1 Hs1 Hf1) as (s2 & Hr2 & Hs2 & Hf2); try done.
    { rewrite length_app. cbn [length]. lia. }
    { now rewrite <- app_assoc. }
    exists s2. rewrite <- app_assoc in Hf2. split; [|done]. cbn [for_each]. now rewrite (bind_done _ _ _ _ _ Hr).
Qed.

Lemma three_admitted s : some_thread s -> ready w (k_ext s) -> lg_size (st_log (k_ext s)) = LOGSIZE ->
  lg_start (st_log (k_ext s)) = start -> st_disksize (k_ext s) = dsz ->
  exists s', (forall A (k : M kfs A), (in_thread (ms 0%nat) begin_op ;;; in_thread (ms 1%nat) begin_op ;;; in_thread (ms 2%nat) begin_op ;;; k) s = k s') /\
    some_thread s' /\ filled w start dsz [] (k_ext s').
Proof.
  intros Hs (v & HR & Hh & Hd & Hl & Ho & Hc) Hsz Hst Hds.
  pose (P := fun n st => Rep w st v /\ log_ok [] st /\ lg_outstanding (st_log st) = n /\ lg_committing (st_log st) = 0 /\
    lg_size (st_log st) = LOGSIZE /\ lg_start (st_log st) = start /\ st_disksize st = dsz).
  assert (Hone : forall j s1, (j < 3)%nat -> some_thread s1 -> P (Z.of_nat j) (k_ext s1) ->
    exists s2, in_thread (ms j) begin_op s1 = Done tt s2 /\ some_thread s2 /\ P (Z.of_nat j + 1) (k_ext s2)).
  { intros j s1 Hj Hs1 (R1 & L1 & O1 & C1 & Z1 & S1 & D1).
    destruct (in_thread_run s1 j begin_op (P (Z.of_nat j + 1)) Hs1 Hj) as ([] & s2 & Hr & H2 & HP2); [|eauto].
    apply begin_op_run; [exact C1|rewrite (lo_n _ _ L1), O1; cbn [length]; unfold LOGSIZE, MAXOPBLOCKS; lia|].
    split; [now apply rep_upd_log|]. split; [now apply log_ok_fields|]. cbn. now rewrite O1. }
  destruct (Hone 0%nat s) as (s1 & R1 & H1 & P1); [lia|exact Hs|done|].
  destruct (Hone 1%nat s1) as (s2 & R2 & H2 & P2); [lia|exact H1|exact P1|].
  destruct (Hone 2%nat s2) as (s3 & R3 & H3 & HR3 & L3 & O3 & _ & Z3 & S3 & D3); [lia|exact H2|exact P2|].
  exists s3. split; [|split; [exact H3|exists v; done]]. intros A k. unfold bind. rewrite R1. cbn [prog_bind]. rewrite R2. cbn [prog_bind].
  now rewrite R3.
Qed.
End Threads.

Lemma for_each_app_done {A} (l l' : list A) (body : A -> M kfs unit) s s' :
  for_each l body s = Done tt s' -> for_each (l ++ l') body s = for_each l' body s'.
Proof.
  revert s. induction l as [|a l IH]; intros s H; cbn [for_each app] in *; [now injection H as <-|].
  unfold bind in *. destruct (body a s) as [[] s1| | |]; cbn [prog_bind] in *; try discriminate. now apply IH.
Qed.

(** C40. [begin_op] promises more than the log holds.  From a state with no
    system call in progress and an empty log of [LOGSIZE] blocks, as the file
    system has it, three system calls are admitted one after the other.  They
    then write [MAXOPBLOCKS] different blocks each: all but the last are logged,
    and the last [log_write] panics. *)
Theorem log_admits_too_much (w : who) (s : kfs) (ms : nat -> mach) (xs : nat -> exe) (bs : list Z) :
  env w ∅ s -> ready w (k_ext s) -> lg_size (st_log (k_ext s)) = LOGSIZE ->
  (forall j, (j < 3)%nat -> mst (xs j) ∅ (ms j) /\ x_proc (xs j) = x_proc (w_exe w)) ->
  length bs = (3 * Z.to_nat MAXOPBLOCKS)%nat -> NoDup bs ->
  Forall (home (lg_start (st_log (k_ext s))) (st_disksize (k_ext s))) bs ->
  (exists s', three_calls ms (take 29 bs) s = Done tt s' /\ log_ok (take 29 bs) (k_ext s')) /\
  three_calls ms bs s = Crash "too big a transaction".
Proof.
  intros He Hrd Hsz Hms Hlen Hnd Hhome.
  assert (Hs : some_thread w s) by (exists (w_exe w); split; [done|]; now destruct w).
  destruct (three_admitted w _ _ ms xs Hms s Hs Hrd Hsz eq_refl eq_refl) as (s1 & E1 & Hs1 & Hf1).
  assert (Hsnd : forall l : list Z, (imap pair l).*2 = l).
  { intros l. apply list_eq. intros i. rewrite list_lookup_fmap, list_lookup_imap. now destruct (l !! i). }
  destruct (lookup_lt_is_Some_2 bs 29) as [b Hb]; [rewrite Hlen; unfold MAXOPBLOCKS; lia|].
  destruct (log_blocks_run w _ _ ms xs Hms (imap pair (take 29 bs)) [] s1 Hs1 Hf1) as (s2 & R2 & Hs2 & Hf2).
  { rewrite length_imap, length_take. unfold LOGSIZE, MAXOPBLOCKS in *. cbn [length]. lia. }
  { rewrite Hsnd. cbn [app]. rewrite <- (take_drop 29 bs) in Hnd. now apply NoDup_app in Hnd. }
  { rewrite Hsnd. now apply Forall_take. }
  { apply Forall_forall. intros [i c] (j & y & E2 & Hj)%elem_of_lookup_imap. injection E2 as -> ->.
    apply lookup_lt_Some in Hj. rewrite length_take in Hj. cbn [fst]. apply Nat.Div0.div_lt_upper_bound. unfold MAXOPBLOCKS. lia. }
  rewrite Hsnd in Hf2. cbn [app] in Hf2. split.
  - exists s2. unfold three_calls. rewrite E1. split; [exact R2|]. now destruct Hf2 as (v & _ & _ & _ & Hl & _).
  - unfold three_calls. rewrite E1, <- (take_drop_middle bs 29 b Hb), imap_app, (for_each_app_done _ _ _ _ _ R2).
    cbn [imap for_each].
    assert (Hi : ((length (take 29 bs) + 0) / Z.to_nat MAXOPBLOCKS < 3)%nat).
    { rewrite length_take. apply Nat.Div0.div_lt_upper_bound. unfold MAXOPBLOCKS. lia. }
    assert (Hc : in_thread (ms ((length (take 29 bs) + 0) / Z.to_nat MAXOPBLOCKS)%nat) (log_block b) s2 = Crash "too big a transaction").
    { eapply (log_block_full _ _ _ (take 29 bs)); [exact (enter_thread w ms xs Hms s2 _ Hs2 Hi)|eapply filled_who; [|exact Hf2]; reflexivity| |].
      - rewrite length_take. unfold LOGSIZE, MAXOPBLOCKS in *. lia.
      - eapply Forall_lookup_1; [exact Hhome|exact Hb]. }
    unfold bind. now rewrite Hc.
Qed.
End Reservation.
