(* ===== verification/LogCrash.v ===== *)
(** * Recovery of the log after a power failure (log.c: read_head,
    install_trans, recover_from_log, initlog)

    The disk keeps what has been written to it and nothing else survives.  A
    kernel that boots runs [binit] and [initlog]; [boot_run] gives the writes
    this makes and [crash_atomic] shows that a transaction is atomic with
    respect to any number of power failures, in [commit] and in later
    recoveries. *)
From S2P Require Import Prelude Mmu Str Spinlock Kalloc Proc Exec Sched Store Bio Log.

Section Recover.
Context {W : Wait} (w : who).

Lemma read_entries_run pre todo d st (Q : unit -> storage -> Prop) :
  lg_n (st_log st) = Z.of_nat (length (pre ++ todo)) -> length (lg_block (st_log st)) = Z.to_nat LOGSIZE ->
  (length (pre ++ todo) <= Z.to_nat LOGSIZE)%nat -> take (length pre) (lg_block (st_log st)) = pre ->
  (forall k e, todo !! k = Some e -> e = s32 (get32 d (4 + 4 * Z.of_nat (length pre + k)))) ->
  (forall blk, length blk = Z.to_nat LOGSIZE -> take (length (pre ++ todo)) blk = pre ++ todo ->
     Q tt (upd_log (set_lg_block blk) st)) ->
  srun w ∅ (read_entries (S (length todo)) d (Z.of_nat (length pre))) st ∅ Q.
Proof.
  revert pre st. induction todo as [|e todo IH]; intros pre st Hn Hlen Hle Hpre Hd HQ; cbn [read_entries]; sgo; rewrite Hn, length_app.
  - simpl. replace (_ <? _) with false by lia. sgo. rewrite app_nil_r in HQ.
    specialize (HQ _ Hlen Hpre). destruct st as [? ? ? ? ? [] ? ? ? ?]. exact HQ.
  - replace (_ <? _) with true by (simpl; lia). unfold log_put. rewrite length_app in Hle. simpl in Hle.
    assert (Hlt : (length pre < length (lg_block (st_log st)))%nat) by lia.
    sgo. unfold log_at. sgo. rewrite Nat2Z.id. destruct (lookup_lt_is_Some_2 _ _ Hlt) as [x ->]. sgo.
    replace (s32 (get32 d (4 + 4 * Z.of_nat (length pre)))) with e
      by (rewrite (Hd 0%nat e eq_refl); do 4 f_equal; lia).
    replace (Z.of_nat (length pre) + 1) with (Z.of_nat (length (pre ++ [e]))) by (rewrite length_app; simpl; lia).
    apply (IH (pre ++ [e])); simpl; rewrite <- ?app_assoc; simpl; [exact Hn|now rewrite length_insert| | | |].
    + rewrite length_app. simpl. lia.
    + rewrite length_app. simpl. rewrite Nat.add_1_r. erewrite take_S_r by now apply list_lookup_insert_eq.
      rewrite take_insert_ge by lia. now rewrite Hpre.
    + intros k e' Hk. rewrite (Hd (S k) e' Hk), length_app. simpl. do 4 f_equal. lia.
    + intros blk Hb Ht. apply (HQ blk Hb Ht).
Qed.

Lemma read_head_run st v (Q : unit -> storage -> Prop) :
  let start := lg_start (st_log st) in let bs := head_blocks (v_cur v start) in
  Rep w st v -> v_held v = ∅ -> v_dirty v = ∅ -> lg_dev (st_log st) = 1 -> length (lg_block (st_log st)) = Z.to_nat LOGSIZE ->
  0 <= start < st_disksize st -> st_disksize st <= 2 ^ 31 -> 0 <= s32 (get32 (v_cur v start) 0) ->
  (length bs <= Z.to_nat LOGSIZE)%nat ->
  (forall blk st', length blk = Z.to_nat LOGSIZE -> take (length bs) blk = bs -> Rep w st' v ->
     same (upd_log (fun l => set_lg_block blk (set_lg_n (Z.of_nat (length bs)) l)) st) st' -> Q tt st') ->
  srun w ∅ read_head st ∅ Q.
Proof.
  intros start bs HR Hh Hd Hdev Hlen Hs Hsz Hn0 Hn HQ. unfold read_head. sgo. rewrite Hdev, u32_small by lia. fold start.
  eapply srun_bind, (bread_run w st v start); [exact HR|exact Hs|now rewrite Hh| |].
  { right. rewrite Hh, Hd, map_size_empty, size_empty. unfold NBUF. lia. }
  intros i st1 Hi HR1 S1 Hdat. sgo. rewrite Hdat. pose proof S1 as (Sd & L1 & Srest).
  assert (El : length bs = Z.to_nat (s32 (get32 (v_cur v start) 0))) by (unfold bs, head_blocks; now rewrite length_fmap, length_seq).
  eapply srun_bind. rewrite <- El. apply (read_entries_run [] bs); simpl; [lia|now rewrite L1|done|done| |].
  - intros k e Hk. unfold bs, head_blocks in Hk. rewrite list_lookup_fmap in Hk.
    destruct (seq _ _ !! k) as [j|] eqn:Ej; [|done]. apply lookup_seq in Ej as [-> _]. now injection Hk as <-.
  - intros blk Hb Ht. eapply (brelse_run w _ (hold i start v) i start); [now apply rep_upd_log, rep_upd_log|apply lookup_insert_eq| |].
    { right. simpl. apply (rep_coh _ _ _ HR); [rewrite Hd; set_solver|now rewrite Hh]. }
    intros st2 HR2 S2. apply (HQ blk st2); [done|done| |].
    + now rewrite unhold_hold in HR2.
    + etransitivity; [|exact S2]. split; [exact Sd|]. split; [|exact Srest]. simpl. rewrite L1, El.
      unfold set_lg_block, set_lg_n. simpl. f_equal. lia.
Qed.
Lemma recover_run st v (Q : unit -> storage -> Prop) :
  let start := lg_start (st_log st) in let bs := head_blocks (v_cur v start) in
  Rep w st v -> v_held v = ∅ -> v_dirty v = ∅ -> 0 <= s32 (get32 (v_cur v start) 0) -> (length bs <= Z.to_nat LOGSIZE)%nat ->
  (forall blk, length blk = Z.to_nat LOGSIZE -> take (length bs) blk = bs ->
     log_ok bs (upd_log (fun l => set_lg_block blk (set_lg_n (Z.of_nat (length bs)) l)) st)) ->
  lg_dev (st_log st) = 1 -> length (lg_block (st_log st)) = Z.to_nat LOGSIZE ->
  0 <= start < st_disksize st -> st_disksize st <= 2 ^ 31 ->
  (forall blk st', length blk = Z.to_nat LOGSIZE -> Rep w st' (head_view start [] (install_view start bs v)) ->
     same (upd_log (fun l => set_lg_block blk (set_lg_n 0 l)) st) st' -> Q tt st') ->
  srun w ∅ recover_from_log st ∅ Q.
Proof.
  intros start bs HR Hh Hd Hn0 Hn Hlog Hdev Hlen Hs Hsz HQ. unfold recover_from_log.
  eapply srun_bind, (read_head_run st v); try done. fold start bs. intros blk st1 Hblk Ht HR1 S1.
  pose proof (log_ok_same _ _ _ S1 (Hlog blk Hblk Ht)) as Hl1. pose proof S1 as (_ & L1 & _). simpl in L1.
  eapply srun_bind. unfold install_trans. sgo. rewrite (lo_n _ _ Hl1), Nat2Z.id.
  assert (Est : lg_start (st_log st1) = start) by now rewrite L1.
  apply (install_run w [] bs st1 v); [exact Hl1|exact HR1|exact Hh|rewrite Hd; clear; set_solver| |now right|].
  { rewrite Hd, size_empty. unfold NBUF. lia. }
  rewrite Est. intros st2 HR2 S2. sgo. pose proof S2 as (_ & L2 & _).
  destruct (install_pairs _ _ Hl1) as (HI1 & HI2 & _). rewrite Est in HI1, HI2.
  destruct (copies_spec _ v HI1 HI2) as (_ & _ & _ & Ed & Eh).
  eapply (write_head_run w []); [eapply log_ok_clear, (log_ok_same _ _ _ S2 Hl1)|apply rep_upd_log, HR2|simpl; now rewrite Eh| |].
  { simpl. rewrite Ed, Hd. replace (∅ ∖ _) with (∅ : gset Z) by (clear; set_solver). rewrite size_empty. unfold NBUF. lia. }
  simpl. rewrite L2, Est. intros st3 HR3 S3. apply (HQ blk st3 Hblk HR3). etransitivity; [|exact S3].
  assert (S02 : same (upd_log (fun l => set_lg_block blk (set_lg_n (Z.of_nat (length bs)) l)) st) st2) by now transitivity st1.
  destruct S02 as (? & E & ? & ? & ? & ? & ?). repeat split; try done. simpl. now rewrite E.
Qed.

(** ** Booting

    [start] and [size] are the log's area and [nblk] the size of the disk. *)
Context (start size nblk : Z).

Definition out (b : Z) : Prop := b < start \/ start + size <= b.

(** A disk the kernel can boot from: its super block names the log's area,
    and the header of the log names blocks outside it. *)
Record disk_ok (d : Z -> list Z) : Prop := mkDiskOk {
  dk_len : forall b, length (d b) = Z.to_nat BSIZE;
  dk_sb : sb_logstart (sb_of (d 1)) = start /\ sb_nlog (sb_of (d 1)) = size;
  dk_n : 0 <= s32 (get32 (d start) 0);
  dk_fit : (length (head_blocks (d start)) <= Z.to_nat LOGSIZE)%nat /\ Z.of_nat (length (head_blocks (d start))) + 1 <= size;
  dk_home : forall b, b ∈ head_blocks (d start) -> 1 < b < nblk /\ out b;
  dk_nodup : NoDup (head_blocks (d start));
}.
Definition area_ok : Prop := 2 <= start /\ start + size <= nblk /\ nblk <= 2 ^ 31.

(** A kernel that has just been loaded, with the contents [d] on the disk. *)
Definition booting (d : Z -> list Z) (st : storage) : Prop :=
  st_bufs st = replicate (S NBUF) buf0 /\ (forall b, block b st = d b) /\ st_disksize st = nblk /\ st_log st = log0.

(** The blocks that [initlog] writes. *)
Definition recovery_writes (d : Z -> list Z) : list (Z * list Z) :=
  let bs := head_blocks (d start) in
  zip bs (d <$> slots start 0 (length bs)) ++ [(start, put_head [] (d start))].

Lemma recovery_view bs st v : log_ok bs st -> lg_start (st_log st) = start ->
  v_writes (head_view start [] (install_view start bs v)) =
    v_writes v ++ zip bs (v_cur v <$> slots start 0 (length bs)) ++ [(start, put_head [] (v_cur v start))] /\
  v_disk (head_view start [] (install_view start bs v)) =
    replay (zip bs (v_cur v <$> slots start 0 (length bs)) ++ [(start, put_head [] (v_cur v start))]) (v_disk v) /\
  v_dirty (head_view start [] (install_view start bs v)) ⊆ v_dirty v /\
  v_held (head_view start [] (install_view start bs v)) = v_held v.
Proof.
  intros Hl Est. unfold install_view. destruct (install_pairs _ _ Hl) as (HI1 & HI2 & _). rewrite Est in HI1, HI2.
  destruct (copies_spec _ v HI1 HI2) as (Ew & Ec & Ed & Edir & Eh).
  rewrite copy_writes_zip in Ew, Ec, Ed.
  destruct (head_view_spec start [] (copies (zip bs (slots start 0 (length bs))) v)) as (-> & -> & _ & -> & ->).
  assert (Es : v_cur (copies (zip bs (slots start 0 (length bs))) v) start = v_cur v start).
  { rewrite Ec. apply replay_out. rewrite zip_fst by now rewrite length_fmap, length_slots.
    intros [_ Hx]%(lo_home _ _ Hl). destruct Hl. unfold outside in Hx. lia. }
  rewrite Es, Ew, Ed, Edir, Eh, <- app_assoc, replay_app. repeat split. clear. set_solver.
Qed.
Lemma readsb_run st v (Q : superblock -> storage -> Prop) :
  Rep w st v -> v_held v = ∅ -> v_dirty v = ∅ -> 1 < st_disksize st ->
  (forall st', Rep w st' v -> same st st' -> Q (sb_of (v_cur v 1)) st') -> srun w ∅ (readsb 1) st ∅ Q.
Proof.
  intros HR Hh Hd Hs HQ. apply (peek_run w st v 1); [exact HR|exact Hh|rewrite Hd, size_empty; unfold NBUF; lia|lia|].
  intros st' HR' S'. sgo. now apply HQ.
Qed.

Lemma disk_log_ok d st blk : area_ok -> disk_ok d -> st_disksize st = nblk -> lg_start (st_log st) = start ->
  lg_size (st_log st) = size -> lg_dev (st_log st) = 1 -> length blk = Z.to_nat LOGSIZE ->
  take (length (head_blocks (d start))) blk = head_blocks (d start) ->
  log_ok (head_blocks (d start))
    (upd_log (fun l => set_lg_block blk (set_lg_n (Z.of_nat (length (head_blocks (d start)))) l)) st).
Proof.
  intros (Ha1 & Ha2 & Ha3) [Hlen Hsb Hn Hfit Hhome Hnd] Ed Es Ez Edev Hb Ht.
  constructor; simpl; rewrite ?Es, ?Ez, ?Ed; try done; [apply Hfit|].
  intros b Hin. destruct (Hhome b Hin) as [? ?]. split; [lia|]. unfold outside. simpl. now rewrite Es, Ez.
Qed.

(** What [initlog] leaves alone. *)
Definition kept (st st' : storage) : Prop :=
  st_inodes st' = st_inodes st /\ st_sb st' = st_sb st /\ forall l, (NBUF <= l)%nat -> the_sleep l st' = the_sleep l st.

Lemma initlog_run d st st1 (Q : unit -> storage -> Prop) :
  area_ok -> disk_ok d -> (forall b, block b st = d b) -> Rep w st1 (fresh_view st) -> st_disksize st1 = nblk -> st_log st1 = log0 ->
  (forall st', st_writes st' = st_writes st ++ recovery_writes d ->
     (forall b, block b st' = replay (recovery_writes d) d b) -> ready w st' -> st_disksize st' = nblk ->
     lg_start (st_log st') = start -> lg_size (st_log st') = size -> kept st1 st' -> Q tt st') ->
  srun w ∅ (initlog ROOTDEV) st1 ∅ Q.
Proof.
  intros Ha Hd Hblk HR1 D1 Hlg0 HQ. assert (Hlg : length (lg_block (st_log st1)) = Z.to_nat LOGSIZE) by now rewrite Hlg0.
  unfold initlog. change (BSIZE <=? 4 + 4 * LOGSIZE) with false. cbv iota. sgo.
  eapply srun_bind, (readsb_run st1 (fresh_view st)); [exact HR1|done|done|rewrite D1; destruct Ha as (?&?&?), (dk_fit _ Hd); lia|].
  intros st2 HR2 S2. pose proof S2 as (D2 & L2 & B2 & I2 & _ & _ & W2).
  change (v_cur (fresh_view st) 1) with (block 1 st). rewrite Hblk.
  destruct (dk_sb _ Hd) as [Esb1 Esb2]. rewrite Esb1, Esb2, !s32_small by (destruct Ha as (?&?&?), (dk_fit _ Hd); lia). sgo.
  set (st3 := upd_log _ st2).
  assert (Hlog : forall blk, length blk = Z.to_nat LOGSIZE -> take (length (head_blocks (d start))) blk = head_blocks (d start) ->
    log_ok (head_blocks (d start)) (upd_log (fun l => set_lg_block blk (set_lg_n (Z.of_nat (length (head_blocks (d start)))) l)) st3)).
  { intros blk Hb Ht. apply disk_log_ok; try done. simpl. now rewrite D2, D1. }
  assert (Ec : forall b, v_cur (fresh_view st) b = d b) by exact Hblk.
  assert (Hx : st_disksize st3 = nblk) by (simpl; now rewrite D2, D1).
  destruct Ha as (Ha1 & Ha2 & Ha3). pose proof (dk_fit _ Hd) as [Hf1 Hf2].
  apply (recover_run st3 (fresh_view st)); cbn [st3 upd_log set_log st_log lg_start lg_dev lg_block]; rewrite ?Ec;
    [now apply rep_upd_log|done|done|apply Hd|done|exact Hlog|done|now rewrite L2|change (st_disksize _) with (st_disksize st3); lia|change (st_disksize _) with (st_disksize st3); lia|].
  intros blk st4 Hblk4 HR4 S4.
  assert (Hl : log_ok (head_blocks (d start)) (upd_log (fun l => set_lg_block (head_blocks (d start) ++ replicate (Z.to_nat LOGSIZE - length (head_blocks (d start))) 0) (set_lg_n (Z.of_nat (length (head_blocks (d start)))) l)) st3)).
  { apply Hlog; [rewrite length_app, length_replicate; lia|now rewrite take_app_length]. }
  destruct (recovery_view _ _ (fresh_view st) Hl eq_refl) as (Ew & Ed & Edir & Eh). rewrite Ec in Ew, Ed.
  assert (Em : v_cur (fresh_view st) <$> slots start 0 (length (head_blocks (d start))) = d <$> slots start 0 (length (head_blocks (d start))))
    by (apply list_fmap_ext; intros; apply Ec).
  rewrite Em in Ew, Ed. apply HQ.
  - rewrite <- (rep_writes _ _ _ HR4), Ew. reflexivity.
  - intros b. rewrite <- (rep_disk _ _ _ HR4), Ed. apply replay_ext. apply Hblk.
  - exists (head_view start [] (install_view start (head_blocks (d start)) (fresh_view st))). split; [exact HR4|].
    split; [exact Eh|]. split; [apply set_eq; clear -Edir; set_solver|].
    split; [|destruct S4 as (_ & -> & _); simpl; now rewrite L2, Hlg0].
    apply (log_ok_same _ _ _ S4). now apply (log_ok_blocks _ st3 blk _ Hl Hblk4).
  - destruct S4 as (-> & _). exact Hx.
  - destruct S4 as (_ & -> & _). reflexivity.
  - destruct S4 as (_ & -> & _). reflexivity.
  - destruct S4 as (_ & _ & B4 & I4 & _ & _ & W4). split; [now rewrite I4|]. split; [now rewrite B4|]. intros l Hll. rewrite W4 by done. now apply W2.
Qed.

Lemma boot_run d st (Q : unit -> storage -> Prop) :
  area_ok -> disk_ok d -> booting d st ->
  (forall st', st_writes st' = st_writes st ++ recovery_writes d ->
     (forall b, block b st' = replay (recovery_writes d) d b) -> ready w st' -> st_disksize st' = nblk ->
     lg_start (st_log st') = start -> lg_size (st_log st') = size -> Q tt st') ->
  srun w ∅ (binit ;;; initlog ROOTDEV) st ∅ Q.
Proof.
  intros Ha Hd (Hz & Hblk & Hsz & Hlg0) HQ.
  eapply srun_bind, binit_run; [exact Hz|intros b; rewrite Hblk; apply Hd|]. intros st1 HR1 (D1 & L1 & _).
  apply (initlog_run d st st1); [done|done|done|done|now rewrite D1|now rewrite L1|]. intros; now apply HQ.
Qed.
End Recover.

(** ** Power failures *)
Section Crash.
Context (start size nblk : Z) (d0 cur : Z -> list Z) (bs : list Z).

(** The disks a power failure can leave: after some of the writes of the
    commit, or after some of the writes of a recovery from such a disk. *)
Inductive crashed : (Z -> list Z) -> Prop :=
| crash_commit k : crashed (replay (take k (commit_writes start bs cur)) d0)
| crash_again d k : crashed d -> crashed (replay (take k (recovery_writes start d)) d).

Context (Harea : area_ok start size nblk) (Hd0 : disk_ok start size nblk d0) (Hclean : head_blocks (d0 start) = []).
Context (Hlen : forall b, length (cur b) = Z.to_nat BSIZE) (Hcoh : forall b, b ∉ bs -> cur b = d0 b).
Context (Hnd : NoDup bs) (Hfit : (length bs <= Z.to_nat LOGSIZE)%nat /\ Z.of_nat (length bs) + 1 <= size).
Context (Hhome : forall b, b ∈ bs -> 1 < b < nblk /\ out start size b).

Lemma start_not_out : ~ out start size start.
Proof. unfold out. lia. Qed.

Lemma start_not_in : start ∉ bs.
Proof. intros [_ Ho]%Hhome. now apply start_not_out. Qed.

Lemma slot_not_out n x : Z.of_nat n + 1 <= size -> x ∈ slots start 0 n -> ~ out start size x /\ x <> start.
Proof. intros Hn (i & -> & Hi)%list_elem_of_fmap. apply elem_of_seq in Hi. unfold out. lia. Qed.

Lemma slot_not_in x : x ∈ slots start 0 (length bs) -> x ∉ bs.
Proof. intros Hx [_ Ho]%Hhome. now apply (slot_not_out (length bs) x) in Hx as [? _]. Qed.

Lemma one_out : out start size 1 /\ 1 ∉ bs.
Proof. split; [unfold out; destruct Harea; lia|]. intros [? _]%Hhome. lia. Qed.

(** No transaction in the log; the home blocks are those of [f]. *)
Definition clean (f d : Z -> list Z) : Prop :=
  disk_ok start size nblk d /\ head_blocks (d start) = [] /\ forall b, out start size b -> d b = f b.
(** The transaction is in the log, and installed in part. *)
Definition committed (d : Z -> list Z) : Prop :=
  disk_ok start size nblk d /\ head_blocks (d start) = bs /\ d <$> slots start 0 (length bs) = cur <$> bs /\
  forall b, out start size b -> b ∉ bs -> d b = d0 b.

Lemma replay_len ws d : (forall b, length (d b) = Z.to_nat BSIZE) -> Forall (fun p => length p.2 = Z.to_nat BSIZE) ws ->
  forall b, length (replay ws d b) = Z.to_nat BSIZE.
Proof.
  revert d. induction ws as [|p ws IH]; intros d Hd Hw b; [apply Hd|]. apply Forall_cons in Hw as [Hp Hw].
  apply (IH (<[p.1 := p.2]> d)); [|done]. intros c.
  destruct (decide (p.1 = c)) as [<-|Hne]; [now rewrite fn_lookup_insert|now rewrite fn_lookup_insert_ne].
Qed.

Lemma zip_len a l : Forall (fun x => length x = Z.to_nat BSIZE) l ->
  Forall (fun p : Z * list Z => length p.2 = Z.to_nat BSIZE) (zip a l).
Proof. revert a. induction l as [|x l IH]; intros [|y a] H; simpl; try constructor; apply Forall_cons in H as [? ?]; auto. Qed.

Lemma head_clean d : length d = Z.to_nat BSIZE -> head_blocks (put_head [] d) = [] /\ 0 <= s32 (get32 (put_head [] d) 0).
Proof.
  intros Hd. split; [apply head_blocks_put; [done|simpl; lia|constructor]|].
  unfold put_head. simpl. rewrite get32_put32; [done|lia|unfold BSIZE in Hd; lia].
Qed.

Lemma head_committed d : length d = Z.to_nat BSIZE -> head_blocks (put_head bs d) = bs /\ 0 <= s32 (get32 (put_head bs d) 0).
Proof.
  intros Hd. assert (Hl := proj1 Hfit). split.
  - apply head_blocks_put; [done|done|]. apply Forall_forall. intros b [? _]%Hhome. destruct Harea as (_ & _ & ?). lia.
  - unfold BSIZE, LOGSIZE, MAXOPBLOCKS in *. unfold put_head. rewrite get32_put_entries, get32_put32, s32_u32 by (rewrite ?length_put32; lia). lia.
Qed.

(** The parts of [disk_ok] that the phases share. *)
Lemma disk_ok_intro d : (forall b, length (d b) = Z.to_nat BSIZE) -> d 1 = d0 1 -> 0 <= s32 (get32 (d start) 0) ->
  head_blocks (d start) = [] \/ head_blocks (d start) = bs -> disk_ok start size nblk d.
Proof.
  intros Hl H1 Hn Hh. constructor; [exact Hl|rewrite H1; apply Hd0|exact Hn|..]; destruct Hh as [-> | ->].
  - simpl. lia.
  - exact Hfit.
  - intros b Hb. now apply not_elem_of_nil in Hb.
  - exact Hhome.
  - constructor.
  - exact Hnd.
Qed.

(** Writing the empty header ends in a clean disk. *)
Lemma clean_write f d e : (forall b, length (d b) = Z.to_nat BSIZE) -> length e = Z.to_nat BSIZE -> f 1 = d0 1 ->
  (forall b, out start size b -> d b = f b) -> clean f (<[start := put_head [] e]> d).
Proof.
  intros Hl He H1 Hf. destruct (head_clean e He) as [Hb Hn].
  assert (Ho : forall b, out start size b -> start <> b) by (intros b Hb' <-; now apply start_not_out).
  split; [|split].
  - apply disk_ok_intro; rewrite ?fn_lookup_insert; [|rewrite fn_lookup_insert_ne|done|now left].
    + intros b. destruct (decide (start = b)) as [<-|Hne]; [now rewrite fn_lookup_insert, length_put_head|now rewrite fn_lookup_insert_ne].
    + rewrite Hf; [done|apply one_out].
    + apply Ho, one_out.
  - now rewrite fn_lookup_insert.
  - intros b Hb'. rewrite fn_lookup_insert_ne by auto. now apply Hf.
Qed.

(** Installing a part of the transaction keeps it committed, and all of it and
    the empty header give the new state. *)
Lemma install_prefix d k : committed d -> committed (replay (take k (zip bs (cur <$> bs))) d).
Proof.
  intros (Hd & Hh & Hs & Ho).
  assert (Hk : forall b, b ∉ bs -> b ∉ (take k (zip bs (cur <$> bs))).*1).
  { intros b Hb Hin. apply Hb. rewrite fmap_take, zip_fst in Hin by now rewrite length_fmap.
    apply (subseteq_take k bs b Hin). }
  assert (Hst : replay (take k (zip bs (cur <$> bs))) d start = d start) by apply replay_out, Hk, start_not_in.
  split; [|split; [|split]].
  - apply disk_ok_intro; rewrite ?Hst; [|rewrite replay_out; [|apply Hk, one_out]|apply Hd|now right].
    + apply replay_len; [apply Hd|]. apply Forall_take, zip_len, Forall_fmap, Forall_true. intros b. apply Hlen.
    + apply Ho; apply one_out.
  - now rewrite Hst.
  - etransitivity; [|exact Hs]. apply list_fmap_ext. intros i x Hx. apply replay_out, Hk, slot_not_in. eapply list_elem_of_lookup_2, Hx.
  - intros b Hb Hn. rewrite replay_out by auto. now apply Ho.
Qed.

Lemma install_all d b : committed d -> out start size b -> replay (zip bs (cur <$> bs)) d b = cur b.
Proof.
  intros (_ & _ & _ & Ho) Hb. assert (Hk : (zip bs (cur <$> bs)).*1 = bs) by (apply zip_fst; now rewrite length_fmap).
  destruct (decide (b ∈ bs)) as [Hin|Hin].
  - apply replay_in; [now rewrite Hk|]. apply list_elem_of_lookup in Hin as [i Hi]. apply list_elem_of_lookup. exists i.
    rewrite lookup_zip_with, Hi. simpl. now rewrite list_lookup_fmap, Hi.
  - rewrite replay_out by now rewrite Hk. rewrite Ho by done. now rewrite Hcoh.
Qed.

Lemma recover_committed d e k : committed d -> length e = Z.to_nat BSIZE ->
  let d' := replay (take k (zip bs (cur <$> bs) ++ [(start, put_head [] e)])) d in committed d' \/ clean cur d'.
Proof.
  intros Hd He. simpl. rewrite take_app, replay_app. pose proof (install_prefix d k Hd) as Hc.
  destruct (k - length (zip bs (cur <$> bs)))%nat as [|j] eqn:Ej; [now left|right].
  rewrite (take_ge (zip bs (cur <$> bs)) k) in Hc |- * by lia. rewrite take_ge by (simpl; lia).
  apply clean_write; [apply Hc|done|apply Hcoh, one_out|]. intros b Hb. now apply install_all.
Qed.

Lemma recover_clean f d k : clean f d -> f 1 = d0 1 -> clean f (replay (take k (recovery_writes start d)) d).
Proof.
  intros Hc H1. pose proof Hc as (Hd & Hh & Hf). unfold recovery_writes. rewrite Hh. simpl. destruct k as [|k]; [exact Hc|].
  rewrite take_ge by (simpl; lia). apply clean_write; try done; apply Hd.
Qed.
Lemma log_prefix k : clean d0 (replay (take k (zip (slots start 0 (length bs)) (cur <$> bs))) d0).
Proof.
  set (A := zip _ _). assert (HA : A.*1 = slots start 0 (length bs)) by (apply zip_fst; now rewrite length_slots, length_fmap).
  assert (Hk : forall b, b ∉ slots start 0 (length bs) -> replay (take k A) d0 b = d0 b).
  { intros b Hb. apply replay_out. rewrite fmap_take, HA. intros Hin. apply Hb. exact (subseteq_take k _ b Hin). }
  assert (Ho : forall b, out start size b \/ b = start -> b ∉ slots start 0 (length bs)).
  { intros b Hb Hin. apply (slot_not_out (length bs)) in Hin as [? ?]; [tauto|apply Hfit]. }
  split; [|split].
  - apply disk_ok_intro; rewrite ?Hk by (apply Ho; auto using one_out); [| |apply Hd0|now left].
    + apply replay_len; [apply Hd0|]. apply Forall_take, zip_len, Forall_fmap, Forall_true. intros b. apply Hlen.
    + apply Hk, Ho. left. apply one_out.
  - rewrite Hk by auto. exact Hclean.
  - intros b Hb. apply Hk, Ho. now left.
Qed.

Lemma commit_point : committed (<[start := put_head bs (cur start)]> (replay (zip (slots start 0 (length bs)) (cur <$> bs)) d0)).
Proof.
  set (A := zip _ _). assert (HA : A.*1 = slots start 0 (length bs)) by (apply zip_fst; now rewrite length_slots, length_fmap).
  assert (Hlog : clean d0 (replay A d0)).
  { rewrite <- (take_ge A (length A)) by lia. apply log_prefix. }
  destruct Hlog as (Hok & _ & Hout). destruct (head_committed (cur start) (Hlen start)) as [Hh Hn].
  assert (Ho : forall b, out start size b -> start <> b) by (intros b Hb <-; now apply start_not_out).
  split; [|split; [|split]].
  - apply disk_ok_intro; rewrite ?fn_lookup_insert; [| |done|now right].
    + intros b. destruct (decide (start = b)) as [<-|Hne];
        [now rewrite fn_lookup_insert, length_put_head|rewrite fn_lookup_insert_ne by done; apply Hok].
    + rewrite fn_lookup_insert_ne by apply Ho, one_out. apply Hout, one_out.
  - now rewrite fn_lookup_insert.
  - apply list_eq. intros i. rewrite !list_lookup_fmap. destruct (slots start 0 (length bs) !! i) as [x|] eqn:Ex; simpl.
    + assert (Hx : x ∈ slots start 0 (length bs)) by (eapply list_elem_of_lookup_2; eauto).
      destruct (lookup_lt_is_Some_2 bs i) as [e He].
      { apply lookup_lt_Some in Ex. now rewrite length_slots in Ex. }
      rewrite He. simpl. f_equal. rewrite fn_lookup_insert_ne.
      * apply replay_in; [rewrite HA; apply NoDup_slots|]. apply list_elem_of_lookup. exists i. unfold A.
        rewrite lookup_zip_with, Ex. simpl. now rewrite list_lookup_fmap, He.
      * apply (slot_not_out (length bs)) in Hx as [_ ?]; [congruence|apply Hfit].
    + symmetry. apply fmap_None, lookup_ge_None. apply lookup_ge_None in Ex. now rewrite length_slots in Ex.
  - intros b Hb _. rewrite fn_lookup_insert_ne by auto. now apply Hout.
Qed.

Lemma crashed_inv d : crashed d -> clean d0 d \/ committed d \/ clean cur d.
Proof.
  induction 1 as [k|d k _ IH].
  - unfold commit_writes. rewrite take_app. destruct (k - length (zip (slots start 0 (length bs)) (cur <$> bs)))%nat as [|j] eqn:Ej.
    + left. rewrite app_nil_r. apply log_prefix.
    + right. rewrite take_ge by lia. rewrite replay_app. simpl.
      apply (recover_committed _ (put_head bs (cur start)) j commit_point). now rewrite length_put_head.
  - destruct IH as [Hc|[Hc|Hc]].
    + left. now apply recover_clean.
    + right. pose proof Hc as (Hd & Hh & Hs & _). unfold recovery_writes. rewrite Hh, Hs. apply recover_committed; [done|apply Hd].
    + right. right. apply recover_clean; [done|apply Hcoh, one_out].
Qed.
Lemma recovered d : clean d0 d \/ committed d \/ clean cur d ->
  (forall b, out start size b -> replay (recovery_writes start d) d b = d0 b) \/
  (forall b, out start size b -> replay (recovery_writes start d) d b = cur b).
Proof.
  intros Hph. rewrite <- (take_ge (recovery_writes start d) (length (recovery_writes start d))) by lia.
  destruct Hph as [Hc|[Hc|Hc]].
  - left. apply (recover_clean d0 d _ Hc eq_refl).
  - right. intros b Hb. rewrite take_ge by lia. pose proof Hc as (_ & Hh & Hs & _). unfold recovery_writes. rewrite Hh, Hs, replay_app.
    rewrite (replay_out [_]); [now apply install_all|]. simpl. intros ->%list_elem_of_singleton. now apply start_not_out.
  - right. apply (recover_clean cur d _ Hc). apply Hcoh, one_out.
Qed.
End Crash.

Section Claims.
Context {W : Wait}.

(** C2. A transaction is atomic with respect to power failures.  When the
    last system call of a group ends, the blocks it pinned in the cache are
    committed: [commit] returns and makes the writes [commit_writes].  If the
    power fails after any number of these writes, and again after any number
    of the writes of a recovery, and so on, then the next boot ([binit] and
    [initlog]) succeeds, and either every block outside the log is as it was
    before the commit, or every block is as the system calls left it. *)
Theorem crash_atomic (w : who) (s : kfs) (bs : list Z) (v : view) :
  let st := k_ext s in let start := lg_start (st_log st) in let size := lg_size (st_log st) in
  env w ∅ s -> Rep w st v -> v_held v = ∅ -> v_dirty v = list_to_set bs -> log_ok bs st ->
  (0 < length bs < NBUF)%nat -> Forall (fun b => 1 < b) bs ->
  sb_logstart (sb_of (block 1 st)) = start -> sb_nlog (sb_of (block 1 st)) = size -> get32 (block start st) 0 = 0 ->
  (exists s', commit s = Done tt s' /\ st_writes (k_ext s') = st_writes st ++ commit_writes start bs (v_cur v)) /\
  forall d, crashed start (fun b => block b st) (v_cur v) bs d ->
  forall w1 s1, env w1 ∅ s1 -> booting (st_disksize st) d (k_ext s1) ->
  exists s2, (binit ;;; initlog ROOTDEV) s1 = Done tt s2 /\
    ((forall b, outside (st_log st) b -> block b (k_ext s2) = block b st) \/
     (forall b, outside (st_log st) b -> block b (k_ext s2) = v_cur v b)).
Proof.
  intros st start size He HR Hh Hd Hl Hn H1 Hsb1 Hsb2 Hz. pose proof (rep_disk _ _ _ HR) as Hdisk. split.
  - destruct (srun_done w commit s (fun _ st' => st_writes st' = st_writes st ++ commit_writes start bs (v_cur v))) as ([] & s' & Hr & _ & Hw);
      [|exact He|eauto].
    apply (commit_run w bs st v); [done..|]. intros st1 HR1 _.
    destruct (commit_view_spec bs st v Hl Hd) as (Ew & _). now rewrite <- (rep_writes _ _ _ HR1), Ew, (rep_writes _ _ _ HR).
  - destruct Hl as [L1 L2 L3 L4 L5 L6 L7 L8]. fold start size st in L5, L6.
    assert (Hlen : (length bs <= Z.to_nat LOGSIZE)%nat) by (rewrite <- L3, <- L4, length_take; lia).
    assert (Hhead : head_blocks (block start st) = []) by (unfold head_blocks; now rewrite Hz).
    set (d0 := fun b => block b st). assert (Ha : area_ok start size (st_disksize st)) by exact L6.
    assert (Hok : disk_ok start size (st_disksize st) d0).
    { constructor; unfold d0; rewrite ?Hhead, ?Hz; simpl; try done; try lia; [|set_solver|constructor].
      intros b. rewrite <- Hdisk. apply (rep_size _ _ _ HR). }
    assert (Hcoh : forall b, b ∉ bs -> v_cur v b = d0 b).
    { intros b Hb. unfold d0. rewrite <- Hdisk. apply (rep_coh _ _ _ HR); [now rewrite Hd, elem_of_list_to_set|now rewrite Hh]. }
    assert (Hhome : forall b, b ∈ bs -> 1 < b < st_disksize st /\ out start size b).
    { intros b Hb. rewrite Forall_forall in H1. specialize (H1 b Hb). destruct (L7 b Hb) as [? ?]. split; [lia|done]. }
    pose proof (fun b => proj1 (rep_size _ _ _ HR b)) as Hcl.
    intros d Hcr w1 s1 He1 Hb1.
    pose proof (crashed_inv start size (st_disksize st) d0 (v_cur v) bs Ha Hok Hhead Hcl Hcoh L8 (conj Hlen L5) Hhome d Hcr) as Hph.
    assert (Hdk : disk_ok start size (st_disksize st) d) by (destruct Hph as [H|[H|H]]; apply H).
    destruct (srun_done w1 (binit ;;; initlog ROOTDEV) s1 (fun _ st' => forall b, block b st' = replay (recovery_writes start d) d b)) as ([] & s2 & Hr & _ & Hb2);
      [|exact He1|].
    { apply (boot_run w1 start size (st_disksize st) d); auto. }
    exists s2. split; [exact Hr|].
    destruct (recovered start size (st_disksize st) d0 (v_cur v) bs Ha Hok Hcoh L8 (conj Hlen L5) Hhome d Hph) as [Ho|Ho];
      [left|right]; intros b Hb; rewrite Hb2; now apply Ho.
Qed.
End Claims.

(** ** A system call that writes one block *)
Section WriteBlock.
Context {W : Wait}.

(** The use of [log_write] that log.c describes. *)
Definition write_block (b : Z) (d : list Z) : M kfs unit :=
  begin_op ;;;
  bp <~ bread ROOTDEV b ;;
  modst (upd_buf bp (set_data d)) ;;;
  log_write bp ;;;
  brelse bp.

Lemma write_block_run w st b d (Q : unit -> storage -> Prop) :
  ready w st -> 0 <= b < st_disksize st -> outside (st_log st) b -> 2 <= lg_size (st_log st) -> length d = Z.to_nat BSIZE ->
  (forall st' v, Rep w st' v -> v_held v = ∅ -> v_dirty v = {[b]} -> log_ok [b] st' ->
     lg_outstanding (st_log st') = 1 -> lg_committing (st_log st') = 0 ->
     v_cur v b = d -> (forall c, c <> b -> v_cur v c = block c st) -> (forall c, block c st' = block c st) ->
     st_writes st' = st_writes st -> st_disksize st' = st_disksize st ->
     lg_start (st_log st') = lg_start (st_log st) -> lg_size (st_log st') = lg_size (st_log st) -> Q tt st') ->
  srun w ∅ (write_block b d) st ∅ Q.
Proof.
  intros (v & HR & Hh & Hdi & Hl & Ho & Hc) Hb Hout Hsz Hd HQ. unfold write_block. eapply srun_bind, begin_op_run; [done| |].
  { rewrite (lo_n _ _ Hl), Ho. simpl. unfold LOGSIZE, MAXOPBLOCKS. lia. }
  set (st1 := upd_log _ st). assert (HR1 : Rep w st1 v) by now apply rep_upd_log.
  eapply srun_bind, (bread_run w st1 v b); [exact HR1|exact Hb|now rewrite Hh| |].
  { right. rewrite Hh, Hdi, map_size_empty, size_empty. unfold NBUF. lia. }
  intros i st2 Hi HR2 S2 _. assert (Hhi : v_held (hold i b v) !! i = Some b) by apply lookup_insert_eq.
  pose proof (rep_put w _ _ i b d HR2 Hhi Hd) as HR3. sgo. set (st3 := upd_buf i _ st2) in *.
  assert (S3 : same st1 st3) by (transitivity st2; [exact S2|now repeat split]).
  assert (Hl3 : log_ok [] st3) by (apply (log_ok_same _ _ _ S3); now apply log_ok_fields).
  pose proof S3 as (D3 & L3 & _).
  eapply srun_bind, (log_write_run w [] st3 _ i b); [exact Hl3|exact HR3|exact Hhi|rewrite L3; simpl; lia|unfold LOGSIZE, MAXOPBLOCKS; simpl; lia|rewrite L3; simpl; lia| |].
  { rewrite L3. exact Hout. }
  intros st4 blk _ Hl4 HR4 S4. pose proof S4 as (D4 & L4 & _).
  eapply (brelse_run w _ _ i b); [exact HR4|exact Hhi|left; simpl; set_solver|]. intros st5 HR5 S5. pose proof S5 as (D5 & L5 & _).
  assert (Hcur : forall c, c <> b -> v_cur v c = block c st).
  { intros c _. rewrite (rep_coh _ _ _ HR); [apply (rep_disk _ _ _ HR)|rewrite Hdi; apply not_elem_of_empty|now rewrite Hh]. }
  assert (EL : st_log st5 = set_lg_n (Z.of_nat (length (absorb b []))) (set_lg_block blk (st_log st1))).
  { rewrite L5, L4. change (st_log (upd_log ?f st3)) with (f (st_log st3)). now rewrite L3. }
  apply (HQ st5 _ HR5); rewrite ?EL; simpl.
  - now rewrite delete_insert_id.
  - rewrite Hdi. clear. set_solver.
  - apply (log_ok_same _ _ _ S5 Hl4).
  - rewrite Ho. done.
  - exact Hc.
  - apply fn_lookup_insert.
  - intros c Hcb. rewrite fn_lookup_insert_ne by done. now apply Hcur.
  - intros c. rewrite <- (rep_disk _ _ _ HR5). simpl. apply (rep_disk _ _ _ HR).
  - rewrite <- (rep_writes _ _ _ HR5). simpl. apply (rep_writes _ _ _ HR).
  - rewrite D5, D4. change (st_disksize (upd_log ?f st3)) with (st_disksize st3). now rewrite D3.
  - done.
  - done.
Qed.

(** C16. A write inside a transaction reaches the disk.  Between transactions,
    a system call that reads a block through the cache, changes it, logs it
    and ends ([begin_op] ... [log_write] ... [end_op]) returns, leaves its
    data in the block and the other blocks outside the log unchanged, and the
    cache and the log ready for the next one. *)
Theorem write_transaction (w : who) (s : kfs) (b : Z) (d : list Z) :
  env w ∅ s -> ready w (k_ext s) -> 0 <= b < st_disksize (k_ext s) -> outside (st_log (k_ext s)) b ->
  2 <= lg_size (st_log (k_ext s)) -> length d = Z.to_nat BSIZE ->
  exists s', (write_block b d ;;; end_op) s = Done tt s' /\ env w ∅ s' /\ ready w (k_ext s') /\
    block b (k_ext s') = d /\ forall c, outside (st_log (k_ext s)) c -> c <> b -> block c (k_ext s') = block c (k_ext s).
Proof.
  intros He Hr Hb Ho Hz Hd.
  destruct (srun_done w (write_block b d ;;; end_op) s (fun _ st' => ready w st' /\ block b st' = d /\
    forall c, outside (st_log (k_ext s)) c -> c <> b -> block c st' = block c (k_ext s))) as ([] & s' & Hrun & He' & HQ); [|exact He|eauto 10].
  eapply srun_bind, write_block_run; [done..|]. intros st1 v HR Hh Hdi Hl Hou Hco Hcb Hcc _ _ Hds Hst Hsz.
  eapply (end_op_run w [b] st1 v); [done|done|done|rewrite Hdi; set_solver|simpl; unfold NBUF; lia|done|done|].
  assert (Hou' : forall c, outside (st_log (k_ext s)) c -> outside (st_log st1) c) by (intros c; unfold outside; now rewrite Hst, Hsz).
  intros st2 (v2 & HR2 & Hh2 & Hd2) S2 _ Hb2. split; [|split].
  - exists v2. pose proof S2 as (_ & L2 & _). rewrite L2. split; [done|]. split; [done|]. split; [done|].
    split; [|done]. apply (log_ok_same _ _ _ S2).
    apply (log_ok_fields [] (upd_log (set_lg_n 0) st1) (fun l => set_lg_committing 0 (set_lg_outstanding 0 l))); [|done].
    now apply (log_ok_clear [b]).
  - rewrite Hb2 by auto. done.
  - intros c Hc Hne. rewrite Hb2 by auto. now apply Hcc.
Qed.
End WriteBlock.

(** ** A disk with an empty log *)
Definition demo_sb : list Z :=
  put32 24 58 (put32 20 32 (put32 16 2 (put32 12 30 (put32 8 200 (put32 4 941 (put32 0 1000 (replicate (Z.to_nat BSIZE) 0))))))).
Definition demo_storage : storage :=
  mkStorage ∅ (replicate (S NBUF) buf0) {[1 := demo_sb]} 1000 [] log0 (mkSb 0 0 0 0 0 0 0)
    (replicate NINODE inode0) (replicate NFILE file0) ∅ 0 console0 ide0 devs0.
Definition demo_kfs : kfs :=
  let s := demo demo_exe ∅ RUNNING RUNNING in
  mkK (k_base s) (k_procs s) (k_mutex s) (k_initproc s) (k_nextpid s) (k_first s) demo_storage.
Definition demo_who : who := mkWho demo_exe (p_pid (demo_proc RUNNING RUNNING)) (ks_kmem (k_base demo_kfs)).
#[local] Instance demo_wait : Wait := 0%nat.

Lemma demo_env : env demo_who ∅ demo_kfs.
Proof.
  split; [exact (demo_mst demo_exe ∅ RUNNING RUNNING eq_refl ltac:(kset))|]. split; [reflexivity|].
  exists 0%nat, (demo_proc RUNNING RUNNING). done.
Qed.

Lemma demo_block b : block b demo_storage = if decide (b = 1) then demo_sb else replicate (Z.to_nat BSIZE) 0.
Proof.
  unfold block. simpl. destruct (decide (b = 1)) as [->|Hne]; [now rewrite lookup_singleton_eq|now rewrite lookup_singleton_ne].
Qed.

Lemma demo_disk_ok : disk_ok 2 30 1000 (fun b => block b demo_storage).
Proof.
  assert (Hh : head_blocks (block 2 demo_storage) = []) by (vm_compute; reflexivity).
  constructor; rewrite ?Hh.
  - intros b. rewrite demo_block. destruct (decide _); reflexivity.
  - split; vm_compute; reflexivity.
  - vm_compute. discriminate.
  - split; simpl; lia.
  - intros b Hb. now apply not_elem_of_nil in Hb.
  - constructor.
Qed.

Lemma demo_ready : exists s, (binit ;;; initlog ROOTDEV) demo_kfs = Done tt s /\ env demo_who ∅ s /\ ready demo_who (k_ext s) /\
  st_disksize (k_ext s) = 1000 /\ lg_start (st_log (k_ext s)) = 2 /\ lg_size (st_log (k_ext s)) = 30 /\
  block 1 (k_ext s) = demo_sb /\ get32 (block 2 (k_ext s)) 0 = 0.
Proof.
  destruct (srun_done demo_who (binit ;;; initlog ROOTDEV) demo_kfs (fun _ st => ready demo_who st /\
    st_disksize st = 1000 /\ lg_start (st_log st) = 2 /\ lg_size (st_log st) = 30 /\ block 1 st = demo_sb /\
    get32 (block 2 st) 0 = 0)) as ([] & s & Hr & He & HQ); [|exact demo_env|eauto 10].
  apply (boot_run demo_who 2 30 1000 (fun b => block b demo_storage)); [unfold area_ok; lia|exact demo_disk_ok|done|].
  intros st _ Hb Hrd Hsz Hst Hlg. rewrite !Hb. unfold recovery_writes.
  assert (Hh : head_blocks (block 2 demo_storage) = []) by (vm_compute; reflexivity). rewrite Hh. simpl.
  rewrite fn_lookup_insert, fn_lookup_insert_ne by done. do 4 (split; [done|]). split; [reflexivity|].
  unfold put_head. simpl. rewrite get32_put32; [done|lia|]. rewrite demo_block. simpl. done.
Qed.

Lemma write_transaction_witness : exists s s', (binit ;;; initlog ROOTDEV) demo_kfs = Done tt s /\
  (write_block 100 (replicate (Z.to_nat BSIZE) 7) ;;; end_op) s = Done tt s' /\
  block 100 (k_ext s') = replicate (Z.to_nat BSIZE) 7.
Proof.
  destruct demo_ready as (s & Hr & He & Hrd & Hsz & Hst & Hlg & _). exists s.
  destruct (write_transaction demo_who s 100 (replicate (Z.to_nat BSIZE) 7) He Hrd) as (s' & Hw & _ & _ & Hb & _);
    [lia|unfold outside; lia|lia|reflexivity|]. exists s'. split; [exact Hr|]. split; [exact Hw|exact Hb].
Defined.

Lemma demo_transaction : exists s v, env demo_who ∅ s /\ Rep demo_who (k_ext s) v /\ v_held v = ∅ /\ v_dirty v = {[100]} /\
  log_ok [100] (k_ext s) /\ lg_start (st_log (k_ext s)) = 2 /\ lg_size (st_log (k_ext s)) = 30 /\ st_disksize (k_ext s) = 1000 /\
  block 1 (k_ext s) = demo_sb /\ get32 (block 2 (k_ext s)) 0 = 0 /\ v_cur v 100 = replicate (Z.to_nat BSIZE) 7.
Proof.
  destruct demo_ready as (s & _ & He & Hrd & Hsz & Hst & Hlg & Hb1 & Hb2).
  destruct (srun_done demo_who (write_block 100 (replicate (Z.to_nat BSIZE) 7)) s (fun _ st => exists v,
    Rep demo_who st v /\ v_held v = ∅ /\ v_dirty v = {[100]} /\ log_ok [100] st /\ lg_start (st_log st) = 2 /\
    lg_size (st_log st) = 30 /\ st_disksize st = 1000 /\ block 1 st = demo_sb /\ get32 (block 2 st) 0 = 0 /\
    v_cur v 100 = replicate (Z.to_nat BSIZE) 7)) as ([] & s' & _ & He' & v & HQ); [|exact He|eauto 20].
  apply write_block_run; [exact Hrd|lia|unfold outside; lia|lia|reflexivity|].
  intros st v HR Hh Hd Hl _ _ Hc _ Hb _ Hs1 Hs2 Hs3. exists v. rewrite !Hb, Hs1, Hs2, Hs3.
  split; [exact HR|]. repeat (split; [done|]). done.
Qed.

Lemma crash_atomic_witness : exists s v s', v_cur v 100 = replicate (Z.to_nat BSIZE) 7 /\
  commit s = Done tt s' /\ st_writes (k_ext s') = st_writes (k_ext s) ++ commit_writes 2 [100] (v_cur v).
Proof.
  destruct demo_transaction as (s & v & He & HR & Hh & Hd & Hl & Hst & Hlg & Hsz & Hb1 & Hb2 & Hc). exists s, v.
  destruct (crash_atomic demo_who s [100] v He HR Hh) as ((s' & Hr & Hw) & _);
    [rewrite Hd; clear; set_solver|exact Hl|simpl; unfold NBUF; lia|repeat constructor|rewrite Hb1, Hst; reflexivity|
     rewrite Hb1, Hlg; reflexivity|rewrite Hst; exact Hb2|].
  exists s'. rewrite <- Hst. auto.
Defined.

Lemma buffer_cache_refines_witness : exists s v i s', Rep demo_who (k_ext s) v /\ bread 1 100 s = Done i s' /\
  Rep demo_who (k_ext s') (hold i 100 v).
Proof.
  destruct demo_ready as (s & _ & He & (v & HR & Hh & Hd & _) & Hsz & _). exists s, v.
  destruct (buffer_cache_refines demo_who s v He HR) as (Hread & _).
  destruct (Hread 100) as (i & s' & Hr & _ & _ & HR' & _); [lia|now rewrite Hh| |].
  - right. rewrite Hh, Hd, map_size_empty, size_empty. unfold NBUF. lia.
  - exists i, s'. auto.
Defined.

Definition demo_blocks : list Z := (fun i => 100 + Z.of_nat i) <$> seq 0 30.
Definition demo_thread_exe (j : nat) : exe := mkExe 0 true (Some 0%nat) (Some (0%nat, j)).

Lemma log_admits_too_much_witness : exists s, (binit ;;; initlog ROOTDEV) demo_kfs = Done tt s /\
  three_calls (fun j => one_cpu (demo_thread_exe j) ∅) demo_blocks s = Crash "too big a transaction".
Proof.
  destruct demo_ready as (s & Hr & He & Hrd & Hsz & Hst & Hlg & _). exists s. split; [exact Hr|].
  apply (log_admits_too_much demo_who s (fun j => one_cpu (demo_thread_exe j) ∅) demo_thread_exe demo_blocks He Hrd Hlg).
  - intros j _. split; [apply one_cpu_mst; [reflexivity|kset]|reflexivity].
  - reflexivity.
  - apply NoDup_fmap_2; [intros a b; lia|apply NoDup_seq].
  - rewrite Hst, Hsz. apply Forall_fmap, Forall_forall. intros i Hi%elem_of_seq. split; [lia|].
    right. unfold LOGSIZE, MAXOPBLOCKS. lia.
Defined.
