(* ===== verification/Fs.v ===== *)
(** * The file system (fs.c)

    Each function of fs.c over the log and the buffer cache.  The address
    passed to [readi] is replaced by the bytes that are copied to it, which the
    function returns with its result; the bytes at the source address of
    [writei] are its argument.  The table [devsw] of device functions, which
    consoleinit fills at run time, is the class [Devices]. *)
From S2P Require Import Prelude Mmu Str Spinlock Kalloc Proc Exec Sched Store Bio Log.

Definition ICACHE_LOCK : nat := 6%nat.
Definition BPB : Z := BSIZE * 8.
Definition IPB : Z := BSIZE / 64.
Definition BBLOCK (b : Z) (sb : superblock) : Z := u32 (b / BPB + sb_bmapstart sb).
Definition IBLOCK (i : Z) (sb : superblock) : Z := u32 (i / IPB + sb_inodestart sb).

Class Devices := {
  dev_read : Z -> option (nat -> Z -> M kfs (Z * list Z));
  dev_write : Z -> option (nat -> list Z -> Z -> M kfs Z);
}.

(** ** Field updates *)
Definition set_i_ref (v : Z) (i : inode) : inode := mkInode (i_dev i) (i_inum i) v (i_valid i) (i_type i) (i_major i) (i_minor i) (i_nlink i) (i_size i) (i_addrs i).
Definition set_i_valid (v : Z) (i : inode) : inode := mkInode (i_dev i) (i_inum i) (i_ref i) v (i_type i) (i_major i) (i_minor i) (i_nlink i) (i_size i) (i_addrs i).
Definition set_i_type (v : Z) (i : inode) : inode := mkInode (i_dev i) (i_inum i) (i_ref i) (i_valid i) v (i_major i) (i_minor i) (i_nlink i) (i_size i) (i_addrs i).
Definition set_i_nlink (v : Z) (i : inode) : inode := mkInode (i_dev i) (i_inum i) (i_ref i) (i_valid i) (i_type i) (i_major i) (i_minor i) v (i_size i) (i_addrs i).
Definition set_i_size (v : Z) (i : inode) : inode := mkInode (i_dev i) (i_inum i) (i_ref i) (i_valid i) (i_type i) (i_major i) (i_minor i) (i_nlink i) v (i_addrs i).
Definition set_i_addr (k : nat) (v : Z) (i : inode) : inode := mkInode (i_dev i) (i_inum i) (i_ref i) (i_valid i) (i_type i) (i_major i) (i_minor i) (i_nlink i) (i_size i) (<[k := v]> (i_addrs i)).
Definition addr (i : inode) (k : Z) : Z := default 0 (i_addrs i !! Z.to_nat k).

(** ** Disk inodes: [struct dinode] at the offset of the inode in its block *)
Definition dip_off (inum : Z) : Z := 64 * (inum mod IPB).
Definition get_dinode (d : list Z) (o : Z) (i : inode) : inode :=
  mkInode (i_dev i) (i_inum i) (i_ref i) (i_valid i)
    (s16 (get16 d o)) (s16 (get16 d (o + 2))) (s16 (get16 d (o + 4))) (s16 (get16 d (o + 6)))
    (get32 d (o + 8)) ((fun k => get32 d (o + 12 + 4 * Z.of_nat k)) <$> seq 0 13).
Fixpoint put_addrs (o : Z) (l : list Z) (d : list Z) : list Z :=
  match l with
  | [] => d
  | a :: l => put_addrs (o + 4) l (put32 o a d)
  end.
Definition put_dinode (o : Z) (i : inode) (d : list Z) : list Z :=
  put_addrs (o + 12) (i_addrs i) (put32 (o + 8) (i_size i) (put16 (o + 6) (i_nlink i)
    (put16 (o + 4) (i_minor i) (put16 (o + 2) (i_major i) (put16 o (i_type i) d))))).
Fixpoint zero_bytes (n : nat) (o : Z) (d : list Z) : list Z :=
  match n with
  | O => d
  | S n => zero_bytes n (o + 1) (set_byte o 0 d)
  end.

Definition data_of (b : nat) : M kfs (list Z) := getst (fun st => b_data (the_buf b st)).
Definition edit (b : nat) (f : list Z -> list Z) : M kfs unit := modst (upd_buf b (fun bb => set_data (f (b_data bb)) bb)).

Section Fs.
Context {W : Wait} {D : Devices}.

Definition bzero (dev bno : Z) : M kfs unit :=
  bp <~ bread dev bno ;;
  edit bp (fun _ => replicate (Z.to_nat BSIZE) 0) ;;;
  log_write bp ;;;
  brelse bp.

(** The inner loop of [balloc]: the first free bit of a bitmap block. *)
Definition bit_set (d : list Z) (bi : Z) : bool := negb (Z.land (byte d (bi / 8)) (2 ^ (bi mod 8)) =? 0).
Fixpoint free_bit (fuel : nat) (d : list Z) (b bi size : Z) : option Z :=
  match fuel with
  | O => None
  | S fuel =>
      if (bi <? BPB) && (b + bi <? size) then
        if bit_set d bi then free_bit fuel d b (bi + 1) size else Some bi
      else None
  end.
Fixpoint balloc_loop (fuel : nat) (dev b : Z) : M kfs Z :=
  match fuel with
  | O => fun _ => Spin
  | S fuel =>
      sb <~ getst st_sb ;;
      if b <? sb_size sb then
        bp <~ bread dev (BBLOCK b sb) ;;
        d <~ data_of bp ;;
        match free_bit (Z.to_nat BPB) d b 0 (sb_size sb) with
        | Some bi =>
            edit bp (fun d => set_byte (bi / 8) (Z.lor (byte d (bi / 8)) (2 ^ (bi mod 8))) d) ;;;
            log_write bp ;;;
            brelse bp ;;;
            bzero dev (b + bi) ;;;
            ret (b + bi)
        | None => brelse bp ;;; balloc_loop fuel dev (b + BPB)
        end
      else panic "balloc: out of blocks"
  end.
Definition balloc (dev : Z) : M kfs Z :=
  size <~ getst (fun st => sb_size (st_sb st)) ;;
  balloc_loop (S (S (Z.to_nat (size / BPB)))) dev 0.

Definition bfree (dev b : Z) : M kfs unit :=
  sb <~ readsb dev ;;
  modst (set_sb sb) ;;;
  bp <~ bread dev (BBLOCK b sb) ;;
  d <~ data_of bp ;;
  let bi := b mod BPB in
  if negb (bit_set d bi) then panic "freeing free block"
  else
    edit bp (fun d => set_byte (bi / 8) (Z.land (byte d (bi / 8)) (Z.lnot (2 ^ (bi mod 8)))) d) ;;;
    log_write bp ;;;
    brelse bp.

(** The report of the superblock on the console is left out. *)
Definition iinit (dev : Z) : M kfs unit :=
  on_cpus (initlock ICACHE_LOCK "icache") ;;;
  for_each (seq 0 NINODE) (fun i => initsleeplock (inode_lock i)) ;;;
  sb <~ readsb dev ;;
  modst (set_sb sb).

(** ** The inode cache *)
Definition cached_inode (dev inum : Z) (i : inode) : bool := (0 <? i_ref i) && (i_dev i =? dev) && (i_inum i =? inum).
Definition iget (dev inum : Z) : M kfs nat :=
  kacquire ICACHE_LOCK ;;;
  l <~ getst st_inodes ;;
  match find_idx (cached_inode dev inum) l with
  | Some ip =>
      modst (upd_inode ip (fun i => set_i_ref (i_ref i + 1) i)) ;;;
      krelease ICACHE_LOCK ;;;
      ret ip
  | None =>
      match find_idx (fun i => i_ref i =? 0) l with
      | None => panic "iget: no inodes"
      | Some ip =>
          modst (upd_inode ip (fun i => mkInode dev inum 1 0 (i_type i) (i_major i) (i_minor i) (i_nlink i) (i_size i) (i_addrs i))) ;;;
          krelease ICACHE_LOCK ;;;
          ret ip
      end
  end.

Definition idup (ip : nat) : M kfs nat :=
  kacquire ICACHE_LOCK ;;;
  modst (upd_inode ip (fun i => set_i_ref (i_ref i + 1) i)) ;;;
  krelease ICACHE_LOCK ;;;
  ret ip.

Fixpoint ialloc_loop (fuel : nat) (dev type inum : Z) : M kfs nat :=
  match fuel with
  | O => fun _ => Spin
  | S fuel =>
      sb <~ getst st_sb ;;
      if inum <? sb_ninodes sb then
        bp <~ bread dev (IBLOCK inum sb) ;;
        d <~ data_of bp ;;
        let o := dip_off inum in
        if s16 (get16 d o) =? 0 then
          edit bp (zero_bytes 64 o) ;;;
          edit bp (put16 o type) ;;;
          log_write bp ;;;
          brelse bp ;;;
          iget dev inum
        else brelse bp ;;; ialloc_loop fuel dev type (inum + 1)
      else panic "ialloc: no inodes"
  end.
Definition ialloc (dev type : Z) : M kfs nat :=
  n <~ getst (fun st => sb_ninodes (st_sb st)) ;;
  ialloc_loop (S (Z.to_nat n)) dev type 1.

Definition iupdate (ip : nat) : M kfs unit :=
  i <~ getst (the_inode ip) ;;
  sb <~ getst st_sb ;;
  bp <~ bread (i_dev i) (IBLOCK (i_inum i) sb) ;;
  i <~ getst (the_inode ip) ;;
  edit bp (put_dinode (dip_off (i_inum i)) i) ;;;
  log_write bp ;;;
  brelse bp.

Definition ilock (o : option nat) : M kfs unit :=
  match o with
  | None => panic "ilock"
  | Some ip =>
      r <~ getst (fun st => i_ref (the_inode ip st)) ;;
      if r <? 1 then panic "ilock"
      else
        acquiresleep (inode_lock ip) ;;;
        i <~ getst (the_inode ip) ;;
        when (i_valid i =? 0) (
          sb <~ getst st_sb ;;
          bp <~ bread (i_dev i) (IBLOCK (i_inum i) sb) ;;
          d <~ data_of bp ;;
          modst (upd_inode ip (get_dinode d (dip_off (i_inum i)))) ;;;
          brelse bp ;;;
          modst (upd_inode ip (set_i_valid 1)) ;;;
          t <~ getst (fun st => i_type (the_inode ip st)) ;;
          when (t =? 0) (panic "ilock: no type"))
  end.

Definition iunlock (o : option nat) : M kfs unit :=
  match o with
  | None => panic "iunlock"
  | Some ip =>
      h <~ holdingsleep (inode_lock ip) ;;
      r <~ getst (fun st => i_ref (the_inode ip st)) ;;
      if negb h || (r <? 1) then panic "iunlock"
      else releasesleep (inode_lock ip)
  end.

(** ** Inode content *)
Definition bmap (ip : nat) (bn : Z) : M kfs Z :=
  i <~ getst (the_inode ip) ;;
  if bn <? NDIRECT then
    if addr i bn =? 0 then
      a <~ balloc (i_dev i) ;;
      modst (upd_inode ip (set_i_addr (Z.to_nat bn) a)) ;;;
      ret a
    else ret (addr i bn)
  else
    let bn := bn - NDIRECT in
    if bn <? NINDIRECT then
      ind <~ (if addr i NDIRECT =? 0 then
                a <~ balloc (i_dev i) ;;
                modst (upd_inode ip (set_i_addr (Z.to_nat NDIRECT) a)) ;;;
                ret a
              else ret (addr i NDIRECT)) ;;
      bp <~ bread (i_dev i) ind ;;
      d <~ data_of bp ;;
      a <~ (if get32 d (4 * bn) =? 0 then
              a <~ balloc (i_dev i) ;;
              edit bp (put32 (4 * bn) a) ;;;
              log_write bp ;;;
              ret a
            else ret (get32 d (4 * bn))) ;;
      brelse bp ;;;
      ret a
    else panic "bmap: out of range".

Definition free_direct (ip : nat) (k : nat) : M kfs unit :=
  i <~ getst (the_inode ip) ;;
  when (negb (addr i (Z.of_nat k) =? 0)) (
    bfree (i_dev i) (addr i (Z.of_nat k)) ;;;
    modst (upd_inode ip (set_i_addr k 0))).
Definition free_indirect (ip bp : nat) (j : nat) : M kfs unit :=
  d <~ data_of bp ;;
  i <~ getst (the_inode ip) ;;
  let a := get32 d (4 * Z.of_nat j) in
  when (negb (a =? 0)) (bfree (i_dev i) a).
Definition itrunc (ip : nat) : M kfs unit :=
  for_each (seq 0 (Z.to_nat NDIRECT)) (free_direct ip) ;;;
  i <~ getst (the_inode ip) ;;
  when (negb (addr i NDIRECT =? 0)) (
    bp <~ bread (i_dev i) (addr i NDIRECT) ;;
    for_each (seq 0 (Z.to_nat NINDIRECT)) (free_indirect ip bp) ;;;
    brelse bp ;;;
    bfree (i_dev i) (addr i NDIRECT) ;;;
    modst (upd_inode ip (set_i_addr (Z.to_nat NDIRECT) 0))) ;;;
  modst (upd_inode ip (set_i_size 0)) ;;;
  iupdate ip.

Definition iput (ip : nat) : M kfs unit :=
  acquiresleep (inode_lock ip) ;;;
  i <~ getst (the_inode ip) ;;
  when (negb (i_valid i =? 0) && (i_nlink i =? 0)) (
    kacquire ICACHE_LOCK ;;;
    r <~ getst (fun st => i_ref (the_inode ip st)) ;;
    krelease ICACHE_LOCK ;;;
    when (r =? 1) (
      itrunc ip ;;;
      modst (upd_inode ip (set_i_type 0)) ;;;
      iupdate ip ;;;
      modst (upd_inode ip (set_i_valid 0)))) ;;;
  releasesleep (inode_lock ip) ;;;
  kacquire ICACHE_LOCK ;;;
  modst (upd_inode ip (fun i => set_i_ref (i_ref i - 1) i)) ;;;
  krelease ICACHE_LOCK.

Definition iunlockput (ip : nat) : M kfs unit :=
  iunlock (Some ip) ;;;
  iput ip.

Record stat := mkStat { st_type : Z; st_dev : Z; st_ino : Z; st_nlink : Z; st_size : Z }.
Definition stati (ip : nat) : M kfs stat :=
  getst (fun st => let i := the_inode ip st in mkStat (i_type i) (i_dev i) (i_inum i) (i_nlink i) (i_size i)).

(** The bytes [o], ..., [o + m - 1] of a block. *)
Definition slice (o m : Z) (d : list Z) : list Z := take (Z.to_nat m) (drop (Z.to_nat o) d).
Definition splice (o : Z) (x d : list Z) : list Z := take (Z.to_nat o) d ++ x ++ drop (Z.to_nat o + length x) d.

Fixpoint readi_loop (fuel ip : nat) (off n tot : Z) : M kfs (list Z) :=
  match fuel with
  | O => fun _ => Spin
  | S fuel =>
      if tot <? n then
        i <~ getst (the_inode ip) ;;
        a <~ bmap ip (off / BSIZE) ;;
        bp <~ bread (i_dev i) a ;;
        d <~ data_of bp ;;
        let m := Z.min (n - tot) (BSIZE - off mod BSIZE) in
        brelse bp ;;;
        r <~ readi_loop fuel ip (u32 (off + m)) n (tot + m) ;;
        ret (slice (off mod BSIZE) m d ++ r)
      else ret []
  end.
Definition readi (ip : nat) (off n : Z) : M kfs (Z * list Z) :=
  i <~ getst (the_inode ip) ;;
  if i_type i =? T_DEV then
    if (i_major i <? 0) || (NDEV <=? i_major i) then ret (-1, [])
    else match dev_read (i_major i) with
         | None => ret (-1, [])
         | Some f => f ip (s32 n)
         end
  else if (i_size i <? off) || (u32 (off + n) <? off) then ret (-1, [])
  else
    let n := if i_size i <? u32 (off + n) then i_size i - off else n in
    r <~ readi_loop (S (Z.to_nat n)) ip off n 0 ;;
    ret (s32 n, r).

Fixpoint writei_loop (fuel ip : nat) (src : list Z) (off n tot : Z) : M kfs Z :=
  match fuel with
  | O => fun _ => Spin
  | S fuel =>
      if tot <? n then
        i <~ getst (the_inode ip) ;;
        a <~ bmap ip (off / BSIZE) ;;
        bp <~ bread (i_dev i) a ;;
        let m := Z.min (n - tot) (BSIZE - off mod BSIZE) in
        edit bp (splice (off mod BSIZE) (take (Z.to_nat m) src)) ;;;
        log_write bp ;;;
        brelse bp ;;;
        writei_loop fuel ip (drop (Z.to_nat m) src) (u32 (off + m)) n (tot + m)
      else ret off
  end.
Definition writei (ip : nat) (src : list Z) (off n : Z) : M kfs Z :=
  i <~ getst (the_inode ip) ;;
  if i_type i =? T_DEV then
    if (i_major i <? 0) || (NDEV <=? i_major i) then ret (-1)
    else match dev_write (i_major i) with
         | None => ret (-1)
         | Some f => f ip src (s32 n)
         end
  else if (i_size i <? off) || (u32 (off + n) <? off) then ret (-1)
  else if MAXFILE * BSIZE <? u32 (off + n) then ret (-1)
  else
    off <~ writei_loop (S (Z.to_nat n)) ip src off n 0 ;;
    i <~ getst (the_inode ip) ;;
    when ((0 <? n) && (i_size i <? off)) (
      modst (upd_inode ip (set_i_size off)) ;;;
      iupdate ip) ;;;
    ret (s32 n).

(** ** Directories *)
Definition DIRENT : Z := 16.
Definition namecmp (s t : list Z) : Z := strncmp s t (Z.to_nat DIRSIZ) 0.
Definition de_inum (de : list Z) : Z := get16 de 0.
Definition de_name (de : list Z) : list Z := drop 2 de.
Definition dirent (inum : Z) (name : list Z) : list Z := put16 0 inum [0; 0] ++ strncpy (replicate (Z.to_nat DIRSIZ) 0) name DIRSIZ.

Fixpoint dirlookup_loop (fuel dp : nat) (name : list Z) (off : Z) : M kfs (option (nat * Z)) :=
  match fuel with
  | O => fun _ => Spin
  | S fuel =>
      i <~ getst (the_inode dp) ;;
      if off <? i_size i then
        '(r, de) <~ readi dp off DIRENT ;;
        if negb (r =? DIRENT) then panic "dirlookup read"
        else if de_inum de =? 0 then dirlookup_loop fuel dp name (u32 (off + DIRENT))
        else if namecmp name (de_name de) =? 0 then
          ip <~ iget (i_dev i) (de_inum de) ;;
          ret (Some (ip, off))
        else dirlookup_loop fuel dp name (u32 (off + DIRENT))
      else ret None
  end.
(** The inode and the offset stored through [poff]. *)
Definition dirlookup (dp : nat) (name : list Z) : M kfs (option (nat * Z)) :=
  i <~ getst (the_inode dp) ;;
  if negb (i_type i =? T_DIR) then panic "dirlookup not DIR"
  else dirlookup_loop (S (Z.to_nat (i_size i / DIRENT + 1))) dp name 0.

(** The offset of the first empty entry. *)
Fixpoint dirlink_loop (fuel dp : nat) (off : Z) : M kfs Z :=
  match fuel with
  | O => fun _ => Spin
  | S fuel =>
      i <~ getst (the_inode dp) ;;
      if off <? i_size i then
        '(r, de) <~ readi dp off DIRENT ;;
        if negb (r =? DIRENT) then panic "dirlink read"
        else if de_inum de =? 0 then ret off
        else dirlink_loop fuel dp (off + DIRENT)
      else ret off
  end.
Definition dirlink (dp : nat) (name : list Z) (inum : Z) : M kfs Z :=
  o <~ dirlookup dp name ;;
  match o with
  | Some (ip, _) => iput ip ;;; ret (-1)
  | None =>
      i <~ getst (the_inode dp) ;;
      off <~ dirlink_loop (S (Z.to_nat (i_size i / DIRENT + 1))) dp 0 ;;
      r <~ writei dp (dirent inum name) off DIRENT ;;
      if negb (r =? DIRENT) then panic "dirlink"
      else ret 0
  end.

(** ** Paths *)
Definition SLASH : Z := 47.
Fixpoint skip_slashes (path : list Z) : list Z :=
  match path with
  | c :: path' => if c =? SLASH then skip_slashes path' else path
  | [] => []
  end.
Fixpoint span_elem (path : list Z) : list Z * list Z :=
  match path with
  | c :: path' => if (c =? SLASH) || (c =? 0) then ([], path) else let '(s, rest) := span_elem path' in (c :: s, rest)
  | [] => ([], [])
  end.
(** The rest of the path and the new content of the array [name]. *)
Definition skipelem (path name : list Z) : option (list Z * list Z) :=
  let path := skip_slashes path in
  if ch path 0 =? 0 then None
  else
    let '(s, path) := span_elem path in
    let len := Z.of_nat (length s) in
    let name := if DIRSIZ <=? len then splice 0 (take (Z.to_nat DIRSIZ) s) name
                else splice 0 (s ++ [0]) name in
    Some (skip_slashes path, name).

Fixpoint namex_loop (fuel ip : nat) (path : list Z) (nameiparent : bool) (name : list Z) : M kfs (option nat * list Z) :=
  match fuel with
  | O => fun _ => Spin
  | S fuel =>
      match skipelem path name with
      | None =>
          if nameiparent then iput ip ;;; ret (None, name)
          else ret (Some ip, name)
      | Some (path, name) =>
          ilock (Some ip) ;;;
          i <~ getst (the_inode ip) ;;
          if negb (i_type i =? T_DIR) then iunlockput ip ;;; ret (None, name)
          else if nameiparent && (ch path 0 =? 0) then iunlock (Some ip) ;;; ret (Some ip, name)
          else
            o <~ dirlookup ip name ;;
            match o with
            | None => iunlockput ip ;;; ret (None, name)
            | Some (next, _) => iunlockput ip ;;; namex_loop fuel next path nameiparent name
            end
      end
  end.
Definition namex (path : list Z) (nameiparent : bool) (name : list Z) : M kfs (option nat * list Z) :=
  ip <~ (if ch path 0 =? SLASH then iget ROOTDEV ROOTINO
         else
           p <~ myproc ;;
           p <~ deref p ;;
           cwd <~ gets (fun s => p_cwd (the_proc p s)) ;;
           ip <~ deref cwd ;;
           idup ip) ;;
  namex_loop (S (length path)) ip path nameiparent name.
Definition namei (path : list Z) : M kfs (option nat) :=
  '(ip, _) <~ namex path false (replicate (Z.to_nat DIRSIZ) 0) ;;
  ret ip.
Definition nameiparent (path : list Z) : M kfs (option nat * list Z) :=
  namex path true (replicate (Z.to_nat DIRSIZ) 0).
End Fs.
