(* ===== verification/Path.v ===== *)
(** * Path names (fs.c: skipelem)

    [skipelem] against a reference that splits the whole path at its slashes.
    Each call removes the first element, so a path is used up after as many
    calls as it has elements: the bound that [namex] needs. *)
From S2P Require Import Prelude Mmu Str Spinlock Kalloc Proc Exec Sched Store Bio Log Fs.

(** The pieces between slashes, empty ones included, and the elements. *)
Fixpoint pieces_of (path : list Z) : list (list Z) :=
  match path with
  | [] => [[]]
  | c :: path =>
      if c =? SLASH then [] :: pieces_of path
      else match pieces_of path with
           | x :: xs => (c :: x) :: xs
           | [] => [[c]]
           end
  end.
Definition elements (path : list Z) : list (list Z) := filter (fun x => x <> []) (pieces_of path).

(** A path without the terminator. *)
Definition no_nul (path : list Z) : Prop := Forall (fun c => c <> 0) path.

Lemma pieces_cons path : exists x xs, pieces_of path = x :: xs.
Proof. destruct path as [|c path]; simpl; [eauto|]. destruct (c =? SLASH); [eauto|]. destruct (pieces_of path); eauto. Qed.

Lemma skip_slashes_elements path : elements (skip_slashes path) = elements path.
Proof.
  induction path as [|c path IH]; simpl; [done|]. destruct (c =? SLASH) eqn:E; [|done]. rewrite IH.
  unfold elements at 2. simpl. rewrite E. rewrite filter_cons_False by auto. done.
Qed.

Lemma skip_slashes_facts path : (length (skip_slashes path) <= length path)%nat /\ ch (skip_slashes path) 0 <> SLASH /\
  (no_nul path -> no_nul (skip_slashes path)).
Proof.
  induction path as [|c path IH]; simpl; [done|]. destruct (Z.eqb_spec c SLASH) as [->|Hne].
  - destruct IH as (? & ? & Hn). split; [lia|]. split; [done|]. intros [_ Hp]%Forall_cons. auto.
  - split; [simpl; lia|]. split; [exact Hne|done].
Qed.

Lemma span_elem_spec path : no_nul path -> ch path 0 <> SLASH -> path <> [] ->
  exists s rest, span_elem path = (s, rest) /\ path = s ++ rest /\ s <> [] /\ Forall (fun c => c <> SLASH /\ c <> 0) s /\
    (rest = [] \/ exists r, rest = SLASH :: r).
Proof.
  intros Hn. assert (G : exists s rest, span_elem path = (s, rest) /\ path = s ++ rest /\ Forall (fun c => c <> SLASH /\ c <> 0) s /\
    (rest = [] \/ exists r, rest = SLASH :: r)).
  { induction path as [|c path IH]; simpl; [exists [], []; repeat split; auto|].
    apply Forall_cons in Hn as [Hc Hn]. destruct (Z.eqb_spec c SLASH) as [->|Hs]; simpl; [exists [], (SLASH :: path); eauto 10|].
    destruct (Z.eqb_spec c 0); [done|]. destruct (IH Hn) as (s & rest & -> & -> & Hs' & Hr).
    exists (c :: s), rest. repeat split; auto. }
  destruct G as (s & rest & Hsp & E & Hs & Hr). intros Hc Hne. exists s, rest. split; [done|]. split; [done|].
  split; [|done]. intros ->. simpl in E. subst path. destruct Hr as [->|(r & ->)]; done.
Qed.

Lemma path_pieces_app s rest : Forall (fun c => c <> SLASH /\ c <> 0) s ->
  pieces_of (s ++ rest) = match pieces_of rest with x :: xs => (s ++ x) :: xs | [] => [s] end.
Proof.
  induction s as [|c s IH]; intros Hs; simpl; [destruct (pieces_cons rest) as (x & xs & ->); done|].
  apply Forall_cons in Hs as [[Hc _] Hs]. destruct (Z.eqb_spec c SLASH); [done|]. rewrite (IH Hs).
  destruct (pieces_cons rest) as (x & xs & ->). done.
Qed.

Lemma elements_app s rest : Forall (fun c => c <> SLASH /\ c <> 0) s -> s <> [] -> (rest = [] \/ exists r, rest = SLASH :: r) ->
  elements (s ++ rest) = s :: elements rest.
Proof.
  intros Hs Hne Hr. unfold elements. rewrite (path_pieces_app s rest Hs). destruct Hr as [->|(r & ->)]; simpl.
  - rewrite app_nil_r, filter_cons_True by done. rewrite filter_cons_False by auto. done.
  - rewrite app_nil_r, filter_cons_True by done. rewrite (filter_cons_False _ []) by auto. done.
Qed.

Lemma cprefix_app n s r : Forall (fun c => c <> SLASH /\ c <> 0) s -> (n <= length s)%nat \/ (exists r', r = 0 :: r') ->
  cprefix n (s ++ r) = take n s.
Proof.
  revert n. induction s as [|c s IH]; intros n Hs Hn.
  - destruct n as [|n]; [done|]. destruct Hn as [?|(r' & ->)]; [simpl in *; lia|done].
  - destruct n as [|n]; [done|]. apply Forall_cons in Hs as [[_ Hc] Hs]. simpl. destruct (Z.eqb_spec c 0); [done|].
    f_equal. apply IH; [done|]. destruct Hn as [?|?]; [left; simpl in *; lia|now right].
Qed.

(** [skipelem] removes the first element of a path.  On a path without
    elements (empty, or slashes only) it returns 0; otherwise the array [name]
    holds the element as a string, cut to [DIRSIZ] bytes, and what is returned
    is a shorter path that does not start with a slash and has the remaining
    elements. *)
Theorem skipelem_spec (path name : list Z) :
  no_nul path -> length name = Z.to_nat DIRSIZ ->
  match skipelem path name with
  | None => elements path = []
  | Some (rest, name') =>
      exists e, elements path = e :: elements rest /\ cprefix (Z.to_nat DIRSIZ) name' = take (Z.to_nat DIRSIZ) e /\
        length name' = Z.to_nat DIRSIZ /\ no_nul rest /\ ch rest 0 <> SLASH /\ (length rest < length path)%nat
  end.
Proof.
  intros Hn Hname. unfold skipelem. destruct (skip_slashes_facts path) as (Hlen & Hs & Hn'). specialize (Hn' Hn).
  rewrite <- (skip_slashes_elements path). destruct (skip_slashes path) as [|c p] eqn:Ep; [done|].
  apply Forall_cons in Hn' as Hc. destruct Hc as [Hc _].
  replace (ch (c :: p) 0 =? 0) with false by (symmetry; apply Z.eqb_neq; exact Hc).
  destruct (span_elem_spec (c :: p) Hn' Hs ltac:(done)) as (s & rest & -> & E & Hne & Hse & Hr). rewrite E in *.
  destruct (skip_slashes_facts rest) as (Hl2 & Hs2 & Hn2). cbv beta iota zeta. exists s.
  split; [rewrite skip_slashes_elements; apply elements_app; assumption|]. rewrite length_app in Hlen.
  assert (Hls : (0 < length s)%nat) by (destruct s; [done|simpl; lia]).
  apply Forall_app in Hn' as [_ Hn'].
  assert (G : forall x, (length x <= Z.to_nat DIRSIZ)%nat -> length (splice 0 x name) = Z.to_nat DIRSIZ).
  { intros x Hx. unfold splice. simpl. rewrite length_app, length_drop, Hname. lia. }
  split; [|split; [|split; [auto|split; [done|lia]]]]; unfold DIRSIZ in *; destruct (Z.leb_spec 14 (Z.of_nat (length s))) as [H|H].
  - unfold splice. change (take (Z.to_nat 0) name) with (@nil Z). cbn [app]. rewrite cprefix_app; [now rewrite take_take|now apply Forall_take|left; rewrite length_take; lia].
  - unfold splice. change (take (Z.to_nat 0) name) with (@nil Z). cbn [app]. rewrite <- app_assoc. apply cprefix_app; [done|right; simpl; eauto].
  - apply G. rewrite length_take. lia.
  - apply G. rewrite length_app. simpl. lia.
Qed.

Lemma skipelem_spec_witness : exists rest name' e, skipelem (bytes "//usr/bin") (replicate 14 1) = Some (rest, name') /\
  elements (bytes "//usr/bin") = e :: elements rest /\ cprefix 14 name' = take 14 e.
Proof.
  pose proof (skipelem_spec (bytes "//usr/bin") (replicate 14 1)) as H.
  destruct (skipelem _ _) as [[rest name']|] eqn:E; [|vm_compute in E; discriminate].
  destruct H as (e & He & Hc & _); [unfold no_nul; vm_compute; repeat constructor; discriminate|reflexivity|]. eauto 10.
Defined.
