(* ===== verification/FileData.v ===== *)
(** * The content of files (fs.c: bmap, readi, writei)

    A file is the sequence of the bytes that the block map of its inode leads
    to.  [readi] returns a part of it and changes nothing; [writei] over blocks
    the file already has changes that part and no other byte of any block. *)
From S2P Require Import Prelude Mmu Str Spinlock Kalloc Proc Exec Sched Store Bio Log LogCrash Fs.

(** The block that holds the [bn]-th block of a file. *)
Definition block_of (cur : Z -> list Z) (i : inode) (bn : Z) : Z :=
  if bn <? NDIRECT then addr i bn else get32 (cur (addr i NDIRECT)) (4 * (bn - NDIRECT)).
Definition file_byte (cur : Z -> list Z) (i : inode) (o : Z) : Z := byte (cur (block_of cur i (o / BSIZE))) (o mod BSIZE).
Definition file_bytes (cur : Z -> list Z) (i : inode) (off n : Z) : list Z := file_byte cur i <$> seqZ off n.

(** The block is allocated, and the indirect block if it is needed. *)
Definition has_block (size : Z) (cur : Z -> list Z) (i : inode) (bn : Z) : Prop :=
  0 < block_of cur i bn < size /\ (NDIRECT <= bn -> 0 < addr i NDIRECT < size).
(** Every block of the first [n] bytes is. *)
Definition has_blocks (size : Z) (cur : Z -> list Z) (i : inode) (n : Z) : Prop :=
  forall bn, 0 <= bn -> bn * BSIZE < n -> has_block size cur i bn.

Lemma slice_bytes o m d : 0 <= o -> 0 <= m -> o + m <= Z.of_nat (length d) -> slice o m d = byte d <$> seqZ o m.
Proof.
  intros Ho Hm Hl. apply list_eq. intros k. unfold slice. rewrite list_lookup_fmap.
  destruct (decide (Z.of_nat k < m)) as [Hk|Hk].
  - rewrite lookup_take_lt by lia. rewrite lookup_drop, lookup_seqZ_lt by lia. simpl. unfold byte.
    replace (Z.to_nat (o + Z.of_nat k)) with (Z.to_nat o + k)%nat by lia.
    destruct (lookup_lt_is_Some_2 d (Z.to_nat o + k)) as [x ->]; [lia|done].
  - rewrite lookup_take_ge, lookup_seqZ_ge by lia. done.
Qed.

Lemma in_block o m k : 0 <= o -> 0 <= k < m -> m <= BSIZE - o mod BSIZE ->
  (o + k) / BSIZE = o / BSIZE /\ (o + k) mod BSIZE = o mod BSIZE + k.
Proof.
  unfold BSIZE. intros Ho Hk Hm. pose proof (Z.div_mod o 512 ltac:(lia)) as E. pose proof (Z.mod_pos_bound o 512 ltac:(lia)) as Hb.
  assert (G : o + k = 512 * (o / 512) + (o mod 512 + k)) by lia. split.
  - symmetry. apply (Z.div_unique (o + k) 512 _ (o mod 512 + k)); lia.
  - symmetry. apply (Z.mod_unique (o + k) 512 (o / 512)); lia.
Qed.

Section Read.
Context {W : Wait} {D : Devices} (w : who).

Lemma bmap_run ip bn st v (Q : Z -> storage -> Prop) :
  let i := the_inode ip st in
  Rep w st v -> v_held v = ∅ -> (size (v_dirty v) < NBUF)%nat -> i_dev i = 1 -> 0 <= bn < MAXFILE ->
  has_block (st_disksize st) (v_cur v) i bn ->
  (forall st', Rep w st' v -> same st st' -> Q (block_of (v_cur v) i bn) st') -> srun w ∅ (bmap ip bn) st ∅ Q.
Proof.
  intros i HR Hh Hn Hdev Hbn [Hb Hind] HQ. unfold bmap. sgo. fold i. unfold block_of in *.
  destruct (bn <? NDIRECT) eqn:En.
  - replace (addr i bn =? 0) with false by lia. sgo. apply HQ; [exact HR|reflexivity].
  - replace (bn - NDIRECT <? NINDIRECT) with true by (unfold MAXFILE in Hbn; lia).
    specialize (Hind ltac:(lia)). replace (addr i NDIRECT =? 0) with false by lia. sgo. rewrite Hdev.
    eapply srun_bind, (bread_run w st v (addr i NDIRECT)); [exact HR|lia|now rewrite Hh|right; rewrite Hh, map_size_empty; lia|].
    intros bp st1 Hi HR1 S1 Hdat. unfold data_of. sgo. rewrite Hdat. replace (get32 _ _ =? 0) with false by lia. sgo.
    eapply srun_bind, (brelse_run w _ (hold bp (addr i NDIRECT) v) bp (addr i NDIRECT)); [exact HR1|apply lookup_insert_eq| |].
    { destruct (decide (addr i NDIRECT ∈ v_dirty v)) as [Hd|Hd]; [now left|right]. apply (rep_coh _ _ _ HR); [done|now rewrite Hh]. }
    intros st2 HR2 S2. rewrite unhold_hold in HR2 by done. sgo. apply HQ; [exact HR2|now transitivity st1].
Qed.

Lemma readi_loop_run fuel ip off n tot st v (Q : list Z -> storage -> Prop) :
  let i := the_inode ip st in
  Rep w st v -> v_held v = ∅ -> (size (v_dirty v) < NBUF)%nat -> i_dev i = 1 ->
  0 <= off -> 0 <= tot <= n -> off + (n - tot) <= MAXFILE * BSIZE -> has_blocks (st_disksize st) (v_cur v) i (off + (n - tot)) ->
  (Z.to_nat (n - tot) < fuel)%nat ->
  (forall st', Rep w st' v -> same st st' -> Q (file_bytes (v_cur v) i off (n - tot)) st') ->
  srun w ∅ (readi_loop fuel ip off n tot) st ∅ Q.
Proof.
  intros i HR Hh Hn Hdev. revert off tot st i HR Hdev Q. induction fuel as [|fuel IH]; intros off tot st i HR Hdev Q Ho Ht Hmax Hall Hf HQ; [lia|].
  cbn [readi_loop]. destruct (Z.ltb_spec tot n) as [Hlt|Hge].
  2: { replace (n - tot) with 0 in * by lia. sgo. apply HQ; [exact HR|reflexivity]. }
  sgo. fold i. pose proof (Z.div_mod off BSIZE ltac:(done)) as E. pose proof (Z.mod_pos_bound off BSIZE ltac:(done)) as Hb.
  assert (Hhas : has_block (st_disksize st) (v_cur v) i (off / BSIZE)) by (apply Hall; [apply Z.div_pos; unfold BSIZE in *; lia|lia]).
  assert (Hbn : 0 <= off / BSIZE < MAXFILE) by (unfold BSIZE in *; split; [apply Z.div_pos; lia|apply Z.div_lt_upper_bound; lia]).
  eapply srun_bind, (bmap_run ip (off / BSIZE) st v); [done..|]. intros st1 HR1 S1. pose proof S1 as (D1 & _ & _ & I1 & _).
  set (m := Z.min (n - tot) (BSIZE - off mod BSIZE)). rewrite Hdev.
  set (b := block_of (v_cur v) i (off / BSIZE)).
  eapply (peek_run w st1 v b (fun d => r <~ readi_loop fuel ip (u32 (off + m)) n (tot + m) ;; ret (slice (off mod BSIZE) m d ++ r)));
    [exact HR1|exact Hh|exact Hn|rewrite D1; destruct Hhas; unfold b; lia|].
  intros st2 HR2 S2. pose proof S2 as (D2 & _ & _ & I2 & _).
  assert (Ei : the_inode ip st2 = i) by (unfold the_inode; now rewrite I2, I1).
  assert (Hm : 0 < m <= n - tot /\ m <= BSIZE - off mod BSIZE) by (unfold m; lia).
  change (MAXFILE * BSIZE) with 71680 in *. rewrite u32_small by lia.
  eapply srun_bind, (IH (off + m) (tot + m) st2 HR2); rewrite ?Ei, ?D2, ?D1; try lia.
  - now replace (off + m + (n - (tot + m))) with (off + (n - tot)) by lia.
  - intros st3 HR3 S3. sgo. replace (slice _ m _ ++ _) with (file_bytes (v_cur v) i off (n - tot)).
    + apply HQ; [exact HR3|]. transitivity st2; [now transitivity st1|exact S3].
    + unfold file_bytes. replace (n - tot) with (m + (n - (tot + m))) at 1 by lia. rewrite seqZ_app, fmap_app by lia. f_equal.
      rewrite slice_bytes; [|lia|lia|rewrite (proj1 (rep_size _ _ _ HR b)); unfold BSIZE in *; lia].
      apply list_eq. intros k. rewrite !list_lookup_fmap. destruct (decide (Z.of_nat k < m)) as [Hk|Hk].
      * rewrite !lookup_seqZ_lt by lia. simpl. f_equal. unfold file_byte.
        destruct (in_block off m (Z.of_nat k)) as [-> ->]; [lia|lia|lia|]. reflexivity.
      * rewrite !lookup_seqZ_ge by lia. done.
Qed.
End Read.

(** ** Writing over the blocks of a file *)

(** The blocks of the first [n] bytes are allocated, distinct, different from
    the indirect block and outside the log. *)
Record file_ok (lg : log) (size : Z) (cur : Z -> list Z) (i : inode) (n : Z) : Prop := mkFileOk {
  fo_has : has_blocks size cur i n;
  fo_inj : forall bn bn', 0 <= bn -> bn * BSIZE < n -> 0 <= bn' -> bn' * BSIZE < n -> block_of cur i bn = block_of cur i bn' -> bn = bn';
  fo_ind : forall bn, 0 <= bn -> bn * BSIZE < n -> block_of cur i bn <> addr i NDIRECT;
  fo_out : forall bn, 0 <= bn -> bn * BSIZE < n -> outside lg (block_of cur i bn);
}.

(** A system call in progress that has written the blocks [bs]. *)
Record in_tx (w : who) (bs : list Z) (st : storage) (v : view) : Prop := mkInTx {
  tx_log : log_ok bs st;
  tx_rep : Rep w st v;
  tx_held : v_held v = ∅;
  tx_dirty : v_dirty v = list_to_set bs;
  tx_out : 1 <= lg_outstanding (st_log st);
}.

(** What a system call leaves alone besides blocks and inodes. *)
Definition tx_same (st st' : storage) : Prop :=
  st_disksize st' = st_disksize st /\ st_sb st' = st_sb st /\ st_inodes st' = st_inodes st /\
  st_files st' = st_files st /\ st_pipes st' = st_pipes st /\ (forall l, (NBUF <= l)%nat -> the_sleep l st' = the_sleep l st) /\
  lg_start (st_log st') = lg_start (st_log st) /\ lg_size (st_log st') = lg_size (st_log st) /\ lg_dev (st_log st') = lg_dev (st_log st) /\
  lg_outstanding (st_log st') = lg_outstanding (st_log st) /\ lg_committing (st_log st') = lg_committing (st_log st).

#[global] Instance tx_same_preorder : PreOrder tx_same.
Proof.
  split; [now repeat split|]. intros a b c (?&?&?&?&?&H&?&?&?&?&?) (?&?&?&?&?&H'&?&?&?&?&?).
  repeat split; try congruence. intros l Hl. now rewrite H', H.
Qed.

Lemma same_tx st st' : same st st' -> tx_same st st'.
Proof. intros (?&E&?&?&?&?&?). repeat split; try done; now rewrite E. Qed.

Lemma tx_same_log n blk st st' : same (upd_log (fun l => set_lg_n n (set_lg_block blk l)) st) st' -> tx_same st st'.
Proof. intros (?&E&?&?&?&?&?). repeat split; try done; now rewrite E. Qed.

Lemma tx_same_outside st st' b : tx_same st st' -> outside (st_log st) b <-> outside (st_log st') b.
Proof. intros (_&_&_&_&_&_&E1&E2&_). unfold outside. now rewrite E1, E2. Qed.

Lemma byte_splice o x d k : 0 <= o -> 0 <= k -> o + Z.of_nat (length x) <= Z.of_nat (length d) ->
  byte (splice o x d) k = if decide (o <= k < o + Z.of_nat (length x)) then byte x (k - o) else byte d k.
Proof.
  intros Ho Hk Hl. unfold byte, splice. assert (Ht : length (take (Z.to_nat o) d) = Z.to_nat o) by (rewrite length_take; lia).
  destruct (decide _) as [H|H].
  - rewrite lookup_app_r, Ht, lookup_app_l by lia. do 2 f_equal. lia.
  - destruct (decide (k < o)) as [Hlt|Hge].
    + rewrite lookup_app_l by lia. now rewrite lookup_take_lt by lia.
    + rewrite lookup_app_r, Ht, lookup_app_r, lookup_drop by lia. do 2 f_equal. lia.
Qed.

Lemma length_splice o x d : 0 <= o -> o + Z.of_nat (length x) <= Z.of_nat (length d) -> length (splice o x d) = length d.
Proof. intros Ho Hl. unfold splice. rewrite !length_app, length_take, length_drop. lia. Qed.

(** A change of one data block of the file. *)
Section Change.
Context (lg : log) (size : Z) (cur : Z -> list Z) (i : inode) (n bn : Z) (new : list Z).
Context (Hok : file_ok lg size cur i n) (Hbn : 0 <= bn) (Hn : bn * BSIZE < n).
Let b := block_of cur i bn.
Let cur' := <[b := new]> cur.

Lemma block_of_change bn' : block_of cur' i bn' = block_of cur i bn'.
Proof.
  unfold block_of, cur'. destruct (bn' <? NDIRECT); [done|]. rewrite fn_lookup_insert_ne; [done|].
  exact (fo_ind _ _ _ _ _ Hok bn Hbn Hn).
Qed.

Lemma file_ok_change : file_ok lg size cur' i n.
Proof.
  destruct Hok as [H1 H2 H3 H4]. constructor.
  - intros k Hk Hk'. destruct (H1 k Hk Hk') as [? ?]. split; [now rewrite block_of_change|done].
  - intros k k'. rewrite !block_of_change. apply H2.
  - intros k. rewrite block_of_change. apply H3.
  - intros k. rewrite block_of_change. apply H4.
Qed.

Lemma file_byte_change o : 0 <= o < n ->
  file_byte cur' i o = if decide (o / BSIZE = bn) then byte new (o mod BSIZE) else file_byte cur i o.
Proof.
  intros Ho. unfold file_byte. rewrite block_of_change. unfold cur'. destruct (decide (o / BSIZE = bn)) as [->|Hne].
  - now rewrite fn_lookup_insert.
  - rewrite fn_lookup_insert_ne; [done|]. intros E. apply Hne. symmetry.
    pose proof (Z.div_mod o BSIZE ltac:(done)). pose proof (Z.mod_pos_bound o BSIZE ltac:(done)).
    apply (fo_inj _ _ _ _ _ Hok); try lia; try exact E. apply Z.div_pos; unfold BSIZE; lia.
Qed.
End Change.

Lemma length_absorb b bs : (length (absorb b bs) <= S (length bs))%nat.
Proof. unfold absorb. destruct (bool_decide _); rewrite ?length_app; simpl; lia. Qed.

Lemma absorb_set b bs : list_to_set (absorb b bs) = ({[b]} ∪ list_to_set bs : gset Z).
Proof.
  unfold absorb. destruct (bool_decide _) eqn:E; [apply bool_decide_eq_true in E|]; [set_solver|].
  rewrite list_to_set_app_L. set_solver.
Qed.

Section Write.
Context {W : Wait} {D : Devices} (w : who).

(** Changing a block that was read and logging it; reading it first. *)
Lemma logged_edit_run {A} bs st st1 v i b f (k : M kfs A) (Q : A -> storage -> Prop) :
  in_tx w bs st v -> same st st1 -> v_held v !! i = None -> Rep w st1 (hold i b v) -> b_data (the_buf i st1) = v_cur v b ->
  outside (st_log st) b -> (forall d, length d = Z.to_nat BSIZE -> length (f d) = length d) ->
  (length bs < Z.to_nat LOGSIZE)%nat -> Z.of_nat (length bs) + 2 <= lg_size (st_log st) ->
  (forall st3, (forall R : unit -> storage -> Prop,
       (forall st', in_tx w (absorb b bs) st' (pin b (put b (f (v_cur v b)) v)) -> tx_same st st' -> R tt st') ->
       srun w ∅ (brelse i) st3 ∅ R) -> srun w ∅ k st3 ∅ Q) ->
  srun w ∅ (edit i f ;;; log_write i ;;; k) st1 ∅ Q.
Proof.
  intros [Hl HR Hh Hd Ho] S1 Hi HR1 Hdat Hout Hf Hn Hs HQ.
  assert (Hhi : v_held (hold i b v) !! i = Some b) by apply lookup_insert_eq.
  unfold edit. sgo. set (st2 := upd_buf i _ st1).
  assert (HR2 : Rep w st2 (put b (f (v_cur v b)) (hold i b v))).
  { pose proof (rep_put w st1 (hold i b v) i b (f (v_cur v b)) HR1 Hhi) as HP.
    replace st2 with (upd_buf i (set_data (f (v_cur v b))) st1); [apply HP; rewrite Hf; apply (rep_size _ _ _ HR)|].
    unfold st2, upd_buf. f_equal. apply list_eq. intros j. destruct (decide (i = j)) as [<-|Hne]; [|now rewrite !list_lookup_alter_ne].
    rewrite !list_lookup_alter_eq. unfold the_buf in Hdat. destruct (st_bufs st1 !! i); [|done]. simpl in *. now rewrite Hdat. }
  assert (S2 : same st st2) by (transitivity st1; [exact S1|now repeat split]). pose proof S2 as (D2 & L2 & _).
  eapply srun_bind, (log_write_run w bs st2 _ i b); [apply (log_ok_same _ _ _ S2 Hl)|exact HR2|exact Hhi|rewrite L2; exact Ho|exact Hn|rewrite L2; exact Hs|rewrite L2; exact Hout|].
  intros st3 blk Hblk Hl3 HR3 S3. apply HQ. intros R Hk.
  eapply (brelse_run w _ _ i b); [exact HR3|exact Hhi|left; simpl; clear; set_solver|]. intros st4 HR4 S4.
  apply Hk.
  - pose proof S4 as (_ & L4 & _). pose proof S3 as (_ & L3 & _). constructor.
    + apply (log_ok_same _ _ _ S4 Hl3).
    + replace (pin b (put b (f (v_cur v b)) v)) with (unhold i (pin b (put b (f (v_cur v b)) (hold i b v)))); [exact HR4|].
      unfold unhold, pin, put, hold. simpl. f_equal. now rewrite delete_insert_id.
    + exact Hh.
    + simpl. now rewrite Hd, absorb_set.
    + rewrite L4, L3. change (st_log (upd_log ?g st2)) with (g (st_log st2)). rewrite L2. exact Ho.
  - transitivity st2; [now apply same_tx|]. transitivity st3; [eapply tx_same_log, S3|now apply same_tx].
Qed.

Lemma tx_bread_run bs st v b (Q : nat -> storage -> Prop) :
  in_tx w bs st v -> 0 <= b < st_disksize st -> (length bs < Z.to_nat LOGSIZE)%nat ->
  (forall i st', v_held v !! i = None -> Rep w st' (hold i b v) -> same st st' -> b_data (the_buf i st') = v_cur v b -> Q i st') ->
  srun w ∅ (bread 1 b) st ∅ Q.
Proof.
  intros [Hl HR Hh Hd Ho] Hb Hn HQ.
  assert (Hsz : (size (v_dirty v) < NBUF)%nat) by (rewrite Hd, size_list_to_set by apply Hl; exact Hn).
  apply (bread_run w st v b); [exact HR|exact Hb|now rewrite Hh|right; rewrite Hh, map_size_empty; exact Hsz|exact HQ].
Qed.

Lemma update_run {A} bs st v b f (k : M kfs A) (Q : A -> storage -> Prop) :
  in_tx w bs st v -> 0 <= b < st_disksize st -> outside (st_log st) b -> (forall d, length d = Z.to_nat BSIZE -> length (f d) = length d) ->
  (length bs < Z.to_nat LOGSIZE)%nat -> Z.of_nat (length bs) + 2 <= lg_size (st_log st) ->
  (forall st', in_tx w (absorb b bs) st' (pin b (put b (f (v_cur v b)) v)) -> tx_same st st' -> srun w ∅ k st' ∅ Q) ->
  srun w ∅ (bp <~ bread 1 b ;; edit bp f ;;; log_write bp ;;; brelse bp ;;; k) st ∅ Q.
Proof.
  intros Htx Hb Hout Hf Hn Hs HQ. eapply srun_bind, (tx_bread_run bs st v b); [done..|].
  intros i st1 Hi HR1 S1 Hdat. apply (logged_edit_run bs st st1 v i b); [done..|].
  intros st3 H3. eapply srun_bind, H3. exact HQ.
Qed.
(** The number of blocks that [n] bytes from [off] on touch. *)
Definition blks (off n : Z) : Z := if n <=? 0 then 0 else (off + n - 1) / BSIZE - off / BSIZE + 1.

Lemma blks_step off n m : 0 <= off -> 0 < n -> m = Z.min n (BSIZE - off mod BSIZE) ->
  1 <= blks off n /\ blks (off + m) (n - m) = blks off n - 1.
Proof.
  unfold blks, BSIZE. intros Ho Hn ->. replace (n <=? 0) with false by lia.
  destruct (Z.leb_spec (n - Z.min n (512 - off mod 512)) 0) as [H|H]; Z.to_euclidean_division_equations; lia.
Qed.

(** The bytes of a file after [src] is written at [off]. *)
Definition written (cur cur' : Z -> list Z) (i : inode) (cap off n : Z) (src : list Z) : Prop :=
  forall o, 0 <= o < cap ->
    file_byte cur' i o = if decide (off <= o < off + n) then byte src (o - off) else file_byte cur i o.

Lemma written_step lg size cur i cap off n m src : file_ok lg size cur i cap -> 0 <= off -> 0 < n -> off + n <= cap ->
  m = Z.min n (BSIZE - off mod BSIZE) -> n <= Z.of_nat (length src) -> (forall b, length (cur b) = Z.to_nat BSIZE) ->
  let b := block_of cur i (off / BSIZE) in let new := splice (off mod BSIZE) (take (Z.to_nat m) src) (cur b) in
  forall cur', file_ok lg size (<[b := new]> cur) i cap ->
  written (<[b := new]> cur) cur' i cap (off + m) (n - m) (drop (Z.to_nat m) src) -> written cur cur' i cap off n src.
Proof.
  intros Hok Ho Hn Hcap Hm Hsrc Hlen b new cur' _ Hw o Hoo. pose proof (Z.mod_pos_bound off BSIZE ltac:(done)) as Hb.
  assert (Hmm : 0 < m <= n /\ m <= BSIZE - off mod BSIZE) by lia.
  assert (Hbn : 0 <= off / BSIZE) by (apply Z.div_pos; unfold BSIZE; lia).
  assert (Hlt : off / BSIZE * BSIZE < cap) by (pose proof (Z.div_mod off BSIZE ltac:(done)); lia).
  rewrite (Hw o Hoo). pose proof (file_byte_change lg size cur i cap (off / BSIZE) new Hok Hbn Hlt o Hoo) as Hch.
  fold b in Hch. rewrite Hch. clear Hch.
  assert (Hlx : Z.of_nat (length (take (Z.to_nat m) src)) = m) by (rewrite length_take; lia).
  assert (Hnew : byte new (o mod BSIZE) = if decide (off mod BSIZE <= o mod BSIZE < off mod BSIZE + m)
    then byte (take (Z.to_nat m) src) (o mod BSIZE - off mod BSIZE) else byte (cur b) (o mod BSIZE)).
  { unfold new. pose proof (Z.mod_pos_bound o BSIZE ltac:(done)). rewrite byte_splice, Hlx; [done|lia|lia|].
    rewrite Hlx, Hlen. unfold BSIZE in *. lia. }
  rewrite Hnew. pose proof (Z.div_mod o BSIZE ltac:(done)) as E1. pose proof (Z.div_mod off BSIZE ltac:(done)) as E2.
  pose proof (Z.mod_pos_bound o BSIZE ltac:(done)) as Hb2.
  destruct (decide (off + m <= o < off + m + (n - m))) as [Hin|Hin].
  - rewrite (decide_True (P := off <= o < off + n)) by lia. unfold byte. rewrite lookup_drop. do 2 f_equal. lia.
  - destruct (decide (o / BSIZE = off / BSIZE)) as [Hsame|Hdiff].
    + rewrite Hsame in E1. destruct (decide (off <= o < off + n)) as [H|H].
      * rewrite decide_True by lia. unfold byte. rewrite lookup_take_lt by lia. do 2 f_equal. lia.
      * rewrite decide_False by lia. unfold file_byte. rewrite Hsame. reflexivity.
    + rewrite decide_False; [done|]. intros [H1 H2]. apply Hdiff. unfold BSIZE in *. clear -H1 H2 Hin Hmm E1 E2 Hb Hb2. nia.
Qed.
Lemma in_tx_rep bs st v st' : in_tx w bs st v -> Rep w st' v -> same st st' -> in_tx w bs st' v.
Proof.
  intros [Hl HR Hh Hd Ho] HR' S. constructor; try done; [apply (log_ok_same _ _ _ S Hl)|]. destruct S as (_ & -> & _). exact Ho.
Qed.

Lemma in_tx_room bs st v : in_tx w bs st v -> (length bs < NBUF)%nat -> (size (v_dirty v) < NBUF)%nat.
Proof. intros [Hl _ _ Hd _] Hn. now rewrite Hd, size_list_to_set by apply Hl. Qed.

(** What a write leaves behind: the transaction goes on, the file has the new
    bytes, and no other block has changed. *)
Record wrote (st : storage) (v : view) (bs : list Z) (i : inode) (cap off n : Z) (src : list Z)
    (st' : storage) (v' : view) (bs' : list Z) : Prop := mkWrote {
  wr_tx : in_tx w bs' st' v';
  wr_same : tx_same st st';
  wr_len : Z.of_nat (length bs') <= Z.of_nat (length bs) + blks off n;
  wr_bytes : written (v_cur v) (v_cur v') i cap off n src;
  wr_other : forall b, (forall bn, off / BSIZE <= bn -> bn * BSIZE < off + n -> b <> block_of (v_cur v) i bn) -> v_cur v' b = v_cur v b;
  wr_file : file_ok (st_log st') (st_disksize st') (v_cur v') i cap;
}.

Lemma writei_loop_run fuel ip src off n tot cap st v bs (Q : Z -> storage -> Prop) :
  let i := the_inode ip st in
  in_tx w bs st v -> i_dev i = 1 -> file_ok (st_log st) (st_disksize st) (v_cur v) i cap -> cap <= MAXFILE * BSIZE ->
  0 <= off -> 0 <= tot <= n -> off + (n - tot) <= cap -> n - tot <= Z.of_nat (length src) ->
  Z.of_nat (length bs) + blks off (n - tot) <= LOGSIZE -> Z.of_nat (length bs) + blks off (n - tot) + 1 <= lg_size (st_log st) ->
  (Z.to_nat (n - tot) < fuel)%nat ->
  (forall st' v' bs', wrote st v bs i cap off (n - tot) src st' v' bs' -> Q (off + (n - tot)) st') ->
  srun w ∅ (writei_loop fuel ip src off n tot) st ∅ Q.
Proof.
  intros i Htx Hdev Hok Hcap. revert src off tot st i v bs Htx Hdev Hok Q.
  induction fuel as [|fuel IH]; intros src off tot st i v bs Htx Hdev Hok Q Ho Ht Hle Hsrc Hb1 Hb2 Hf HQ; [lia|].
  cbn [writei_loop]. destruct (Z.ltb_spec tot n) as [Hlt|Hge].
  2: { sgo. replace off with (off + (n - tot)) by lia. apply (HQ st v bs). constructor; try done.
       - unfold blks. replace (n - tot <=? 0) with true by lia. lia.
       - intros o _. now rewrite decide_False by lia. }
  sgo. fold i. set (bn := off / BSIZE). set (m := Z.min (n - tot) (BSIZE - off mod BSIZE)).
  pose proof (Z.div_mod off BSIZE ltac:(done)) as E. pose proof (Z.mod_pos_bound off BSIZE ltac:(done)) as Hmod. fold bn in E.
  assert (Hbn : 0 <= bn) by (apply Z.div_pos; unfold BSIZE; lia).
  assert (Hbc : bn * BSIZE < cap) by lia. assert (Hm : 0 < m <= n - tot /\ m <= BSIZE - off mod BSIZE) by (unfold m; lia).
  destruct (blks_step off (n - tot) m Ho ltac:(lia) eq_refl) as [Hk1 Hk2].
  assert (Hlb : (length bs < Z.to_nat LOGSIZE)%nat) by lia.
  pose proof (in_tx_room _ _ _ Htx Hlb) as Hroom. set (b := block_of (v_cur v) i bn).
  pose proof (fo_has _ _ _ _ _ Hok bn Hbn Hbc) as Hhas.
  eapply srun_bind, (bmap_run w ip bn st v); [apply Htx|apply Htx|exact Hroom|exact Hdev| |exact Hhas|].
  { split; [done|]. unfold BSIZE in *. lia. }
  fold i b. intros st1 HR1 S1. pose proof S1 as (D1 & L1 & _ & I1 & _). rewrite Hdev.
  eapply (update_run bs st1 v b); [now apply (in_tx_rep bs st)|rewrite D1; destruct Hhas as [Hh1 _]; fold b in Hh1; lia| | |exact Hlb|rewrite L1; lia|].
  { rewrite L1. exact (fo_out _ _ _ _ _ Hok bn Hbn Hbc). }
  { intros d Hd. apply length_splice; [lia|]. rewrite length_take, Hd. unfold BSIZE in *. lia. }
  intros st2 Htx2 S2. set (new := splice _ _ _) in *. assert (S02 : tx_same st st2) by (transitivity st1; [now apply same_tx|exact S2]).
  pose proof S02 as (D2 & _ & I2 & _ & _ & _ & L2a & L2b & _). assert (Ei : the_inode ip st2 = i) by (unfold the_inode, i; now rewrite I2).
  assert (Hok2 : file_ok (st_log st) (st_disksize st) (<[b := new]> (v_cur v)) i cap) by now apply file_ok_change.
  assert (Hok2' : file_ok (st_log st2) (st_disksize st2) (<[b := new]> (v_cur v)) i cap).
  { rewrite D2. destruct Hok2 as [F1 F2 F3 F4]. constructor; try done. intros k Hk Hk'. now apply (tx_same_outside st st2), F4. }
  rewrite u32_small by (change (MAXFILE * BSIZE) with 71680 in Hcap; lia). pose proof (length_absorb b bs) as Hla.
  eapply (IH _ _ _ st2); rewrite ?Ei; [exact Htx2|exact Hdev|exact Hok2'|lia|lia|lia|rewrite length_drop; lia| | |lia|];
    replace (n - (tot + m)) with (n - tot - m) by lia; rewrite ?Hk2, ?L2b; [lia|lia|].
  intros st' v' bs' [R1 R2 R3 R4 R5 R6]. replace (off + m + (n - tot - m)) with (off + (n - tot)) by lia. apply (HQ st' v' bs'). simpl in R4, R5.
  constructor; [exact R1|now transitivity st2|lia| | |exact R6].
  - eapply (written_step _ _ (v_cur v) i cap off (n - tot) m src Hok Ho ltac:(lia) Hle eq_refl Hsrc); [|exact Hok2|exact R4].
    intros c. apply (rep_size _ _ _ (tx_rep _ _ _ _ Htx)).
  - intros c Hc. rewrite R5, fn_lookup_insert_ne; [done| |].
    + intros <-. apply (Hc bn); [lia|lia|done].
    + intros k Hk Hk' ->. apply (Hc k); [|lia|].
      * transitivity ((off + m) / BSIZE); [apply Z.div_le_mono; unfold BSIZE; lia|exact Hk].
      * exact (block_of_change (st_log st) (st_disksize st) (v_cur v) i cap bn new Hok Hbn Hbc k).
Qed.
End Write.

(** ** Whole calls *)
Section Calls.
Context {W : Wait} {D : Devices} (w : who).

Lemma readi_run ip off n st v (Q : Z * list Z -> storage -> Prop) :
  let i := the_inode ip st in
  Rep w st v -> v_held v = ∅ -> (size (v_dirty v) < NBUF)%nat -> i_dev i = 1 -> i_type i <> T_DEV ->
  0 <= i_size i <= MAXFILE * BSIZE -> has_blocks (st_disksize st) (v_cur v) i (i_size i) -> 0 <= off -> 0 <= n -> off + n < 2 ^ 32 ->
  (forall st', Rep w st' v -> same st st' ->
     Q (if i_size i <? off then (-1, []) else (Z.min n (i_size i - off), file_bytes (v_cur v) i off (Z.min n (i_size i - off)))) st') ->
  srun w ∅ (readi ip off n) st ∅ Q.
Proof.
  intros i HR Hh Hn Hdev Hty Hsz Hall Ho Hn0 Hov HQ. unfold readi. sgo. fold i. apply Z.eqb_neq in Hty. rewrite Hty.
  rewrite (u32_small (off + n)) by lia. destruct (Z.ltb_spec (i_size i) off) as [Hlt|Hge]; cbn [orb].
  { sgo. apply HQ; [exact HR|reflexivity]. }
  replace (off + n <? off) with false by lia.
  replace (if i_size i <? off + n then i_size i - off else n) with (Z.min n (i_size i - off)) by (destruct (Z.ltb_spec (i_size i) (off + n)); lia).
  set (m := Z.min n (i_size i - off)) in *. change (MAXFILE * BSIZE) with 71680 in *.
  eapply srun_bind, (readi_loop_run w _ ip off m 0 st v); rewrite ?Z.sub_0_r; [exact HR|exact Hh|exact Hn|exact Hdev|lia|lia|change (MAXFILE * BSIZE) with 71680; lia| |lia|].
  - intros bn Hb Hb'. apply Hall; lia.
  - fold i. intros st' HR' S'. sgo. rewrite s32_small by lia. now apply HQ.
Qed.

Lemma writei_run ip src off n st v bs (Q : Z -> storage -> Prop) :
  let i := the_inode ip st in
  in_tx w bs st v -> i_dev i = 1 -> i_type i <> T_DEV -> i_size i <= MAXFILE * BSIZE ->
  file_ok (st_log st) (st_disksize st) (v_cur v) i (i_size i) ->
  0 <= off -> 0 <= n -> off + n <= i_size i -> n <= Z.of_nat (length src) ->
  Z.of_nat (length bs) + blks off n <= LOGSIZE -> Z.of_nat (length bs) + blks off n + 1 <= lg_size (st_log st) ->
  (forall st' v' bs', wrote w st v bs i (i_size i) off n src st' v' bs' -> Q n st') ->
  srun w ∅ (writei ip src off n) st ∅ Q.
Proof.
  intros i Htx Hdev Hty Hsz Hok Ho Hn0 Hend Hsrc Hb1 Hb2 HQ. unfold writei. sgo. fold i. apply Z.eqb_neq in Hty. rewrite Hty.
  change (MAXFILE * BSIZE) with 71680 in *. rewrite (u32_small (off + n)) by lia.
  replace (i_size i <? off) with false by lia. replace (off + n <? off) with false by lia. replace (71680 <? off + n) with false by lia. cbn [orb].
  eapply srun_bind, (writei_loop_run w _ ip src off n 0 (i_size i) st v bs); rewrite ?Z.sub_0_r;
    [exact Htx|exact Hdev|exact Hok|exact Hsz|lia|lia|lia|lia|exact Hb1|exact Hb2|lia|].
  intros st' v' bs' Hw. sgo. pose proof (wr_same _ _ _ _ _ _ _ _ _ _ _ _ Hw) as (_ & _ & I & _).
  assert (Ei : the_inode ip st' = i) by (unfold the_inode, i; now rewrite I). rewrite Ei.
  replace (i_size i <? off + n) with false by lia. rewrite andb_false_r. cbn [when]. sgo. rewrite s32_small by lia. now apply (HQ st' v' bs').
Qed.

(** C25. [readi] returns the bytes of the file from the offset on, at most up
    to its end, and changes neither the file nor any block; past the end of
    the file it fails.  The blocks are those of the inode's direct entries and
    of its indirect block. *)
Theorem readi_reads_file (s : kfs) (v : view) (ip : nat) (off n : Z) :
  let i := the_inode ip (k_ext s) in
  env w ∅ s -> Rep w (k_ext s) v -> v_held v = ∅ -> (size (v_dirty v) < NBUF)%nat -> i_dev i = 1 -> i_type i <> T_DEV ->
  0 <= i_size i <= MAXFILE * BSIZE -> has_blocks (st_disksize (k_ext s)) (v_cur v) i (i_size i) ->
  0 <= off -> 0 <= n -> off + n < 2 ^ 32 ->
  exists s', readi ip off n s = Done (if i_size i <? off then (-1, [])
                                      else (Z.min n (i_size i - off), file_bytes (v_cur v) i off (Z.min n (i_size i - off)))) s' /\
    env w ∅ s' /\ Rep w (k_ext s') v /\ same (k_ext s) (k_ext s').
Proof.
  intros i He HR Hh Hn Hdev Hty Hsz Hall Ho Hn0 Hov.
  set (r := if i_size i <? off then _ else _).
  destruct (srun_done w (readi ip off n) s (fun a st' => a = r /\ Rep w st' v /\ same (k_ext s) st')) as (a & s' & Hr & He' & -> & HR' & S');
    [|exact He|eauto 10].
  apply (readi_run ip off n _ v); try done.
Qed.

(** C11. Writing over a part of a file and reading it back.  Inside a
    transaction with enough room in the log, [writei] to bytes the file already
    has returns their number, gives the file exactly these bytes and leaves
    every other byte of the file and every other block as it was; [readi] then
    returns what was written. *)
Theorem writei_readi (s : kfs) (v : view) (bs : list Z) (ip : nat) (src : list Z) (off n : Z) :
  let st := k_ext s in let i := the_inode ip st in
  env w ∅ s -> in_tx w bs st v -> i_dev i = 1 -> i_type i <> T_DEV -> i_size i <= MAXFILE * BSIZE ->
  file_ok (st_log st) (st_disksize st) (v_cur v) i (i_size i) ->
  0 <= off -> 0 <= n -> off + n <= i_size i -> n <= Z.of_nat (length src) ->
  Z.of_nat (length bs) + blks off n < LOGSIZE -> Z.of_nat (length bs) + blks off n + 1 <= lg_size (st_log st) ->
  exists s' v' bs', writei ip src off n s = Done n s' /\ env w ∅ s' /\ wrote w st v bs i (i_size i) off n src (k_ext s') v' bs' /\
    exists s'', readi ip off n s' = Done (n, take (Z.to_nat n) src) s''.
Proof.
  intros st i He Htx Hdev Hty Hsz Hok Ho Hn0 Hend Hsrc Hb1 Hb2.
  destruct (srun_done w (writei ip src off n) s (fun a st' => a = n /\ exists v' bs', wrote w st v bs i (i_size i) off n src st' v' bs'))
    as (a & s' & Hr & He' & -> & v' & bs' & Hw); [|exact He|].
  { apply (writei_run ip src off n _ v bs); try done; [lia|]. intros st' v' bs' Hw. eauto. }
  exists s', v', bs'. split; [exact Hr|]. split; [exact He'|]. split; [exact Hw|].
  pose proof Hw as [R1 R2 R3 R4 R5 R6]. pose proof R2 as (_ & _ & I & _).
  assert (Ei : the_inode ip (k_ext s') = i) by (unfold the_inode, i, st; now rewrite I).
  change (MAXFILE * BSIZE) with 71680 in *.
  destruct (srun_done w (readi ip off n) s' (fun a _ => a = (n, take (Z.to_nat n) src))) as (a & s'' & Hr2 & _ & ->); [|exact He'|eauto].
  apply (readi_run ip off n _ v'); rewrite ?Ei; try done; try lia; [apply R1|apply R1| |change (MAXFILE * BSIZE) with 71680; lia|apply R6|].
  { apply (in_tx_room w bs' _ _ R1). unfold LOGSIZE, MAXOPBLOCKS in Hb1. unfold NBUF. lia. }
  intros st'' _ _. replace (i_size i <? off) with false by lia. rewrite Z.min_l by lia. f_equal.
  unfold file_bytes. apply list_eq. intros k. rewrite list_lookup_fmap. destruct (decide (Z.of_nat k < n)) as [Hk|Hk].
  - rewrite lookup_seqZ_lt, lookup_take_lt by lia. simpl. rewrite (R4 (off + Z.of_nat k)) by lia. rewrite decide_True by lia.
    unfold byte. replace (Z.to_nat (off + Z.of_nat k - off)) with k by lia. destruct (lookup_lt_is_Some_2 src k) as [x ->]; [lia|done].
  - rewrite lookup_seqZ_ge, lookup_take_ge by lia. done.
Qed.
End Calls.

(** ** A file of 600 bytes in the blocks 100 and 101 *)
Definition demo_inode : inode := mkInode 1 7 1 1 T_FILE 0 0 1 600 (100 :: 101 :: replicate 11 0).
#[local] Instance demo_wait : Wait := 0%nat.
#[local] Instance no_devices : Devices := {| dev_read := fun _ => None; dev_write := fun _ => None |}.

Lemma demo_blocks bn : 0 <= bn -> bn * BSIZE < 600 -> (bn = 0 \/ bn = 1) /\ forall cur, block_of cur demo_inode bn = 100 + bn.
Proof. unfold BSIZE. intros H0 H1. assert (bn = 0 \/ bn = 1) as [-> | ->] by lia; split; auto. Qed.

Lemma demo_file_ok lg cur : lg_start lg = 2 -> lg_size lg = 30 -> file_ok lg 1000 cur demo_inode 600.
Proof.
  intros E1 E2. constructor.
  - intros bn H0 H1. destruct (demo_blocks bn H0 H1) as [H E]. split; [rewrite E; lia|unfold NDIRECT; lia].
  - intros bn bn' H0 H1 H2 H3. destruct (demo_blocks bn H0 H1) as [_ E], (demo_blocks bn' H2 H3) as [_ E']. rewrite E, E'. lia.
  - intros bn H0 H1. destruct (demo_blocks bn H0 H1) as [_ E]. rewrite E. vm_compute addr. lia.
  - intros bn H0 H1. destruct (demo_blocks bn H0 H1) as [_ E]. rewrite E. unfold outside. lia.
Qed.

Lemma demo_file : exists s v, env demo_who ∅ s /\ in_tx demo_who [] (k_ext s) v /\ st_disksize (k_ext s) = 1000 /\
  the_inode 0 (k_ext s) = demo_inode /\ lg_size (st_log (k_ext s)) = 30 /\ file_ok (st_log (k_ext s)) 1000 (v_cur v) demo_inode 600.
Proof.
  destruct demo_ready as (s & _ & He & (v & HR & Hh & Hd & Hl & _) & Hsz & Hst & Hlg & _).
  exists (upd_store (fun st => upd_log (set_lg_outstanding 1) (set_inodes [demo_inode] st)) s), v.
  assert (HR' : Rep demo_who (set_inodes [demo_inode] (k_ext s)) v) by (destruct HR; constructor; done).
  assert (Hl' : log_ok [] (set_inodes [demo_inode] (k_ext s))) by (destruct Hl; constructor; done).
  split; [exact He|]. split; [|split; [exact Hsz|split; [done|split; [exact Hlg|now apply demo_file_ok]]]].
  constructor; [now apply log_ok_fields|now apply rep_upd_log|exact Hh|exact Hd|simpl; lia].
Qed.

Lemma readi_reads_file_witness : exists s v s', the_inode 0 (k_ext s) = demo_inode /\
  readi 0 500 1000 s = Done (100, file_bytes (v_cur v) demo_inode 500 100) s'.
Proof.
  destruct demo_file as (s & v & He & Htx & Hsz & Hi & _ & Hok). exists s, v.
  destruct (readi_reads_file demo_who s v 0 500 1000 He (tx_rep _ _ _ _ Htx) (tx_held _ _ _ _ Htx)) as (s' & Hr & _); rewrite ?Hi, ?Hsz; try done.
  - apply (in_tx_room demo_who [] _ _ Htx). simpl. unfold NBUF. lia.
  - apply Hok.
  - exists s'. split; [done|]. rewrite Hi in Hr. exact Hr.
Defined.

Lemma writei_readi_witness : exists s s' s'', the_inode 0 (k_ext s) = demo_inode /\
  writei 0 (replicate 200 7) 400 200 s = Done 200 s' /\ readi 0 400 200 s' = Done (200, replicate 200 7) s''.
Proof.
  destruct demo_file as (s & v & He & Htx & Hsz & Hi & Hlg & Hok). exists s.
  destruct (writei_readi demo_who s v [] 0 (replicate 200 7) 400 200 He Htx) as (s' & v' & bs' & Hw & _ & _ & s'' & Hr);
    rewrite ?Hi, ?Hsz, ?Hlg; try done; exists s', s''; auto.
Defined.
