(* ===== verification/Inode.v ===== *)
(** * The inode cache and the inodes on disk (fs.c: iget, idup, iput, iupdate,
    ilock)

    The cache as a map from inodes to reference counts: [refs l dev inum] is
    the count of the inode [inum] of the device [dev] in the table [l].  And
    the layout of an inode on disk: what [iupdate] stores is what [ilock]
    reads. *)
From S2P Require Import Prelude Mmu Str Spinlock Kalloc Proc Exec Sched Store Bio Log LogCrash Fs FileData.

Definition same_inode (dev inum : Z) (i : inode) : Prop := i_dev i = dev /\ i_inum i = inum.

(** No inode has two entries in use. *)
Record icache_ok (l : list inode) : Prop := mkIcacheOk {
  ic_len : length l = NINODE;
  ic_pos : Forall (fun i => 0 <= i_ref i) l;
  ic_uniq : forall j k a b, l !! j = Some a -> l !! k = Some b -> 0 < i_ref a -> 0 < i_ref b ->
    i_dev a = i_dev b -> i_inum a = i_inum b -> j = k;
}.
Definition refs (l : list inode) (dev inum : Z) : Z :=
  match find_idx (cached_inode dev inum) l with
  | Some j => i_ref (default inode0 (l !! j))
  | None => 0
  end.

Lemma cached_inode_spec dev inum i : cached_inode dev inum i = true <-> 0 < i_ref i /\ i_dev i = dev /\ i_inum i = inum.
Proof. unfold cached_inode. rewrite !andb_true_iff, Z.ltb_lt, !Z.eqb_eq. tauto. Qed.

Lemma find_cached_inode l dev inum j a : icache_ok l -> l !! j = Some a -> cached_inode dev inum a = true ->
  find_idx (cached_inode dev inum) l = Some j.
Proof.
  intros Hok Hj Hc. destruct (find_idx (cached_inode dev inum) l) as [k|] eqn:E.
  - apply find_idx_Some in E as [(b & Hk & Hb) _]. apply cached_inode_spec in Hc as (? & ? & ?), Hb as (? & ? & ?).
    f_equal. symmetry. eapply ic_uniq; eauto; congruence.
  - apply find_idx_None in E. rewrite Forall_lookup in E. specialize (E j a Hj). congruence.
Qed.

Lemma refs_cached l dev inum j a : icache_ok l -> l !! j = Some a -> cached_inode dev inum a = true -> refs l dev inum = i_ref a.
Proof. intros Hok Hj Hc. unfold refs. rewrite (find_cached_inode l dev inum j a Hok Hj Hc), Hj. done. Qed.

Lemma refs_none l dev inum : (forall j a, l !! j = Some a -> cached_inode dev inum a = false) -> refs l dev inum = 0.
Proof.
  intros H. unfold refs. destruct (find_idx _ l) as [j|] eqn:E; [|done].
  apply find_idx_Some in E as [(a & Hj & Ha) _]. rewrite (H j a Hj) in Ha. discriminate.
Qed.

(** Replacing one entry: the counts of the inodes it does not concern stay. *)
Section Replace.
Context (l : list inode) (j : nat) (a b : inode).
Context (Hok : icache_ok l) (Hj : l !! j = Some a) (Hb : 0 <= i_ref b).
Context (Hfree : forall k c, k <> j -> l !! k = Some c -> cached_inode (i_dev b) (i_inum b) c = false).

Lemma lookup_replace k : <[j := b]> l !! k = if decide (k = j) then Some b else l !! k.
Proof.
  destruct (decide (k = j)) as [->|Hne]; [|now rewrite list_lookup_insert_ne by done].
  apply list_lookup_insert_eq. eapply lookup_lt_Some, Hj.
Qed.

Lemma icache_replace : icache_ok (<[j := b]> l).
Proof.
  destruct Hok as [H1 H2 H3]. constructor; [now rewrite length_insert|now apply Forall_insert|].
  intros k m x y. rewrite !lookup_replace. intros Hk Hm Hx Hy Ed Ei. destruct (decide (k = j)), (decide (m = j)); simplify_eq; try done.
  - exfalso. assert (E : cached_inode (i_dev x) (i_inum x) y = false) by eauto.
    rewrite (proj2 (cached_inode_spec _ _ _)) in E by auto. discriminate.
  - exfalso. assert (E : cached_inode (i_dev y) (i_inum y) x = false) by eauto.
    rewrite (proj2 (cached_inode_spec _ _ _)) in E by auto. discriminate.
  - eauto.
Qed.

Lemma refs_replace_same : refs (<[j := b]> l) (i_dev b) (i_inum b) = i_ref b.
Proof.
  destruct (decide (0 < i_ref b)) as [Hpos|Hz].
  - apply (refs_cached _ _ _ j); [apply icache_replace| |now apply cached_inode_spec].
    rewrite lookup_replace. now rewrite decide_True.
  - rewrite refs_none; [lia|]. intros k c. rewrite lookup_replace. destruct (decide (k = j)) as [_|Hne]; [|eauto].
    intros [= <-]. apply not_true_iff_false. rewrite cached_inode_spec. lia.
Qed.

Lemma refs_replace_other dev inum : ~ same_inode dev inum b -> (0 < i_ref a -> ~ same_inode dev inum a) ->
  refs (<[j := b]> l) dev inum = refs l dev inum.
Proof.
  intros Nb Na. unfold same_inode in *. destruct (find_idx (cached_inode dev inum) l) as [k|] eqn:E.
  - apply find_idx_Some in E as [(c & Hk & Hc) _].
    assert (k <> j) by (intros ->; simplify_eq; apply cached_inode_spec in Hc; tauto).
    rewrite (refs_cached l dev inum k c Hok Hk Hc). apply (refs_cached _ _ _ k); [apply icache_replace| |done].
    rewrite lookup_replace. now rewrite decide_False.
  - rewrite find_idx_None, Forall_lookup in E. rewrite (refs_none l) by eauto.
    apply refs_none. intros k c. rewrite lookup_replace. destruct (decide (k = j)); [|eauto].
    intros [= <-]. apply not_true_iff_false. rewrite cached_inode_spec. tauto.
Qed.
End Replace.

(** ** The operations change one count *)
Record counts_change (dev inum k : Z) (l l' : list inode) : Prop := mkCounts {
  cc_ok : icache_ok l';
  cc_refs : forall d n, refs l' d n = refs l d n + if decide (d = dev /\ n = inum) then k else 0;
}.

Lemma find_idx_here l ip a : icache_ok l -> l !! ip = Some a -> 0 < i_ref a ->
  refs l (i_dev a) (i_inum a) = i_ref a /\ forall k c, k <> ip -> l !! k = Some c -> cached_inode (i_dev a) (i_inum a) c = false.
Proof.
  intros Hok Hip Ha. assert (Hc : cached_inode (i_dev a) (i_inum a) a = true) by now apply cached_inode_spec.
  split; [now apply (refs_cached l _ _ ip)|]. intros k c Hne Hk. apply not_true_iff_false. intros (Hr & Ed & Ei)%cached_inode_spec.
  apply Hne. eapply ic_uniq; eauto.
Qed.

(** A new count for an entry in use. *)
Lemma count_entry l ip a k : icache_ok l -> l !! ip = Some a -> 0 < i_ref a -> 0 <= i_ref a + k ->
  counts_change (i_dev a) (i_inum a) k l (alter (fun i => set_i_ref (i_ref i + k) i) ip l).
Proof.
  intros Hok Hip Ha Hk. destruct (find_idx_here l ip a Hok Hip Ha) as [Er Hf].
  assert (E : alter (fun i => set_i_ref (i_ref i + k) i) ip l = <[ip := set_i_ref (i_ref a + k) a]> l).
  { apply list_eq. intros j. rewrite (lookup_replace l ip a) by done. destruct (decide (j = ip)) as [->|Hne].
    - now rewrite list_lookup_alter_eq, Hip.
    - now rewrite list_lookup_alter_ne. }
  rewrite E. constructor; [now apply (icache_replace l ip a)|]. intros d n. destruct (decide (d = _ /\ n = _)) as [[-> ->]|Hne].
  - rewrite Er. apply (refs_replace_same l ip a (set_i_ref (i_ref a + k) a)); done.
  - rewrite Z.add_0_r. apply (refs_replace_other l ip a); try done; [|intros _]; intros [E1 E2]; apply Hne; now simpl in E1, E2.
Qed.

(** A free entry taken for an inode that has none. *)
Lemma count_new l ip a b : icache_ok l -> l !! ip = Some a -> i_ref a = 0 -> i_ref b = 1 ->
  find_idx (cached_inode (i_dev b) (i_inum b)) l = None -> counts_change (i_dev b) (i_inum b) 1 l (<[ip := b]> l).
Proof.
  intros Hok Hip Ha Hb Hn. assert (E : forall k c, l !! k = Some c -> cached_inode (i_dev b) (i_inum b) c = false).
  { rewrite find_idx_None, Forall_lookup in Hn. eauto. }
  constructor; [apply (icache_replace l ip a); eauto; lia|]. intros d n. destruct (decide (d = _ /\ n = _)) as [[-> ->]|Hne].
  - rewrite (refs_replace_same l ip a b); eauto; [|lia]. unfold refs. now rewrite Hn, Hb.
  - rewrite Z.add_0_r. apply (refs_replace_other l ip a); eauto; [lia| |lia]. intros [E1 E2]. now apply Hne.
Qed.

Section Runs.
Context {W : Wait} {D : Devices} (w : who).

(** The rest of the storage. *)
Definition but_inodes (st st' : storage) : Prop := exists l, st' = set_inodes l st.

Lemma iget_run dev inum st (Q : nat -> storage -> Prop) :
  icache_ok (st_inodes st) -> 0 < refs (st_inodes st) dev inum \/ (exists k a, st_inodes st !! k = Some a /\ i_ref a = 0) ->
  (forall ip l a, counts_change dev inum 1 (st_inodes st) l -> l !! ip = Some a -> same_inode dev inum a -> 0 < i_ref a ->
     Q ip (set_inodes l st)) -> srun w ∅ (iget dev inum) st ∅ Q.
Proof.
  intros Hok Hroom HQ. unfold iget. sgo. destruct (find_idx (cached_inode dev inum) (st_inodes st)) as [ip|] eqn:E.
  - apply find_idx_Some in E as [(a & Hip & (Hr & <- & <-)%cached_inode_spec) _]. sgo. unfold upd_inode.
    apply (HQ ip _ (set_i_ref (i_ref a + 1) a)); [apply count_entry; try done; lia| |done|simpl; lia].
    now rewrite list_lookup_alter_eq, Hip.
  - destruct (find_idx (fun i => i_ref i =? 0) (st_inodes st)) as [ip|] eqn:E2.
    + apply find_idx_Some in E2 as [(a & Hip & Ha%Z.eqb_eq) _]. sgo. unfold upd_inode.
      set (b := mkInode dev inum 1 0 (i_type a) (i_major a) (i_minor a) (i_nlink a) (i_size a) (i_addrs a)).
      match goal with |- Q _ (set_inodes (alter ?f ip _) _) => assert (El : alter f ip (st_inodes st) = <[ip := b]> (st_inodes st)) end.
      { apply list_eq. intros j. rewrite (lookup_replace _ ip a) by done. destruct (decide (j = ip)) as [->|Hne].
        - now rewrite list_lookup_alter_eq, Hip.
        - now rewrite list_lookup_alter_ne. }
      rewrite El. apply (HQ ip _ b); [apply (count_new _ ip a b); done| |done|simpl; lia].
      rewrite (lookup_replace _ ip a) by done. now rewrite decide_True.
    + exfalso. destruct Hroom as [Hr|(k & a & Hk & Ha)].
      * unfold refs in Hr. rewrite E in Hr. lia.
      * rewrite find_idx_None, Forall_lookup in E2. specialize (E2 k a Hk). simpl in E2. lia.
Qed.

Lemma idup_run ip a st (Q : nat -> storage -> Prop) :
  icache_ok (st_inodes st) -> st_inodes st !! ip = Some a -> 0 < i_ref a ->
  (forall l, counts_change (i_dev a) (i_inum a) 1 (st_inodes st) l -> Q ip (set_inodes l st)) -> srun w ∅ (idup ip) st ∅ Q.
Proof. intros Hok Hip Ha HQ. unfold idup. sgo. apply HQ, count_entry; try done; lia. Qed.

Lemma iput_run ip a st (Q : unit -> storage -> Prop) :
  icache_ok (st_inodes st) -> st_inodes st !! ip = Some a -> 0 < i_ref a ->
  sl_locked (the_sleep (inode_lock ip) st) = 0 -> i_valid a = 0 \/ i_nlink a <> 0 \/ 1 < i_ref a ->
  (forall l, counts_change (i_dev a) (i_inum a) (-1) (st_inodes st) l ->
     Q tt (set_inodes l (set_sleep (inode_lock ip) (mkSleep 0 0) st))) -> srun w ∅ (iput ip) st ∅ Q.
Proof.
  intros Hok Hip Ha Hsl Hkeep HQ. unfold iput. eapply srun_bind, srun_acquiresleep; [set_solver|kset|done|].
  set (st1 := set_sleep _ _ st). sgo.
  assert (E1 : the_inode ip st1 = a) by (unfold the_inode; simpl; now rewrite Hip). rewrite E1. eapply srun_bind.
  assert (Hw : forall (Q1 : unit -> storage -> Prop), Q1 tt st1 -> srun w ∅ (kacquire ICACHE_LOCK ;;;
    r <~ getst (fun st => i_ref (the_inode ip st)) ;; krelease ICACHE_LOCK ;;;
    when (r =? 1) (itrunc ip ;;; modst (upd_inode ip (set_i_type 0)) ;;; iupdate ip ;;; modst (upd_inode ip (set_i_valid 0)))) st1 ∅ Q1 \/ i_ref a = 1).
  { intros Q1 H1. destruct (decide (i_ref a = 1)) as [|Hr]; [now right|left]. sgo. rewrite E1.
    apply Z.eqb_neq in Hr. rewrite Hr. now apply srun_ret. }
  match goal with |- srun _ _ _ _ _ ?Q1 => specialize (Hw Q1) end.
  apply srun_when; [intros [Hv Hn]%andb_true_iff; destruct Hw as [Hw|Hw]; [|exact Hw|lia]|intros _];
    (eapply srun_bind, srun_releasesleep; [set_solver|set_solver|kset|]; sgo; unfold st1; rewrite set_sleep_set; apply HQ, count_entry; try done; lia).
Qed.
End Runs.

(** ** The inode on disk *)
Definition in_s16 (z : Z) : Prop := - 2 ^ 15 <= z < 2 ^ 15.
(** What a [struct dinode] can hold. *)
Record storable (i : inode) : Prop := mkStorable {
  sb_fields : in_s16 (i_type i) /\ in_s16 (i_major i) /\ in_s16 (i_minor i) /\ in_s16 (i_nlink i);
  sb_file : 0 <= i_size i < 2 ^ 32;
  sb_addrs : length (i_addrs i) = 13%nat /\ Forall (fun a => 0 <= a < 2 ^ 32) (i_addrs i);
}.

Lemma byte_put16 i v d j : 0 <= i -> i + 1 < Z.of_nat (length d) -> 0 <= j ->
  byte (put16 i v d) j = if decide (j = i + 1) then u8 (v / 256) else if decide (j = i) then u8 v else byte d j.
Proof.
  intros Hi Hl Hj. unfold put16. rewrite !byte_set by (rewrite ?length_set_byte; lia).
  repeat (destruct (decide _); try lia); done.
Qed.

Lemma get16_put16 i v d : 0 <= i -> i + 1 < Z.of_nat (length d) -> in_s16 v -> s16 (get16 (put16 i v d) i) = v.
Proof.
  intros Hi Hl Hv. unfold get16. rewrite !byte_put16 by lia. repeat (destruct (decide _); try lia).
  unfold in_s16, s16, u8 in *. change (2 ^ 15) with 32768 in *. clear -Hv. Z.to_euclidean_division_equations. lia.
Qed.

Lemma get16_put16_ne i v d j : 0 <= i -> i + 1 < Z.of_nat (length d) -> 0 <= j -> (j + 2 <= i \/ i + 2 <= j) ->
  get16 (put16 i v d) j = get16 d j.
Proof. intros. unfold get16. rewrite !byte_put16 by lia. repeat (destruct (decide _); try lia); done. Qed.

Lemma get16_put32_ne i v d j : 0 <= i -> i + 3 < Z.of_nat (length d) -> 0 <= j -> j + 2 <= i -> get16 (put32 i v d) j = get16 d j.
Proof. intros. unfold get16. rewrite !byte_put32 by lia. repeat (destruct (decide _); try lia); done. Qed.

(** The addresses, one after the other. *)
Lemma length_put_addrs l o d : length (put_addrs o l d) = length d.
Proof. revert o d. induction l as [|a l IH]; intros o d; simpl; [done|]. now rewrite IH, length_put32. Qed.

Lemma byte_put_addrs l o d j : 0 <= o -> o + 4 * Z.of_nat (length l) <= Z.of_nat (length d) -> 0 <= j < o ->
  byte (put_addrs o l d) j = byte d j.
Proof.
  revert o d. induction l as [|a l IH]; intros o d Ho Hl Hj; simpl in *; [done|].
  rewrite IH by (rewrite ?length_put32; lia). rewrite byte_put32 by lia. repeat (destruct (decide _); try lia).
Qed.

Lemma get32_put_addrs_lt l o d j : 0 <= o -> o + 4 * Z.of_nat (length l) <= Z.of_nat (length d) -> 0 <= j -> j + 4 <= o ->
  get32 (put_addrs o l d) j = get32 d j.
Proof. intros. unfold get32. now rewrite !byte_put_addrs by lia. Qed.

Lemma get_put_addrs l o d k a : 0 <= o -> o + 4 * Z.of_nat (length l) <= Z.of_nat (length d) -> l !! k = Some a ->
  get32 (put_addrs o l d) (o + 4 * Z.of_nat k) = u32 a.
Proof.
  revert o d k. induction l as [|b l IH]; intros o d k Ho Hl Hk; [done|]. simpl in Hl. destruct k as [|k]; simpl in Hk |- *.
  - injection Hk as ->. rewrite Z.add_0_r, get32_put_addrs_lt by (rewrite ?length_put32; lia). apply get32_put32; lia.
  - replace (o + 4 * Z.of_nat (S k)) with (o + 4 + 4 * Z.of_nat k) by lia. apply IH; rewrite ?length_put32; try done; lia.
Qed.

Lemma length_put_dinode o i d : length (put_dinode o i d) = length d.
Proof. unfold put_dinode. now rewrite length_put_addrs, length_put32, !length_put16. Qed.

Ltac len := rewrite ?length_put32, ?length_put16; lia.

(** The 64 bytes at [o] hold what was put there, whichever entry [j] of the
    cache it is read into. *)
Lemma get_put_dinode o i j d : storable i -> 0 <= o -> o + 64 <= Z.of_nat (length d) ->
  get_dinode (put_dinode o i d) o j =
  mkInode (i_dev j) (i_inum j) (i_ref j) (i_valid j) (i_type i) (i_major i) (i_minor i) (i_nlink i) (i_size i) (i_addrs i).
Proof.
  intros [(F1 & F2 & F3 & F4) F5 [F6 F7]] Ho Hl. unfold get_dinode, put_dinode.
  set (d1 := put16 _ _ d). set (d2 := put16 _ _ d1). set (d3 := put16 _ _ d2). set (d4 := put16 _ _ d3). set (d5 := put32 _ _ d4).
  assert (L1 : length d1 = length d) by apply length_put16. assert (L2 : length d2 = length d) by (rewrite <- L1; apply length_put16).
  assert (L3 : length d3 = length d) by (rewrite <- L2; apply length_put16). assert (L4 : length d4 = length d) by (rewrite <- L3; apply length_put16).
  assert (L5 : length d5 = length d) by (rewrite <- L4; apply length_put32).
  assert (G : forall k, 0 <= k -> k + 2 <= o + 12 -> get16 (put_addrs (o + 12) (i_addrs i) d5) k = get16 d5 k)
    by (intros k H0 Hk; unfold get16; rewrite !byte_put_addrs by lia; done).
  rewrite !G by lia. rewrite get32_put_addrs_lt by lia. f_equal.
  - unfold d5, d4, d3, d2. rewrite get16_put32_ne, !get16_put16_ne by len. apply get16_put16; [lia|lia|done].
  - unfold d5, d4, d3. rewrite get16_put32_ne, !get16_put16_ne by len. apply get16_put16; [lia|len|done].
  - unfold d5, d4. rewrite get16_put32_ne, !get16_put16_ne by len. apply get16_put16; [lia|len|done].
  - unfold d5. rewrite get16_put32_ne by len. apply get16_put16; [lia|len|done].
  - unfold d5. rewrite get32_put32 by len. now apply u32_small.
  - apply list_eq. intros k. rewrite list_lookup_fmap. destruct (i_addrs i !! k) as [a|] eqn:Ek.
    + pose proof (lookup_lt_Some _ _ _ Ek). rewrite lookup_seq_lt by lia. cbn [fmap option_fmap option_map].
      rewrite (get_put_addrs _ _ _ _ a) by (done || lia). rewrite u32_small; [done|]. rewrite Forall_lookup in F7. eauto.
    + apply lookup_ge_None in Ek. now rewrite lookup_seq_ge by lia.
Qed.

Lemma the_inode_upd ip f st : (ip < length (st_inodes st))%nat -> the_inode ip (upd_inode ip f st) = f (the_inode ip st).
Proof.
  intros H. unfold the_inode, upd_inode. simpl. rewrite list_lookup_alter_eq.
  destruct (lookup_lt_is_Some_2 _ _ H) as [a ->]. done.
Qed.

(** Inodes and their locks are no part of the buffer cache. *)
Lemma rep_upd_inode w ip f st v : Rep w st v -> Rep w (upd_inode ip f st) v.
Proof. intros [? ? ? ? ? ? ? ? ? ?]. constructor; done. Qed.

Lemma rep_inode_lock w ip x st v : Rep w st v -> Rep w (set_sleep (inode_lock ip) x st) v.
Proof.
  intros [? ? Hc ? ? ? ? ? ? ?]. constructor; try done. intros i Hi. specialize (Hc i Hi). unfold in_cell in *.
  rewrite the_sleep_set_ne by (unfold inode_lock, buf_lock; lia). exact Hc.
Qed.

Section Disk.
Context {W : Wait} {D : Devices} (w : who).

Lemma iupdate_run ip st v bs (Q : unit -> storage -> Prop) :
  let i := the_inode ip st in let b := IBLOCK (i_inum i) (st_sb st) in
  in_tx w bs st v -> i_dev i = 1 -> 0 <= b < st_disksize st -> outside (st_log st) b ->
  (length bs < Z.to_nat LOGSIZE)%nat -> Z.of_nat (length bs) + 2 <= lg_size (st_log st) ->
  (forall st', in_tx w (absorb b bs) st' (pin b (put b (put_dinode (dip_off (i_inum i)) i (v_cur v b)) v)) -> tx_same st st' -> Q tt st') ->
  srun w ∅ (iupdate ip) st ∅ Q.
Proof.
  intros i b Htx Hdev Hb Hout Hn Hs HQ. unfold iupdate. sgo. fold i. rewrite Hdev. fold b.
  eapply srun_bind, (tx_bread_run w bs st v b); [done..|]. intros bp st1 Hbp HR1 S1 Hdat. sgo.
  assert (Ei : the_inode ip st1 = i) by (destruct S1 as (_ & _ & _ & I & _); unfold the_inode, i; now rewrite I).
  rewrite Ei. apply (logged_edit_run w bs st st1 v bp b); try done; [intros d _; apply length_put_dinode|].
  intros st3 H3. now apply H3.
Qed.

Lemma same_upd_inode ip f st st' : same st st' -> same (upd_inode ip f st) (upd_inode ip f st').
Proof. intros (H1 & H2 & H3 & H4 & H5 & H6 & H7). unfold same, upd_inode. simpl. rewrite H4. split_and!; done. Qed.
Lemma upd_inode_twice ip g f st : (ip < length (st_inodes st))%nat ->
  upd_inode ip f (upd_inode ip g st) = set_inodes (<[ip := f (g (the_inode ip st))]> (st_inodes st)) st.
Proof.
  intros Hip. unfold upd_inode, the_inode. simpl. destruct (lookup_lt_is_Some_2 _ _ Hip) as [a Ha]. rewrite Ha. cbn [default].
  unfold set_inodes. simpl. f_equal. apply list_eq. intros k. destruct (decide (k = ip)) as [->|Hn].
  - now rewrite !list_lookup_alter_eq, Ha, list_lookup_insert_eq.
  - now rewrite !list_lookup_alter_ne, list_lookup_insert_ne.
Qed.

(** [ilock] of an entry whose inode was not read yet. *)
Lemma ilock_run ip st v (Q : unit -> storage -> Prop) :
  let i := the_inode ip st in let b := IBLOCK (i_inum i) (st_sb st) in let j := get_dinode (v_cur v b) (dip_off (i_inum i)) i in
  Rep w st v -> v_held v = ∅ -> (size (v_dirty v) < NBUF)%nat -> (ip < length (st_inodes st))%nat ->
  1 <= i_ref i -> i_valid i = 0 -> i_dev i = 1 -> 0 <= b < st_disksize st -> sl_locked (the_sleep (inode_lock ip) st) = 0 -> i_type j <> 0 ->
  (forall st', Rep w st' v -> same (set_sleep (inode_lock ip) (mkSleep 1 (w_pid w)) (set_inodes (<[ip := set_i_valid 1 j]> (st_inodes st)) st)) st' -> Q tt st') ->
  srun w ∅ (ilock (Some ip)) st ∅ Q.
Proof.
  intros i b j HR Hh Hsz Hip Hr Hv Hdev Hb Hsl Hty HQ. unfold ilock. sgo. fold i. replace (i_ref i <? 1) with false by lia. cbv iota.
  eapply srun_bind, srun_acquiresleep; [set_solver|kset|done|]. set (st1 := set_sleep _ _ st). sgo.
  change (the_inode ip st1) with i. rewrite Hv. apply srun_when; [intros _|done]. sgo. change (st_sb st1) with (st_sb st). rewrite Hdev. fold b.
  assert (HR1 : Rep w st1 v) by now apply rep_inode_lock.
  eapply srun_bind, (bread_run w st1 v b); [done|done|now rewrite Hh|right; rewrite Hh, map_size_empty; exact Hsz|].
  intros bp st2 Hbp HR2 S2 Hdat. unfold data_of. sgo. rewrite Hdat.
  assert (Hl2 : (ip < length (st_inodes st2))%nat) by (destruct S2 as (_ & _ & _ & -> & _); exact Hip).
  assert (Ei : the_inode ip st2 = i) by (destruct S2 as (_ & _ & _ & I & _); unfold the_inode, i; now rewrite I).
  set (st3 := upd_inode ip _ st2). assert (HR3 : Rep w st3 (hold bp b v)) by now apply rep_upd_inode.
  eapply srun_bind, (brelse_run w _ _ bp b); [exact HR3|apply lookup_insert_eq| |].
  { simpl. destruct (decide (b ∈ v_dirty v)) as [Hd|Hd]; [now left|right]. apply (rep_coh _ _ _ HR); [done|now rewrite Hh]. }
  intros st4 HR4 S4. rewrite unhold_hold in HR4 by (rewrite Hh; apply lookup_empty).
  assert (Hl4 : (ip < length (st_inodes st4))%nat).
  { destruct S4 as (_ & _ & _ & -> & _). unfold st3, upd_inode. simpl. now rewrite length_alter. }
  assert (Ej : the_inode ip st4 = j).
  { destruct S4 as (_ & _ & _ & I & _). transitivity (the_inode ip st3); [unfold the_inode; now rewrite I|].
    unfold st3. now rewrite the_inode_upd, Ei. }
  sgo. rewrite the_inode_upd, Ej by done. apply srun_when; [intros E%Z.eqb_eq; done|intros _].
  apply HQ; [now apply rep_upd_inode|]. pose proof (upd_inode_twice ip (get_dinode (v_cur v b) (dip_off (i_inum i))) (set_i_valid 1) st Hip) as Et.
  change (set_i_valid 1 (get_dinode (v_cur v b) (dip_off (i_inum i)) (the_inode ip st))) with (set_i_valid 1 j) in Et. rewrite <- Et.
  change (set_sleep ?l ?x (upd_inode ip ?f (upd_inode ip ?g st))) with (upd_inode ip f (upd_inode ip g (set_sleep l x st))). fold st1.
  apply same_upd_inode. transitivity st3; [now apply same_upd_inode|exact S4].
Qed.
End Disk.

Section Claims.
Context {W : Wait} {D : Devices} (w : who).

(** C24. The inode cache is a map from inodes to reference counts.  It never
    has two entries in use for one inode; [iget] returns an entry for the
    inode asked for and adds one to its count, taking a free entry when the
    inode has none; [idup] adds one; [iput] takes one away when the inode does
    not have to be freed.  No count of another inode changes. *)
Theorem inode_references (s : kfs) : env w ∅ s -> icache_ok (st_inodes (k_ext s)) ->
  (forall dev inum, 0 < refs (st_inodes (k_ext s)) dev inum \/ (exists k a, st_inodes (k_ext s) !! k = Some a /\ i_ref a = 0) ->
     exists ip s', iget dev inum s = Done ip s' /\ env w ∅ s' /\ same_inode dev inum (the_inode ip (k_ext s')) /\
       counts_change dev inum 1 (st_inodes (k_ext s)) (st_inodes (k_ext s'))) /\
  (forall ip a, st_inodes (k_ext s) !! ip = Some a -> 0 < i_ref a ->
     (exists s', idup ip s = Done ip s' /\ env w ∅ s' /\ counts_change (i_dev a) (i_inum a) 1 (st_inodes (k_ext s)) (st_inodes (k_ext s'))) /\
     (sl_locked (the_sleep (inode_lock ip) (k_ext s)) = 0 -> i_valid a = 0 \/ i_nlink a <> 0 \/ 1 < i_ref a ->
      exists s', iput ip s = Done tt s' /\ env w ∅ s' /\ counts_change (i_dev a) (i_inum a) (-1) (st_inodes (k_ext s)) (st_inodes (k_ext s')))).
Proof.
  intros He Hok. split; [|intros ip a Hip Ha; split].
  - intros dev inum Hroom.
    destruct (srun_done w (iget dev inum) s (fun ip st' => same_inode dev inum (the_inode ip st') /\ counts_change dev inum 1 (st_inodes (k_ext s)) (st_inodes st')))
      as (ip & s' & Hr & He' & H1 & H2); [|exact He|eauto 8].
    apply iget_run; [done..|]. intros ip l a Hc Hl Hsame _. split; [|exact Hc]. unfold the_inode. simpl. now rewrite Hl.
  - destruct (srun_done w (idup ip) s (fun r st' => r = ip /\ counts_change (i_dev a) (i_inum a) 1 (st_inodes (k_ext s)) (st_inodes st')))
      as (r & s' & Hr & He' & -> & H); [|exact He|eauto].
    apply (idup_run w ip a); auto.
  - intros Hsl Hk. destruct (srun_done w (iput ip) s (fun _ st' => counts_change (i_dev a) (i_inum a) (-1) (st_inodes (k_ext s)) (st_inodes st')))
      as ([] & s' & Hr & He' & H); [|exact He|eauto].
    apply (iput_run w ip a); auto.
Qed.

(** What [iupdate] stores is what [ilock] reads.  Inside a transaction
    [iupdate] copies a cached inode to its place in its inode block; when the
    entry of the cache is used again for the same inode, whatever was left in
    it, [ilock] gives it the same type, device numbers, link count, size and
    addresses. *)
Theorem iupdate_ilock (s : kfs) (v : view) (bs : list Z) (ip : nat) (j : inode) :
  let st := k_ext s in let i := the_inode ip st in let b := IBLOCK (i_inum i) (st_sb st) in
  env w ∅ s -> in_tx w bs st v -> (ip < length (st_inodes st))%nat -> i_dev i = 1 -> storable i -> i_type i <> 0 ->
  0 <= b < st_disksize st -> outside (st_log st) b -> Z.of_nat (length bs) + 1 < LOGSIZE -> Z.of_nat (length bs) + 2 <= lg_size (st_log st) ->
  sl_locked (the_sleep (inode_lock ip) st) = 0 -> same_inode 1 (i_inum i) j -> 1 <= i_ref j -> i_valid j = 0 ->
  exists s' s'', iupdate ip s = Done tt s' /\ ilock (Some ip) (upd_store (upd_inode ip (fun _ => j)) s') = Done tt s'' /\
    the_inode ip (k_ext s'') =
      mkInode 1 (i_inum i) (i_ref j) 1 (i_type i) (i_major i) (i_minor i) (i_nlink i) (i_size i) (i_addrs i).
Proof.
  intros st i b He Htx Hip Hdev Hst Hty Hb Hout Hn Hs Hsl [Hj1 Hj2] Hr Hv.
  assert (HL : LOGSIZE = 30) by reflexivity.
  set (v' := pin b (put b (put_dinode (dip_off (i_inum i)) i (v_cur v b)) v)).
  destruct (srun_done w (iupdate ip) s (fun _ st' => in_tx w (absorb b bs) st' v' /\ tx_same st st')) as ([] & s' & Hr1 & He1 & Htx1 & S1);
    [|exact He|].
  { apply (iupdate_run w ip st v bs); try done; lia. }
  set (s1 := upd_store (upd_inode ip (fun _ => j)) s'). pose proof S1 as (D1 & B1 & I1 & _ & _ & L1 & _).
  assert (Hip1 : (ip < length (st_inodes (k_ext s')))%nat) by now rewrite I1.
  assert (Ej : the_inode ip (k_ext s1) = j) by (apply the_inode_upd; exact Hip1).
  assert (Hg : get_dinode (v_cur v' b) (dip_off (i_inum i)) j =
    mkInode 1 (i_inum i) (i_ref j) 0 (i_type i) (i_major i) (i_minor i) (i_nlink i) (i_size i) (i_addrs i)).
  { unfold v'. simpl. rewrite fn_lookup_insert, get_put_dinode by (done || (try rewrite (proj1 (rep_size _ _ _ (tx_rep _ _ _ _ Htx) b)); unfold dip_off, IPB, BSIZE; Z.to_euclidean_division_equations; lia)).
    now rewrite Hj1, Hj2, Hv. }
  destruct (srun_done w (ilock (Some ip)) s1 (fun _ st' => the_inode ip st' =
      mkInode 1 (i_inum i) (i_ref j) 1 (i_type i) (i_major i) (i_minor i) (i_nlink i) (i_size i) (i_addrs i)))
    as ([] & s'' & Hr2 & _ & H2); [|exact He1|eauto].
  apply (ilock_run w ip (k_ext s1) v'); rewrite ?Ej, ?Hj2; try done; change (st_sb (k_ext s1)) with (st_sb (k_ext s')); rewrite ?B1; fold b.
  - apply rep_upd_inode, Htx1.
  - apply Htx1.
  - rewrite (tx_dirty _ _ _ _ Htx1), size_list_to_set by apply Htx1. pose proof (length_absorb b bs). unfold NBUF. lia.
  - unfold s1. simpl. now rewrite length_alter.
  - change (st_disksize (k_ext s1)) with (st_disksize (k_ext s')). now rewrite D1.
  - change (the_sleep (inode_lock ip) (k_ext s1)) with (the_sleep (inode_lock ip) (k_ext s')). rewrite L1 by (unfold inode_lock; lia). exact Hsl.
  - now rewrite Hg.
  - intros st' _ (_ & _ & _ & I2 & _). unfold the_inode. rewrite I2. cbn [set_sleep set_inodes st_inodes].
    rewrite list_lookup_insert_eq by (unfold s1; simpl; now rewrite length_alter). cbn [default]. now rewrite Hg.
Qed.
End Claims.

(** ** A cache with one inode in use *)
#[local] Instance demo_wait : Wait := 0%nat.
#[local] Instance no_devices : Devices := {| dev_read := fun _ => None; dev_write := fun _ => None |}.
Definition demo_inodes : list inode := demo_inode :: replicate 49 inode0.
Definition demo_super : superblock := mkSb 1000 941 200 30 2 32 58.

Lemma demo_icache_ok : icache_ok demo_inodes.
Proof.
  constructor; [reflexivity|repeat constructor; simpl; lia|].
  assert (H0 : forall j a, demo_inodes !! j = Some a -> 0 < i_ref a -> j = 0%nat); [|intros j k a b Hj Hk Ha Hb _ _; rewrite (H0 j a), (H0 k b); done].
  intros [|j] a Hj Ha; [done|]. apply lookup_replicate in Hj as [-> _]. simpl in Ha. lia.
Qed.

Lemma demo_inode_state : exists s v, env demo_who ∅ s /\ in_tx demo_who [] (k_ext s) v /\ st_disksize (k_ext s) = 1000 /\
  st_inodes (k_ext s) = demo_inodes /\ lg_start (st_log (k_ext s)) = 2 /\ lg_size (st_log (k_ext s)) = 30 /\ st_sb (k_ext s) = demo_super /\
  sl_locked (the_sleep (inode_lock 0) (k_ext s)) = 0.
Proof.
  destruct demo_ready as (s & _ & He & (v & HR & Hh & Hd & Hl & _) & Hsz & Hst & Hlg & _).
  set (f := fun st => set_sleep (inode_lock 0) (mkSleep 0 0) (set_sb demo_super (set_inodes demo_inodes st))).
  exists (upd_store (fun st => upd_log (set_lg_outstanding 1) (f st)) s), v.
  assert (HR' : Rep demo_who (f (k_ext s)) v) by (apply rep_inode_lock; destruct HR; constructor; done).
  assert (Hl' : log_ok [] (f (k_ext s))) by (destruct Hl; constructor; done).
  split; [exact He|]. split; [|repeat (split; [done|]); unfold the_sleep; simpl; now rewrite lookup_insert_eq].
  constructor; [now apply log_ok_fields|now apply rep_upd_log|exact Hh|exact Hd|simpl; lia].
Qed.

Lemma inode_references_witness : exists s ip s', refs (st_inodes (k_ext s)) 1 7 = 1 /\ iget 1 7 s = Done ip s' /\
  refs (st_inodes (k_ext s')) 1 7 = 2.
Proof.
  destruct demo_inode_state as (s & v & He & _ & _ & Hi & _). exists s.
  destruct (inode_references demo_who s He) as [Hget _]; [rewrite Hi; exact demo_icache_ok|].
  destruct (Hget 1 7) as (ip & s' & Hr & _ & _ & Hc); [left; rewrite Hi; reflexivity|].
  exists ip, s'. split; [now rewrite Hi|]. split; [exact Hr|]. rewrite (cc_refs _ _ _ _ _ Hc), Hi. reflexivity.
Defined.

Lemma iupdate_ilock_witness : exists s s' s'', iupdate 0 s = Done tt s' /\
  ilock (Some 0%nat) (upd_store (upd_inode 0 (fun _ => mkInode 1 7 1 0 0 0 0 0 0 [])) s') = Done tt s'' /\
  the_inode 0 (k_ext s'') = demo_inode.
Proof.
  destruct demo_inode_state as (s & v & He & Htx & Hsz & Hi & Hst & Hlg & Hsb & Hsl). exists s.
  assert (E : the_inode 0 (k_ext s) = demo_inode) by (unfold the_inode; now rewrite Hi).
  destruct (iupdate_ilock demo_who s v [] 0 (mkInode 1 7 1 0 0 0 0 0 0 []) He Htx) as (s' & s'' & H1 & H2 & H3);
    rewrite ?E, ?Hi, ?Hsb, ?Hsz in *; try done.
  - simpl; lia.
  - constructor; [unfold in_s16; simpl; unfold T_FILE; lia|simpl; lia|split; [done|]]. repeat constructor; lia.
  - unfold outside. rewrite Hst, Hlg. vm_compute IBLOCK. lia.
  - rewrite Hlg. simpl. lia.
  - exists s', s''. auto.
Defined.
