(* ===== verification/Dir.v ===== *)
(** * Directories (fs.c)

    A directory is the list of its entries, 16 bytes each.  [dirlookup] finds
    the first entry with a name; [dirlink] fills the first empty entry with a
    new one. *)
From S2P Require Import Prelude Mmu Str Spinlock Kalloc Proc Exec Sched Store Bio Log LogCrash Fs FileData Inode.

(** The entry at the index [j] of the directory [i], and all of them. *)
Definition entry (cur : Z -> list Z) (i : inode) (j : Z) : list Z := file_bytes cur i (DIRENT * j) DIRENT.
Definition dir_len (i : inode) : Z := i_size i / DIRENT.
Definition dir_entries (cur : Z -> list Z) (i : inode) : list (list Z) := entry cur i <$> seqZ 0 (dir_len i).
Definition empty_entry (de : list Z) : bool := de_inum de =? 0.
Definition has_name (name de : list Z) : bool := negb (empty_entry de) && (namecmp name (de_name de) =? 0).
(** The index of the first entry with the name, counting from [j], and its
    inode. *)
Fixpoint find_entry (name : list Z) (j : Z) (l : list (list Z)) : option (Z * Z) :=
  match l with
  | [] => None
  | de :: l => if has_name name de then Some (j, de_inum de) else find_entry name (j + 1) l
  end.
Fixpoint find_empty (j : Z) (l : list (list Z)) : Z :=
  match l with
  | [] => j
  | de :: l => if empty_entry de then j else find_empty (j + 1) l
  end.

(** A directory in good order: whole entries, in blocks that are there. *)
Record dir_ok (size : Z) (cur : Z -> list Z) (i : inode) : Prop := mkDirOk {
  do_dev : i_dev i = 1;
  do_type : i_type i = T_DIR;
  do_size : 0 <= i_size i <= MAXFILE * BSIZE;
  do_whole : i_size i = DIRENT * dir_len i;
  do_blocks : has_blocks size cur i (i_size i);
}.

Section Lookup.
Context {W : Wait} {D : Devices} (w : who).
Context (v : view) (dp : nat) (i : inode) (Hh : v_held v = ∅) (Hd : (size (v_dirty v) < NBUF)%nat).

Lemma read_entry_run st j (Q : Z * list Z -> storage -> Prop) : the_inode dp st = i -> Rep w st v -> dir_ok (st_disksize st) (v_cur v) i -> 0 <= j < dir_len i ->
  (forall st', Rep w st' v -> same st st' -> Q (DIRENT, entry (v_cur v) i j) st') -> srun w ∅ (readi dp (DIRENT * j) DIRENT) st ∅ Q.
Proof.
  intros Ei HR [H1 H2 H3 H4 H5] Hj HQ. unfold DIRENT in *. change (MAXFILE * BSIZE) with 71680 in *.
  apply (readi_run w dp _ _ st v); rewrite ?Ei; try done; try lia; [now rewrite H2|].
  intros st' HR' S'. replace (i_size i <? 16 * j) with false by lia. rewrite Z.min_l by lia. now apply HQ.
Qed.

Lemma dirlookup_loop_run fuel name j st (Q : option (nat * Z) -> storage -> Prop) :
  the_inode dp st = i -> Rep w st v -> dir_ok (st_disksize st) (v_cur v) i -> 0 <= j <= dir_len i -> (Z.to_nat (dir_len i - j) < fuel)%nat ->
  (forall st', Rep w st' v -> same st st' ->
     match find_entry name j (entry (v_cur v) i <$> seqZ j (dir_len i - j)) with
     | None => Q None st'
     | Some (k, inum) => srun w ∅ (iget 1 inum) st' ∅ (fun ip st'' => Q (Some (ip, DIRENT * k)) st'')
     end) ->
  srun w ∅ (dirlookup_loop fuel dp name (DIRENT * j)) st ∅ Q.
Proof.
  revert j st. induction fuel as [|fuel IH]; intros j st Ei HR Hok Hj Hf HQ; [lia|]. cbn [dirlookup_loop]. sgo. rewrite Ei.
  pose proof (do_whole _ _ _ Hok) as Hw. unfold DIRENT in Hw. destruct (decide (j = dir_len i)) as [->|Hne].
  { replace (DIRENT * dir_len i <? i_size i) with false by (unfold DIRENT; lia). sgo. rewrite Z.sub_diag in HQ. now apply HQ. }
  replace (DIRENT * j <? i_size i) with true by (unfold DIRENT; lia).
  eapply srun_bind, read_entry_run; try done; [lia|]. intros st1 HR1 S1. rewrite Z.eqb_refl. cbn [negb].
  rewrite seqZ_cons in HQ by lia. cbn [fmap list_fmap find_entry] in HQ. unfold has_name, empty_entry in HQ.
  pose proof S1 as (D1 & _ & _ & I1 & _).
  assert (Hgo : (forall st', Rep w st' v -> same st1 st' -> match find_entry name (j + 1) (entry (v_cur v) i <$> seqZ (j + 1) (dir_len i - (j + 1))) with
     | None => Q None st' | Some (k, inum) => srun w ∅ (iget 1 inum) st' ∅ (fun ip st'' => Q (Some (ip, DIRENT * k)) st'') end) ->
     srun w ∅ (dirlookup_loop fuel dp name (u32 (DIRENT * j + DIRENT))) st1 ∅ Q).
  { intros H. pose proof (do_size _ _ _ Hok). replace (u32 (DIRENT * j + DIRENT)) with (DIRENT * (j + 1)).
    2: { rewrite u32_small; unfold DIRENT in *; change (MAXFILE * BSIZE) with 71680 in *; lia. }
    apply IH; [unfold the_inode in *; now rewrite I1|done|now rewrite D1|lia|lia|exact H]. }
  replace (Z.succ j) with (j + 1) in HQ by lia. replace (Z.pred (dir_len i - j)) with (dir_len i - (j + 1)) in HQ by lia.
  destruct (de_inum _ =? 0); cbn [negb andb] in HQ; [apply Hgo; intros; apply HQ; [done|now transitivity st1]|].
  destruct (namecmp _ _ =? 0); [|apply Hgo; intros; apply HQ; [done|now transitivity st1]].
  rewrite (do_dev _ _ _ Hok). eapply srun_bind. eapply srun_mono; [|apply (HQ st1 HR1 S1)]. intros ip st2 H2. sgo. exact H2.
Qed.

Lemma dirlookup_run name st (Q : option (nat * Z) -> storage -> Prop) :
  the_inode dp st = i -> Rep w st v -> dir_ok (st_disksize st) (v_cur v) i ->
  (forall st', Rep w st' v -> same st st' ->
     match find_entry name 0 (dir_entries (v_cur v) i) with
     | None => Q None st'
     | Some (k, inum) => srun w ∅ (iget 1 inum) st' ∅ (fun ip st'' => Q (Some (ip, DIRENT * k)) st'')
     end) ->
  srun w ∅ (dirlookup dp name) st ∅ Q.
Proof.
  intros Ei HR Hok HQ. unfold dirlookup. sgo. rewrite Ei, (do_type _ _ _ Hok). cbn [negb Z.eqb T_DIR Pos.eqb].
  pose proof (do_size _ _ _ Hok). assert (0 <= dir_len i) by (apply Z.div_pos; [lia|done]). unfold dir_len in *.
  apply (dirlookup_loop_run _ name 0); try done; [unfold dir_len; lia..|]. rewrite Z.sub_0_r. exact HQ.
Qed.

Lemma dirlink_loop_run fuel j st (Q : Z -> storage -> Prop) :
  the_inode dp st = i -> Rep w st v -> dir_ok (st_disksize st) (v_cur v) i -> 0 <= j <= dir_len i -> (Z.to_nat (dir_len i - j) < fuel)%nat ->
  (forall st', Rep w st' v -> same st st' -> Q (DIRENT * find_empty j (entry (v_cur v) i <$> seqZ j (dir_len i - j))) st') ->
  srun w ∅ (dirlink_loop fuel dp (DIRENT * j)) st ∅ Q.
Proof.
  revert j st. induction fuel as [|fuel IH]; intros j st Ei HR Hok Hj Hf HQ; [lia|]. cbn [dirlink_loop]. sgo. rewrite Ei.
  pose proof (do_whole _ _ _ Hok) as Hw. unfold DIRENT in Hw. destruct (decide (j = dir_len i)) as [->|Hne].
  { replace (DIRENT * dir_len i <? i_size i) with false by (unfold DIRENT; lia). sgo. rewrite Z.sub_diag in HQ. now apply HQ. }
  replace (DIRENT * j <? i_size i) with true by (unfold DIRENT; lia).
  eapply srun_bind, read_entry_run; try done; [lia|]. intros st1 HR1 S1. rewrite Z.eqb_refl. cbn [negb].
  rewrite seqZ_cons in HQ by lia. cbn [fmap list_fmap find_empty] in HQ. unfold empty_entry in HQ. pose proof S1 as (D1 & _ & _ & I1 & _).
  destruct (de_inum _ =? 0); [sgo; now apply HQ|].
  replace (DIRENT * j + DIRENT) with (DIRENT * (j + 1)) by (unfold DIRENT; lia).
  apply IH; [unfold the_inode in *; now rewrite I1|done|now rewrite D1|lia|lia|]. intros st' HR' S'.
  replace (Z.succ j) with (j + 1) in HQ by lia. replace (Z.pred (dir_len i - j)) with (dir_len i - (j + 1)) in HQ by lia. apply HQ; [done|now transitivity st1].
Qed.
End Lookup.

(** ** A new entry *)
Lemma length_strncpy s t n : length (strncpy s t n) = length s.
Proof.
  unfold strncpy. generalize 0%nat. generalize (Z.to_nat n). clear n. intros n i.
  assert (Hz : forall m s i, length (fill_zero s m i) = length s).
  { induction m as [|m IH]; intros s' i'; cbn; [done|]. now rewrite IH, length_insert. }
  revert s i. induction n as [|n IH]; intros s i; cbn; [done|]. destruct (_ =? _); rewrite ?Hz, ?IH; apply length_insert.
Qed.
Lemma length_dirent inum name : length (dirent inum name) = 16%nat.
Proof. unfold dirent. rewrite length_app, length_put16, length_strncpy. done. Qed.
Lemma dirent_inum inum name : 0 <= inum < 2 ^ 16 -> de_inum (dirent inum name) = inum.
Proof.
  intros H. unfold de_inum, dirent, get16, byte. rewrite !lookup_app_l by (rewrite length_put16; cbn; lia).
  change (default 0 (?l !! Z.to_nat ?k)) with (byte l k). rewrite !byte_put16 by (cbn; lia). repeat (destruct (decide _); try lia).
  unfold u8. Z.to_euclidean_division_equations. lia.
Qed.
Lemma dirent_name inum name : de_name (dirent inum name) = strncpy (replicate (Z.to_nat DIRSIZ) 0) name DIRSIZ.
Proof. unfold de_name, dirent. rewrite drop_app_ge by (rewrite length_put16; cbn; lia). now rewrite length_put16. Qed.
Lemma has_name_iff name inum nm : 0 < inum < 2 ^ 16 -> Forall is_byte name -> Forall is_byte nm ->
  has_name name (dirent inum nm) = true <-> cprefix (Z.to_nat DIRSIZ) name = cprefix (Z.to_nat DIRSIZ) nm.
Proof.
  intros Hi Hn Hm. unfold has_name, empty_entry. rewrite dirent_inum by lia. rewrite (proj2 (Z.eqb_neq _ _)) by lia. cbn [negb andb].
  rewrite Z.eqb_eq. unfold namecmp. rewrite dirent_name. rewrite (strncmp_zero _ 0); [|done|].
  - rewrite !drop_0. pose proof (strncpy_loop_prefix (Z.to_nat DIRSIZ) (replicate (Z.to_nat DIRSIZ) 0) nm 0) as E. rewrite !drop_0 in E.
    unfold strncpy. rewrite E by (rewrite length_replicate; done). done.
  - apply strncpy_loop_bytes; [|done]. apply Forall_replicate. unfold is_byte. lia.
Qed.
Lemma has_name_dirent inum name : 0 < inum < 2 ^ 16 -> Forall is_byte name -> has_name name (dirent inum name) = true.
Proof. intros Hi Hn. now apply has_name_iff. Qed.
Lemma find_entry_first name l j k de : l !! k = Some de -> has_name name de = true ->
  (forall k' de', (k' < k)%nat -> l !! k' = Some de' -> has_name name de' = false) -> find_entry name j l = Some (j + Z.of_nat k, de_inum de).
Proof.
  revert j k. induction l as [|d l IH]; intros j k Hk Hd Hb; [done|]. destruct k as [|k]; cbn [find_entry].
  - injection Hk as ->. rewrite Hd. f_equal. f_equal. lia.
  - rewrite (Hb 0%nat d) by (done || lia). rewrite (IH (j + 1) k) by (done || (intros k' de' Hl; apply (Hb (S k')); lia)). f_equal. f_equal. lia.
Qed.

Lemma find_entry_insert name l j k de : find_entry name j l = None -> (k < length l)%nat -> has_name name de = true ->
  find_entry name j (<[k := de]> l) = Some (j + Z.of_nat k, de_inum de).
Proof.
  revert j k. induction l as [|d l IH]; intros j k Hn Hk Hd; [cbn in Hk; lia|]. cbn in Hn. destruct (has_name name d) eqn:E; [done|].
  destruct k as [|k].
  - cbn. rewrite Hd. f_equal. f_equal. lia.
  - change (<[S k := de]> (d :: l)) with (d :: <[k := de]> l). cbn [find_entry]. rewrite E, (IH (j + 1) k) by (done || (cbn in Hk; lia)). f_equal. f_equal. lia.
Qed.
Lemma find_empty_bound j l : j <= find_empty j l <= j + Z.of_nat (length l).
Proof. revert j. induction l as [|d l IH]; intros j; cbn [find_empty length]; [lia|]. destruct (empty_entry d); [lia|]. specialize (IH (j + 1)). lia. Qed.

(** The entries after sixteen bytes of the directory have been written. *)
Lemma entries_written cur cur' i e de : 0 <= e < dir_len i -> length de = 16%nat -> i_size i = DIRENT * dir_len i ->
  written cur cur' i (i_size i) (DIRENT * e) DIRENT de ->
  dir_entries cur' i = <[Z.to_nat e := de]> (dir_entries cur i).
Proof.
  intros He Hde Hsz Hw. assert (Hl : 0 <= dir_len i) by lia. unfold DIRENT in *.
  assert (Hent : forall j, 0 <= j < dir_len i -> entry cur' i j = if decide (j = e) then de else entry cur i j).
  { intros j Hj. unfold entry, file_bytes, DIRENT. destruct (decide (j = e)) as [->|Hn].
    - apply list_eq. intros k. rewrite list_lookup_fmap. destruct (decide (k < 16)%nat).
      + rewrite lookup_seqZ_lt by lia. cbn [fmap option_fmap option_map]. rewrite Hw by lia. rewrite decide_True by lia.
        unfold byte. replace (Z.to_nat (16 * e + Z.of_nat k - 16 * e)) with k by lia. destruct (lookup_lt_is_Some_2 de k) as [x ->]; [lia|done].
      + rewrite lookup_seqZ_ge, lookup_ge_None_2 by lia. done.
    - apply list_fmap_ext. intros k x Hx. apply lookup_seqZ in Hx as [-> Hx]. rewrite Hw by lia. now rewrite decide_False by lia. }
  apply list_eq. intros k. unfold dir_entries. rewrite list_lookup_fmap. destruct (decide (Z.of_nat k < dir_len i)).
  - rewrite lookup_seqZ_lt by lia. cbn [fmap option_fmap option_map]. rewrite Hent by lia. destruct (decide _).
    + replace k with (Z.to_nat e) by lia. rewrite list_lookup_insert_eq; [done|]. rewrite length_fmap, length_seqZ. lia.
    + rewrite list_lookup_insert_ne by lia. rewrite list_lookup_fmap, lookup_seqZ_lt by lia. done.
  - rewrite lookup_seqZ_ge by lia. rewrite lookup_ge_None_2; [done|]. rewrite length_insert, length_fmap, length_seqZ. lia.
Qed.
Lemma length_dir_entries cur i : length (dir_entries cur i) = Z.to_nat (dir_len i).
Proof. unfold dir_entries. now rewrite length_fmap, length_seqZ. Qed.
Lemma entry_blks e : 0 <= e -> blks (DIRENT * e) DIRENT = 1.
Proof. intros H. unfold blks, DIRENT, BSIZE. cbn [Z.leb Z.compare]. Z.to_euclidean_division_equations. lia. Qed.

Lemma dir_ok_written size cur cur' i : dir_ok size cur i -> has_blocks size cur' i (i_size i) -> dir_ok size cur' i.
Proof. intros [? ? ? ? ?] H. now split. Qed.

Section Claims.
Context {W : Wait} {D : Devices} (w : who).

(** C22. A new name in a directory.  Inside a transaction, [dirlink] of a name
    that the directory does not have fills the first empty entry and changes
    no other entry; [dirlookup] of the name then returns the inode it was
    linked to and the offset of its entry. *)
Theorem dirlink_dirlookup (s : kfs) (v : view) (bs : list Z) (dp : nat) (name : list Z) (inum : Z) :
  let st := k_ext s in let i := the_inode dp st in let ents := dir_entries (v_cur v) i in let e := find_empty 0 ents in
  env w ∅ s -> in_tx w bs st v -> dir_ok (st_disksize st) (v_cur v) i -> file_ok (st_log st) (st_disksize st) (v_cur v) i (i_size i) ->
  find_entry name 0 ents = None -> e < dir_len i -> 0 < inum < 2 ^ 16 -> Forall is_byte name ->
  Z.of_nat (length bs) + 1 < LOGSIZE -> Z.of_nat (length bs) + 2 <= lg_size (st_log st) ->
  icache_ok (st_inodes st) -> 0 < refs (st_inodes st) 1 inum \/ (exists k a, st_inodes st !! k = Some a /\ i_ref a = 0) ->
  exists s' v' bs', dirlink dp name inum s = Done 0 s' /\ env w ∅ s' /\ in_tx w bs' (k_ext s') v' /\
    dir_entries (v_cur v') i = <[Z.to_nat e := dirent inum name]> ents /\
    exists ip s'', dirlookup dp name s' = Done (Some (ip, DIRENT * e)) s'' /\ same_inode 1 inum (the_inode ip (k_ext s'')).
Proof.
  intros st i ents e He Htx Hok Hfo Hno Hlt Hin Hnm Hb1 Hb2 Hic Hroom. assert (HL : LOGSIZE = 30) by reflexivity.
  pose proof (find_empty_bound 0 ents) as He0. fold e in He0. pose proof (do_size _ _ _ Hok) as Hsz. pose proof (do_whole _ _ _ Hok) as Hwh.
  assert (Hdr : (size (v_dirty v) < NBUF)%nat) by (apply (in_tx_room w bs st v Htx); unfold NBUF; lia).
  destruct (srun_done w (dirlink dp name inum) s (fun r st' => r = 0 /\ exists v' bs', wrote w st v bs i (i_size i) (DIRENT * e) DIRENT (dirent inum name) st' v' bs'))
    as (r & s' & Hr & He' & -> & v' & bs' & Hw); [|exact He|].
  { unfold dirlink. eapply srun_bind, (dirlookup_run w v dp i); [apply Htx|exact Hdr|done|apply Htx|exact Hok|]. fold ents. rewrite Hno. intros st1 HR1 S1. sgo.
    pose proof S1 as (D1 & L1 & _ & I1 & _). assert (Ei : the_inode dp st1 = i) by (unfold the_inode, i; now rewrite I1). rewrite Ei.
    eapply srun_bind, (dirlink_loop_run w v dp i (tx_held _ _ _ _ Htx) Hdr _ 0); [exact Ei|exact HR1|now rewrite D1|unfold DIRENT in *; lia|unfold dir_len; lia|].
    rewrite Z.sub_0_r. fold (dir_entries (v_cur v) i). fold ents e. intros st2 HR2 S2. pose proof S2 as (D2 & L2 & _ & I2 & _).
    assert (Ei2 : the_inode dp st2 = i) by (unfold the_inode, i; now rewrite I2, I1).
    assert (S02 : same st st2) by now transitivity st1. assert (Htx2 : in_tx w bs st2 v) by now apply (in_tx_rep w bs st).
    eapply srun_bind, (writei_run w dp (dirent inum name) (DIRENT * e) DIRENT st2 v bs); rewrite ?Ei2, ?D2, ?L2, ?D1, ?L1, ?length_dirent, ?entry_blks by lia;
      try done; try apply Hok; try (unfold DIRENT in *; lia).
    { now rewrite (do_type _ _ _ Hok). }
    { fold st. lia. }
    intros st3 v3 bs3 Hw. rewrite Z.eqb_refl. cbn [negb]. sgo. split; [done|]. exists v3, bs3. destruct Hw as [W1 W2 W3 W4 W5 W6]. split; try done. transitivity st2; [now apply same_tx|exact W2]. }
  exists s', v', bs'. pose proof Hw as [W1 W2 W3 W4 W5 W6]. pose proof W2 as (D2 & _ & I2 & _).
  assert (Hen : dir_entries (v_cur v') i = <[Z.to_nat e := dirent inum name]> ents).
  { apply entries_written; [lia|apply length_dirent|exact Hwh|exact W4]. }
  do 4 (split; [done|]). rewrite entry_blks in W3 by lia.
  destruct (srun_done w (dirlookup dp name) s' (fun r st' => exists ip, r = Some (ip, DIRENT * e) /\ same_inode 1 inum (the_inode ip st')))
    as (r & s'' & Hr2 & _ & ip & -> & Hsi); [|exact He'|eauto].
  apply (dirlookup_run w v' dp i); [apply W1|apply (in_tx_room w bs' _ _ W1); unfold NBUF; lia|unfold the_inode, i; now rewrite I2|apply W1| |].
  { eapply dir_ok_written; [rewrite D2; exact Hok|apply W6]. }
  intros st1 HR1 (_ & _ & _ & I1 & _). rewrite Hen, (find_entry_insert name ents 0); [|exact Hno|unfold ents; rewrite length_dir_entries; lia|now apply has_name_dirent].
  rewrite dirent_inum by lia. rewrite Z.add_0_l, Z2Nat.id by lia. apply iget_run; [now rewrite I1, I2|now rewrite I1, I2|].
  intros ip l a _ Hl Hs _. exists ip. split; [done|]. unfold the_inode. simpl. now rewrite Hl.
Qed.
End Claims.

(** ** An empty directory of one block *)
#[local] Instance demo_wait : Wait := 0%nat.
#[local] Instance no_devices : Devices := {| dev_read := fun _ => None; dev_write := fun _ => None |}.
Definition demo_dir : inode := mkInode 1 5 1 1 T_DIR 0 0 1 512 (100 :: replicate 12 0).
Definition demo_dirs : list inode := demo_dir :: replicate 49 inode0.

Lemma demo_boot_blocks s : (binit ;;; initlog ROOTDEV) demo_kfs = Done tt s -> forall b, b <> 2 -> block b (k_ext s) = block b demo_storage.
Proof.
  intros Hs b Hb. destruct (srun_done demo_who (binit ;;; initlog ROOTDEV) demo_kfs (fun _ st => block b st = block b demo_storage)) as ([] & s1 & Hr & _ & HQ);
    [|exact demo_env|congruence].
  assert (Ha : area_ok 2 30 1000) by (unfold area_ok; lia).
  assert (Hbo : booting 1000 (fun b => block b demo_storage) (k_ext demo_kfs)) by (clear; done).
  apply (boot_run demo_who 2 30 1000 (fun b => block b demo_storage) _ _ Ha demo_disk_ok Hbo).
  intros st _ Hbl _ _ _ _. rewrite Hbl. unfold recovery_writes. assert (Hh : head_blocks (block 2 demo_storage) = []) by (vm_compute; reflexivity).
  rewrite Hh. simpl. now rewrite fn_lookup_insert_ne.
Qed.
Lemma demo_dir_state : exists s v, env demo_who ∅ s /\ in_tx demo_who [] (k_ext s) v /\ st_disksize (k_ext s) = 1000 /\
  st_inodes (k_ext s) = demo_dirs /\ lg_start (st_log (k_ext s)) = 2 /\ lg_size (st_log (k_ext s)) = 30 /\ v_cur v 100 = replicate (Z.to_nat BSIZE) 0.
Proof.
  destruct demo_ready as (s & Hs & He & (v & HR & Hh & Hd & Hl & _) & Hsz & Hst & Hlg & _).
  pose proof (demo_boot_blocks s Hs 100 ltac:(lia)) as Hb. clear Hs.
  exists (upd_store (fun st => upd_log (set_lg_outstanding 1) (set_inodes demo_dirs st)) s), v.
  assert (HR' : Rep demo_who (set_inodes demo_dirs (k_ext s)) v) by (destruct HR; constructor; done).
  assert (Hl' : log_ok [] (set_inodes demo_dirs (k_ext s))) by (destruct Hl; constructor; done).
  split; [exact He|]. split; [|do 4 (split; [done|])].
  - constructor; [now apply log_ok_fields|now apply rep_upd_log|exact Hh|exact Hd|simpl; lia].
  - rewrite (rep_coh _ _ _ HR), (rep_disk _ _ _ HR) by (rewrite ?Hd, ?Hh; set_solver). now rewrite Hb, demo_block.
Qed.
Lemma demo_dir_blocks bn : 0 <= bn -> bn * BSIZE < 512 -> bn = 0 /\ forall cur, block_of cur demo_dir bn = 100.
Proof. intros H0 H1. assert (bn = 0) as -> by (unfold BSIZE in H1; lia). done. Qed.
Lemma demo_entries cur : cur 100 = replicate (Z.to_nat BSIZE) 0 -> dir_entries cur demo_dir = replicate 32 (replicate 16 0).
Proof.
  intros E. assert (Hb : forall o, 0 <= o < 512 -> file_byte cur demo_dir o = 0).
  { intros o Ho. unfold file_byte. rewrite (Z.div_small o) by (unfold BSIZE; lia). change (block_of cur demo_dir 0) with 100. rewrite E.
    unfold byte. destruct (replicate _ 0 !! _) eqn:Ex; [|done]. now apply lookup_replicate in Ex as [-> _]. }
  unfold dir_entries. change (dir_len demo_dir) with 32. transitivity ((fun _ => replicate 16 0) <$> seqZ 0 32).
  - apply list_fmap_ext. intros k j Hj. apply lookup_seqZ in Hj as [-> Hj]. unfold entry, file_bytes, DIRENT. transitivity ((fun _ => 0) <$> seqZ (16 * (0 + Z.of_nat k)) 16).
    + apply list_fmap_ext. intros m x Hx. apply lookup_seqZ in Hx as [-> Hx]. apply Hb. lia.
    + rewrite (const_fmap _ _ 0) by done. now rewrite length_seqZ.
  - rewrite (const_fmap _ _ (replicate 16 0)) by done. now rewrite length_seqZ.
Qed.
Lemma demo_dirs_ok : icache_ok demo_dirs.
Proof.
  constructor; [reflexivity|repeat constructor; simpl; lia|].
  assert (H0 : forall j a, demo_dirs !! j = Some a -> 0 < i_ref a -> j = 0%nat); [|intros j k a b Hj Hk Ha Hb _ _; rewrite (H0 j a), (H0 k b); done].
  intros [|j] a Hj Ha; [done|]. apply lookup_replicate in Hj as [-> _]. simpl in Ha. lia.
Qed.
Lemma demo_dir_ok lg cur : lg_start lg = 2 -> lg_size lg = 30 -> dir_ok 1000 cur demo_dir /\ file_ok lg 1000 cur demo_dir 512.
Proof.
  intros E1 E2. assert (Hb : has_blocks 1000 cur demo_dir 512).
  { intros bn H0 H1. destruct (demo_dir_blocks bn H0 H1) as [-> E]. split; [rewrite E; lia|unfold NDIRECT; lia]. }
  split; [now split|]. split; [done| | |].
  - intros bn bn' H0 H1 H2 H3 _. destruct (demo_dir_blocks bn H0 H1) as [-> _], (demo_dir_blocks bn' H2 H3) as [-> _]. done.
  - intros bn H0 H1. destruct (demo_dir_blocks bn H0 H1) as [_ E]. rewrite E. vm_compute addr. lia.
  - intros bn H0 H1. destruct (demo_dir_blocks bn H0 H1) as [_ E]. rewrite E. unfold outside. lia.
Qed.

Lemma dirlink_dirlookup_witness : exists s s' ip s'', dirlink 0 [97; 98; 0] 7 s = Done 0 s' /\
  dirlookup 0 [97; 98; 0] s' = Done (Some (ip, 0)) s'' /\ same_inode 1 7 (the_inode ip (k_ext s'')).
Proof.
  destruct demo_dir_state as (s & v & He & Htx & Hsz & Hi & L1 & L2 & Hc). exists s.
  assert (Ei : the_inode 0 (k_ext s) = demo_dir) by (unfold the_inode; now rewrite Hi).
  destruct (demo_dir_ok (st_log (k_ext s)) (v_cur v) L1 L2) as [Hd Hf]. pose proof (demo_entries _ Hc) as Hen.
  destruct (dirlink_dirlookup demo_who s v [] 0 [97; 98; 0] 7) as (s' & v' & bs' & H1 & _ & _ & _ & ip & s'' & H2 & H3);
    rewrite ?Ei, ?Hsz, ?Hi, ?L2, ?Hen; try done; try (apply demo_dirs_ok).
  - repeat constructor; unfold is_byte; lia.
  - right. exists 1%nat, inode0. done.
  - exists s', ip, s''. rewrite Ei, Hen in H2. done.
Defined.
