(* ===== verification/Pipe.v ===== *)
(** * Pipes (pipe.c)

    A pipe lives in a page; [st_pipes] maps the address of the page to its
    fields.  Reads and writes return or take the bytes at the user address.
    The specification is a bounded queue: [queue pi] is the list of bytes
    written and not yet read, and the counters wrap at 32 bits. *)
From S2P Require Import Prelude Mmu Str Spinlock Kalloc Proc Exec Sched Store Bio Log LogCrash.

Definition PIPESIZE : Z := 512.

(** The lock and the channels of the pipe at [p]: the offsets of the fields
    in the page. *)
Definition pipe_lock (p : Z) : nat := (300 + Z.to_nat ((p - KERNBASE) / PGSIZE))%nat.
Definition nread_chan (p : Z) : chan := CObj (p + 564).
Definition nwrite_chan (p : Z) : chan := CObj (p + 568).

Definition pipe0 : pipe := mkPipe (replicate (Z.to_nat PIPESIZE) 0) 0 0 0 0.
Definition the_pipe (p : Z) (st : storage) : pipe := default pipe0 (st_pipes st !! p).
Definition upd_pipe (p : Z) (f : pipe -> pipe) (st : storage) : storage := set_pipes (<[p := f (the_pipe p st)]> (st_pipes st)) st.
Definition set_writeopen (v : Z) (pi : pipe) : pipe := mkPipe (pi_data pi) (pi_nread pi) (pi_nwrite pi) (pi_readopen pi) v.
Definition set_readopen (v : Z) (pi : pipe) : pipe := mkPipe (pi_data pi) (pi_nread pi) (pi_nwrite pi) v (pi_writeopen pi).
(** [p->data[p->nwrite++ % PIPESIZE] = c] and [p->nread++]. *)
Definition put_char (c : Z) (pi : pipe) : pipe :=
  mkPipe (<[Z.to_nat (pi_nwrite pi mod PIPESIZE) := c]> (pi_data pi)) (pi_nread pi) (u32 (pi_nwrite pi + 1)) (pi_readopen pi) (pi_writeopen pi).
Definition take_char (pi : pipe) : pipe := mkPipe (pi_data pi) (u32 (pi_nread pi + 1)) (pi_nwrite pi) (pi_readopen pi) (pi_writeopen pi).
Definition next_char (pi : pipe) : Z := byte (pi_data pi) (pi_nread pi mod PIPESIZE).

Section Pipe.
Context {W : Wait}.

Definition pipeclose (p writable : Z) : M kfs unit :=
  kacquire (pipe_lock p) ;;;
  (if negb (writable =? 0) then
     modst (upd_pipe p (set_writeopen 0)) ;;; wakeup (nread_chan p)
   else
     modst (upd_pipe p (set_readopen 0)) ;;; wakeup (nwrite_chan p)) ;;;
  pi <~ getst (the_pipe p) ;;
  if (pi_readopen pi =? 0) && (pi_writeopen pi =? 0) then
    krelease (pipe_lock p) ;;;
    modst (fun st => set_pipes (delete p (st_pipes st)) st) ;;;
    on_base (kfree p)
  else krelease (pipe_lock p).

(** [myproc()->killed || mythread()->killed] *)
Definition killed_now : M kfs bool :=
  p <~ myproc ;;
  p <~ deref p ;;
  k <~ gets (fun s => p_killed (the_proc p s)) ;;
  if negb (k =? 0) then ret true
  else
    t <~ mythread ;;
    t <~ deref t ;;
    k <~ gets (fun s => th_killed (the_thread t s)) ;;
    ret (negb (k =? 0)).

(** The inner loop of [pipewrite]: [false] when it has given up. *)
Fixpoint wait_space (fuel : nat) (p : Z) : M kfs bool :=
  pi <~ getst (the_pipe p) ;;
  if pi_nwrite pi =? u32 (pi_nread pi + PIPESIZE) then
    stop <~ (if pi_readopen pi =? 0 then ret true else killed_now) ;;
    if (stop : bool) then krelease (pipe_lock p) ;;; ret false
    else
      wakeup (nread_chan p) ;;;
      match fuel with
      | O => fun _ => Spin
      | S fuel => sleep (nwrite_chan p) (Some (pipe_lock p)) ;;; wait_space fuel p
      end
  else ret true.
Fixpoint pipewrite_loop (k : nat) (p : Z) (addr : list Z) : M kfs bool :=
  match k with
  | O => ret true
  | S k =>
      ok <~ wait_space wait_bound p ;;
      if (ok : bool) then
        modst (upd_pipe p (put_char (byte addr 0))) ;;;
        pipewrite_loop k p (tail addr)
      else ret false
  end.
Definition pipewrite (p : Z) (addr : list Z) (n : Z) : M kfs Z :=
  kacquire (pipe_lock p) ;;;
  ok <~ pipewrite_loop (Z.to_nat n) p addr ;;
  if (ok : bool) then
    wakeup (nread_chan p) ;;;
    krelease (pipe_lock p) ;;;
    ret n
  else ret (-1).

Fixpoint wait_data (fuel : nat) (p : Z) : M kfs bool :=
  pi <~ getst (the_pipe p) ;;
  if (pi_nread pi =? pi_nwrite pi) && negb (pi_writeopen pi =? 0) then
    stop <~ killed_now ;;
    if (stop : bool) then krelease (pipe_lock p) ;;; ret false
    else
      match fuel with
      | O => fun _ => Spin
      | S fuel => sleep (nread_chan p) (Some (pipe_lock p)) ;;; wait_data fuel p
      end
  else ret true.
Fixpoint piperead_loop (k : nat) (p : Z) : M kfs (list Z) :=
  match k with
  | O => ret []
  | S k =>
      pi <~ getst (the_pipe p) ;;
      if pi_nread pi =? pi_nwrite pi then ret []
      else
        modst (upd_pipe p take_char) ;;;
        r <~ piperead_loop k p ;;
        ret (next_char pi :: r)
  end.
Definition piperead (p n : Z) : M kfs (Z * list Z) :=
  kacquire (pipe_lock p) ;;;
  ok <~ wait_data wait_bound p ;;
  if (ok : bool) then
    r <~ piperead_loop (Z.to_nat n) p ;;
    wakeup (nwrite_chan p) ;;;
    krelease (pipe_lock p) ;;;
    ret (Z.of_nat (length r), r)
  else ret (-1, []).
End Pipe.

(** ** The queue *)
Definition pipe_ok (pi : pipe) : Prop :=
  length (pi_data pi) = Z.to_nat PIPESIZE /\ 0 <= pi_nread pi < 2 ^ 32 /\ 0 <= pi_nwrite pi < 2 ^ 32 /\
  u32 (pi_nwrite pi - pi_nread pi) <= PIPESIZE.
Definition queue (pi : pipe) : list Z :=
  (fun k => byte (pi_data pi) ((pi_nread pi + k) mod PIPESIZE)) <$> seqZ 0 (u32 (pi_nwrite pi - pi_nread pi)).

Lemma length_queue pi : Z.of_nat (length (queue pi)) = u32 (pi_nwrite pi - pi_nread pi).
Proof. unfold queue. rewrite length_fmap, length_seqZ. pose proof (u32_range (pi_nwrite pi - pi_nread pi)). lia. Qed.

(** The remainder by [PIPESIZE], which divides 2^32, ignores the wrap. *)
Lemma u32_mod_pipe z : u32 z mod PIPESIZE = z mod PIPESIZE.
Proof. unfold u32, PIPESIZE. change (2 ^ 32) with 4294967296. Z.to_euclidean_division_equations. lia. Qed.

Lemma u32_sub_inj a b : 0 <= a < 2 ^ 32 -> 0 <= b < 2 ^ 32 -> u32 (a - b) = 0 <-> a = b.
Proof. unfold u32. intros Ha Hb. change (2 ^ 32) with 4294967296 in *. split; intros H; Z.to_euclidean_division_equations; lia. Qed.

Lemma put_char_ok c pi : pipe_ok pi -> Z.of_nat (length (queue pi)) < PIPESIZE ->
  pipe_ok (put_char c pi) /\ queue (put_char c pi) = queue pi ++ [c].
Proof.
  intros (Hl & Hr & Hw & Hq) Hlt. rewrite length_queue in Hlt.
  assert (E : u32 (u32 (pi_nwrite pi + 1) - pi_nread pi) = u32 (pi_nwrite pi - pi_nread pi) + 1).
  { unfold u32, PIPESIZE in *. change (2 ^ 32) with 4294967296 in *. Z.to_euclidean_division_equations. lia. }
  split.
  - split; [simpl; now rewrite length_insert|]. split; [done|]. split; [apply u32_range|]. simpl. rewrite E. lia.
  - unfold queue. simpl. rewrite E. set (len := u32 (pi_nwrite pi - pi_nread pi)) in *. pose proof (u32_range (pi_nwrite pi - pi_nread pi)) as Hlen. fold len in Hlen.
    rewrite seqZ_app, fmap_app by lia. simpl. unfold PIPESIZE in *.
    assert (Hmod : forall k, 0 <= k <= len -> (pi_nread pi + k) mod 512 = pi_nwrite pi mod 512 <-> k = len).
    { intros k Hk. unfold len, u32 in *. change (2 ^ 32) with 4294967296 in *. Z.to_euclidean_division_equations. lia. }
    f_equal.
    + apply list_eq. intros k. rewrite !list_lookup_fmap. destruct (decide (Z.of_nat k < len)) as [Hk|Hk].
      * rewrite lookup_seqZ_lt by lia. simpl. f_equal. unfold byte. rewrite list_lookup_insert_ne; [done|].
        intros Eq. apply Z2Nat.inj in Eq; [|apply Z.mod_pos_bound; lia..]. symmetry in Eq. apply Hmod in Eq; lia.
      * rewrite lookup_seqZ_ge by lia. done.
    + replace (Z.of_nat 0 + (0 + len)) with len by lia. rewrite (proj2 (Hmod len ltac:(lia)) eq_refl). unfold byte. rewrite list_lookup_insert_eq; [done|].
      rewrite Hl. pose proof (Z.mod_pos_bound (pi_nwrite pi) 512 ltac:(lia)). lia.
Qed.

Lemma take_char_ok pi : pipe_ok pi -> pi_nread pi <> pi_nwrite pi ->
  pipe_ok (take_char pi) /\ queue pi = next_char pi :: queue (take_char pi).
Proof.
  intros (Hl & Hr & Hw & Hq) Hne.
  assert (Hpos : 0 < u32 (pi_nwrite pi - pi_nread pi)).
  { pose proof (u32_range (pi_nwrite pi - pi_nread pi)). pose proof (u32_sub_inj _ _ Hw Hr) as [Hi _]. destruct (decide (u32 (pi_nwrite pi - pi_nread pi) = 0)) as [E0|]; [|lia].
    exfalso. apply Hne. symmetry. auto. }
  assert (E : u32 (pi_nwrite pi - u32 (pi_nread pi + 1)) = u32 (pi_nwrite pi - pi_nread pi) - 1).
  { unfold u32 in *. change (2 ^ 32) with 4294967296 in *. Z.to_euclidean_division_equations. lia. }
  split.
  - split; [done|]. split; [apply u32_range|]. split; [done|]. simpl. rewrite E. lia.
  - unfold queue. simpl. rewrite E. set (len := u32 (pi_nwrite pi - pi_nread pi)) in *.
    replace len with (1 + (len - 1)) at 1 by lia. rewrite seqZ_app, fmap_app by lia. simpl. f_equal; [unfold next_char; now rewrite Z.add_0_r|].
    apply list_eq. intros k. rewrite !list_lookup_fmap. destruct (decide (Z.of_nat k < len - 1)) as [Hk|Hk].
    + rewrite !lookup_seqZ_lt by lia. simpl. do 2 f_equal. rewrite (Z.add_mod (u32 _)), u32_mod_pipe, <- Z.add_mod by done. f_equal. lia.
    + rewrite !lookup_seqZ_ge by lia. done.
Qed.

Lemma the_pipe_upd p f st : the_pipe p (upd_pipe p f st) = f (the_pipe p st).
Proof. unfold the_pipe, upd_pipe. simpl. now rewrite lookup_insert_eq. Qed.

Lemma pipe_lock_ptable p : PTABLE_LOCK <> pipe_lock p.
Proof. unfold PTABLE_LOCK, pipe_lock. lia. Qed.

Lemma pipe_full pi : pipe_ok pi -> (pi_nwrite pi =? u32 (pi_nread pi + PIPESIZE)) = (Z.of_nat (length (queue pi)) =? PIPESIZE).
Proof.
  intros (_ & Hr & Hw & _). rewrite length_queue. apply Bool.eq_iff_eq_true. rewrite !Z.eqb_eq.
  unfold u32, PIPESIZE. change (2 ^ 32) with 4294967296 in *. Z.to_euclidean_division_equations. lia.
Qed.

Lemma pipe_empty pi : pipe_ok pi -> (pi_nread pi =? pi_nwrite pi) = true <-> queue pi = [].
Proof.
  intros (_ & Hr & Hw & _). rewrite Z.eqb_eq. pose proof (u32_sub_inj _ _ Hw Hr) as H. rewrite <- length_queue in H.
  split; intros E; [apply nil_length_inv; symmetry in E; apply H in E; lia|symmetry; apply H; now rewrite E].
Qed.

Section Runs.
Context {W : Wait} (w : who).

Lemma pipewrite_loop_run k p addr st (Q : bool -> storage -> Prop) :
  pipe_ok (the_pipe p st) -> Z.of_nat (length (queue (the_pipe p st)) + k) <= PIPESIZE -> (k <= length addr)%nat ->
  (forall st', pipe_ok (the_pipe p st') -> queue (the_pipe p st') = queue (the_pipe p st) ++ take k addr -> Q true st') ->
  srun w {[pipe_lock p]} (pipewrite_loop k p addr) st {[pipe_lock p]} Q.
Proof.
  revert addr st. induction k as [|k IH]; intros addr st Hok Hn Hl HQ; cbn [pipewrite_loop].
  { sgo. apply HQ; [done|]. now rewrite take_0, app_nil_r. }
  destruct addr as [|c addr]; [simpl in Hl; lia|].
  eapply srun_bind. assert (E : (pi_nwrite (the_pipe p st) =? u32 (pi_nread (the_pipe p st) + PIPESIZE)) = false)
    by (rewrite pipe_full by done; lia).
  assert (G : srun w {[pipe_lock p]} (wait_space wait_bound p) st {[pipe_lock p]} (fun b st' => b = true /\ st' = st)).
  { destruct wait_bound; cbn [wait_space]; sgo; rewrite E; sgo; done. }
  eapply srun_mono; [|exact G]. intros b st' [-> ->]. sgo. cbn [tail].
  destruct (put_char_ok c (the_pipe p st) Hok ltac:(lia)) as [Hok' Hq'].
  change (byte (c :: addr) 0) with c. apply IH; rewrite ?the_pipe_upd; [done|rewrite Hq', length_app; simpl; lia|simpl in Hl; lia|].
  intros st' Hp Hqq. apply HQ; [done|]. rewrite Hqq, ?the_pipe_upd, Hq'. simpl. now rewrite <- app_assoc.
Qed.

Lemma pipewrite_run p addr n st (Q : Z -> storage -> Prop) :
  pipe_ok (the_pipe p st) -> 0 <= n -> Z.of_nat (length (queue (the_pipe p st))) + n <= PIPESIZE -> n <= Z.of_nat (length addr) ->
  (forall st', pipe_ok (the_pipe p st') -> queue (the_pipe p st') = queue (the_pipe p st) ++ take (Z.to_nat n) addr -> Q n st') ->
  srun w ∅ (pipewrite p addr n) st ∅ Q.
Proof.
  intros Hok Hn Hq Hl HQ. unfold pipewrite. sgo. rewrite union_empty_r_L. pose proof (pipe_lock_ptable p).
  eapply srun_bind, pipewrite_loop_run; [done|lia|lia|]. intros st' Hp Hq'.
  eapply srun_bind, srun_wakeup; [set_solver|rewrite size_singleton; lia|].
  eapply srun_bind, (srun_krelease w _ ∅); [now rewrite union_empty_r_L|set_solver|]. sgo. now apply HQ.
Qed.

Lemma piperead_loop_run k p st (Q : list Z -> storage -> Prop) :
  pipe_ok (the_pipe p st) ->
  (forall st', pipe_ok (the_pipe p st') -> queue (the_pipe p st') = drop k (queue (the_pipe p st)) -> Q (take k (queue (the_pipe p st))) st') ->
  srun w {[pipe_lock p]} (piperead_loop k p) st {[pipe_lock p]} Q.
Proof.
  revert st Q. induction k as [|k IH]; intros st Q Hok HQ; cbn [piperead_loop].
  { sgo. now apply HQ. }
  sgo. destruct (pi_nread _ =? pi_nwrite _) eqn:E.
  - apply pipe_empty in E; [|done]. sgo. rewrite E in HQ. now apply HQ.
  - destruct (take_char_ok (the_pipe p st) Hok ltac:(lia)) as [Hok' Hq'].
    sgo. eapply srun_bind, IH; rewrite the_pipe_upd; [done|]. intros st' Hp Hqq. sgo. rewrite Hq' in HQ. now apply HQ.
Qed.

Lemma piperead_run p n st (Q : Z * list Z -> storage -> Prop) :
  pipe_ok (the_pipe p st) -> 0 <= n -> (queue (the_pipe p st) <> [] \/ pi_writeopen (the_pipe p st) = 0) ->
  (forall st', pipe_ok (the_pipe p st') -> queue (the_pipe p st') = drop (Z.to_nat n) (queue (the_pipe p st)) ->
     Q (Z.min n (Z.of_nat (length (queue (the_pipe p st)))), take (Z.to_nat n) (queue (the_pipe p st))) st') ->
  srun w ∅ (piperead p n) st ∅ Q.
Proof.
  intros Hok Hn Hq HQ. unfold piperead. sgo. rewrite union_empty_r_L. pose proof (pipe_lock_ptable p).
  assert (E : (pi_nread (the_pipe p st) =? pi_nwrite (the_pipe p st)) && negb (pi_writeopen (the_pipe p st) =? 0) = false).
  { destruct Hq as [Hq| ->]; [|apply andb_false_r].
    destruct (pi_nread _ =? pi_nwrite _) eqn:E; [|done]. now apply pipe_empty in E. }
  eapply srun_bind. assert (G : srun w {[pipe_lock p]} (wait_data wait_bound p) st {[pipe_lock p]} (fun b st' => b = true /\ st' = st)).
  { destruct wait_bound; cbn [wait_data]; sgo; rewrite E; sgo; done. }
  eapply srun_mono; [|exact G]. intros b st' [-> ->].
  eapply srun_bind, piperead_loop_run; [done|]. intros st' Hp Hq'.
  eapply srun_bind, srun_wakeup; [set_solver|rewrite size_singleton; lia|].
  eapply srun_bind, (srun_krelease w _ ∅); [now rewrite union_empty_r_L|set_solver|]. sgo.
  rewrite length_take. replace (Z.of_nat (_ `min` _)) with (Z.min n (Z.of_nat (length (queue (the_pipe p st))))) by lia. now apply HQ.
Qed.

(** C14. A pipe is a bounded queue of bytes.  A write that fits appends its
    bytes and returns their number; a read from a pipe that is not empty, or
    whose write end is closed, removes and returns as many bytes as there are,
    at most [n] (none at the end of the data); and a write to a full pipe
    whose read end is closed fails.  The 32-bit counters may wrap. *)
Theorem pipe_is_queue (s : kfs) (p n : Z) (addr : list Z) :
  let q := queue (the_pipe p (k_ext s)) in
  env w ∅ s -> pipe_ok (the_pipe p (k_ext s)) -> 0 <= n <= Z.of_nat (length addr) ->
  (Z.of_nat (length q) + n <= PIPESIZE ->
     exists s', pipewrite p addr n s = Done n s' /\ env w ∅ s' /\ pipe_ok (the_pipe p (k_ext s')) /\
       queue (the_pipe p (k_ext s')) = q ++ take (Z.to_nat n) addr) /\
  (q <> [] \/ pi_writeopen (the_pipe p (k_ext s)) = 0 ->
     exists s', piperead p n s = Done (Z.min n (Z.of_nat (length q)), take (Z.to_nat n) q) s' /\ env w ∅ s' /\
       pipe_ok (the_pipe p (k_ext s')) /\ queue (the_pipe p (k_ext s')) = drop (Z.to_nat n) q) /\
  (Z.of_nat (length q) = PIPESIZE -> pi_readopen (the_pipe p (k_ext s)) = 0 -> 0 < n ->
     exists s', pipewrite p addr n s = Done (-1) s' /\ env w ∅ s' /\ k_ext s' = k_ext s).
Proof.
  intros q He Hok Hn. split; [|split].
  - intros Hfit. destruct (srun_done w (pipewrite p addr n) s (fun r st' => r = n /\ pipe_ok (the_pipe p st') /\
      queue (the_pipe p st') = q ++ take (Z.to_nat n) addr)) as (r & s' & Hr & He' & -> & HQ); [|exact He|eauto 10].
    apply pipewrite_run; [done|lia|done|lia|]. auto.
  - intros Hq. destruct (srun_done w (piperead p n) s (fun r st' => r = (Z.min n (Z.of_nat (length q)), take (Z.to_nat n) q) /\
      pipe_ok (the_pipe p st') /\ queue (the_pipe p st') = drop (Z.to_nat n) q)) as (r & s' & Hr & He' & -> & HQ); [|exact He|eauto 10].
    apply piperead_run; [done|lia|done|]. auto.
  - intros Hfull Hro Hpos. destruct (srun_done w (pipewrite p addr n) s (fun r st' => r = -1 /\ st' = k_ext s)) as (r & s' & Hr & He' & -> & HQ);
      [|exact He|eauto].
    unfold pipewrite. sgo. destruct (Z.to_nat n) as [|k] eqn:Ek; [lia|]. cbn [pipewrite_loop].
    assert (E : (pi_nwrite (the_pipe p (k_ext s)) =? u32 (pi_nread (the_pipe p (k_ext s)) + PIPESIZE)) = true)
      by (rewrite pipe_full by done; now apply Z.eqb_eq).
    eapply srun_bind, srun_bind. destruct wait_bound; cbn [wait_space]; sgo; rewrite E, Hro;
      change (0 =? 0) with true; cbv iota; sgo; cbv iota; sgo; done.
Qed.
End Runs.

(** A pipe with two bytes, whose write counter has wrapped. *)
Definition demo_pipe : pipe := mkPipe (replicate 512 1) (2 ^ 32 - 1) 1 1 1.
Definition demo_pipes : kfs := upd_store (set_pipes {[0x80118000 := demo_pipe]}) demo_kfs.
#[local] Instance demo_wait : Wait := 0%nat.

Lemma pipe_is_queue_witness : exists s1 s2, pipewrite 0x80118000 [7; 8; 9] 3 demo_pipes = Done 3 s1 /\
  queue (the_pipe 0x80118000 (k_ext s1)) = [1; 1; 7; 8; 9] /\ piperead 0x80118000 3 demo_pipes = Done (2, [1; 1]) s2.
Proof.
  assert (Hp : the_pipe 0x80118000 (k_ext demo_pipes) = demo_pipe) by reflexivity.
  assert (Hq : queue demo_pipe = [1; 1]) by (vm_compute; reflexivity).
  destruct (pipe_is_queue demo_who demo_pipes 0x80118000 3 [7; 8; 9]) as (H1 & H2 & _).
  - exact demo_env.
  - rewrite Hp. split; [reflexivity|]. split; [simpl; lia|]. split; [simpl; lia|]. vm_compute. discriminate.
  - simpl. lia.
  - rewrite Hp, Hq in H1, H2. destruct H1 as (s1 & Hr & _ & _ & Hq1); [vm_compute; discriminate|].
    destruct H2 as (s2 & Hr2 & _); [left; discriminate|]. exists s1, s2. split; [exact Hr|]. split; [exact Hq1|exact Hr2].
Defined.
