(* ===== verification/File.v ===== *)
(** * Open files (file.c) and the allocation of pipes (pipe.c: pipealloc)

    The table of open files with its reference counts, and reading and writing
    through a file: a pipe or an inode with an offset.  [storage_ext] gives the
    process code of Proc.v the functions of the file system and of the virtual
    memory that it calls. *)
From S2P Require Import Prelude Mmu Str Spinlock Kalloc Vm Proc Exec Sched Store Bio Log LogCrash Fs Pipe.

Definition FTABLE_LOCK : nat := 7%nat.

Definition set_f_ref (v : Z) (f : file) : file := mkFile (f_type f) v (f_readable f) (f_writable f) (f_pipe f) (f_ip f) (f_off f).
Definition set_f_type (v : filetype) (f : file) : file := mkFile v (f_ref f) (f_readable f) (f_writable f) (f_pipe f) (f_ip f) (f_off f).
Definition set_f_off (v : Z) (f : file) : file := mkFile (f_type f) (f_ref f) (f_readable f) (f_writable f) (f_pipe f) (f_ip f) v.

Section File.
Context {W : Wait} {D : Devices}.

Definition fileinit : M kfs unit := on_cpus (initlock FTABLE_LOCK "ftable").

Definition filealloc : M kfs (option nat) :=
  kacquire FTABLE_LOCK ;;;
  l <~ getst st_files ;;
  match find_idx (fun f => f_ref f =? 0) l with
  | Some f =>
      modst (upd_file f (set_f_ref 1)) ;;;
      krelease FTABLE_LOCK ;;;
      ret (Some f)
  | None => krelease FTABLE_LOCK ;;; ret None
  end.

Definition filedup (f : nat) : M kfs nat :=
  kacquire FTABLE_LOCK ;;;
  r <~ getst (fun st => f_ref (the_file f st)) ;;
  if r <? 1 then panic "filedup"
  else
    modst (upd_file f (fun f => set_f_ref (f_ref f + 1) f)) ;;;
    krelease FTABLE_LOCK ;;;
    ret f.

Definition fileclose (f : nat) : M kfs unit :=
  kacquire FTABLE_LOCK ;;;
  r <~ getst (fun st => f_ref (the_file f st)) ;;
  if r <? 1 then panic "fileclose"
  else
    modst (upd_file f (fun f => set_f_ref (f_ref f - 1) f)) ;;;
    ff <~ getst (the_file f) ;;
    if 0 <? f_ref ff then krelease FTABLE_LOCK
    else
      modst (upd_file f (set_f_ref 0)) ;;;
      modst (upd_file f (set_f_type FD_NONE)) ;;;
      krelease FTABLE_LOCK ;;;
      match f_type ff with
      | FD_PIPE => pipeclose (f_pipe ff) (f_writable ff)
      | FD_INODE =>
          begin_op ;;;
          ip <~ deref (f_ip ff) ;;
          iput ip ;;;
          end_op
      | FD_NONE => ret tt
      end.

Definition filestat (f : nat) : M kfs (option stat) :=
  ff <~ getst (the_file f) ;;
  match f_type ff with
  | FD_INODE =>
      ilock (f_ip ff) ;;;
      ip <~ deref (f_ip ff) ;;
      r <~ stati ip ;;
      iunlock (f_ip ff) ;;;
      ret (Some r)
  | _ => ret None
  end.

Definition fileread (f : nat) (n : Z) : M kfs (Z * list Z) :=
  ff <~ getst (the_file f) ;;
  if f_readable ff =? 0 then ret (-1, [])
  else
    match f_type ff with
    | FD_PIPE => piperead (f_pipe ff) n
    | FD_INODE =>
        ilock (f_ip ff) ;;;
        ip <~ deref (f_ip ff) ;;
        off <~ getst (fun st => f_off (the_file f st)) ;;
        '(r, d) <~ readi ip off (u32 n) ;;
        when (0 <? r) (modst (upd_file f (fun f => set_f_off (u32 (f_off f + r)) f))) ;;;
        iunlock (f_ip ff) ;;;
        ret (r, d)
    | FD_NONE => panic "fileread"
    end.

Definition max_write : Z := (MAXOPBLOCKS - 1 - 1 - 2) / 2 * 512.
Fixpoint filewrite_loop (fuel f : nat) (o : option nat) (addr : list Z) (n i : Z) : M kfs Z :=
  match fuel with
  | O => fun _ => Spin
  | S fuel =>
      if i <? n then
        let n1 := if max_write <? n - i then max_write else n - i in
        begin_op ;;;
        ilock o ;;;
        ip <~ deref o ;;
        off <~ getst (fun st => f_off (the_file f st)) ;;
        r <~ writei ip (drop (Z.to_nat i) addr) off n1 ;;
        when (0 <? r) (modst (upd_file f (fun f => set_f_off (u32 (f_off f + r)) f))) ;;;
        iunlock o ;;;
        end_op ;;;
        if r <? 0 then ret i
        else if negb (r =? n1) then panic "short filewrite"
        else filewrite_loop fuel f o addr n (i + r)
      else ret i
  end.
Definition filewrite (f : nat) (addr : list Z) (n : Z) : M kfs Z :=
  ff <~ getst (the_file f) ;;
  if f_writable ff =? 0 then ret (-1)
  else
    match f_type ff with
    | FD_PIPE => pipewrite (f_pipe ff) addr n
    | FD_INODE =>
        i <~ filewrite_loop (S (Z.to_nat n)) f (f_ip ff) addr n 0 ;;
        ret (if i =? n then n else -1)
    | FD_NONE => panic "filewrite"
    end.

(** ** pipealloc

    The two files, or [None] after the ones that were allocated have been
    closed.  A new page's bytes are never read before they are written. *)
Definition pipealloc : M kfs (option (nat * nat)) :=
  f0 <~ filealloc ;;
  match f0 with
  | None => ret None
  | Some f0 =>
      f1 <~ filealloc ;;
      match f1 with
      | None => fileclose f0 ;;; ret None
      | Some f1 =>
          p <~ on_base kalloc ;;
          if p =? 0 then fileclose f0 ;;; fileclose f1 ;;; ret None
          else
            modst (fun st => set_pipes (<[p := mkPipe (replicate (Z.to_nat PIPESIZE) 0) 0 0 1 1]> (st_pipes st)) st) ;;;
            on_cpus (initlock (pipe_lock p) "pipe") ;;;
            modst (upd_file f0 (fun f => mkFile FD_PIPE (f_ref f) 1 0 p (f_ip f) (f_off f))) ;;;
            modst (upd_file f1 (fun f => mkFile FD_PIPE (f_ref f) 0 1 p (f_ip f) (f_off f))) ;;;
            ret (Some (f0, f1))
      end
  end.

(** ** What the process code uses

    [trapret], [forkret] and [data] are addresses the linker chooses; [init]
    and [size] are the initial program. *)
Definition storage_ext (trapret forkret data init size : Z) : KernelExt storage := {|
  x_trapret := trapret;
  x_forkret := forkret;
  x_setupkvm := on_base (setupkvm data);
  x_inituvm := fun pgdir => on_base (inituvm pgdir init size);
  x_copyuvm := fun pgdir sz => on_base (copyuvm data pgdir sz);
  x_freevm := fun pgdir => on_base (freevm pgdir);
  x_allocuvm := fun pgdir oldsz newsz => on_base (allocuvm pgdir oldsz newsz);
  x_deallocuvm := fun pgdir oldsz newsz => on_base (deallocuvm pgdir oldsz newsz);
  x_filedup := fun f => filedup f ;;; ret tt;
  x_fileclose := fileclose;
  x_idup := fun ip => idup ip ;;; ret tt;
  x_iput := iput;
  x_namei := namei;
  x_begin_op := begin_op;
  x_end_op := end_op;
  x_iinit := iinit ROOTDEV;
  x_initlog := initlog ROOTDEV;
|}.
End File.
