(* ===== verification/Syscall.v ===== *)
(** * User memory and the arguments of system calls (syscall.c)

    The kernel reads and writes the memory of the calling process through the
    page table in the register cr3 of the processor; an access to a page that
    is not present is a trap in kernel mode, which is a panic.  The functions
    that fetch arguments return [None] where the code returns -1.

    [fetchstr] only checks the string in place; the model takes the bytes at
    that moment, as the comment on [argstr] says the code may. *)
From S2P Require Import Prelude Mmu Str Spinlock Kalloc Vm Proc Exec Sched Store Bio Log LogCrash Fs Pipe File.

Definition k_memory (s : kfs) : gmap Z Z := km_mem (ks_kmem (k_base s)).
(** Where the processor finds the byte at the virtual address [va]. *)
Definition translate (va : Z) (s : kfs) : option Z :=
  let e := pte_at (k_memory s) (P2V (cr3_at (k_mach s))) va in
  if present e then Some (P2V (PTE_ADDR e) + va mod PGSIZE) else None.
Definition uload (va : Z) : M kfs Z := fun s =>
  match translate va s with
  | Some a => Done (byte_at (k_memory s) a) s
  | None => Crash "trap"
  end.
Definition ustore (va v : Z) : M kfs unit := fun s =>
  match translate va s with
  | Some a => on_base (modify (upd_mem (put_byte a v))) s
  | None => Crash "trap"
  end.

Fixpoint uload_bytes (n : nat) (va : Z) : M kfs (list Z) :=
  match n with
  | O => ret []
  | S n =>
      b <~ uload va ;;
      l <~ uload_bytes n (va + 1) ;;
      ret (b :: l)
  end.
Fixpoint ustore_bytes (va : Z) (l : list Z) : M kfs unit :=
  match l with
  | [] => ret tt
  | b :: l => ustore va b ;;; ustore_bytes (va + 1) l
  end.
(** A word in little-endian order. *)
Definition bytes_of (v : Z) : list Z := put32 0 v [0; 0; 0; 0].

(** The size of the calling process. *)
Definition mysz : M kfs Z :=
  p <~ myproc ;;
  p <~ deref p ;;
  gets (fun s => p_sz (the_proc p s)).
Definition my_esp : M kfs Z :=
  t <~ mythread ;;
  t <~ deref t ;;
  gets (fun s => tf_esp (th_frame (the_thread t s))).

Definition fetchint (addr : Z) : M kfs (option Z) :=
  sz <~ mysz ;;
  if (sz <=? addr) || (sz <? u32 (addr + 4)) then ret None
  else
    d <~ uload_bytes 4 addr ;;
    ret (Some (s32 (get32 d 0))).

(** The bytes up to the first zero before [ep]. *)
Fixpoint fetchstr_loop (fuel : nat) (s ep : Z) : M kfs (option (list Z)) :=
  match fuel with
  | O => ret None
  | S fuel =>
      if s <? ep then
        c <~ uload s ;;
        if c =? 0 then ret (Some [])
        else
          r <~ fetchstr_loop fuel (s + 1) ep ;;
          ret (match r with Some l => Some (c :: l) | None => None end)
      else ret None
  end.
Definition fetchstr (addr : Z) : M kfs (option (list Z)) :=
  sz <~ mysz ;;
  if sz <=? addr then ret None
  else fetchstr_loop (Z.to_nat (sz - addr)) addr sz.

Definition argint (n : Z) : M kfs (option Z) :=
  esp <~ my_esp ;;
  fetchint (u32 (esp + 4 + 4 * n)).

Definition argptr (n size : Z) : M kfs (option Z) :=
  i <~ argint n ;;
  match i with
  | None => ret None
  | Some i =>
      sz <~ mysz ;;
      if (size <? 0) || (sz <=? u32 i) || (sz <? u32 (u32 i + size)) then ret None
      else ret (Some (u32 i))
  end.

Definition argstr (n : Z) : M kfs (option (list Z)) :=
  addr <~ argint n ;;
  match addr with
  | None => ret None
  | Some addr => fetchstr (u32 addr)
  end.
