(* ===== verification/Args.v ===== *)
(** * What the argument functions of syscall.c check

    [fetchstr] returns exactly the zero-terminated strings that end inside the
    address space, and [argptr] exactly the blocks inside it, whatever the user
    program passes. *)
From S2P Require Import Prelude Mmu Str Spinlock Kalloc Vm Proc Exec Sched Store Bio Log LogCrash Fs Pipe File Syscall.

(** The byte of the address space in use at a virtual address. *)
Definition ubyte (s : kfs) (va : Z) : option Z := byte_at (k_memory s) <$> translate va s.

(** Only the state of the processor differs, and not its page directory. *)
Definition quiet (x : exe) (s s' : kfs) : Prop :=
  exists m', s' = with_mach m' s /\ mst x ∅ m' /\ cr3_at m' = cr3_at (k_mach s).

Lemma quiet_refl x s : mst x ∅ (k_mach s) -> quiet x s s.
Proof. intros H. exists (k_mach s). split; [now destruct s as [[] ? ? ? ? ? ?]|]. done. Qed.

Lemma quiet_trans x s1 s2 s3 : quiet x s1 s2 -> quiet x s2 s3 -> quiet x s1 s3.
Proof. intros (m & -> & _ & E1) (m' & -> & H & E2). exists m'. split; [done|]. split; [done|]. rewrite E2. exact E1. Qed.

Lemma quiet_mst x s s' : quiet x s s' -> mst x ∅ (k_mach s').
Proof. intros (m & -> & H & _). exact H. Qed.

Lemma quiet_ubyte x s s' va : quiet x s s' -> ubyte s' va = ubyte s va.
Proof.
  intros (m & -> & _ & E). unfold ubyte, translate, k_memory.
  change (cr3_at (k_mach (with_mach m s))) with (cr3_at m). now rewrite E.
Qed.

Lemma quiet_proc x s s' p : quiet x s s' -> the_proc p s' = the_proc p s.
Proof. intros (m & -> & _). done. Qed.

Lemma quiet_thread x s s' t : quiet x s s' -> the_thread t s' = the_thread t s.
Proof. intros (m & -> & _). done. Qed.

Lemma byte_at_range mem a : 0 <= byte_at mem a < 256.
Proof. unfold byte_at. apply Z.mod_pos_bound. lia. Qed.

Lemma ubyte_range s va b : ubyte s va = Some b -> 0 <= b < 256.
Proof. unfold ubyte. destruct (translate va s); simpl; intros [= <-]. apply byte_at_range. Qed.

Lemma uload_total va b s (Q : Z -> kfs -> Prop) : ubyte s va = Some b -> Q b s -> total (uload va) s Q.
Proof. unfold ubyte, uload, total. destruct (translate va s); simpl; intros [= ->]; done. Qed.

Section Caller.
Context (x : exe) (p : nat) (t : nat * nat) (Hp : x_proc x = Some p) (Ht : x_thread x = Some t).

Lemma mysz_total s (Q : Z -> kfs -> Prop) : mst x ∅ (k_mach s) ->
  (forall s', quiet x s s' -> Q (p_sz (the_proc p s)) s') -> total mysz s Q.
Proof.
  intros Hm HQ. unfold mysz. apply total_bind. eapply myproc_cr3_total; [exact Hm|kset|]. intros m' Hm' Hcr. rewrite Hp.
  apply total_bind, total_ret, total_gets. apply (HQ (with_mach m' s)). now exists m'.
Qed.

Lemma my_esp_total s (Q : Z -> kfs -> Prop) : mst x ∅ (k_mach s) ->
  (forall s', quiet x s s' -> Q (tf_esp (th_frame (the_thread t s))) s') -> total my_esp s Q.
Proof.
  intros Hm HQ. unfold my_esp. apply total_bind. eapply mythread_cr3_total; [exact Hm|kset|]. intros m' Hm' Hcr. rewrite Ht.
  apply total_bind, total_ret, total_gets. apply (HQ (with_mach m' s)). now exists m'.
Qed.

Lemma uload_bytes_total n va l s (Q : list Z -> kfs -> Prop) :
  length l = n -> (forall k b, l !! k = Some b -> ubyte s (va + Z.of_nat k) = Some b) -> Q l s -> total (uload_bytes n va) s Q.
Proof.
  revert va l Q. induction n as [|n IH]; intros va l Q Hl Hb HQ; destruct l as [|b l]; try discriminate; [exact HQ|].
  simpl. apply total_bind. apply (uload_total va b).
  { replace va with (va + Z.of_nat 0) by lia. now apply Hb. }
  apply total_bind. apply (IH (va + 1) l); [simpl in Hl; lia| |exact HQ].
  intros k c Hk. replace (va + 1 + Z.of_nat k) with (va + Z.of_nat (S k)) by lia. now apply Hb.
Qed.

(** A string of nonzero bytes, and the zero after it. *)
Definition string_at (s : kfs) (a : Z) (l : list Z) : Prop :=
  (forall k c, l !! k = Some c -> ubyte s (a + Z.of_nat k) = Some c /\ c <> 0) /\ ubyte s (a + Z.of_nat (length l)) = Some 0.

Lemma string_at_cons s a c l : ubyte s a = Some c -> c <> 0 -> string_at s (a + 1) l -> string_at s a (c :: l).
Proof.
  intros Ha Hc [H1 H2]. split.
  - intros [|k] d Hd; simpl in Hd.
    + injection Hd as <-. rewrite Z.add_0_r. auto.
    + replace (a + Z.of_nat (S k)) with (a + 1 + Z.of_nat k) by lia. now apply H1.
  - cbn [length]. replace (a + Z.of_nat (S (length l))) with (a + 1 + Z.of_nat (length l)) by lia. exact H2.
Qed.

Lemma fetchstr_loop_total n a ep s (Q : option (list Z) -> kfs -> Prop) :
  ep - a = Z.of_nat n -> (forall va, a <= va < ep -> is_Some (ubyte s va)) ->
  (forall l, a + Z.of_nat (length l) < ep -> string_at s a l -> Q (Some l) s) ->
  ((forall va, a <= va < ep -> ubyte s va <> Some 0) -> Q None s) -> total (fetchstr_loop n a ep) s Q.
Proof.
  revert a Q. induction n as [|n IH]; intros a Q Hn Hmap HS HN; simpl; [apply HN; lia|].
  replace (a <? ep) with true by lia. destruct (Hmap a) as [c Hc]; [lia|].
  apply total_bind. apply (uload_total a c); [exact Hc|]. destruct (Z.eqb_spec c 0) as [->|Hne].
  - apply HS; [simpl; lia|]. split; [now intros k c Hk|]. simpl. now rewrite Z.add_0_r.
  - apply total_bind. apply IH; [lia|intros va Hva; apply Hmap; lia| |].
    + intros l Hl Hs. apply (HS (c :: l)); [simpl; lia|now apply string_at_cons].
    + intros H0. apply HN. intros va Hva. destruct (decide (va = a)) as [->|]; [congruence|apply H0; lia].
Qed.
End Caller.

(** The word at the address of argument [n]. *)
Definition arg_addr (t : nat * nat) (n : Z) (s : kfs) : Z := u32 (tf_esp (th_frame (the_thread t s)) + 4 + 4 * n).
Definition word_at (s : kfs) (a : Z) : Z :=
  let b k := default 0 (ubyte s (a + k)) in b 0 + 256 * b 1 + 65536 * b 2 + 16777216 * b 3.
(** The pages below [sz] are present. *)
Definition mapped_to (sz : Z) (s : kfs) : Prop := forall va, 0 <= va < sz -> is_Some (ubyte s va).

Section Fetch.
Context (x : exe) (p : nat) (t : nat * nat) (Hp : x_proc x = Some p) (Ht : x_thread x = Some t).

Lemma word_range s a : 0 <= word_at s a < 2 ^ 32.
Proof.
  unfold word_at. assert (H : forall k, 0 <= default 0 (ubyte s (a + k)) < 256).
  { intros k. destruct (ubyte s (a + k)) as [b|] eqn:E; simpl; [eapply ubyte_range, E|lia]. }
  pose proof (H 0). pose proof (H 1). pose proof (H 2). pose proof (H 3). lia.
Qed.

Lemma uload_word_total a s (Q : list Z -> kfs -> Prop) : 0 <= a -> (forall va, a <= va < a + 4 -> is_Some (ubyte s va)) ->
  (forall d, get32 d 0 = word_at s a -> Q d s) -> total (uload_bytes 4 a) s Q.
Proof.
  intros Ha Hmap HQ. destruct (Hmap a) as [b0 E0], (Hmap (a + 1)) as [b1 E1], (Hmap (a + 2)) as [b2 E2], (Hmap (a + 3)) as [b3 E3]; [lia..|].
  apply (uload_bytes_total 4 a [b0; b1; b2; b3]); [done| |].
  - intros k b Hk. destruct k as [|[|[|[|k]]]]; simpl in Hk; try discriminate; injection Hk as <-; [rewrite Z.add_0_r; exact E0|exact E1|exact E2|exact E3].
  - apply HQ. unfold word_at. rewrite Z.add_0_r, E0, E1, E2, E3. reflexivity.
Qed.

Lemma fetchint_total a s (Q : option Z -> kfs -> Prop) :
  let sz := p_sz (the_proc p s) in
  mst x ∅ (k_mach s) -> 0 <= a < 2 ^ 32 -> sz <= 2 ^ 31 -> mapped_to sz s ->
  (forall s', quiet x s s' -> Q (if decide (a + 4 <= sz) then Some (s32 (word_at s a)) else None) s') ->
  total (fetchint a) s Q.
Proof.
  intros sz Hm Ha Hsz Hmap HQ. unfold fetchint. apply total_bind. apply (mysz_total x p Hp); [exact Hm|]. intros s' Hq. fold sz.
  destruct (decide (a + 4 <= sz)) as [Hin|Hout].
  - rewrite (u32_small (a + 4)) by lia. replace ((sz <=? a) || (sz <? a + 4)) with false by lia.
    apply total_bind. apply uload_word_total; [lia|intros va Hva; rewrite (quiet_ubyte _ _ _ _ Hq); apply Hmap; lia|].
    intros d Hd. apply total_ret. rewrite Hd. unfold word_at. rewrite !(quiet_ubyte _ _ _ _ Hq). now apply HQ.
  - replace ((sz <=? a) || (sz <? u32 (a + 4))) with true; [now apply HQ|].
    destruct (Z.leb_spec sz a); [done|]. rewrite u32_small by lia. simpl. symmetry. apply Z.ltb_lt. lia.
Qed.

Lemma argint_total n s (Q : option Z -> kfs -> Prop) :
  let sz := p_sz (the_proc p s) in let a := arg_addr t n s in
  mst x ∅ (k_mach s) -> sz <= 2 ^ 31 -> mapped_to sz s ->
  (forall s', quiet x s s' -> Q (if decide (a + 4 <= sz) then Some (s32 (word_at s a)) else None) s') ->
  total (argint n) s Q.
Proof.
  intros sz a Hm Hsz Hmap HQ. unfold argint. apply total_bind. apply (my_esp_total x t Ht); [exact Hm|]. intros s1 Hq.
  fold (arg_addr t n s). fold a. apply fetchint_total.
  - eapply quiet_mst, Hq.
  - apply u32_range.
  - rewrite (quiet_proc _ _ _ _ Hq). exact Hsz.
  - rewrite (quiet_proc _ _ _ _ Hq). intros va Hva. rewrite (quiet_ubyte _ _ _ _ Hq). now apply Hmap.
  - intros s2 Hq2. rewrite (quiet_proc _ _ _ _ Hq). unfold word_at. rewrite !(quiet_ubyte _ _ _ _ Hq). apply HQ. eapply quiet_trans; eauto.
Qed.

(** C33. A pointer argument of a system call is accepted exactly when the word
    that holds it lies inside the address space and the block it points to
    does, for every value the user program may pass: no sum wraps around, and
    a negative size is refused.  The check changes nothing. *)
Theorem argptr_in_bounds (s : kfs) (n size : Z) :
  let sz := p_sz (the_proc p s) in let a := arg_addr t n s in
  mst x ∅ (k_mach s) -> sz <= 2 ^ 31 -> mapped_to sz s -> size < 2 ^ 31 ->
  exists s', argptr n size s =
    Done (if decide (a + 4 <= sz /\ 0 <= size /\ word_at s a < sz /\ word_at s a + size <= sz) then Some (word_at s a) else None) s' /\
    quiet x s s'.
Proof.
  intros sz a Hm Hsz Hmap Hsize. apply total_done_eq. unfold argptr. apply total_bind.
  apply argint_total; [done..|]. intros s1 Hq. fold sz a. destruct (decide (a + 4 <= sz)) as [Hin|Hout].
  - apply total_bind. apply (mysz_total x p Hp); [eapply quiet_mst, Hq|]. intros s2 Hq2.
    rewrite (quiet_proc _ _ _ _ Hq). fold sz. pose proof (word_range s a) as Hw. rewrite u32_s32, (u32_small (word_at s a)) by done.
    assert (Hqq : quiet x s s2) by (eapply quiet_trans; eauto).
    destruct (Z.ltb_spec size 0), (Z.leb_spec sz (word_at s a)); cbn [orb];
      try (apply total_ret; split; [now rewrite decide_False by lia|done]).
    rewrite u32_small by lia. destruct (Z.ltb_spec sz (word_at s a + size)); apply total_ret; split; try done.
    + now rewrite decide_False by lia.
    + now rewrite decide_True by lia.
  - apply total_ret. split; [now rewrite decide_False by lia|exact Hq].
Qed.

(** [fetchstr] of any address of the address space returns the bytes up to
    the first zero, which is the string there, when that zero lies inside the
    address space; otherwise, and for any other address, it fails.  It reads
    nothing outside. *)
Theorem fetchstr_finds_string (s : kfs) (a : Z) :
  let sz := p_sz (the_proc p s) in
  mst x ∅ (k_mach s) -> 0 <= a -> mapped_to sz s ->
  exists r s', fetchstr a s = Done r s' /\ quiet x s s' /\
    match r with
    | Some l => a + Z.of_nat (length l) < sz /\ string_at s a l
    | None => forall va, a <= va < sz -> ubyte s va <> Some 0
    end.
Proof.
  intros sz Hm Ha Hmap. assert (H : total (fetchstr a) s (fun r s' => quiet x s s' /\
    match r with
    | Some l => a + Z.of_nat (length l) < sz /\ string_at s a l
    | None => forall va, a <= va < sz -> ubyte s va <> Some 0
    end)).
  { unfold fetchstr. apply total_bind. apply (mysz_total x p Hp); [exact Hm|]. intros s1 Hq. fold sz.
    destruct (Z.leb_spec sz a) as [Hout|Hin]; [apply total_ret; split; [exact Hq|intros va; lia]|].
    apply fetchstr_loop_total; [lia|intros va Hva; rewrite (quiet_ubyte _ _ _ _ Hq); apply Hmap; lia| |].
    - intros l Hl [H1 H2]. split; [exact Hq|]. split; [exact Hl|]. split; [intros k c Hk|]; rewrite <- (quiet_ubyte _ _ _ _ Hq); auto.
    - intros H0. split; [exact Hq|]. intros va Hva. rewrite <- (quiet_ubyte _ _ _ _ Hq). auto. }
  destruct (total_done _ _ _ H) as (r & s' & Hr & HQ). eauto.
Qed.
End Fetch.

(** ** A process of 16 bytes: the string "hi", a word and two pointers *)
Definition user_memory : gmap Z Z :=
  <[0x80400000 := 0x401007]> (<[0x80401000 := 0x402007]>
  (<[0x80402000 := 0x6968]> (<[0x80402004 := 1]> (<[0x80402008 := 0x10000000]> ∅)))).
Definition user_exe : exe := mkExe 0 true (Some 0%nat) (Some (0%nat, 0%nat)).
Definition user_mach : mach := upd_cpu 0 (set_cr3 0x400000) (one_cpu user_exe ∅).
Definition user_state : kfs :=
  mkK (mkKst user_mach (mkKmem true 0 user_memory 0x80116000))
    [set_p_sz 16 (set_p_threads [thread0] proc0)] [] None 1 false demo_storage.

Lemma user_mst : mst user_exe ∅ (k_mach user_state).
Proof.
  set (s0 := with_mach (one_cpu user_exe ∅) user_state).
  assert (H : total (on_cpus (modify (upd_cpu 0 (set_cr3 0x400000)))) s0 (fun _ s' => mst user_exe ∅ (k_mach s'))); [|exact H].
  apply (upd_cpu_same 0 user_exe ∅); [apply one_cpu_mst; [done|kset]|done|auto].
Qed.

Lemma user_mapped : mapped_to 16 user_state.
Proof.
  intros va Hva. assert (H : Z.to_nat va ∈ seq 0 16) by (apply elem_of_seq; lia).
  replace va with (Z.of_nat (Z.to_nat va)) by lia. revert H. generalize (Z.to_nat va). intros k.
  cbn [seq]. rewrite !elem_of_cons, elem_of_nil. intros H. repeat destruct H as [->|H]; try done; vm_compute; eauto.
Qed.

Lemma argptr_in_bounds_witness : exists s', argptr 0 3 user_state = Done (Some 1) s' /\ quiet user_exe user_state s'.
Proof.
  destruct (argptr_in_bounds user_exe 0 (0, 0)%nat eq_refl eq_refl user_state 0 3 user_mst) as (s' & Hr & Hq);
    [vm_compute; discriminate|exact user_mapped|lia|]. exists s'. split; [|exact Hq]. rewrite Hr. f_equal.
Defined.

Lemma fetchstr_finds_string_witness : exists s', fetchstr 0 user_state = Done (Some [104; 105]) s' /\ quiet user_exe user_state s'.
Proof.
  destruct (fetchstr_finds_string user_exe 0 eq_refl user_state 0 user_mst) as (r & s' & Hr & Hq & H); [lia|exact user_mapped|].
  exists s'. split; [|exact Hq]. rewrite Hr. f_equal.
  assert (E : match fetchstr 0 user_state with Done r _ => r = Some [104; 105] | _ => False end) by (vm_compute; reflexivity).
  rewrite Hr in E. exact E.
Defined.
