(* ===== verification/SysFile.v ===== *)
(** * File system calls (sysfile.c)

    The argument checking and the composition of the functions of file.c,
    pipe.c, fs.c and log.c.  The data read or written is transferred between
    the file and the memory of the process: [sys_write] takes the bytes of the
    buffer before it calls [filewrite], [sys_read] stores what [fileread]
    returns. *)
From S2P Require Import Prelude Mmu Str Spinlock Kalloc Vm Proc Exec Sched Store Bio Log LogCrash Fs Pipe File Syscall.

Definition O_RDONLY : Z := 0x000.
Definition O_WRONLY : Z := 0x001.
Definition O_RDWR : Z := 0x002.
Definition O_CREATE : Z := 0x200.

Section SysFile.
Context {W : Wait} {D : Devices}.

(** The descriptor and the file. *)
Definition argfd (n : Z) : M kfs (option (Z * nat)) :=
  fd <~ argint n ;;
  match fd with
  | None => ret None
  | Some fd =>
      if (fd <? 0) || (Z.of_nat NOFILE <=? fd) then ret None
      else
        p <~ myproc ;;
        p <~ deref p ;;
        f <~ gets (fun s => default None (p_ofile (the_proc p s) !! Z.to_nat fd)) ;;
        match f with
        | None => ret None
        | Some f => ret (Some (fd, f))
        end
  end.

Definition set_ofile (p : nat) (fd : nat) (f : option nat) : M kfs unit :=
  modify (upd_proc p (fun q => set_p_ofile (<[fd := f]> (p_ofile q)) q)).
Definition fdalloc (f : nat) : M kfs Z :=
  p <~ myproc ;;
  p <~ deref p ;;
  l <~ gets (fun s => p_ofile (the_proc p s)) ;;
  match find_idx (fun o => bool_decide (o = None)) (take NOFILE l) with
  | Some fd => set_ofile p fd (Some f) ;;; ret (Z.of_nat fd)
  | None => ret (-1)
  end.

Definition sys_dup : M kfs Z :=
  a <~ argfd 0 ;;
  match a with
  | None => ret (-1)
  | Some (_, f) =>
      fd <~ fdalloc f ;;
      if fd <? 0 then ret (-1)
      else filedup f ;;; ret fd
  end.

(** The file, the length and the address of the buffer. *)
Definition arg_rw : M kfs (option (nat * Z * Z)) :=
  a <~ argfd 0 ;;
  match a with
  | None => ret None
  | Some (_, f) =>
      n <~ argint 2 ;;
      match n with
      | None => ret None
      | Some n =>
          p <~ argptr 1 n ;;
          ret (match p with Some p => Some (f, n, p) | None => None end)
      end
  end.
Definition sys_read : M kfs Z :=
  a <~ arg_rw ;;
  match a with
  | None => ret (-1)
  | Some (f, n, p) =>
      '(r, d) <~ fileread f n ;;
      ustore_bytes p d ;;;
      ret r
  end.
Definition sys_write : M kfs Z :=
  a <~ arg_rw ;;
  match a with
  | None => ret (-1)
  | Some (f, n, p) =>
      d <~ uload_bytes (Z.to_nat n) p ;;
      filewrite f d n
  end.

Definition sys_close : M kfs Z :=
  a <~ argfd 0 ;;
  match a with
  | None => ret (-1)
  | Some (fd, f) =>
      p <~ myproc ;;
      p <~ deref p ;;
      set_ofile p (Z.to_nat fd) None ;;;
      fileclose f ;;;
      ret 0
  end.

(** The fields of [struct stat] at their offsets. *)
Definition put_stat (va : Z) (x : stat) : M kfs unit :=
  ustore_bytes va (put16 0 (st_type x) [0; 0]) ;;;
  ustore_bytes (va + 4) (bytes_of (st_dev x)) ;;;
  ustore_bytes (va + 8) (bytes_of (st_ino x)) ;;;
  ustore_bytes (va + 12) (put16 0 (st_nlink x) [0; 0]) ;;;
  ustore_bytes (va + 16) (bytes_of (st_size x)).
Definition sys_fstat : M kfs Z :=
  a <~ argfd 0 ;;
  match a with
  | None => ret (-1)
  | Some (_, f) =>
      st <~ argptr 1 20 ;;
      match st with
      | None => ret (-1)
      | Some st =>
          r <~ filestat f ;;
          match r with
          | None => ret (-1)
          | Some x => put_stat st x ;;; ret 0
          end
      end
  end.

(** ** Links *)
Definition set_nlink (d : Z) (i : inode) : inode :=
  mkInode (i_dev i) (i_inum i) (i_ref i) (i_valid i) (i_type i) (i_major i) (i_minor i) (s16 (i_nlink i + d)) (i_size i) (i_addrs i).
Definition inode_at (ip : nat) : M kfs inode := getst (the_inode ip).

(** [bad:] of [sys_link]. *)
Definition link_bad (ip : nat) : M kfs Z :=
  ilock (Some ip) ;;;
  modst (upd_inode ip (set_nlink (-1))) ;;;
  iupdate ip ;;;
  iunlockput ip ;;;
  end_op ;;;
  ret (-1).
Definition sys_link : M kfs Z :=
  old <~ argstr 0 ;;
  match old with
  | None => ret (-1)
  | Some old =>
      new <~ argstr 1 ;;
      match new with
      | None => ret (-1)
      | Some new =>
          begin_op ;;;
          ip <~ namei old ;;
          match ip with
          | None => end_op ;;; ret (-1)
          | Some ip =>
              ilock (Some ip) ;;;
              i <~ inode_at ip ;;
              if i_type i =? T_DIR then iunlockput ip ;;; end_op ;;; ret (-1)
              else
                modst (upd_inode ip (set_nlink 1)) ;;;
                iupdate ip ;;;
                iunlock (Some ip) ;;;
                '(dp, name) <~ nameiparent new ;;
                match dp with
                | None => link_bad ip
                | Some dp =>
                    ilock (Some dp) ;;;
                    d <~ inode_at dp ;;
                    i <~ inode_at ip ;;
                    r <~ (if negb (i_dev d =? i_dev i) then ret (-1) else dirlink dp name (i_inum i)) ;;
                    if r <? 0 then iunlockput dp ;;; link_bad ip
                    else
                      iunlockput dp ;;;
                      iput ip ;;;
                      end_op ;;;
                      ret 0
                end
          end
      end
  end.

Fixpoint isdirempty_loop (fuel dp : nat) (off : Z) : M kfs bool :=
  match fuel with
  | O => fun _ => Spin
  | S fuel =>
      i <~ inode_at dp ;;
      if off <? i_size i then
        '(r, de) <~ readi dp off DIRENT ;;
        if negb (r =? DIRENT) then panic "isdirempty: readi"
        else if negb (de_inum de =? 0) then ret false
        else isdirempty_loop fuel dp (off + DIRENT)
      else ret true
  end.
Definition isdirempty (dp : nat) : M kfs bool :=
  i <~ inode_at dp ;;
  isdirempty_loop (S (Z.to_nat (i_size i / DIRENT + 1))) dp (2 * DIRENT).

Definition DOT : list Z := [46].
Definition DOTDOT : list Z := [46; 46].
(** [bad:] of [sys_unlink]. *)
Definition unlink_bad (dp : nat) : M kfs Z := iunlockput dp ;;; end_op ;;; ret (-1).
Definition sys_unlink : M kfs Z :=
  path <~ argstr 0 ;;
  match path with
  | None => ret (-1)
  | Some path =>
      begin_op ;;;
      '(dp, name) <~ nameiparent path ;;
      match dp with
      | None => end_op ;;; ret (-1)
      | Some dp =>
          ilock (Some dp) ;;;
          if (namecmp name DOT =? 0) || (namecmp name DOTDOT =? 0) then unlink_bad dp
          else
            o <~ dirlookup dp name ;;
            match o with
            | None => unlink_bad dp
            | Some (ip, off) =>
                ilock (Some ip) ;;;
                i <~ inode_at ip ;;
                if i_nlink i <? 1 then panic "unlink: nlink < 1"
                else
                  e <~ (if i_type i =? T_DIR then isdirempty ip else ret true) ;;
                  if negb e then iunlockput ip ;;; unlink_bad dp
                  else
                    r <~ writei dp (replicate (Z.to_nat DIRENT) 0) off DIRENT ;;
                    if negb (r =? DIRENT) then panic "unlink: writei"
                    else
                      t <~ getst (fun st => i_type (the_inode ip st)) ;;
                      when (t =? T_DIR) (
                        modst (upd_inode dp (set_nlink (-1))) ;;;
                        iupdate dp) ;;;
                      iunlockput dp ;;;
                      modst (upd_inode ip (set_nlink (-1))) ;;;
                      iupdate ip ;;;
                      iunlockput ip ;;;
                      end_op ;;;
                      ret 0
            end
      end
  end.

(** ** Creating and opening *)
Definition set_new (major minor : Z) (i : inode) : inode :=
  mkInode (i_dev i) (i_inum i) (i_ref i) (i_valid i) (i_type i) major minor 1 (i_size i) (i_addrs i).
(** The entries "." and ".." of a new directory. *)
Definition create_dots (dp ip : nat) : M kfs unit :=
  modst (upd_inode dp (set_nlink 1)) ;;;
  iupdate dp ;;;
  i <~ inode_at ip ;;
  r <~ dirlink ip DOT (i_inum i) ;;
  if r <? 0 then panic "create dots"
  else
    d <~ inode_at dp ;;
    r <~ dirlink ip DOTDOT (i_inum d) ;;
    when (r <? 0) (panic "create dots").
Definition create (path : list Z) (type major minor : Z) : M kfs (option nat) :=
  '(dp, name) <~ nameiparent path ;;
  match dp with
  | None => ret None
  | Some dp =>
      ilock (Some dp) ;;;
      o <~ dirlookup dp name ;;
      match o with
      | Some (ip, _) =>
          iunlockput dp ;;;
          ilock (Some ip) ;;;
          i <~ inode_at ip ;;
          if (type =? T_FILE) && (i_type i =? T_FILE) then ret (Some ip)
          else iunlockput ip ;;; ret None
      | None =>
          d <~ inode_at dp ;;
          ip <~ ialloc (i_dev d) type ;;
          ilock (Some ip) ;;;
          modst (upd_inode ip (set_new major minor)) ;;;
          iupdate ip ;;;
          when (type =? T_DIR) (create_dots dp ip) ;;;
          i <~ inode_at ip ;;
          r <~ dirlink dp name (i_inum i) ;;
          if r <? 0 then panic "create: dirlink"
          else iunlockput dp ;;; ret (Some ip)
      end
  end.

(** The locked inode [sys_open] opens; on failure the transaction is over. *)
Definition open_inode (path : list Z) (omode : Z) : M kfs (option nat) :=
  if negb (Z.land omode O_CREATE =? 0) then
    ip <~ create path T_FILE 0 0 ;;
    match ip with
    | None => end_op ;;; ret None
    | Some ip => ret (Some ip)
    end
  else
    ip <~ namei path ;;
    match ip with
    | None => end_op ;;; ret None
    | Some ip =>
        ilock (Some ip) ;;;
        i <~ inode_at ip ;;
        if (i_type i =? T_DIR) && negb (omode =? O_RDONLY) then iunlockput ip ;;; end_op ;;; ret None
        else ret (Some ip)
    end.
Definition open_file (ip : nat) (omode : Z) (f : file) : file :=
  mkFile FD_INODE (f_ref f) (if Z.land omode O_WRONLY =? 0 then 1 else 0)
    (if negb (Z.land omode O_WRONLY =? 0) || negb (Z.land omode O_RDWR =? 0) then 1 else 0) (f_pipe f) (Some ip) 0.
Definition sys_open : M kfs Z :=
  path <~ argstr 0 ;;
  match path with
  | None => ret (-1)
  | Some path =>
      omode <~ argint 1 ;;
      match omode with
      | None => ret (-1)
      | Some omode =>
          begin_op ;;;
          ip <~ open_inode path omode ;;
          match ip with
          | None => ret (-1)
          | Some ip =>
              f <~ filealloc ;;
              match f with
              | None => iunlockput ip ;;; end_op ;;; ret (-1)
              | Some f =>
                  fd <~ fdalloc f ;;
                  if fd <? 0 then fileclose f ;;; iunlockput ip ;;; end_op ;;; ret (-1)
                  else
                    iunlock (Some ip) ;;;
                    end_op ;;;
                    modst (upd_file f (open_file ip omode)) ;;;
                    ret fd
              end
          end
      end
  end.

(** The end of [sys_mkdir] and [sys_mknod]. *)
Definition put_created (ip : option nat) : M kfs Z :=
  match ip with
  | None => end_op ;;; ret (-1)
  | Some ip => iunlockput ip ;;; end_op ;;; ret 0
  end.
Definition sys_mkdir : M kfs Z :=
  begin_op ;;;
  path <~ argstr 0 ;;
  ip <~ (match path with
         | None => ret None
         | Some path => create path T_DIR 0 0
         end) ;;
  put_created ip.
Definition sys_mknod : M kfs Z :=
  begin_op ;;;
  path <~ argstr 0 ;;
  ip <~ (match path with
         | None => ret None
         | Some path =>
             major <~ argint 1 ;;
             match major with
             | None => ret None
             | Some major =>
                 minor <~ argint 2 ;;
                 match minor with
                 | None => ret None
                 | Some minor => create path T_DEV (s16 major) (s16 minor)
                 end
             end
         end) ;;
  put_created ip.

Definition sys_chdir : M kfs Z :=
  curproc <~ myproc ;;
  begin_op ;;;
  path <~ argstr 0 ;;
  ip <~ (match path with
         | None => ret None
         | Some path => namei path
         end) ;;
  match ip with
  | None => end_op ;;; ret (-1)
  | Some ip =>
      ilock (Some ip) ;;;
      i <~ inode_at ip ;;
      if negb (i_type i =? T_DIR) then iunlockput ip ;;; end_op ;;; ret (-1)
      else
        iunlock (Some ip) ;;;
        p <~ deref curproc ;;
        cwd <~ gets (fun s => p_cwd (the_proc p s)) ;;
        cwd <~ deref cwd ;;
        iput cwd ;;;
        end_op ;;;
        modify (upd_proc p (set_p_cwd (Some ip))) ;;;
        ret 0
  end.

Definition sys_pipe : M kfs Z :=
  fd <~ argptr 0 8 ;;
  match fd with
  | None => ret (-1)
  | Some fd =>
      r <~ pipealloc ;;
      match r with
      | None => ret (-1)
      | Some (rf, wf) =>
          fd0 <~ fdalloc rf ;;
          fd1 <~ (if fd0 <? 0 then ret (-1) else fdalloc wf) ;;
          if fd1 <? 0 then
            when (0 <=? fd0) (
              p <~ myproc ;;
              p <~ deref p ;;
              set_ofile p (Z.to_nat fd0) None) ;;;
            fileclose rf ;;;
            fileclose wf ;;;
            ret (-1)
          else
            ustore_bytes fd (bytes_of fd0) ;;;
            ustore_bytes (fd + 4) (bytes_of fd1) ;;;
            ret 0
      end
  end.
End SysFile.
