(* ===== verification/Descr.v ===== *)
(** * Descriptors and reference counts (file.c, sysfile.c, fork in proc.c)

    The reference count of an open file is the number of descriptors of all
    processes that refer to it.  Duplicating a descriptor, closing one of
    several, and giving a child the descriptors of its parent keep it so. *)
From S2P Require Import Prelude Mmu Str Spinlock Kalloc Vm Proc Exec Sched Store Bio Log LogCrash Fs Pipe File Syscall SysFile Args.

Definition cnt (g : nat) (l : list (option nat)) : Z := Z.of_nat (length (filter (fun o => o = Some g) l)).
Fixpoint fd_refs (g : nat) (ps : list proc) : Z :=
  match ps with
  | [] => 0
  | q :: ps => cnt g (p_ofile q) + fd_refs g ps
  end.
Definition refs_agree (s : kfs) : Prop := forall g, f_ref (the_file g (k_ext s)) = fd_refs g (k_procs s).

Definition one (g : nat) (o : option nat) : Z := if decide (o = Some g) then 1 else 0.

Lemma cnt_cons g o l : cnt g (o :: l) = one g o + cnt g l.
Proof. unfold cnt, one. rewrite filter_cons. destruct (decide (o = Some g)); cbn [length]; lia. Qed.

Lemma cnt_insert g i o o' l : l !! i = Some o -> cnt g (<[i := o']> l) = cnt g l + one g o' - one g o.
Proof.
  revert i. induction l as [|a l IH]; intros [|i] Hi; simpl in Hi; try discriminate.
  - injection Hi as ->. simpl. rewrite !cnt_cons. lia.
  - simpl. rewrite !cnt_cons, (IH i) by done. lia.
Qed.

Lemma cnt_none g n : cnt g (replicate n None) = 0.
Proof. induction n as [|n IH]; [done|]. cbn [replicate]. rewrite cnt_cons, IH. unfold one. now rewrite decide_False. Qed.

Lemma cnt_lookup g i l : l !! i = Some (Some g) -> 0 < cnt g l.
Proof.
  intros H. pose proof (cnt_insert g i (Some g) None l H) as E. unfold one in E. rewrite decide_False, decide_True in E by done.
  unfold cnt in *. lia.
Qed.

Lemma cnt_nonneg g l : 0 <= cnt g l.
Proof. unfold cnt. lia. Qed.

Lemma fd_refs_nonneg g ps : 0 <= fd_refs g ps.
Proof. induction ps as [|q ps IH]; simpl; [lia|]. pose proof (cnt_nonneg g (p_ofile q)). lia. Qed.

Lemma fd_refs_upd g p q h ps : ps !! p = Some q ->
  fd_refs g (alter h p ps) = fd_refs g ps + cnt g (p_ofile (h q)) - cnt g (p_ofile q).
Proof.
  revert p. induction ps as [|a ps IH]; intros [|p] Hp; simpl in Hp; try discriminate.
  - injection Hp as ->. simpl. lia.
  - simpl. change (fd_refs g (list_alter h p ps)) with (fd_refs g (alter h p ps)). rewrite (IH p) by done. lia.
Qed.

Lemma fd_refs_open g p q i ps : ps !! p = Some q -> p_ofile q !! i = Some (Some g) -> 0 < fd_refs g ps.
Proof.
  revert p. induction ps as [|a ps IH]; intros [|p] Hp Hi; simpl in Hp; try discriminate; simpl.
  - injection Hp as ->. pose proof (cnt_lookup g i _ Hi). pose proof (fd_refs_nonneg g ps). lia.
  - pose proof (IH p Hp Hi). pose proof (cnt_nonneg g (p_ofile a)). lia.
Qed.

(** One descriptor of [p] changes and the counts of its old and new file with
    it. *)
Definition count_file (g : nat) (k : Z) (s : kfs) : kfs := upd_store (upd_file g (fun f => set_f_ref (f_ref f + k) f)) s.
Definition put_fd (p i : nat) (o : option nat) (s : kfs) : kfs :=
  upd_proc p (fun q => set_p_ofile (<[i := o]> (p_ofile q)) q) s.

Lemma ref_count_file g k g' s : is_Some (st_files (k_ext s) !! g) ->
  f_ref (the_file g' (k_ext (count_file g k s))) = f_ref (the_file g' (k_ext s)) + if decide (g = g') then k else 0.
Proof.
  intros [f Hf]. unfold count_file, the_file. simpl. destruct (decide (g = g')) as [<-|Hne].
  - now rewrite list_lookup_alter_eq, Hf.
  - rewrite list_lookup_alter_ne by done. lia.
Qed.

Lemma agree_file s g : refs_agree s -> 0 < fd_refs g (k_procs s) -> is_Some (st_files (k_ext s) !! g) /\ 0 < f_ref (the_file g (k_ext s)).
Proof.
  intros H Hpos. rewrite <- H in Hpos. split; [|exact Hpos]. unfold the_file in Hpos.
  destruct (st_files (k_ext s) !! g); [eauto|simpl in Hpos; lia].
Qed.

Lemma agree_put s p q i o o' (Hq : k_procs s !! p = Some q) (Hi : p_ofile q !! i = Some o) :
  (forall g, f_ref (the_file g (k_ext s)) = fd_refs g (k_procs s) + one g o' - one g o) -> refs_agree (put_fd p i o' s).
Proof.
  intros H g. unfold put_fd. simpl. rewrite (fd_refs_upd g p q) by done. simpl. rewrite (cnt_insert g i o) by done.
  rewrite H. lia.
Qed.

Section Ops.
Context {W : Wait} {D : Devices} (x : exe).

Lemma filedup_total g s (Q : nat -> kfs -> Prop) : mst x ∅ (k_mach s) -> 0 < f_ref (the_file g (k_ext s)) ->
  (forall m', mst x ∅ m' -> Q g (with_mach m' (count_file g 1 s))) -> total (filedup g) s Q.
Proof.
  intros Hm Hr HQ. unfold filedup. apply total_bind. eapply kacquire_total; [exact Hm|set_solver|kset|]. intros m1 H1.
  unfold getst. kgo. change (k_ext (with_mach m1 s)) with (k_ext s). replace (f_ref (the_file g (k_ext s)) <? 1) with false by lia.
  unfold modst. kgo. eapply krelease_total; [exact H1|set_solver|]. intros m2 H2. kgo.
  apply (HQ m2). now replace (({[FTABLE_LOCK]} ∪ ∅) ∖ {[FTABLE_LOCK]} : gset nat) with (∅ : gset nat) in H2 by set_solver.
Qed.

(** Closing a file that stays open elsewhere. *)
Lemma fileclose_total g s (Q : unit -> kfs -> Prop) : mst x ∅ (k_mach s) -> is_Some (st_files (k_ext s) !! g) -> 1 < f_ref (the_file g (k_ext s)) ->
  (forall m', mst x ∅ m' -> Q tt (with_mach m' (count_file g (-1) s))) -> total (fileclose g) s Q.
Proof.
  intros Hm Hf Hr HQ. unfold fileclose. apply total_bind. eapply kacquire_total; [exact Hm|set_solver|kset|]. intros m1 H1.
  unfold getst. kgo. change (k_ext (with_mach m1 s)) with (k_ext s). replace (f_ref (the_file g (k_ext s)) <? 1) with false by lia.
  unfold modst. kgo.
  pose proof (ref_count_file g (-1) g (with_mach m1 s) Hf) as E. rewrite decide_True in E by done.
  change (k_ext (upd_store _ (with_mach m1 s))) with (k_ext (count_file g (-1) (with_mach m1 s))).
  replace (0 <? f_ref (the_file g (k_ext (count_file g (-1) (with_mach m1 s))))) with true by (simpl in *; lia).
  eapply krelease_total; [exact H1|set_solver|]. intros m2 H2.
  apply (HQ m2). now replace (({[FTABLE_LOCK]} ∪ ∅) ∖ {[FTABLE_LOCK]} : gset nat) with (∅ : gset nat) in H2 by set_solver.
Qed.

(** ** fork *)
Lemma agree_mach m s : refs_agree s -> refs_agree (with_mach m s).
Proof. exact id. Qed.

(** A new descriptor for an open file. *)
Lemma agree_dup s p q i g : k_procs s !! p = Some q -> p_ofile q !! i = Some None -> refs_agree s ->
  is_Some (st_files (k_ext s) !! g) -> refs_agree (put_fd p i (Some g) (count_file g 1 s)).
Proof.
  intros Hq Hi H Hf. apply (agree_put _ p q i None); [done|done|]. intros g'. rewrite ref_count_file by done.
  change (k_procs (count_file g 1 s)) with (k_procs s). rewrite H. unfold one. rewrite (decide_False (P := None = Some g')) by done.
  destruct (decide (g = g')) as [<-|Hne]; [now rewrite decide_True by done; lia|rewrite decide_False by congruence; lia].
Qed.

Record forking (p np : nat) (l : list nat) (files : list (option nat)) (s : kfs) : Prop := mkForking {
  fk_mst : mst x ∅ (k_mach s);
  fk_agree : refs_agree s;
  fk_parent : exists q, k_procs s !! p = Some q /\ p_ofile q = files;
  fk_child : exists q, k_procs s !! np = Some q /\ length (p_ofile q) = NOFILE /\
    forall i, (i < NOFILE)%nat -> p_ofile q !! i = if decide (i ∈ l) then Some None else files !! i;
}.

Lemma fork_step (K : KernelExt storage) p np i l files s : (forall g, x_filedup g = (filedup g ;;; ret tt)) -> p <> np -> length files = NOFILE ->
  NoDup (i :: l) -> (i < NOFILE)%nat -> forking p np (i :: l) files s ->
  total (f <~ gets (fun s => p_ofile (the_proc p s) !! i) ;;
    match f with
    | Some (Some f) => x_filedup f ;;; modify (upd_proc np (fun q => set_p_ofile (<[i := Some f]> (p_ofile q)) q))
    | _ => ret tt
    end) s (fun _ s' => forking p np l files s').
Proof.
  intros HK Hne Hlen Hnd Hi [Hm Ha (q & Hq & Hqf) (c & Hc & Hcl & Hcf)]. kgo. rewrite (the_proc_lookup p _ q) by done. rewrite Hqf.
  apply NoDup_cons in Hnd as [Hil _]. pose proof (Hcf i Hi) as Hci. rewrite decide_True in Hci by now left.
  destruct (files !! i) as [[g|]|] eqn:E.
  - pose proof (agree_file s g Ha) as Hg. destruct Hg as [Hgf Hgr]; [apply (fd_refs_open g p q i); [done|now rewrite Hqf]|].
    rewrite HK. kgo. apply filedup_total; [exact Hm|exact Hgr|]. intros m' Hm'. kgo.
    change (forking p np l files (with_mach m' (put_fd np i (Some g) (count_file g 1 s)))).
    constructor; [exact Hm'|now apply agree_mach, (agree_dup s np c)| |].
    + exists q. split; [|exact Hqf]. simpl. now rewrite list_lookup_alter_ne.
    + exists (set_p_ofile (<[i := Some g]> (p_ofile c)) c). split; [simpl; now rewrite list_lookup_alter_eq, Hc|].
      split; [simpl; now rewrite length_insert|]. intros j Hj. simpl. destruct (decide (j = i)) as [->|Hji].
      * rewrite decide_False by done. rewrite list_lookup_insert_eq by lia. now rewrite E.
      * rewrite list_lookup_insert_ne by done. rewrite Hcf by done.
        destruct (decide (j ∈ l)); [rewrite decide_True by now right|rewrite decide_False by (rewrite elem_of_cons; tauto)]; done.
  - kgo. constructor; [done|done|eauto|]. exists c. split; [done|]. split; [done|]. intros j Hj. rewrite Hcf by done.
    destruct (decide (j = i)) as [->|Hji]; [rewrite decide_True by (now left); rewrite decide_False by done; done|].
    destruct (decide (j ∈ l)); [rewrite decide_True by now right|rewrite decide_False by (rewrite elem_of_cons; tauto)]; done.
  - apply lookup_ge_None in E. lia.
Qed.

Lemma fork_files_total (K : KernelExt storage) p np files s (Q : unit -> kfs -> Prop) :
  (forall g, x_filedup g = (filedup g ;;; ret tt)) -> p <> np -> length files = NOFILE ->
  forking p np (seq 0 NOFILE) files s -> (forall s', forking p np [] files s' -> Q tt s') -> total (fork_files p np) s Q.
Proof.
  intros HK Hne Hlen. unfold fork_files.
  assert (Hin : forall i, i ∈ seq 0 NOFILE -> (i < NOFILE)%nat) by (intros i; rewrite elem_of_seq; lia).
  pose proof (NoDup_seq 0 NOFILE) as Hnd. revert s Hin Hnd. generalize (seq 0 NOFILE). intros l. induction l as [|i l IH]; intros s Hin Hnd H HQ.
  - apply total_ret. auto.
  - cbn [for_each]. apply total_bind. eapply total_mono; [|apply (fork_step K p np i l files s HK Hne Hlen Hnd); [apply Hin; now left|exact H]].
    intros [] s' H'. apply IH; [intros j Hj; apply Hin; now right|now apply NoDup_cons in Hnd as [_ ?]|exact H'|exact HQ].
Qed.
End Ops.

(** ** System calls on descriptors *)
Section Calls.
Context {W : Wait} {D : Devices} (x : exe) (p : nat) (t : nat * nat) (Hp : x_proc x = Some p) (Ht : x_thread x = Some t).

(** The open file that argument [n] names. *)
Definition fd_arg (n : Z) (s : kfs) : option (Z * nat) :=
  let a := arg_addr t n s in let fd := s32 (word_at s a) in
  if decide (a + 4 <= p_sz (the_proc p s) /\ 0 <= fd < Z.of_nat NOFILE) then
    match default None (p_ofile (the_proc p s) !! Z.to_nat fd) with
    | Some f => Some (fd, f)
    | None => None
    end
  else None.
(** The lowest descriptor that is free. *)
Definition free_fd (s : kfs) : option nat := find_idx (fun o => bool_decide (o = None)) (take NOFILE (p_ofile (the_proc p s))).

Lemma argfd_total n s (Q : option (Z * nat) -> kfs -> Prop) :
  mst x ∅ (k_mach s) -> p_sz (the_proc p s) <= 2 ^ 31 -> mapped_to (p_sz (the_proc p s)) s ->
  (forall s', quiet x s s' -> Q (fd_arg n s) s') -> total (argfd n) s Q.
Proof.
  intros Hm Hsz Hmap HQ. unfold argfd, fd_arg in *. apply total_bind. apply (argint_total x p t Hp Ht); [done..|]. intros s1 Hq.
  destruct (decide (arg_addr t n s + 4 <= p_sz (the_proc p s))) as [Hin|Hout].
  - set (fd := s32 (word_at s (arg_addr t n s))) in *. destruct (Z.ltb_spec fd 0), (Z.leb_spec (Z.of_nat NOFILE) fd); cbn [orb];
      try (rewrite decide_False in HQ by lia; apply total_ret; now apply HQ).
    apply total_bind. eapply myproc_cr3_total; [eapply quiet_mst, Hq|kset|]. intros m2 H2 Hcr. rewrite Hp. kgo.
    assert (Hq2 : quiet x s (with_mach m2 s1)) by (eapply quiet_trans; [exact Hq|exists m2; split; [reflexivity|split; [exact H2|exact Hcr]]]).
    rewrite (quiet_proc _ _ _ _ Hq2). rewrite decide_True in HQ by lia. destruct (default None _); kgo; now apply HQ.
  - rewrite decide_False in HQ by lia. apply total_ret. now apply HQ.
Qed.

Lemma fdalloc_total g s (Q : Z -> kfs -> Prop) : mst x ∅ (k_mach s) ->
  (forall m', mst x ∅ m' -> match free_fd s with
                            | Some k => Q (Z.of_nat k) (with_mach m' (put_fd p k (Some g) s))
                            | None => Q (-1) (with_mach m' s)
                            end) -> total (fdalloc g) s Q.
Proof.
  intros Hm HQ. unfold fdalloc. apply total_bind. eapply myproc_total; [exact Hm|kset|]. intros m1 H1. rewrite Hp. kgo.
  specialize (HQ m1 H1). change (p_ofile (the_proc p (with_mach m1 s))) with (p_ofile (the_proc p s)). fold (free_fd s).
  destruct (free_fd s) as [k|]; [|kgo; exact HQ]. unfold set_ofile. kgo. exact HQ.
Qed.

Lemma free_fd_spec s q k : k_procs s !! p = Some q -> free_fd s = Some k -> p_ofile q !! k = Some None /\ (k < NOFILE)%nat.
Proof.
  intros Hq H. unfold free_fd in H. rewrite (the_proc_lookup p _ q) in H by done.
  apply find_idx_Some in H as [(o & Ho & ->%bool_decide_eq_true) _]. apply lookup_take_Some in Ho. lia || tauto.
Qed.

Lemma fd_arg_open s q n fd f : k_procs s !! p = Some q -> fd_arg n s = Some (fd, f) ->
  p_ofile q !! Z.to_nat fd = Some (Some f) /\ 0 <= fd < Z.of_nat NOFILE.
Proof.
  intros Hq. unfold fd_arg. rewrite (the_proc_lookup p _ q) by done. destruct (decide _) as [[_ Hr]|]; [|done].
  destruct (p_ofile q !! _) as [[g|]|] eqn:E; simpl; intros [= <- <-]. rewrite E. auto.
Qed.

Lemma sys_dup_total s q (Q : Z -> kfs -> Prop) :
  mst x ∅ (k_mach s) -> p_sz (the_proc p s) <= 2 ^ 31 -> mapped_to (p_sz (the_proc p s)) s -> k_procs s !! p = Some q -> refs_agree s ->
  (forall m', mst x ∅ m' -> match fd_arg 0 s, free_fd s with
                            | Some (_, f), Some k => Q (Z.of_nat k) (with_mach m' (put_fd p k (Some f) (count_file f 1 s)))
                            | _, _ => Q (-1) (with_mach m' s)
                            end) -> total sys_dup s Q.
Proof.
  intros Hm Hsz Hmap Hq Ha HQ. unfold sys_dup. apply total_bind. apply argfd_total; [done..|]. intros s1 (m1 & -> & H1 & _).
  destruct (fd_arg 0 s) as [[fd f]|] eqn:E; [|kgo; now apply HQ].
  destruct (fd_arg_open s q 0 fd f Hq E) as [Ho _]. destruct (agree_file s f Ha) as [Hf Hr]; [eapply fd_refs_open; eauto|].
  apply total_bind. apply fdalloc_total; [exact H1|]. intros m2 H2. change (free_fd (with_mach m1 s)) with (free_fd s).
  destruct (free_fd s) as [k|]; [|cbn; kgo; now apply HQ]. replace (Z.of_nat k <? 0) with false by lia.
  apply total_bind. apply (filedup_total x); [exact H2|exact Hr|]. intros m3 H3. kgo. now apply (HQ m3).
Qed.

Lemma sys_close_total s q fd f (Q : Z -> kfs -> Prop) :
  mst x ∅ (k_mach s) -> p_sz (the_proc p s) <= 2 ^ 31 -> mapped_to (p_sz (the_proc p s)) s -> k_procs s !! p = Some q -> refs_agree s ->
  fd_arg 0 s = Some (fd, f) -> 1 < f_ref (the_file f (k_ext s)) ->
  (forall m', mst x ∅ m' -> Q 0 (with_mach m' (put_fd p (Z.to_nat fd) None (count_file f (-1) s)))) -> total sys_close s Q.
Proof.
  intros Hm Hsz Hmap Hq Ha E Hr HQ. unfold sys_close. apply total_bind. apply argfd_total; [done..|]. intros s1 (m1 & -> & H1 & _). rewrite E.
  destruct (fd_arg_open s q 0 fd f Hq E) as [Ho _]. destruct (agree_file s f Ha) as [Hf _]; [eapply fd_refs_open; eauto|].
  apply total_bind. eapply myproc_total; [exact H1|kset|]. intros m2 H2. rewrite Hp. unfold set_ofile. kgo.
  apply (fileclose_total x); [exact H2|exact Hf|exact Hr|]. intros m3 H3. kgo. now apply (HQ m3).
Qed.

Lemma agree_close s q i g : k_procs s !! p = Some q -> p_ofile q !! i = Some (Some g) -> refs_agree s ->
  is_Some (st_files (k_ext s) !! g) -> refs_agree (put_fd p i None (count_file g (-1) s)).
Proof.
  intros Hq Hi H Hf. apply (agree_put _ p q i (Some g)); [done|done|]. intros g'. rewrite ref_count_file by done.
  change (k_procs (count_file g (-1) s)) with (k_procs s). rewrite H. unfold one. rewrite (decide_False (P := None = Some g')) by done.
  destruct (decide (g = g')) as [<-|Hne]; [rewrite decide_True by done; lia|rewrite decide_False by congruence; lia].
Qed.

(** C23. The reference count of every open file stays the number of descriptors
    that refer to it.  [sys_dup] of an open descriptor takes the lowest free
    one, lets it refer to the same file and counts it; without an open file or
    a free descriptor it fails and changes nothing.  [sys_close] of a file
    that is open elsewhere frees the descriptor and takes one from the count.
    The loop of [fork] gives a child without open files exactly the
    descriptors of its parent and counts each of them. *)
Theorem descriptors_counted (K : KernelExt storage) (s : kfs) (q : proc) :
  (forall g, x_filedup g = (filedup g ;;; ret tt)) ->
  mst x ∅ (k_mach s) -> p_sz q <= 2 ^ 31 -> mapped_to (p_sz q) s -> k_procs s !! p = Some q -> length (p_ofile q) = NOFILE -> refs_agree s ->
  (exists r s', sys_dup s = Done r s' /\ refs_agree s' /\
     match fd_arg 0 s, free_fd s with
     | Some (_, f), Some k => r = Z.of_nat k /\ p_ofile q !! k = Some None /\ p_ofile (the_proc p s') = <[k := Some f]> (p_ofile q)
     | _, _ => r = -1 /\ p_ofile (the_proc p s') = p_ofile q
     end) /\
  (forall fd f, fd_arg 0 s = Some (fd, f) -> 1 < f_ref (the_file f (k_ext s)) ->
     exists s', sys_close s = Done 0 s' /\ refs_agree s' /\ p_ofile (the_proc p s') = <[Z.to_nat fd := None]> (p_ofile q)) /\
  (forall np c, np <> p -> k_procs s !! np = Some c -> p_ofile c = replicate NOFILE None ->
     exists s', fork_files p np s = Done tt s' /\ refs_agree s' /\
       p_ofile (the_proc p s') = p_ofile q /\ p_ofile (the_proc np s') = p_ofile q).
Proof.
  intros HK Hm Hsz Hmap Hq Hlen Ha. pose proof (the_proc_lookup p s q Hq) as Eq.
  assert (Hput : forall i o k g m, p_ofile (the_proc p (with_mach m (put_fd p i o (count_file g k s)))) = <[i := o]> (p_ofile q)).
  { intros i o k g m. unfold the_proc. simpl. now rewrite list_lookup_alter_eq, Hq. }
  split; [|split].
  - assert (HT : total sys_dup s (fun r s' => refs_agree s' /\
      match fd_arg 0 s, free_fd s with
      | Some (_, f), Some k => r = Z.of_nat k /\ p_ofile q !! k = Some None /\ p_ofile (the_proc p s') = <[k := Some f]> (p_ofile q)
      | _, _ => r = -1 /\ p_ofile (the_proc p s') = p_ofile q
      end)).
    { apply (sys_dup_total s q); rewrite ?Eq; try done. intros m' Hm'.
      assert (E0 : p_ofile (the_proc p (with_mach m' s)) = p_ofile q) by now rewrite <- Eq.
      destruct (fd_arg 0 s) as [[fd f]|] eqn:E; [|auto]. destruct (free_fd s) as [k|] eqn:Ek; [|auto].
      destruct (free_fd_spec s q k Hq Ek) as [Hk _]. destruct (fd_arg_open s q 0 fd f Hq E) as [Ho _].
      destruct (agree_file s f Ha) as [Hf _]; [eapply fd_refs_open; eauto|]. split; [now apply agree_mach, (agree_dup s p q)|auto]. }
    destruct (total_done _ _ _ HT) as (r & s' & Hr & HQ). eauto.
  - intros fd f E Hr. apply total_done_eq. apply (sys_close_total s q fd f); rewrite ?Eq; try done. intros m' Hm'. split; [done|].
    destruct (fd_arg_open s q 0 fd f Hq E) as [Ho _]. destruct (agree_file s f Ha) as [Hf _]; [eapply fd_refs_open; eauto|].
    split; [now apply agree_mach, (agree_close s q)|apply Hput].
  - intros np c Hne Hc Hcf. apply (total_done_eq _ _ tt). apply (fork_files_total x K p np (p_ofile q)); [done|done|done| |].
    { constructor; [done|done|eauto|]. exists c. split; [done|]. rewrite Hcf, length_replicate. split; [done|].
      intros i Hi. rewrite decide_True by (apply elem_of_seq; lia). now apply lookup_replicate_2. }
    intros s' [_ Ha' (q' & Hq' & E') (c' & Hc' & Hl' & H')]. split; [done|]. split; [exact Ha'|].
    rewrite (the_proc_lookup p _ q'), (the_proc_lookup np _ c') by done. split; [exact E'|].
    apply list_eq. intros i. destruct (decide (i < NOFILE)%nat) as [Hi|Hi]; [now rewrite H'|].
    rewrite !lookup_ge_None_2; [done|lia..].
Qed.
End Calls.

(** ** Descriptor 1 of a process with one open file *)
#[local] Instance demo_wait : Wait := 0%nat.
#[local] Instance no_devices : Devices := {| dev_read := fun _ => None; dev_write := fun _ => None |}.
Definition fd_proc : proc := set_p_ofile (<[1%nat := Some 0%nat]> (replicate NOFILE None)) (set_p_sz 16 (set_p_threads [thread0] proc0)).
Definition fd_state : kfs :=
  mkK (k_base user_state) [fd_proc; proc0] [] None 1 false
    (set_files (mkFile FD_PIPE 1 1 0 0 None 0 :: replicate 99 file0) demo_storage).

Lemma fd_state_agrees : refs_agree fd_state.
Proof.
  intros [|g]; [reflexivity|]. transitivity 0.
  - unfold the_file, fd_state. cbn [k_ext set_files st_files lookup list_lookup]. destruct (replicate 99 file0 !! g) as [f|] eqn:E; [|reflexivity].
    apply lookup_replicate in E as [-> _]. reflexivity.
  - change (0 = cnt (S g) (<[1%nat := Some 0%nat]> (replicate NOFILE None)) + (cnt (S g) (replicate NOFILE None) + 0)).
    rewrite (cnt_insert (S g) 1 None) by reflexivity. rewrite cnt_none. unfold one. rewrite !decide_False by congruence. reflexivity.
Qed.

Lemma descriptors_counted_witness : exists s', sys_dup fd_state = Done 0 s' /\ f_ref (the_file 0 (k_ext s')) = 2.
Proof.
  destruct (descriptors_counted user_exe 0 (0, 0)%nat eq_refl eq_refl (storage_ext 0 0 0 0 0) fd_state fd_proc) as ((r & s' & Hr & Ha & H) & _).
  - done.
  - exact user_mst.
  - simpl. lia.
  - exact user_mapped.
  - done.
  - done.
  - exact fd_state_agrees.
  - exists s'. revert H Hr Ha. vm_compute fd_arg. vm_compute free_fd. intros (-> & _ & _) Hr Ha. split; [exact Hr|].
    assert (E : match sys_dup fd_state with Done _ s' => f_ref (the_file 0 (k_ext s')) = 2 | _ => False end) by (vm_compute; reflexivity).
    now rewrite Hr in E.
Defined.
