(* ===== verification/Image.v ===== *)
(** * Loading a program (exec.c, and sys_exec of sysfile.c)

    [exec] ends the other threads of the process, reads the ELF file into a
    new address space, builds the stack with the arguments, and replaces the
    image of the process.  The headers are the bytes read from the file;
    [argv] is the list of the argument strings, whose bytes were taken when
    [sys_exec] checked them.

    The loop that waits for the other threads runs with no processor given up:
    it makes progress only when another processor runs them, and ends in
    [Spin] after [wait_bound] passes. *)
From S2P Require Import Prelude Mmu Str Spinlock Kalloc Vm Proc Exec Sched Store Bio Log LogCrash Fs Pipe File Syscall SysFile.

Definition MAXARG : nat := 32%nat.
Definition ELF_MAGIC : Z := 0x464C457F.
Definition ELF_PROG_LOAD : Z := 1.

(** [struct elfhdr] and [struct proghdr] as bytes, and their fields. *)
Definition ELFHDR : Z := 52.
Definition PROGHDR : Z := 32.
Record proghdr := mkPh { ph_type : Z; ph_off : Z; ph_vaddr : Z; ph_filesz : Z; ph_memsz : Z }.
Record elfhdr := mkElf { elf_magic : Z; elf_entry : Z; elf_phoff : Z; elf_phnum : Z }.
Definition elf_of (d : list Z) : elfhdr := mkElf (get32 d 0) (get32 d 24) (get32 d 28) (get16 d 44).
Definition ph_of (d : list Z) : proghdr := mkPh (get32 d 0) (get32 d 4) (get32 d 8) (get32 d 16) (get32 d 20).

Section Image.
Context {W : Wait} {D : Devices} (data : Z).

(** ** The other threads *)
Definition kill_mark (p : nat) (cur : option (nat * nat)) (i : nat) (t : thread) : thread :=
  let t := if negb (bool_decide (Some (p, i) = cur)) && negb (bool_decide (th_state t = UNUSED)) then set_killed 1 t else t in
  if bool_decide (th_state t = SLEEPING) then set_state RUNNABLE t else t.
Definition free_zombie (p i : nat) : M kfs unit :=
  t <~ gets (the_thread (p, i)) ;;
  when (bool_decide (th_state t = ZOMBIE)) (
    modify (upd_thread (p, i) (set_tid (-1))) ;;;
    on_base (kfree (th_kstack t)) ;;;
    modify (upd_thread (p, i) (fun t => set_state UNUSED (set_blocked 0 (set_kstack 0 t))))).
(** One pass: the number of threads that are over, whose slots become free. *)
Fixpoint kill_pass (p : nat) (cur : option (nat * nat)) (l : list nat) (k : nat) : M kfs nat :=
  match l with
  | [] => ret k
  | i :: l =>
      t <~ gets (the_thread (p, i)) ;;
      if negb (bool_decide (Some (p, i) = cur)) && finished (th_state t) then
        free_zombie p i ;;;
        kill_pass p cur l (S k)
      else kill_pass p cur l k
  end.
(** The busy wait for the other threads: nothing else runs between two passes of
    this processor, so the wait ends at once or, beyond the bound, in [Spin]. *)
Fixpoint kill_wait (fuel p : nat) (cur : option (nat * nat)) (lk k : nat) : M kfs unit :=
  if (k <? NTHREAD - 1)%nat then
    match fuel with
    | O => fun _ => Spin
    | S fuel =>
        kacquire lk ;;;
        k <~ kill_pass p cur (seq 0 NTHREAD) 0 ;;
        krelease lk ;;;
        kill_wait fuel p cur lk k
    end
  else ret tt.
Definition kill_threads (p : nat) : M kfs unit :=
  cur <~ mythread ;;
  lk <~ gets (fun s => p_ttlock (the_proc p s)) ;;
  lk <~ deref lk ;;
  kacquire lk ;;;
  modify (upd_proc p (fun q => set_p_threads (imap (kill_mark p cur) (p_threads q)) q)) ;;;
  krelease lk ;;;
  kill_wait (S wait_bound) p cur lk 0 ;;;
  kacquire lk ;;;
  modify (upd_proc p (fun q => set_p_mid ((fun v => if v =? 1 then 0 else v) <$> p_mid q) q)) ;;;
  krelease lk.

(** ** The program *)
Definition load_segment (pgdir : Z) (ip : nat) (ph : proghdr) : M kfs Z :=
  loaduvm (fun A m => on_base m)
    (fun dst off n => '(r, d) <~ readi ip off n ;; on_base (kput dst d) ;;; ret r)
    pgdir (ph_vaddr ph) (ph_off ph) (ph_filesz ph).
(** The size of the image, [None] for [goto bad]. *)
Fixpoint load_program (n : nat) (pgdir : Z) (ip : nat) (off sz : Z) : M kfs (option Z) :=
  match n with
  | O => ret (Some sz)
  | S n =>
      '(r, d) <~ readi ip (u32 off) PROGHDR ;;
      if negb (r =? PROGHDR) then ret None
      else
        let ph := ph_of d in
        if negb (ph_type ph =? ELF_PROG_LOAD) then load_program n pgdir ip (s32 (off + PROGHDR)) sz
        else if ph_memsz ph <? ph_filesz ph then ret None
        else if u32 (ph_vaddr ph + ph_memsz ph) <? ph_vaddr ph then ret None
        else
          sz <~ on_base (allocuvm pgdir sz (u32 (ph_vaddr ph + ph_memsz ph))) ;;
          if sz =? 0 then ret None
          else if negb (ph_vaddr ph mod PGSIZE =? 0) then ret None
          else
            r <~ load_segment pgdir ip ph ;;
            if r <? 0 then ret None
            else load_program n pgdir ip (s32 (off + PROGHDR)) sz
  end.

(** ** The stack: the strings, then the words [ustack]. *)
Fixpoint push_args (pgdir sp : Z) (argc : nat) (argv : list (list Z)) : M kfs (option (Z * list Z)) :=
  match argv with
  | [] => ret (Some (sp, []))
  | s :: argv =>
      if (MAXARG <=? argc)%nat then ret None
      else
        let len := Z.of_nat (length s) + 1 in
        let sp := Z.land (u32 (sp - len)) (u32 (Z.lnot 3)) in
        r <~ on_base (copyout pgdir sp (s ++ [0]) len) ;;
        if r <? 0 then ret None
        else
          r <~ push_args pgdir sp (S argc) argv ;;
          ret (match r with Some (sp', l) => Some (sp', sp :: l) | None => None end)
  end.
Definition ustack (sp : Z) (args : list Z) : list Z :=
  let argc := Z.of_nat (length args) in
  0xffffffff :: argc :: u32 (sp - (argc + 1) * 4) :: args ++ [0].
Definition build_stack (pgdir sz : Z) (argv : list (list Z)) : M kfs (option Z) :=
  r <~ push_args pgdir sz 0 argv ;;
  match r with
  | None => ret None
  | Some (sp, args) =>
      let len := 4 * (3 + Z.of_nat (length args) + 1) in
      let sp' := u32 (sp - len) in
      r <~ on_base (copyout pgdir sp' (concat (bytes_of <$> ustack sp args)) len) ;;
      if r <? 0 then ret None else ret (Some sp')
  end.

(** What follows the last '/'. *)
Fixpoint last_elem (last s : list Z) : list Z :=
  match s with
  | [] => last
  | c :: s => if c =? 0 then last else last_elem (if c =? SLASH then s else last) s
  end.

(** [bad:] of [exec]. *)
Definition exec_bad (pgdir : Z) (ip : option nat) : M kfs Z :=
  when (negb (pgdir =? 0)) (on_base (freevm pgdir)) ;;;
  (match ip with
   | Some ip => iunlockput ip ;;; end_op
   | None => ret tt
   end) ;;;
  ret (-1).

(** The commit to the new image. *)
Definition exec_commit (curproc : nat) (curthread : nat * nat) (pgdir sz entry sp : Z) : M kfs Z :=
  lk <~ gets (fun s => p_ttlock (the_proc curproc s)) ;;
  lk <~ deref lk ;;
  kacquire lk ;;;
  q <~ gets (the_proc curproc) ;;
  t <~ gets (the_thread curthread) ;;
  if bool_decide (p_state q = ZOMBIE) || negb (th_killed t =? 0) then
    krelease lk ;;;
    exec_bad pgdir None
  else
    modify (upd_proc curproc (set_p_pgdir pgdir)) ;;;
    modify (upd_proc curproc (set_p_sz sz)) ;;;
    modify (upd_thread curthread (fun t => set_frame (tf_set_esp sp (tf_set_eip entry (th_frame t))) t)) ;;;
    krelease lk ;;;
    switchuvm (Some curproc) ;;;
    on_base (freevm (p_pgdir q)) ;;;
    ret 0.

(** The stack pages, the arguments and the name. *)
Definition exec_stack (curproc : nat) (curthread : nat * nat) (path : list Z) (argv : list (list Z))
    (pgdir sz entry : Z) : M kfs Z :=
  let sz0 := PGROUNDUP sz in
  sz <~ on_base (allocuvm pgdir sz0 (u32 (sz0 + 2 * PGSIZE))) ;;
  if sz =? 0 then exec_bad pgdir None
  else
    on_base (clearpteu pgdir (u32 (sz - 2 * PGSIZE))) ;;;
    r <~ build_stack pgdir sz argv ;;
    match r with
    | None => exec_bad pgdir None
    | Some sp =>
        modify (upd_proc curproc (fun q => set_p_name (safestrcpy (p_name q) (last_elem path path) 16) q)) ;;;
        exec_commit curproc curthread pgdir sz entry sp
    end.

Definition exec (path : list Z) (argv : list (list Z)) : M kfs Z :=
  curproc <~ myproc ;;
  curthread <~ mythread ;;
  curproc <~ deref curproc ;;
  curthread <~ deref curthread ;;
  kill_threads curproc ;;;
  begin_op ;;;
  ip <~ namei path ;;
  match ip with
  | None => end_op ;;; ret (-1)
  | Some ip =>
      ilock (Some ip) ;;;
      '(r, d) <~ readi ip 0 ELFHDR ;;
      let elf := elf_of d in
      if negb (r =? ELFHDR) then exec_bad 0 (Some ip)
      else if negb (elf_magic elf =? ELF_MAGIC) then exec_bad 0 (Some ip)
      else
        pgdir <~ on_base (setupkvm data) ;;
        if pgdir =? 0 then exec_bad 0 (Some ip)
        else
          r <~ load_program (Z.to_nat (elf_phnum elf)) pgdir ip (s32 (elf_phoff elf)) 0 ;;
          match r with
          | None => exec_bad pgdir (Some ip)
          | Some sz =>
              iunlockput ip ;;;
              end_op ;;;
              exec_stack curproc curthread path argv pgdir sz (elf_entry elf)
          end
  end.

(** ** The system call *)
(** The argument strings; [None] when one of them is bad or there are too
    many. *)
Fixpoint fetch_argv (n : nat) (uargv i : Z) : M kfs (option (list (list Z))) :=
  match n with
  | O => ret None
  | S n =>
      uarg <~ fetchint (u32 (uargv + 4 * i)) ;;
      match uarg with
      | None => ret None
      | Some uarg =>
          if uarg =? 0 then ret (Some [])
          else
            s <~ fetchstr (u32 uarg) ;;
            match s with
            | None => ret None
            | Some s =>
                r <~ fetch_argv n uargv (i + 1) ;;
                ret (match r with Some l => Some (s :: l) | None => None end)
            end
      end
  end.
Definition sys_exec : M kfs Z :=
  path <~ argstr 0 ;;
  match path with
  | None => ret (-1)
  | Some path =>
      uargv <~ argint 1 ;;
      match uargv with
      | None => ret (-1)
      | Some uargv =>
          argv <~ fetch_argv MAXARG (u32 uargv) 0 ;;
          match argv with
          | None => ret (-1)
          | Some argv => exec path argv
          end
      end
  end.
End Image.
