(* ===== verification/Thread.v ===== *)
(** * Kernel threads (allocthread, allocproc, kthread_create, kthread_join,
      kthread_exit, kthread_id of proc.c)

    Creation of threads and processes against the page allocator, the layout
    of a new kernel stack, and the life of a thread from [kthread_create]
    through [kthread_exit] to [kthread_join]. *)
From S2P Require Import Prelude Mmu Str Spinlock Kalloc Proc Exec Sched.

(** The kernel state with another machine and page allocator. *)
Definition with_base {E} (m : mach) (k : kmem) (s : kstate E) : kstate E := set_k_base (mkKst m k) s.
Definition k_kmem {E} (s : kstate E) : kmem := ks_kmem (k_base s).

Lemma with_base_mach {E} m k m' (s : kstate E) : with_base m k (with_mach m' s) = with_base m k s.
Proof. reflexivity. Qed.
Lemma with_mach_base {E} m k m' (s : kstate E) : with_mach m (with_base m' k s) = with_base m k s.
Proof. reflexivity. Qed.
Lemma with_base_base {E} m k m' k' (s : kstate E) : with_base m k (with_base m' k' s) = with_base m k s.
Proof. reflexivity. Qed.
Lemma upd_proc_base {E} p f m k (s : kstate E) : upd_proc p f (with_base m k s) = with_base m k (upd_proc p f s).
Proof. reflexivity. Qed.
Lemma upd_thread_base {E} t f m k (s : kstate E) :
  upd_thread t f (with_base m k s) = with_base m k (upd_thread t f s).
Proof. reflexivity. Qed.
Lemma the_proc_base {E} p m k (s : kstate E) : the_proc p (with_base m k s) = the_proc p s.
Proof. reflexivity. Qed.
Lemma the_thread_base {E} t m k (s : kstate E) : the_thread t (with_base m k s) = the_thread t s.
Proof. reflexivity. Qed.
#[export] Hint Rewrite @the_proc_base @the_thread_base : kstate.
#[export] Hint Rewrite @with_base_mach @with_mach_base @with_base_base @upd_proc_base @upd_thread_base : kstate.

(** ** The page allocator under the machine summary *)
Lemma mst_cycled n x hs m a :
  mst_at n x hs m -> a ∉ hs -> (n + size hs < 8)%nat -> mst_at n x hs (cycled a m).
Proof.
  intros Hm Ha Hsz. destruct (mst_on _ _ _ _ Hm) as (c & Hon & Hn & _).
  pose proof (acquire_then_release a m c Hon ltac:(lia) (proj1 (proj2 (proj2 (proj2 (proj2 Hm)))) a Ha)) as Hc.
  destruct (mst_acquire _ _ _ _ a Hm Ha Hsz) as (m1 & H1 & Hm1).
  destruct (mst_release _ _ _ _ a Hm1 ltac:(set_solver)) as (m2 & H2 & Hm2).
  erewrite bind_done in Hc by exact H1. rewrite H2 in Hc. unfold cycled. rewrite (proj1 Hon).
  injection Hc as <-. now replace hs with (({[a]} ∪ hs) ∖ {[a]}) by set_solver.
Qed.

Lemma mst_ready n x hs m a : mst_at n x hs m -> a ∉ hs -> ready [a] m.
Proof.
  intros Hm Ha. destruct (mst_on _ _ _ _ Hm) as (c & Hon & Hn & _). destruct Hm as (_ & Hsz & _ & _ & Hfree & _).
  split; [exists c; split; [exact Hon|lia]|]. repeat constructor. now apply Hfree.
Qed.

Lemma mst_after_lock n x hs (b : kst) :
  mst_at n x hs (ks_mach b) -> KMEM_LOCK ∉ hs -> (n + size hs < 8)%nat -> mst_at n x hs (after_lock b).
Proof. intros. unfold after_lock. destruct (km_use_lock _); [now apply mst_cycled|done]. Qed.

Section Thread.
Context {E : Type} {X : KernelExt E}.
Implicit Types (s : kstate E) (x : exe) (hs : gset nat).

Lemma kalloc_total n x hs s l (Q : Z -> kstate E -> Prop) :
  mst_at n x hs (k_mach s) -> KMEM_LOCK ∉ hs -> (n + size hs < 8)%nat -> free_pages (k_kmem s) l ->
  (forall m' k', mst_at n x hs m' -> free_pages k' (tail l) -> km_end k' = km_end (k_kmem s) ->
     Q (default 0 (head l)) (with_base m' k' s)) ->
  total (on_base kalloc) s Q.
Proof.
  intros Hm Ha Hsz Hf HQ.
  destruct (kalloc_run (k_base s) l (mst_ready _ _ _ _ _ Hm Ha) Hf) as (k' & Hrun & Hf' & _ & He & _).
  eapply total_intro; [unfold on_base, zoom; rewrite Hrun; reflexivity|].
  apply HQ; [now apply mst_after_lock|done..].
Qed.

Lemma kfree_total n x hs s l v (Q : unit -> kstate E -> Prop) :
  mst_at n x hs (k_mach s) -> KMEM_LOCK ∉ hs -> (n + size hs < 8)%nat -> free_pages (k_kmem s) l ->
  page_ok (k_kmem s) v -> v ∉ l ->
  (forall m' k', mst_at n x hs m' -> free_pages k' (v :: l) -> km_end k' = km_end (k_kmem s) ->
     Q tt (with_base m' k' s)) ->
  total (on_base (kfree v)) s Q.
Proof.
  intros Hm Ha Hsz Hf Hv Hnin HQ.
  destruct (kfree_run (k_base s) l v (mst_ready _ _ _ _ _ Hm Ha) Hf Hv Hnin) as (k' & Hrun & Hf' & He & _).
  eapply total_intro; [unfold on_base, zoom; rewrite Hrun; reflexivity|].
  apply HQ; [now apply mst_after_lock|done..].
Qed.

(** ** [allocthread] *)

(** The slot once claimed, when [kalloc] fails, and when it succeeds. *)
Definition claimed (p i : nat) (t : thread) : thread :=
  set_myproc (Some p) (set_tid (Z.of_nat i) (set_state EMBRYO t)).
Definition unclaimed (p i : nat) (t : thread) : thread := set_state UNUSED (set_kstack 0 (claimed p i t)).
Definition new_thread (p i : nat) (page : Z) (t : thread) : thread :=
  stack_setup KSTACKSIZE (set_kstack page (claimed p i t)).

Definition unused (t : thread) : bool := bool_decide (th_state t = UNUSED).

Lemma on_thread_ext i f g q :
  (forall t, p_threads q !! i = Some t -> f t = g t) -> on_thread i f q = on_thread i g q.
Proof. intros H. unfold on_thread. f_equal. now apply list_alter_ext. Qed.

Lemma allocthread_total x s p q lk l (Q : option (nat * nat) -> kstate E -> Prop) :
  mst x ∅ (k_mach s) -> free_pages (k_kmem s) l -> k_procs s !! p = Some q -> p_ttlock q = Some lk ->
  (forall m', mst x ∅ m' -> find_idx unused (p_threads q) = None -> Q None (with_mach m' s)) ->
  (forall m' k' i, mst x ∅ m' -> find_idx unused (p_threads q) = Some i -> l = [] -> free_pages k' [] ->
     km_end k' = km_end (k_kmem s) ->
     Q None (with_base m' k' (upd_thread (p, i) (unclaimed p i) s))) ->
  (forall m' k' i page l', mst x ∅ m' -> find_idx unused (p_threads q) = Some i -> l = page :: l' ->
     free_pages k' l' -> km_end k' = km_end (k_kmem s) ->
     Q (Some (p, i)) (with_base m' k' (upd_thread (p, i) (new_thread p i page) s))) ->
  total (allocthread p KSTACKSIZE) s Q.
Proof.
  intros Hm Hf Hq Hlk Hfull Hnomem Hok. unfold allocthread. kgo.
  rewrite (the_proc_lookup _ _ _ Hq), Hlk. kgo.
  eapply kacquire_total; [exact Hm|kset|kset|]. intros m1 H1. kgo.
  change (the_proc p (with_mach m1 s)) with (the_proc p s). rewrite (the_proc_lookup _ _ _ Hq).
  assert (Hdone : forall m', mst x (({[lk]} ∪ ∅) ∖ {[lk]}) m' -> mst x ∅ m').
  { intros m'. now replace (({[lk]} ∪ ∅) ∖ {[lk]} : gset nat) with (∅ : gset nat) by kset. }
  destruct (find_idx _ (p_threads q)) as [i|] eqn:Hi.
  - kgo. eapply krelease_total; [exact H1|kset|]. intros m2 H2. apply Hdone in H2.
    kgo. eapply kalloc_total; [exact H2|kset|kset|exact Hf|]. intros m3 k3 H3 Hf3 He3. kgo.
    destruct l as [|page l']; cbn [head default tail] in *.
    + rewrite Z.eqb_refl. kgo.
      specialize (Hnomem m3 k3 i H3 eq_refl eq_refl Hf3 He3).
      autorewrite with kstate. exact Hnomem.
    + assert (Hp : page <> 0). { destruct Hf as (Hc & _). now inversion Hc. }
      apply Z.eqb_neq in Hp. simpl. rewrite Hp. kgo.
      specialize (Hok m3 k3 i page l' H3 eq_refl eq_refl Hf3 He3).
      autorewrite with kstate. exact Hok.
  - kgo. eapply krelease_total; [exact H1|kset|]. intros m2 H2. kgo. now apply Hfull; [apply Hdone|].
Qed.

(** The thread [kthread_create] makes: the creator's trap frame with the entry
    point, the top of the user stack and 0 in eax. *)
Definition start_frame (start_func stack : Z) (t : thread) : thread :=
  set_frame (tf_set_eax 0 (tf_set_esp (u32 (stack + MAX_STACK_SIZE)) (tf_set_eip (u32 start_func) (th_frame t)))) t.
Definition created (p i : nat) (page start_func stack : Z) (fr : trapframe) (t : thread) : thread :=
  set_state RUNNABLE (set_myproc (Some p) (start_frame start_func stack (set_frame fr (new_thread p i page t)))).

(** Only the frame, the owner and the state differ from [new_thread]. *)
Lemma created_fields p i page f st fr t :
  let n := new_thread p i page t in let c := created p i page f st fr t in
  th_state c = RUNNABLE /\ th_tid c = Z.of_nat i /\ th_kstack c = th_kstack n /\
  tf_eip (th_frame c) = u32 f /\ tf_esp (th_frame c) = u32 (st + MAX_STACK_SIZE) /\
  th_tf c = th_tf n /\ th_context c = th_context n /\ th_ctx c = th_ctx n /\ th_ret c = th_ret n.
Proof.
  unfold created. assert (Htid : th_tid (new_thread p i page t) = Z.of_nat i) by reflexivity.
  revert Htid. generalize (new_thread p i page t). intros n Htid. cbn. auto 12.
Qed.

Lemma created_tid p i page f st fr t : th_tid (created p i page f st fr t) = Z.of_nat i.
Proof. reflexivity. Qed.

Lemma unused_slot q i : find_idx unused (p_threads q) = Some i ->
  exists t, p_threads q !! i = Some t /\ th_state t = UNUSED.
Proof.
  intros H. apply find_idx_Some in H as ((t & Ht & Hu) & _). apply bool_decide_eq_true in Hu. eauto.
Qed.

Lemma kthread_create_total x s p j q lk l thj start_func stack (Q : Z -> kstate E -> Prop) :
  mst x ∅ (k_mach s) -> x_proc x = Some p -> x_thread x = Some (p, j) -> free_pages (k_kmem s) l ->
  k_procs s !! p = Some q -> p_ttlock q = Some lk -> p_threads q !! j = Some thj -> th_state thj <> UNUSED ->
  (forall m', mst x ∅ m' -> find_idx unused (p_threads q) = None -> Q (-1) (with_mach m' s)) ->
  (forall m' k' i, mst x ∅ m' -> find_idx unused (p_threads q) = Some i -> l = [] -> free_pages k' [] ->
     Q (-1) (with_base m' k' (upd_thread (p, i) (unclaimed p i) s))) ->
  (forall m' k' i page l', mst x ∅ m' -> find_idx unused (p_threads q) = Some i -> l = page :: l' -> free_pages k' l' ->
     Q (Z.of_nat i) (with_base m' k' (upd_thread (p, i) (created p i page start_func stack (th_frame thj)) s))) ->
  total (kthread_create start_func stack) s Q.
Proof.
  intros Hm Hp Ht Hf Hq Hlk Hj Hused Hfull Hnomem Hok. unfold kthread_create.
  krun myproc_total; [kset|]. intros m1 H1. krun mythread_total; [kset|]. intros m2 H2. kgo.
  eapply (allocthread_total x _ p q lk l); [exact H2|exact Hf|exact Hq|exact Hlk|..].
  - intros m' Hm' Hi. kgo. now apply Hfull.
  - intros m' k' i Hm' Hi Hl Hf' _. kgo. now apply Hnomem.
  - intros m' k' i page l' Hm' Hi Hl Hf' _. destruct (unused_slot _ _ Hi) as (ti & Hti & Hun).
    assert (Hne : (p, j) <> (p, i)) by (intros [= ->]; congruence).
    kgo. autorewrite with kstate.
    rewrite (the_thread_ne _ _ _ _ Hne), (the_thread_at (p, j) s thj) by now exists q.
    rewrite (the_proc_thread _ _ _ _ q) by done.
    kgo. eapply kacquire_total; [exact Hm'|kset|kset|]. intros m3 H3. kgo.
    eapply krelease_total; [exact H3|kset|]. intros m4 H4.
    replace (({[lk]} ∪ ∅) ∖ {[lk]} : gset nat) with (∅ : gset nat) in H4 by kset. kgo.
    autorewrite with kstate. rewrite (the_thread_upd _ _ _ ti) by now exists q.
    specialize (Hok m4 k' i page l' H4 Hi Hl Hf'). rewrite <- (created_tid p i page start_func stack (th_frame thj) ti) in Hok.
    exact Hok.
Qed.

(** The stack page of a new thread holds, from the top down, the trap frame,
    the return address [trapret] and the context that enters [forkret]. *)
Lemma new_thread_layout k p i page t :
  page_ok k page ->
  let t' := new_thread p i page t in
  th_kstack t' = page /\ th_tf t' + tf_size = page + PGSIZE /\ th_context t' + ctx_size + 4 = th_tf t' /\
  page < th_context t' /\ th_context t' mod 4 = 0 /\ th_ret t' = x_trapret /\ th_ctx t' = ctx_set_eip x_forkret ctx_zero.
Proof.
  intros Hp. pose proof (page_ok_pos _ _ Hp) as Hpos. destruct Hp as [Hbad Hr].
  assert (Hal : page mod 4096 = 0 /\ page + 4096 < 2 ^ 32).
  { unfold kfree_bad, V2P, u32, KERNBASE, PHYSTOP, PGSIZE in Hbad. Z.div_mod_to_equations; lia. }
  cbn -[u32 Z.modulo]. unfold tf_size, ctx_size, KSTACKSIZE, PGSIZE.
  rewrite !(u32_small (page + 4096)), !(u32_small (page + 4096 - 76)), !(u32_small (page + 4096 - 76 - 4)),
    !(u32_small (page + 4096 - 76 - 4 - 20)) by lia.
  repeat split; Z.div_mod_to_equations; lia.
Qed.

(** C29. [kthread_create] in every case: with a free slot and a free page it
    returns the slot's index as thread id and leaves in that slot, and nowhere
    else, a RUNNABLE thread that starts at the function given, on the user
    stack given, with a kernel stack whose trap frame, return address and
    context fill the top of the page; with no free slot it changes nothing
    and returns -1, and with no free page it returns -1 and leaves the slot
    UNUSED, the id and the owner written into it. *)
Theorem kthread_create_spec (x : exe) (s : kstate E) (p j lk : nat) (q : proc) (thj : thread) (l : list Z)
    (start_func stack : Z) :
  mst x ∅ (k_mach s) -> x_proc x = Some p -> x_thread x = Some (p, j) -> free_pages (k_kmem s) l ->
  k_procs s !! p = Some q -> p_ttlock q = Some lk -> p_threads q !! j = Some thj -> th_state thj <> UNUSED ->
  exists m' k', mst x ∅ m' /\ free_pages k' (if find_idx unused (p_threads q) is Some _ then tail l else l) /\
    match find_idx unused (p_threads q), l with
    | Some i, page :: _ =>
        let t' := created p i page start_func stack (th_frame thj) in
        kthread_create start_func stack s = Done (Z.of_nat i) (with_base m' k' (upd_thread (p, i) t' s)) /\
        (forall t, th_state (t' t) = RUNNABLE /\ th_tid (t' t) = Z.of_nat i /\ th_kstack (t' t) = page /\
           tf_eip (th_frame (t' t)) = u32 start_func /\ tf_esp (th_frame (t' t)) = u32 (stack + MAX_STACK_SIZE) /\
           th_tf (t' t) + tf_size = page + PGSIZE /\ th_context (t' t) + ctx_size + 4 = th_tf (t' t) /\
           page < th_context (t' t) /\ cx_eip (th_ctx (t' t)) = x_forkret /\ th_ret (t' t) = x_trapret)
    | Some i, [] =>
        kthread_create start_func stack s = Done (-1) (with_base m' k' (upd_thread (p, i) (unclaimed p i) s))
    | None, _ => kthread_create start_func stack s = Done (-1) (with_base m' k' s)
    end.
Proof.
  intros Hm Hp Ht Hf Hq Hlk Hj Hused.
  assert (Hpage : forall page l', l = page :: l' -> page_ok (k_kmem s) page).
  { intros page l' ->. destruct Hf as (_ & _ & Hall). now apply Forall_cons_iff in Hall as [? _]. }
  match goal with |- ?G =>
    enough (Ht' : total (kthread_create start_func stack) s (fun r s' => kthread_create start_func stack s = Done r s' -> G))
  end.
  { apply total_done in Ht' as (r & s' & Hr & HG). exact (HG Hr). }
  apply (kthread_create_total x s p j q lk l thj start_func stack _ Hm Hp Ht Hf Hq Hlk Hj Hused).
  - intros m' Hm' Hi H. rewrite Hi. exists m', (k_kmem s). split; [exact Hm'|]. split; [exact Hf|exact H].
  - intros m' k' i Hm' Hi -> Hf' H. rewrite Hi. exists m', k'. split; [exact Hm'|]. split; [exact Hf'|exact H].
  - intros m' k' i page l' Hm' Hi -> Hf' H. rewrite Hi. exists m', k'. split; [exact Hm'|]. split; [exact Hf'|].
    split; [exact H|]. intros t. destruct (new_thread_layout _ p i page t (Hpage _ _ eq_refl))
        as (H1 & H2 & H3 & H4 & _ & H6 & H7).
    destruct (created_fields p i page start_func stack (th_frame thj) t)
      as (-> & -> & -> & -> & -> & -> & -> & -> & ->).
    rewrite H7. split; [reflexivity|]. split; [reflexivity|]. split; [exact H1|]. auto 12.
Qed.

(** ** Joining and exiting *)
Definition cleared (t : thread) : thread :=
  set_state UNUSED (set_blocked 0 (set_killed 0 (set_tid (-1) (set_kstack 0 (set_chan CNull t))))).

Lemma clear_thread_total n x hs s l t th (Q : unit -> kstate E -> Prop) :
  mst_at n x hs (k_mach s) -> KMEM_LOCK ∉ hs -> (n + size hs < 8)%nat -> free_pages (k_kmem s) l ->
  at_thread s t th -> page_ok (k_kmem s) (th_kstack th) -> th_kstack th ∉ l ->
  (forall m' k', mst_at n x hs m' -> free_pages k' (th_kstack th :: l) -> km_end k' = km_end (k_kmem s) ->
     Q tt (with_base m' k' (upd_thread t cleared s))) ->
  total (clear_thread t) s Q.
Proof.
  intros Hm Hk Hsz Hf Hat Hpg Hnin HQ. unfold clear_thread. kgo.
  rewrite (the_thread_upd _ _ _ _ Hat). eapply kfree_total; [exact Hm|exact Hk|exact Hsz|exact Hf|exact Hpg|exact Hnin|].
  intros m' k' Hm' Hf' He. kgo. autorewrite with kstate. exact (HQ m' k' Hm' Hf' He).
Qed.

(** One pass of the loop of [kthread_join]. *)
Lemma join_zombie n x s l lk t cur th (Q : Z -> kstate E -> Prop) :
  mst x {[lk]} (k_mach s) -> lk <> KMEM_LOCK -> free_pages (k_kmem s) l -> at_thread s t th ->
  th_state th = ZOMBIE -> page_ok (k_kmem s) (th_kstack th) -> th_kstack th ∉ l ->
  (forall m' k', mst x ∅ m' -> free_pages k' (th_kstack th :: l) -> Q 0 (with_base m' k' (upd_thread t cleared s))) ->
  total (kthread_join_loop (S n) cur t lk) s Q.
Proof.
  intros Hm Hlk Hf Hat Hz Hpg Hnin HQ. cbn [kthread_join_loop]. kgo. rewrite (the_thread_at _ _ _ Hat), Hz.
  rewrite bool_decide_eq_true_2 by done. kgo.
  eapply clear_thread_total; [exact Hm|kset|kset|exact Hf|exact Hat|exact Hpg|exact Hnin|].
  intros m1 k1 H1 Hf1 _. kgo. eapply krelease_total; [exact H1|kset|]. intros m2 H2. kgo.
  rewrite difference_diag_L in H2. autorewrite with kstate. now apply HQ.
Qed.

Lemma join_killed n x s lk t cur th thc (Q : Z -> kstate E -> Prop) :
  mst x {[lk]} (k_mach s) -> at_thread s t th -> th_state th <> ZOMBIE -> at_thread s cur thc -> th_killed thc <> 0 ->
  (forall m', mst x ∅ m' -> Q (-1) (with_mach m' s)) ->
  total (kthread_join_loop (S n) cur t lk) s Q.
Proof.
  intros Hm Hat Hz Hcur Hk HQ. cbn [kthread_join_loop]. kgo. rewrite (the_thread_at _ _ _ Hat).
  rewrite bool_decide_eq_false_2 by done. kgo. rewrite (the_thread_at _ _ _ Hcur).
  apply Z.eqb_neq in Hk. rewrite Hk. cbn [negb]. kgo.
  eapply krelease_total; [exact Hm|kset|]. intros m1 H1. kgo. rewrite difference_diag_L in H1. now apply HQ.
Qed.

Lemma join_sleeps n x s lk p i t q th thc :
  mst x {[lk]} (k_mach s) -> x_proc x = Some p -> x_thread x = Some (p, i) ->
  k_procs s !! p = Some q -> p_threads q !! i = Some thc -> th_killed thc = 0 ->
  at_thread s t th -> th_state th <> ZOMBIE ->
  yields (kthread_join_loop (S n) (p, i) t lk) s (fun s' k =>
    (exists m', s' = with_mach m' (upd_proc p (fall_asleep p i (chan_of_thread t)) s) /\ mst x {[PTABLE_LOCK]} m') /\
    forall x2 s2, mst x2 {[PTABLE_LOCK]} (k_mach s2) ->
      exists m3, mst (resume_exe x2 (x_ie x)) {[lk]} m3 /\
        k s2 = kthread_join_loop n (p, i) t lk (with_mach m3 (upd_thread (p, i) (set_chan CNull) s2))).
Proof.
  intros Hm Hp Ht Hq Hi Hk Hat Hz. cbn [kthread_join_loop]. kgo. rewrite (the_thread_at _ _ _ Hat).
  rewrite bool_decide_eq_false_2 by done. kgo.
  rewrite (the_thread_at (p, i) s thc) by now exists q. rewrite Hk. cbn [negb Z.eqb].
  apply yields_bind. eapply yields_mono; [|eapply (sleep_yields x s p i); eauto].
  intros s' k (Hs' & Hres). split; [exact Hs'|]. intros x2 s2 H2. specialize (Hres x2 s2 H2).
  apply total_done in Hres as ([] & s3 & Hr & m3 & -> & H3). exists m3. split; [exact H3|].
  rewrite Hr. reflexivity.
Qed.

(** What [kthread_exit] does to the table when other threads go on. *)
Definition leave (j : nat) (q : proc) : proc := set_p_state RUNNABLE (on_thread j (set_state ZOMBIE) q).

Lemma k_procs_wake ch s p q :
  k_procs s !! p = Some q -> k_procs (set_k_procs (wake_proc ch <$> k_procs s) s) !! p = Some (wake_proc ch q).
Proof. intros H. simpl. now rewrite list_lookup_fmap, H. Qed.

Lemma wake_proc_ttlock ch q : p_ttlock (wake_proc ch q) = p_ttlock q.
Proof. unfold wake_proc. now destruct (wakeable _). Qed.

Lemma wake_proc_lookup ch q i th :
  p_threads q !! i = Some th -> sleeping_on ch th = false -> p_threads (wake_proc ch q) !! i = Some th.
Proof.
  intros Hi Hs. unfold wake_proc. destruct (wakeable _); [|done]. simpl. rewrite list_lookup_fmap, Hi. simpl.
  unfold wake_thread. now rewrite Hs.
Qed.

Lemma kthread_exit_yields x s p j q lk thj :
  let s1 := set_k_procs (wake_proc (CThread p j) <$> k_procs s) s in
  mst x ∅ (k_mach s) -> x_proc x = Some p -> x_thread x = Some (p, j) ->
  k_procs s !! p = Some q -> p_ttlock q = Some lk -> p_threads q !! j = Some thj -> th_state thj = RUNNING ->
  allzombies p (Some (p, j)) (wake_proc (CThread p j) q) = false ->
  yields kthread_exit s (fun s' _ =>
    exists m', s' = with_mach m' (upd_proc p (leave j) s1) /\ mst x {[PTABLE_LOCK]} m').
Proof.
  intros s1 Hm Hp Ht Hq Hlk Hj Hrun Hall. unfold kthread_exit.
  krun myproc_total; [kset|]. intros m1 H1. krun mythread_total; [kset|]. intros m2 H2. rewrite Hp, Ht. kgo.
  autorewrite with kstate. rewrite (the_proc_lookup _ _ _ Hq), Hlk. kgo.
  apply yields_bind_total. eapply kacquire_total; [exact H2|kset|kset|]. intros m3 H3.
  unfold wakeup1. kgo. change (set_k_procs _ _) with (with_mach m3 s1).
  pose proof (k_procs_wake (CThread p j) s p q Hq) as Hq1. fold s1 in Hq1.
  autorewrite with kstate. rewrite (the_proc_lookup _ _ _ Hq1), Hall. cbn [when]. kgo.
  apply yields_bind_total. eapply krelease_total; [exact H3|kset|]. intros m4 H4.
  replace (({[lk]} ∪ ∅) ∖ {[lk]} : gset nat) with (∅ : gset nat) in H4 by kset.
  apply yields_bind_total. eapply kacquire_total; [exact H4|kset|kset|]. intros m5 H5. rewrite union_empty_r_L in H5.
  kgo. autorewrite with kstate. apply yields_bind. rewrite upd_thread_proc, upd_proc_comp.
  change (fun q0 => set_p_state _ _) with (leave j).
  assert (Hj1 : p_threads (wake_proc (CThread p j) q) !! j = Some thj).
  { apply wake_proc_lookup; [done|]. unfold sleeping_on. now rewrite Hrun. }
  eapply yields_mono; [|eapply (sched_yields x _ p (p, j)); [exact H5|done..| |]].
  - intros s' k ((m' & -> & Hm') & _). exists m'. split; [reflexivity|exact Hm'].
  - autorewrite with kstate. rewrite (the_proc_upd _ _ _ _ Hq1). discriminate.
  - autorewrite with kstate. erewrite the_thread_upd_proc; [|exact Hq1|apply lookup_on_thread, Hj1]. discriminate.
Qed.

Lemma allzombies_other p j q i th :
  p_state q <> ZOMBIE -> i <> j -> p_threads q !! i = Some th -> finished (th_state th) = false ->
  allzombies p (Some (p, j)) q = false.
Proof.
  intros Hq Hne Hi Hf. unfold allzombies. rewrite bool_decide_eq_false_2 by done. simpl.
  apply not_true_is_false. intros Hall. rewrite forallb_forall in Hall.
  assert (Hin : In (i, th) (imap pair (p_threads q))).
  { apply list_elem_of_In. now apply (elem_of_lookup_imap_2 pair _ _ i). }
  specialize (Hall _ Hin). cbn in Hall. rewrite Hf, bool_decide_eq_false_2 in Hall by congruence. discriminate.
Qed.

(** [kthread_join] up to its loop. *)
Lemma kthread_join_enter n x s p i j q thi thj lk :
  mst x ∅ (k_mach s) -> x_proc x = Some p -> x_thread x = Some (p, i) ->
  k_procs s !! p = Some q -> p_ttlock q = Some lk -> p_threads q !! i = Some thi ->
  p_threads q !! j = Some thj -> (j < NTHREAD)%nat -> th_tid thi <> Z.of_nat j -> th_tid thj = Z.of_nat j ->
  exists m', mst x {[lk]} m' /\
    kthread_join n (Z.of_nat j) s = kthread_join_loop n (p, i) (p, j) lk (with_mach m' s).
Proof.
  intros Hm Hp Ht Hq Hlk Hi Hj Hlt Hself Htid. unfold kthread_join.
  destruct (total_done _ _ _ (myproc_total 0 x ∅ s (fun r s1 => r = Some p /\ exists m', mst x ∅ m' /\ s1 = with_mach m' s)
    Hm ltac:(kset) ltac:(intros; split; [exact Hp|eauto]))) as (? & ? & E1 & -> & m1 & H1 & ->).
  erewrite bind_done by exact E1.
  destruct (total_done _ _ _ (mythread_total 0 x ∅ (with_mach m1 s)
    (fun r s1 => r = Some (p, i) /\ exists m', mst x ∅ m' /\ s1 = with_mach m' s)
    H1 ltac:(kset) ltac:(intros; split; [exact Ht|eauto]))) as (? & ? & E2 & -> & m2 & H2 & ->).
  erewrite bind_done by exact E2. erewrite bind_done by reflexivity. erewrite bind_done by apply gets_done.
  autorewrite with kstate. rewrite (the_thread_at (p, i) s thi) by now exists q.
  unfold NTHREAD in Hlt. replace ((_ =? _) || _ || _) with false by lia.
  erewrite bind_done by reflexivity. erewrite bind_done by apply gets_done. autorewrite with kstate.
  rewrite (the_proc_lookup _ _ _ Hq), Hlk. erewrite bind_done by reflexivity.
  destruct (total_done _ _ _ (kacquire_total 0 x ∅ lk (with_mach m2 s)
    (fun _ s1 => exists m', mst x {[lk]} m' /\ s1 = with_mach m' s) H2 ltac:(kset) ltac:(kset)
    ltac:(intros m' H'; rewrite union_empty_r_L in H'; eauto))) as ([] & ? & E3 & m3 & H3 & ->).
  erewrite bind_done by exact E3. erewrite bind_done by apply gets_done. autorewrite with kstate.
  rewrite Nat2Z.id, (the_thread_at (p, j) s thj) by now exists q.
  rewrite Htid, Z.eqb_refl. exists m3. split; [exact H3|reflexivity].
Qed.

(** The exiting thread marks itself ZOMBIE and the joiner RUNNABLE. *)
Lemma exit_wakes_joiner x s p i j q lk thi thj :
  mst x ∅ (k_mach s) -> x_proc x = Some p -> x_thread x = Some (p, j) ->
  k_procs s !! p = Some q -> p_ttlock q = Some lk -> wakeable (p_state q) = true ->
  p_threads q !! i = Some thi -> sleeping_on (CThread p j) thi = true ->
  p_threads q !! j = Some thj -> th_state thj = RUNNING ->
  exists s' k q', kthread_exit s = Switch s' k /\ k_procs s' !! p = Some q' /\ p_state q' = RUNNABLE /\
    p_threads q' !! i = Some (set_state RUNNABLE thi) /\ p_threads q' !! j = Some (set_state ZOMBIE thj).
Proof.
  intros Hm Hp Ht Hq Hlk Hw Hi Hs Hj Hrun.
  assert (Hne : i <> j).
  { intros ->. unfold sleeping_on in Hs. rewrite Hj in Hi. injection Hi as <-. now rewrite Hrun in Hs. }
  destruct (wake_proc_asleep _ _ _ _ Hw Hi Hs) as [Hqs Hwi].
  assert (Hwj : p_threads (wake_proc (CThread p j) q) !! j = Some thj).
  { apply wake_proc_lookup; [done|]. unfold sleeping_on. now rewrite Hrun. }
  assert (Hall : allzombies p (Some (p, j)) (wake_proc (CThread p j) q) = false).
  { apply (allzombies_other p j _ i (set_state RUNNABLE thi)); [congruence|done..]. }
  destruct (yields_switch _ _ _ (kthread_exit_yields x s p j q lk thj Hm Hp Ht Hq Hlk Hj Hrun Hall))
    as (s' & k & Hr & m' & -> & _).
  exists (with_mach m' (upd_proc p (leave j) (set_k_procs (wake_proc (CThread p j) <$> k_procs s) s))), k,
    (leave j (wake_proc (CThread p j) q)).
  split; [exact Hr|]. split; [|split; [reflexivity|split]].
  - unfold upd_proc. simpl. now rewrite list_lookup_alter_eq, list_lookup_fmap, Hq.
  - simpl. now rewrite list_lookup_alter_ne.
  - simpl. now rewrite list_lookup_alter_eq, Hwj.
Qed.

(** C15. Joining waits for the exit of the thread named and takes its slot
    back.  [kthread_join] on a live thread gives up the processor asleep on
    that thread; when that thread calls [kthread_exit] the joiner and the
    process become RUNNABLE and the thread ZOMBIE; when the joiner runs again
    and finds it ZOMBIE it returns 0 with the slot UNUSED, the kernel stack
    back on the free list and no lock held. *)
Theorem join_exit_handshake (n : nat) (x : exe) (s : kstate E) (p i j lk : nat) (q : proc) (thi thj : thread) :
  mst x ∅ (k_mach s) -> x_proc x = Some p -> x_thread x = Some (p, i) ->
  k_procs s !! p = Some q -> p_ttlock q = Some lk -> lk <> KMEM_LOCK -> p_threads q !! i = Some thi ->
  p_threads q !! j = Some thj -> (j < NTHREAD)%nat -> th_tid thi <> Z.of_nat j -> th_tid thj = Z.of_nat j ->
  th_state thj <> ZOMBIE -> th_killed thi = 0 ->
  exists m' k,
    kthread_join (S (S n)) (Z.of_nat j) s = Switch (with_mach m' (upd_proc p (fall_asleep p i (CThread p j)) s)) k /\
    mst x {[PTABLE_LOCK]} m' /\
    (forall x2 s2 q2 thi2 thj2, mst x2 ∅ (k_mach s2) -> x_proc x2 = Some p -> x_thread x2 = Some (p, j) ->
       k_procs s2 !! p = Some q2 -> p_ttlock q2 = Some lk -> wakeable (p_state q2) = true ->
       p_threads q2 !! i = Some thi2 -> sleeping_on (CThread p j) thi2 = true ->
       p_threads q2 !! j = Some thj2 -> th_state thj2 = RUNNING ->
       exists s3 k3 q3, kthread_exit s2 = Switch s3 k3 /\ k_procs s3 !! p = Some q3 /\ p_state q3 = RUNNABLE /\
         p_threads q3 !! i = Some (set_state RUNNABLE thi2) /\ p_threads q3 !! j = Some (set_state ZOMBIE thj2)) /\
    (forall x4 s4 l thj4, mst x4 {[PTABLE_LOCK]} (k_mach s4) -> free_pages (k_kmem s4) l ->
       at_thread (upd_thread (p, i) (set_chan CNull) s4) (p, j) thj4 -> th_state thj4 = ZOMBIE ->
       page_ok (k_kmem s4) (th_kstack thj4) -> th_kstack thj4 ∉ l ->
       exists m5 k5, k s4 = Done 0 (with_base m5 k5 (upd_thread (p, j) cleared (upd_thread (p, i) (set_chan CNull) s4))) /\
         free_pages k5 (th_kstack thj4 :: l) /\ mst (resume_exe x4 (x_ie x)) ∅ m5).
Proof.
  intros Hm Hp Ht Hq Hlk Hlkm Hi Hj Hlt Hself Htid Hz Hk.
  destruct (kthread_join_enter (S (S n)) x s p i j q thi thj lk) as (m1 & H1 & ->); [done..|].
  destruct (yields_switch _ _ _ (join_sleeps (S n) x (with_mach m1 s) lk p i (p, j) q thj thi H1 Hp Ht Hq Hi Hk
    ltac:(now exists q) Hz)) as (s' & k & Hr & (m' & -> & Hm') & Hres).
  exists m', k. split; [exact Hr|]. split; [exact Hm'|]. split.
  - intros. eapply exit_wakes_joiner; eauto.
  - intros x4 s4 l thj4 H4 Hf4 Hat Hz4 Hpg Hnin. destruct (Hres x4 s4 H4) as (m3 & H3 & ->).
    match goal with |- exists m5 k5, ?e = _ /\ _ =>
      enough (Htot : total (kthread_join_loop (S n) (p, i) (p, j) lk) (with_mach m3 (upd_thread (p, i) (set_chan CNull) s4))
        (fun r s5 => r = 0 /\ exists m5 k5,
          s5 = with_base m5 k5 (upd_thread (p, j) cleared (upd_thread (p, i) (set_chan CNull) s4)) /\
          free_pages k5 (th_kstack thj4 :: l) /\ mst (resume_exe x4 (x_ie x)) ∅ m5)) end.
    { apply total_done in Htot as (r & s5 & E5 & -> & m5 & k5 & -> & ? & ?). eauto. }
    eapply (join_zombie n (resume_exe x4 (x_ie x)) _ l lk (p, j) (p, i) thj4); try done.
    intros m5 k5 H5 Hf5. split; [reflexivity|]. exists m5, k5. split; [reflexivity|auto].
Qed.

(** ** Processes *)
Lemma nextpid_mach n m s : set_k_nextpid n (with_mach m s) = with_mach m (set_k_nextpid n s).
Proof. reflexivity. Qed.
Lemma nextpid_upd n p f s : set_k_nextpid n (upd_proc p f s) = upd_proc p f (set_k_nextpid n s).
Proof. reflexivity. Qed.
Hint Rewrite nextpid_mach nextpid_upd : kstate.

Definition pslot_free (q : proc) : bool := bool_decide (p_state q = UNUSED).
Definition new_proc (pid : Z) (q : proc) : proc :=
  set_p_pid pid (set_p_ttlock (Some PTABLE_LOCK) (set_p_mid (replicate MAX_MUTEXES 0) (set_p_state EMBRYO q))).

Lemma allocproc_scan_total x s (Q : option nat -> kstate E -> Prop) :
  mst x ∅ (k_mach s) ->
  (forall m', mst x ∅ m' -> Q (find_idx pslot_free (k_procs s)) (with_mach m' s)) ->
  total allocproc_scan s Q.
Proof.
  intros Hm HQ. unfold allocproc_scan. krun kacquire_total; [kset|kset|]. intros m1 H1. kgo.
  change (find_idx _ _) with (find_idx pslot_free (k_procs s)).
  destruct (find_idx pslot_free (k_procs s)) as [p|]; kgo; (eapply krelease_total; [exact H1|kset|]);
    intros m2 H2; kgo; apply HQ;
    now replace (∅ : gset nat) with (({[PTABLE_LOCK]} ∪ ∅) ∖ {[PTABLE_LOCK]} : gset nat) by kset.
Qed.

Lemma allocproc_total x s l (Q : option nat -> kstate E -> Prop) :
  mst x ∅ (k_mach s) -> free_pages (k_kmem s) l ->
  (forall m', mst x ∅ m' -> find_idx pslot_free (k_procs s) = None -> Q None (with_mach m' s)) ->
  (forall m' k' p q, mst x ∅ m' -> find_idx pslot_free (k_procs s) = Some p -> k_procs s !! p = Some q ->
     let s1 := upd_proc p (new_proc (k_nextpid s)) (set_k_nextpid (s32 (k_nextpid s + 1)) s) in
     match find_idx unused (p_threads q), l with
     | Some i, page :: l' => free_pages k' l' -> Q (Some p) (with_base m' k' (upd_thread (p, i) (new_thread p i page) s1))
     | Some i, [] => free_pages k' [] ->
         Q None (with_base m' k' (upd_proc p (fun q => set_p_state UNUSED (on_thread i (unclaimed p i) q)) s1))
     | None, _ => free_pages k' l -> Q None (with_base m' k' (upd_proc p (set_p_state UNUSED) s1))
     end) ->
  total allocproc s Q.
Proof.
  intros Hm Hf Hfull Hslot. unfold allocproc. apply total_bind. apply (allocproc_scan_total x); [exact Hm|].
  intros m1 H1. destruct (find_idx pslot_free (k_procs s)) as [p|] eqn:Hp; [|kgo; now apply Hfull].
  assert (exists q, k_procs s !! p = Some q) as [q Hq].
  { apply find_idx_Some in Hp as ((q & Hq & _) & _). eauto. }
  specialize (fun m' k' H => Hslot m' k' p q H eq_refl Hq). cbv zeta in Hslot.
  unfold allocproc_claim. kgo. autorewrite with kstate.
  change (k_nextpid (with_mach m1 ?s0)) with (k_nextpid s).
  change (fun q0 => set_p_pid _ _) with (new_proc (k_nextpid s)).
  set (s1 := upd_proc p (new_proc (k_nextpid s)) (set_k_nextpid (s32 (k_nextpid s + 1)) s)) in *.
  assert (Hq1 : k_procs s1 !! p = Some (new_proc (k_nextpid s) q)).
  { unfold s1, upd_proc. simpl. now rewrite list_lookup_alter_eq, Hq. }
  apply total_bind. eapply (allocthread_total x _ p (new_proc (k_nextpid s) q) PTABLE_LOCK l);
    [exact H1|exact Hf|exact Hq1|reflexivity|..]; cbn [p_threads new_proc set_p_pid set_p_ttlock set_p_mid set_p_state].
  - intros m' Hm' Hi. kgo. rewrite Hi in Hslot. exact (Hslot m' (k_kmem s) Hm' Hf).
  - intros m' k' i Hm' Hi -> Hf' _. kgo. rewrite Hi in Hslot. autorewrite with kstate.
    rewrite upd_thread_proc. autorewrite with kstate. exact (Hslot m' k' Hm' Hf').
  - intros m' k' i page l' Hm' Hi -> Hf' _. kgo. rewrite Hi in Hslot. exact (Hslot m' k' Hm' Hf').
Qed.

(** Every pid in the table was handed out before the next one. *)
Definition pid_bound (s : kstate E) : Prop := Forall (fun q => p_pid q < k_nextpid s) (k_procs s).

(** The outcome [r] of [allocproc], in the state [s']. *)
Definition alloc_outcome (s s' : kstate E) (r : option nat) : Prop :=
  match r with
  | Some p => exists q q', k_procs s !! p = Some q /\ p_state q = UNUSED /\ k_procs s' !! p = Some q' /\
      p_state q' = EMBRYO /\ p_pid q' = k_nextpid s /\ k_nextpid s' = k_nextpid s + 1 /\
      p_killed q' = p_killed q /\ p_mid q' = replicate MAX_MUTEXES 0 /\
      (exists i t, p_threads q' !! i = Some t /\ th_state t = EMBRYO /\ th_kstack t <> 0) /\
      (forall p2, p2 <> p -> k_procs s' !! p2 = k_procs s !! p2)
  | None => p_state <$> k_procs s' = p_state <$> k_procs s
  end.

Lemma fmap_alter_same {A B} (f : A -> B) (g : A -> A) (l : list A) i :
  (forall a, l !! i = Some a -> f (g a) = f a) -> f <$> alter g i l = f <$> l.
Proof.
  intros H. apply list_eq. intros j. rewrite !list_lookup_fmap. destruct (decide (i = j)) as [->|Hne].
  - rewrite list_lookup_alter_eq. destruct (l !! j) eqn:Ej; [|done]. simpl. f_equal. now apply H.
  - now rewrite list_lookup_alter_ne.
Qed.

Lemma pid_bound_alloc s p m k g :
  pid_bound s -> k_nextpid s < 2 ^ 31 - 1 -> - 2 ^ 31 <= k_nextpid s ->
  (forall q, p_pid (g q) = k_nextpid s) ->
  pid_bound (with_base m k (upd_proc p g (set_k_nextpid (s32 (k_nextpid s + 1)) s))).
Proof.
  intros Hb H1 H2 Hg. unfold pid_bound. simpl. rewrite s32_small by lia.
  apply Forall_alter; [|intros; rewrite Hg; lia].
  eapply Forall_impl; [exact Hb|]. simpl. intros. lia.
Qed.

(** [allocproc] takes the first UNUSED slot, or none: on success the slot
    is EMBRYO with a pid no other entry has, its mutex ownership cleared and
    a first thread with a kernel stack, and no other entry changes; on
    failure (no slot, or no memory) every state is what it was.  The counter
    stays above every pid in the table. *)
Theorem allocproc_spec (x : exe) (s : kstate E) (l : list Z) :
  mst x ∅ (k_mach s) -> free_pages (k_kmem s) l -> pid_bound s -> 0 <= k_nextpid s < 2 ^ 31 - 1 ->
  exists r s', allocproc s = Done r s' /\ pid_bound s' /\ alloc_outcome s s' r.
Proof.
  intros Hm Hf Hb Hn.
  enough (total allocproc s (fun r s' => pid_bound s' /\ alloc_outcome s s' r)) as H.
  { apply total_done in H as (r & s' & ? & ?). eauto. }
  apply (allocproc_total x s l); [exact Hm|exact Hf|..]; [now intros|].
  intros m' k' p q Hm' Hp Hq. cbv zeta. apply find_idx_Some in Hp as ((q0 & Hq0 & Hfree) & _).
  replace q0 with q in Hfree by congruence. apply bool_decide_eq_true in Hfree.
  assert (Hst : forall g, (forall q, p_state (g q) = UNUSED) ->
    p_state <$> alter g p (k_procs s) = p_state <$> k_procs s).
  { intros g Hg. apply fmap_alter_same. intros a Ha. rewrite Hg. congruence. }
  destruct (find_idx unused (p_threads q)) as [i|] eqn:Hi; [destruct l as [|page l']|]; intros Hf';
    rewrite ?upd_thread_proc, ?upd_proc_comp; (split; [apply pid_bound_alloc; [exact Hb|lia|lia|reflexivity]|]).
  - now apply Hst.
  - simpl. exists q. eexists. split; [done|]. split; [done|]. split; [now rewrite list_lookup_alter_eq, Hq|].
    do 3 (split; [try reflexivity; rewrite s32_small; lia|]). do 2 (split; [reflexivity|]). split.
    + destruct (unused_slot _ _ Hi) as (ti & Hti & _). eexists i, _.
      split; [simpl; rewrite list_lookup_alter_eq, Hti; reflexivity|]. split; [reflexivity|].
      destruct (free_pages_pop _ _ _ Hf) as (_ & Hp0 & _). exact Hp0.
    + intros p2 Hne. now rewrite list_lookup_alter_ne.
  - now apply Hst.
Qed.

(** The slot [allocproc] has chosen is still UNUSED when it releases
    [ptable.lock]: a second scan that runs before the first caller marks the
    slot returns the same process. *)
Theorem allocproc_slot_unprotected (x x2 : exe) (s : kstate E) (p : nat) :
  mst x ∅ (k_mach s) -> find_idx pslot_free (k_procs s) = Some p ->
  exists m1, allocproc_scan s = Done (Some p) (with_mach m1 s) /\ mst x ∅ m1 /\
    forall m2, mst x2 ∅ m2 -> exists m3, allocproc_scan (with_mach m2 s) = Done (Some p) (with_mach m3 s).
Proof.
  intros Hm Hp.
  destruct (total_done _ _ _ (allocproc_scan_total x s (fun r s' => exists m', mst x ∅ m' /\ r = Some p /\ s' = with_mach m' s)
    Hm ltac:(intros m' H'; exists m'; auto))) as (? & ? & E1 & m1 & H1 & -> & ->).
  exists m1. split; [exact E1|]. split; [exact H1|]. intros m2 H2.
  destruct (total_done _ _ _ (allocproc_scan_total x2 (with_mach m2 s)
    (fun r s' => exists m', mst x2 ∅ m' /\ r = Some p /\ s' = with_mach m' s) H2 ltac:(intros m' H'; exists m'; auto)))
    as (? & ? & E3 & m3 & _ & -> & ->). eauto.
Qed.

(** A slot in which [kthread_create] failed for lack of memory keeps the
    thread id written into it, so a [kthread_join] of that id does not report
    an error: it goes to sleep on a thread that does not exist. *)
Theorem join_after_failed_create_sleeps (n : nat) (x : exe) (s : kstate E) (p j i lk : nat) (q : proc) (thj : thread)
    (start_func stack : Z) :
  mst x ∅ (k_mach s) -> x_proc x = Some p -> x_thread x = Some (p, j) -> free_pages (k_kmem s) [] ->
  k_procs s !! p = Some q -> p_ttlock q = Some lk -> p_threads q !! j = Some thj -> th_state thj <> UNUSED ->
  th_killed thj = 0 -> th_tid thj = Z.of_nat j -> length (p_threads q) = NTHREAD ->
  find_idx unused (p_threads q) = Some i ->
  exists s1 s2 k, kthread_create start_func stack s = Done (-1) s1 /\
    kthread_join (S n) (Z.of_nat i) s1 = Switch s2 k /\
    the_thread (p, i) s2 = unclaimed p i (the_thread (p, i) s) /\
    sleeping_on (CThread p i) (the_thread (p, j) s2) = true.
Proof.
  intros Hm Hp Ht Hf Hq Hlk Hj Hused Hk Htid Hlen Hi. destruct (unused_slot _ _ Hi) as (ti & Hti & Hun).
  assert (Hij : i <> j) by congruence.
  set (P r s1 := r = -1 /\ exists m' k', mst x ∅ m' /\ s1 = with_base m' k' (upd_thread (p, i) (unclaimed p i) s)).
  assert (Hc : total (kthread_create start_func stack) s P).
  { apply (kthread_create_total x s p j q lk [] thj start_func stack _ Hm Hp Ht Hf Hq Hlk Hj Hused).
    - intros m' Hm' Hi'. congruence.
    - intros m' k' i' Hm' Hi' _ Hf'. replace i' with i by congruence. split; eauto.
    - intros; discriminate. }
  apply total_done in Hc as (r & s1 & Hr & -> & m1 & k1 & H1 & ->).
  set (s1 := with_base m1 k1 (upd_thread (p, i) (unclaimed p i) s)) in *.
  set (q1 := on_thread i (unclaimed p i) q).
  assert (Hq1 : k_procs s1 !! p = Some q1).
  { unfold s1, upd_thread, upd_proc. simpl. now rewrite list_lookup_alter_eq, Hq. }
  assert (Hj1 : p_threads q1 !! j = Some thj) by (simpl; now rewrite list_lookup_alter_ne).
  assert (Hi1 : p_threads q1 !! i = Some (unclaimed p i ti)) by now apply lookup_on_thread.
  assert (Hlt : (i < NTHREAD)%nat) by (rewrite <- Hlen; eauto using lookup_lt_Some).
  destruct (kthread_join_enter (S n) x s1 p j i q1 thj (unclaimed p i ti) lk H1 Hp Ht Hq1 Hlk Hj1 Hi1 Hlt
    ltac:(lia) eq_refl) as (m2 & H2 & Hjoin).
  destruct (yields_switch _ _ _ (join_sleeps n x (with_mach m2 s1) lk p j (p, i) q1 (unclaimed p i ti) thj
    H2 Hp Ht Hq1 Hj1 Hk ltac:(now exists q1) ltac:(discriminate))) as (s2 & k & Hs2 & (m3 & -> & _) & _).
  exists s1, (with_mach m3 (upd_proc p (fall_asleep p j (chan_of_thread (p, i))) s1)), k.
  split; [exact Hr|]. split; [rewrite Hjoin; exact Hs2|]. autorewrite with kstate. split.
  - rewrite (the_thread_at (p, i) s ti) by now exists q.
    apply (the_thread_upd_proc p i _ _ q1); [exact Hq1|]. simpl. now rewrite list_lookup_alter_ne.
  - erewrite (the_thread_upd_proc p j _ _ q1); [|exact Hq1|apply fall_asleep_thread, Hj1].
    unfold sleeping_on. simpl. now rewrite !bool_decide_eq_true_2.
Qed.

End Thread.

(** ** Witnesses *)
Definition boot_ext : KernelExt unit := {|
  x_trapret := 0x80105e2a; x_forkret := 0x80103e70;
  x_setupkvm := ret 0; x_inituvm := fun _ => ret tt; x_copyuvm := fun _ _ => ret 0; x_freevm := fun _ => ret tt;
  x_allocuvm := fun _ _ n => ret n; x_deallocuvm := fun _ _ n => ret n; x_filedup := fun _ => ret tt;
  x_fileclose := fun _ => ret tt; x_idup := fun _ => ret tt; x_iput := fun _ => ret tt; x_namei := fun _ => ret None;
  x_begin_op := ret tt; x_end_op := ret tt; x_iinit := ret tt; x_initlog := ret tt |}.
#[local] Existing Instance boot_ext.

(** The concrete table of Sched with one free page. *)
Definition demo_page : kstate unit :=
  set_k_base (mkKst (one_cpu demo_exe ∅) (mkKmem true 0x80116000 ∅ 0x80115000)) (demo demo_exe ∅ RUNNING RUNNING).

Lemma demo_page_free : free_pages (k_kmem demo_page) [0x80116000].
Proof.
  split; [constructor; [lia|constructor]|]. split; [apply NoDup_singleton|].
  repeat constructor; simpl; lia.
Qed.
Lemma demo_nomem : free_pages (k_kmem (demo demo_exe ∅ RUNNING RUNNING)) [].
Proof. split; [constructor|]. split; constructor. Qed.
Lemma demo_on : mst demo_exe ∅ (one_cpu demo_exe ∅).
Proof. apply one_cpu_mst; [reflexivity|kset]. Qed.

Lemma kthread_create_spec_witness :
  exists s', kthread_create 0x40 0x2000 demo_page = Done 2 s'.
Proof.
  destruct (kthread_create_spec demo_exe demo_page 0 0 PTABLE_LOCK _ _ [0x80116000] 0x40 0x2000
    demo_on eq_refl eq_refl demo_page_free eq_refl eq_refl eq_refl ltac:(discriminate)) as (m' & k' & _ & _ & H & _).
  eexists. exact H.
Defined.

Lemma join_exit_handshake_witness :
  exists s' k, kthread_join 2 1 demo_page = Switch s' k.
Proof.
  destruct (join_exit_handshake 0 demo_exe demo_page 0 0 1 PTABLE_LOCK _ _ _
    demo_on eq_refl eq_refl eq_refl eq_refl ltac:(discriminate) eq_refl eq_refl ltac:(unfold NTHREAD; lia)
    ltac:(discriminate) eq_refl ltac:(discriminate) eq_refl) as (m' & k & H & _).
  eauto.
Defined.

Lemma allocproc_spec_witness :
  exists r s', allocproc demo_page = Done r s' /\ alloc_outcome demo_page s' r.
Proof.
  destruct (allocproc_spec demo_exe demo_page [0x80116000] demo_on demo_page_free) as (r & s' & H & _ & Ho); [|simpl; lia|eauto].
  apply Forall_cons. split; [simpl; lia|]. apply Forall_replicate. simpl. lia.
Defined.

Lemma allocproc_slot_unprotected_witness :
  exists m1, allocproc_scan demo_page = Done (Some 1%nat) (with_mach m1 demo_page).
Proof.
  destruct (allocproc_slot_unprotected demo_exe demo_exe demo_page 1 demo_on eq_refl) as (m1 & H & _). eauto.
Defined.

Lemma join_after_failed_create_sleeps_witness :
  exists s1 s2 k, kthread_create 0x40 0x2000 (demo demo_exe ∅ RUNNING RUNNING) = Done (-1) s1 /\
    kthread_join 1 2 s1 = Switch s2 k.
Proof.
  destruct (join_after_failed_create_sleeps 0 demo_exe (demo demo_exe ∅ RUNNING RUNNING) 0 0 2 PTABLE_LOCK _ _ 0x40 0x2000
    demo_on eq_refl eq_refl demo_nomem eq_refl eq_refl eq_refl ltac:(discriminate) eq_refl eq_refl eq_refl eq_refl)
    as (s1 & s2 & k & H1 & H2 & _). eauto.
Defined.
