(* ===== verification/Mutex.v ===== *)
(** * Kernel-thread mutexes (kthread_mutex_* of proc.c, kthread_mutex.h)

    A table of [MAX_MUTEXES] mutexes, each allocated to the process that marks
    it in [mid] and locked by a thread of that process.  A thread that finds
    the mutex locked sets its flag [blocked] and sleeps on the mutex; unlocking
    hands the mutex to the first blocked thread after the caller, in the
    cyclic order of the process's threads, and only frees it when there is
    none. *)
From S2P Require Import Prelude Mmu Str Spinlock Kalloc Proc Exec Sched.

Section Operations.
Context {E : Type}.
Implicit Types (s : kstate E).

Definition set_mutex (i : nat) (m : kthread_mutex) (s : kstate E) : kstate E :=
  set_k_mutex (<[i := m]> (k_mutex s)) s.
Definition set_mid (p i : nat) (v : Z) (s : kstate E) : kstate E :=
  upd_proc p (fun q => set_p_mid (<[i := v]> (p_mid q)) q) s.
Definition the_mid (p i : nat) (s : kstate E) : Z := default 0 (p_mid (the_proc p s) !! i).

Definition kthread_mutex_alloc : M (kstate E) Z :=
  curproc <~ myproc ;;
  kacquire MTABLE_LOCK ;;;
  ms <~ gets k_mutex ;;
  match find_idx (fun m => mx_allocated m =? 0) ms with
  | Some i =>
      modify (set_mutex i (mkMutex 0 1 curproc (-1))) ;;;
      kacquire PTABLE_LOCK ;;;
      p <~ deref curproc ;;
      modify (set_mid p i 1) ;;;
      krelease PTABLE_LOCK ;;;
      krelease MTABLE_LOCK ;;;
      ret (Z.of_nat i)
  | None => krelease MTABLE_LOCK ;;; ret (-1)
  end.

Definition bad_id (mutex_id : Z) : bool := (mutex_id <? 0) || (Z.of_nat MAX_MUTEXES <=? mutex_id).

Definition kthread_mutex_dealloc (mutex_id : Z) : M (kstate E) Z :=
  if bad_id mutex_id then ret (-1)
  else
    curproc <~ myproc ;;
    kacquire MTABLE_LOCK ;;;
    let i := Z.to_nat mutex_id in
    m <~ gets (the_mutex i) ;;
    if mx_allocated m =? 0 then krelease MTABLE_LOCK ;;; ret (-1)
    else
      kacquire PTABLE_LOCK ;;;
      p <~ deref curproc ;;
      mine <~ gets (the_mid p i) ;;
      if mine =? 0 then
        krelease PTABLE_LOCK ;;; krelease MTABLE_LOCK ;;; ret (-1)
      else
        krelease PTABLE_LOCK ;;;
        m <~ gets (the_mutex i) ;;
        if mx_locked m =? 1 then krelease MTABLE_LOCK ;;; ret (-1)
        else
          modify (set_mutex i (mkMutex 0 0 None (-1))) ;;;
          kacquire PTABLE_LOCK ;;;
          modify (set_mid p i 0) ;;;
          krelease PTABLE_LOCK ;;;
          krelease MTABLE_LOCK ;;;
          ret 0.

(** The end of [kthread_mutex_lock]: the thread must not be blocked any more;
    it takes the mutex. *)
Definition mutex_take (p : nat) (t : nat * nat) (i : nat) : M (kstate E) Z :=
  lk <~ gets (fun s => p_ttlock (the_proc p s)) ;;
  lk <~ deref lk ;;
  kacquire lk ;;;
  b <~ gets (fun s => th_blocked (the_thread t s)) ;;
  if b =? 1 then
    krelease lk ;;; krelease MTABLE_LOCK ;;; panic "Thread is Blocked"
  else
    krelease lk ;;;
    tid <~ gets (fun s => th_tid (the_thread t s)) ;;
    modify (fun s => let m := the_mutex i s in set_mutex i (mkMutex 1 (mx_allocated m) (mx_name m) tid) s) ;;;
    krelease MTABLE_LOCK ;;;
    ret 0.

Definition kthread_mutex_lock (mutex_id : Z) : M (kstate E) Z :=
  if bad_id mutex_id then ret (-1)
  else
    curproc <~ myproc ;;
    curthread <~ mythread ;;
    kacquire MTABLE_LOCK ;;;
    let i := Z.to_nat mutex_id in
    m <~ gets (the_mutex i) ;;
    if mx_allocated m =? 0 then krelease MTABLE_LOCK ;;; ret (-1)
    else
      kacquire PTABLE_LOCK ;;;
      p <~ deref curproc ;;
      mine <~ gets (the_mid p i) ;;
      if mine =? 0 then
        krelease PTABLE_LOCK ;;; krelease MTABLE_LOCK ;;; ret (-1)
      else
        krelease PTABLE_LOCK ;;;
        m <~ gets (the_mutex i) ;;
        t <~ deref curthread ;;
        tid <~ gets (fun s => th_tid (the_thread t s)) ;;
        if mx_tid m =? tid then krelease MTABLE_LOCK ;;; ret (-1)
        else
          lk <~ gets (fun s => p_ttlock (the_proc p s)) ;;
          when (mx_locked m =? 1)
            (lk <~ deref lk ;;
             kacquire lk ;;;
             modify (upd_thread t (set_blocked 1)) ;;;
             krelease lk ;;;
             sleep (CMutex i) (Some MTABLE_LOCK)) ;;;
          mutex_take p t i.

(** The search of [kthread_mutex_unlock]: the pointer [t] starts after the
    current thread and wraps at the end of the array. *)
Definition next_thread (t : nat) : nat := if Nat.eqb (S t) NTHREAD then 0%nat else S t.
Definition waits_for (i : nat) (t : thread) : bool :=
  (th_blocked t =? 1) && bool_decide (th_chan t = CMutex i).
Fixpoint find_waiter (fuel i : nat) (ts : list thread) (cur t : nat) : option nat :=
  match fuel with
  | O => None
  | S fuel =>
      if Nat.eqb t cur then None
      else if waits_for i (default thread0 (ts !! t)) then Some t
      else find_waiter fuel i ts cur (next_thread t)
  end.

Definition kthread_mutex_unlock (mutex_id : Z) : M (kstate E) Z :=
  if bad_id mutex_id then ret (-1)
  else
    curproc <~ myproc ;;
    curthread <~ mythread ;;
    kacquire MTABLE_LOCK ;;;
    let i := Z.to_nat mutex_id in
    m <~ gets (the_mutex i) ;;
    if mx_allocated m =? 0 then krelease MTABLE_LOCK ;;; ret (-1)
    else
      kacquire PTABLE_LOCK ;;;
      p <~ deref curproc ;;
      mine <~ gets (the_mid p i) ;;
      if mine =? 0 then
        krelease PTABLE_LOCK ;;; krelease MTABLE_LOCK ;;; ret (-1)
      else
        krelease PTABLE_LOCK ;;;
        t <~ deref curthread ;;
        m <~ gets (the_mutex i) ;;
        tid <~ gets (fun s => th_tid (the_thread t s)) ;;
        if negb (tid =? mx_tid m) then krelease MTABLE_LOCK ;;; ret (-1)
        else
          lk <~ gets (fun s => p_ttlock (the_proc p s)) ;;
          lk <~ deref lk ;;
          kacquire lk ;;;
          ts <~ gets (fun s => p_threads (the_proc p s)) ;;
          match find_waiter NTHREAD i ts t.2 (next_thread t.2) with
          | Some w =>
              modify (upd_thread (p, w) (fun th => set_blocked 0 (set_state RUNNABLE (set_chan CNull th)))) ;;;
              wtid <~ gets (fun s => th_tid (the_thread (p, w) s)) ;;
              modify (fun s => let m := the_mutex i s in
                               set_mutex i (mkMutex (mx_locked m) (mx_allocated m) (mx_name m) wtid) s) ;;;
              krelease lk ;;;
              krelease MTABLE_LOCK ;;;
              ret 0
          | None =>
              krelease lk ;;;
              modify (fun s => let m := the_mutex i s in
                               set_mutex i (mkMutex 0 (mx_allocated m) (mx_name m) (-1)) s) ;;;
              krelease MTABLE_LOCK ;;;
              ret 0
          end.

(** [mutex_tid]: the debugging call reads the table at any index. *)
Definition mutex_tid (mid : Z) (s : kstate E) : option Z :=
  if bad_id mid then None else Some (mx_tid (the_mutex (Z.to_nat mid) s)).

End Operations.

Section Facts.
Context {E : Type}.
Implicit Types (s : kstate E) (x : exe).

Lemma set_mutex_mach i m mm s : set_mutex i m (with_mach mm s) = with_mach mm (set_mutex i m s).
Proof. reflexivity. Qed.
Lemma set_mid_mach p i v mm s : set_mid p i v (with_mach mm s) = with_mach mm (set_mid p i v s).
Proof. reflexivity. Qed.
Lemma the_mutex_mach i mm s : the_mutex i (with_mach mm s) = the_mutex i s.
Proof. reflexivity. Qed.
Lemma the_mid_mach p i mm s : the_mid p i (with_mach mm s) = the_mid p i s.
Proof. reflexivity. Qed.
Lemma the_mutex_upd_proc i p f s : the_mutex i (upd_proc p f s) = the_mutex i s.
Proof. reflexivity. Qed.
Lemma the_mutex_upd_thread i t f s : the_mutex i (upd_thread t f s) = the_mutex i s.
Proof. reflexivity. Qed.
Lemma the_proc_set_mutex i m p s : the_proc p (set_mutex i m s) = the_proc p s.
Proof. reflexivity. Qed.
Lemma the_thread_set_mutex i m t s : the_thread t (set_mutex i m s) = the_thread t s.
Proof. reflexivity. Qed.
#[local] Hint Rewrite set_mutex_mach set_mid_mach the_mutex_mach the_mid_mach the_mutex_upd_proc
  the_mutex_upd_thread the_proc_set_mutex the_thread_set_mutex : kstate.

(** The locks of the mutex operations. *)
Lemma locks_pm : ({[PTABLE_LOCK]} ∪ {[MTABLE_LOCK]}) ∖ {[PTABLE_LOCK]} = ({[MTABLE_LOCK]} : gset nat).
Proof. apply set_eq. intros a. unfold PTABLE_LOCK, MTABLE_LOCK. set_solver. Qed.

(** Taking and giving back [ptable.lock] around a read or a write, with
    [mtable.lock] held. *)
Lemma acquire_ptable x s (Q : unit -> kstate E -> Prop) :
  mst x {[MTABLE_LOCK]} (k_mach s) ->
  (forall m', mst x ({[PTABLE_LOCK]} ∪ {[MTABLE_LOCK]}) m' -> Q tt (with_mach m' s)) ->
  total (kacquire PTABLE_LOCK) s Q.
Proof.
  intros Hm HQ. eapply kacquire_total; [exact Hm|unfold PTABLE_LOCK, MTABLE_LOCK; kset|kset|exact HQ].
Qed.
Lemma release_ptable x s (Q : unit -> kstate E -> Prop) :
  mst x ({[PTABLE_LOCK]} ∪ {[MTABLE_LOCK]}) (k_mach s) ->
  (forall m', mst x {[MTABLE_LOCK]} m' -> Q tt (with_mach m' s)) -> total (krelease PTABLE_LOCK) s Q.
Proof.
  intros Hm HQ. eapply krelease_total; [exact Hm|kset|]. intros m' H'. rewrite locks_pm in H'. auto.
Qed.
Lemma acquire_mtable x s (Q : unit -> kstate E -> Prop) :
  mst x ∅ (k_mach s) -> (forall m', mst x {[MTABLE_LOCK]} m' -> Q tt (with_mach m' s)) ->
  total (kacquire MTABLE_LOCK) s Q.
Proof.
  intros Hm HQ. eapply kacquire_total; [exact Hm|kset|kset|]. intros m' H'. rewrite union_empty_r_L in H'. auto.
Qed.
Lemma release_mtable x s (Q : unit -> kstate E -> Prop) :
  mst x {[MTABLE_LOCK]} (k_mach s) -> (forall m', mst x ∅ m' -> Q tt (with_mach m' s)) ->
  total (krelease MTABLE_LOCK) s Q.
Proof.
  intros Hm HQ. eapply krelease_total; [exact Hm|kset|]. intros m' H'. rewrite difference_diag_L in H'. auto.
Qed.

Lemma take_free x s p t i q th (Q : Z -> kstate E -> Prop) :
  mst x {[MTABLE_LOCK]} (k_mach s) -> k_procs s !! p = Some q -> p_ttlock q = Some PTABLE_LOCK ->
  at_thread s t th -> th_blocked th <> 1 ->
  (forall m', mst x ∅ m' -> Q 0 (with_mach m'
     (set_mutex i (mkMutex 1 (mx_allocated (the_mutex i s)) (mx_name (the_mutex i s)) (th_tid th)) s))) ->
  total (mutex_take p t i) s Q.
Proof.
  intros Hm Hq Hlk Hat Hb HQ. apply Z.eqb_neq in Hb. unfold mutex_take. kgo.
  rewrite (the_proc_lookup _ _ _ Hq), Hlk. kgo.
  eapply acquire_ptable; [exact Hm|]. intros m1 H1. kgo. autorewrite with kstate.
  rewrite (the_thread_at _ _ _ Hat), Hb. kgo. eapply release_ptable; [exact H1|]. intros m2 H2. kgo.
  eapply release_mtable; [exact H2|]. intros m3 H3. kgo. autorewrite with kstate.
  rewrite (the_thread_at _ _ _ Hat). now apply HQ.
Qed.

Lemma take_blocked x s p t i q th :
  mst x {[MTABLE_LOCK]} (k_mach s) -> k_procs s !! p = Some q -> p_ttlock q = Some PTABLE_LOCK ->
  at_thread s t th -> th_blocked th = 1 -> mutex_take p t i s = Crash "Thread is Blocked".
Proof.
  intros Hm Hq Hlk Hat Hb. unfold mutex_take.
  apply run_bind, total_gets. rewrite (the_proc_lookup _ _ _ Hq), Hlk. apply run_bind, total_ret.
  apply run_bind. eapply acquire_ptable; [exact Hm|]. intros m1 H1. apply run_bind, total_gets.
  autorewrite with kstate. rewrite (the_thread_at _ _ _ Hat), Hb, Z.eqb_refl.
  apply run_bind. eapply release_ptable; [exact H1|]. intros m2 H2.
  apply run_bind. eapply release_mtable; [exact H2|]. reflexivity.
Qed.

(** The thread that calls, with its process. *)
Definition caller (x : exe) (s : kstate E) (p i : nat) (q : proc) (th : thread) : Prop :=
  x_proc x = Some p /\ x_thread x = Some (p, i) /\ k_procs s !! p = Some q /\ p_ttlock q = Some PTABLE_LOCK /\
  p_threads q !! i = Some th.

(** A mutex the caller's process may use. *)
Definition usable (s : kstate E) (p id : nat) : bool :=
  negb (mx_allocated (the_mutex id s) =? 0) && negb (the_mid p id s =? 0).

Lemma id_ok id : (id < MAX_MUTEXES)%nat -> bad_id (Z.of_nat id) = false.
Proof. unfold bad_id, MAX_MUTEXES. lia. Qed.

Lemma lock_rejects x s p i q th id (Q : Z -> kstate E -> Prop) :
  mst x ∅ (k_mach s) -> caller x s p i q th -> (id < MAX_MUTEXES)%nat ->
  usable s p id = false \/ mx_tid (the_mutex id s) = th_tid th ->
  (forall m', mst x ∅ m' -> Q (-1) (with_mach m' s)) -> total (kthread_mutex_lock (Z.of_nat id)) s Q.
Proof.
  intros Hm (Hp & Ht & Hq & Hlk & Hth) Hid Hrej HQ. unfold kthread_mutex_lock. rewrite (id_ok id Hid), Nat2Z.id.
  krun myproc_total; [kset|]. intros m1 H1. krun mythread_total; [kset|]. intros m2 H2. kgo.
  eapply acquire_mtable; [exact H2|]. intros m3 H3. kgo. autorewrite with kstate. unfold usable in Hrej.
  destruct (mx_allocated (the_mutex id s) =? 0).
  { kgo. eapply release_mtable; [exact H3|]. intros m4 H4. kgo. now apply HQ. }
  kgo. eapply acquire_ptable; [exact H3|]. intros m4 H4. kgo. autorewrite with kstate.
  destruct (the_mid p id s =? 0).
  { kgo. eapply release_ptable; [exact H4|]. intros m5 H5. kgo. eapply release_mtable; [exact H5|].
    intros m6 H6. kgo. now apply HQ. }
  destruct Hrej as [Hrej|Hrej]; [discriminate|].
  kgo. eapply release_ptable; [exact H4|]. intros m5 H5. kgo. autorewrite with kstate.
  rewrite (the_thread_at (p, i) s th), Hrej, Z.eqb_refl by now exists q. kgo.
  eapply release_mtable; [exact H5|]. intros m6 H6. kgo. now apply HQ.
Qed.

(** The part of [kthread_mutex_lock] up to the test of [locked]. *)
Definition lock_wait (p i id : nat) : M (kstate E) unit :=
  lk <~ deref (Some PTABLE_LOCK) ;;
  kacquire lk ;;; modify (upd_thread (p, i) (set_blocked 1)) ;;; krelease lk ;;;
  sleep (CMutex id) (Some MTABLE_LOCK).

Lemma lock_passes x s p i q th id (P : prog (kstate E) Z -> Prop) :
  mst x ∅ (k_mach s) -> caller x s p i q th -> (id < MAX_MUTEXES)%nat ->
  usable s p id = true -> mx_tid (the_mutex id s) <> th_tid th ->
  (forall m', mst x {[MTABLE_LOCK]} m' ->
     P ((when (mx_locked (the_mutex id s) =? 1) (lock_wait p i id) ;;; mutex_take p (p, i) id) (with_mach m' s))) ->
  P (kthread_mutex_lock (Z.of_nat id) s).
Proof.
  intros Hm (Hp & Ht & Hq & Hlk & Hth) Hid Huse Htid HR. unfold kthread_mutex_lock. rewrite (id_ok id Hid), Nat2Z.id.
  unfold usable in Huse. apply andb_true_iff in Huse as [Ha Hmid]. apply negb_true_iff in Ha, Hmid.
  apply Z.eqb_neq in Htid.
  apply (run_bindP P). eapply myproc_total; [exact Hm|kset|]. intros m1 H1. rewrite Hp.
  apply (run_bindP P). eapply mythread_total; [exact H1|kset|]. intros m2 H2. rewrite Ht.
  apply (run_bindP P). eapply acquire_mtable; [exact H2|]. intros m3 H3.
  apply (run_bindP P), total_gets. autorewrite with kstate. rewrite Ha.
  apply (run_bindP P). eapply acquire_ptable; [exact H3|]. intros m4 H4.
  apply (run_bindP P), total_ret. apply (run_bindP P), total_gets. autorewrite with kstate. rewrite Hmid.
  apply (run_bindP P). eapply release_ptable; [exact H4|]. intros m5 H5.
  apply (run_bindP P), total_gets. apply (run_bindP P), total_ret. apply (run_bindP P), total_gets.
  autorewrite with kstate. rewrite (the_thread_at (p, i) s th), Htid by now exists q.
  apply (run_bindP P), total_gets. autorewrite with kstate. rewrite (the_proc_lookup _ _ _ Hq), Hlk. now apply HR.
Qed.

Definition taken (m : kthread_mutex) (tid : Z) : kthread_mutex := mkMutex 1 (mx_allocated m) (mx_name m) tid.

Lemma lock_takes x s p i q th id :
  mst x ∅ (k_mach s) -> caller x s p i q th -> (id < MAX_MUTEXES)%nat ->
  usable s p id = true -> mx_tid (the_mutex id s) <> th_tid th -> mx_locked (the_mutex id s) <> 1 -> th_blocked th <> 1 ->
  exists m', mst x ∅ m' /\
    kthread_mutex_lock (Z.of_nat id) s = Done 0 (with_mach m' (set_mutex id (taken (the_mutex id s) (th_tid th)) s)).
Proof.
  intros Hm Hc Hid Huse Htid Hl Hb. apply Z.eqb_neq in Hl. pose proof Hc as (Hp & Ht & Hq & Hlk & Hth).
  pattern (kthread_mutex_lock (Z.of_nat id) s).
  apply (lock_passes x s p i q th id _ Hm Hc Hid Huse Htid). intros m1 H1. rewrite Hl.
  enough (total (mutex_take p (p, i) id) (with_mach m1 s) (fun r s' => r = 0 /\ exists m', mst x ∅ m' /\
    s' = with_mach m' (set_mutex id (taken (the_mutex id s) (th_tid th)) s))) as Htot.
  { apply total_done in Htot as (r & s' & E1 & -> & m' & H' & ->). exists m'. split; [exact H'|exact E1]. }
  apply (take_free x (with_mach m1 s) p (p, i) id q th); [exact H1|exact Hq|exact Hlk|now exists q|exact Hb|].
  intros m' H'. split; [reflexivity|]. exists m'. split; [exact H'|reflexivity].
Qed.

(** What a thread does when it is scheduled again inside
    [kthread_mutex_lock]: it takes the mutex if it has been unblocked and
    panics if not. *)
Definition lock_cont (ie : bool) (p i id : nat) (k : kstate E -> prog (kstate E) Z) : Prop :=
  forall x2 s2 q2 th2, mst x2 {[PTABLE_LOCK]} (k_mach s2) -> k_procs s2 !! p = Some q2 ->
    p_ttlock q2 = Some PTABLE_LOCK -> p_threads q2 !! i = Some th2 ->
    (th_blocked th2 = 1 -> k s2 = Crash "Thread is Blocked") /\
    (th_blocked th2 <> 1 -> exists m3, mst (resume_exe x2 ie) ∅ m3 /\
       k s2 = Done 0 (with_mach m3 (set_mutex id (taken (the_mutex id s2) (th_tid th2))
                                      (upd_thread (p, i) (set_chan CNull) s2)))).

Lemma lock_resume x s p i id q th :
  mst x {[MTABLE_LOCK]} (k_mach s) -> k_procs s !! p = Some q -> p_ttlock q = Some PTABLE_LOCK ->
  p_threads q !! i = Some th ->
  (th_blocked th = 1 -> mutex_take p (p, i) id s = Crash "Thread is Blocked") /\
  (th_blocked th <> 1 -> exists m3, mst x ∅ m3 /\
     mutex_take p (p, i) id s = Done 0 (with_mach m3 (set_mutex id (taken (the_mutex id s) (th_tid th)) s))).
Proof.
  intros Hm Hq Hlk Hth. assert (Hat : at_thread s (p, i) th) by now exists q.
  split; intros Hb; [now apply (take_blocked x s p (p, i) id q th)|].
  enough (total (mutex_take p (p, i) id) s (fun r s4 => r = 0 /\ exists m4, mst x ∅ m4 /\
    s4 = with_mach m4 (set_mutex id (taken (the_mutex id s) (th_tid th)) s))) as Htot.
  { apply total_done in Htot as (r & s4 & E4 & -> & m4 & H4 & ->). eauto. }
  apply (take_free x s p (p, i) id q th _ Hm Hq Hlk Hat Hb).
  intros m4 H4. split; [reflexivity|]. exists m4. split; [exact H4|reflexivity].
Qed.

Lemma lock_wait_yields x s p i id q th :
  mst x {[MTABLE_LOCK]} (k_mach s) -> caller x s p i q th ->
  yields (lock_wait p i id ;;; mutex_take p (p, i) id) s (fun s' k =>
    (exists m', s' = with_mach m' (upd_proc p (fall_asleep p i (CMutex id)) (upd_thread (p, i) (set_blocked 1) s)) /\
       mst x {[PTABLE_LOCK]} m') /\ lock_cont (x_ie x) p i id k).
Proof.
  intros Hm (Hp & Ht & Hq & Hlk & Hth). apply yields_bind. unfold lock_wait. kgo.
  apply yields_bind_total. eapply acquire_ptable; [exact Hm|]. intros m1 H1. kgo.
  apply yields_bind_total. eapply release_ptable; [exact H1|]. intros m2 H2. autorewrite with kstate.
  set (s1 := upd_thread (p, i) (set_blocked 1) s).
  assert (Hq1 : k_procs (with_mach m2 s1) !! p = Some (on_thread i (set_blocked 1) q)).
  { unfold s1, upd_thread, upd_proc. simpl. now rewrite list_lookup_alter_eq, Hq. }
  eapply yields_mono; [|eapply (sleep_yields x (with_mach m2 s1) p i); [exact H2|done|done|exact Hq1|apply lookup_on_thread, Hth]].
  intros s' k ((m' & -> & Hm') & Hk). split; [exists m'; split; [reflexivity|exact Hm']|].
  intros x2 s2 q2 th2 H2' Hq2 Hlk2 Hth2.
  destruct (total_done _ _ _ (Hk x2 s2 H2')) as ([] & s3 & -> & m3 & -> & H3). cbn [prog_bind].
  set (s4 := with_mach m3 (upd_thread (p, i) (set_chan CNull) s2)).
  assert (Hq4 : k_procs s4 !! p = Some (on_thread i (set_chan CNull) q2)).
  { unfold s4, upd_thread, upd_proc. simpl. now rewrite list_lookup_alter_eq, Hq2. }
  exact (lock_resume (resume_exe x2 (x_ie x)) s4 p i id _ _ H3 Hq4 Hlk2 (lookup_on_thread i _ q2 th2 Hth2)).
Qed.

(** Waiting: the thread sleeps on the mutex with [blocked] set. *)
Lemma lock_waits x s p i q th id :
  mst x ∅ (k_mach s) -> caller x s p i q th -> (id < MAX_MUTEXES)%nat ->
  usable s p id = true -> mx_tid (the_mutex id s) <> th_tid th -> mx_locked (the_mutex id s) = 1 ->
  exists m' k, mst x {[PTABLE_LOCK]} m' /\
    kthread_mutex_lock (Z.of_nat id) s =
      Switch (with_mach m' (upd_proc p (fall_asleep p i (CMutex id)) (upd_thread (p, i) (set_blocked 1) s))) k /\
    lock_cont (x_ie x) p i id k.
Proof.
  intros Hm Hc Hid Huse Htid Hl. pattern (kthread_mutex_lock (Z.of_nat id) s).
  apply (lock_passes x s p i q th id _ Hm Hc Hid Huse Htid). intros m1 H1. rewrite Hl. cbn [when Z.eqb Pos.eqb].
  destruct (yields_switch _ _ _ (lock_wait_yields x (with_mach m1 s) p i id q th H1 Hc))
    as (s' & k & -> & (m' & -> & Hm') & Hk). eauto.
Qed.

(** ** Unlocking *)
Definition handed (m : kthread_mutex) (tid : Z) : kthread_mutex := mkMutex (mx_locked m) (mx_allocated m) (mx_name m) tid.
Definition freed (m : kthread_mutex) : kthread_mutex := mkMutex 0 (mx_allocated m) (mx_name m) (-1).
Definition granted (t : thread) : thread := set_blocked 0 (set_state RUNNABLE (set_chan CNull t)).
Definition waiter (id i : nat) (q : proc) : option nat := find_waiter NTHREAD id (p_threads q) i (next_thread i).

Definition unlocked (p i id : nat) (q : proc) (s : kstate E) : kstate E :=
  match waiter id i q with
  | Some w => set_mutex id (handed (the_mutex id s) (th_tid (default thread0 (p_threads q !! w))))
                (upd_thread (p, w) granted s)
  | None => set_mutex id (freed (the_mutex id s)) s
  end.

Lemma find_waiter_Some fuel id ts cur t w :
  find_waiter fuel id ts cur t = Some w ->
  w <> cur /\ exists th, ts !! w = Some th /\ waits_for id th = true.
Proof.
  revert t. induction fuel as [|fuel IH]; intros t; simpl; [discriminate|].
  destruct (Nat.eqb_spec t cur) as [|Hne]; [discriminate|].
  destruct (waits_for id (default thread0 (ts !! t))) eqn:Hw; [|apply IH].
  intros [= <-]. split; [done|]. destruct (ts !! t) as [th|]; [eauto|discriminate].
Qed.

Lemma unlock_rejects x s p i q th id (Q : Z -> kstate E -> Prop) :
  mst x ∅ (k_mach s) -> caller x s p i q th -> (id < MAX_MUTEXES)%nat ->
  usable s p id = false \/ th_tid th <> mx_tid (the_mutex id s) ->
  (forall m', mst x ∅ m' -> Q (-1) (with_mach m' s)) -> total (kthread_mutex_unlock (Z.of_nat id)) s Q.
Proof.
  intros Hm (Hp & Ht & Hq & Hlk & Hth) Hid Hrej HQ. unfold kthread_mutex_unlock. rewrite (id_ok id Hid), Nat2Z.id.
  krun myproc_total; [kset|]. intros m1 H1. krun mythread_total; [kset|]. intros m2 H2. kgo.
  eapply acquire_mtable; [exact H2|]. intros m3 H3. kgo. autorewrite with kstate. unfold usable in Hrej.
  destruct (mx_allocated (the_mutex id s) =? 0).
  { kgo. eapply release_mtable; [exact H3|]. intros m4 H4. kgo. now apply HQ. }
  kgo. eapply acquire_ptable; [exact H3|]. intros m4 H4. kgo. autorewrite with kstate.
  destruct (the_mid p id s =? 0).
  { kgo. eapply release_ptable; [exact H4|]. intros m5 H5. kgo. eapply release_mtable; [exact H5|].
    intros m6 H6. kgo. now apply HQ. }
  destruct Hrej as [Hrej|Hrej]; [discriminate|]. apply Z.eqb_neq in Hrej.
  kgo. eapply release_ptable; [exact H4|]. intros m5 H5. kgo. autorewrite with kstate.
  rewrite (the_thread_at (p, i) s th), Hrej by now exists q. cbn [negb]. kgo.
  eapply release_mtable; [exact H5|]. intros m6 H6. kgo. now apply HQ.
Qed.

Lemma unlock_runs x s p i q th id (Q : Z -> kstate E -> Prop) :
  mst x ∅ (k_mach s) -> caller x s p i q th -> (id < MAX_MUTEXES)%nat ->
  usable s p id = true -> th_tid th = mx_tid (the_mutex id s) ->
  (forall m', mst x ∅ m' -> Q 0 (with_mach m' (unlocked p i id q s))) -> total (kthread_mutex_unlock (Z.of_nat id)) s Q.
Proof.
  intros Hm (Hp & Ht & Hq & Hlk & Hth) Hid Huse Htid HQ. unfold kthread_mutex_unlock. rewrite (id_ok id Hid), Nat2Z.id.
  unfold usable in Huse. apply andb_true_iff in Huse as [Ha Hmid]. apply negb_true_iff in Ha, Hmid.
  krun myproc_total; [kset|]. intros m1 H1. krun mythread_total; [kset|]. intros m2 H2. kgo.
  eapply acquire_mtable; [exact H2|]. intros m3 H3. kgo. autorewrite with kstate. rewrite Ha.
  kgo. eapply acquire_ptable; [exact H3|]. intros m4 H4. kgo. autorewrite with kstate. rewrite Hmid.
  kgo. eapply release_ptable; [exact H4|]. intros m5 H5. kgo. autorewrite with kstate.
  rewrite (the_thread_at (p, i) s th), Htid, Z.eqb_refl by now exists q. cbn [negb]. kgo. autorewrite with kstate.
  rewrite (the_proc_lookup _ _ _ Hq), Hlk. kgo.
  eapply acquire_ptable; [exact H5|]. intros m6 H6. kgo. autorewrite with kstate.
  rewrite (the_proc_lookup _ _ _ Hq). cbn [fst snd].
  change (find_waiter NTHREAD id (p_threads q) i (next_thread i)) with (waiter id i q). unfold unlocked in HQ.
  destruct (waiter id i q) as [w|] eqn:Hw; kgo.
  - destruct (find_waiter_Some _ _ _ _ _ _ Hw) as (_ & thw & Hthw & _). rewrite Hthw in HQ. simpl in HQ.
    eapply release_ptable; [exact H6|]. intros m7 H7. kgo. eapply release_mtable; [exact H7|]. intros m8 H8. kgo.
    autorewrite with kstate. rewrite (the_thread_upd _ _ _ thw) by now exists q. exact (HQ m8 H8).
  - eapply release_ptable; [exact H6|]. intros m7 H7. kgo. eapply release_mtable; [exact H7|]. intros m8 H8. kgo.
    autorewrite with kstate. exact (HQ m8 H8).
Qed.

(** ** The order in which [kthread_mutex_unlock] looks at the threads *)
Definition cyclic (i : nat) : list nat := seq (S i) (NTHREAD - S i) ++ seq 0 i.

Lemma waiter_order id i q :
  (i < NTHREAD)%nat ->
  waiter id i q = find (fun t => waits_for id (default thread0 (p_threads q !! t))) (cyclic i).
Proof.
  unfold waiter, NTHREAD. intros Hi. generalize (p_threads q). intros ts.
  do 16 (destruct i as [|i]; [reflexivity|]). lia.
Qed.

Lemma waiter_None id i q w :
  (i < NTHREAD)%nat -> length (p_threads q) = NTHREAD -> waiter id i q = None -> w <> i ->
  waits_for id (default thread0 (p_threads q !! w)) = false.
Proof.
  intros Hi Hlen Hw Hne. rewrite waiter_order in Hw by done.
  destruct (decide (w < NTHREAD)%nat) as [Hlt|Hge].
  - eapply (find_none _ _ Hw). apply in_or_app. rewrite !in_seq. lia.
  - rewrite lookup_ge_None_2 by lia. reflexivity.
Qed.

(** ** Allocation *)
Definition fresh (p : nat) : kthread_mutex := mkMutex 0 1 (Some p) (-1).
Definition unallocated (m : kthread_mutex) : bool := mx_allocated m =? 0.

Lemma alloc_runs x s p i q th (Q : Z -> kstate E -> Prop) :
  mst x ∅ (k_mach s) -> caller x s p i q th ->
  match find_idx unallocated (k_mutex s) with
  | Some id => forall m', mst x ∅ m' -> Q (Z.of_nat id) (with_mach m' (set_mid p id 1 (set_mutex id (fresh p) s)))
  | None => forall m', mst x ∅ m' -> Q (-1) (with_mach m' s)
  end -> total kthread_mutex_alloc s Q.
Proof.
  intros Hm (Hp & Ht & Hq & Hlk & Hth) HQ. unfold kthread_mutex_alloc.
  krun myproc_total; [kset|]. intros m1 H1. kgo. eapply acquire_mtable; [exact H1|]. intros m2 H2. kgo.
  change (find_idx _ _) with (find_idx unallocated (k_mutex s)).
  destruct (find_idx unallocated (k_mutex s)) as [id|]; kgo.
  - eapply acquire_ptable; [exact H2|]. intros m3 H3. kgo. eapply release_ptable; [exact H3|]. intros m4 H4. kgo.
    eapply release_mtable; [exact H4|]. intros m5 H5. kgo. autorewrite with kstate. rewrite Hp. exact (HQ m5 H5).
  - eapply release_mtable; [exact H2|]. intros m3 H3. kgo. exact (HQ m3 H3).
Qed.

Definition dropped : kthread_mutex := mkMutex 0 0 None (-1).

Lemma dealloc_runs x s p i q th id (Q : Z -> kstate E -> Prop) :
  mst x ∅ (k_mach s) -> caller x s p i q th -> (id < MAX_MUTEXES)%nat ->
  (if usable s p id && negb (mx_locked (the_mutex id s) =? 1)
   then forall m', mst x ∅ m' -> Q 0 (with_mach m' (set_mid p id 0 (set_mutex id dropped s)))
   else forall m', mst x ∅ m' -> Q (-1) (with_mach m' s)) ->
  total (kthread_mutex_dealloc (Z.of_nat id)) s Q.
Proof.
  intros Hm (Hp & Ht & Hq & Hlk & Hth) Hid HQ. unfold kthread_mutex_dealloc. rewrite (id_ok id Hid), Nat2Z.id.
  krun myproc_total; [kset|]. intros m1 H1. kgo. eapply acquire_mtable; [exact H1|]. intros m3 H3. kgo.
  autorewrite with kstate. unfold usable in HQ. destruct (mx_allocated (the_mutex id s) =? 0).
  { kgo. eapply release_mtable; [exact H3|]. intros m4 H4. kgo. now apply HQ. }
  kgo. eapply acquire_ptable; [exact H3|]. intros m4 H4. kgo. autorewrite with kstate.
  destruct (the_mid p id s =? 0).
  { kgo. eapply release_ptable; [exact H4|]. intros m5 H5. kgo. eapply release_mtable; [exact H5|].
    intros m6 H6. kgo. now apply HQ. }
  kgo. eapply release_ptable; [exact H4|]. intros m5 H5. kgo. autorewrite with kstate. simpl in HQ.
  destruct (mx_locked (the_mutex id s) =? 1); kgo.
  - eapply release_mtable; [exact H5|]. intros m6 H6. kgo. now apply HQ.
  - eapply acquire_ptable; [exact H5|]. intros m6 H6. kgo. eapply release_ptable; [exact H6|]. intros m7 H7. kgo.
    eapply release_mtable; [exact H7|]. intros m8 H8. kgo. autorewrite with kstate. now apply HQ.
Qed.

End Facts.
