(* ===== verification/Trap.v ===== *)
(** * System calls and traps (sysproc.c, syscall.c, trap.c)

    The system calls on processes, threads and mutexes, the table of system
    calls and its dispatch, and the handler of traps and interrupts.  Messages
    on the console are left out.  The handlers of the disk, of the keyboard and
    of the serial line are an argument, the interface [Interrupts]. *)
From S2P Require Import Prelude Mmu Str Spinlock Kalloc Vm Proc Exec Sched Store Apic Bio Log LogCrash Fs Pipe File Syscall SysFile Image Mutex.

Definition TICKS_LOCK : nat := 8%nat.
Definition TICKS_CHAN : chan := CObj 1001.

Class Interrupts := { ideintr : M kfs unit; kbdintr : M kfs unit; uartintr : M kfs unit }.

(** ** The interrupt table (trap.c)

    [vectors i] is the entry point of the vector [i], which the build generates
    with vectors.pl. *)
Definition set_gate (i : Z) (g : gatedesc) : M kfs unit :=
  upd_dev (fun d => set_idt (<[Z.to_nat i := g]> (dv_idt d)) d).
Definition tvinit (vectors : Z -> Z) : M kfs unit :=
  for_each (seqZ 0 256) (fun i => set_gate i (SETGATE false (Z.shiftl SEG_KCODE 3) (vectors i) 0)) ;;;
  set_gate T_SYSCALL (SETGATE true (Z.shiftl SEG_KCODE 3) (vectors T_SYSCALL) DPL_USER) ;;;
  on_cpus (initlock TICKS_LOCK "time").
Definition idtinit : M kfs unit :=
  on_cpus (modify (fun m => upd_cpu (m_cur m) (fun cp => let g := c_seg cp in
    set_seg (mkSeg (sg_ts g) (sg_gdt g) (sg_gdtr g) true (sg_tr g)) cp) m)).

Section Trap.
Context {W : Wait} {D : Devices} {I : Interrupts} (trapret forkret data init size : Z).
#[local] Instance kernel : KernelExt storage := storage_ext trapret forkret data init size.

(** ** sysproc.c *)
Definition sys_fork : M kfs Z := fork.
Definition sys_exit : M kfs Z := exit ;;; ret 0.
Definition sys_wait : M kfs Z := wait wait_bound.
(** A call whose only argument is an integer. *)
Definition with_int (f : Z -> M kfs Z) : M kfs Z :=
  a <~ argint 0 ;;
  match a with
  | None => ret (-1)
  | Some a => f a
  end.
Definition sys_kill : M kfs Z := with_int kill.
Definition sys_getpid : M kfs Z := mypid.
Definition sys_sbrk : M kfs Z :=
  with_int (fun n =>
    addr <~ mysz ;;
    r <~ growproc n ;;
    if r <? 0 then ret (-1) else ret (s32 addr)).

Fixpoint sys_sleep_loop (fuel : nat) (ticks0 n : Z) : M kfs Z :=
  ticks <~ getst st_ticks ;;
  if u32 (ticks - ticks0) <? u32 n then
    p <~ myproc ;;
    p <~ deref p ;;
    k <~ gets (fun s => p_killed (the_proc p s)) ;;
    if negb (k =? 0) then krelease TICKS_LOCK ;;; ret (-1)
    else
      match fuel with
      | O => fun _ => Spin
      | S fuel => sleep TICKS_CHAN (Some TICKS_LOCK) ;;; sys_sleep_loop fuel ticks0 n
      end
  else krelease TICKS_LOCK ;;; ret 0.
Definition sys_sleep : M kfs Z :=
  with_int (fun n =>
    kacquire TICKS_LOCK ;;;
    ticks0 <~ getst st_ticks ;;
    sys_sleep_loop wait_bound ticks0 n).
Definition sys_uptime : M kfs Z :=
  kacquire TICKS_LOCK ;;;
  xticks <~ getst st_ticks ;;
  krelease TICKS_LOCK ;;;
  ret (s32 xticks).

Definition sys_kthread_create : M kfs Z :=
  kstack <~ argint 1 ;;
  match kstack with
  | None => ret (-1)
  | Some kstack =>
      f <~ argint 0 ;;
      match f with
      | None => ret (-1)
      | Some f => kthread_create (u32 f) (u32 kstack)
      end
  end.
Definition sys_kthread_id : M kfs Z := kthread_id.
Definition sys_kthread_exit : M kfs Z := kthread_exit ;;; ret 0.
Definition sys_kthread_join : M kfs Z := with_int (kthread_join wait_bound).
Definition sys_kthread_mutex_alloc : M kfs Z := kthread_mutex_alloc.
Definition sys_kthread_mutex_dealloc : M kfs Z := with_int kthread_mutex_dealloc.
Definition sys_kthread_mutex_lock : M kfs Z := with_int kthread_mutex_lock.
Definition sys_kthread_mutex_unlock : M kfs Z := with_int kthread_mutex_unlock.
(** Reading outside the table of mutexes has no defined result. *)
Definition sys_mutex_tid : M kfs Z :=
  with_int (fun mid s => match mutex_tid mid s with Some t => Done t s | None => Crash "out of bounds" end).

(** ** syscall.c *)
Definition syscalls : list (option (M kfs Z)) :=
  None :: (Some <$>
    [sys_fork; sys_exit; sys_wait; sys_pipe; sys_read; sys_kill; sys_exec data; sys_fstat; sys_chdir; sys_dup;
     sys_getpid; sys_sbrk; sys_sleep; sys_uptime; sys_open; sys_write; sys_mknod; sys_unlink; sys_link; sys_mkdir;
     sys_close; sys_kthread_create; sys_kthread_id; sys_kthread_exit; sys_kthread_join; sys_kthread_mutex_alloc;
     sys_kthread_mutex_dealloc; sys_kthread_mutex_lock; sys_kthread_mutex_unlock; sys_mutex_tid]).
Definition set_eax (t : nat * nat) (v : Z) : M kfs unit :=
  modify (upd_thread t (fun th => set_frame (tf_set_eax (u32 v) (th_frame th)) th)).
Definition syscall : M kfs unit :=
  curthread <~ mythread ;;
  t <~ deref curthread ;;
  num <~ gets (fun s => s32 (tf_eax (th_frame (the_thread t s)))) ;;
  match (if 0 <? num then default None (syscalls !! Z.to_nat num) else None) with
  | Some call => r <~ call ;; set_eax t r
  | None => set_eax t (-1)
  end.

(** ** trap.c *)

Definition thread_killed : M kfs bool :=
  t <~ mythread ;;
  t <~ deref t ;;
  gets (fun s => negb (th_killed (the_thread t s) =? 0)).
Definition proc_killed : M kfs bool :=
  p <~ myproc ;;
  p <~ deref p ;;
  gets (fun s => negb (p_killed (the_proc p s) =? 0)).
(** The tests around a system call. *)
Definition exit_if_killed : M kfs unit :=
  k <~ thread_killed ;;
  when k kthread_exit ;;;
  k <~ proc_killed ;;
  when k exit.
(** The tests of the rest of [trap], where there may be no current thread and
    only user mode is left. *)
Definition exit_if_killed_user (tf : trapframe) : M kfs unit :=
  t <~ mythread ;;
  k <~ (if bool_decide (t = None) then ret false else thread_killed) ;;
  when (k && (Z.land (tf_cs tf) 3 =? DPL_USER)) kthread_exit ;;;
  p <~ myproc ;;
  k <~ (if bool_decide (p = None) then ret false else proc_killed) ;;
  when (k && (Z.land (tf_cs tf) 3 =? DPL_USER)) exit.

Definition clock_tick : M kfs unit :=
  c <~ on_cpus mycpu ;;
  when (c =? 0)%nat (
    kacquire TICKS_LOCK ;;;
    modst (fun st => set_ticks (u32 (st_ticks st + 1)) st) ;;;
    wakeup TICKS_CHAN ;;;
    krelease TICKS_LOCK).
(** The [default] case: a fault of the kernel is a panic, one of a process
    kills it. *)
Definition fault (tf : trapframe) : M kfs unit :=
  p <~ myproc ;;
  t <~ mythread ;;
  match p, t with
  | Some p, Some _ =>
      if Z.land (tf_cs tf) 3 =? 0 then panic "trap"
      else modify (upd_proc p (set_p_killed 1))
  | _, _ => panic "trap"
  end.
Definition interrupt (tf : trapframe) : M kfs unit :=
  let n := tf_trapno tf in
  if n =? T_IRQ0 + IRQ_TIMER then clock_tick ;;; lapiceoi
  else if n =? T_IRQ0 + IRQ_IDE then ideintr ;;; lapiceoi
  else if n =? T_IRQ0 + IRQ_IDE + 1 then ret tt
  else if n =? T_IRQ0 + IRQ_KBD then kbdintr ;;; lapiceoi
  else if n =? T_IRQ0 + IRQ_COM1 then uartintr ;;; lapiceoi
  else if (n =? T_IRQ0 + 7) || (n =? T_IRQ0 + IRQ_SPURIOUS) then lapiceoi
  else fault tf.
Definition yield_on_tick (tf : trapframe) : M kfs unit :=
  t <~ mythread ;;
  match t with
  | None => ret tt
  | Some t =>
      st <~ gets (fun s => th_state (the_thread t s)) ;;
      when (bool_decide (st = RUNNING) && (tf_trapno tf =? T_IRQ0 + IRQ_TIMER)) yield
  end.
(** [tfa] is the address of the frame on the kernel stack, [tf] its content. *)
Definition trap (tfa : Z) (tf : trapframe) : M kfs unit :=
  if tf_trapno tf =? T_SYSCALL then
    exit_if_killed ;;;
    t <~ mythread ;;
    t <~ deref t ;;
    modify (upd_thread t (fun th => set_frame tf (set_tf tfa th))) ;;;
    syscall ;;;
    exit_if_killed
  else
    interrupt tf ;;;
    exit_if_killed_user tf ;;;
    yield_on_tick tf ;;;
    exit_if_killed_user tf.
End Trap.
