(* ===== verification/Console.v ===== *)
(** * The console (console.c, kbd.c, uart.c, procdump of proc.c)

    Characters arrive from the keyboard and the serial line by interrupts and
    are edited in a ring; a reader takes whole lines from it.  Output goes to
    the screen and to the serial line.  Operations that do not sleep act on the
    [console] part of the state alone and are run on the kernel with [on_cons].

    The specification of the input side is a pair of lists, the characters a
    reader may take and the line being edited ([line_rep]). *)
From S2P Require Import Prelude Mmu Str Spinlock Kalloc Proc Exec Sched Store Apic Bio Ide Log LogCrash Fs Pipe Trap.

Definition CONSOLE : Z := 1.
Definition CONS_LOCK : nat := 9%nat.
Definition CONS_CHAN : chan := CObj 1002.
Definition BACKSPACE : Z := 0x100.
Definition NEWLINE : Z := 10.
(** [C(x)], the code of Control-x. *)
Definition Ctl (x : Z) : Z := x - 64.

Definition set_input (v : input) (c : console) : console :=
  mkConsole (c_locking c) (c_panicked c) v (c_crt c) (c_pos c) (c_port c) (c_uart c) (c_serial c) (c_shift c) (c_kbd c) (c_com c).
Definition set_screen (crt : list Z) (pos : Z) (c : console) : console :=
  mkConsole (c_locking c) (c_panicked c) (c_input c) crt pos (c_port c) (c_uart c) (c_serial c) (c_shift c) (c_kbd c) (c_com c).
Definition set_serial (v : list Z) (c : console) : console :=
  mkConsole (c_locking c) (c_panicked c) (c_input c) (c_crt c) (c_pos c) (c_port c) (c_uart c) v (c_shift c) (c_kbd c) (c_com c).
Definition set_uart (v : Z) (com : list Z) (c : console) : console :=
  mkConsole (c_locking c) (c_panicked c) (c_input c) (c_crt c) (c_pos c) (c_port c) v (c_serial c) (c_shift c) (c_kbd c) com.
Definition set_kbd (shift : Z) (kbd : list Z) (c : console) : console :=
  mkConsole (c_locking c) (c_panicked c) (c_input c) (c_crt c) (c_pos c) (c_port c) (c_uart c) (c_serial c) shift kbd (c_com c).
Definition set_flags (locking panicked : Z) (c : console) : console :=
  mkConsole locking panicked (c_input c) (c_crt c) (c_pos c) (c_port c) (c_uart c) (c_serial c) (c_shift c) (c_kbd c) (c_com c).

Definition on_cons {A} (m : M console A) : M kfs A :=
  zoom (fun s => st_cons (k_ext s)) (fun c => upd_store (set_cons c)) m.

(** ** uart.c

    [outb] sends the low byte; the wait for the transmitter changes nothing. *)
Definition uartputc (c : Z) : M console unit :=
  u <~ gets c_uart ;;
  if u =? 0 then ret tt
  else modify (fun k => set_serial (c_serial k ++ [u8 c]) k).
Definition uartgetc : M console Z :=
  u <~ gets c_uart ;;
  if u =? 0 then ret (-1)
  else
    com <~ gets c_com ;;
    match com with
    | [] => ret (-1)
    | c :: com => modify (set_uart u com) ;;; ret c
    end.
(** "xv6...\n" *)
Definition hello : list Z := [120; 118; 54; 46; 46; 46; 10].
Definition COM1 : Z := 0x3f8.
Definition uartinit : M kfs unit :=
  Apic.outb (COM1 + 2) 0 ;;;
  Apic.outb (COM1 + 3) 0x80 ;;;
  Apic.outb (COM1 + 0) (115200 / 9600) ;;;
  Apic.outb (COM1 + 1) 0 ;;;
  Apic.outb (COM1 + 3) 0x03 ;;;
  Apic.outb (COM1 + 4) 0 ;;;
  Apic.outb (COM1 + 1) 0x01 ;;;
  port <~ on_cons (gets c_port) ;;
  if negb port then ret tt
  else
    on_cons (modify (fun k => set_uart 1 (tail (c_com k)) k)) ;;;
    ioapicenable IRQ_COM1 0 ;;;
    for_each hello (fun c => on_cons (uartputc c)).

(** ** Output *)
(** [crt[i] = v]; what lies behind the 32 kilobytes is not a screen. *)
Definition crt_put (i v : Z) : M console unit :=
  fun k => if bool_decide (0 <= i < Z.of_nat (length (c_crt k)))
           then Done tt (set_screen (<[Z.to_nat i := v]> (c_crt k)) (c_pos k) k)
           else Crash "out of bounds".
(** [memmove(crt, crt+80, ...)] of 23 lines, and [memset(crt+pos, 0, ...)] up
    to the end of line 24. *)
Definition scroll (pos : Z) (crt : list Z) : list Z :=
  let crt := take (23 * 80) (drop 80 crt) ++ drop (23 * 80) crt in
  take (Z.to_nat pos) crt ++ replicate (Z.to_nat (24 * 80 - pos)) 0 ++ drop (24 * 80) crt.
Definition BLANK : Z := Z.lor 32 0x700.
Definition cgaputc (c : Z) : M console unit :=
  pos <~ gets c_pos ;;
  pos <~ (if c =? NEWLINE then ret (pos + (80 - pos mod 80))
          else if c =? BACKSPACE then ret (if 0 <? pos then pos - 1 else pos)
          else crt_put pos (Z.lor (Z.land c 0xff) 0x700) ;;; ret (pos + 1)) ;;
  if (pos <? 0) || (25 * 80 <? pos) then panic "pos under/overflow"
  else
    pos <~ (if 24 <=? pos / 80 then
              modify (fun k => set_screen (scroll (pos - 80) (c_crt k)) (c_pos k) k) ;;;
              ret (pos - 80)
            else ret pos) ;;
    modify (fun k => set_screen (c_crt k) (pos mod 2 ^ 16) k) ;;;
    crt_put pos BLANK.
Definition consputc (c : Z) : M console unit :=
  p <~ gets c_panicked ;;
  if negb (p =? 0) then fun _ => Spin
  else
    (if c =? BACKSPACE then uartputc 8 ;;; uartputc 32 ;;; uartputc 8 else uartputc c) ;;;
    cgaputc c.

(** ** [printint] and [cprintf] *)
Definition digits : list Z := [48; 49; 50; 51; 52; 53; 54; 55; 56; 57; 97; 98; 99; 100; 101; 102].
Fixpoint fill_digits (fuel : nat) (x base : Z) : list Z :=
  match fuel with
  | O => []
  | S fuel =>
      ch digits (Z.to_nat (x mod base)) ::
      if x / base =? 0 then [] else fill_digits fuel (x / base) base
  end.
Definition printint (xx base : Z) (sgn : bool) : M console unit :=
  let neg := sgn && (xx <? 0) in
  let x := if neg then u32 (- xx) else u32 xx in
  for_each (rev (fill_digits 32 x base ++ (if neg then [45] else []))) consputc.

(** A word of the argument list: a number, or the string at the address; a
    directive of the other kind has no defined result. *)
Inductive arg := ANum (n : Z) | AStr (s : option (list Z)).
Definition arg_num (a : list arg) : M console Z :=
  match a with ANum n :: _ => ret n | _ => fun _ => Crash "undefined" end.
Definition arg_str (a : list arg) : M console (option (list Z)) :=
  match a with AStr s :: _ => ret s | _ => fun _ => Crash "undefined" end.
(** "(null)" *)
Definition null_string : list Z := [40; 110; 117; 108; 108; 41].
Fixpoint cprintf_loop (fmt : list Z) (a : list arg) : M console unit :=
  match fmt with
  | [] => ret tt
  | c :: fmt =>
      if c =? 0 then ret tt
      else if negb (c =? 37) then consputc c ;;; cprintf_loop fmt a
      else
        match fmt with
        | [] => ret tt
        | c :: fmt =>
            if c =? 0 then ret tt
            else if c =? 100 then n <~ arg_num a ;; printint (s32 n) 10 true ;;; cprintf_loop fmt (tail a)
            else if (c =? 120) || (c =? 112) then n <~ arg_num a ;; printint (s32 n) 16 false ;;; cprintf_loop fmt (tail a)
            else if c =? 115 then s <~ arg_str a ;; for_each (default null_string s) consputc ;;; cprintf_loop fmt (tail a)
            else if c =? 37 then consputc 37 ;;; cprintf_loop fmt a
            else consputc 37 ;;; consputc c ;;; cprintf_loop fmt a
        end
  end.
Definition cprintf (fmt : option (list Z)) (a : list arg) : M kfs unit :=
  locking <~ getst (fun st => c_locking (st_cons st)) ;;
  when (negb (locking =? 0)) (kacquire CONS_LOCK) ;;;
  match fmt with
  | None => panic "null fmt"
  | Some fmt => on_cons (cprintf_loop fmt a)
  end ;;;
  when (negb (locking =? 0)) (krelease CONS_LOCK).
(** "lapicid %d: panic: ", "\n" and " %p"; [pcs] are the return addresses on the
    stack.  The other processors freeze at their next [consputc]. *)
Definition panic_fmt : list Z := [108; 97; 112; 105; 99; 105; 100; 32; 37; 100; 58; 32; 112; 97; 110; 105; 99; 58; 32].
Definition pc_fmt : list Z := [32; 37; 112].
Definition cons_panic (lapicid : Z) (pcs : list Z) (s : list Z) : M kfs unit :=
  on_cons (modify (fun k => set_flags 0 (c_panicked k) k)) ;;;
  cprintf (Some panic_fmt) [ANum lapicid] ;;;
  cprintf (Some s) [] ;;;
  cprintf (Some [NEWLINE]) [] ;;;
  for_each (take 10 pcs) (fun pc => cprintf (Some pc_fmt) [ANum pc]) ;;;
  on_cons (modify (fun k => set_flags (c_locking k) 1 k)) ;;;
  fun _ => Spin.

(** ** [procdump]

    [callerpcs] gives the return addresses on the kernel stack of a thread. *)
Definition state_name (st : states) : list Z :=
  match st with
  | UNUSED => [117; 110; 117; 115; 101; 100]
  | EMBRYO => [101; 109; 98; 114; 121; 111]
  | SLEEPING => [115; 108; 101; 101; 112; 32]
  | RUNNABLE => [114; 117; 110; 98; 108; 101]
  | RUNNING => [114; 117; 110; 32; 32; 32]
  | ZOMBIE => [122; 111; 109; 98; 105; 101]
  end.
(** "%d %s %s" *)
Definition dump_fmt : list Z := [37; 100; 32; 37; 115; 32; 37; 115].
Definition c_string (s : list Z) : list Z := take (strlen s) s.

Section Procdump.
Context (callerpcs : nat * nat -> kfs -> list Z).

Fixpoint dump_pcs (l : list Z) : M kfs unit :=
  match l with
  | [] => ret tt
  | pc :: l => if pc =? 0 then ret tt else cprintf (Some pc_fmt) [ANum pc] ;;; dump_pcs l
  end.
Definition dump_thread (p i : nat) : M kfs unit :=
  t <~ gets (the_thread (p, i)) ;;
  if bool_decide (th_state t = UNUSED) then ret tt
  else
    q <~ gets (the_proc p) ;;
    cprintf (Some dump_fmt) [ANum (p_pid q); AStr (Some (state_name (th_state t))); AStr (Some (c_string (p_name q)))] ;;;
    st <~ gets (fun s => p_state (the_proc p s)) ;;
    when (bool_decide (st = SLEEPING)) (
      pcs <~ gets (callerpcs (p, i)) ;;
      dump_pcs (take 10 pcs)).
Definition procdump : M kfs unit :=
  for_each (seq 0 NPROC) (fun p =>
    st <~ gets (fun s => p_state (the_proc p s)) ;;
    if bool_decide (st = UNUSED) then ret tt
    else for_each (seq 0 NTHREAD) (dump_thread p)).
End Procdump.

(** ** Input *)
Definition buf_at (i : Z) (v : input) : Z := byte (in_buf v) (i mod INPUT_BUF).
Definition upd_input (f : input -> input) : M console unit := modify (fun k => set_input (f (c_input k)) k).
(** [input.e--], [input.buf[input.e++ % INPUT_BUF] = c], [input.w = input.e],
    [input.r++] and [input.r--]. *)
Definition e_back (v : input) : input := mkInput (in_buf v) (in_r v) (in_w v) (u32 (in_e v - 1)).
Definition e_put (c : Z) (v : input) : input :=
  mkInput (<[Z.to_nat (in_e v mod INPUT_BUF) := u8 c]> (in_buf v)) (in_r v) (in_w v) (u32 (in_e v + 1)).
Definition e_commit (v : input) : input := mkInput (in_buf v) (in_r v) (in_e v) (in_e v).
Definition r_next (v : input) : input := mkInput (in_buf v) (u32 (in_r v + 1)) (in_w v) (in_e v).
Definition r_back (v : input) : input := mkInput (in_buf v) (u32 (in_r v - 1)) (in_w v) (in_e v).

Fixpoint kill_line (fuel : nat) : M console unit :=
  v <~ gets c_input ;;
  if negb (in_e v =? in_w v) && negb (buf_at (u32 (in_e v - 1)) v =? NEWLINE) then
    match fuel with
    | O => fun _ => Spin
    | S fuel => upd_input e_back ;;; consputc BACKSPACE ;;; kill_line fuel
    end
  else ret tt.
Definition rubout : M console unit :=
  v <~ gets c_input ;;
  when (negb (in_e v =? in_w v)) (upd_input e_back ;;; consputc BACKSPACE).
(** The [default] case; the result tells whether a line is complete. *)
Definition type_char (c : Z) : M console bool :=
  v <~ gets c_input ;;
  if negb (c =? 0) && (u32 (in_e v - in_r v) <? INPUT_BUF) then
    let c := if c =? 13 then NEWLINE else c in
    upd_input (e_put c) ;;;
    consputc c ;;;
    v <~ gets c_input ;;
    if (c =? NEWLINE) || (c =? Ctl 68) || (in_e v =? u32 (in_r v + INPUT_BUF)) then
      upd_input e_commit ;;; ret true
    else ret false
  else ret false.

(** ** kbd.c *)
Definition KB_SHIFT : Z := 1.
Definition KB_CTL : Z := 2.
Definition KB_ALT : Z := 4.
Definition CAPSLOCK : Z := 8.
Definition NUMLOCK : Z := 16.
Definition SCROLLLOCK : Z := 32.
Definition E0ESC : Z := 64.

(** A table of 256 codes: its first entries in order, then the named ones. *)
Definition lookup_code (pre : list Z) (named : list (Z * Z)) (i : Z) : Z :=
  match list_find (fun e => e.1 = i) named with
  | Some (_, (_, v)) => v
  | None => ch pre (Z.to_nat i)
  end.
Definition shiftcode : Z -> Z :=
  lookup_code [] [(0x1D, KB_CTL); (0x2A, KB_SHIFT); (0x36, KB_SHIFT); (0x38, KB_ALT); (0x9D, KB_CTL); (0xB8, KB_ALT)].
Definition togglecode : Z -> Z := lookup_code [] [(0x3A, CAPSLOCK); (0x45, NUMLOCK); (0x46, SCROLLLOCK)].
(** KEY_HOME, KEY_END, KEY_UP and so on are 0xE0 to 0xE9. *)
Definition special_keys (enter slash : Z) : list (Z * Z) :=
  [(0x9C, enter); (0xB5, slash); (0xC8, 0xE2); (0xD0, 0xE3); (0xC9, 0xE6); (0xD1, 0xE7); (0xCB, 0xE4); (0xCD, 0xE5);
   (0x97, 0xE0); (0xCF, 0xE1); (0xD2, 0xE8); (0xD3, 0xE9)].
(** The keypad, codes 0x47 to 0x53. *)
Definition keypad : list Z := [55; 56; 57; 45; 52; 53; 54; 43; 49; 50; 51; 48; 46].
Definition normalmap : Z -> Z := lookup_code
  ([0; 27; 49; 50; 51; 52; 53; 54; 55; 56; 57; 48; 45; 61; 8; 9;
    113; 119; 101; 114; 116; 121; 117; 105; 111; 112; 91; 93; 10; 0; 97; 115;
    100; 102; 103; 104; 106; 107; 108; 59; 39; 96; 0; 92; 122; 120; 99; 118;
    98; 110; 109; 44; 46; 47; 0; 42; 0; 32] ++ replicate 13 0 ++ keypad) (special_keys 10 47).
Definition shiftmap : Z -> Z := lookup_code
  ([0; 27; 33; 64; 35; 36; 37; 94; 38; 42; 40; 41; 95; 43; 8; 9;
    81; 87; 69; 82; 84; 89; 85; 73; 79; 80; 123; 125; 10; 0; 65; 83;
    68; 70; 71; 72; 74; 75; 76; 58; 34; 126; 0; 124; 90; 88; 67; 86;
    66; 78; 77; 60; 62; 63; 0; 42; 0; 32] ++ replicate 13 0 ++ keypad) (special_keys 10 47).
Definition ctlmap : Z -> Z := lookup_code
  (replicate 16 0 ++
   [17; 23; 5; 18; 20; 25; 21; 9; 15; 16; 0; 0; 13; 0; 1; 19;
    4; 6; 7; 8; 10; 11; 12; 0; 0; 0; 0; 28; 26; 24; 3; 22;
    2; 14; 13; 0; 0; u8 (47 - 64); 0; 0]) (special_keys 13 (u8 (47 - 64))).
Definition charcode (shift : Z) : Z -> Z :=
  if shift =? 0 then normalmap else if shift =? 1 then shiftmap else ctlmap.

(** What a scan code does: the character, and the new modifiers. *)
Definition key (shift data : Z) : Z * Z :=
  if data =? 0xE0 then (0, Z.lor shift E0ESC)
  else if negb (Z.land data 0x80 =? 0) then
    let data := if negb (Z.land shift E0ESC =? 0) then data else Z.land data 0x7F in
    (0, Z.ldiff shift (Z.lor (shiftcode data) E0ESC))
  else
    let '(data, shift) :=
      if negb (Z.land shift E0ESC =? 0) then (Z.lor data 0x80, Z.ldiff shift E0ESC) else (data, shift) in
    let shift := Z.lxor (Z.lor shift (shiftcode data)) (togglecode data) in
    let c := charcode (Z.land shift (Z.lor KB_CTL KB_SHIFT)) data in
    let c := if negb (Z.land shift CAPSLOCK =? 0) then
               if (97 <=? c) && (c <=? 122) then c + (65 - 97)
               else if (65 <=? c) && (c <=? 90) then c + (97 - 65)
               else c
             else c in
    (c, shift).
Definition kbdgetc : M console Z :=
  kbd <~ gets c_kbd ;;
  match kbd with
  | [] => ret (-1)
  | data :: kbd =>
      shift <~ gets c_shift ;;
      let '(c, shift) := key shift data in
      modify (set_kbd shift kbd) ;;;
      ret c
  end.

Section Console.
Context {W : Wait} (callerpcs : nat * nat -> kfs -> list Z).

(** One character; the result is the new [doprocdump]. *)
Definition intr_char (c : Z) (dump : bool) : M kfs bool :=
  if c =? Ctl 80 then ret true
  else if c =? Ctl 85 then on_cons (kill_line (Z.to_nat INPUT_BUF)) ;;; ret dump
  else if (c =? Ctl 72) || (c =? 127) then on_cons rubout ;;; ret dump
  else
    complete <~ on_cons (type_char c) ;;
    when complete (wakeup CONS_CHAN) ;;;
    ret dump.
Fixpoint intr_loop (fuel : nat) (getc : M console Z) (dump : bool) : M kfs bool :=
  c <~ on_cons getc ;;
  if 0 <=? c then
    match fuel with
    | O => fun _ => Spin
    | S fuel => dump <~ intr_char c dump ;; intr_loop fuel getc dump
    end
  else ret dump.
(** Each round takes one character from the device. *)
Definition consoleintr (getc : M console Z) : M kfs unit :=
  kacquire CONS_LOCK ;;;
  n <~ getst (fun st => (length (c_kbd (st_cons st)) + length (c_com (st_cons st)))%nat) ;;
  dump <~ intr_loop n getc false ;;
  krelease CONS_LOCK ;;;
  when dump (procdump callerpcs).

(** Waits for input: [false] when the reader has been killed. *)
Fixpoint wait_input (fuel : nat) : M kfs bool :=
  v <~ getst (fun st => c_input (st_cons st)) ;;
  if in_r v =? in_w v then
    stop <~ killed_now ;;
    if (stop : bool) then ret false
    else
      match fuel with
      | O => fun _ => Spin
      | S fuel => sleep CONS_CHAN (Some CONS_LOCK) ;;; wait_input fuel
      end
  else ret true.
(** At most [k] more characters of [target], and [false] when killed. *)
Fixpoint read_loop (k : nat) (target : nat) : M kfs (bool * list Z) :=
  match k with
  | O => ret (true, [])
  | S k' =>
      ok <~ wait_input wait_bound ;;
      if (ok : bool) then
        v <~ getst (fun st => c_input (st_cons st)) ;;
        let c := buf_at (in_r v) v in
        on_cons (upd_input r_next) ;;;
        if c =? Ctl 68 then
          when (k <? target)%nat (on_cons (upd_input r_back)) ;;;
          ret (true, [])
        else if c =? NEWLINE then ret (true, [c])
        else
          r <~ read_loop k' target ;;
          ret (r.1, c :: r.2)
      else ret (false, [])
  end.
Definition consoleread (ip : nat) (n : Z) : M kfs (Z * list Z) :=
  iunlock (Some ip) ;;;
  kacquire CONS_LOCK ;;;
  r <~ read_loop (Z.to_nat n) (Z.to_nat n) ;;
  krelease CONS_LOCK ;;;
  ilock (Some ip) ;;;
  ret (if (r.1 : bool) then Z.of_nat (length r.2) else -1, r.2).
Definition consolewrite (ip : nat) (buf : list Z) (n : Z) : M kfs Z :=
  iunlock (Some ip) ;;;
  kacquire CONS_LOCK ;;;
  for_each (take (Z.to_nat n) buf) (fun c => on_cons (consputc (Z.land c 0xff))) ;;;
  krelease CONS_LOCK ;;;
  ilock (Some ip) ;;;
  ret n.
Definition consoleinit : M kfs unit :=
  on_cpus (initlock CONS_LOCK "console") ;;;
  on_cons (modify (fun k => set_flags 1 (c_panicked k) k)) ;;;
  ioapicenable IRQ_KBD 0.
End Console.

(** The device switch and the interrupt handlers that the kernel uses. *)
Section Attach.
Context {W : Wait} (callerpcs : nat * nat -> kfs -> list Z).

Definition devsw : Devices := {|
  dev_read := fun major => if major =? CONSOLE then Some consoleread else None;
  dev_write := fun major => if major =? CONSOLE then Some consolewrite else None;
|}.
Definition device_interrupts : Interrupts := {|
  Trap.ideintr := Ide.ideintr;
  Trap.kbdintr := consoleintr callerpcs kbdgetc;
  Trap.uartintr := consoleintr callerpcs uartgetc;
|}.
End Attach.

(** ** The screen *)
(** The cursor is on one of the first 24 lines, or at the start of the last. *)
Definition screen_ok (k : console) : Prop := length (c_crt k) = (128 * 128)%nat /\ 0 <= c_pos k <= 24 * 80.
Definition cell (k : console) (i : Z) : Z := default 0 (c_crt k !! Z.to_nat i).

Lemma length_scroll pos crt : 0 <= pos <= 24 * 80 -> (25 * 80 <= length crt)%nat -> length (scroll pos crt) = length crt.
Proof.
  intros Hp Hl. unfold scroll. rewrite !length_app, length_replicate, !length_take, !length_drop, !length_app, length_take, !length_drop. lia.
Qed.
Lemma crt_put_done i v k : 0 <= i < Z.of_nat (length (c_crt k)) ->
  crt_put i v k = Done tt (set_screen (<[Z.to_nat i := v]> (c_crt k)) (c_pos k) k).
Proof. intros Hi. unfold crt_put. now rewrite bool_decide_eq_true_2. Qed.

(** Where a character leads the cursor, before the screen scrolls. *)
Definition next_pos (c pos : Z) : Z :=
  if c =? NEWLINE then pos + (80 - pos mod 80) else if c =? BACKSPACE then (if 0 <? pos then pos - 1 else pos) else pos + 1.
Definition plain (c : Z) : bool := negb (c =? NEWLINE) && negb (c =? BACKSPACE).
Definition put_cell (c : Z) (k : console) : list Z :=
  if plain c then <[Z.to_nat (c_pos k) := Z.lor (Z.land c 0xff) 0x700]> (c_crt k) else c_crt k.
(** The screen after a character. *)
Definition cga (c : Z) (k : console) : console :=
  let pos := next_pos c (c_pos k) in
  let crt := put_cell c k in
  let '(crt, pos) := if 24 <=? pos / 80 then (scroll (pos - 80) crt, pos - 80) else (crt, pos) in
  set_screen (<[Z.to_nat pos := BLANK]> crt) pos k.

Lemma next_pos_range c pos : 0 <= pos <= 24 * 80 -> 0 <= next_pos c pos <= 25 * 80.
Proof.
  intros Hp. unfold next_pos. pose proof (Z.mod_pos_bound pos 80 ltac:(lia)).
  pose proof (Z.div_mod pos 80 ltac:(lia)). pose proof (Z.div_le_upper_bound pos 80 24 ltac:(lia) ltac:(lia)).
  destruct (Z.eqb_spec c NEWLINE); [lia|]. destruct (Z.eqb_spec c BACKSPACE); [destruct (Z.ltb_spec 0 pos)|]; lia.
Qed.
Lemma length_put_cell c k : length (put_cell c k) = length (c_crt k).
Proof. unfold put_cell. destruct (plain c); [apply length_insert|done]. Qed.
Lemma set_screen_set a p b q k : set_screen a p (set_screen b q k) = set_screen a p k.
Proof. reflexivity. Qed.

Lemma cgaputc_run c k : screen_ok k -> cgaputc c k = Done tt (cga c k) /\ screen_ok (cga c k).
Proof.
  intros [Hl Hp]. pose proof (next_pos_range c _ Hp) as Hn. pose proof (length_put_cell c k) as Hlp.
  assert (Hfirst : forall f : Z -> M console unit, bind (if c =? NEWLINE then ret (c_pos k + (80 - c_pos k mod 80))
      else if c =? BACKSPACE then ret (if 0 <? c_pos k then c_pos k - 1 else c_pos k)
      else crt_put (c_pos k) (Z.lor (Z.land c 0xff) 0x700) ;;; ret (c_pos k + 1)) f k =
      f (next_pos c (c_pos k)) (set_screen (put_cell c k) (c_pos k) k)).
  { intros f. unfold next_pos, put_cell, plain. destruct (Z.eqb_spec c NEWLINE); [now destruct k|].
    destruct (Z.eqb_spec c BACKSPACE); [now destruct k|]. cbn [negb andb]. unfold bind at 1 2. rewrite crt_put_done by lia. reflexivity. }
  unfold cgaputc. rewrite bind_gets, Hfirst. unfold cga. set (pos := next_pos c (c_pos k)) in *.
  destruct (Z.ltb_spec pos 0), (Z.ltb_spec (25 * 80) pos); try lia. cbn [orb].
  assert (Hlast : forall crt p, length crt = (128 * 128)%nat -> 0 <= p <= 24 * 80 ->
    (modify (fun k => set_screen (c_crt k) (p mod 2 ^ 16) k) ;;; crt_put p BLANK) (set_screen crt (c_pos k) k) =
      Done tt (set_screen (<[Z.to_nat p := BLANK]> crt) p k) /\ screen_ok (set_screen (<[Z.to_nat p := BLANK]> crt) p k)).
  { intros crt p Hc Hp'. rewrite bind_modify, crt_put_done by (simpl; lia). cbn [c_crt c_pos set_screen].
    rewrite (Z.mod_small p) by lia. split; [reflexivity|]. split; [simpl; rewrite length_insert; exact Hc|exact Hp']. }
  destruct (Z.leb_spec 24 (pos / 80)) as [Hs|Hs].
  - assert (1920 <= pos) by (pose proof (Z.mul_div_le pos 80 ltac:(lia)); lia).
    apply (Hlast (scroll (pos - 80) (put_cell c k)) (pos - 80)); [rewrite length_scroll; lia|lia].
  - apply (Hlast (put_cell c k) pos); [lia|].
    pose proof (Z.div_mod pos 80 ltac:(lia)). pose proof (Z.mod_pos_bound pos 80 ltac:(lia)). lia.
Qed.

Lemma cga_plain c k :
  screen_ok k -> plain c = true -> c_pos k mod 80 < 79 -> c_pos k < 24 * 80 ->
  c_pos (cga c k) = c_pos k + 1 /\
  c_crt (cga c k) = <[Z.to_nat (c_pos k + 1) := BLANK]> (<[Z.to_nat (c_pos k) := Z.lor (Z.land c 0xff) 0x700]> (c_crt k)).
Proof.
  intros [Hl Hp] Hc Hcol Hrow. unfold cga, put_cell. rewrite Hc. apply andb_true_iff in Hc as [Hc1 Hc2]. apply negb_true_iff in Hc1, Hc2.
  unfold next_pos. rewrite Hc1, Hc2.
  assert (Hd : (c_pos k + 1) / 80 = c_pos k / 80).
  { pose proof (Z.div_mod (c_pos k) 80 ltac:(lia)). pose proof (Z.mod_pos_bound (c_pos k) 80 ltac:(lia)).
    symmetry. apply (Z.div_unique _ _ _ (c_pos k mod 80 + 1)); lia. }
  rewrite Hd. destruct (Z.leb_spec 24 (c_pos k / 80)) as [H|_]; [|done].
  pose proof (Z.div_lt_upper_bound (c_pos k) 80 24 ltac:(lia) ltac:(lia)). lia.
Qed.

Lemma put_char_cells c k (k' := cga c k) :
  screen_ok k -> plain c = true -> c_pos k mod 80 < 79 -> c_pos k < 24 * 80 ->
  cell k' (c_pos k) = Z.lor (Z.land c 0xff) 0x700 /\ cell k' (c_pos k + 1) = BLANK /\
  (forall i, 0 <= i -> i <> c_pos k -> i <> c_pos k + 1 -> cell k' i = cell k i).
Proof.
  intros Hk Hc Hcol Hrow. destruct (cga_plain c k Hk Hc Hcol Hrow) as [_ Hcrt]. destruct Hk as [Hl Hp]. unfold cell, k'. rewrite Hcrt.
  split; [|split].
  - rewrite list_lookup_insert_ne by lia. rewrite list_lookup_insert_eq by lia. done.
  - rewrite list_lookup_insert_eq by (rewrite length_insert; lia). done.
  - intros i Hi H1 H2. rewrite !list_lookup_insert_ne by lia. done.
Qed.

(** What is printed is what the screen shows: printing text that fits in the
    rest of a line returns, puts each of its characters into its cell, moves
    the cursor behind it, blanks the cell under the cursor and changes no other
    cell. *)
Theorem screen_shows s k :
  screen_ok k -> c_pos k < 24 * 80 -> c_pos k mod 80 + Z.of_nat (length s) < 80 -> Forall (fun c => plain c = true) s ->
  exists k', for_each s cgaputc k = Done tt k' /\ screen_ok k' /\ c_pos k' = c_pos k + Z.of_nat (length s) /\
    (forall i c, s !! i = Some c -> cell k' (c_pos k + Z.of_nat i) = Z.lor (Z.land c 0xff) 0x700) /\
    (s <> [] -> cell k' (c_pos k') = BLANK) /\
    (forall i, 0 <= i -> ~ c_pos k <= i <= c_pos k' -> cell k' i = cell k i).
Proof.
  revert k. induction s as [|c s IH]; intros k Hk Hrow Hcol Hs.
  { exists k. cbn [length]. rewrite Z.add_0_r. split; [reflexivity|]. split; [done|]. split; [done|]. done. }
  inversion Hs as [|? ? Hc Hs']; subst. cbn [length] in *. rewrite Nat2Z.inj_succ in *.
  destruct (cgaputc_run c k Hk) as [Hr Hk1]. pose proof (proj2 Hk) as Hp.
  destruct (cga_plain c k Hk Hc) as [Hpos _]; [lia|lia|]. destruct (put_char_cells c k Hk Hc) as (C1 & C2 & C3); [lia|lia|].
  assert (Hmod : s <> [] -> c_pos (cga c k) mod 80 = c_pos k mod 80 + 1 /\ c_pos (cga c k) < 24 * 80).
  { intros Hne. destruct s; [done|]. cbn [length] in Hcol. rewrite Hpos. pose proof (Z.mod_pos_bound (c_pos k) 80 ltac:(lia)).
    pose proof (Z.div_mod (c_pos k) 80 ltac:(lia)).
    split; [rewrite <- Z.add_mod_idemp_l, Z.mod_small by lia; lia|].
    pose proof (Z.div_lt_upper_bound (c_pos k) 80 24 ltac:(lia) ltac:(lia)). lia. }
  destruct s as [|d s].
  { exists (cga c k). cbn [for_each length]. rewrite (bind_done _ _ _ _ _ Hr). split; [reflexivity|]. split; [done|].
    split; [lia|]. split; [|split].
    - intros [|i] e Hi; [injection Hi as <-; now rewrite Z.add_0_r|now destruct i].
    - intros _. now rewrite Hpos.
    - intros i Hi Hn. apply C3; lia. }
  destruct (Hmod ltac:(done)) as [Hm1 Hm2].
  destruct (IH (cga c k) Hk1 Hm2) as (k' & Hr' & Hk' & Hpos' & Hcells & Hbl & Hoth); [lia|done|].
  exists k'. cbn [for_each]. rewrite (bind_done _ _ _ _ _ Hr). split; [exact Hr'|]. split; [done|]. split; [lia|]. split; [|split].
  - intros [|i] e Hi.
    + injection Hi as <-. rewrite Z.add_0_r, Hoth by lia. exact C1.
    + rewrite <- (Hcells i e Hi). f_equal. lia.
  - intros _. apply Hbl. done.
  - intros i Hi Hn. rewrite Hoth by lia. apply C3; lia.
Qed.

(** ** Output keeps the input side *)
Definition cons_ok (k : console) : Prop := c_panicked k = 0 /\ screen_ok k.
Definition same_side (k k' : console) : Prop :=
  c_input k' = c_input k /\ c_kbd k' = c_kbd k /\ c_com k' = c_com k /\ c_uart k' = c_uart k /\ c_shift k' = c_shift k.
Lemma same_side_refl k : same_side k k.
Proof. done. Qed.
Lemma same_side_trans k1 k2 k3 : same_side k1 k2 -> same_side k2 k3 -> same_side k1 k3.
Proof. unfold same_side. intuition congruence. Qed.

Lemma uartputc_run c k : exists k', uartputc c k = Done tt k' /\ same_side k k' /\ (cons_ok k -> cons_ok k').
Proof. unfold uartputc. rewrite bind_gets. destruct (c_uart k =? 0); eexists; split; try reflexivity; done. Qed.
Lemma consputc_run c k : cons_ok k -> exists k', consputc c k = Done tt k' /\ cons_ok k' /\ same_side k k'.
Proof.
  intros Hk. unfold consputc. rewrite bind_gets, (proj1 Hk). cbn [Z.eqb negb].
  assert (Hu : exists k1, (if c =? BACKSPACE then uartputc 8 ;;; uartputc 32 ;;; uartputc 8 else uartputc c) k = Done tt k1 /\
    cons_ok k1 /\ same_side k k1).
  { destruct (c =? BACKSPACE).
    - destruct (uartputc_run 8 k) as (k1 & R1 & S1 & O1), (uartputc_run 32 k1) as (k2 & R2 & S2 & O2), (uartputc_run 8 k2) as (k3 & R3 & S3 & O3).
      exists k3. split; [now rewrite (bind_done _ _ _ _ _ R1), (bind_done _ _ _ _ _ R2)|]. split; [auto|].
      eauto using same_side_trans.
    - destruct (uartputc_run c k) as (k1 & R1 & S1 & O1). eauto. }
  destruct Hu as (k1 & R1 & O1 & S1). rewrite (bind_done _ _ _ _ _ R1).
  destruct (cgaputc_run c k1 (proj2 O1)) as [R2 O2]. exists (cga c k1). split; [exact R2|].
  assert (Hs : same_side k1 (cga c k1) /\ c_panicked (cga c k1) = c_panicked k1) by (unfold cga; destruct (24 <=? _); done).
  split; [split; [rewrite (proj2 Hs); apply O1|done]|]. now apply (same_side_trans _ k1).
Qed.

(** ** The line discipline *)
(** The ring holds the characters [q] that a reader may take and the line [l]
    that is being edited; [R] counts all characters read so far. *)
Record line_rep (v : input) (q l : list Z) : Prop := {
  lr_buf : length (in_buf v) = Z.to_nat INPUT_BUF;
  lr_size : (length q + length l <= Z.to_nat INPUT_BUF)%nat;
  lr_count : exists R, in_r v = u32 R /\ in_w v = u32 (R + Z.of_nat (length q)) /\
    in_e v = u32 (R + Z.of_nat (length q + length l)) /\
    forall i c, (q ++ l) !! i = Some c -> byte (in_buf v) ((R + Z.of_nat i) mod INPUT_BUF) = c;
}.

Lemma u32_mod_input z : u32 z mod INPUT_BUF = z mod INPUT_BUF.
Proof. unfold u32, INPUT_BUF. change (2 ^ 32) with 4294967296. Z.to_euclidean_division_equations. lia. Qed.
Lemma u32_eq_small a b : 0 <= b <= 128 -> u32 (a + b) = u32 a -> b = 0.
Proof. intros Hb. unfold u32. change (2 ^ 32) with 4294967296. intros H. Z.to_euclidean_division_equations. lia. Qed.
Lemma u32_sub_count a b : 0 <= b < 2 ^ 32 -> u32 (u32 (a + b) - u32 a) = b.
Proof. intros Hb. unfold u32. change (2 ^ 32) with 4294967296 in *. Z.to_euclidean_division_equations. lia. Qed.
Lemma u32_add_u32 a b : u32 (u32 a + b) = u32 (a + b).
Proof. unfold u32. now rewrite Z.add_mod_idemp_l. Qed.
Lemma mod_input_inj a b : a mod INPUT_BUF = b mod INPUT_BUF -> -128 < a - b < 128 -> a = b.
Proof. unfold INPUT_BUF. intros H1 H2. Z.to_euclidean_division_equations. lia. Qed.

Lemma editing v q l : line_rep v q l -> in_e v = in_w v <-> l = [].
Proof.
  intros [Hb Hs (R & Hr & Hw & He & _)]. rewrite He, Hw. split.
  - intros E. rewrite Nat2Z.inj_add, Z.add_assoc in E. apply u32_eq_small in E; [|unfold INPUT_BUF in Hs; lia].
    destruct l; [done|]. simpl in E. lia.
  - intros ->. now rewrite Nat.add_0_r.
Qed.
Lemma e_back_rep v q l c : line_rep v q (l ++ [c]) -> line_rep (e_back v) q l.
Proof.
  intros [Hb Hs (R & Hr & Hw & He & Hc)]. rewrite length_app in *. cbn [length] in *. split; [done|lia|].
  exists R. split; [done|]. split; [done|]. split; [|intros i d Hi; apply Hc; rewrite app_assoc; now apply lookup_app_l_Some].
  cbn. rewrite He. rewrite <- Z.add_opp_r, u32_add_u32. f_equal. lia.
Qed.
Lemma e_last_rep v q l c : line_rep v q (l ++ [c]) -> buf_at (u32 (in_e v - 1)) v = c.
Proof.
  intros [Hb Hs (R & Hr & Hw & He & Hc)]. rewrite length_app in *. cbn [length] in *. unfold buf_at. rewrite u32_mod_input.
  rewrite He. rewrite <- (Hc (length q + length l)%nat c).
  - f_equal. rewrite <- Z.add_opp_r, <- u32_mod_input, u32_add_u32, u32_mod_input. f_equal. lia.
  - rewrite lookup_app_r by lia. replace (length q + length l - length q)%nat with (length l) by lia. now rewrite list_lookup_middle.
Qed.
Lemma e_put_rep v q l c :
  line_rep v q l -> (length q + length l < Z.to_nat INPUT_BUF)%nat -> line_rep (e_put c v) q (l ++ [u8 c]).
Proof.
  intros [Hb Hs (R & Hr & Hw & He & Hc)] Hlt. split; cbn [e_put in_buf in_r in_w in_e].
  - now rewrite length_insert.
  - rewrite length_app. simpl. lia.
  - exists R. split; [done|]. split; [done|]. split.
    + rewrite He, u32_add_u32, length_app. f_equal. simpl. lia.
    + intros i d Hi. rewrite He, u32_mod_input. unfold byte. rewrite app_assoc in Hi.
      destruct (decide (i = length q + length l)%nat) as [->|Hne].
      * rewrite list_lookup_insert_eq by (rewrite Hb; unfold INPUT_BUF; pose proof (Z.mod_pos_bound (R + Z.of_nat (length q + length l)) 128); lia).
        rewrite lookup_app_r in Hi by (rewrite length_app; lia). rewrite length_app, Nat.sub_diag in Hi. now injection Hi.
      * assert (Hil : (i < length q + length l)%nat).
        { apply lookup_lt_Some in Hi. rewrite !length_app in Hi. simpl in Hi. lia. }
        rewrite list_lookup_insert_ne.
        -- apply Hc. rewrite lookup_app_l in Hi by (rewrite length_app; lia). done.
        -- intros E. pose proof (Z.mod_pos_bound (R + Z.of_nat i) INPUT_BUF ltac:(unfold INPUT_BUF; lia)).
           pose proof (Z.mod_pos_bound (R + Z.of_nat (length q + length l)) INPUT_BUF ltac:(unfold INPUT_BUF; lia)).
           assert (R + Z.of_nat (length q + length l) = R + Z.of_nat i) by (apply mod_input_inj; [lia|unfold INPUT_BUF in *; lia]). lia.
Qed.
Lemma e_commit_rep v q l : line_rep v q l -> line_rep (e_commit v) (q ++ l) [].
Proof.
  intros [Hb Hs (R & Hr & Hw & He & Hc)]. split; cbn [e_commit in_buf in_r in_w in_e length].
  - done.
  - rewrite length_app. lia.
  - exists R. rewrite Nat.add_0_r, length_app, app_nil_r. split; [done|]. split; [done|]. split; [done|exact Hc].
Qed.
Lemma space v q l : line_rep v q l -> u32 (in_e v - in_r v) = Z.of_nat (length q + length l).
Proof.
  intros [Hb Hs (R & Hr & Hw & He & Hc)]. rewrite He, Hr. apply u32_sub_count. unfold INPUT_BUF in *. lia.
Qed.
Lemma full v q l : line_rep v q l -> in_e v = u32 (in_r v + INPUT_BUF) <-> (length q + length l = Z.to_nat INPUT_BUF)%nat.
Proof.
  intros [Hb Hs (R & Hr & Hw & He & Hc)]. rewrite He, Hr, u32_add_u32. unfold INPUT_BUF in *. split.
  - intros E. replace (R + 128) with (R + Z.of_nat (length q + length l) + (128 - Z.of_nat (length q + length l))) in E by lia.
    symmetry in E. apply u32_eq_small in E; lia.
  - intros E. f_equal. lia.
Qed.
Lemma r_next_rep v c q l : line_rep v (c :: q) l -> buf_at (in_r v) v = c /\ line_rep (r_next v) q l /\ r_back (r_next v) = v.
Proof.
  intros [Hb Hs (R & Hr & Hw & He & Hc)]. split; [|split].
  - unfold buf_at. rewrite Hr, u32_mod_input. rewrite <- (Hc 0%nat c) by done. f_equal. f_equal. lia.
  - split; cbn [r_next in_buf in_r in_w in_e]; [done|simpl in Hs; lia|].
    exists (R + 1). split; [rewrite Hr; apply u32_add_u32|]. cbn [length] in *.
    split; [rewrite Hw; f_equal; lia|]. split; [rewrite He; f_equal; lia|].
    intros i d Hi. rewrite <- (Hc (S i) d) by done. f_equal. f_equal. lia.
  - unfold r_back, r_next. destruct v as [buf r w e]. cbn in *. f_equal.
    rewrite <- Z.add_opp_r, u32_add_u32, Z.add_opp_r, Z.add_simpl_r, Hr. apply u32_small, u32_range.
Qed.
Lemma ready_input v q l : line_rep v q l -> in_r v = in_w v <-> q = [].
Proof.
  intros [Hb Hs (R & Hr & Hw & He & _)]. rewrite Hw, Hr. split.
  - intros E. symmetry in E. apply u32_eq_small in E; [|unfold INPUT_BUF in Hs; lia]. destruct q; [done|]. simpl in E. lia.
  - intros ->. f_equal. simpl. lia.
Qed.

(** What a character does to the two lists. *)
Definition key_spec (c : Z) (s : list Z * list Z) : list Z * list Z :=
  let '(q, l) := s in
  if c =? Ctl 80 then (q, l)
  else if c =? Ctl 85 then (q, [])
  else if (c =? Ctl 72) || (c =? 127) then (q, take (length l - 1) l)
  else if negb (c =? 0) && (length q + length l <? Z.to_nat INPUT_BUF)%nat then
    let c := if c =? 13 then NEWLINE else c in
    let l := l ++ [c] in
    if (c =? NEWLINE) || (c =? Ctl 68) || (length q + length l =? Z.to_nat INPUT_BUF)%nat then (q ++ l, []) else (q, l)
  else (q, l).

(** The console with its input side. *)
Definition line_ok (k : console) (s : list Z * list Z) : Prop :=
  cons_ok k /\ line_rep (c_input k) s.1 s.2 /\ NEWLINE ∉ s.2.
(** The devices and the modifiers stay as they are. *)
Definition same_devices (k k' : console) : Prop :=
  c_kbd k' = c_kbd k /\ c_com k' = c_com k /\ c_uart k' = c_uart k /\ c_shift k' = c_shift k.

Lemma take_snoc (l : list Z) c : take (length (l ++ [c]) - 1) (l ++ [c]) = l.
Proof. rewrite length_app. simpl. replace (length l + 1 - 1)%nat with (length l) by lia. apply take_app_length. Qed.

Lemma rubout_run k q l : line_ok k (q, l) ->
  exists k', rubout k = Done tt k' /\ line_ok k' (q, take (length l - 1) l) /\ same_devices k k'.
Proof.
  intros (Hk & Hl & Hn). cbn [fst snd] in *. unfold rubout. rewrite bind_gets. pose proof (editing _ _ _ Hl) as Hed.
  destruct l as [|c l _] using rev_ind.
  - rewrite (proj2 (Z.eqb_eq _ _)) by now apply Hed. exists k. split; [done|]. split; [done|done].
  - destruct (Z.eqb_spec (in_e (c_input k)) (in_w (c_input k))) as [E|_]; [apply Hed in E; now destruct l|].
    cbn [negb when]. unfold upd_input. rewrite bind_modify.
    destruct (consputc_run BACKSPACE (set_input (e_back (c_input k)) k)) as (k' & R & O & I & D); [exact Hk|].
    exists k'. split; [exact R|]. rewrite take_snoc. split; [|exact D]. split; [done|]. cbn [fst snd]. rewrite I.
    split; [now apply (e_back_rep _ _ _ c)|set_solver].
Qed.
Lemma kill_line_run fuel k q l : line_ok k (q, l) -> (length l <= fuel)%nat ->
  exists k', kill_line fuel k = Done tt k' /\ line_ok k' (q, []) /\ same_devices k k'.
Proof.
  revert k l. induction fuel as [|fuel IH]; intros k l Hk Hf; pose proof Hk as (Hc & Hl & Hn); cbn [fst snd] in *;
    pose proof (editing _ _ _ Hl) as Hed; cbn [kill_line]; rewrite bind_gets.
  - destruct l; [|simpl in Hf; lia]. rewrite (proj2 (Z.eqb_eq _ _)) by now apply Hed. exists k. done.
  - destruct l as [|c l _] using rev_ind.
    + rewrite (proj2 (Z.eqb_eq _ _)) by now apply Hed. exists k. done.
    + destruct (Z.eqb_spec (in_e (c_input k)) (in_w (c_input k))) as [E|_]; [apply Hed in E; now destruct l|].
      rewrite (e_last_rep _ _ _ _ Hl). destruct (Z.eqb_spec c NEWLINE) as [->|_]; [set_solver|]. cbn [negb andb].
      unfold upd_input. rewrite bind_modify.
      destruct (consputc_run BACKSPACE (set_input (e_back (c_input k)) k)) as (k1 & R & O & I & D); [exact Hc|].
      rewrite (bind_done _ _ _ _ _ R). rewrite length_app in Hf. simpl in Hf.
      destruct (IH k1 l) as (k' & R' & O' & D'); [|lia|].
      * split; [done|]. cbn [fst snd]. rewrite I. split; [now apply (e_back_rep _ _ _ c)|set_solver].
      * exists k'. split; [exact R'|]. split; [done|]. unfold same_devices in *. cbn in D. intuition congruence.
Qed.
Lemma type_char_run c k q l : 0 <= c < 256 -> line_ok k (q, l) ->
  c <> Ctl 80 -> c <> Ctl 85 -> c <> Ctl 72 -> c <> 127 ->
  exists b k', type_char c k = Done b k' /\ line_ok k' (key_spec c (q, l)) /\ same_devices k k'.
Proof.
  intros Hc (Hk & Hl & Hn) H1 H2 H3 H4. cbn [fst snd] in *. unfold type_char, key_spec. rewrite bind_gets.
  rewrite (proj2 (Z.eqb_neq c (Ctl 80)) H1), (proj2 (Z.eqb_neq c (Ctl 85)) H2), (proj2 (Z.eqb_neq c (Ctl 72)) H3), (proj2 (Z.eqb_neq c 127) H4).
  cbn [orb]. rewrite (space _ _ _ Hl).
  replace (Z.of_nat (length q + length l) <? INPUT_BUF) with (length q + length l <? Z.to_nat INPUT_BUF)%nat
    by (unfold INPUT_BUF; destruct (Nat.ltb_spec (length q + length l) (Z.to_nat 128)), (Z.ltb_spec (Z.of_nat (length q + length l)) 128); lia).
  destruct (negb (c =? 0) && _) eqn:E; [|exists false, k; done]. apply andb_true_iff in E as [_ Hlt]. apply Nat.ltb_lt in Hlt.
  set (d := if c =? 13 then NEWLINE else c). assert (Hd : u8 d = d) by (unfold u8, d, NEWLINE; destruct (c =? 13); apply Z.mod_small; lia).
  unfold upd_input. rewrite bind_modify.
  destruct (consputc_run d (set_input (e_put d (c_input k)) k)) as (k1 & R & O & I & D); [exact Hk|].
  rewrite (bind_done _ _ _ _ _ R), bind_gets.
  pose proof (e_put_rep _ q l d Hl Hlt) as Hl1. rewrite Hd in Hl1. change (c_input k1 = e_put d (c_input k)) in I. rewrite <- I in Hl1.
  assert (Hfull : (in_e (c_input k1) =? u32 (in_r (c_input k1) + INPUT_BUF)) = (length q + length (l ++ [d]) =? Z.to_nat INPUT_BUF)%nat).
  { apply eq_true_iff_eq. rewrite Z.eqb_eq, Nat.eqb_eq. now apply full. }
  rewrite Hfull. destruct ((d =? NEWLINE) || (d =? Ctl 68) || _) eqn:Hcm.
  - rewrite bind_modify. exists true, (set_input (e_commit (c_input k1)) k1). split; [reflexivity|]. split; [|exact D].
    split; [exact O|]. split; [now apply e_commit_rep|set_solver].
  - exists false, k1. split; [reflexivity|]. split; [|exact D]. split; [done|]. split; [done|]. cbn [fst snd].
    apply orb_false_iff in Hcm as [[Hcm _]%orb_false_iff _]. apply Z.eqb_neq in Hcm. set_solver.
Qed.

(** ** Sources of characters

    What [consoleintr] expects of its argument: the device holds a list of
    characters and delivers them one by one, then a negative number. *)
Class Source (getc : M console Z) := {
  pending : console -> list Z;
  pending_end : forall k, pending k = [] -> getc k = Done (-1) k;
  pending_next : forall k c cs, pending k = c :: cs ->
    exists k', getc k = Done c k' /\ pending k' = cs /\ c_input k' = c_input k /\ (cons_ok k -> cons_ok k');
  pending_same : forall k k', same_devices k k' -> pending k' = pending k;
  pending_bound : forall k, (length (pending k) <= length (c_kbd k) + length (c_com k))%nat;
}.

#[export] Program Instance uart_source : Source uartgetc := {|
  pending := fun k => if c_uart k =? 0 then [] else c_com k;
|}.
Next Obligation.
  intros k. simpl. unfold uartgetc. rewrite bind_gets. destruct (c_uart k =? 0); [done|]. intros E. now rewrite bind_gets, E.
Qed.
Next Obligation.
  intros k c cs. simpl. unfold uartgetc. rewrite bind_gets. destruct (c_uart k =? 0) eqn:U; [done|]. intros E. rewrite bind_gets, E.
  exists (set_uart (c_uart k) cs k). split; [reflexivity|]. cbn. rewrite U. done.
Qed.
Next Obligation. intros k k' (_ & -> & -> & _). done. Qed.
Next Obligation. intros k. simpl. destruct (c_uart k =? 0); simpl; lia. Qed.

(** The characters that scan codes stand for. *)
Fixpoint decode (shift : Z) (kbd : list Z) : list Z :=
  match kbd with
  | [] => []
  | data :: kbd => let '(c, shift) := key shift data in c :: decode shift kbd
  end.
#[export] Program Instance kbd_source : Source kbdgetc := {|
  pending := fun k => decode (c_shift k) (c_kbd k);
|}.
Next Obligation.
  intros k. simpl. unfold kbdgetc. rewrite bind_gets. destruct (c_kbd k) as [|d kbd]; [done|]. simpl. now destruct (key _ _).
Qed.
Next Obligation.
  intros k c cs. simpl. unfold kbdgetc. rewrite bind_gets. destruct (c_kbd k) as [|d kbd]; [done|]. simpl.
  rewrite bind_gets. destruct (key (c_shift k) d) as [c' shift]. intros [= -> <-].
  exists (set_kbd shift kbd k). split; [reflexivity|]. done.
Qed.
Next Obligation. intros k k' (-> & _ & _ & ->). done. Qed.
Next Obligation.
  intros k. simpl. generalize (c_shift k). induction (c_kbd k) as [|d kbd IH]; intros shift; simpl; [lia|].
  destruct (key shift d) as [c shift']. simpl. specialize (IH shift'). lia.
Qed.

(** ** Runs of the handlers *)
Section Handlers.
Context {W : Wait} (callerpcs : nat * nat -> kfs -> list Z) (w : who).

Lemma srun_on_cons {A} hs (m : M console A) st a k (Q : A -> storage -> Prop) :
  m (st_cons st) = Done a k -> Q a (set_cons k st) -> srun w hs (on_cons m) st hs Q.
Proof.
  intros Hm HQ s He <-. unfold on_cons, zoom. eapply total_intro; [simpl; now rewrite Hm|]. 
  split; [|exact HQ]. destruct He as (H1 & H2 & H3). done.
Qed.
Lemma set_cons_set a b st : set_cons a (set_cons b st) = set_cons a st.
Proof. reflexivity. Qed.

Lemma intr_char_run c d st s (Q : bool -> storage -> Prop) :
  0 <= c < 256 -> c <> Ctl 80 -> line_ok (st_cons st) s ->
  (forall k, line_ok k (key_spec c s) -> same_devices (st_cons st) k -> Q d (set_cons k st)) ->
  srun w {[CONS_LOCK]} (intr_char c d) st {[CONS_LOCK]} Q.
Proof.
  intros Hc Hp Hk HQ. destruct s as [q l]. unfold intr_char. rewrite (proj2 (Z.eqb_neq _ _) Hp).
  destruct (Z.eqb_spec c (Ctl 85)) as [->|Hu].
  { destruct (kill_line_run (Z.to_nat INPUT_BUF) _ q l Hk) as (k & R & O & D); [destruct Hk as (_ & [_ Hs _] & _); simpl in Hs; lia|].
    eapply srun_bind, srun_on_cons; [exact R|]. sgo. apply HQ; [exact O|exact D]. }
  destruct (Z.eqb_spec c (Ctl 72)) as [->|Hh]; [|destruct (Z.eqb_spec c 127) as [->|Hd]].
  1,2: destruct (rubout_run _ q l Hk) as (k & R & O & D); cbn [orb];
    eapply srun_bind, srun_on_cons; [exact R|]; sgo; apply HQ; [exact O|exact D].
  cbn [orb]. destruct (type_char_run c _ q l Hc Hk Hp Hu Hh Hd) as (b & k & R & O & D).
  eapply srun_bind, srun_on_cons; [exact R|]. eapply srun_bind, srun_when.
  - intros _. eapply srun_wakeup; [set_solver|kset|]. sgo. now apply HQ.
  - intros _. sgo. now apply HQ.
Qed.

Definition type_all (cs : list Z) (s : list Z * list Z) : list Z * list Z := fold_left (fun s c => key_spec c s) cs s.

Lemma intr_loop_run getc {S : Source getc} fuel st s (Q : bool -> storage -> Prop) :
  (length (pending (getc := getc) (st_cons st)) <= fuel)%nat ->
  Forall (fun c => 0 <= c < 256 /\ c <> Ctl 80) (pending (getc := getc) (st_cons st)) -> line_ok (st_cons st) s ->
  (forall k, line_ok k (type_all (pending (getc := getc) (st_cons st)) s) -> pending (getc := getc) k = [] -> Q false (set_cons k st)) ->
  srun w {[CONS_LOCK]} (intr_loop fuel getc false) st {[CONS_LOCK]} Q.
Proof.
  revert st s. induction fuel as [|fuel IH]; intros st s Hf Hr Hk HQ; cbn [intr_loop];
    destruct (pending (st_cons st)) as [|c cs] eqn:Hp; try (simpl in Hf; lia).
  1,2: eapply srun_bind, srun_on_cons; [now apply pending_end|]; change (0 <=? -1) with false; cbv iota; sgo; apply HQ; [exact Hk|exact Hp].
  destruct (pending_next _ _ _ Hp) as (k1 & R & P1 & I1 & O1). inversion Hr as [|? ? [Hc Hnp] Hr']; subst.
  eapply srun_bind, srun_on_cons; [exact R|]. rewrite (proj2 (Z.leb_le 0 c)) by lia. cbv iota.
  assert (Hk1 : line_ok k1 s) by (destruct Hk as (K1 & K2 & K3); split; [auto|]; now rewrite I1).
  eapply srun_bind, (intr_char_run c false (set_cons k1 st) s); [done|done|exact Hk1|].
  intros k2 Hk2 D2. rewrite set_cons_set. pose proof (pending_same _ _ D2) as P2. cbn in P2.
  apply (IH (set_cons k2 st) (key_spec c s)); cbn [st_cons set_cons]; rewrite ?P2, ?P1; [simpl in Hf; lia|done|exact Hk2|].
  intros k Hk' Hp'. rewrite set_cons_set. now apply HQ.
Qed.

Lemma consoleintr_run getc {S : Source getc} st s (Q : unit -> storage -> Prop) :
  Forall (fun c => 0 <= c < 256 /\ c <> Ctl 80) (pending (getc := getc) (st_cons st)) -> line_ok (st_cons st) s ->
  (forall k, line_ok k (type_all (pending (getc := getc) (st_cons st)) s) -> pending (getc := getc) k = [] -> Q tt (set_cons k st)) ->
  srun w ∅ (consoleintr callerpcs getc) st ∅ Q.
Proof.
  intros Hr Hk HQ. unfold consoleintr. sgo. eapply srun_bind.
  replace ({[CONS_LOCK]} ∪ ∅ : gset nat) with ({[CONS_LOCK]} : gset nat) by set_solver.
  eapply (intr_loop_run getc _ st s); [apply pending_bound|done|done|]. intros k Hk' Hp'.
  eapply srun_bind, (srun_krelease w {[CONS_LOCK]} ∅); [set_solver|set_solver|]. now apply srun_ret, HQ.
Qed.

(** ** Reading *)
(** The line a reader gets: up to a newline, to an end of file, or [n]
    characters; [None] when it has to wait. *)
Fixpoint take_line (n : nat) (first : bool) (q : list Z) : option (list Z * list Z) :=
  match n, q with
  | O, _ => Some ([], q)
  | S n, [] => None
  | S n, c :: q =>
      if c =? Ctl 68 then Some ([], if first then q else c :: q)
      else if c =? NEWLINE then Some ([c], q)
      else match take_line n false q with
           | Some (l, q) => Some (c :: l, q)
           | None => None
           end
  end.

Lemma read_loop_run k target st q l out q' (Q : bool * list Z -> storage -> Prop) :
  (k <= target)%nat -> line_rep (c_input (st_cons st)) q l -> take_line k (k =? target)%nat q = Some (out, q') ->
  (forall v, line_rep v q' l -> Q (true, out) (set_cons (set_input v (st_cons st)) st)) ->
  srun w {[CONS_LOCK]} (read_loop k target) st {[CONS_LOCK]} Q.
Proof.
  revert st q out Q. induction k as [|k IH]; intros st q out Q Hk Hl Ht HQ; cbn [read_loop].
  { injection Ht as <- <-. apply srun_ret. replace st with (set_cons (set_input (c_input (st_cons st)) (st_cons st)) st); [now apply HQ|].
    destruct st as [? ? ? ? ? ? ? ? ? ? ? []]. reflexivity. }
  destruct q as [|c q]; [done|]. remember (S k =? target)%nat as first eqn:Hfirst. cbn [take_line] in Ht. pose proof (ready_input _ _ _ Hl) as Hri.
  eapply srun_bind. assert (Hw : forall f (Q : bool -> storage -> Prop), Q true st -> srun w {[CONS_LOCK]} (wait_input f) st {[CONS_LOCK]} Q).
  { intros f Q' H'. destruct f; cbn [wait_input]; sgo;
      (destruct (Z.eqb_spec (in_r (c_input (st_cons st))) (in_w (c_input (st_cons st)))) as [E|_]; [now apply Hri in E|sgo; done]). }
  apply Hw. destruct (r_next_rep _ _ _ _ Hl) as (Hc & Hl1 & Hback). sgo. rewrite Hc.
  eapply srun_bind, srun_on_cons; [reflexivity|].
  set (st1 := set_cons (set_input (r_next (c_input (st_cons st))) (st_cons st)) st).
  destruct (Z.eqb_spec c (Ctl 68)) as [->|Hn4].
  { injection Ht as <- <-. eapply srun_bind, srun_when; intros Hb.
    - apply Nat.ltb_lt in Hb. eapply srun_on_cons; [reflexivity|]. sgo. 
      assert (first = false) as -> by (rewrite Hfirst; apply Nat.eqb_neq; lia).
      rewrite <- Hback in Hl. exact (HQ _ Hl).
    - apply Nat.ltb_ge in Hb. sgo. assert (first = true) as -> by (rewrite Hfirst; apply Nat.eqb_eq; lia). exact (HQ _ Hl1). }
  destruct (Z.eqb_spec c NEWLINE) as [->|Hn]; [injection Ht as <- <-; sgo; exact (HQ _ Hl1)|].
  destruct (take_line k false q) as [[l1 q1]|] eqn:Ht1; [|done]. injection Ht as <- <-.
  eapply srun_bind, (IH st1 q l1); [lia|exact Hl1|rewrite <- Ht1; f_equal; apply Nat.eqb_neq; lia|].
  intros v Hv. sgo. exact (HQ v Hv).
Qed.

(** The inode of the console is locked by the caller, and is in memory. *)
Definition dev_locked (ip : nat) (st : storage) : Prop :=
  1 <= i_ref (the_inode ip st) /\ i_valid (the_inode ip st) <> 0 /\ the_sleep (inode_lock ip) st = mkSleep 1 (w_pid w).
Lemma iunlock_run ip st (Q : unit -> storage -> Prop) :
  dev_locked ip st -> Q tt (set_sleep (inode_lock ip) (mkSleep 0 0) st) -> srun w ∅ (iunlock (Some ip)) st ∅ Q.
Proof.
  intros (Hr & _ & Hs) HQ. unfold iunlock. eapply srun_bind, srun_holdingsleep; [set_solver|kset|].
  rewrite Hs. cbn [sl_locked sl_pid]. rewrite Z.eqb_refl. change (1 =? 0) with false. cbn [negb andb]. sgo.
  rewrite (proj2 (Z.ltb_ge _ 1)) by lia. cbn [orb]. cbv iota. eapply srun_releasesleep; [set_solver|set_solver|kset|done].
Qed.
Lemma ilock_again ip st (Q : unit -> storage -> Prop) :
  1 <= i_ref (the_inode ip st) -> i_valid (the_inode ip st) <> 0 -> sl_locked (the_sleep (inode_lock ip) st) = 0 ->
  Q tt (set_sleep (inode_lock ip) (mkSleep 1 (w_pid w)) st) -> srun w ∅ (ilock (Some ip)) st ∅ Q.
Proof.
  intros Hr Hv Hs HQ. unfold ilock. sgo. rewrite (proj2 (Z.ltb_ge _ 1)) by lia. cbv iota.
  eapply srun_bind, srun_acquiresleep; [set_solver|kset|done|]. sgo.
  match goal with |- context [i_valid ?x =? 0] => change x with (the_inode ip st) end.
  rewrite (proj2 (Z.eqb_neq _ _) Hv). now apply srun_ret.
Qed.
(** The lock around the console is taken for the time that [m] runs. *)
Lemma unlocked_run {A B} ip (m : M kfs A) (f : A -> B) st (Q : B -> storage -> Prop) :
  dev_locked ip st ->
  srun w {[CONS_LOCK]} m (set_sleep (inode_lock ip) (mkSleep 0 0) st) {[CONS_LOCK]} (fun a st' =>
    exists k, st' = set_cons k (set_sleep (inode_lock ip) (mkSleep 0 0) st) /\
      Q (f a) (set_cons k (set_sleep (inode_lock ip) (mkSleep 1 (w_pid w)) st))) ->
  srun w ∅ (iunlock (Some ip) ;;; kacquire CONS_LOCK ;;; r <~ m ;; krelease CONS_LOCK ;;; ilock (Some ip) ;;; ret (f r)) st ∅ Q.
Proof.
  intros Hd Hm. eapply srun_bind, (iunlock_run ip st); [done|]. sgo. eapply srun_bind.
  replace ({[CONS_LOCK]} ∪ ∅ : gset nat) with ({[CONS_LOCK]} : gset nat) by set_solver.
  eapply srun_mono; [|exact Hm]. intros a st' (k & -> & HQ).
  eapply srun_bind, (srun_krelease w {[CONS_LOCK]} ∅); [set_solver|set_solver|].
  destruct Hd as (Hr & Hv & Hs). eapply srun_bind, (ilock_again ip); [exact Hr|exact Hv| |].
  { exact (f_equal sl_locked (the_sleep_set (inode_lock ip) (mkSleep 0 0) st)). }
  apply srun_ret. replace (set_sleep _ _ (set_cons k _)) with (set_cons k (set_sleep (inode_lock ip) (mkSleep 1 (w_pid w)) st)); [done|].
  unfold set_sleep, set_cons. cbn. now rewrite insert_insert_eq.
Qed.

(** A reader of the console that need not wait. *)
Lemma consoleread_run ip n st q l out q' (Q : Z * list Z -> storage -> Prop) :
  line_rep (c_input (st_cons st)) q l -> take_line (Z.to_nat n) true q = Some (out, q') -> dev_locked ip st ->
  (forall v, line_rep v q' l ->
    Q (Z.of_nat (length out), out) (set_cons (set_input v (st_cons st)) (set_sleep (inode_lock ip) (mkSleep 1 (w_pid w)) st))) ->
  srun w ∅ (consoleread ip n) st ∅ Q.
Proof.
  intros Hl Ht Hd HQ. unfold consoleread.
  apply (unlocked_run ip _ (fun r => (if (r.1 : bool) then Z.of_nat (length r.2) else -1, r.2))); [done|].
  eapply (read_loop_run _ _ _ q l out q'); [lia|exact Hl|now rewrite Nat.eqb_refl|]. intros v Hv'.
  exists (set_input v (st_cons st)). split; [done|]. now apply HQ.
Qed.

(** ** From the keys to the reader *)
(** The line that remains after editing, without the ring: a rubout removes
    the last character, Control-U all of them. *)
Fixpoint edit_line (l : list Z) (cs : list Z) : list Z :=
  match cs with
  | [] => l
  | c :: cs =>
      if c =? Ctl 85 then edit_line [] cs
      else if (c =? Ctl 72) || (c =? 127) then edit_line (take (length l - 1) l) cs
      else if c =? 0 then edit_line l cs
      else edit_line (l ++ [c]) cs
  end.
(** The characters that stay on a line. *)
Definition on_line (c : Z) : Prop := 0 <= c < 256 /\ c <> Ctl 80 /\ c <> NEWLINE /\ c <> 13 /\ c <> Ctl 68.

Lemma type_line cs l : Forall on_line cs -> (length l + length cs < Z.to_nat INPUT_BUF)%nat -> type_all cs ([], l) = ([], edit_line l cs).
Proof.
  revert l. induction cs as [|c cs IH]; intros l Hc Hl; [done|]. inversion Hc as [|? ? (H1 & H2 & H3 & H4 & H5) Hc']; subst.
  cbn [type_all fold_left edit_line length] in *. unfold type_all in IH. unfold key_spec at 2.
  rewrite (proj2 (Z.eqb_neq _ _) H2). destruct (c =? Ctl 85); [apply IH; [done|simpl; lia]|].
  destruct ((c =? Ctl 72) || (c =? 127)); [apply IH; [done|rewrite length_take; lia]|].
  destruct (c =? 0); cbn [negb andb length Nat.add]; [apply IH; [done|lia]|].
  rewrite (proj2 (Nat.ltb_lt _ _)) by lia. rewrite (proj2 (Z.eqb_neq _ _) H4), (proj2 (Z.eqb_neq _ _) H3), (proj2 (Z.eqb_neq _ _) H5).
  rewrite (proj2 (Nat.eqb_neq _ _)) by (rewrite length_app; simpl; lia). cbn [orb].
  apply IH; [done|]. rewrite length_app. simpl. lia.
Qed.
Lemma length_edit l cs : (length (edit_line l cs) <= length l + length cs)%nat.
Proof.
  revert l. induction cs as [|c cs IH]; intros l; cbn [edit_line length]; [lia|].
  destruct (c =? Ctl 85); [specialize (IH []); simpl in IH; lia|].
  destruct ((c =? Ctl 72) || (c =? 127)); [specialize (IH (take (length l - 1) l)); rewrite length_take in IH; lia|].
  destruct (c =? 0); [specialize (IH l); lia|]. specialize (IH (l ++ [c])). rewrite length_app in IH. simpl in IH. lia.
Qed.
Lemma edit_on_line l cs : Forall on_line cs -> Forall (fun c => c <> NEWLINE /\ c <> Ctl 68) l -> Forall (fun c => c <> NEWLINE /\ c <> Ctl 68) (edit_line l cs).
Proof.
  revert l. induction cs as [|c cs IH]; intros l Hc Hl; [done|]. inversion Hc as [|? ? (H1 & H2 & H3 & H4 & H5) Hc']; subst. cbn [edit_line].
  destruct (c =? Ctl 85); [now apply IH|]. destruct (_ || _); [apply IH; [done|now apply Forall_take]|].
  destruct (c =? 0); [now apply IH|]. apply IH; [done|]. apply Forall_app. split; [done|]. now constructor.
Qed.
Lemma take_line_newline n b l q :
  Forall (fun c => c <> NEWLINE /\ c <> Ctl 68) l -> (length l < n)%nat -> take_line n b (l ++ NEWLINE :: q) = Some (l ++ [NEWLINE], q).
Proof.
  revert n b. induction l as [|c l IH]; intros n b Hl Hn; (destruct n as [|n]; [simpl in Hn; lia|]); [done|].
  inversion Hl as [|? ? [H1 H2] Hl']; subst. cbn [take_line app].
  rewrite (proj2 (Z.eqb_neq _ _) H1), (proj2 (Z.eqb_neq _ _) H2). rewrite IH; [done|done|simpl in Hn; lia].
Qed.

(** C18. The line discipline from the device to the reader: when the keyboard or
    the serial line delivers characters and then a carriage return, the
    interrupt handler returns, and the next read of the console returns,
    without waiting, exactly the line that is left after the rubouts and line
    kills among them, ended by a newline. *)
Theorem typed_line_is_read getc {S : Source getc} ip n cs st :
  line_ok (st_cons st) ([], []) -> pending (getc := getc) (st_cons st) = cs ++ [13] -> Forall on_line cs ->
  (length cs < 127)%nat -> Z.of_nat (length (edit_line [] cs)) < n ->
  dev_locked ip st ->
  srun w ∅ (consoleintr callerpcs getc ;;; consoleread ip n) st ∅
    (fun r st' => r = (Z.of_nat (length (edit_line [] cs)) + 1, edit_line [] cs ++ [NEWLINE]) /\ pending (getc := getc) (st_cons st') = []).
Proof.
  intros Hk Hp Hcs Hlen Hn Hd.
  assert (Hall : type_all (cs ++ [13]) ([], []) = (edit_line [] cs ++ [NEWLINE], [])).
  { unfold type_all. rewrite fold_left_app. fold (type_all cs ([], [])). rewrite type_line by (simpl; unfold INPUT_BUF; done || lia).
    cbn [fold_left key_spec]. pose proof (length_edit [] cs) as Hl. simpl in Hl.
    change (13 =? Ctl 80) with false. change (13 =? Ctl 85) with false. change ((13 =? Ctl 72) || (13 =? 127)) with false.
    change (negb (13 =? 0)) with true. cbn [andb length Nat.add]. rewrite (proj2 (Nat.ltb_lt _ _)) by (unfold INPUT_BUF; lia). done. }
  eapply srun_bind, (consoleintr_run getc st ([], [])); [|done|].
  { rewrite Hp. apply Forall_app. split; [|constructor; [done|constructor]]. eapply Forall_impl; [exact Hcs|].
    intros c (H1 & H2 & _). done. }
  intros k Hk' Hp'. rewrite Hp, Hall in Hk'. destruct Hk' as (_ & Hrep & _). cbn [fst snd] in Hrep.
  eapply (consoleread_run ip n _ (edit_line [] cs ++ [NEWLINE]) [] (edit_line [] cs ++ [NEWLINE]) []); try done.
  - apply take_line_newline; [now apply edit_on_line|lia].
  - intros v Hv'. split; [f_equal; rewrite length_app; simpl; lia|]. cbn [st_cons set_cons].
    rewrite <- Hp'. apply pending_same. done.
Qed.

(** ** Writing *)
Definition sent (c : Z) (k k' : console) : Prop :=
  c_serial k' = c_serial k ++ (if c_uart k =? 0 then [] else [u8 c]).
Lemma consputc_sent c k : cons_ok k -> c <> BACKSPACE ->
  exists k', consputc c k = Done tt k' /\ cons_ok k' /\ same_side k k' /\ sent c k k'.
Proof.
  intros Hk Hc. unfold consputc, uartputc, sent. rewrite bind_gets, (proj1 Hk), (proj2 (Z.eqb_neq _ _) Hc). cbn [Z.eqb negb].
  unfold bind at 1 2, gets, modify, ret. cbn [prog_bind].
  assert (Hcga : forall k, same_side k (cga c k) /\ c_panicked (cga c k) = c_panicked k /\ c_serial (cga c k) = c_serial k).
  { intros k'. unfold cga. destruct (24 <=? _); done. }
  destruct (c_uart k =? 0); cbn [prog_bind].
  - destruct (cgaputc_run c k (proj2 Hk)) as [R O]. exists (cga c k). destruct (Hcga k) as (S1 & S2 & S3).
    rewrite app_nil_r. split; [done|]. split; [split; [rewrite S2; apply Hk|done]|done].
  - set (k1 := set_serial (c_serial k ++ [u8 c]) k). destruct (cgaputc_run c k1 (proj2 Hk)) as [R O]. exists (cga c k1).
    destruct (Hcga k1) as (S1 & S2 & S3). split; [done|]. split; [split; [rewrite S2; apply Hk|done]|]. done.
Qed.

Lemma write_loop_run buf st (Q : unit -> storage -> Prop) :
  cons_ok (st_cons st) ->
  (forall k, cons_ok k -> same_side (st_cons st) k ->
    c_serial k = c_serial (st_cons st) ++ (if c_uart (st_cons st) =? 0 then [] else map u8 buf) -> Q tt (set_cons k st)) ->
  srun w {[CONS_LOCK]} (for_each buf (fun c => on_cons (consputc (Z.land c 0xff)))) st {[CONS_LOCK]} Q.
Proof.
  revert st. induction buf as [|c buf IH]; intros st Hk HQ; cbn [for_each].
  { apply srun_ret. replace st with (set_cons (st_cons st) st) by now destruct st.
    apply HQ; [exact Hk|done|]. cbn. destruct (_ =? 0); now rewrite app_nil_r. }
  assert (Hu : u8 (Z.land c 0xff) = u8 c).
  { unfold u8. change 0xff with (Z.ones 8). rewrite Z.land_ones by lia. change (2 ^ 8) with 256. now rewrite Z.mod_mod. }
  destruct (consputc_sent (Z.land c 0xff) (st_cons st) Hk) as (k1 & R & O & S1 & T).
  { change 0xff with (Z.ones 8). rewrite Z.land_ones by lia. pose proof (Z.mod_pos_bound c (2 ^ 8) ltac:(lia)). unfold BACKSPACE. lia. }
  eapply srun_bind, srun_on_cons; [exact R|]. apply (IH (set_cons k1 st)); [exact O|]. intros k Ok Sk Tk. rewrite set_cons_set.
  cbn [st_cons set_cons] in *. assert (Eu : c_uart k1 = c_uart (st_cons st)) by apply S1.
  apply HQ; [done|eauto using same_side_trans|]. rewrite Tk, Eu. unfold sent in T. rewrite T, Hu, <- app_assoc. f_equal.
  now destruct (_ =? 0).
Qed.

(** A write to the console returns the number of bytes and sends exactly
    these bytes, in order, over the serial line (when there is one); typed input
    and the line being edited stay as they are, and the inode is locked again. *)
Theorem consolewrite_sends ip buf n st :
  cons_ok (st_cons st) -> Z.of_nat (length buf) = n ->
  dev_locked ip st ->
  srun w ∅ (consolewrite ip buf n) st ∅ (fun r st' => r = n /\ same_side (st_cons st) (st_cons st') /\ dev_locked ip st' /\
    c_serial (st_cons st') = c_serial (st_cons st) ++ (if c_uart (st_cons st) =? 0 then [] else map u8 buf)).
Proof.
  intros Hk Hn Hd. unfold consolewrite. apply (unlocked_run ip _ (fun _ => n)); [done|].
  rewrite take_ge by lia. eapply write_loop_run; [exact Hk|]. intros k Ok Sk Tk. exists k. split; [done|].
  destruct Hd as (Hr & Hv & Hs). split; [done|]. split; [exact Sk|]. split; [|exact Tk]. split; [exact Hr|]. split; [exact Hv|].
  exact (the_sleep_set (inode_lock ip) (mkSleep 1 (w_pid w)) st).
Qed.
End Handlers.

(** ** A run *)
(** "lk", rubout, "s" and Enter over the serial line; inode 0 is the console. *)
Definition demo_console : console :=
  mkConsole 1 0 input0 (replicate (128 * 128) 0) 0 true 1 [] 0 [] [108; 107; 127; 115; 13].
Definition demo_store : storage :=
  set_cons demo_console (set_sleep (inode_lock 0) (mkSleep 1 (w_pid demo_who))
    (upd_inode 0 (fun _ => mkInode 1 5 1 1 T_DEV CONSOLE 1 1 0 (replicate 13 0)) demo_storage)).
#[local] Instance demo_wait : Wait := 0%nat.

Lemma demo_line_ok : line_ok demo_console ([], []).
Proof.
  split; [split; [done|split; [apply length_replicate|simpl; lia]]|]. split; [|set_solver].
  split; [apply length_replicate|simpl; lia|]. exists 0. split; [done|]. split; [done|]. split; [done|]. intros i c Hi. now destruct i.
Qed.
Lemma demo_dev_locked : dev_locked demo_who 0 demo_store.
Proof.
  split; [change (1 <= 1); lia|]. split; [change (1 <> 0); lia|]. apply the_sleep_set.
Qed.

Lemma typed_line_is_read_witness :
  srun demo_who ∅ (consoleintr (fun _ _ => []) uartgetc ;;; consoleread 0 100) demo_store ∅
    (fun r st' => r = (3, [108; 115; 10]) /\ pending (getc := uartgetc) (st_cons st') = []).
Proof.
  pose proof (typed_line_is_read (fun _ _ => []) demo_who uartgetc 0 100 [108; 107; 127; 115] demo_store demo_line_ok eq_refl) as H.
  apply H; [repeat constructor; done|simpl; lia|vm_compute; reflexivity|exact demo_dev_locked].
Defined.
Lemma consolewrite_sends_witness :
  srun demo_who ∅ (consolewrite 0 [104; 105; 10] 3) demo_store ∅ (fun r st' => r = 3 /\
    same_side (st_cons demo_store) (st_cons st') /\ dev_locked demo_who 0 st' /\ c_serial (st_cons st') = [104; 105; 10]).
Proof. exact (consolewrite_sends demo_who 0 [104; 105; 10] 3 demo_store (proj1 demo_line_ok) eq_refl demo_dev_locked). Defined.
Lemma screen_shows_witness :
  exists k', for_each [104; 105] cgaputc demo_console = Done tt k' /\ c_pos k' = 2 /\
    cell k' 0 = Z.lor 104 0x700 /\ cell k' 1 = Z.lor 105 0x700 /\ cell k' 2 = BLANK.
Proof.
  destruct (screen_shows [104; 105] demo_console) as (k' & R & _ & P & C & B & _);
    [apply demo_line_ok|vm_compute; reflexivity|vm_compute; reflexivity|repeat constructor|].
  exists k'. split; [exact R|]. split; [exact P|]. split; [exact (C 0%nat 104 eq_refl)|]. split; [exact (C 1%nat 105 eq_refl)|].
  pose proof (B ltac:(done)) as B'. now rewrite P in B'.
Defined.
