(* ===== verification/Main.v ===== *)
(** * The start of the kernel (main.c)

    [main], [mpenter], [mpmain] and [startothers], composed of the functions of
    the other files.  The addresses that the linker and the assembler choose
    are arguments: the end of the kernel, the entry points of the vectors, the
    code that other processors start with, [mpenter] and [entrypgdir].  While
    the first processor waits for another one to start, other processors run:
    the wait is a [Switch].  The message of [mpmain] is left out.

    The theorem is about the part of [main] that programs the processor and the
    interrupt controllers: a device that interrupts reaches its handler.  The
    functions of that part act on the state [core]. *)
From S2P Require Import Prelude Mmu Segs Str Spinlock Kalloc Vm Proc Exec Sched Store Apic Bio Ide Mp Log LogCrash Fs Pipe File Syscall SysFile Image Mutex Trap Console.

Definition KERN_4MB : Z := P2V (4 * 1024 * 1024).
Definition AP_CODE : Z := P2V 0x7000.

Section Main.
Context {W : Wait} {D : Devices} (trapret forkret data init size : Z).
#[local] Instance kernel : KernelExt storage := storage_ext trapret forkret data init size.
Context (kend : Z) (vectors : Z -> Z) (ts_addr : nat -> Z) (entryother : list Z) (mpenter_addr entrypgdir : Z) (rounds : nat).

Definition mpmain (kpgdir : Z) : M kfs unit :=
  idtinit ;;;
  c <~ on_cpus mycpu ;;
  on_cpus (modify (upd_cpu c (set_started 1))) ;;;
  scheduler rounds kpgdir.

Definition mpenter (kpgdir : Z) : M kfs unit :=
  on_base (lcr3 (V2P kpgdir)) ;;;
  on_cpus seginit ;;;
  lapicinit ;;;
  mpmain kpgdir.

Fixpoint wait_started (fuel c : nat) : M kfs unit :=
  v <~ gets (fun s => cpu_field 0 c_started c (k_mach s)) ;;
  if v =? 0 then
    match fuel with
    | O => fun _ => Spin
    | S fuel => swtch ;;; wait_started fuel c
    end
  else ret tt.
Definition start_cpu (c : nat) : M kfs unit :=
  cur <~ on_cpus mycpu ;;
  if (c =? cur)%nat then ret tt
  else
    stack <~ on_base kalloc ;;
    on_base (store (AP_CODE - 4) (u32 (stack + KSTACKSIZE))) ;;;
    on_base (store (AP_CODE - 8) mpenter_addr) ;;;
    on_base (store (AP_CODE - 12) (V2P entrypgdir)) ;;;
    apicid <~ gets (fun s => cpu_field 0 c_apicid c (k_mach s)) ;;
    lapicstartap apicid (V2P AP_CODE) ;;;
    wait_started wait_bound c.
Definition startothers : M kfs unit :=
  on_base (kput AP_CODE entryother) ;;;
  ncpu <~ gets (fun s => length (m_cpus (k_mach s))) ;;
  for_each (seq 0 ncpu) start_cpu.

(** The part of [main] from [lapicinit] to [ideinit]. *)
Definition init_devices : M kfs unit :=
  lapicinit ;;;
  on_cpus seginit ;;;
  picinit ;;;
  ioapicinit ;;;
  consoleinit ;;;
  uartinit ;;;
  pinit ;;;
  tvinit vectors ;;;
  binit ;;;
  fileinit ;;;
  Ide.ideinit.
Definition main : M kfs unit :=
  on_base (kinit1 kend KERN_4MB) ;;;
  kpgdir <~ on_base (kvmalloc data) ;;
  mpinit ts_addr ;;;
  init_devices ;;;
  startothers ;;;
  on_base (kinit2 KERN_4MB (P2V PHYSTOP)) ;;;
  userinit ;;;
  mpmain kpgdir.
End Main.

(** ** The state of the processors and the devices *)
Record core := mkCore {
  co_cpus : list cpu;
  co_cur : nat;
  co_dev : devs;
  co_ide : ide;
  co_port : bool;
}.
Definition core_of (s : kfs) : core :=
  mkCore (m_cpus (k_mach s)) (m_cur (k_mach s)) (st_devs (k_ext s)) (st_ide (k_ext s)) (c_port (st_cons (k_ext s))).
Definition set_co_dev (d : devs) (k : core) : core := mkCore (co_cpus k) (co_cur k) d (co_ide k) (co_port k).
Definition set_co_ide (i : ide) (k : core) : core := mkCore (co_cpus k) (co_cur k) (co_dev k) i (co_port k).
Definition set_co_cpus (c : list cpu) (k : core) : core := mkCore c (co_cur k) (co_dev k) (co_ide k) (co_port k).

(** A run determined by that part of the state. *)
Definition cruns {A : Type} (m : M kfs A) (k : core) (a : A) (k' : core) : Prop :=
  forall s, core_of s = k -> exists s', m s = Done a s' /\ core_of s' = k'.

Lemma cruns_bind {A B} (m : M kfs A) (f : A -> M kfs B) k a k1 b k2 : cruns m k a k1 -> cruns (f a) k1 b k2 -> cruns (bind m f) k b k2.
Proof.
  intros H1 H2 s Hs. destruct (H1 s Hs) as (s1 & R1 & E1). destruct (H2 s1 E1) as (s2 & R2 & E2). exists s2. split; [|exact E2].
  unfold bind. rewrite R1. exact R2.
Qed.

Lemma cruns_ret {A} (a : A) k : cruns (ret a) k a k.
Proof. intros s Hs. now exists s. Qed.

Lemma cruns_to {A} (m : M kfs A) k a k1 k2 : cruns m k a k1 -> k1 = k2 -> cruns m k a k2.
Proof. now intros H <-. Qed.

Lemma cruns_get_dev {A} (f : devs -> A) k : cruns (get_dev f) k (f (co_dev k)) k.
Proof. intros s <-. now exists s. Qed.

Lemma cruns_upd_dev f k : cruns (upd_dev f) k tt (set_co_dev (f (co_dev k)) k).
Proof. intros s <-. eexists. split; reflexivity. Qed.

Lemma cruns_get_ide {A} (f : ide -> A) k : cruns (get_ide f) k (f (co_ide k)) k.
Proof. intros s <-. now exists s. Qed.

Lemma cruns_upd_ide f k : cruns (upd_ide f) k tt (set_co_ide (f (co_ide k)) k).
Proof. intros s <-. eexists. split; reflexivity. Qed.

Lemma cruns_initlock a nm k : cruns (on_cpus (initlock a nm)) k tt k.
Proof. intros s <-. eexists. split; reflexivity. Qed.

Lemma cruns_modst f k : (forall st, st_devs (f st) = st_devs st /\ st_ide (f st) = st_ide st /\ st_cons (f st) = st_cons st) -> cruns (modst f) k tt k.
Proof.
  intros Hf s <-. eexists. split; [reflexivity|]. unfold core_of. cbn. destruct (Hf (k_ext s)) as (-> & -> & ->). reflexivity.
Qed.

Lemma cruns_cons m k : (forall c, exists c', m c = Done tt c' /\ c_port c' = c_port c) -> cruns (on_cons m) k tt k.
Proof.
  intros Hm s <-. destruct (Hm (st_cons (k_ext s))) as (c' & R & P). unfold on_cons, zoom. rewrite R. eexists. split; [reflexivity|].
  unfold core_of. cbn. now rewrite P.
Qed.

Lemma cruns_when b m k k' : cruns m k tt k' -> cruns (when b m) k tt (if b then k' else k).
Proof. intros H. destruct b; [exact H|apply cruns_ret]. Qed.

Lemma cruns_for_each {A} (l : list A) body k (f : A -> core -> core) :
  (forall a k, cruns (body a) k tt (f a k)) -> cruns (for_each l body) k tt (foldl (fun k a => f a k) k l).
Proof.
  intros H. revert k. induction l as [|a l IH]; intros k; cbn [for_each foldl]; [apply cruns_ret|]. eapply cruns_bind; [apply H|apply IH].
Qed.

(** ** The local APIC *)
(** The registers [l] of the local APIC written by the processor [c]. *)
Definition with_writes (c : nat) (l : list (Z * Z)) (d : devs) : devs :=
  mkDevs (dv_ioapicid d) (dv_lapic d) (dv_apic d ++ ((fun w : Z * Z => (c, w.1, u32 w.2)) <$> l)) (dv_apicver d) (dv_icr d)
    (dv_ioreg d) (dv_ioapic d) (dv_ports d) (dv_imcr d) (dv_idt d).

Lemma cruns_write1 l i v k d :
  cruns (lapicw i v) (set_co_dev (with_writes (co_cur k) l d) k) tt (set_co_dev (with_writes (co_cur k) (l ++ [(i, v)]) d) k).
Proof.
  intros s Hs. eexists. split; [reflexivity|]. unfold core_of in *. injection Hs as H1 H2 H3 H4 H5. cbn. unfold k_mach in *. cbn.
  rewrite H1, H2, H3, H4, H5. unfold set_co_dev, with_writes, add_apic. cbn. now rewrite fmap_app, app_assoc.
Qed.

Lemma cruns_write l i v m k d k' :
  cruns m (set_co_dev (with_writes (co_cur k) (l ++ [(i, v)]) d) k) tt k' ->
  cruns (lapicw i v ;;; m) (set_co_dev (with_writes (co_cur k) l d) k) tt k'.
Proof. intros H. eapply cruns_bind; [apply cruns_write1|exact H]. Qed.

Lemma cruns_write_if l (b : bool) i v m k d k' :
  cruns m (set_co_dev (with_writes (co_cur k) (l ++ if b then [(i, v)] else []) d) k) tt k' ->
  cruns (when b (lapicw i v) ;;; m) (set_co_dev (with_writes (co_cur k) l d) k) tt k'.
Proof.
  destruct b; [apply cruns_write|]. rewrite app_nil_r. intros H. eapply cruns_bind; [apply cruns_ret|exact H].
Qed.

Definition lapic_writes (pc : bool) : list (Z * Z) :=
  [(SVR, Z.lor ENABLE (T_IRQ0 + IRQ_SPURIOUS)); (TDCR, X1); (TIMER, Z.lor PERIODIC (T_IRQ0 + IRQ_TIMER)); (TICR, 10000000);
   (LINT0, MASKED); (LINT1, MASKED)] ++ (if pc then [(PCINT, MASKED)] else []) ++
  [(ERROR, T_IRQ0 + IRQ_ERROR); (ESR, 0); (ESR, 0); (EOI, 0); (ICRHI, 0); (ICRLO, Z.lor (Z.lor BCAST INIT) LEVEL); (TPR, 0)].
Definition has_pcint (d : devs) : bool := 4 <=? Z.land (Z.shiftr (dv_apicver d) 16) 0xFF.

Lemma lapicinit_cruns k icr : dv_lapic (co_dev k) <> 0 -> delivered (dv_icr (co_dev k)) = Some icr ->
  cruns lapicinit k tt (set_co_dev (with_writes (co_cur k) (lapic_writes (has_pcint (co_dev k))) (set_icr icr (co_dev k))) k).
Proof.
  intros Hl Hi. unfold lapicinit. eapply cruns_bind; [apply cruns_get_dev|]. rewrite (proj2 (Z.eqb_neq _ _) Hl).
  replace k with (set_co_dev (with_writes (co_cur k) [] (co_dev k)) k) at 1
    by (destruct k as [? ? [] ? ?]; unfold set_co_dev, with_writes; cbn; now rewrite app_nil_r).
  do 6 apply cruns_write. eapply cruns_bind; [apply cruns_get_dev|]. apply cruns_write_if. do 6 apply cruns_write.
  eapply cruns_bind.
  - unfold wait_delivery. eapply cruns_bind; [apply cruns_get_dev|]. cbn [co_dev set_co_dev with_writes dv_icr]. rewrite Hi. apply cruns_upd_dev.
  - match goal with |- cruns _ ?k1 _ _ =>
      match k1 with context [with_writes _ ?l _] => change k1 with (set_co_dev (with_writes (co_cur k) l (set_icr icr (co_dev k))) k) end end.
    eapply cruns_to; [apply cruns_write1|]. do 2 f_equal. unfold lapic_writes. rewrite <- !app_assoc. reflexivity.
Qed.

(** ** The I/O APIC *)
Definition io_write (r v : Z) (d : devs) : devs := set_ioapic r (<[r := u32 v]> (dv_ioapic d)) d.
Definition on_dev (f : devs -> devs) (k : core) : core := set_co_dev (f (co_dev k)) k.
Definition mask_irq (i : Z) (d : devs) : devs :=
  io_write (REG_TABLE + 2 * i + 1) 0 (io_write (REG_TABLE + 2 * i) (Z.lor INT_DISABLED (T_IRQ0 + i)) d).
Definition enable_irq (irq cpunum : Z) (d : devs) : devs :=
  io_write (REG_TABLE + 2 * irq + 1) (Z.shiftl cpunum 24) (io_write (REG_TABLE + 2 * irq) (T_IRQ0 + irq) d).
Definition max_irq (d : devs) : Z := Z.land (Z.shiftr (default 0 (dv_ioapic d !! REG_VER)) 16) 0xFF.

Lemma cruns_io_write r v k : cruns (ioapicwrite r v) k tt (on_dev (io_write r v) k).
Proof. intros s <-. eexists. split; reflexivity. Qed.

Lemma cruns_enable irq c k : cruns (ioapicenable irq c) k tt (on_dev (enable_irq irq c) k).
Proof. unfold ioapicenable. eapply cruns_bind; apply cruns_io_write. Qed.

Lemma foldl_on_dev {A} (f : A -> devs -> devs) l k : foldl (fun k a => on_dev (f a) k) k l = on_dev (fun d => foldl (fun d a => f a d) d l) k.
Proof. revert k. induction l as [|a l IH]; intros k; cbn [foldl]; [now destruct k|]. rewrite IH. reflexivity. Qed.

Definition masked_table (d : devs) : devs := foldl (fun d i => mask_irq i d) (set_ioapic REG_ID (dv_ioapic d) d) (seqZ 0 (max_irq d + 1)).

Lemma ioapicinit_cruns k : cruns ioapicinit k tt (on_dev masked_table k).
Proof.
  unfold ioapicinit. eapply cruns_bind; [eapply cruns_bind; [apply cruns_upd_dev|apply cruns_get_dev]|].
  eapply cruns_bind; [eapply cruns_bind; [apply cruns_upd_dev|apply cruns_get_dev]|].
  eapply cruns_to; [apply (cruns_for_each _ _ _ (fun i => on_dev (mask_irq i))); intros i k0; eapply cruns_bind; apply cruns_io_write|].
  rewrite foldl_on_dev. reflexivity.
Qed.

Lemma enable_idt i c d : dv_idt (enable_irq i c d) = dv_idt d.
Proof. done. Qed.

Lemma enable_apic i c d : dv_apic (enable_irq i c d) = dv_apic d.
Proof. done. Qed.

(** The two registers of an interrupt: its vector with the mask bit, and the
    processor. *)
Definition entry_of (i : Z) (d : devs) : option Z * option Z :=
  (dv_ioapic d !! (REG_TABLE + 2 * i), dv_ioapic d !! (REG_TABLE + 2 * i + 1)).

Lemma entry_write i j lo hi d : entry_of i (io_write (REG_TABLE + 2 * j + 1) hi (io_write (REG_TABLE + 2 * j) lo d)) =
  if decide (i = j) then (Some (u32 lo), Some (u32 hi)) else entry_of i d.
Proof.
  unfold entry_of, io_write, REG_TABLE. cbn [dv_ioapic set_ioapic]. destruct (decide (i = j)) as [->|Hne].
  - rewrite lookup_insert_eq, lookup_insert_ne, lookup_insert_eq by lia. done.
  - now rewrite !lookup_insert_ne by lia.
Qed.

Lemma entry_masked i l d : entry_of i (foldl (fun d i => mask_irq i d) d l) =
  if decide (i ∈ l) then (Some (u32 (Z.lor INT_DISABLED (T_IRQ0 + i))), Some 0) else entry_of i d.
Proof.
  revert d. induction l as [|j l IH]; intros d; cbn [foldl]; [now rewrite decide_False by set_solver|].
  rewrite IH. unfold mask_irq. rewrite entry_write. destruct (decide (i ∈ l)); [now rewrite decide_True by set_solver|].
  destruct (decide (i = j)) as [->|]; [rewrite decide_True by set_solver|rewrite decide_False by set_solver]; done.
Qed.

Lemma foldl_keeps {A} (f : A -> devs -> devs) (P : devs -> devs -> Prop) l d :
  (forall d, P d d) -> (forall d1 d2 d3, P d1 d2 -> P d2 d3 -> P d1 d3) -> (forall a d, P d (f a d)) -> P d (foldl (fun d a => f a d) d l).
Proof. intros Hr Ht Hf. revert d. induction l as [|a l IH]; intros d; cbn [foldl]; [apply Hr|]. eapply Ht; [apply Hf|apply IH]. Qed.

(** The parts that the I/O APIC does not touch. *)
Definition keeps_tables (d d' : devs) : Prop := dv_apic d' = dv_apic d /\ dv_idt d' = dv_idt d.
Lemma masked_keeps d : keeps_tables d (masked_table d).
Proof.
  unfold masked_table. apply (foldl_keeps mask_irq (fun d1 d2 => keeps_tables d d1 -> keeps_tables d d2)); [auto|auto| |split; reflexivity].
  intros a d1 H. exact H.
Qed.

(** ** The interrupt table *)
Definition put_gate (i : Z) (g : gatedesc) (d : devs) : devs := set_idt (<[Z.to_nat i := g]> (dv_idt d)) d.
Definition irq_gate (vectors : Z -> Z) (i : Z) : gatedesc := SETGATE false (Z.shiftl SEG_KCODE 3) (vectors i) 0.
Definition syscall_gate (vectors : Z -> Z) : gatedesc := SETGATE true (Z.shiftl SEG_KCODE 3) (vectors T_SYSCALL) DPL_USER.
Definition vector_table (vectors : Z -> Z) (d : devs) : devs :=
  put_gate T_SYSCALL (syscall_gate vectors) (foldl (fun d i => put_gate i (irq_gate vectors i) d) d (seqZ 0 256)).

Lemma tvinit_cruns vectors k : cruns (tvinit vectors) k tt (on_dev (vector_table vectors) k).
Proof.
  unfold tvinit. eapply cruns_bind; [apply (cruns_for_each _ _ _ (fun i => on_dev (put_gate i (irq_gate vectors i)))); intros i k0; apply cruns_upd_dev|].
  rewrite foldl_on_dev. eapply cruns_bind; [apply cruns_upd_dev|apply cruns_initlock].
Qed.

Lemma gates_lookup vectors l d i : (0 <= i) -> Forall (fun j => 0 <= j) l -> (Z.to_nat i < length (dv_idt d))%nat ->
  let d' := foldl (fun d i => put_gate i (irq_gate vectors i) d) d l in
  length (dv_idt d') = length (dv_idt d) /\
  dv_idt d' !! Z.to_nat i = if decide (i ∈ l) then Some (irq_gate vectors i) else dv_idt d !! Z.to_nat i.
Proof.
  intros Hi. revert d. induction l as [|j l IH]; intros d Hl Hlen; cbn [foldl].
  - split; [done|]. now rewrite decide_False by set_solver.
  - apply Forall_cons in Hl as [Hj Hl]. destruct (IH (put_gate j (irq_gate vectors j) d) Hl) as [L1 L2]; [cbn; now rewrite length_insert|].
    split; [rewrite L1; cbn; now rewrite length_insert|]. rewrite L2. destruct (decide (i ∈ l)); [now rewrite decide_True by set_solver|].
    cbn. destruct (decide (i = j)) as [->|Hne].
    + rewrite decide_True by set_solver. now rewrite list_lookup_insert_eq.
    + rewrite decide_False by set_solver. rewrite list_lookup_insert_ne by lia. done.
Qed.

Lemma vector_table_lookup vectors d i : length (dv_idt d) = 256%nat -> 0 <= i < 256 ->
  dv_idt (vector_table vectors d) !! Z.to_nat i = Some (if i =? T_SYSCALL then syscall_gate vectors else irq_gate vectors i).
Proof.
  intros Hl Hi. unfold vector_table. cbn [dv_idt put_gate set_idt].
  destruct (gates_lookup vectors (seqZ 0 256) d i) as [L1 L2]; [lia|apply Forall_forall; intros j Hj%elem_of_seqZ; lia|lia|].
  destruct (Z.eqb_spec i T_SYSCALL) as [->|Hne].
  - rewrite list_lookup_insert_eq; [done|]. rewrite L1, Hl. unfold T_SYSCALL. lia.
  - rewrite list_lookup_insert_ne by (unfold T_SYSCALL in *; lia). rewrite L2, decide_True; [done|]. apply elem_of_seqZ. lia.
Qed.

Lemma gates_keep vectors l d : let d' := foldl (fun d i => put_gate i (irq_gate vectors i) d) d l in
  dv_apic d' = dv_apic d /\ dv_ioapic d' = dv_ioapic d.
Proof.
  revert d. induction l as [|j l IH]; intros d; cbn [foldl]; [done|]. destruct (IH (put_gate j (irq_gate vectors j) d)) as [-> ->]. done.
Qed.

Lemma put_gate_keeps i g d : dv_apic (put_gate i g d) = dv_apic d /\ dv_ioapic (put_gate i g d) = dv_ioapic d.
Proof. done. Qed.

Lemma vector_table_keeps vectors d : dv_apic (vector_table vectors d) = dv_apic d /\ dv_ioapic (vector_table vectors d) = dv_ioapic d.
Proof.
  unfold vector_table. destruct (gates_keep vectors (seqZ 0 256) d) as [E1 E2]. rewrite <- E1, <- E2. apply put_gate_keeps.
Qed.

(** ** The devices *)
Lemma cruns_outb p v k : cruns (Apic.outb p v) k tt (on_dev (add_port p v) k).
Proof. apply cruns_upd_dev. Qed.

Lemma consoleinit_cruns k : cruns consoleinit k tt (on_dev (enable_irq IRQ_KBD 0) k).
Proof.
  unfold consoleinit. eapply cruns_bind; [apply cruns_initlock|]. eapply cruns_bind; [|apply cruns_enable].
  apply cruns_cons. intros c. now eexists.
Qed.

Lemma cruns_port k : cruns (on_cons (gets c_port)) k (co_port k) k.
Proof. intros s <-. eexists. split; [reflexivity|]. destruct s as [? ? ? ? ? ? []]. reflexivity. Qed.

Definition com_ports (d : devs) : devs :=
  add_port (COM1 + 1) 0x01 (add_port (COM1 + 4) 0 (add_port (COM1 + 3) 0x03 (add_port (COM1 + 1) 0
    (add_port (COM1 + 0) (115200 / 9600) (add_port (COM1 + 3) 0x80 (add_port (COM1 + 2) 0 d)))))).
Lemma com_ports_idt d : dv_idt (com_ports d) = dv_idt d.
Proof. done. Qed.

Lemma com_ports_apic d : dv_apic (com_ports d) = dv_apic d.
Proof. done. Qed.

Lemma uartinit_cruns k : co_port k = true -> cruns uartinit k tt (on_dev (fun d => enable_irq IRQ_COM1 0 (com_ports d)) k).
Proof.
  intros Hp. unfold uartinit. do 7 (eapply cruns_bind; [apply cruns_outb|]). eapply cruns_bind; [apply cruns_port|].
  cbn [co_port on_dev set_co_dev]. rewrite Hp. cbn [negb]. eapply cruns_bind; [apply cruns_cons; intros c; now eexists|].
  eapply cruns_bind; [apply cruns_enable|].
  eapply cruns_to; [apply (cruns_for_each _ _ _ (fun _ k => k)); intros c k0; apply cruns_cons; intros q; unfold uartputc; rewrite bind_gets|].
  - destruct (c_uart q =? 0); now eexists.
  - generalize hello. intros l. induction l as [|c l IH]; [reflexivity|exact IH].
Qed.

Lemma cruns_initsleeplock l k : cruns (initsleeplock l) k tt k.
Proof. unfold initsleeplock. eapply cruns_bind; [apply cruns_initlock|]. now apply cruns_modst. Qed.

Lemma foldl_same {A} (l : list A) (k : core) : foldl (fun k _ => k) k l = k.
Proof. induction l as [|a l IH]; [done|exact IH]. Qed.

Lemma binit_cruns k : cruns binit k tt k.
Proof.
  unfold binit. eapply cruns_bind; [apply cruns_initlock|]. do 2 (eapply cruns_bind; [now apply cruns_modst|]).
  eapply cruns_to; [apply (cruns_for_each _ _ _ (fun _ k => k)); intros b k0|apply foldl_same].
  do 2 (eapply cruns_bind; [now apply cruns_modst|]). eapply cruns_bind; [apply cruns_initsleeplock|].
  eapply cruns_bind; now apply cruns_modst.
Qed.

(** ** The segments of a processor *)
Definition with_segments (c : cpu) : cpu :=
  let g := c_seg c in set_seg (mkSeg (sg_ts g) (kernel_segments (sg_gdt g)) true (sg_idtr g) (sg_tr g)) c.

Lemma seginit_cruns k c : on_cpu (mkMach (co_cpus k) (co_cur k) ∅) c -> c_IF c = false ->
  cruns (on_cpus seginit) k tt (set_co_cpus (alter with_segments (co_cur k) (co_cpus k)) k).
Proof.
  intros Hon HIF s <-. cbn [co_cpus co_cur core_of] in *.
  assert (Hon' : on_cpu (k_mach s) c) by exact Hon. pose proof (mycpu_ok _ _ Hon' HIF) as Hc.
  eexists. split.
  - eapply on_cpus_done. unfold seginit, bind. rewrite Hc. reflexivity.
  - unfold core_of, set_co_cpus. cbn. f_equal. unfold k_mach in *. rewrite list_alter_alter_eq. reflexivity.
Qed.

(** ** The disk *)
Lemma cruns_ide_outb p v k : id_pending (co_ide k) = false -> p <> CMD_PORT -> cruns (Ide.outb p v) k tt (set_co_ide (set_reg p (u8 v) (co_ide k)) k).
Proof.
  intros Hp Hc. unfold Ide.outb. eapply cruns_bind; [apply cruns_get_ide|]. rewrite Hp. eapply cruns_bind; [apply cruns_upd_ide|].
  rewrite (proj2 (Z.eqb_neq _ _) Hc). apply cruns_ret.
Qed.

Lemma cruns_ncpu k : cruns (gets (fun s => Z.of_nat (length (m_cpus (k_mach s))))) k (Z.of_nat (length (co_cpus k))) k.
Proof. intros s <-. now exists s. Qed.

Lemma ideinit_cruns k r r1 l : poll (id_status (co_ide k)) = Some (r, r1 :: l) -> r1 <> 0 -> id_pending (co_ide k) = false ->
  exists i, cruns Ide.ideinit k tt (set_co_ide i (on_dev (enable_irq IRQ_IDE (Z.of_nat (length (co_cpus k)) - 1)) k)) /\ id_havedisk1 i = 1.
Proof.
  intros Hs Hr Hp. eexists. split.
  - unfold Ide.ideinit. eapply cruns_bind; [apply cruns_initlock|]. eapply cruns_bind; [apply cruns_ncpu|].
    eapply cruns_bind; [apply cruns_enable|]. eapply cruns_bind.
    { unfold idewait. eapply cruns_bind; [apply cruns_get_ide|]. cbn [co_ide on_dev set_co_dev]. rewrite Hs. eapply cruns_bind; [apply cruns_upd_ide|apply cruns_ret]. }
    eapply cruns_bind; [now apply cruns_ide_outb|]. eapply cruns_bind.
    { change 1000%nat with (S 999). cbn [probe]. unfold inb_status. eapply cruns_bind.
      - eapply cruns_bind; [apply cruns_get_ide|]. cbn [co_ide set_co_ide set_reg set_status id_status]. eapply cruns_bind; [apply cruns_upd_ide|apply cruns_ret].
      - rewrite (proj2 (Z.eqb_neq _ _) Hr). apply cruns_upd_ide. }
    eapply cruns_to; [now apply cruns_ide_outb|reflexivity].
  - reflexivity.
Qed.

(** ** A device that interrupts reaches its handler *)
(** What the processor finds in the descriptor tables. *)
Definition flat (type dpl : Z) : segview := mkSegview 0 0xffffffff type 1 dpl 1.
Record segments_loaded (c : cpu) : Prop := {
  sl_gdtr : sg_gdtr (c_seg c) = true;
  sl_gdt : forall i type dpl, (i, type, dpl) ∈ [(SEG_KCODE, 0xA, 0); (SEG_KDATA, 0x2, 0); (SEG_UCODE, 0xA, 3); (SEG_UDATA, 0x2, 3)] ->
    exists d, sg_gdt (c_seg c) !! Z.to_nat i = Some d /\ decode_seg (segword d) = flat type dpl;
}.

Lemma kernel_segments_loaded c : length (sg_gdt (c_seg c)) = NSEGS -> segments_loaded (with_segments c).
Proof.
  intros Hl. split; [done|]. intros i type dpl Hi. cbn [c_seg with_segments set_seg sg_gdt]. unfold kernel_segments.
  destruct (sg_gdt (c_seg c)) as [|d0 [|d1 [|d2 [|d3 [|d4 [|d5 [|]]]]]]]; try done.
  repeat (apply elem_of_cons in Hi as [[= -> -> ->]|Hi]; [eexists; split; [reflexivity|]; now rewrite SEG_decode|]).
  now apply elem_of_nil in Hi.
Qed.

Definition gates_loaded (vectors : Z -> Z) (d : devs) : Prop := forall i, 0 <= i < 256 ->
  exists g, dv_idt d !! Z.to_nat i = Some g /\
    decode_gate (gateword g) = if i =? T_SYSCALL then mkGateView 8 (vectors i) STS_TG32 DPL_USER 1 else mkGateView 8 (vectors i) STS_IG32 0 1.

Lemma vector_table_loaded vectors d : length (dv_idt d) = 256%nat -> (forall i, 0 <= vectors i < 2 ^ 32) -> gates_loaded vectors (vector_table vectors d).
Proof.
  intros Hl Hv i Hi. rewrite (vector_table_lookup vectors d i Hl Hi). eexists. split; [reflexivity|].
  destruct (Z.eqb_spec i T_SYSCALL) as [->|_]; unfold syscall_gate, irq_gate; rewrite SETGATE_decode; done || apply Hv.
Qed.

(** The table of the I/O APIC: which interrupts are delivered, with which
    vector and to which processor. *)
Definition routed (ncpu : Z) (d d' : devs) : Prop := forall i, 0 <= i <= max_irq d ->
  entry_of i d' = if i =? IRQ_IDE then (Some (T_IRQ0 + i), Some (u32 (Z.shiftl (ncpu - 1) 24)))
                  else if (i =? IRQ_KBD) || (i =? IRQ_COM1) then (Some (T_IRQ0 + i), Some 0)
                  else (Some (u32 (Z.lor INT_DISABLED (T_IRQ0 + i))), Some 0).

(** The handlers of ide.c, kbd.c and uart.c. *)
Definition handler (callerpcs : nat * nat -> kfs -> list Z) (irq : Z) : M kfs unit :=
  if irq =? IRQ_IDE then Ide.ideintr
  else if irq =? IRQ_KBD then consoleintr callerpcs kbdgetc
  else consoleintr callerpcs uartgetc.

Lemma interrupt_dispatch callerpcs irq tf : irq ∈ [IRQ_KBD; IRQ_COM1; IRQ_IDE] -> tf_trapno tf = T_IRQ0 + irq ->
  @interrupt (device_interrupts callerpcs) tf = (handler callerpcs irq ;;; lapiceoi).
Proof.
  intros Hi Ht. unfold interrupt. rewrite Ht.
  repeat (apply elem_of_cons in Hi as [->|Hi]; [reflexivity|]). now apply elem_of_nil in Hi.
Qed.

Lemma routed_devices ncpu d d1 : 14 <= max_irq d -> dv_ioapic d1 = dv_ioapic d ->
  forall d', dv_ioapic d' = dv_ioapic (enable_irq IRQ_IDE (ncpu - 1) (enable_irq IRQ_COM1 0 (enable_irq IRQ_KBD 0 (masked_table d1)))) -> routed ncpu d d'.
Proof.
  intros Hmax H1 d' H' i Hi. assert (E : entry_of i d' = entry_of i (enable_irq IRQ_IDE (ncpu - 1) (enable_irq IRQ_COM1 0 (enable_irq IRQ_KBD 0 (masked_table d1)))))
    by (unfold entry_of; now rewrite H').
  rewrite E. unfold enable_irq. rewrite !entry_write. unfold masked_table. rewrite entry_masked.
  assert (max_irq d1 = max_irq d) as -> by (unfold max_irq; now rewrite H1). rewrite (decide_True (P := i ∈ _)) by (apply elem_of_seqZ; lia).
  destruct (decide (i = IRQ_IDE)) as [->|N1]; [done|]. rewrite (proj2 (Z.eqb_neq _ _) N1).
  destruct (decide (i = IRQ_COM1)) as [->|N2]; [done|]. destruct (decide (i = IRQ_KBD)) as [->|N3]; [done|].
  rewrite (proj2 (Z.eqb_neq _ _) N2), (proj2 (Z.eqb_neq _ _) N3). done.
Qed.

Lemma init_devices_cruns vectors k c icr r r1 l :
  on_cpu (mkMach (co_cpus k) (co_cur k) ∅) c -> c_IF c = false -> dv_lapic (co_dev k) <> 0 -> delivered (dv_icr (co_dev k)) = Some icr ->
  co_port k = true -> poll (id_status (co_ide k)) = Some (r, r1 :: l) -> r1 <> 0 -> id_pending (co_ide k) = false ->
  exists k', cruns (init_devices vectors) k tt k' /\ co_cpus k' = alter with_segments (co_cur k) (co_cpus k) /\
    let d1 := with_writes (co_cur k) (lapic_writes (has_pcint (co_dev k))) (set_icr icr (co_dev k)) in
    let d2 := com_ports (enable_irq IRQ_KBD 0 (masked_table (add_port (IO_PIC2 + 1) 0xFF (add_port (IO_PIC1 + 1) 0xFF d1)))) in
    co_dev k' = enable_irq IRQ_IDE (Z.of_nat (length (co_cpus k)) - 1) (vector_table vectors (enable_irq IRQ_COM1 0 d2)).
Proof.
  intros Hon HIF Hl Hi Hp Hs Hr Hpend.
  set (k2 := set_co_cpus (alter with_segments (co_cur k) (co_cpus k)) (set_co_dev (with_writes (co_cur k) (lapic_writes (has_pcint (co_dev k))) (set_icr icr (co_dev k))) k)).
  destruct (ideinit_cruns (on_dev (vector_table vectors) (on_dev (fun d => enable_irq IRQ_COM1 0 (com_ports d)) (on_dev (enable_irq IRQ_KBD 0)
    (on_dev masked_table (on_dev (add_port (IO_PIC2 + 1) 0xFF) (on_dev (add_port (IO_PIC1 + 1) 0xFF) k2)))))) r r1 l Hs Hr Hpend) as (i & Ri & _).
  eexists. split.
  - unfold init_devices. eapply cruns_bind; [now apply (lapicinit_cruns k icr)|]. eapply cruns_bind; [eapply (seginit_cruns _ c); [exact Hon|exact HIF]|].
    fold k2. eapply cruns_bind; [eapply cruns_bind; apply cruns_outb|]. eapply cruns_bind; [apply ioapicinit_cruns|].
    eapply cruns_bind; [apply consoleinit_cruns|]. eapply cruns_bind; [apply uartinit_cruns; exact Hp|]. eapply cruns_bind; [apply cruns_initlock|].
    eapply cruns_bind; [apply tvinit_cruns|]. eapply cruns_bind; [apply binit_cruns|]. eapply cruns_bind; [apply cruns_initlock|]. exact Ri.
  - split; [reflexivity|]. cbv zeta. cbn [co_dev co_cpus set_co_ide on_dev set_co_dev]. unfold k2. cbn [co_dev set_co_cpus set_co_dev co_cpus on_dev].
    now rewrite length_alter.
Qed.

(** C19. A device that interrupts reaches its handler.  The part of [main] that
    programs the processor and the controllers ends, from the state that
    [mpinit] leaves.  Then the descriptor table of the processor holds flat
    segments of the whole address space, for the kernel and for user programs
    with their privilege; every entry of the interrupt table leads to its vector
    in the code segment of the kernel with interrupts off, and only the one of
    system calls may be used by programs and leaves them on; the I/O APIC
    delivers the interrupts of the disk, of the keyboard and of the serial line
    with the vectors for which [trap] calls their handlers, and no other; and the
    local APIC delivers the ticks of the clock with the vector that [trap]
    expects. *)
Theorem device_interrupts_reach_handlers (vectors : Z -> Z) (callerpcs : nat * nat -> kfs -> list Z) (s : kfs) (c : cpu) (r r1 : Z) (l : list Z) :
  let d := st_devs (k_ext s) in let i := st_ide (k_ext s) in
  on_cpu (k_mach s) c -> c_IF c = false -> length (sg_gdt (c_seg c)) = NSEGS ->
  dv_lapic d <> 0 -> delivered (dv_icr d) <> None -> length (dv_idt d) = 256%nat -> (forall n, 0 <= vectors n < 2 ^ 32) ->
  14 <= max_irq d -> c_port (st_cons (k_ext s)) = true ->
  poll (id_status i) = Some (r, r1 :: l) -> r1 <> 0 -> id_pending i = false ->
  exists s' c', init_devices vectors s = Done tt s' /\ let d' := st_devs (k_ext s') in
    m_cpus (k_mach s') !! m_cur (k_mach s) = Some c' /\ segments_loaded c' /\ gates_loaded vectors d' /\
    routed (Z.of_nat (length (m_cpus (k_mach s)))) d d' /\
    (m_cur (k_mach s), TIMER, Z.lor PERIODIC (T_IRQ0 + IRQ_TIMER)) ∈ dv_apic d' /\
    (forall irq tf, irq ∈ [IRQ_KBD; IRQ_COM1; IRQ_IDE] -> entry_of irq d' = (Some (tf_trapno tf), (entry_of irq d').2) ->
       @interrupt (device_interrupts callerpcs) tf = (handler callerpcs irq ;;; lapiceoi)).
Proof.
  intros d i Hon HIF Hg Hl Hi Hidt Hv Hmax Hp Hs Hr Hpend. destruct (delivered (dv_icr d)) as [icr|] eqn:Ei; [|done].
  destruct (init_devices_cruns vectors (core_of s) c icr r r1 l) as (k' & Rk & Ec & Ed); try done. cbv zeta in Ed.
  destruct (Rk s eq_refl) as (s' & R & <-). cbn [co_cpus co_dev co_cur core_of] in Ec, Ed. fold d in Ed.
  set (d1 := with_writes _ _ _) in Ed. set (d2 := masked_table _) in Ed.
  destruct (masked_keeps (add_port (IO_PIC2 + 1) 0xFF (add_port (IO_PIC1 + 1) 0xFF d1))) as [Ka Ki]. fold d2 in Ka, Ki.
  destruct (vector_table_keeps vectors (enable_irq IRQ_COM1 0 (com_ports (enable_irq IRQ_KBD 0 d2)))) as [Va Vi].
  assert (Hrt : routed (Z.of_nat (length (m_cpus (k_mach s)))) d (st_devs (k_ext s'))).
  { apply (routed_devices _ d (add_port (IO_PIC2 + 1) 0xFF (add_port (IO_PIC1 + 1) 0xFF d1)) Hmax eq_refl). rewrite Ed. fold d2.
    unfold enable_irq at 1, io_write. cbn [dv_ioapic set_ioapic]. now rewrite Vi. }
  exists s', (with_segments c). split; [exact R|]. cbv zeta. split; [rewrite Ec; destruct Hon as [Hc _]; now rewrite list_lookup_alter_eq, Hc|].
  split; [now apply kernel_segments_loaded|]. split; [|split; [exact Hrt|split]].
  - intros n Hn. rewrite Ed, enable_idt. apply vector_table_loaded; [|exact Hv|exact Hn].
    rewrite enable_idt, com_ports_idt, enable_idt, Ki. exact Hidt.
  - rewrite Ed, enable_apic, Va, enable_apic, com_ports_apic, enable_apic, Ka. apply elem_of_app. right.
    do 2 apply list_elem_of_further. apply list_elem_of_here.
  - intros irq tf Hq He. apply interrupt_dispatch; [exact Hq|].
    rewrite (Hrt irq) in He by (repeat (apply elem_of_cons in Hq as [->|Hq]; [unfold IRQ_KBD, IRQ_COM1, IRQ_IDE; lia|]); now apply elem_of_nil in Hq).
    repeat (apply elem_of_cons in Hq as [->|Hq]; [injection He as <-; reflexivity|]). now apply elem_of_nil in Hq.
Qed.

(** ** A machine with two processors that has run [mpinit] *)
Definition boot_cpu (apicid : Z) : cpu := new_cpu (fun _ => 0x80114000) 0 apicid.
Definition boot_devs : devs := mkDevs 2 0xFEE00000 [] 0x50014 [0x1000; 0] 0 {[REG_VER := 0x170011]} [] 0 (replicate 256 gatedesc0).
Definition booting_kernel : kfs :=
  mkK (mkKst (mkMach [boot_cpu 4; boot_cpu 0] 0 ∅) (mkKmem false 0 ∅ 0x80115000)) [] [] None 1 true
    (mkStorage ∅ (replicate (S NBUF) buf0) ∅ 0 [] log0 (mkSb 0 0 0 0 0 0 0) [] [] ∅ 0 console0
       (mkIde None (replicate NBUF None) 0 ∅ [0xD0; 0x50; 0x50] false ∅) boot_devs).

Lemma device_interrupts_reach_handlers_witness : exists s',
  init_devices (fun n => 0x80106000 + n mod 256) booting_kernel = Done tt s' /\
  entry_of IRQ_IDE (st_devs (k_ext s')) = (Some 46, Some 0x1000000).
Proof.
  destruct (device_interrupts_reach_handlers (fun n => 0x80106000 + n mod 256) (fun _ _ => []) booting_kernel (boot_cpu 4) 0x50 0x50 [])
    as (s' & c' & R & _ & _ & _ & Hr & _ & _).
  - split; [reflexivity|]. split; [|split; cbn; [lia|discriminate]].
    repeat constructor; cbn; set_solver.
  - reflexivity.
  - reflexivity.
  - discriminate.
  - discriminate.
  - reflexivity.
  - intros n. pose proof (Z.mod_pos_bound n 256). lia.
  - vm_compute. discriminate.
  - reflexivity.
  - reflexivity.
  - discriminate.
  - reflexivity.
  - exists s'. split; [exact R|]. rewrite Hr; [reflexivity|]. vm_compute. split; discriminate.
Defined.
