(* ===== verification/ExecFacts.v ===== *)
(** * exec and the mutexes of a process (exec.c, proc.c)

    [kill_threads] clears the list of the mutexes of the process without
    giving them back. *)
From S2P Require Import Prelude Mmu Str Spinlock Kalloc Vm Proc Exec Sched Store Bio Log LogCrash Fs Pipe File Syscall SysFile Image Mutex.

Section Kill.
Context {W : Wait} {D : Devices} (x : exe).

(** With no other thread the pass counts the free slots and changes nothing. *)
Lemma kill_pass_alone p cur l k (s : kfs) :
  (forall i, i ∈ l -> Some (p, i) <> cur -> th_state (the_thread (p, i) s) = UNUSED) ->
  kill_pass p cur l k s = Done (k + length (filter (fun i => Some (p, i) <> cur) l))%nat s.
Proof.
  revert k. induction l as [|i l IH]; intros k H; [simpl; now rewrite Nat.add_0_r|].
  cbn [kill_pass]. erewrite bind_done by apply gets_done. rewrite filter_cons.
  assert (H' : forall j, j ∈ l -> Some (p, j) <> cur -> th_state (the_thread (p, j) s) = UNUSED) by (intros; apply H; [now right|done]).
  destruct (decide (Some (p, i) = cur)) as [Hc|Hc].
  - rewrite bool_decide_eq_true_2 by done. rewrite decide_False by tauto. simpl. now apply IH.
  - rewrite bool_decide_eq_false_2 by done. rewrite decide_True by done. rewrite (H i (list_elem_of_here _ _) Hc). simpl.
    assert (Hz : free_zombie p i s = Done tt s).
    { unfold free_zombie. erewrite bind_done by apply gets_done. now rewrite (H i (list_elem_of_here _ _) Hc). }
    erewrite bind_done by exact Hz. rewrite IH by done. f_equal. lia.
Qed.

Lemma others_count (p i : nat) : (i < NTHREAD)%nat -> length (filter (fun j => Some (p, j) <> Some (p, i)) (seq 0 NTHREAD)) = 15%nat.
Proof.
  intros Hi. rewrite (list_filter_iff _ (fun j => j <> i)) by (intros; split; [congruence|intros ? [=]; done]).
  do 16 (destruct i as [|i]; [reflexivity|]). unfold NTHREAD in Hi. lia.
Qed.

Lemma acquire_only s (Q : unit -> kfs -> Prop) : mst x ∅ (k_mach s) ->
  (forall m', mst x {[PTABLE_LOCK]} m' -> Q tt (with_mach m' s)) -> total (kacquire PTABLE_LOCK) s Q.
Proof.
  intros Hm HQ. eapply kacquire_total; [exact Hm|set_solver|kset|]. intros m' Hm'. apply HQ. now rewrite union_empty_r_L in Hm'.
Qed.

Lemma release_only s (Q : unit -> kfs -> Prop) : mst x {[PTABLE_LOCK]} (k_mach s) ->
  (forall m', mst x ∅ m' -> Q tt (with_mach m' s)) -> total (krelease PTABLE_LOCK) s Q.
Proof.
  intros Hm HQ. eapply krelease_total; [exact Hm|set_solver|]. intros m' Hm'. apply HQ. now rewrite difference_diag_L in Hm'.
Qed.

(** A process with one thread. *)
Definition alone (i : nat) (q : proc) : Prop :=
  (i < NTHREAD)%nat /\ length (p_threads q) = NTHREAD /\ forall j t, p_threads q !! j = Some t -> j <> i -> th_state t = UNUSED.
(** The process after [kill_threads]. *)
Definition killed_others (p i : nat) (q : proc) : proc :=
  set_p_mid ((fun v => if v =? 1 then 0 else v) <$> p_mid q) (set_p_threads (imap (kill_mark p (Some (p, i))) (p_threads q)) q).

Lemma marked_unused p i q : alone i q -> forall j t, imap (kill_mark p (Some (p, i))) (p_threads q) !! j = Some t -> j <> i -> th_state t = UNUSED.
Proof.
  intros (_ & _ & H) j t Hj Hne. rewrite list_lookup_imap in Hj. destruct (p_threads q !! j) as [t0|] eqn:E; [|done].
  injection Hj as <-. unfold kill_mark. rewrite (H j t0 E Hne). rewrite (bool_decide_eq_true_2 (UNUSED = UNUSED)) by done.
  rewrite andb_false_r. cbv iota zeta.
  rewrite (bool_decide_eq_false_2 (th_state t0 = SLEEPING)) by (rewrite (H j t0 E Hne); done). exact (H j t0 E Hne).
Qed.

Lemma kill_threads_total s p i q th (Q : unit -> kfs -> Prop) : mst x ∅ (k_mach s) -> caller x s p i q th -> alone i q ->
  (forall m', mst x ∅ m' -> Q tt (with_mach m' (upd_proc p (killed_others p i) s))) -> total (kill_threads p) s Q.
Proof.
  intros Hm (Hp & Ht & Hq & Hlk & Hth) Hal HQ. assert (Eq : the_proc p s = q) by (unfold the_proc; now rewrite Hq).
  unfold kill_threads. krun mythread_total; [kset|]. intros m1 H1. kgo.
  change (p_ttlock (the_proc p (with_mach m1 s))) with (p_ttlock (the_proc p s)). rewrite Eq, Hlk. kgo.
  apply acquire_only; [exact H1|]. intros m2 H2. kgo. apply release_only; [exact H2|]. intros m3 H3. rewrite Ht.
  set (q3 := set_p_threads (imap (kill_mark p (Some (p, i))) (p_threads q)) q).
  set (s3 := with_mach m3 _). assert (E3 : k_procs s3 !! p = Some q3).
  { simpl. now rewrite list_lookup_alter_eq, Hq. }
  cbn [kill_wait]. change (0 <? NTHREAD - 1)%nat with true. cbv iota. kgo. apply acquire_only; [exact H3|]. intros m4 H4. kgo.
  unfold total at 1. rewrite kill_pass_alone.
  2: { intros j _ Hj. unfold the_thread, the_proc. cbn [fst snd]. change (k_procs (with_mach m4 s3)) with (k_procs s3). rewrite E3. simpl.
       destruct (imap _ _ !! j) as [t|] eqn:Ej; [|reflexivity]. apply (marked_unused p i q Hal j t Ej). congruence. }
  destruct Hal as (Hi & _). rewrite others_count by done. kgo. apply release_only; [exact H4|]. intros m5 H5.
  assert (Hw : forall f lk s, kill_wait f p (Some (p, i)) lk (0 + 15) s = Done tt s) by (intros []; reflexivity).
  unfold total at 1. rewrite Hw. kgo. apply acquire_only; [exact H5|]. intros m6 H6. kgo. apply release_only; [exact H6|]. intros m7 H7.
  specialize (HQ m7 H7). match goal with |- Q tt ?a => replace a with (with_mach m7 (upd_proc p (killed_others p i) s)) end; [exact HQ|].
  unfold s3. rewrite !upd_proc_mach, upd_proc_comp. reflexivity.
Qed.

Lemma caller_killed (s : kfs) m p i q th : caller x s p i q th -> exists q' th',
  caller x (with_mach m (upd_proc p (killed_others p i) s)) p i q' th'.
Proof.
  intros (Hp & Ht & Hq & Hlk & Hth). exists (killed_others p i q), (kill_mark p (Some (p, i)) i th).
  repeat split; [done|done| |done|].
  - simpl. now rewrite list_lookup_alter_eq, Hq.
  - simpl. now rewrite list_lookup_imap, Hth.
Qed.

(** C39. [exec] leaks the mutexes of the process.  The part of it that ends the
    other threads forgets, for a process with a single thread, which mutexes
    the process has, and leaves the mutexes allocated: an attempt of the
    process to give one back then fails. *)
Theorem exec_leaks_mutexes (s : kfs) (p i : nat) (q : proc) (th : thread) (id : nat) :
  mst x ∅ (k_mach s) -> caller x s p i q th -> alone i q -> (id < MAX_MUTEXES)%nat ->
  mx_allocated (the_mutex id s) = 1 -> the_mid p id s = 1 ->
  exists s' s'', kill_threads p s = Done tt s' /\ kthread_mutex_dealloc (Z.of_nat id) s' = Done (-1) s'' /\
    the_mid p id s'' = 0 /\ mx_allocated (the_mutex id s'') = 1.
Proof.
  intros Hm Hc Hal Hid Hm1 Hm2. pose proof Hc as (_ & _ & Hq & _).
  set (R := fun s' => exists m', mst x ∅ m' /\ s' = with_mach m' (upd_proc p (killed_others p i) s)).
  destruct (total_done_eq (kill_threads p) s tt R) as (s' & Hr & m' & Hm' & ->).
  { apply (kill_threads_total s p i q th _ Hm Hc Hal). intros m' Hm'. split; [done|]. now exists m'. }
  set (s1 := upd_proc p (killed_others p i) s) in *.
  assert (E0 : the_mid p id s1 = 0).
  { unfold the_mid, the_proc in *. rewrite Hq in Hm2. unfold s1. simpl in *. rewrite list_lookup_alter_eq, Hq. simpl. rewrite list_lookup_fmap.
    destruct (p_mid q !! id) as [v|]; [|done]. simpl in *. now rewrite Hm2. }
  destruct (caller_killed s m' p i q th Hc) as (q' & th' & Hc').
  destruct (total_done_eq (kthread_mutex_dealloc (Z.of_nat id)) (with_mach m' s1) (-1) (fun s'' => exists m2, s'' = with_mach m2 s1))
    as (s'' & Hr2 & m2 & ->).
  { apply (dealloc_runs x (with_mach m' s1) p i q' th' id _ Hm' Hc' Hid). unfold usable.
    change (the_mid p id (with_mach m' s1)) with (the_mid p id s1). rewrite E0, andb_false_r. simpl. intros m2 _. split; [done|]. now exists m2. }
  exists (with_mach m' s1), (with_mach m2 s1). split; [exact Hr|]. split; [exact Hr2|]. split; [exact E0|exact Hm1].
Qed.
End Kill.

(** ** A process that owns mutex 3 *)
#[local] Instance demo_wait : Wait := 0%nat.
Definition owner : proc := set_p_mid (<[3%nat := 1]> (replicate MAX_MUTEXES 0)) (set_p_threads (demo_thread RUNNING CNull 0 :: replicate 15 thread0) (demo_proc RUNNING RUNNING)).
Definition owner_state : kfs :=
  mkK (k_base demo_kfs) (owner :: replicate 63 proc0) (<[3%nat := mkMutex 0 1 (Some 0%nat) (-1)]> (replicate MAX_MUTEXES mutex0)) None 2 false demo_storage.

Lemma exec_leaks_mutexes_witness : exists s' s'', kill_threads 0 owner_state = Done tt s' /\ kthread_mutex_dealloc 3 s' = Done (-1) s'' /\
  mx_allocated (the_mutex 3 s'') = 1.
Proof.
  destruct (exec_leaks_mutexes demo_exe owner_state 0 0 owner (demo_thread RUNNING CNull 0) 3) as (s' & s'' & H1 & H2 & _ & H3);
    [exact (demo_mst demo_exe ∅ RUNNING RUNNING eq_refl ltac:(kset))|done| |unfold MAX_MUTEXES; lia|reflexivity|reflexivity|exists s', s''; auto].
  split; [unfold NTHREAD; lia|]. split; [reflexivity|]. intros [|j] t Hj Hne; [done|].
  apply lookup_replicate in Hj as [-> _]. reflexivity.
Defined.
