(* ===== verification/MutexSys.v ===== *)
(** * The mutex protocol under every interleaving of threads

    Any number of threads of any processes call the mutex operations of
    [Mutex]; a thread that waits inside [kthread_mutex_lock] is suspended with
    its continuation until the scheduler runs it again.  The steps run the
    operations themselves; the rest of the kernel may change anything else in
    between (relation [env]).  The invariant [minv] gives mutual exclusion,
    that no waiting thread is forgotten, and that the panic in
    [kthread_mutex_lock] is not reached. *)
From S2P Require Import Prelude Mmu Str Spinlock Kalloc Proc Exec Sched Mutex.

Section Protocol.
Context {E : Type}.
Implicit Types (s : kstate E) (x : exe) (c : nat * nat).

Record msys := mkMsys {
  ms_st : kstate E;
  ms_wait : gmap (nat * nat) (nat * (kstate E -> prog (kstate E) Z));
  ms_held : gset ((nat * nat) * nat);
}.

(** A thread that has been created by [allocthread] in a process made by
    [allocproc]: its id is its index. *)
Definition live (s : kstate E) (c : nat * nat) : Prop :=
  (exists q, k_procs s !! c.1 = Some q /\ p_ttlock q = Some PTABLE_LOCK /\ length (p_threads q) = NTHREAD) /\
  (c.2 < NTHREAD)%nat /\ th_tid (the_thread c s) = Z.of_nat c.2.

(** The processor runs the thread [c] and holds the locks [hs]. *)
Definition running (m : mach) (hs : gset nat) (c : nat * nat) : Prop :=
  exists x, mst x hs m /\ x_proc x = Some c.1 /\ x_thread x = Some c.

(** What other kernel code may do between the steps: it does not touch the
    mutexes, the ownership marks or the threads that wait, and does not mark
    other threads blocked. *)
Definition env (w : gmap (nat * nat) (nat * (kstate E -> prog (kstate E) Z))) (s s' : kstate E) : Prop :=
  k_mutex s' = k_mutex s /\ (forall p id, the_mid p id s' = the_mid p id s) /\
  (forall c, w !! c = None -> th_blocked (the_thread c s') <> 1) /\
  (forall c, is_Some (w !! c) -> live s' c /\ the_thread c s' = the_thread c s).

Inductive mstep : msys -> msys -> Prop :=
| m_lock s w h c id m s' :
    w !! c = None -> live s c -> running m ∅ c ->
    kthread_mutex_lock id (with_mach m s) = Done 0 s' ->
    mstep (mkMsys s w h) (mkMsys s' w ({[(c, Z.to_nat id)]} ∪ h))
| m_lock_error s w h c id m r s' :
    w !! c = None -> live s c -> running m ∅ c ->
    kthread_mutex_lock id (with_mach m s) = Done r s' -> r <> 0 ->
    mstep (mkMsys s w h) (mkMsys s' w h)
| m_lock_wait s w h c id m s' k :
    w !! c = None -> live s c -> running m ∅ c ->
    kthread_mutex_lock id (with_mach m s) = Switch s' k ->
    mstep (mkMsys s w h) (mkMsys s' (<[c := (Z.to_nat id, k)]> w) h)
| m_resume s w h c id k m r s' :
    (** the scheduler runs a waiting thread it finds RUNNABLE *)
    w !! c = Some (id, k) -> th_state (the_thread c s) = RUNNABLE -> running m {[PTABLE_LOCK]} c ->
    k (with_mach m (upd_proc c.1 (dispatch c.2) s)) = Done r s' ->
    mstep (mkMsys s w h) (mkMsys s' (delete c w) ({[(c, id)]} ∪ h))
| m_unlock s w h c id m s' :
    w !! c = None -> live s c -> running m ∅ c ->
    kthread_mutex_unlock id (with_mach m s) = Done 0 s' ->
    mstep (mkMsys s w h) (mkMsys s' w (h ∖ {[(c, Z.to_nat id)]}))
| m_unlock_error s w h c id m r s' :
    w !! c = None -> live s c -> running m ∅ c ->
    kthread_mutex_unlock id (with_mach m s) = Done r s' -> r <> 0 ->
    mstep (mkMsys s w h) (mkMsys s' w h)
| m_alloc s w h c m r s' :
    w !! c = None -> live s c -> running m ∅ c -> kthread_mutex_alloc (with_mach m s) = Done r s' ->
    mstep (mkMsys s w h) (mkMsys s' w h)
| m_dealloc s w h c id m r s' :
    w !! c = None -> live s c -> running m ∅ c -> kthread_mutex_dealloc id (with_mach m s) = Done r s' ->
    mstep (mkMsys s w h) (mkMsys s' w h)
| m_env s w h s' : env w s s' -> mstep (mkMsys s w h) (mkMsys s' w h).

(** Boot: no mutex is allocated, no thread is blocked. *)
Definition minit (s : kstate E) : Prop :=
  k_mutex s = replicate MAX_MUTEXES mutex0 /\ (forall p id, the_mid p id s = 0) /\
  (forall c, th_blocked (the_thread c s) <> 1).

(** ** The invariant *)

(** A suspended thread waits for its mutex or has been given it. *)
Definition waiting (s : kstate E) (c : nat * nat) (id : nat) : Prop :=
  th_blocked (the_thread c s) = 1 /\ th_chan (the_thread c s) = CMutex id /\ th_state (the_thread c s) = SLEEPING.
Definition given (s : kstate E) (c : nat * nat) (id : nat) : Prop :=
  (th_blocked (the_thread c s) <> 1 /\ th_state (the_thread c s) = RUNNABLE) /\
  mx_tid (the_mutex id s) = Z.of_nat c.2.

(** The mutex [id] is locked and belongs to the process of [c]. *)
Definition locked_for (s : kstate E) (c : nat * nat) (id : nat) : Prop :=
  (id < MAX_MUTEXES)%nat /\ mx_locked (the_mutex id s) = 1 /\ the_mid c.1 id s <> 0.

Definition inv_wait (s : kstate E) (w : gmap (nat * nat) (nat * (kstate E -> prog (kstate E) Z))) : Prop :=
  forall c id k, w !! c = Some (id, k) ->
    live s c /\ locked_for s c id /\ (waiting s c id \/ given s c id) /\ (exists ie, lock_cont ie c.1 c.2 id k).

Definition inv_held (s : kstate E) (w : gmap (nat * nat) (nat * (kstate E -> prog (kstate E) Z)))
    (h : gset ((nat * nat) * nat)) : Prop :=
  forall c id, (c, id) ∈ h -> locked_for s c id /\ mx_tid (the_mutex id s) = Z.of_nat c.2 /\
    (forall k, w !! c <> Some (id, k)).

Definition inv_owner (s : kstate E) : Prop :=
  forall id p, the_mid p id s <> 0 ->
    mx_allocated (the_mutex id s) <> 0 /\ (forall p', the_mid p' id s <> 0 -> p' = p) /\
    (mx_locked (the_mutex id s) <> 1 -> mx_tid (the_mutex id s) = -1).

(** A locked mutex has a holder, or a thread to which it has been given. *)
Definition inv_locked (s : kstate E) (w : gmap (nat * nat) (nat * (kstate E -> prog (kstate E) Z)))
    (h : gset ((nat * nat) * nat)) : Prop :=
  forall id p, the_mid p id s <> 0 -> mx_locked (the_mutex id s) = 1 ->
    exists i, mx_tid (the_mutex id s) = Z.of_nat i /\
      (((p, i), id) ∈ h \/ exists k, w !! (p, i) = Some (id, k) /\ given s (p, i) id).

Definition minv (y : msys) : Prop :=
  length (k_mutex (ms_st y)) = MAX_MUTEXES /\
  (forall c, ms_wait y !! c = None -> th_blocked (the_thread c (ms_st y)) <> 1) /\
  inv_wait (ms_st y) (ms_wait y) /\ inv_held (ms_st y) (ms_wait y) (ms_held y) /\
  inv_owner (ms_st y) /\ inv_locked (ms_st y) (ms_wait y) (ms_held y).

Lemma minit_inv s : minit s -> minv (mkMsys s ∅ ∅).
Proof.
  intros (Hm & Hmid & Hb). split; [cbn [ms_st]; now rewrite Hm, length_replicate|]. split; [intros c _; apply Hb|].
  split; [intros c id k Hc; cbn [ms_wait] in Hc; now rewrite lookup_empty in Hc|].
  split; [intros c id Hc; set_solver|]. split; intros id p Hp; cbn [ms_st] in Hp; now rewrite Hmid in Hp.
Qed.

(** ** Updates of the tables *)
Lemma the_mutex_eq id m s : (id < length (k_mutex s))%nat -> the_mutex id (set_mutex id m s) = m.
Proof. intros H. unfold the_mutex, set_mutex. simpl. now rewrite list_lookup_insert_eq. Qed.
Lemma the_mutex_ne id id' m s : id <> id' -> the_mutex id' (set_mutex id m s) = the_mutex id' s.
Proof. intros H. unfold the_mutex, set_mutex. simpl. now rewrite list_lookup_insert_ne. Qed.

(** Process updates that keep the lock pointer, the threads' number and the
    ownership marks. *)
Definition keeps (f : proc -> proc) : Prop :=
  forall q, p_ttlock (f q) = p_ttlock q /\ length (p_threads (f q)) = length (p_threads q) /\ p_mid (f q) = p_mid q.

Lemma the_mid_keeps f p p' id s : keeps f -> the_mid p' id (upd_proc p f s) = the_mid p' id s.
Proof.
  intros Hf. unfold the_mid, the_proc, upd_proc. cbn [k_procs set_k_procs].
  destruct (decide (p = p')) as [<-|Hne]; [|now rewrite list_lookup_alter_ne].
  rewrite list_lookup_alter_eq. destruct (k_procs s !! p) as [q|]; simpl; [|done].
  now rewrite (proj2 (proj2 (Hf q))).
Qed.

Lemma live_keeps f p s c :
  keeps f -> live s c -> th_tid (the_thread c (upd_proc p f s)) = th_tid (the_thread c s) -> live (upd_proc p f s) c.
Proof.
  intros Hf ((q & Hq & Hlk & Hlen) & Hlt & Htid) Ht. split; [|split; [done|congruence]].
  unfold upd_proc. cbn [k_procs set_k_procs].
  destruct (decide (p = c.1)) as [->|Hne]; [|exists q; now rewrite list_lookup_alter_ne].
  exists (f q). rewrite list_lookup_alter_eq, Hq. destruct (Hf q) as (-> & -> & _). done.
Qed.

Lemma keeps_on_thread i f : keeps (on_thread i f).
Proof. intros q. simpl. now rewrite length_alter. Qed.
Lemma keeps_fall_asleep p i ch : keeps (fall_asleep p i ch).
Proof. intros q. simpl. now rewrite length_alter. Qed.
Lemma keeps_dispatch i : keeps (dispatch i).
Proof. intros q. simpl. now rewrite length_alter. Qed.

(** Updates that touch one thread. *)
Lemma the_thread_at_other p i f s c :
  (forall q j, j <> i -> p_threads (f q) !! j = p_threads q !! j) -> c <> (p, i) ->
  the_thread c (upd_proc p f s) = the_thread c s.
Proof.
  intros Hf Hne. destruct c as [p' i']. unfold the_thread, the_proc, upd_proc. cbn [k_procs set_k_procs fst snd].
  destruct (decide (p = p')) as [<-|Hp]; [|now rewrite list_lookup_alter_ne].
  rewrite list_lookup_alter_eq. destruct (k_procs s !! p) as [q|]; simpl; [|done].
  rewrite Hf; congruence.
Qed.

Lemma live_thread s c : live s c ->
  exists q, k_procs s !! c.1 = Some q /\ p_ttlock q = Some PTABLE_LOCK /\ length (p_threads q) = NTHREAD /\
    p_threads q !! c.2 = Some (the_thread c s).
Proof.
  intros ((q & Hq & Hlk & Hlen) & Hlt & _). exists q. split; [done|]. split; [done|]. split; [done|].
  destruct (lookup_lt_is_Some_2 (p_threads q) c.2) as [th Hth]; [lia|]. rewrite Hth. f_equal. symmetry.
  apply the_thread_at. now exists q.
Qed.

Lemma the_thread_self f s c th :
  live s c -> (forall q, p_threads q !! c.2 = Some (the_thread c s) -> p_threads (f q) !! c.2 = Some th) ->
  the_thread c (upd_proc c.1 f s) = th.
Proof.
  intros Hl Hf. destruct (live_thread s c Hl) as (q & Hq & _ & _ & Hth). destruct c as [p i].
  now apply (the_thread_upd_proc p i f s q), Hf.
Qed.

Lemma live_caller s c m hs : live s c -> running m hs c ->
  exists x q, mst x hs m /\ caller x (with_mach m s) c.1 c.2 q (the_thread c s) /\ length (p_threads q) = NTHREAD /\
    k_procs s !! c.1 = Some q.
Proof.
  intros Hl (x & Hm & Hp & Ht). destruct (live_thread s c Hl) as (q & Hq & Hlk & Hlen & Hth).
  exists x, q. split; [exact Hm|]. split; [|auto]. destruct c. repeat split; assumption.
Qed.

(** ** Preservation *)
Lemma live_set_mutex id m s c : live s c -> live (set_mutex id m s) c.
Proof. intros H. exact H. Qed.

(** Two threads of which each is the one named by the mutex are the same. *)
Lemma same_thread s c c' id :
  inv_owner s -> the_mid c.1 id s <> 0 -> the_mid c'.1 id s <> 0 ->
  mx_tid (the_mutex id s) = Z.of_nat c.2 -> mx_tid (the_mutex id s) = Z.of_nat c'.2 -> c' = c.
Proof.
  intros Ho H1 H2 H3 H4. destruct (Ho id c.1 H1) as (_ & Hu & _). specialize (Hu _ H2).
  destruct c, c'; simpl in *. f_equal; [done|lia].
Qed.

Lemma usable_spec s p id : usable s p id = true <-> mx_allocated (the_mutex id s) <> 0 /\ the_mid p id s <> 0.
Proof. unfold usable. rewrite andb_true_iff, !negb_true_iff, !Z.eqb_neq. tauto. Qed.

(** A mutex that is not locked is taken. *)
Lemma minv_take s w h c id :
  minv (mkMsys s w h) -> w !! c = None -> live s c -> (id < MAX_MUTEXES)%nat -> usable s c.1 id = true ->
  mx_locked (the_mutex id s) <> 1 ->
  minv (mkMsys (set_mutex id (taken (the_mutex id s) (th_tid (the_thread c s))) s) w ({[(c, id)]} ∪ h)).
Proof.
  intros (Hlen & Hb & Hw & Hh & Ho & Hl) Hc Hlive Hid [Ha Hmid]%usable_spec Hnl. cbn [ms_st ms_wait ms_held] in *.
  set (m := taken (the_mutex id s) (th_tid (the_thread c s))).
  assert (Heq : the_mutex id (set_mutex id m s) = m) by (apply the_mutex_eq; lia).
  assert (Htid : mx_tid m = Z.of_nat c.2) by apply Hlive.
  unfold minv; cbn [ms_st ms_wait ms_held]. split; [simpl; now rewrite length_insert|]. split; [exact Hb|].
  split; [|split; [|split]].
  - intros c' id' k Hk. destruct (Hw c' id' k Hk) as (H1 & H2 & H3 & H4).
    assert (id <> id') by (intros ->; destruct H2 as (_ & H2 & _); congruence).
    unfold locked_for, given in *. rewrite the_mutex_ne by done. auto.
  - intros c' id' [[= -> ->]%elem_of_singleton|Hin]%elem_of_union.
    + unfold locked_for. rewrite Heq. split; [split; [done|split; [reflexivity|exact Hmid]]|]. split; [exact Htid|].
      intros k. now rewrite Hc.
    + destruct (Hh c' id' Hin) as (H1 & H2 & H3).
      assert (id <> id') by (intros ->; destruct H1 as (_ & H1 & _); congruence).
      unfold locked_for in *. rewrite the_mutex_ne by done. auto.
  - intros id' p' Hp'. destruct (Ho id' p' Hp') as (H1 & H2 & H3).
    destruct (decide (id = id')) as [<-|Hne]; [|rewrite the_mutex_ne by done; auto].
    rewrite Heq. split; [exact H1|]. split; [exact H2|]. intros Hx. now contradiction Hx.
  - intros id' p' Hp' Hlk. destruct (decide (id = id')) as [<-|Hne].
    + rewrite Heq. exists c.2. split; [exact Htid|]. left. destruct (Ho id c.1 Hmid) as (_ & Hu & _).
      rewrite (Hu p' Hp'). destruct c. set_solver.
    + rewrite the_mutex_ne in * by done. destruct (Hl id' p' Hp' Hlk) as (i & Hi & Hor). exists i. split; [done|].
      unfold given in *. rewrite the_mutex_ne by done. destruct Hor; [left; set_solver|now right].
Qed.

(** Only the thread [c] changes. *)
Definition only_thread (c : nat * nat) (s s' : kstate E) : Prop :=
  k_mutex s' = k_mutex s /\ (forall p id, the_mid p id s' = the_mid p id s) /\
  (forall c', c' <> c -> the_thread c' s' = the_thread c' s) /\ (forall c', live s c' -> live s' c').

Lemma only_thread_mutex c s s' id : only_thread c s s' -> the_mutex id s' = the_mutex id s.
Proof. intros (H & _). unfold the_mutex. now rewrite H. Qed.

Lemma locked_for_only c s s' c' id : only_thread c s s' -> locked_for s' c' id <-> locked_for s c' id.
Proof. intros H. unfold locked_for. rewrite (only_thread_mutex _ _ _ _ H). destruct H as (_ & -> & _). done. Qed.

Lemma waiting_only c s s' c' id : only_thread c s s' -> c' <> c -> waiting s' c' id <-> waiting s c' id.
Proof. intros (_ & _ & H & _) Hne. unfold waiting. now rewrite H. Qed.

Lemma given_only c s s' c' id : only_thread c s s' -> c' <> c -> given s' c' id <-> given s c' id.
Proof.
  intros H Hne. unfold given. rewrite (only_thread_mutex _ _ _ _ H). destruct H as (_ & _ & H & _). now rewrite H.
Qed.

Lemma inv_owner_only c s s' : only_thread c s s' -> inv_owner s -> inv_owner s'.
Proof.
  intros H Ho id p Hp. rewrite (only_thread_mutex _ _ _ _ H). pose proof H as (_ & Hmid & _).
  rewrite Hmid in Hp. destruct (Ho id p Hp) as (H1 & H2 & H3). split; [done|]. split; [|done].
  intros p'. rewrite Hmid. apply H2.
Qed.

(** The thread [c] starts to wait. *)
Lemma minv_wait s s' w h c id k ie :
  minv (mkMsys s w h) -> w !! c = None -> live s c -> (id < MAX_MUTEXES)%nat -> usable s c.1 id = true ->
  mx_locked (the_mutex id s) = 1 -> mx_tid (the_mutex id s) <> Z.of_nat c.2 ->
  only_thread c s s' -> waiting s' c id -> lock_cont ie c.1 c.2 id k ->
  minv (mkMsys s' (<[c := (id, k)]> w) h).
Proof.
  intros (Hlen & Hb & Hw & Hh & Ho & Hl) Hc Hlive Hid [Ha Hmid]%usable_spec Hlk Htid Honly Hwait Hcont.
  cbn [ms_st ms_wait ms_held] in *. pose proof Honly as (Hm & Hmids & Hth & Hlv).
  unfold minv; cbn [ms_st ms_wait ms_held]. split; [now rewrite Hm|].
  split; [|split; [|split; [|split; [now apply (inv_owner_only c s)|]]]].
  - intros c' Hc'. apply lookup_insert_None in Hc' as [Hc' Hne]. rewrite Hth by done. now apply Hb.
  - intros c' id' k' [[<- [= <- <-]]|[Hne Hk']]%lookup_insert_Some.
    + split; [now apply Hlv|]. split; [now apply (locked_for_only c s)|]. split; [now left|eauto].
    + destruct (Hw c' id' k' Hk') as (H1 & H2 & H3 & H4). split; [now apply Hlv|].
      split; [now apply (locked_for_only c s)|]. split; [|done].
      rewrite (waiting_only c s s'), (given_only c s s') by done. exact H3.
  - intros c' id' Hin. destruct (Hh c' id' Hin) as (H1 & H2 & H3).
    split; [now apply (locked_for_only c s)|]. rewrite (only_thread_mutex _ _ _ _ Honly). split; [done|].
    intros k' [[<- [= <- <-]]|[Hne Hk']]%lookup_insert_Some; [congruence|]. now apply (H3 k').
  - intros id' p' Hp' Hlk'. rewrite (only_thread_mutex _ _ _ _ Honly) in *. rewrite Hmids in Hp'.
    destruct (Hl id' p' Hp' Hlk') as (i & Hi & Hor). exists i. split; [done|].
    destruct Hor as [Hin|(k' & Hk' & Hg)]; [now left|right]. exists k'.
    assert (c <> (p', i)) by congruence. rewrite lookup_insert_ne by done. split; [done|].
    now apply (given_only c s s').
Qed.

(** The thread [c], to which the mutex has been given, runs again. *)
Lemma minv_resume s s' w h c id k :
  minv (mkMsys s w h) -> w !! c = Some (id, k) -> given s c id ->
  only_thread c s s' -> th_blocked (the_thread c s') <> 1 ->
  minv (mkMsys s' (delete c w) ({[(c, id)]} ∪ h)).
Proof.
  intros (Hlen & Hb & Hw & Hh & Ho & Hl) Hc Hg Honly Hnb.
  cbn [ms_st ms_wait ms_held] in *. pose proof Honly as (Hm & Hmids & Hth & Hlv).
  destruct (Hw c id k Hc) as (Hlive & Hfor & _ & _).
  unfold minv; cbn [ms_st ms_wait ms_held]. split; [now rewrite Hm|].
  split; [|split; [|split; [|split; [now apply (inv_owner_only c s)|]]]].
  - intros c' Hc'. destruct (decide (c' = c)) as [->|Hne]; [done|]. rewrite Hth by done. apply Hb.
    now rewrite lookup_delete_ne in Hc' by done.
  - intros c' id' k' [Hne Hk']%lookup_delete_Some.
    destruct (Hw c' id' k' Hk') as (H1 & H2 & H3 & H4). split; [now apply Hlv|].
    split; [now apply (locked_for_only c s)|]. split; [|done].
    rewrite (waiting_only c s s'), (given_only c s s') by done. exact H3.
  - intros c' id' [[= -> ->]%elem_of_singleton|Hin]%elem_of_union.
    + split; [now apply (locked_for_only c s)|]. rewrite (only_thread_mutex _ _ _ _ Honly). split; [apply Hg|].
      intros k'. now rewrite lookup_delete_eq.
    + destruct (Hh c' id' Hin) as (H1 & H2 & H3). split; [now apply (locked_for_only c s)|].
      rewrite (only_thread_mutex _ _ _ _ Honly). split; [done|].
      intros k' [Hne Hk']%lookup_delete_Some. now apply (H3 k').
  - intros id' p' Hp' Hlk'. rewrite (only_thread_mutex _ _ _ _ Honly) in *. rewrite Hmids in Hp'.
    destruct (Hl id' p' Hp' Hlk') as (i & Hi & Hor). exists i. split; [done|].
    destruct Hor as [Hin|(k' & Hk' & Hg')]; [left; set_solver|].
    destruct (decide ((p', i) = c)) as [<-|Hne]; [left; rewrite Hc in Hk'; injection Hk' as -> _; set_solver|].
    right. exists k'. rewrite lookup_delete_ne by done. split; [done|]. now apply (given_only c s s').
Qed.

(** The caller of a successful unlock is the holder. *)
Lemma unlock_holder s w h c id :
  minv (mkMsys s w h) -> w !! c = None -> usable s c.1 id = true -> mx_tid (the_mutex id s) = Z.of_nat c.2 ->
  mx_locked (the_mutex id s) = 1 /\ (forall c' k, w !! c' = Some (id, k) -> ~ given s c' id) /\
  (forall c', (c', id) ∈ h -> c' = c).
Proof.
  intros (Hlen & Hb & Hw & Hh & Ho & Hl) Hc [Ha Hmid]%usable_spec Htid. cbn [ms_st ms_wait ms_held] in *.
  split; [|split].
  - destruct (decide (mx_locked (the_mutex id s) = 1)) as [|Hn]; [done|].
    destruct (Ho id c.1 Hmid) as (_ & _ & H). specialize (H Hn). lia.
  - intros c' k Hk [_ Hg]. destruct (Hw c' id k Hk) as (_ & (_ & _ & Hm') & _).
    assert (c' = c) by (eapply same_thread; eauto). congruence.
  - intros c' Hin. destruct (Hh c' id Hin) as ((_ & _ & Hm') & Ht' & _). eapply same_thread; eauto.
Qed.

(** The mutex is freed when no thread waits for it. *)
Lemma minv_free s w h c id :
  minv (mkMsys s w h) -> w !! c = None -> (id < MAX_MUTEXES)%nat -> usable s c.1 id = true ->
  mx_tid (the_mutex id s) = Z.of_nat c.2 -> (forall c' k, w !! c' = Some (id, k) -> ~ waiting s c' id) ->
  minv (mkMsys (set_mutex id (freed (the_mutex id s)) s) w (h ∖ {[(c, id)]})).
Proof.
  intros Hinv Hc Hid Huse Htid Hnw. destruct (unlock_holder _ _ _ _ _ Hinv Hc Huse Htid) as (Hlk & Hng & Hhold).
  destruct Hinv as (Hlen & Hb & Hw & Hh & Ho & Hl). cbn [ms_st ms_wait ms_held] in *.
  set (m := freed (the_mutex id s)).
  assert (Heq : the_mutex id (set_mutex id m s) = m) by (apply the_mutex_eq; lia).
  unfold minv; cbn [ms_st ms_wait ms_held]. split; [simpl; now rewrite length_insert|]. split; [exact Hb|].
  split; [|split; [|split]].
  - intros c' id' k Hk. destruct (Hw c' id' k Hk) as (H1 & H2 & H3 & H4).
    assert (id <> id') by (intros <-; destruct H3; [now apply (Hnw c' k)|now apply (Hng c' k)]).
    unfold locked_for, given in *. rewrite the_mutex_ne by done. auto.
  - intros c' id' [Hin Hnot]%elem_of_difference. destruct (Hh c' id' Hin) as (H1 & H2 & H3).
    assert (id <> id') by (intros <-; apply Hnot; rewrite (Hhold c' Hin); set_solver).
    unfold locked_for in *. rewrite the_mutex_ne by done. auto.
  - intros id' p' Hp'. destruct (Ho id' p' Hp') as (H1 & H2 & H3).
    destruct (decide (id = id')) as [<-|Hne]; [rewrite Heq|rewrite the_mutex_ne by done]; auto.
  - intros id' p' Hp' Hlk'. destruct (decide (id = id')) as [<-|Hne]; [rewrite Heq in Hlk'; discriminate|].
    rewrite the_mutex_ne in * by done. destruct (Hl id' p' Hp' Hlk') as (i & Hi & Hor). exists i. split; [done|].
    unfold given in *. rewrite the_mutex_ne by done. destruct Hor; [left; set_solver|now right].
Qed.

(** The mutex is handed to the waiting thread [d]. *)
Lemma minv_hand s s' w h c d id k :
  minv (mkMsys s w h) -> w !! c = None -> (id < MAX_MUTEXES)%nat -> usable s c.1 id = true ->
  mx_tid (the_mutex id s) = Z.of_nat c.2 -> w !! d = Some (id, k) ->
  only_thread d s s' -> th_blocked (the_thread d s') <> 1 /\ th_state (the_thread d s') = RUNNABLE ->
  minv (mkMsys (set_mutex id (handed (the_mutex id s) (Z.of_nat d.2)) s') w (h ∖ {[(c, id)]})).
Proof.
  intros Hinv Hc Hid Huse Htid Hd Honly Hnb.
  destruct (unlock_holder _ _ _ _ _ Hinv Hc Huse Htid) as (Hlk & Hng & Hhold).
  destruct Hinv as (Hlen & Hb & Hw & Hh & Ho & Hl). cbn [ms_st ms_wait ms_held] in *.
  pose proof Honly as (Hm & Hmids & Hth & Hlv). destruct (Hw d id k Hd) as (Hdl & Hdf & _ & Hdc).
  set (m := handed (the_mutex id s) (Z.of_nat d.2)).
  assert (Heq : the_mutex id (set_mutex id m s') = m) by (apply the_mutex_eq; rewrite Hm; lia).
  assert (Hne' : forall id', id <> id' -> the_mutex id' (set_mutex id m s') = the_mutex id' s).
  { intros id' H. rewrite the_mutex_ne by done. now apply (only_thread_mutex d). }
  assert (Hfor : forall c' id', locked_for s c' id' -> locked_for (set_mutex id m s') c' id').
  { intros c' id' (F1 & F2 & F3). split; [done|]. destruct (decide (id = id')) as [<-|Hn].
    - rewrite Heq. split; [exact Hlk|]. change (the_mid c'.1 id s' <> 0). now rewrite Hmids.
    - rewrite Hne' by done. split; [done|]. change (the_mid c'.1 id' s' <> 0). now rewrite Hmids. }
  unfold minv; cbn [ms_st ms_wait ms_held]. split; [simpl; now rewrite length_insert, Hm|].
  split; [intros c' Hc'; change (th_blocked (the_thread c' s') <> 1); rewrite Hth by congruence; now apply Hb|].
  split; [|split; [|split]].
  - intros c' id' k' Hk'. destruct (Hw c' id' k' Hk') as (H1 & H2 & H3 & H4).
    split; [apply live_set_mutex; now apply Hlv|]. split; [now apply Hfor|]. split; [|done].
    destruct (decide (c' = d)) as [->|Hcd].
    + right. rewrite Hd in Hk'. injection Hk' as <- <-. split; [exact Hnb|]. now rewrite Heq.
    + destruct H3 as [H3|H3]; [left; now apply (waiting_only d s s')|right].
      assert (id <> id') by (intros <-; now apply (Hng c' k')).
      apply (given_only d s s' c' id' Honly Hcd) in H3. destruct H3 as [G1 G2]. split; [exact G1|].
      rewrite Hne' by done. now rewrite (only_thread_mutex d s s') in G2.
  - intros c' id' [Hin Hnot]%elem_of_difference. destruct (Hh c' id' Hin) as (H1 & H2 & H3).
    assert (id <> id') by (intros <-; apply Hnot; rewrite (Hhold c' Hin); set_solver).
    split; [now apply Hfor|]. rewrite Hne' by done. auto.
  - intros id' p' Hp'. change (the_mid p' id' s' <> 0) in Hp'. rewrite Hmids in Hp'.
    destruct (Ho id' p' Hp') as (H1 & H2 & H3).
    assert (Hu : forall p2, the_mid p2 id' (set_mutex id m s') <> 0 -> p2 = p').
    { intros p2 Hp2. apply H2. change (the_mid p2 id' s' <> 0) in Hp2. now rewrite Hmids in Hp2. }
    destruct (decide (id = id')) as [<-|Hne]; [rewrite Heq|rewrite Hne' by done]; [|auto].
    split; [exact H1|]. split; [exact Hu|]. intros Hx. now contradiction Hx.
  - intros id' p' Hp' Hlk'. change (the_mid p' id' s' <> 0) in Hp'. rewrite Hmids in Hp'.
    destruct (decide (id = id')) as [<-|Hne].
    + rewrite Heq. exists d.2. split; [reflexivity|]. right. exists k.
      destruct Hdf as (_ & _ & Hdm). destruct (Ho id d.1 Hdm) as (_ & Hu & _). rewrite (Hu p' Hp').
      destruct d. split; [done|]. split; [exact Hnb|]. now rewrite Heq.
    + rewrite Hne' in * by done. destruct (Hl id' p' Hp' Hlk') as (i & Hi & Hor). exists i. split; [done|].
      destruct Hor as [Hin|(k' & Hk' & Hg)]; [left; set_solver|right]. exists k'. split; [done|].
      assert (Hcd : (p', i) <> d) by (intros <-; congruence).
      destruct Hg as [G1 G2]. split; [|now rewrite Hne'].
      change (th_blocked (the_thread (p', i) s') <> 1 /\ th_state (the_thread (p', i) s') = RUNNABLE). now rewrite Hth.
Qed.

(** Changing the mutex [id] and the mark of the process [p] for it, when no
    thread holds it or waits for it. *)
Lemma the_mid_set p p' id id' v s :
  (p, id) <> (p', id') -> the_mid p' id' (set_mid p id v s) = the_mid p' id' s.
Proof.
  intros Hne. unfold the_mid, the_proc, set_mid, upd_proc. cbn [k_procs set_k_procs].
  destruct (decide (p = p')) as [<-|Hp]; [|now rewrite list_lookup_alter_ne].
  rewrite list_lookup_alter_eq. destruct (k_procs s !! p) as [q|]; simpl; [|done].
  now rewrite list_lookup_insert_ne by congruence.
Qed.

Lemma the_mid_set_zero p id s : the_mid p id (set_mid p id 0 s) = 0.
Proof.
  unfold the_mid, the_proc, set_mid, upd_proc. cbn [k_procs set_k_procs]. rewrite list_lookup_alter_eq.
  destruct (k_procs s !! p) as [q|] eqn:Hq; cbn -[replicate proc0].
  - destruct (decide (id < length (p_mid q))%nat) as [Hlt|Hge]; [now rewrite list_lookup_insert_eq|].
    now rewrite list_insert_ge, lookup_ge_None_2 by lia.
  - unfold proc0. cbn -[replicate]. destruct (replicate MAX_MUTEXES 0 !! id) as [v|] eqn:Ev; [|done].
    now apply lookup_replicate in Ev as [-> _].
Qed.

Lemma live_set_mid p id v s c : live s c -> live (set_mid p id v s) c.
Proof.
  intros ((q & Hq & Hlk & Hlen) & Hlt & Htid). split; [|split; [done|]].
  - unfold set_mid, upd_proc. cbn [k_procs set_k_procs].
    destruct (decide (p = c.1)) as [->|Hne]; [|exists q; now rewrite list_lookup_alter_ne].
    eexists. rewrite list_lookup_alter_eq, Hq. split; [reflexivity|]. done.
  - rewrite <- Htid. f_equal. unfold the_thread, the_proc, set_mid, upd_proc. cbn [k_procs set_k_procs].
    destruct (decide (p = c.1)) as [->|Hne]; [|now rewrite list_lookup_alter_ne].
    rewrite list_lookup_alter_eq. now destruct (k_procs s !! c.1).
Qed.

Lemma the_thread_set_mid p id v s c : the_thread c (set_mid p id v s) = the_thread c s.
Proof.
  unfold the_thread, the_proc, set_mid, upd_proc. cbn [k_procs set_k_procs].
  destruct (decide (p = c.1)) as [->|Hne]; [|now rewrite list_lookup_alter_ne].
  rewrite list_lookup_alter_eq. now destruct (k_procs s !! c.1).
Qed.

Lemma minv_realloc s w h p id v m :
  minv (mkMsys s w h) -> (id < MAX_MUTEXES)%nat -> mx_locked (the_mutex id s) <> 1 \/ mx_allocated (the_mutex id s) = 0 ->
  (forall p', p' <> p -> the_mid p' id s = 0) -> mx_locked m <> 1 -> mx_tid m = -1 ->
  (mx_allocated m = 0 -> v = 0) ->
  minv (mkMsys (set_mid p id v (set_mutex id m s)) w h).
Proof.
  intros (Hlen & Hb & Hw & Hh & Ho & Hl) Hid Hidle Hothers Hm1 Hm2 Hv. cbn [ms_st ms_wait ms_held] in *.
  assert (Hnot : forall c' id', locked_for s c' id' -> id <> id').
  { intros c' id' (_ & F2 & F3) <-. destruct (Ho id _ F3) as (F4 & _). destruct Hidle; congruence. }
  set (s' := set_mid p id v (set_mutex id m s)).
  assert (Heq : the_mutex id s' = m) by (apply the_mutex_eq; lia).
  assert (Hne : forall id', id <> id' -> the_mutex id' s' = the_mutex id' s) by (intros; now apply the_mutex_ne).
  assert (Hmid : forall p' id', id <> id' -> the_mid p' id' s' = the_mid p' id' s).
  { intros p' id' Hn. unfold s'. rewrite the_mid_set by congruence. reflexivity. }
  assert (Hth : forall c', the_thread c' s' = the_thread c' s) by (intros c'; exact (the_thread_set_mid p id v (set_mutex id m s) c')).
  assert (Hfor : forall c' id', locked_for s c' id' -> locked_for s' c' id').
  { intros c' id' F. specialize (Hnot _ _ F). unfold locked_for in *. now rewrite Hne, Hmid. }
  unfold minv; cbn [ms_st ms_wait ms_held]. split; [simpl; now rewrite length_insert|].
  split; [intros c' Hc'; rewrite Hth; now apply Hb|]. split; [|split; [|split]].
  - intros c' id' k Hk. destruct (Hw c' id' k Hk) as (H1 & H2 & H3 & H4). pose proof (Hnot _ _ H2).
    split; [now apply live_set_mid|]. split; [now apply Hfor|]. split; [|done].
    unfold waiting, given in *. now rewrite Hth, Hne.
  - intros c' id' Hin. destruct (Hh c' id' Hin) as (H1 & H2 & H3). pose proof (Hnot _ _ H1).
    split; [now apply Hfor|]. now rewrite Hne.
  - intros id' p' Hp'. destruct (decide (id = id')) as [<-|Hn].
    + assert (Hpp : forall p2, the_mid p2 id s' <> 0 -> p2 = p).
      { intros p2 Hp2. destruct (decide (p2 = p)) as [|Hx]; [done|]. unfold s' in Hp2.
        rewrite the_mid_set in Hp2 by congruence. now contradiction (Hothers p2 Hx). }
      rewrite Heq. pose proof (Hpp p' Hp') as ->. split; [|auto]. intros Hz. specialize (Hv Hz). subst v.
      apply Hp'. apply the_mid_set_zero.
    + rewrite Hmid in Hp' by done. destruct (Ho id' p' Hp') as (H1 & H2 & H3). rewrite Hne by done.
      split; [done|]. split; [|done]. intros p2. rewrite Hmid by done. apply H2.
  - intros id' p' Hp' Hlk. destruct (decide (id = id')) as [<-|Hn]; [congruence|].
    rewrite Hmid in Hp' by done. rewrite Hne in * by done.
    destruct (Hl id' p' Hp' Hlk) as (i & Hi & Hor). exists i. split; [done|].
    unfold given in *. now rewrite Hth, Hne.
Qed.

Lemma minv_env s s' w h : minv (mkMsys s w h) -> env w s s' -> minv (mkMsys s' w h).
Proof.
  intros (Hlen & Hb & Hw & Hh & Ho & Hl) (Em & Emid & Eb & Ew). cbn [ms_st ms_wait ms_held] in *.
  assert (Hmx : forall id, the_mutex id s' = the_mutex id s) by (intros; unfold the_mutex; now rewrite Em).
  unfold minv; cbn [ms_st ms_wait ms_held]. split; [now rewrite Em|]. split; [exact Eb|]. split; [|split; [|split]].
  - intros c id k Hk. destruct (Hw c id k Hk) as (H1 & H2 & H3 & H4). destruct (Ew c (mk_is_Some _ _ Hk)) as [Hlv Hth].
    split; [done|]. unfold locked_for, waiting, given in *. now rewrite Hth, Hmx, Emid.
  - intros c id Hin. destruct (Hh c id Hin) as (H1 & H2 & H3). unfold locked_for in *. now rewrite Hmx, Emid.
  - intros id p Hp. rewrite Emid in Hp. rewrite Hmx. destruct (Ho id p Hp) as (H1 & H2 & H3). split; [done|].
    split; [|done]. intros p'. rewrite Emid. apply H2.
  - intros id p Hp Hlk. rewrite Emid in Hp. rewrite Hmx in *. destruct (Hl id p Hp Hlk) as (i & Hi & Hor).
    exists i. split; [done|]. destruct Hor as [|(k & Hk & G1 & G2)]; [now left|right]. exists k. split; [done|].
    destruct (Ew (p, i) (mk_is_Some _ _ Hk)) as [_ Hth]. unfold given. now rewrite Hth, Hmx.
Qed.

(** ** One step *)
Lemma bad_or_id (id : Z) : bad_id id = true \/ exists n, id = Z.of_nat n /\ (n < MAX_MUTEXES)%nat.
Proof.
  unfold bad_id, MAX_MUTEXES. destruct (Z.ltb_spec id 0); [now left|].
  destruct (Z.leb_spec (Z.of_nat 64) id); [now left|]. right. exists (Z.to_nat id). lia.
Qed.

(** The outcomes of [kthread_mutex_lock] for a thread that is not blocked. *)
Lemma lock_outcome s c m id :
  live s c -> running m ∅ c -> th_blocked (the_thread c s) <> 1 ->
  (exists m', kthread_mutex_lock id (with_mach m s) = Done (-1) (with_mach m' s)) \/
  exists n, id = Z.of_nat n /\ (n < MAX_MUTEXES)%nat /\ usable s c.1 n = true /\
    mx_tid (the_mutex n s) <> Z.of_nat c.2 /\
    ((mx_locked (the_mutex n s) <> 1 /\ exists m', kthread_mutex_lock id (with_mach m s) =
        Done 0 (with_mach m' (set_mutex n (taken (the_mutex n s) (th_tid (the_thread c s))) s))) \/
     (mx_locked (the_mutex n s) = 1 /\ exists m' k ie, kthread_mutex_lock id (with_mach m s) =
        Switch (with_mach m' (upd_proc c.1 (fall_asleep c.1 c.2 (CMutex n)) (upd_thread c (set_blocked 1) s))) k /\
        lock_cont ie c.1 c.2 n k)).
Proof.
  intros Hl Hr Hb. destruct (live_caller s c m ∅ Hl Hr) as (x & q & Hm & Hc & _ & _).
  destruct (bad_or_id id) as [Hbad|(n & -> & Hn)].
  { left. exists m. unfold kthread_mutex_lock. now rewrite Hbad. }
  destruct (decide (usable s c.1 n = true /\ mx_tid (the_mutex n s) <> Z.of_nat c.2)) as [[Hu Ht]|Hrej].
  - right. exists n. do 4 (split; [done|]).
    assert (Htid : mx_tid (the_mutex n (with_mach m s)) <> th_tid (the_thread c s)) by (destruct Hl as (_ & _ & ->); exact Ht).
    destruct (decide (mx_locked (the_mutex n s) = 1)) as [Hlk|Hlk].
    + right. split; [done|]. destruct (lock_waits x (with_mach m s) c.1 c.2 q _ n Hm Hc Hn Hu Htid Hlk)
        as (m' & k & _ & Hrun & Hk). destruct c. eauto.
    + left. split; [done|]. destruct (lock_takes x (with_mach m s) c.1 c.2 q _ n Hm Hc Hn Hu Htid Hlk Hb)
        as (m' & _ & Hrun). eauto.
  - left. enough (total (kthread_mutex_lock (Z.of_nat n)) (with_mach m s)
      (fun r s' => r = -1 /\ exists m', s' = with_mach m' s)) as Htot.
    { apply total_done in Htot as (r & s' & E1 & -> & m' & ->). eauto. }
    eapply (lock_rejects x (with_mach m s) c.1 c.2 q _ n _ Hm Hc Hn); [|intros m' _; split; [reflexivity|now exists m']].
    destruct Hl as (_ & _ & ->). destruct (usable s c.1 n) eqn:Hu; [right|now left].
    destruct (decide (mx_tid (the_mutex n s) = Z.of_nat c.2)); [done|tauto].
Qed.

Lemma only_thread_wait c s n :
  live s c -> let s' := upd_proc c.1 (fall_asleep c.1 c.2 (CMutex n)) (upd_thread c (set_blocked 1) s) in
  only_thread c s s' /\ waiting s' c n.
Proof.
  intros Hl s'. set (f q := fall_asleep c.1 c.2 (CMutex n) (on_thread c.2 (set_blocked 1) q)).
  assert (Hs' : s' = upd_proc c.1 f s) by (unfold s', upd_thread; now rewrite upd_proc_comp).
  assert (Hf : keeps f) by (intros q; simpl; now rewrite !length_alter).
  assert (Hother : forall c', c' <> c -> the_thread c' s' = the_thread c' s).
  { intros c' Hne. rewrite Hs'. apply (the_thread_at_other c.1 c.2); [|now destruct c].
    intros q j Hj. simpl. now rewrite !list_lookup_alter_ne. }
  assert (Hself : the_thread c s' = set_state SLEEPING (set_chan (CMutex n) (set_blocked 1 (the_thread c s)))).
  { rewrite Hs'. apply the_thread_self; [done|]. intros q Hq. simpl. now rewrite !list_lookup_alter_eq, Hq. }
  split; [|unfold waiting; now rewrite Hself].
  split; [reflexivity|]. split; [intros; rewrite Hs'; now apply the_mid_keeps|]. split; [exact Hother|].
  intros c' Hc'. rewrite Hs'. apply live_keeps; [done..|]. rewrite <- Hs'.
  destruct (decide (c' = c)) as [->|Hne]; [now rewrite Hself|now rewrite Hother].
Qed.

(** A suspended thread that is RUNNABLE has been given its mutex; it takes
    it, and does not panic. *)
Lemma resume_outcome s w h c id k m :
  minv (mkMsys s w h) -> w !! c = Some (id, k) -> th_state (the_thread c s) = RUNNABLE -> running m {[PTABLE_LOCK]} c ->
  given s c id /\ exists s', k (with_mach m (upd_proc c.1 (dispatch c.2) s)) = Done 0 s' /\
    running (k_mach s') ∅ c /\ only_thread c s s' /\ th_blocked (the_thread c s') <> 1.
Proof.
  intros (Hlen & _ & Hw & _) Hk Hst (x & Hm & Hxp & Hxt). cbn [ms_st ms_wait] in *.
  destruct (Hw c id k Hk) as (Hl & (Hid & Hlk & _) & Hwg & ie & Hcont).
  assert (Hg : given s c id) by (destruct Hwg as [(_ & _ & Hx)|]; [congruence|done]).
  split; [exact Hg|]. destruct (live_thread s c Hl) as (q & Hq & Hql & Hqn & Hth).
  set (s2 := with_mach m (upd_proc c.1 (dispatch c.2) s)).
  assert (Hq2 : k_procs s2 !! c.1 = Some (dispatch c.2 q)).
  { unfold s2, upd_proc. simpl. now rewrite list_lookup_alter_eq, Hq. }
  assert (Hth2 : p_threads (dispatch c.2 q) !! c.2 = Some (set_state RUNNING (the_thread c s))).
  { unfold dispatch. now apply (lookup_on_thread c.2 _ (set_p_state RUNNING q)). }
  destruct (Hcont x s2 _ _ Hm Hq2 Hql Hth2) as [_ Hgo]. destruct (Hgo (proj1 (proj1 Hg))) as (m3 & Hm3 & Hrun).
  eexists. split; [exact Hrun|]. split; [exists (resume_exe x ie); done|]. set (f q := on_thread c.2 (set_chan CNull) (dispatch c.2 q)).
  assert (Hf : keeps f) by (intros q0; simpl; now rewrite !length_alter).
  assert (Hother : forall c', c' <> c -> the_thread c' (upd_proc c.1 f s) = the_thread c' s).
  { intros c' Hne. apply (the_thread_at_other c.1 c.2); [|now destruct c].
    intros q0 j Hj. simpl. now rewrite !list_lookup_alter_ne. }
  assert (Hself : the_thread c (upd_proc c.1 f s) = set_chan CNull (set_state RUNNING (the_thread c s))).
  { apply the_thread_self; [done|]. intros q0 Hq0. simpl. now rewrite !list_lookup_alter_eq, Hq0. }
  assert (Hmx : taken (the_mutex id s2) (th_tid (set_state RUNNING (the_thread c s))) = the_mutex id s).
  { unfold taken. cbn [th_tid set_state]. destruct Hl as (_ & _ & ->). destruct Hg as [_ <-].
    change (the_mutex id s2) with (the_mutex id s). revert Hlk. destruct (the_mutex id s). simpl. now intros ->. }
  rewrite Hmx. unfold s2. destruct c as [p i]. cbn [fst snd] in *. rewrite upd_thread_mach, upd_thread_proc, upd_proc_comp.
  change (fun q0 => on_thread _ _ _) with f.
  assert (Hmutex : <[id := the_mutex id s]> (k_mutex s) = k_mutex s).
  { apply list_insert_id. unfold the_mutex. destruct (lookup_lt_is_Some_2 (k_mutex s) id) as [? ->]; [lia|done]. }
  split; [|change (th_blocked (the_thread (p, i) (upd_proc p f s)) <> 1); rewrite Hself; apply Hg].
  split; [exact Hmutex|]. split; [intros; now apply (the_mid_keeps f p)|]. split; [exact Hother|].
  intros c' Hc'. apply (live_keeps f p s c' Hf Hc').
  destruct (decide (c' = (p, i))) as [->|Hne]; [now rewrite Hself|now rewrite Hother].
Qed.

Lemma unlock_outcome s c m id r s' :
  live s c -> running m ∅ c -> kthread_mutex_unlock id (with_mach m s) = Done r s' ->
  (r <> 0 /\ exists m', s' = with_mach m' s) \/
  exists n q m', id = Z.of_nat n /\ (n < MAX_MUTEXES)%nat /\ r = 0 /\ usable s c.1 n = true /\
    mx_tid (the_mutex n s) = Z.of_nat c.2 /\ k_procs s !! c.1 = Some q /\ length (p_threads q) = NTHREAD /\
    s' = with_mach m' (unlocked c.1 c.2 n q s).
Proof.
  intros Hl Hr Hrun. destruct (live_caller s c m ∅ Hl Hr) as (x & q & Hm & Hc & Hlen & Hq).
  destruct (bad_or_id id) as [Hbad|(n & -> & Hn)].
  { left. unfold kthread_mutex_unlock in Hrun. rewrite Hbad in Hrun. injection Hrun as <- <-. eauto. }
  assert (Htid : th_tid (the_thread c s) = Z.of_nat c.2) by apply Hl.
  destruct (decide (usable s c.1 n = true /\ mx_tid (the_mutex n s) = Z.of_nat c.2)) as [[Hu Ht]|Hrej].
  - right. assert (Htot : total (kthread_mutex_unlock (Z.of_nat n)) (with_mach m s)
      (fun r s' => r = 0 /\ exists m', s' = with_mach m' (unlocked c.1 c.2 n q s))).
    { apply (unlock_runs x (with_mach m s) c.1 c.2 q (the_thread c s) n _ Hm Hc Hn Hu).
      - rewrite Htid. now symmetry.
      - intros m' _. split; [reflexivity|]. exists m'. unfold unlocked. now destruct (waiter n c.2 q). }
    unfold total in Htot. rewrite Hrun in Htot. destruct Htot as (-> & m' & ->). exists n, q, m'. auto 10.
  - left. assert (Htot : total (kthread_mutex_unlock (Z.of_nat n)) (with_mach m s)
      (fun r s' => r = -1 /\ exists m', s' = with_mach m' s)).
    { apply (unlock_rejects x (with_mach m s) c.1 c.2 q (the_thread c s) n _ Hm Hc Hn).
      - rewrite Htid. destruct (usable s c.1 n) eqn:Hu; [right|now left]. intros Hx. apply Hrej. split; [done|now symmetry].
      - intros m' _. split; [reflexivity|now exists m']. }
    unfold total in Htot. rewrite Hrun in Htot. destruct Htot as (-> & m' & ->). eauto.
Qed.

Lemma only_thread_grant d s : live s d -> only_thread d s (upd_thread d granted s) /\
  th_blocked (the_thread d (upd_thread d granted s)) <> 1 /\ th_state (the_thread d (upd_thread d granted s)) = RUNNABLE.
Proof.
  intros Hl. destruct d as [p i].
  assert (Hself : the_thread (p, i) (upd_thread (p, i) granted s) = granted (the_thread (p, i) s)).
  { apply (the_thread_self (on_thread i granted) s (p, i)); [done|]. intros q Hq. now apply lookup_on_thread. }
  split; [|rewrite Hself; split; [discriminate|reflexivity]].
  split; [reflexivity|]. split; [intros; apply (the_mid_keeps (on_thread i granted)), keeps_on_thread|].
  assert (Hother : forall c', c' <> (p, i) -> the_thread c' (upd_thread (p, i) granted s) = the_thread c' s).
  { intros c' Hne. now apply the_thread_ne. }
  split; [exact Hother|]. intros c' Hc'. apply (live_keeps (on_thread i granted) p s c'); [apply keeps_on_thread|done|].
  destruct (decide (c' = (p, i))) as [->|Hne]; [change (upd_proc p _ s) with (upd_thread (p, i) granted s); now rewrite Hself|].
  change (upd_proc p _ s) with (upd_thread (p, i) granted s). now rewrite Hother.
Qed.

(** The thread that [kthread_mutex_unlock] finds is one that waits. *)
Lemma waiter_waits s w h c n q w0 :
  minv (mkMsys s w h) -> k_procs s !! c.1 = Some q -> waiter n c.2 q = Some w0 ->
  exists k0, w !! (c.1, w0) = Some (n, k0) /\ live s (c.1, w0).
Proof.
  intros (_ & Hb & Hw & _) Hq Hwt. cbn [ms_st ms_wait] in *. apply find_waiter_Some in Hwt as (Hne & th & Hth & Hwf).
  assert (Hd : the_thread (c.1, w0) s = th) by (apply the_thread_at; now exists q).
  unfold waits_for in Hwf. apply andb_true_iff in Hwf as [Hbl Hch].
  apply Z.eqb_eq in Hbl. apply bool_decide_eq_true in Hch. rewrite <- Hd in Hbl, Hch.
  destruct (w !! (c.1, w0)) as [[id0 k0]|] eqn:Hwd; [|now apply Hb in Hwd].
  destruct (Hw _ _ _ Hwd) as (Hdl & _ & [(_ & Hchan & _)|[[Hx _] _]] & _); [|contradiction].
  rewrite Hchan in Hch. injection Hch as ->. eauto.
Qed.

(** A waiting thread is found. *)
Lemma waiter_found s c n q c' :
  live s c -> k_procs s !! c.1 = Some q -> length (p_threads q) = NTHREAD -> waiting s c' n -> c'.1 = c.1 -> c' <> c ->
  waiter n c.2 q <> None.
Proof.
  intros Hl Hq Hlen (B1 & B2 & _) H1 Hne Hwt.
  assert (Hcc : c'.2 <> c.2) by (intros Hx; apply Hne; destruct c, c'; simpl in *; congruence).
  pose proof (waiter_None n c.2 q c'.2 (proj1 (proj2 Hl)) Hlen Hwt Hcc) as Hno.
  replace (default thread0 (p_threads q !! c'.2)) with (the_thread c' s) in Hno.
  2: { unfold the_thread. now rewrite H1, (the_proc_lookup _ _ _ Hq). }
  unfold waits_for in Hno. rewrite B1, B2, Z.eqb_refl, bool_decide_eq_true_2 in Hno by done. discriminate.
Qed.

Lemma minv_unlock s w h c n q :
  minv (mkMsys s w h) -> w !! c = None -> live s c -> (n < MAX_MUTEXES)%nat -> usable s c.1 n = true ->
  mx_tid (the_mutex n s) = Z.of_nat c.2 -> k_procs s !! c.1 = Some q -> length (p_threads q) = NTHREAD ->
  minv (mkMsys (unlocked c.1 c.2 n q s) w (h ∖ {[(c, n)]})).
Proof.
  intros Hinv Hc Hl Hn Hu Ht Hq Hlen. pose proof Hinv as (_ & Hb & Hw & _ & Ho & _). cbn [ms_st ms_wait] in *.
  assert (Hthr : forall w0, default thread0 (p_threads q !! w0) = the_thread (c.1, w0) s).
  { intros w0. unfold the_thread. cbn [fst snd]. now rewrite (the_proc_lookup _ _ _ Hq). }
  unfold unlocked. destruct (waiter n c.2 q) as [w0|] eqn:Hwt.
  - destruct (waiter_waits s w h c n q w0 Hinv Hq Hwt) as (k0 & Hwd & Hdl). rewrite Hthr.
    destruct (only_thread_grant _ _ Hdl) as [Honly Hnb].
    pose proof (minv_hand s _ w h c (c.1, w0) n k0 Hinv Hc Hn Hu Ht Hwd Honly Hnb) as Hres.
    destruct Hdl as (_ & _ & ->). exact Hres.
  - apply minv_free; auto. intros c' k Hk Hwait.
    destruct (Hw c' n k Hk) as (_ & (_ & _ & Hm') & _). apply usable_spec in Hu as [_ Hmid].
    destruct (Ho n c.1 Hmid) as (_ & Huniq & _). specialize (Huniq _ Hm').
    apply (waiter_found s c n q c' Hl Hq Hlen Hwait Huniq); [congruence|exact Hwt].
Qed.

Lemma minv_alloc s w h c m r s' :
  minv (mkMsys s w h) -> live s c -> running m ∅ c -> kthread_mutex_alloc (with_mach m s) = Done r s' ->
  minv (mkMsys s' w h).
Proof.
  intros Hinv Hl Hr Hrun. destruct (live_caller s c m ∅ Hl Hr) as (x & q & Hm & Hc & _ & _).
  assert (Htot : total kthread_mutex_alloc (with_mach m s) (fun _ s' => minv (mkMsys s' w h))).
  { apply (alloc_runs x (with_mach m s) c.1 c.2 q _ _ Hm Hc). change (k_mutex (with_mach m s)) with (k_mutex s).
    destruct (find_idx unallocated (k_mutex s)) as [id|] eqn:Hf; intros m' _; [|exact Hinv].
    apply (minv_realloc s w h c.1 id 1 (fresh c.1) Hinv).
    - destruct Hinv as (Hlen & _). cbn in Hlen. rewrite <- Hlen. eapply find_idx_lt, Hf.
    - right. apply find_idx_Some in Hf as ((mm & Hmm & Ha) & _). apply Z.eqb_eq in Ha. unfold the_mutex. now rewrite Hmm.
    - intros p' _. destruct Hinv as (_ & _ & _ & _ & Ho & _). cbn in Ho.
      destruct (decide (the_mid p' id s = 0)) as [|Hx]; [done|]. destruct (Ho id p' Hx) as (Ha & _).
      apply find_idx_Some in Hf as ((mm & Hmm & Hz) & _). apply Z.eqb_eq in Hz. unfold the_mutex in Ha. now rewrite Hmm in Ha.
    - discriminate.
    - reflexivity.
    - discriminate. }
  unfold total in Htot. now rewrite Hrun in Htot.
Qed.

Lemma minv_dealloc s w h c id m r s' :
  minv (mkMsys s w h) -> live s c -> running m ∅ c -> kthread_mutex_dealloc id (with_mach m s) = Done r s' ->
  minv (mkMsys s' w h).
Proof.
  intros Hinv Hl Hr Hrun. destruct (live_caller s c m ∅ Hl Hr) as (x & q & Hm & Hc & _ & _).
  destruct (bad_or_id id) as [Hbad|(n & -> & Hn)].
  { unfold kthread_mutex_dealloc in Hrun. rewrite Hbad in Hrun. injection Hrun as _ <-. exact Hinv. }
  assert (Htot : total (kthread_mutex_dealloc (Z.of_nat n)) (with_mach m s) (fun _ s' => minv (mkMsys s' w h))).
  { apply (dealloc_runs x (with_mach m s) c.1 c.2 q _ n _ Hm Hc Hn).
    destruct (usable (with_mach m s) c.1 n && _) eqn:Hu; intros m' _; [|exact Hinv].
    apply andb_true_iff in Hu as [Hu Hlk]. apply negb_true_iff, Z.eqb_neq in Hlk.
    apply (usable_spec s) in Hu as [_ Hmid]. pose proof Hinv as (_ & _ & _ & _ & Ho & _). cbn in Ho.
    apply (minv_realloc s w h c.1 n 0 dropped Hinv Hn); [now left| |discriminate|reflexivity|reflexivity].
    intros p' Hp'. destruct (decide (the_mid p' n s = 0)) as [|Hx]; [done|].
    destruct (Ho n _ Hmid) as (_ & Hu' & _). now apply Hu' in Hx. }
  unfold total in Htot. now rewrite Hrun in Htot.
Qed.

Lemma minv_step y y' : minv y -> mstep y y' -> minv y'.
Proof.
  intros Hinv Hstep. destruct Hstep as
    [s w h c id m s' Hc Hl Hr Hrun|s w h c id m r s' Hc Hl Hr Hrun Hr0|s w h c id m s' k Hc Hl Hr Hrun
    |s w h c id k m r s' Hc Hst Hr Hrun|s w h c id m s' Hc Hl Hr Hrun|s w h c id m r s' Hc Hl Hr Hrun Hr0
    |s w h c m r s' Hc Hl Hr Hrun|s w h c id m r s' Hc Hl Hr Hrun|s w h s' Henv].
  1-3: pose proof Hinv as (_ & Hb & _); specialize (Hb c Hc);
    destruct (lock_outcome s c m id Hl Hr Hb)
      as [(m' & Ho)|(n & -> & Hn & Hu & Ht & [(Hlk & m' & Ho)|(Hlk & m' & k' & ie & Ho & Hk)])];
    rewrite Ho in Hrun; simplify_eq; rewrite ?Nat2Z.id; try exact Hinv; try contradiction.
  - exact (minv_take s w h c n Hinv Hc Hl Hn Hu Hlk).
  - destruct (only_thread_wait c s n Hl) as [Honly Hwait].
    exact (minv_wait s _ w h c n k ie Hinv Hc Hl Hn Hu Hlk Ht Honly Hwait Hk).
  - destruct (resume_outcome s w h c id k m Hinv Hc Hst Hr) as (Hg & s1 & Hs1 & _ & Honly & Hnb).
    rewrite Hs1 in Hrun. injection Hrun as <- <-. exact (minv_resume s s1 w h c id k Hinv Hc Hg Honly Hnb).
  - destruct (unlock_outcome s c m id 0 s' Hl Hr Hrun) as [[H0 _]|(n & q & m' & -> & Hn & _ & Hu & Ht & Hq & Hlen & ->)];
      [contradiction|]. rewrite Nat2Z.id. exact (minv_unlock s w h c n q Hinv Hc Hl Hn Hu Ht Hq Hlen).
  - destruct (unlock_outcome s c m id r s' Hl Hr Hrun) as [[_ (m' & ->)]|(n & q & m' & -> & _ & -> & _)]; [exact Hinv|contradiction].
  - eauto using minv_alloc.
  - eauto using minv_dealloc.
  - eauto using minv_env.
Qed.

Lemma reachable_inv s0 y : minit s0 -> rtc mstep (mkMsys s0 ∅ ∅) y -> minv y.
Proof. intros Hi Hr. eapply rtc_invariant; eauto using minv_step, minit_inv. Qed.

(** C1. Mutual exclusion: whatever the threads call, in whatever order they
    run, two threads never hold the same mutex (hold: their
    [kthread_mutex_lock] returned 0 and they have not unlocked since). *)
Theorem mutex_mutual_exclusion (s0 : kstate E) (y : msys) (c c' : nat * nat) (id : nat) :
  minit s0 -> rtc mstep (mkMsys s0 ∅ ∅) y -> (c, id) ∈ ms_held y -> (c', id) ∈ ms_held y -> c' = c.
Proof.
  intros Hi Hr H1 H2. destruct (reachable_inv _ _ Hi Hr) as (_ & _ & _ & Hh & Ho & _).
  destruct (Hh c id H1) as ((_ & _ & M1) & T1 & _). destruct (Hh c' id H2) as ((_ & _ & M2) & T2 & _).
  eapply same_thread; eauto.
Qed.

(** The holder's [kthread_mutex_unlock] while a thread waits. *)
Lemma unlock_wakes s w h c id k i m :
  minv (mkMsys s w h) -> w !! c = Some (id, k) -> th_state (the_thread c s) <> RUNNABLE ->
  ((c.1, i), id) ∈ h -> w !! (c.1, i) = None -> live s (c.1, i) -> running m ∅ (c.1, i) ->
  exists s' d kd, kthread_mutex_unlock (Z.of_nat id) (with_mach m s) = Done 0 s' /\
    w !! (c.1, d) = Some (id, kd) /\ th_state (the_thread (c.1, d) s') = RUNNABLE /\
    mx_locked (the_mutex id s') = 1 /\ mx_tid (the_mutex id s') = Z.of_nat d.
Proof.
  intros Hinv Hk Hst Hh Hnw Hl Hr. pose proof Hinv as (Hlen & _ & Hw & Hhd & Ho & _). cbn [ms_st ms_wait ms_held] in *.
  destruct (Hw c id k Hk) as (_ & (Hid & Hlk & Hmid) & [Hwait|[[_ ?] _]] & _); [|contradiction].
  destruct (Hhd _ _ Hh) as (_ & Htid & _). destruct (live_caller s _ m ∅ Hl Hr) as (x & q & Hm & Hc & Hql & Hq).
  assert (Hu : usable s c.1 id = true) by (apply usable_spec; split; [apply (Ho id c.1 Hmid)|exact Hmid]).
  destruct (waiter id i q) as [d|] eqn:Hwt.
  2: { destruct (waiter_found s (c.1, i) id q c Hl Hq Hql Hwait eq_refl); [congruence|exact Hwt]. }
  destruct (waiter_waits s w h (c.1, i) id q d Hinv Hq Hwt) as (kd & Hd & Hdl). cbn [fst] in Hd, Hdl.
  assert (Htot : total (kthread_mutex_unlock (Z.of_nat id)) (with_mach m s)
    (fun r s' => r = 0 /\ exists m', s' = with_mach m' (unlocked c.1 i id q s))).
  { apply (unlock_runs x (with_mach m s) c.1 i q _ id _ Hm Hc Hid Hu); [|intros m' _; split; [done|]; exists m'; unfold unlocked; now rewrite Hwt].
    destruct Hl as (_ & _ & Ht). etransitivity; [exact Ht|]. symmetry. exact Htid. }
  apply total_done in Htot as (r & s' & Hrun & -> & m' & ->). unfold unlocked in *. rewrite Hwt in *.
  eexists _, d, kd. split; [exact Hrun|]. split; [exact Hd|].
  change (the_mutex id (with_mach m' ?s1)) with (the_mutex id s1). rewrite the_mutex_eq by (cbn; lia).
  split; [exact (proj2 (proj2 (only_thread_grant _ _ Hdl)))|]. split; [exact Hlk|]. cbn [handed mx_tid].
  destruct Hdl as (_ & _ & Hdt). cbn [snd] in Hdt. rewrite <- Hdt. unfold the_thread. cbn [fst snd]. now rewrite (the_proc_lookup c.1 s q Hq).
Qed.

(** C7. No waiter is forgotten and none panics.  While a thread waits for a
    mutex, the mutex is locked and records a thread of the same process that
    holds it, or one that has been handed it and is RUNNABLE.  A waiting thread
    that the scheduler finds RUNNABLE returns 0 from [kthread_mutex_lock] as the
    recorded owner of the locked mutex, unblocked and with no spin lock held,
    instead of reaching the panic.  And while a thread still sleeps for it, the
    holder's [kthread_mutex_unlock] makes one of the waiting threads RUNNABLE
    and the recorded owner. *)
Theorem mutex_waiters_served (s0 : kstate E) (y : msys) (c : nat * nat) (id : nat)
    (k : kstate E -> prog (kstate E) Z) :
  minit s0 -> rtc mstep (mkMsys s0 ∅ ∅) y -> ms_wait y !! c = Some (id, k) ->
  (mx_locked (the_mutex id (ms_st y)) = 1 /\
   exists i, mx_tid (the_mutex id (ms_st y)) = Z.of_nat i /\ (((c.1, i), id) ∈ ms_held y \/
     exists k', ms_wait y !! (c.1, i) = Some (id, k') /\ th_state (the_thread (c.1, i) (ms_st y)) = RUNNABLE)) /\
  (th_state (the_thread c (ms_st y)) = RUNNABLE -> forall m, running m {[PTABLE_LOCK]} c ->
     exists s', k (with_mach m (upd_proc c.1 (dispatch c.2) (ms_st y))) = Done 0 s' /\
       mx_locked (the_mutex id s') = 1 /\ mx_tid (the_mutex id s') = Z.of_nat c.2 /\ the_mid c.1 id s' <> 0 /\
       th_blocked (the_thread c s') <> 1 /\ running (k_mach s') ∅ c) /\
  (th_state (the_thread c (ms_st y)) <> RUNNABLE -> forall i m,
     ((c.1, i), id) ∈ ms_held y -> ms_wait y !! (c.1, i) = None -> live (ms_st y) (c.1, i) -> running m ∅ (c.1, i) ->
     exists s' d kd, kthread_mutex_unlock (Z.of_nat id) (with_mach m (ms_st y)) = Done 0 s' /\
       ms_wait y !! (c.1, d) = Some (id, kd) /\ th_state (the_thread (c.1, d) s') = RUNNABLE /\
       mx_locked (the_mutex id s') = 1 /\ mx_tid (the_mutex id s') = Z.of_nat d).
Proof.
  intros Hi Hr Hk. destruct y as [s w h]. pose proof (reachable_inv _ _ Hi Hr) as Hinv. cbn [ms_st ms_wait ms_held] in *.
  pose proof Hinv as (_ & _ & Hw & _ & _ & Hl). destruct (Hw c id k Hk) as (_ & (_ & Hlk & Hmid) & _). split; [|split].
  - split; [exact Hlk|]. destruct (Hl id c.1 Hmid Hlk) as (i & Hti & Hor). exists i. split; [exact Hti|].
    destruct Hor as [|(k' & Hk' & (_ & Hst) & _)]; eauto.
  - intros Hst m Hrun. destruct (resume_outcome s w h c id k m Hinv Hk Hst Hrun) as ((_ & Ht) & s' & Hs' & Hrun' & Honly & Hb).
    exists s'. rewrite (only_thread_mutex _ _ _ id Honly). destruct Honly as (_ & Hmid' & _). rewrite Hmid'. auto 10.
  - intros Hst i m Hh Hnw Hlv Hrun. eapply unlock_wakes; eauto.
Qed.

(** C9. [kthread_mutex_unlock] on every path.  A caller that may not use the
    mutex or does not hold it gets -1 and changes nothing; the holder gets 0:
    the mutex goes, still locked, to the first thread blocked on it in the
    cyclic order after the caller, which becomes RUNNABLE and unblocked, and
    when there is none the mutex becomes free.  On every path the caller holds
    no spin lock when the call returns. *)
Theorem unlock_hands_over (s : kstate E) (c : nat * nat) (m : mach) (id : nat) :
  live s c -> running m ∅ c -> (id < MAX_MUTEXES)%nat ->
  exists m', running m' ∅ c /\ kthread_mutex_unlock (Z.of_nat id) (with_mach m s) =
    if usable s c.1 id && (mx_tid (the_mutex id s) =? Z.of_nat c.2) then
      Done 0 (with_mach m'
        match find (fun t => waits_for id (the_thread (c.1, t) s)) (cyclic c.2) with
        | Some t => set_mutex id (handed (the_mutex id s) (th_tid (the_thread (c.1, t) s))) (upd_thread (c.1, t) granted s)
        | None => set_mutex id (freed (the_mutex id s)) s
        end)
    else Done (-1) (with_mach m' s).
Proof.
  intros Hl Hr Hid. destruct (live_caller s c m ∅ Hl Hr) as (x & q & Hm & Hc & Hlen & Hq).
  assert (Hrun : forall m', mst x ∅ m' -> running m' ∅ c).
  { intros m' Hm'. exists x. destruct Hc as (Hp & Ht & _). split; [exact Hm'|]. split; [exact Hp|]. now destruct c. }
  assert (Htid : th_tid (the_thread c s) = Z.of_nat c.2) by apply Hl.
  assert (Hthr : forall t, default thread0 (p_threads q !! t) = the_thread (c.1, t) s).
  { intros t. unfold the_thread. cbn [fst snd]. now rewrite (the_proc_lookup _ _ _ Hq). }
  destruct (usable s c.1 id && (mx_tid (the_mutex id s) =? Z.of_nat c.2)) eqn:Hu.
  - apply andb_true_iff in Hu as [Hu Ht]. apply Z.eqb_eq in Ht.
    enough (total (kthread_mutex_unlock (Z.of_nat id)) (with_mach m s) (fun r s' => r = 0 /\ exists m', running m' ∅ c /\ s' =
      with_mach m' (unlocked c.1 c.2 id q s))) as Htot.
    { apply total_done in Htot as (r & s' & E1 & -> & m' & Hm' & ->). exists m'. split; [exact Hm'|]. rewrite E1. unfold unlocked.
      rewrite (waiter_order id c.2 q (proj1 (proj2 Hl))), (find_ext _ (fun t => waits_for id (the_thread (c.1, t) s))).
      - destruct (find _ _); [now rewrite Hthr|done].
      - intros t. now rewrite Hthr. }
    apply (unlock_runs x (with_mach m s) c.1 c.2 q _ id _ Hm Hc Hid Hu); [rewrite Htid; now symmetry|].
    intros m' Hm'. split; [reflexivity|]. exists m'. split; [now apply Hrun|]. unfold unlocked. now destruct (waiter id c.2 q).
  - enough (total (kthread_mutex_unlock (Z.of_nat id)) (with_mach m s) (fun r s' => r = -1 /\ exists m', running m' ∅ c /\ s' =
      with_mach m' s)) as Htot.
    { apply total_done in Htot as (r & s' & E1 & -> & m' & Hm' & ->). eauto. }
    apply (unlock_rejects x (with_mach m s) c.1 c.2 q _ id _ Hm Hc Hid); [|intros m' Hm'; split; [done|]; exists m'; split; [now apply Hrun|done]].
    apply andb_false_iff in Hu as [Hu|Ht]; [now left|right]. apply Z.eqb_neq in Ht. rewrite Htid. intros Hx.
    apply Ht. now symmetry.
Qed.

(** The thread [kill] wakes, as it wakes it. *)
Lemma kill_proc_first q i th :
  p_state q = SLEEPING -> find_idx (fun t => bool_decide (th_state t = SLEEPING)) (p_threads q) = Some i ->
  p_threads q !! i = Some th ->
  p_threads (kill_proc q) !! i = Some (set_state RUNNABLE th) /\ p_ttlock (kill_proc q) = p_ttlock q.
Proof.
  intros Hs Hf Hth. unfold kill_proc. cbn [p_state set_p_killed]. rewrite bool_decide_eq_true_2 by done.
  cbn [p_threads set_p_killed set_p_state]. rewrite Hf. split; [|reflexivity].
  now apply (lookup_on_thread i _ (set_p_state RUNNABLE (set_p_killed 1 q))).
Qed.

(** C37. Killing a process whose first sleeping thread waits for a mutex
    brings the kernel down: [kill] makes that thread RUNNABLE while its flag
    [blocked] is still set, and when the scheduler runs it,
    [kthread_mutex_lock] panics. *)
Theorem kill_of_blocked_thread_panics (s : kstate E) w h (c : nat * nat) (id : nat) (k : kstate E -> prog (kstate E) Z)
    (x : exe) (m : mach) (pid : Z) (q : proc) :
  minv (mkMsys s w h) -> w !! c = Some (id, k) -> waiting s c id -> k_procs s !! c.1 = Some q ->
  p_state q = SLEEPING -> find_idx (fun t => bool_decide (th_state t = SLEEPING)) (p_threads q) = Some c.2 ->
  find_idx (fun q => p_pid q =? pid) (k_procs s) = Some c.1 -> mst x ∅ m ->
  exists s1, kill pid (with_mach m s) = Done 0 s1 /\ th_state (the_thread c s1) = RUNNABLE /\
    forall m2, running m2 {[PTABLE_LOCK]} c ->
      k (with_mach m2 (upd_proc c.1 (dispatch c.2) s1)) = Crash "Thread is Blocked".
Proof.
  intros (_ & _ & Hw & _) Hk Hwait Hq Hs Hf Hpid Hm. cbn [ms_st ms_wait] in *.
  destruct (Hw c id k Hk) as (Hl & _ & _ & ie & Hcont).
  destruct (live_thread s c Hl) as (q0 & Hq0 & Hlk & _ & Hth). replace q0 with q in * by congruence.
  destruct (kill_proc_first q c.2 _ Hs Hf Hth) as [Hth1 Hlk1].
  destruct (total_done _ _ _ (kill_run x (with_mach m s) pid Hm)) as (r & s1 & Hrun & m' & _ & Hres).
  change (k_procs (with_mach m s)) with (k_procs s) in Hres. rewrite Hpid in Hres. destruct Hres as [-> ->].
  eexists. split; [exact Hrun|].
  assert (Hq1 : k_procs (upd_proc c.1 kill_proc s) !! c.1 = Some (kill_proc q)).
  { unfold upd_proc. simpl. now rewrite list_lookup_alter_eq, Hq. }
  split; [autorewrite with kstate; rewrite (the_thread_at c _ (set_state RUNNABLE (the_thread c s)));
    [reflexivity|now exists (kill_proc q)]|].
  intros m2 (x2 & Hm2 & _).
  set (s2 := with_mach m2 (upd_proc c.1 (dispatch c.2) (with_mach m' (upd_proc c.1 kill_proc (with_mach m s))))).
  assert (Hq2 : k_procs s2 !! c.1 = Some (dispatch c.2 (kill_proc q))).
  { unfold s2, upd_proc. simpl. now rewrite !list_lookup_alter_eq, Hq. }
  destruct (Hcont x2 s2 _ (set_state RUNNING (set_state RUNNABLE (the_thread c s))) Hm2 Hq2) as [Hcrash _].
  - cbn [dispatch on_thread set_p_threads p_ttlock set_p_state]. congruence.
  - now apply (lookup_on_thread c.2 _ (set_p_state RUNNING (kill_proc q))).
  - apply Hcrash. apply Hwait.
Qed.

End Protocol.

(** ** A concrete run: thread (0,0) locks mutex 0 and thread (0,1) waits *)
Definition run0 : kstate unit := demo demo_exe ∅ RUNNING RUNNING.
Definition exe_of (i : nat) : exe := mkExe 0 true (Some 0%nat) (Some (0%nat, i)).
Definition mach_of (i : nat) : mach := one_cpu (exe_of i) ∅.
Definition after {A} (d : kstate unit) (r : prog (kstate unit) A) : kstate unit :=
  match r with Done _ s => s | Switch s _ => s | _ => d end.
Definition cont {A} (r : prog (kstate unit) A) : kstate unit -> prog (kstate unit) A :=
  match r with Switch _ k => k | _ => fun _ => Spin end.
Definition run1 : kstate unit := after run0 (kthread_mutex_alloc (with_mach (mach_of 0) run0)).
Definition run2 : kstate unit := after run1 (kthread_mutex_lock 0 (with_mach (mach_of 0) run1)).
Definition run3 : kstate unit := after run2 (kthread_mutex_lock 0 (with_mach (mach_of 1) run2)).
Definition run3_k : kstate unit -> prog (kstate unit) Z := cont (kthread_mutex_lock 0 (with_mach (mach_of 1) run2)).

Lemma running_of i : running (mach_of i) ∅ (0%nat, i).
Proof. exists (exe_of i). split; [apply one_cpu_mst; [reflexivity|kset]|split; reflexivity]. Qed.

(** [minit] from the entries of the table. *)
Definition quiet (q : proc) : Prop :=
  Forall (fun v => v = 0) (p_mid q) /\ Forall (fun t => th_blocked t = 0) (p_threads q).

Lemma default_Forall {A} (P : A -> Prop) d l i : P d -> Forall P l -> P (default d (l !! i)).
Proof.
  intros Hd Hl. destruct (l !! i) as [a|] eqn:Hi; [|exact Hd]. simpl. eapply Forall_lookup; eauto.
Qed.

Lemma minit_intro (s : kstate unit) :
  k_mutex s = replicate MAX_MUTEXES mutex0 -> Forall quiet (k_procs s) -> minit s.
Proof.
  intros Hm Hq. assert (H0 : quiet proc0) by (split; apply Forall_replicate; reflexivity).
  assert (Hp : forall p, quiet (the_proc p s)) by (intros p; now apply (default_Forall quiet proc0 (k_procs s))).
  split; [exact Hm|]. split.
  - intros p id. apply (default_Forall (fun v => v = 0) 0 (p_mid (the_proc p s))); [done|apply Hp].
  - intros c. enough (th_blocked (the_thread c s) = 0) by lia.
    apply (default_Forall (fun t => th_blocked t = 0) thread0 (p_threads (the_proc c.1 s))); [done|apply Hp].
Qed.

Lemma run0_init : minit run0.
Proof.
  apply minit_intro; [reflexivity|]. apply Forall_cons. split; [|apply Forall_replicate; split; apply Forall_replicate; done].
  split; [apply Forall_replicate; done|]. apply Forall_cons. split; [done|]. apply Forall_cons. split; [done|].
  apply Forall_replicate. done.
Qed.

Lemma live_of (s : kstate unit) i :
  k_procs s !! 0%nat = Some (the_proc 0 s) -> p_ttlock (the_proc 0 s) = Some PTABLE_LOCK ->
  length (p_threads (the_proc 0 s)) = NTHREAD -> (i < NTHREAD)%nat -> th_tid (the_thread (0%nat, i) s) = Z.of_nat i ->
  live s (0%nat, i).
Proof. intros. split; [eauto|auto]. Qed.

Lemma reach2 : rtc mstep (mkMsys run0 ∅ ∅) (mkMsys run2 ∅ ({[((0, 0)%nat, 0%nat)]} ∪ ∅)).
Proof.
  eapply rtc_l; [eapply (m_alloc run0 ∅ ∅ (0, 0)%nat (mach_of 0) 0 run1); [reflexivity| |apply running_of|]|].
  { apply live_of; first [reflexivity|unfold NTHREAD; lia]. }
  { vm_compute. reflexivity. }
  eapply rtc_once, (m_lock run1 ∅ ∅ (0, 0)%nat 0 (mach_of 0) run2); [reflexivity| |apply running_of|].
  { apply live_of; first [vm_compute; reflexivity|unfold NTHREAD; lia]. }
  vm_compute. reflexivity.
Qed.

Definition switches {A} (r : prog (kstate unit) A) : bool := match r with Switch _ _ => true | _ => false end.
Lemma switches_eq {A} d (r : prog (kstate unit) A) : switches r = true -> r = Switch (after d r) (cont r).
Proof. destruct r; try discriminate. reflexivity. Qed.

Lemma run3_switches : switches (kthread_mutex_lock 0 (with_mach (mach_of 1) run2)) = true.
Proof. vm_compute. reflexivity. Qed.

Definition sys3 : msys := mkMsys run3 (<[(0, 1)%nat := (0%nat, run3_k)]> ∅) ({[((0, 0)%nat, 0%nat)]} ∪ ∅).

Lemma reach3 : rtc mstep (mkMsys run0 ∅ ∅) sys3.
Proof.
  eapply rtc_r; [apply reach2|].
  apply (m_lock_wait run2 ∅ ({[((0, 0)%nat, 0%nat)]} ∪ ∅) (0, 1)%nat 0 (mach_of 1) run3 run3_k);
    [reflexivity| |apply running_of|].
  - apply live_of; first [vm_compute; reflexivity|unfold NTHREAD; lia].
  - exact (switches_eq run2 _ run3_switches).
Qed.

Lemma mutex_mutual_exclusion_witness :
  ((0, 0)%nat, 0%nat) ∈ ms_held sys3 /\ forall c, (c, 0%nat) ∈ ms_held sys3 -> c = (0, 0)%nat.
Proof.
  split; [set_solver|]. intros c Hc. apply (mutex_mutual_exclusion run0 sys3 (0, 0)%nat c 0 run0_init reach3); [set_solver|exact Hc].
Defined.

Lemma sys3_waits : ms_wait sys3 !! (0, 1)%nat = Some (0%nat, run3_k).
Proof. apply lookup_insert_eq. Qed.

Lemma run3_live : live run3 (0, 0)%nat.
Proof. apply live_of; first [vm_compute; reflexivity|unfold NTHREAD; lia]. Qed.

(** Thread 0 unlocks and thread 1, which waits, is given the mutex. *)
Lemma mutex_waiters_served_witness :
  mx_locked (the_mutex 0 run3) = 1 /\
  exists s' d, kthread_mutex_unlock 0 (with_mach (mach_of 0) run3) = Done 0 s' /\
    th_state (the_thread (0, d)%nat s') = RUNNABLE /\ mx_tid (the_mutex 0 s') = Z.of_nat d.
Proof.
  destruct (mutex_waiters_served run0 sys3 (0, 1)%nat 0 run3_k run0_init reach3 sys3_waits) as ([H _] & _ & Hu).
  split; [exact H|]. destruct (Hu ltac:(vm_compute; discriminate) 0%nat (mach_of 0)) as (s' & d & kd & Hr & _ & Hs & _ & Ht).
  - cbn [fst sys3 ms_held]. set_solver.
  - reflexivity.
  - exact run3_live.
  - apply running_of.
  - exists s', d. auto.
Defined.

Lemma unlock_hands_over_witness :
  exists s', kthread_mutex_unlock 0 (with_mach (mach_of 0) run3) = Done 0 s'.
Proof.
  destruct (unlock_hands_over run3 (0, 0)%nat (mach_of 0) 0 run3_live (running_of 0) ltac:(unfold MAX_MUTEXES; lia))
    as (m' & _ & H).
  replace (usable _ _ _ && _) with true in H by (vm_compute; reflexivity).
  eexists. exact H.
Defined.

(** Another run: thread 1 holds the mutex and sleeps elsewhere when thread 0
    starts to wait, so that the process is SLEEPING. *)
Definition run2' : kstate unit := after run1 (kthread_mutex_lock 0 (with_mach (mach_of 1) run1)).
Definition asleep1 : kstate unit := upd_thread (0, 1)%nat (set_state SLEEPING) run2'.
Definition run3' : kstate unit := after asleep1 (kthread_mutex_lock 0 (with_mach (mach_of 0) asleep1)).
Definition run3_k' : kstate unit -> prog (kstate unit) Z := cont (kthread_mutex_lock 0 (with_mach (mach_of 0) asleep1)).

Lemma reach2' : rtc mstep (mkMsys run0 ∅ ∅) (mkMsys run2' ∅ ({[((0, 1)%nat, 0%nat)]} ∪ ∅)).
Proof.
  eapply rtc_l; [eapply (m_alloc run0 ∅ ∅ (0, 0)%nat (mach_of 0) 0 run1); [reflexivity| |apply running_of|]|].
  { apply live_of; first [reflexivity|unfold NTHREAD; lia]. }
  { vm_compute. reflexivity. }
  eapply rtc_once, (m_lock run1 ∅ ∅ (0, 1)%nat 0 (mach_of 1) run2'); [reflexivity| |apply running_of|].
  { apply live_of; first [vm_compute; reflexivity|unfold NTHREAD; lia]. }
  vm_compute. reflexivity.
Qed.

Lemma env_set_state (s : kstate unit) p i st :
  (forall c, th_blocked (the_thread c s) <> 1) -> env ∅ s (upd_thread (p, i) (set_state st) s).
Proof.
  intros Hb. split; [reflexivity|].
  split; [intros; apply (the_mid_keeps (on_thread i (set_state st))), keeps_on_thread|].
  split; [|intros c [? Hc]; now rewrite lookup_empty in Hc].
  intros c _. destruct (decide (c = (p, i))) as [->|Hne]; [|rewrite the_thread_ne by done; apply Hb].
  specialize (Hb (p, i)). revert Hb. unfold the_thread, the_proc, upd_thread, upd_proc. cbn [k_procs set_k_procs fst snd].
  rewrite list_lookup_alter_eq. destruct (k_procs s !! p) as [q|]; [|done]. cbn.
  rewrite list_lookup_alter_eq. now destruct (p_threads q !! i).
Qed.

Lemma asleep1_env : env ∅ run2' asleep1.
Proof.
  destruct (reachable_inv _ _ run0_init reach2') as (_ & Hb & _).
  apply env_set_state. intros c. exact (Hb c (lookup_empty c)).
Qed.

Lemma run3'_switches : switches (kthread_mutex_lock 0 (with_mach (mach_of 0) asleep1)) = true.
Proof. vm_compute. reflexivity. Qed.

Lemma reach3' : rtc mstep (mkMsys run0 ∅ ∅)
  (mkMsys run3' (<[(0, 0)%nat := (0%nat, run3_k')]> ∅) ({[((0, 1)%nat, 0%nat)]} ∪ ∅)).
Proof.
  eapply rtc_r; [eapply rtc_r; [apply reach2'|exact (m_env _ _ _ _ asleep1_env)]|].
  apply (m_lock_wait asleep1 ∅ ({[((0, 1)%nat, 0%nat)]} ∪ ∅) (0, 0)%nat 0 (mach_of 0) run3' run3_k');
    [reflexivity| |apply running_of|].
  - apply live_of; first [vm_compute; reflexivity|unfold NTHREAD; lia].
  - exact (switches_eq asleep1 _ run3'_switches).
Qed.

Definition wait3' : gmap (nat * nat) (nat * (kstate unit -> prog (kstate unit) Z)) := <[(0, 0)%nat := (0%nat, run3_k')]> ∅.
Lemma wait3'_eq : wait3' !! (0, 0)%nat = Some (0%nat, run3_k').
Proof. apply lookup_insert_eq. Qed.

Lemma kill_of_blocked_thread_panics_witness :
  exists s1, kill 1 (with_mach (mach_of 2) run3') = Done 0 s1 /\
    forall m2, running m2 {[PTABLE_LOCK]} (0, 0)%nat ->
      run3_k' (with_mach m2 (upd_proc 0 (dispatch 0) s1)) = Crash "Thread is Blocked".
Proof.
  destruct (kill_of_blocked_thread_panics run3' wait3' ({[((0, 1)%nat, 0%nat)]} ∪ ∅) (0, 0)%nat 0 run3_k' (exe_of 2) (mach_of 2) 1 (the_proc 0 run3')
    (reachable_inv _ _ run0_init reach3') wait3'_eq) as (s1 & Hk & _ & Hc).
  - repeat split; vm_compute; reflexivity.
  - vm_compute. reflexivity.
  - vm_compute. reflexivity.
  - vm_compute. reflexivity.
  - vm_compute. reflexivity.
  - apply one_cpu_mst; [reflexivity|kset].
  - exists s1. split; [exact Hk|exact Hc].
Defined.
