(* ===== verification/Tournament.v ===== *)
(** * The tournament tree (tournament_tree.c)

    A user-level lock built from a complete binary tree of kernel mutexes: a
    thread with identifier ID locks the nodes from its leaf to the root and
    unlocks them from the root to its leaf.  The tree uses the mutexes through
    the class [MutexService], which states what the kernel promises for them;
    [kernel_service] in TournamentKernel discharges it with the operations of
    Mutex.  Allocation and deallocation of a tree are in TreeAlloc. *)
From S2P Require Import Prelude.

Class MutexService (S : Type) := {
  sv_alloc : M S Z;
  sv_dealloc : Z -> M S Z;
  sv_lock : Z -> M S Z;
  sv_unlock : Z -> M S Z;
  (** a thread in user mode, the ids not allocated, and the ids its process
      owns that are not locked *)
  sv_ok : S -> Prop;
  sv_free : S -> gset nat;
  sv_mine : S -> gset nat;
  sv_disjoint s : sv_ok s -> sv_free s ## sv_mine s;
  sv_alloc_none s : sv_ok s -> sv_free s = ∅ ->
    exists r s', sv_alloc s = Done r s' /\ r < 0 /\ sv_ok s' /\ sv_free s' = ∅ /\ sv_mine s' = sv_mine s;
  sv_alloc_some s : sv_ok s -> sv_free s <> ∅ ->
    exists id s', sv_alloc s = Done (Z.of_nat id) s' /\ sv_ok s' /\ id ∈ sv_free s /\
      sv_free s' = sv_free s ∖ {[id]} /\ sv_mine s' = {[id]} ∪ sv_mine s;
  sv_dealloc_mine s id : sv_ok s -> id ∈ sv_mine s ->
    exists s', sv_dealloc (Z.of_nat id) s = Done 0 s' /\ sv_ok s' /\
      sv_free s' = {[id]} ∪ sv_free s /\ sv_mine s' = sv_mine s ∖ {[id]};
}.

(** [struct trnmnt_tree]; a null pointer is [None]. *)
Record trnmnt_tree := mkTree {
  tt_depth : Z;
  tt_tree : option (list Z);
  tt_size : Z;
  tt_tid : Z;
}.

Section Tree.
Context {S : Type} {V : MutexService S}.
(** Reading the array outside its bounds has no defined result. *)
Definition node (ids : list Z) (index : Z) : M S Z :=
  if index <? 0 then panic "out of bounds"
  else match ids !! Z.to_nat index with
       | Some id => ret id
       | None => panic "out of bounds"
       end.

Fixpoint acquire_helper (fuel : nat) (ids : list Z) (index : Z) : M S Z :=
  match fuel with
  | O => fun _ => Spin
  | Datatypes.S fuel =>
      if index =? 0 then id <~ node ids 0 ;; sv_lock id
      else
        id <~ node ids index ;;
        r <~ sv_lock id ;;
        if r <? 0 then ret (-1) else acquire_helper fuel ids (Z.quot (index - 1) 2)
  end.

Fixpoint release_helper (fuel : nat) (ids : list Z) (index : Z) : M S Z :=
  match fuel with
  | O => fun _ => Spin
  | Datatypes.S fuel =>
      if index =? 0 then id <~ node ids 0 ;; sv_unlock id
      else
        r <~ release_helper fuel ids (Z.quot (index - 1) 2) ;;
        if r <? 0 then ret (-1)
        else id <~ node ids index ;; sv_unlock id
  end.

(** The index at which a thread starts. *)
Definition leaf (size ID : Z) : Z := Z.quot (s32 (s32 (size + ID) - 1)) 2.

(** [fuel] bounds the depth of the recursion.  With the result comes the value
    the call leaves in the field [tid], if it writes it: other threads may
    write the field while this one waits for a mutex. *)
Definition trnmnt_tree_acquire (fuel : nat) (tree : option trnmnt_tree) (ID : Z) : M S (Z * option Z) :=
  match tree with
  | Some (mkTree d (Some ids) size tid) =>
      if (ID <? 0) || (16 <? ID) then ret (-1, None)
      else
        ans <~ acquire_helper fuel ids (leaf size ID) ;;
        if 0 <=? ans then ret (ans, Some ID) else ret (-1, None)
  | _ => ret (-1, None)
  end.

(** [tree->tid = -1] comes before the test of the pointer. *)
Definition trnmnt_tree_release (fuel : nat) (tree : option trnmnt_tree) (ID : Z) : M S (Z * option Z) :=
  match tree with
  | None => panic "null pointer"
  | Some (mkTree d ids size _) =>
      let tid := Some (-1) in
      match ids with
      | None => ret (-1, tid)
      | Some l =>
          if (ID <? 0) || (16 <? ID) then ret (-1, tid)
          else
            r <~ release_helper fuel l (leaf size ID) ;;
            ret (r, tid)
      end
  end.

Definition trnmnt_tree_tid (tree : option trnmnt_tree) : M S Z :=
  match tree with Some t => ret (tt_tid t) | None => panic "null pointer" end.

(** ** The path from a leaf to the root *)

(** The node at level [k] above the leaves for the thread [ID] of a tree of
    depth [d]. *)
Definition level (d : nat) (ID : Z) (k : nat) : Z := 2 ^ (Z.of_nat d - 1 - Z.of_nat k) - 1 + ID / 2 ^ (Z.of_nat k + 1).
Definition path (d : nat) (ID : Z) : list Z := level d ID <$> seq 0 d.

(** Locking along a list of mutexes until one fails, and unlocking from its
    end. *)
Fixpoint lock_seq (l : list Z) : M S Z :=
  match l with
  | [] => ret 0
  | [id] => sv_lock id
  | id :: l => r <~ sv_lock id ;; if r <? 0 then ret (-1) else lock_seq l
  end.
Fixpoint unlock_seq (l : list Z) : M S Z :=
  match l with
  | [] => ret 0
  | [id] => sv_unlock id
  | id :: l => r <~ unlock_seq l ;; if r <? 0 then ret (-1) else sv_unlock id
  end.

Lemma leaf_level d ID :
  (1 <= d <= 30)%nat -> 0 <= ID < 2 ^ Z.of_nat d -> leaf (2 ^ Z.of_nat d - 1) ID = level d ID 0.
Proof.
  intros Hd HID. assert (Hp : 2 ^ Z.of_nat d = 2 * 2 ^ (Z.of_nat d - 1)).
  { rewrite <- Z.pow_succ_r by lia. f_equal. lia. }
  assert (0 < 2 ^ (Z.of_nat d - 1) <= 2 ^ 29) by (split; [apply Z.pow_pos_nonneg; lia|apply Z.pow_le_mono_r; lia]).
  change (2 ^ 29) with 536870912 in *. unfold leaf, level.
  rewrite (s32_small (2 ^ Z.of_nat d - 1 + ID)), (s32_small (2 ^ Z.of_nat d - 1 + ID - 1)) by lia.
  rewrite Z.quot_div_nonneg by lia.
  rewrite Z.sub_0_r. change (2 ^ (Z.of_nat 0 + 1)) with 2. Z.div_mod_to_equations. lia.
Qed.

Lemma level_parent d ID k :
  (Datatypes.S k < d)%nat -> 0 <= ID -> 0 < level d ID k /\ Z.quot (level d ID k - 1) 2 = level d ID (Datatypes.S k).
Proof.
  intros Hk HID. unfold level. rewrite Nat2Z.inj_succ.
  assert (E1 : 2 ^ (Z.of_nat d - 1 - Z.of_nat k) = 2 * 2 ^ (Z.of_nat d - 1 - Z.succ (Z.of_nat k))).
  { rewrite <- Z.pow_succ_r by lia. f_equal. lia. }
  assert (E2 : ID / 2 ^ (Z.succ (Z.of_nat k) + 1) = ID / 2 ^ (Z.of_nat k + 1) / 2).
  { rewrite Z.div_div by (try apply Z.pow_pos_nonneg; lia). f_equal. rewrite Z.add_1_r, Z.pow_succ_r by lia. lia. }
  assert (0 < 2 ^ (Z.of_nat d - 1 - Z.succ (Z.of_nat k))) by (apply Z.pow_pos_nonneg; lia).
  assert (0 <= ID / 2 ^ (Z.of_nat k + 1)) by (apply Z.div_pos; [lia|apply Z.pow_pos_nonneg; lia]).
  rewrite E1, E2. split; [lia|]. rewrite Z.quot_div_nonneg by lia. Z.div_mod_to_equations. lia.
Qed.

Lemma level_root d ID : (1 <= d)%nat -> 0 <= ID < 2 ^ Z.of_nat d -> level d ID (d - 1) = 0.
Proof.
  intros Hd HID. unfold level. replace (Z.of_nat d - 1 - Z.of_nat (d - 1)) with 0 by lia.
  replace (Z.of_nat (d - 1) + 1) with (Z.of_nat d) by lia. rewrite Z.div_small by lia. lia.
Qed.

Lemma level_bound d ID k : (k < d)%nat -> 0 <= ID < 2 ^ Z.of_nat d -> 0 <= level d ID k < 2 ^ Z.of_nat d - 1.
Proof.
  intros Hk HID. unfold level.
  assert (Hsum : 2 ^ Z.of_nat d = 2 ^ (Z.of_nat d - 1 - Z.of_nat k) * 2 ^ (Z.of_nat k + 1)).
  { rewrite <- Z.pow_add_r by lia. f_equal. lia. }
  assert (0 < 2 ^ (Z.of_nat d - 1 - Z.of_nat k)) by (apply Z.pow_pos_nonneg; lia).
  assert (2 <= 2 ^ (Z.of_nat k + 1)).
  { change 2 with (2 ^ 1) at 1. apply Z.pow_le_mono_r; lia. }
  assert (0 <= ID / 2 ^ (Z.of_nat k + 1) < 2 ^ (Z.of_nat d - 1 - Z.of_nat k)).
  { split; [apply Z.div_pos; lia|]. apply Z.div_lt_upper_bound; lia. }
  nia.
Qed.

(** ** Acquiring and releasing follow the path *)
Definition id_at (ids : list Z) (i : Z) : Z := default 0 (ids !! Z.to_nat i).

Lemma node_in ids i s : 0 <= i < Z.of_nat (length ids) -> node ids i s = Done (id_at ids i) s.
Proof.
  intros Hi. unfold node, id_at. replace (i <? 0) with false by lia.
  destruct (lookup_lt_is_Some_2 ids (Z.to_nat i)) as [id Hid]; [lia|]. now rewrite Hid.
Qed.

Lemma seq_levels d ID ids k : (k < d)%nat ->
  (fun j => id_at ids (level d ID j)) <$> seq k (d - k) =
  id_at ids (level d ID k) :: ((fun j => id_at ids (level d ID j)) <$> seq (Datatypes.S k) (d - Datatypes.S k)).
Proof. intros H. replace (d - k)%nat with (Datatypes.S (d - Datatypes.S k)) by lia. reflexivity. Qed.

Lemma lock_seq_cons id l : l <> [] ->
  lock_seq (id :: l) = (r <~ sv_lock id ;; if r <? 0 then ret (-1) else lock_seq l).
Proof. destruct l; [done|reflexivity]. Qed.
Lemma unlock_seq_cons id l : l <> [] ->
  unlock_seq (id :: l) = (r <~ unlock_seq l ;; if r <? 0 then ret (-1) else sv_unlock id).
Proof. destruct l; [done|reflexivity]. Qed.
Lemma levels_nonempty d ID ids k : (k < d)%nat -> (fun j => id_at ids (level d ID j)) <$> seq k (d - k) <> [].
Proof. intros H. rewrite seq_levels by done. discriminate. Qed.

Lemma acquire_from d ID ids n k s :
  (n = d - k)%nat -> (k < d)%nat -> 0 <= ID < 2 ^ Z.of_nat d -> Z.of_nat (length ids) = 2 ^ Z.of_nat d - 1 ->
  acquire_helper n ids (level d ID k) s ≃ lock_seq ((fun j => id_at ids (level d ID j)) <$> seq k (d - k)) s.
Proof.
  revert k s. induction n as [|n IH]; intros k s Hn Hk HID Hlen; [lia|]. cbn [acquire_helper].
  pose proof (level_bound d ID k Hk HID) as Hb. rewrite seq_levels by done.
  destruct (decide (Datatypes.S k < d)%nat) as [Hlt|Hge].
  - destruct (level_parent d ID k Hlt ltac:(lia)) as [Hpos Hpar].
    replace (level d ID k =? 0) with false by lia. erewrite bind_done by (apply node_in; lia).
    rewrite lock_seq_cons by now apply levels_nonempty.
    apply bind_peq. intros r s'. destruct (r <? 0); [reflexivity|]. rewrite Hpar. apply IH; lia.
  - assert (k = d - 1)%nat as -> by lia. rewrite level_root in * by lia. rewrite Z.eqb_refl.
    erewrite bind_done by (apply node_in; lia). replace (d - Datatypes.S (d - 1))%nat with 0%nat by lia. reflexivity.
Qed.

Lemma release_from d ID ids n k s :
  (n = d - k)%nat -> (k < d)%nat -> 0 <= ID < 2 ^ Z.of_nat d -> Z.of_nat (length ids) = 2 ^ Z.of_nat d - 1 ->
  release_helper n ids (level d ID k) s ≃ unlock_seq ((fun j => id_at ids (level d ID j)) <$> seq k (d - k)) s.
Proof.
  revert k s. induction n as [|n IH]; intros k s Hn Hk HID Hlen; [lia|]. cbn [release_helper].
  pose proof (level_bound d ID k Hk HID) as Hb. rewrite seq_levels by done.
  destruct (decide (Datatypes.S k < d)%nat) as [Hlt|Hge].
  - destruct (level_parent d ID k Hlt ltac:(lia)) as [Hpos Hpar].
    replace (level d ID k =? 0) with false by lia.
    rewrite unlock_seq_cons by now apply levels_nonempty. rewrite Hpar.
    apply prog_bind_peq; [apply IH; lia|]. intros r s'. destruct (r <? 0); [reflexivity|].
    erewrite bind_done by (apply node_in; lia). reflexivity.
  - assert (k = d - 1)%nat as -> by lia. rewrite level_root in * by lia. rewrite Z.eqb_refl.
    erewrite bind_done by (apply node_in; lia). replace (d - Datatypes.S (d - 1))%nat with 0%nat by lia. reflexivity.
Qed.

Lemma path_ids d ID ids : (fun j => id_at ids (level d ID j)) <$> seq 0 (d - 0) = id_at ids <$> path d ID.
Proof. unfold path. rewrite Nat.sub_0_r, <- list_fmap_compose. reflexivity. Qed.

Lemma level_decreasing d ID i j : (i < j)%nat -> (j < d)%nat -> 0 <= ID -> level d ID j < level d ID i.
Proof.
  intros Hij Hj HID. induction Hij as [|j Hij IH].
  - destruct (level_parent d ID i ltac:(lia) HID) as [Hp <-]. rewrite Z.quot_div_nonneg by lia.
    Z.div_mod_to_equations. lia.
  - specialize (IH ltac:(lia)). destruct (level_parent d ID j ltac:(lia) HID) as [Hp <-].
    rewrite Z.quot_div_nonneg by lia. Z.div_mod_to_equations. lia.
Qed.

(** C30. The tournament tree follows the tree: for every depth and every
    identifier below the number of leaves, [trnmnt_tree_acquire] locks exactly
    the mutexes on the path from the thread's leaf to the root, in that order,
    stopping at the first failure, and writes [tid] exactly when it took them
    all; and [trnmnt_tree_release] unlocks the same
    mutexes from the root down.  The path has one node per level, stays inside
    the array, ends at the root, and goes through strictly decreasing indices:
    every thread takes the mutexes in the same order, so waiting is never
    circular. *)
Theorem tournament_follows_path (d : nat) (ids : list Z) (tid ID : Z) (s : S) :
  (1 <= d <= 30)%nat -> Z.of_nat (length ids) = 2 ^ Z.of_nat d - 1 -> 0 <= ID <= 16 -> ID < 2 ^ Z.of_nat d ->
  let tree := Some (mkTree (Z.of_nat d) (Some ids) (2 ^ Z.of_nat d - 1) tid) in
  trnmnt_tree_acquire d tree ID s ≃
    (ans <~ lock_seq (id_at ids <$> path d ID) ;;
     if 0 <=? ans then ret (ans, Some ID) else ret (-1, None)) s /\
  trnmnt_tree_release d tree ID s ≃
    (r <~ unlock_seq (id_at ids <$> path d ID) ;; ret (r, Some (-1))) s /\
  length (path d ID) = d /\ Forall (fun i => 0 <= i < 2 ^ Z.of_nat d - 1) (path d ID) /\
  path d ID !! (d - 1)%nat = Some 0 /\
  (forall i j a b, (i < j)%nat -> path d ID !! i = Some a -> path d ID !! j = Some b -> b < a).
Proof.
  intros Hd Hlen HID Hlt tree. unfold tree, trnmnt_tree_acquire, trnmnt_tree_release.
  replace ((ID <? 0) || (16 <? ID)) with false by lia. rewrite leaf_level by lia. rewrite <- path_ids.
  split; [|split; [|split; [|split; [|split]]]].
  - apply prog_bind_peq; [apply acquire_from; lia|reflexivity].
  - apply prog_bind_peq; [apply release_from; lia|reflexivity].
  - unfold path. now rewrite length_fmap, length_seq.
  - unfold path. apply Forall_fmap, Forall_forall. intros k Hk%elem_of_seq. apply level_bound; lia.
  - unfold path. rewrite list_lookup_fmap, lookup_seq_lt by lia. simpl. f_equal. apply level_root; lia.
  - intros i j a b Hij Ha Hb. unfold path in *. rewrite list_lookup_fmap in *.
    destruct (seq 0 d !! i) as [i'|] eqn:Hi; [|discriminate]. destruct (seq 0 d !! j) as [j'|] eqn:Hj; [|discriminate].
    apply lookup_seq in Hi as [-> Hi], Hj as [-> Hj]. simplify_eq/=. apply level_decreasing; lia.
Qed.

(** The guard [ID > 16] is not the guard the array needs: for the
    identifier equal to the number of leaves (16 for a tree of depth 4) the
    guard passes and the first node read is outside the array. *)
Theorem tournament_id_out_of_bounds (fuel d : nat) (ids : list Z) (tid : Z) (s : S) :
  (1 <= d <= 4)%nat -> Z.of_nat (length ids) = 2 ^ Z.of_nat d - 1 ->
  2 ^ Z.of_nat d <= 16 /\
  trnmnt_tree_acquire (Datatypes.S fuel) (Some (mkTree (Z.of_nat d) (Some ids) (2 ^ Z.of_nat d - 1) tid)) (2 ^ Z.of_nat d) s
    = Crash "out of bounds".
Proof.
  intros Hd Hlen.
  assert (Hc : (d = 1 \/ d = 2 \/ d = 3 \/ d = 4)%nat) by lia.
  assert (Hp : 2 <= 2 ^ Z.of_nat d <= 16) by (destruct Hc as [ -> | [ -> | [ -> | -> ] ] ]; simpl; lia).
  assert (Hleaf : leaf (2 ^ Z.of_nat d - 1) (2 ^ Z.of_nat d) = 2 ^ Z.of_nat d - 1)
    by (destruct Hc as [ -> | [ -> | [ -> | -> ] ] ]; reflexivity).
  split; [lia|]. unfold trnmnt_tree_acquire. rewrite Hleaf. generalize dependent (2 ^ Z.of_nat d). intros w Hlen Hw _.
  replace ((w <? 0) || (16 <? w)) with false by lia. cbn [acquire_helper]. replace (w - 1 =? 0) with false by lia.
  unfold bind, node at 1. replace (w - 1 <? 0) with false by lia. now rewrite lookup_ge_None_2 by lia.
Qed.

Lemma tree_size d : (1 <= d <= 30)%nat -> s32 (Z.shiftl 2 (Z.of_nat d - 1) - 1) = 2 ^ Z.of_nat d - 1.
Proof.
  intros Hd. rewrite Z.shiftl_mul_pow2 by lia.
  assert (Hp : 2 ^ Z.of_nat d = 2 * 2 ^ (Z.of_nat d - 1)) by (rewrite <- Z.pow_succ_r by lia; f_equal; lia).
  rewrite <- Hp. assert (0 < 2 ^ (Z.of_nat d - 1) <= 2 ^ 29) by (split; [apply Z.pow_pos_nonneg; lia|apply Z.pow_le_mono_r; lia]).
  change (2 ^ 29) with 536870912 in *. apply s32_small. lia.
Qed.

End Tree.
