(* ===== verification/TournamentKernel.v ===== *)
(** * The mutexes of the kernel under the tournament tree

    The mutex operations of Mutex, called by a thread in user mode that holds
    no lock, are an instance of the class [MutexService] of Tournament: the
    free mutexes are the unallocated entries of the table, and those of the
    process are the allocated, unlocked entries its array [mid] marks. *)
From S2P Require Import Prelude Mmu Str Spinlock Kalloc Proc Exec Sched Mutex Tournament.

Section Service.
Context {E : Type} (x : exe) (p i : nat).
Implicit Types (s : kstate E).

Definition service_ok (s : kstate E) : Prop :=
  mst x ∅ (k_mach s) /\ (exists q th, caller x s p i q th) /\
  length (k_mutex s) = MAX_MUTEXES /\ length (p_mid (the_proc p s)) = MAX_MUTEXES.
Definition ids_with (f : nat -> bool) : gset nat := list_to_set (filter (fun id => f id = true) (seq 0 MAX_MUTEXES)).
Definition free_ids (s : kstate E) : gset nat := ids_with (fun id => unallocated (the_mutex id s)).
Definition own_ids (s : kstate E) : gset nat := ids_with (fun id => usable s p id && negb (mx_locked (the_mutex id s) =? 1)).

Lemma elem_ids_with f id : id ∈ ids_with f <-> (id < MAX_MUTEXES)%nat /\ f id = true.
Proof. unfold ids_with. rewrite elem_of_list_to_set, list_elem_of_filter, elem_of_seq. lia. Qed.

(** The state after an operation that sets one entry. *)
Definition entry_set (id : nat) (v : Z) (m : kthread_mutex) (m' : mach) (s : kstate E) : kstate E :=
  with_mach m' (set_mid p id v (set_mutex id m s)).

Lemma entry_set_ok id v m m' s : service_ok s -> mst x ∅ m' -> service_ok (entry_set id v m m' s).
Proof.
  intros (_ & (q & th & Hp & Ht & Hq & Hlk & Hth) & Hlen & Hmid) Hm. unfold entry_set. split; [exact Hm|].
  assert (Hq' : k_procs (set_mutex id m s) !! p = Some q) by exact Hq.
  split.
  - exists (set_p_mid (<[id := v]> (p_mid q)) q), th. repeat split; try assumption.
    cbn. rewrite list_lookup_alter_eq, Hq. reflexivity.
  - split; [cbn; now rewrite length_insert|]. autorewrite with kstate. unfold set_mid.
    rewrite (the_proc_upd _ _ _ q Hq'). cbn. rewrite length_insert.
    now rewrite (the_proc_lookup _ _ _ Hq) in Hmid.
Qed.

Lemma entry_set_mutex id v m m' s j : service_ok s -> (id < MAX_MUTEXES)%nat ->
  the_mutex j (entry_set id v m m' s) = if decide (j = id) then m else the_mutex j s.
Proof.
  intros (_ & _ & Hlen & _) Hid. unfold entry_set, the_mutex. cbn. destruct (decide (j = id)) as [->|Hne].
  - now rewrite list_lookup_insert_eq by lia.
  - now rewrite list_lookup_insert_ne by congruence.
Qed.

Lemma entry_set_mid id v m m' s j : service_ok s -> (id < MAX_MUTEXES)%nat ->
  the_mid p j (entry_set id v m m' s) = if decide (j = id) then v else the_mid p j s.
Proof.
  intros (_ & (q & th & _ & _ & Hq & _) & _ & Hmid) Hid. unfold entry_set. autorewrite with kstate.
  unfold the_mid, the_proc, set_mid, upd_proc in *. cbn. rewrite Hq in *. rewrite list_lookup_alter_eq, Hq. cbn. simpl in Hmid. destruct (decide (j = id)) as [->|Hne].
  - now rewrite list_lookup_insert_eq by lia.
  - now rewrite list_lookup_insert_ne by congruence.
Qed.

Lemma free_set id v m m' s : service_ok s -> (id < MAX_MUTEXES)%nat ->
  free_ids (entry_set id v m m' s) = if unallocated m then {[id]} ∪ free_ids s else free_ids s ∖ {[id]}.
Proof.
  intros Hok Hid. apply set_eq. intros j. unfold free_ids at 1. rewrite elem_ids_with, entry_set_mutex by done.
  pose proof (elem_ids_with (fun id => unallocated (the_mutex id s)) j) as Hj. fold (free_ids s) in Hj.
  destruct (unallocated m) eqn:Hu, (decide (j = id)) as [->|Hne];
    rewrite ?elem_of_union, ?elem_of_difference, elem_of_singleton, Hj, ?Hu; intuition (try lia; try congruence).
Qed.

Lemma own_set id v m m' s : service_ok s -> (id < MAX_MUTEXES)%nat ->
  own_ids (entry_set id v m m' s) =
  if negb (unallocated m) && negb (v =? 0) && negb (mx_locked m =? 1) then {[id]} ∪ own_ids s else own_ids s ∖ {[id]}.
Proof.
  intros Hok Hid. apply set_eq. intros j. unfold own_ids at 1. rewrite elem_ids_with. unfold usable.
  rewrite entry_set_mutex, entry_set_mid by done.
  pose proof (elem_ids_with (fun id => usable s p id && negb (mx_locked (the_mutex id s) =? 1)) j) as Hj.
  fold (own_ids s) in Hj. unfold usable in Hj. fold (unallocated m).
  destruct (decide (j = id)) as [->|Hne]; fold (unallocated m);
    destruct (negb (unallocated m) && negb (v =? 0) && negb (mx_locked m =? 1)) eqn:Hu;
    rewrite ?elem_of_union, ?elem_of_difference, elem_of_singleton, Hj; intuition (try lia; try congruence).
Qed.

Lemma service_mach m' s : service_ok s -> mst x ∅ m' ->
  service_ok (with_mach m' s) /\ free_ids (with_mach m' s) = free_ids s /\ own_ids (with_mach m' s) = own_ids s.
Proof. intros (_ & Hc & Hl & Hmid) Hm. split; [now split|now split]. Qed.

#[export] Program Instance kernel_service : MutexService (kstate E) := {
  sv_alloc := kthread_mutex_alloc; sv_dealloc := kthread_mutex_dealloc;
  sv_lock := kthread_mutex_lock; sv_unlock := kthread_mutex_unlock;
  sv_ok := service_ok; sv_free := free_ids; sv_mine := own_ids;
}.
Next Obligation.
  intros s Hok j Hf Hm. apply elem_ids_with in Hf as [_ Hf], Hm as [_ Hm]. unfold usable in Hm.
  fold (unallocated (the_mutex j s)) in Hm. now rewrite Hf in Hm.
Qed.
Next Obligation.
  intros s Hok He. pose proof Hok as (Hm & (q & th & Hc) & Hlen & _).
  assert (Hn : find_idx unallocated (k_mutex s) = None).
  { destruct (find_idx unallocated (k_mutex s)) as [id|] eqn:Hf; [|done]. exfalso.
    pose proof (find_idx_lt _ _ _ Hf). apply find_idx_Some in Hf as ((m & Hl & Hu) & _).
    apply (not_elem_of_empty (C := gset nat) id). rewrite <- He. apply elem_ids_with. split; [lia|].
    unfold the_mutex. now rewrite Hl. }
  assert (Ht : total kthread_mutex_alloc s (fun r s' => exists r0 s0, Done r s' = Done r0 s0 /\ r0 < 0 /\ service_ok s0 /\
    free_ids s0 = ∅ /\ own_ids s0 = own_ids s)).
  { eapply alloc_runs; [exact Hm|exact Hc|]. rewrite Hn. intros m' Hm'. eexists _, _. split; [reflexivity|].
    destruct (service_mach m' s Hok Hm') as (H1 & H2 & H3). rewrite H2. now split; [|split]. }
  unfold total in Ht. destruct (kthread_mutex_alloc s); try contradiction. exact Ht.
Qed.
Next Obligation.
  intros s Hok He. pose proof Hok as (Hm & (q & th & Hc) & Hlen & _).
  destruct (find_idx unallocated (k_mutex s)) as [id|] eqn:Hf.
  2: { exfalso. apply He. apply elem_of_equiv_empty_L. intros id Hid%elem_ids_with. destruct Hid as [Hid Hu].
       apply find_idx_None in Hf. destruct (lookup_lt_is_Some_2 (k_mutex s) id) as [m Hl]; [lia|].
       unfold the_mutex in Hu. rewrite Hl in Hu. pose proof (Forall_lookup_1 _ _ _ _ Hf Hl). simpl in *. congruence. }
  pose proof (find_idx_lt _ _ _ Hf) as Hlt. rewrite Hlen in Hlt.
  assert (Ht : total kthread_mutex_alloc s (fun r s' => exists id s0, Done r s' = Done (Z.of_nat id) s0 /\ service_ok s0 /\
    id ∈ free_ids s /\ free_ids s0 = free_ids s ∖ {[id]} /\ own_ids s0 = {[id]} ∪ own_ids s)).
  { eapply alloc_runs; [exact Hm|exact Hc|]. rewrite Hf. intros m' Hm'. exists id, (entry_set id 1 (fresh p) m' s).
    split; [reflexivity|]. split; [now apply entry_set_ok|]. rewrite free_set, own_set by done. split; [|now split].
    apply find_idx_Some in Hf as ((m & Hl & Hu) & _). apply elem_ids_with. split; [lia|]. unfold the_mutex. now rewrite Hl. }
  unfold total in Ht. destruct (kthread_mutex_alloc s); try contradiction. exact Ht.
Qed.
Next Obligation.
  intros s id Hok Hid. pose proof Hok as (Hm & (q & th & Hc) & _). apply elem_ids_with in Hid as [Hlt Hu].
  assert (Ht : total (kthread_mutex_dealloc (Z.of_nat id)) s (fun r s' => exists s0, Done r s' = Done 0 s0 /\ service_ok s0 /\
    free_ids s0 = {[id]} ∪ free_ids s /\ own_ids s0 = own_ids s ∖ {[id]})).
  { eapply dealloc_runs; [exact Hm|exact Hc|exact Hlt|]. rewrite Hu. intros m' Hm'. exists (entry_set id 0 dropped m' s).
    split; [reflexivity|]. split; [now apply entry_set_ok|]. now rewrite free_set, own_set by done. }
  unfold total in Ht. destruct (kthread_mutex_dealloc (Z.of_nat id) s); try contradiction. exact Ht.
Qed.
End Service.

(** A process with two threads and all the mutexes free. *)
Lemma service_demo : service_ok demo_exe 0 0 (demo demo_exe ∅ RUNNING RUNNING).
Proof.
  split; [apply demo_mst; [reflexivity|kset]|]. split; [|split; reflexivity].
  eexists _, _. repeat split; reflexivity.
Qed.

Lemma tournament_follows_path_witness :
  trnmnt_tree_acquire (V := kernel_service demo_exe 0 0) 2 (Some (mkTree 2 (Some [5; 6; 7]) 3 (-1))) 3
    (demo demo_exe ∅ RUNNING RUNNING) ≃
  (ans <~ lock_seq (V := kernel_service demo_exe 0 0) [7; 5] ;;
   if 0 <=? ans then ret (ans, Some 3) else ret (-1, None))
    (demo demo_exe ∅ RUNNING RUNNING).
Proof.
  destruct (tournament_follows_path (V := kernel_service demo_exe 0 0) 2 [5; 6; 7] (-1) 3 (demo demo_exe ∅ RUNNING RUNNING))
    as (H & _); [lia|reflexivity|lia|reflexivity|]. exact H.
Defined.

Lemma tournament_id_out_of_bounds_witness :
  trnmnt_tree_acquire (V := kernel_service demo_exe 0 0) 1 (Some (mkTree 4 (Some (replicate 15 0)) 15 (-1))) 16
    (demo demo_exe ∅ RUNNING RUNNING) = Crash "out of bounds".
Proof.
  exact (proj2 (tournament_id_out_of_bounds (V := kernel_service demo_exe 0 0) 0 4 (replicate 15 0) (-1)
    (demo demo_exe ∅ RUNNING RUNNING) ltac:(lia) eq_refl)).
Defined.
