(* ===== verification/Grep.v ===== *)
(** * grep (grep.c)

    The pattern matcher, and the loop that reads a file into a buffer of 1024
    bytes and prints the lines that match.  Strings are lists of bytes without
    their terminating zero.

    [parse] and [den] give the meaning of a pattern: a list of items, each one
    character or any number of them, with the anchors; [match_correct] relates
    the matcher to it.  [lines] is the meaning of a text file. *)
From S2P Require Import Prelude.

Definition NL : Z := 10.
Definition STAR : Z := 42.
Definition DOLLAR : Z := 36.
Definition DOT : Z := 46.
Definition CARET : Z := 94.

(** [matchstar(c, re, text)], where [here] is [matchhere] on [re]. *)
Fixpoint matchstar (here : list Z -> bool) (c : Z) (text : list Z) : bool :=
  if here text then true
  else match text with
       | [] => false
       | x :: text => if (x =? c) || (c =? DOT) then matchstar here c text else false
       end.

Fixpoint matchhere (re text : list Z) : bool :=
  match re with
  | [] => true
  | c :: re1 =>
      match re1 with
      | d :: re2 => if d =? STAR then matchstar (matchhere re2) c text
                    else match text with
                         | x :: text => if (c =? DOT) || (c =? x) then matchhere re1 text else false
                         | [] => false
                         end
      | [] => if c =? DOLLAR then match text with [] => true | _ => false end
              else match text with
                   | x :: text => if (c =? DOT) || (c =? x) then matchhere re1 text else false
                   | [] => false
                   end
      end
  end.

Fixpoint match_any (re text : list Z) : bool :=
  if matchhere re text then true
  else match text with [] => false | _ :: text => match_any re text end.
Definition match_ (re text : list Z) : bool :=
  match re with
  | c :: re1 => if c =? CARET then matchhere re1 text else match_any re text
  | [] => match_any re text
  end.

(** ** The file loop *)
Definition BUFSIZE : nat := 1024.

(** [strchr(p, '\n')]: the bytes before the first newline and those after it;
    a zero byte ends the search. *)
Fixpoint split_line (p : list Z) : option (list Z * list Z) :=
  match p with
  | [] => None
  | x :: p => if x =? 0 then None
              else if x =? NL then Some ([], p)
              else match split_line p with
                   | Some (line, rest) => Some (x :: line, rest)
                   | None => None
                   end
  end.

(** The inner loop: what it prints and the bytes from [p] on at its end.
    [fuel] bounds the lines. *)
Fixpoint scan (fuel : nat) (pattern p : list Z) : list Z * list Z :=
  match fuel with
  | O => ([], p)
  | S fuel =>
      match split_line p with
      | Some (line, rest) =>
          let '(out, p') := scan fuel pattern rest in
          ((if match_ pattern line then line ++ [NL] else []) ++ out, p')
      | None => ([], p)
      end
  end.

(** The outer loop.  [ks] bounds what the successive calls of [read] return,
    as a pipe or the console does; [buf] holds the [m] bytes kept. *)
Fixpoint grep (ks : list nat) (pattern input buf : list Z) : list Z :=
  match ks with
  | [] => []
  | k :: ks =>
      let n := Nat.min k (Nat.min (BUFSIZE - length buf - 1) (length input)) in
      if Nat.eqb n 0 then []
      else
        let buf := buf ++ take n input in
        let '(out, p) := scan (length buf) pattern buf in
        let kept := if Nat.eqb (length p) (length buf) then [] else p in
        out ++ grep ks pattern (drop n input) kept
  end.

(** ** The meaning of a pattern *)
Inductive item := One (c : Z) | Many (c : Z).

(** The items of a pattern and whether it ends with the anchor [$]. *)
Fixpoint parse (re : list Z) : list item * bool :=
  match re with
  | [] => ([], false)
  | c :: re1 =>
      match re1 with
      | d :: re2 => if d =? STAR then let '(l, e) := parse re2 in (Many c :: l, e)
                    else let '(l, e) := parse re1 in (One c :: l, e)
      | [] => if c =? DOLLAR then ([], true) else ([One c], false)
      end
  end.

Definition fits (c x : Z) : Prop := c = DOT \/ c = x.

Inductive den : list item -> list Z -> Prop :=
| den_nil : den [] []
| den_one c x l t : fits c x -> den l t -> den (One c :: l) (x :: t)
| den_many c p l t : Forall (fits c) p -> den l t -> den (Many c :: l) (p ++ t).

(** A text whose beginning the pattern describes. *)
Definition here (re text : list Z) : Prop :=
  exists mid post, text = mid ++ post /\ den (parse re).1 mid /\ ((parse re).2 = true -> post = []).

Lemma fits_bool c x : (c =? DOT) || (c =? x) = true <-> fits c x.
Proof. unfold fits. lia. Qed.

Lemma matchstar_spec f c text :
  matchstar f c text = true <-> exists p t, text = p ++ t /\ Forall (fits c) p /\ f t = true.
Proof.
  induction text as [|x text IH]; simpl.
  - destruct (f []) eqn:Ef; (split; [|intros (p & t & Heq & _ & Ht)]); [|done|discriminate|].
    + intros _. exists [], []. auto.
    + symmetry in Heq. apply app_nil in Heq as [-> ->]. congruence.
  - destruct (f (x :: text)) eqn:Ef; [split; [|done]; intros _; exists [], (x :: text); auto|].
    destruct ((x =? c) || (c =? DOT)) eqn:Ex.
    + rewrite IH. split; intros (p & t & Heq & Hp & Ht).
      * exists (x :: p), t. split; [simpl; congruence|]. split; [|done]. constructor; [unfold fits; lia|done].
      * destruct p as [|y p]; simplify_eq/=; [congruence|]. exists p, t. apply Forall_cons in Hp as [_ Hp]. auto.
    + split; [discriminate|]. intros (p & t & Heq & Hp & Ht). destruct p as [|y p]; simplify_eq/=; [congruence|].
      apply Forall_cons in Hp as [Hy _]. unfold fits in Hy. lia.
Qed.

(** One character of the pattern against one of the text. *)
Lemma here_one c re text l e : parse (c :: re) = (One c :: l, e) -> parse re = (l, e) ->
  here (c :: re) text <-> exists x t, text = x :: t /\ fits c x /\ here re t.
Proof.
  intros E1 E2. unfold here. rewrite E1, E2. simpl. split.
  - intros (mid & post & -> & Hd & He). inversion Hd; subst. simpl. eauto 10.
  - intros (x & t & -> & Hf & mid & post & -> & Hd & He). exists (x :: mid), post. split; [done|]. split; [now constructor|done].
Qed.

Lemma matchhere_cons c d re text : matchhere (c :: d :: re) text =
  if d =? STAR then matchstar (matchhere re) c text
  else match text with
       | x :: t => if (c =? DOT) || (c =? x) then matchhere (d :: re) t else false
       | [] => false
       end.
Proof. reflexivity. Qed.

Lemma matchhere_spec re text : matchhere re text = true <-> here re text.
Proof.
  revert text. induction re as [re IH] using (induction_ltof1 _ (@length Z)); unfold ltof in IH; intros text.
  destruct re as [|c [|d re]].
  - simpl. split; [|done]. intros _. exists [], text. split; [done|]. split; [constructor|done].
  - simpl. destruct (c =? DOLLAR) eqn:Ec.
    + unfold here. simpl. rewrite Ec. simpl. split.
      * destruct text; [|discriminate]. intros _. exists [], []. split; [done|]. split; [constructor|done].
      * intros (mid & post & -> & Hd & He). inversion Hd. now rewrite (He eq_refl).
    + rewrite (here_one c [] text [] false) by (simpl; now rewrite ?Ec).
      assert (Hnil : forall t, here [] t) by (intros t; exists [], t; split; [done|split; [constructor|done]]).
      destruct text as [|x t]; [split; [discriminate|intros (? & ? & ? & _); discriminate]|].
      destruct ((c =? DOT) || (c =? x)) eqn:Ex.
      * split; [|done]. intros _. exists x, t. split; [done|]. split; [now apply fits_bool|apply Hnil].
      * split; [discriminate|]. intros (y & t' & Heq & Hf & _). simplify_eq. apply fits_bool in Hf. congruence.
  - rewrite matchhere_cons. destruct (d =? STAR) eqn:Ed.
    + rewrite matchstar_spec. unfold here. cbn [parse]. rewrite Ed. destruct (parse re) as [l e] eqn:Ep. simpl.
      assert (Hre : forall t, matchhere re t = true <-> here re t) by (intros t; apply IH; simpl; lia).
      split.
      * intros (p & t & -> & Hp & Ht). apply Hre in Ht as (mid & post & -> & Hd & He). rewrite Ep in *.
        exists (p ++ mid), post. rewrite app_assoc. split; [done|]. split; [now constructor|done].
      * intros (mid & post & -> & Hd & He). inversion Hd; subst. rewrite <- app_assoc. eexists _, _. split; [done|]. split; [done|].
        apply Hre. eexists _, _. rewrite Ep. eauto.
    + destruct (parse (d :: re)) as [l e] eqn:Ep.
      rewrite (here_one c (d :: re) text l e) by (done || (cbn [parse]; rewrite Ed; cbn [parse] in Ep; now rewrite Ep)).
      destruct text as [|x t]; [split; [discriminate|intros (? & ? & ? & _); discriminate]|].
      destruct ((c =? DOT) || (c =? x)) eqn:Ex.
      * rewrite (IH (d :: re)) by (simpl; lia). split; [|intros (y & t' & Heq & _ & H); now simplify_eq].
        intros H. exists x, t. split; [done|]. split; [now apply fits_bool|done].
      * split; [discriminate|]. intros (y & t' & Heq & Hf & _). simplify_eq. apply fits_bool in Hf. congruence.
Qed.

Lemma match_any_spec re text : match_any re text = true <-> exists pre t, text = pre ++ t /\ here re t.
Proof.
  induction text as [|x text IH]; simpl; (destruct (matchhere re _) eqn:Em; [apply matchhere_spec in Em; split; [exists []; eauto|done]|]).
  - split; [discriminate|]. intros (pre & t & Heq & H). symmetry in Heq. apply app_nil in Heq as [-> ->].
    apply matchhere_spec in H. congruence.
  - rewrite IH. split; intros (pre & t & Heq & H); [exists (x :: pre), t; split; [simpl; congruence|done]|].
    destruct pre as [|y pre]; simplify_eq/=; [apply matchhere_spec in H; congruence|eauto].
Qed.

(** C36. The matcher is correct: [match] accepts a text exactly when the
    pattern, read as a list of characters and starred characters, describes a
    part of it, which starts the text when the pattern begins with [^] and
    ends it when the pattern ends with [$]. *)
Theorem match_correct (re text : list Z) :
  match_ re text = true <->
  exists pre mid post, text = pre ++ mid ++ post /\
    let '(anchored, body) := match re with c :: re1 => if c =? CARET then (true, re1) else (false, re) | [] => (false, re) end in
    den (parse body).1 mid /\ (anchored = true -> pre = []) /\ ((parse body).2 = true -> post = []).
Proof.
  assert (Hany : forall re, match_any re text = true <-> exists pre mid post, text = pre ++ mid ++ post /\
    den (parse re).1 mid /\ (false = true -> pre = []) /\ ((parse re).2 = true -> post = [])).
  { intros r. rewrite match_any_spec. unfold here. split.
    - intros (pre & t & -> & mid & post & -> & Hd & He). exists pre, mid, post. repeat split; auto; discriminate.
    - intros (pre & mid & post & -> & Hd & _ & He). exists pre, (mid ++ post). split; [done|]. eauto. }
  unfold match_. destruct re as [|c re]; [apply Hany|]. destruct (c =? CARET); [|apply Hany]. rewrite matchhere_spec. unfold here. split.
  - intros (mid & post & -> & Hd & He). exists [], mid, post. auto.
  - intros (pre & mid & post & -> & Hd & Hp & He). rewrite (Hp eq_refl). exists mid, post. auto.
Qed.

(** ** The meaning of a file: its complete lines and what follows the last *)
Fixpoint pieces (cur t : list Z) : list (list Z) * list Z :=
  match t with
  | [] => ([], cur)
  | x :: t => if x =? NL then let '(ls, r) := pieces [] t in (cur :: ls, r) else pieces (cur ++ [x]) t
  end.
Definition lines (t : list Z) : list (list Z) := (pieces [] t).1.
Definition printed (pattern t : list Z) : list Z :=
  concat ((fun l => if match_ pattern l then l ++ [NL] else []) <$> lines t).

Lemma pieces_app cur a b :
  pieces cur (a ++ b) = ((pieces cur a).1 ++ (pieces (pieces cur a).2 b).1, (pieces (pieces cur a).2 b).2).
Proof.
  revert cur. induction a as [|x a IH]; intros cur; simpl; [now destruct (pieces cur b)|].
  destruct (x =? NL); rewrite IH; destruct (pieces _ a); reflexivity.
Qed.

Lemma pieces_none cur t : NL ∉ t -> pieces cur t = ([], cur ++ t).
Proof.
  revert cur. induction t as [|x t IH]; intros cur H; simpl; [now rewrite app_nil_r|].
  apply not_elem_of_cons in H as [Hx H]. replace (x =? NL) with false by lia. rewrite IH, <- app_assoc by done. reflexivity.
Qed.

Lemma pieces_rest cur t : NL ∉ cur -> NL ∉ (pieces cur t).2.
Proof.
  revert cur. induction t as [|x t IH]; intros cur H; simpl; [done|].
  destruct (Z.eqb_spec x NL); [destruct (pieces [] t) eqn:E; specialize (IH [] (not_elem_of_nil NL)); now rewrite E in IH|].
  apply IH. rewrite elem_of_app, list_elem_of_singleton. intuition congruence.
Qed.

Lemma split_line_Some p line rest : split_line p = Some (line, rest) -> p = line ++ NL :: rest /\ NL ∉ line.
Proof.
  revert line. induction p as [|x p IH]; intros line; simpl; [discriminate|]. destruct (x =? 0); [discriminate|].
  destruct (Z.eqb_spec x NL); [intros [= <- <-]; subst; split; [done|apply not_elem_of_nil]|].
  destruct (split_line p) as [[l r]|] eqn:E; [|discriminate]. intros [= <- <-]. destruct (IH l eq_refl) as [-> Hl].
  split; [done|]. apply not_elem_of_cons. auto.
Qed.

Lemma split_line_None p : 0 ∉ p -> split_line p = None -> NL ∉ p.
Proof.
  induction p as [|x p IH]; intros H; simpl; [intros _; apply not_elem_of_nil|]. apply not_elem_of_cons in H as [Hx H].
  replace (x =? 0) with false by lia. destruct (Z.eqb_spec x NL); [discriminate|].
  destruct (split_line p) as [[l r]|] eqn:E; [discriminate|]. intros _. apply not_elem_of_cons. auto.
Qed.

Lemma printed_app pattern a b : printed pattern (a ++ b) = printed pattern a ++ printed pattern ((pieces [] a).2 ++ b).
Proof.
  unfold printed, lines. rewrite (pieces_app [] a b), (pieces_app [] (pieces [] a).2 b).
  rewrite (pieces_none [] (pieces [] a).2) by (apply pieces_rest, not_elem_of_nil). simpl.
  now rewrite fmap_app, concat_app.
Qed.

(** The inner loop prints the lines that match and stops after the last. *)
Lemma scan_spec fuel pattern p : 0 ∉ p -> (length p <= fuel)%nat -> scan fuel pattern p = (printed pattern p, (pieces [] p).2).
Proof.
  revert p. induction fuel as [|fuel IH]; intros p Hz Hf; simpl.
  - destruct p; [reflexivity|simpl in Hf; lia].
  - destruct (split_line p) as [[line rest]|] eqn:E.
    + apply split_line_Some in E as [-> Hl]. rewrite length_app in Hf. simpl in Hf.
      rewrite IH by (lia || (intros H; apply Hz; rewrite elem_of_app, elem_of_cons; auto)).
      unfold printed, lines. rewrite (pieces_app [] line (NL :: rest)), (pieces_none [] line) by done. simpl.
      now destruct (pieces [] rest).
    + unfold printed, lines. now rewrite pieces_none by now apply split_line_None.
Qed.

(** What follows the last newline is a suffix, the whole only without one. *)
Lemma pieces_suffix cur t : exists pre, cur ++ t = pre ++ (pieces cur t).2 /\ (pre = [] -> NL ∉ t).
Proof.
  revert cur. induction t as [|x t IH]; intros cur; simpl.
  - exists []. rewrite app_nil_r. split; [done|]. intros _. apply not_elem_of_nil.
  - destruct (Z.eqb_spec x NL) as [->|Hx].
    + destruct (IH []) as (pre & Hpre & _). destruct (pieces [] t) as [ls r]. simpl in *. exists (cur ++ NL :: pre).
      split; [rewrite <- app_assoc; simpl; now rewrite Hpre|]. intros H. apply app_nil in H as [_ H]. discriminate.
    + destruct (IH (cur ++ [x])) as (pre & Hpre & Hn). exists pre. rewrite <- Hpre, <- app_assoc. split; [done|].
      intros H. apply not_elem_of_cons. split; [congruence|auto].
Qed.

(** The lines of a file are short enough for the buffer. *)
Definition short_lines (t : list Z) : Prop := Forall (fun l => (length l < BUFSIZE - 1)%nat) (lines t).

Lemma buffer_full a k i : (a < BUFSIZE - 1)%nat -> k = Nat.min BUFSIZE (Nat.min (BUFSIZE - a - 1) i) -> (k < i)%nat ->
  (a + k = BUFSIZE - 1)%nat.
Proof. unfold BUFSIZE. lia. Qed.

Lemma grep_full n pattern input buf : 0 ∉ buf ++ input -> NL ∉ buf -> (length buf < BUFSIZE - 1)%nat ->
  (length input < n)%nat -> short_lines (buf ++ input) -> grep (replicate n BUFSIZE) pattern input buf = printed pattern (buf ++ input).
Proof.
  revert input buf. induction n as [|n IH]; intros input buf Hz Hnl Hlen Hn Hs; [lia|]. simpl replicate. cbn [grep].
  remember (Nat.min BUFSIZE (Nat.min (BUFSIZE - length buf - 1) (length input))) as k eqn:Hkdef.
  destruct (Nat.eqb_spec k 0) as [Hk|Hk].
  { assert (length input = 0)%nat by (unfold BUFSIZE in *; lia). destruct input; [|discriminate].
    unfold printed, lines. rewrite app_nil_r. now rewrite pieces_none. }
  assert (Hsplit : buf ++ input = (buf ++ take k input) ++ drop k input) by now rewrite <- app_assoc, take_drop.
  rewrite Hsplit in *. set (b := buf ++ take k input) in *.
  rewrite scan_spec by (lia || (intros H; apply Hz; apply elem_of_app; now left)).
  assert (Hb : (length b <= BUFSIZE - 1)%nat) by (unfold b; rewrite length_app, length_take; unfold BUFSIZE in *; lia).
  pose proof (pieces_rest [] b (not_elem_of_nil NL)) as Hr.
  assert (Hlines : lines (b ++ drop k input) = lines b ++ lines ((pieces [] b).2 ++ drop k input)).
  { unfold lines. rewrite (pieces_app [] b), (pieces_app [] (pieces [] b).2). now rewrite (pieces_none [] (pieces [] b).2). }
  assert (Hd : (length (drop k input) < n)%nat) by (rewrite length_drop; lia).
  assert (Hzd : 0 ∉ drop k input) by (intros H; apply Hz, elem_of_app; now right).
  unfold short_lines in Hs. rewrite Hlines in Hs. apply Forall_app in Hs as [_ Hs].
  destruct (pieces_suffix [] b) as (pre & Hpre & Hnone). simpl in Hpre.
  rewrite printed_app. f_equal. destruct (Nat.eqb_spec (length (pieces [] b).2) (length b)) as [Heq|Hne].
  - assert (Hnb : NL ∉ b) by (apply Hnone, nil_length_inv; apply (f_equal length) in Hpre; rewrite length_app in Hpre; lia).
    rewrite pieces_none in Hs |- * by done. cbn [snd app] in *. destruct (decide (NL ∈ drop k input)) as [Hin|Hin].
    + exfalso. apply list_elem_of_split_l in Hin as (u & v & Hu & Hnu). rewrite Hu in Hs. unfold lines in Hs.
      rewrite app_assoc, pieces_app, (pieces_none [] (b ++ u)) in Hs by (rewrite elem_of_app; tauto). simpl in Hs.
      destruct (pieces [] v) as [ls r]. apply Forall_cons in Hs as [Hs _]. rewrite length_app in Hs.
      apply (f_equal length) in Hu. rewrite length_drop, length_app in Hu. simpl in Hu.
      pose proof (buffer_full (length buf) k (length input) Hlen Hkdef ltac:(lia)) as Hfull.
      assert (length b = BUFSIZE - 1)%nat by (unfold b; rewrite length_app, length_take, Nat.min_l by lia; exact Hfull).
      unfold BUFSIZE in *. lia.
    + rewrite IH; [|done|apply not_elem_of_nil|simpl; unfold BUFSIZE; lia|done|]; unfold short_lines, printed, lines; cbn [app].
      * rewrite !pieces_none; [done|rewrite elem_of_app; tauto|done].
      * now rewrite pieces_none.
  - apply IH; try done.
    + intros [H|H]%elem_of_app; [|done]. apply Hz, elem_of_app. left. rewrite Hpre. apply elem_of_app. now right.
    + apply (f_equal length) in Hpre. rewrite length_app in Hpre. lia.
Qed.

(** On a file whose lines fit the buffer, read as a regular file is, with
    each [read] filling the buffer as far as the file goes, [grep] prints
    exactly the complete lines that match, in order and each with its newline,
    wherever the buffer boundaries fall. *)
Theorem grep_prints_matching_lines (pattern input : list Z) :
  0 ∉ input -> short_lines input ->
  grep (replicate (S (length input)) BUFSIZE) pattern input [] = printed pattern input.
Proof.
  intros Hz Hs. apply (grep_full (S (length input)) pattern input []); [exact Hz|apply not_elem_of_nil|unfold BUFSIZE; simpl; lia|lia|exact Hs].
Qed.

(** [ab] and [ba], and the pattern [b$]. *)
Lemma grep_prints_matching_lines_witness :
  grep (replicate 7 BUFSIZE) [98; DOLLAR] [97; 98; NL; 98; 97; NL] [] = [97; 98; NL].
Proof.
  replace [97; 98; NL] with (printed [98; DOLLAR] [97; 98; NL; 98; 97; NL]) at 2 by reflexivity.
  apply (grep_prints_matching_lines [98; DOLLAR] [97; 98; NL; 98; 97; NL]).
  - rewrite !elem_of_cons, elem_of_nil. unfold NL. lia.
  - repeat constructor; simpl; unfold BUFSIZE; lia.
Defined.

(** A short read loses text: when a [read] of the beginning of a line
    brings no newline, as a pipe or the console may, its bytes are dropped, and
    the line is matched without them. *)
Theorem grep_drops_partial_line (k : nat) (ks : list nat) (pattern part rest : list Z) :
  part <> [] -> length part = k -> (k < BUFSIZE)%nat -> 0 ∉ part -> NL ∉ part ->
  grep (k :: ks) pattern (part ++ rest) [] = grep ks pattern rest [].
Proof.
  intros Hne Hk Hb Hz Hnl. cbn [grep].
  replace (Nat.min k (Nat.min (BUFSIZE - length [] - 1) (length (part ++ rest)))) with k
    by (rewrite length_app; change (length (@nil Z)) with 0%nat; lia).
  destruct part as [|x part]; [done|]. replace (Nat.eqb k 0) with false by (simpl in Hk; destruct k; [lia|reflexivity]).
  rewrite take_app_length', drop_app_length' by done. rewrite app_nil_l.
  rewrite scan_spec by (done || lia). unfold printed, lines. rewrite pieces_none by done. cbn [fst snd fmap list_fmap concat app].
  now rewrite Nat.eqb_refl.
Qed.

Lemma grep_drops_partial_line_witness :
  grep [2; 2]%nat [97; 98; 99] [97; 98; 99; NL] [] = [] /\ printed [97; 98; 99] [97; 98; 99; NL] = [97; 98; 99; NL].
Proof.
  split; [|reflexivity].
  change [97; 98; 99; NL] with ([97; 98] ++ [99; NL]).
  rewrite (grep_drops_partial_line 2 [2%nat] [97; 98; 99] [97; 98] [99; NL]); [reflexivity|discriminate|reflexivity|unfold BUFSIZE; lia|..];
    rewrite !elem_of_cons, elem_of_nil; unfold NL; lia.
Defined.
