(* ===== verification/Printf.v ===== *)
(** * Formatted output of user programs (printf.c)

    [putc] writes one byte to a descriptor; the model of a function is the
    list of the bytes it writes.  The words after the format are [ap], read as
    the code reads them, one after the other; [str] gives the string at an
    address of the program's memory. *)
From S2P Require Import Prelude Mmu Str.

Definition digits : list Z := [48; 49; 50; 51; 52; 53; 54; 55; 56; 57; 65; 66; 67; 68; 69; 70].
Definition MINUS : Z := 45.
Definition PERCENT : Z := 37.

(** The loop that fills [buf], lowest digit first; 32 rounds divide any
    unsigned number by a base of at least 2 down to zero. *)
Fixpoint fill_digits (fuel : nat) (x base : Z) : list Z :=
  match fuel with
  | O => []
  | S fuel =>
      ch digits (Z.to_nat (x mod base)) ::
      if x / base =? 0 then [] else fill_digits fuel (x / base) base
  end.
Definition int_buf (xx base : Z) (sgn : bool) : list Z :=
  let neg := sgn && (xx <? 0) in
  let x := if neg then u32 (- xx) else u32 xx in
  fill_digits 32 x base ++ (if neg then [MINUS] else []).
Definition printint (xx base : Z) (sgn : bool) : list Z := rev (int_buf xx base sgn).

(** "(null)" *)
Definition null_string : list Z := [40; 110; 117; 108; 108; 41].

Section Printf.
Context (str : Z -> list Z).

(** One directive: what it writes and the words it leaves. *)
Definition directive (c : Z) (ap : list Z) : list Z * list Z :=
  let w := ch ap 0 in
  if c =? 100 then (printint (s32 w) 10 true, drop 1 ap)
  else if (c =? 120) || (c =? 112) then (printint (s32 w) 16 false, drop 1 ap)
  else if c =? 115 then (if w =? 0 then null_string else str w, drop 1 ap)
  else if c =? 99 then ([u8 w], drop 1 ap)
  else if c =? PERCENT then ([c], ap)
  else ([PERCENT; c], ap).
(** [state] is true after a '%'. *)
Fixpoint printf_loop (fmt : list Z) (state : bool) (ap : list Z) : list Z :=
  match fmt with
  | [] => []
  | c :: fmt =>
      if c =? 0 then []
      else if negb state then
        if c =? PERCENT then printf_loop fmt true ap else c :: printf_loop fmt false ap
      else
        let '(out, ap) := directive c ap in
        out ++ printf_loop fmt false ap
  end.
Definition printf (fmt ap : list Z) : list Z := printf_loop fmt false ap.
End Printf.

(** ** Numbers *)
Lemma length_fill_digits k fuel x base : 1 < base -> 0 <= x < base ^ Z.of_nat (S k) -> (length (fill_digits fuel x base) <= S k)%nat.
Proof.
  intros Hb. revert k x. induction fuel as [|fuel IH]; intros k x Hx; cbn [fill_digits length]; [lia|].
  destruct (Z.eqb_spec (x / base) 0) as [E|E]; [simpl; lia|]. destruct k as [|k].
  - exfalso. apply E, Z.div_small. rewrite Z.pow_1_r in Hx. lia.
  - apply le_n_S, (IH k). rewrite Nat2Z.inj_succ, Z.pow_succ_r in Hx by lia.
    split; [apply Z.div_pos; lia|apply Z.div_lt_upper_bound; lia].
Qed.

Lemma digit_ch d : 0 <= d < 10 -> ch digits (Z.to_nat d) = 48 + d.
Proof.
  intros Hd. assert (H : Z.to_nat d ∈ seq 0 10) by (apply elem_of_seq; lia).
  replace (48 + d) with (48 + Z.of_nat (Z.to_nat d)) by lia. revert H. generalize (Z.to_nat d). intros k.
  rewrite elem_of_seq. intros H. do 10 (destruct k as [|k]; [reflexivity|]). lia.
Qed.

Lemma atoi_step x t : 0 <= x < 2 ^ 31 -> atoi_loop ((48 + x mod 10) :: t) (x / 10) = atoi_loop t x.
Proof.
  intros Hx. cbn [atoi_loop]. pose proof (Z.mod_pos_bound x 10 ltac:(lia)). replace ((48 <=? 48 + x mod 10) && (48 + x mod 10 <=? 57)) with true by lia.
  f_equal. pose proof (Z.div_mod x 10 ltac:(lia)). rewrite (s32_small (x / 10 * 10)) by (Z.to_euclidean_division_equations; lia).
  rewrite s32_small; lia.
Qed.

Lemma atoi_digits k fuel x t : 0 <= x < 10 ^ Z.of_nat (S k) -> x < 2 ^ 31 -> (k < fuel)%nat ->
  atoi_loop (rev (fill_digits fuel x 10) ++ t) 0 = atoi_loop t x.
Proof.
  revert k x t. induction fuel as [|fuel IH]; intros k x t Hx Hm Hk; [lia|]. cbn [fill_digits].
  pose proof (Z.mod_pos_bound x 10 ltac:(lia)). rewrite digit_ch by lia. cbn [rev]. rewrite <- app_assoc. cbn [app].
  destruct (Z.eqb_spec (x / 10) 0) as [E|E].
  - cbn [rev app]. rewrite <- E. apply atoi_step. lia.
  - destruct k as [|k]; [exfalso; apply E, Z.div_small; rewrite Z.pow_1_r in Hx; lia|].
    rewrite (IH k); [apply atoi_step; lia| | |lia].
    + rewrite Nat2Z.inj_succ, Z.pow_succ_r in Hx by lia. split; [apply Z.div_pos; lia|apply Z.div_lt_upper_bound; lia].
    + apply Z.div_lt_upper_bound; lia.
Qed.

(** A number printed with %d and read back with [atoi] is the same number:
    [printint] writes a minus sign exactly for a negative number, and then
    digits that [atoi] reads as its absolute value.  What it collects fits the
    16 bytes of its buffer, in base 10 and 16 alike. *)
Theorem printint_atoi (n : Z) : - 2 ^ 31 < n < 2 ^ 31 ->
  (exists d, printint n 10 true = (if n <? 0 then [MINUS] else []) ++ d /\ atoi d = Z.abs n) /\
  (length (int_buf n 10 true) <= 16)%nat /\ (length (int_buf n 16 false) <= 16)%nat.
Proof.
  intros Hn. unfold printint, int_buf. cbn [andb]. set (x := if n <? 0 then u32 (- n) else u32 n).
  assert (Hx : x = Z.abs n) by (unfold x; destruct (Z.ltb_spec n 0); rewrite u32_small; lia).
  assert (Hd : (length (fill_digits 32 x 10) <= 10)%nat) by (apply length_fill_digits; [lia|]; change (10 ^ Z.of_nat 10) with 10000000000; lia).
  assert (Hh : (length (fill_digits 32 (u32 n) 16) <= 8)%nat)
    by (apply length_fill_digits; [lia|]; change (16 ^ Z.of_nat 8) with (2 ^ 32); apply u32_range).
  split; [|split].
  - exists (rev (fill_digits 32 x 10)). split; [rewrite rev_app_distr; now destruct (n <? 0)|].
    unfold atoi. rewrite <- (app_nil_r (rev _)), (atoi_digits 9); [simpl; lia| |lia|lia].
    change (10 ^ Z.of_nat 10) with 10000000000. lia.
  - rewrite length_app. destruct (n <? 0); cbn [length]; lia.
  - rewrite length_app. cbn [length]. lia.
Qed.

Lemma printint_atoi_witness : printint (-205) 10 true = [45; 50; 48; 53] /\
  (length (int_buf (-205) 10 true) <= 16)%nat.
Proof. destruct (printint_atoi (-205)) as [_ [H _]]; [lia|]. split; [reflexivity|exact H]. Defined.
