(* ===== verification/Mkfs.v ===== *)
(** * The builder of the file system image (mkfs.c)

    The image is a file of sectors; a sector past its end can be written, which
    extends the file with zeros, but not read.  A failed call or assertion,
    which ends the program with an error, is a [Crash].  The host is
    little-endian, as x86 is.  The model starts once the image file, the first
    argument, is open.  The files given on the command line are the
    names and, for each file that can be opened, the pieces that successive
    calls of read return. *)
From S2P Require Import Prelude Mmu Str Spinlock Kalloc Proc Exec Sched Store Bio Log LogCrash Fs FileData Inode Dir.

Definition NINODES : Z := 200.
Definition nbitmap : Z := FSSIZE / (BSIZE * 8) + 1.
Definition ninodeblocks : Z := NINODES / IPB + 1.
Definition nlog : Z := LOGSIZE.
Definition nmeta : Z := 2 + nlog + ninodeblocks + nbitmap.
Definition nblocks : Z := FSSIZE - nmeta.
Definition zeroes : list Z := replicate (Z.to_nat BSIZE) 0.

Record image := mkImage {
  im_file : list (list Z);
  im_sb : superblock;
  im_freeinode : Z;
  im_freeblock : Z;
}.
Definition image0 : image := mkImage [] (mkSb 0 0 0 0 0 0 0) 1 0.
Definition set_file (l : list (list Z)) (im : image) : image := mkImage l (im_sb im) (im_freeinode im) (im_freeblock im).
Definition set_im_sb (v : superblock) (im : image) : image := mkImage (im_file im) v (im_freeinode im) (im_freeblock im).
Definition set_freeinode (v : Z) (im : image) : image := mkImage (im_file im) (im_sb im) v (im_freeblock im).
Definition set_freeblock (v : Z) (im : image) : image := mkImage (im_file im) (im_sb im) (im_freeinode im) v.

(** The bytes that the two functions store, read back by the host. *)
Definition xshort (x : Z) : Z := get16 (put16 0 x [0; 0]) 0.
Definition xint (x : Z) : Z := get32 (put32 0 x [0; 0; 0; 0]) 0.

(** The sector at the offset [sec * BSIZE], an unsigned number. *)
Definition sector (sec : Z) : nat := Z.to_nat (u32 (sec * BSIZE) / BSIZE).
Definition write_at (i : nat) (d : list Z) (l : list (list Z)) : list (list Z) :=
  if (i <? length l)%nat then <[i := d]> l else l ++ replicate (i - length l) zeroes ++ [d].
Definition wsect (sec : Z) (buf : list Z) : M image unit := modify (fun im => set_file (write_at (sector sec) buf (im_file im)) im).
Definition rsect (sec : Z) : M image (list Z) :=
  l <~ gets im_file ;;
  match l !! sector sec with
  | Some d => ret d
  | None => panic "read"
  end.

Definition winode (inum : Z) (ip : inode) : M image unit :=
  sb <~ gets im_sb ;;
  let bn := IBLOCK inum sb in
  buf <~ rsect bn ;;
  wsect bn (put_dinode (dip_off inum) ip buf).
Definition rinode (inum : Z) : M image inode :=
  sb <~ gets im_sb ;;
  let bn := IBLOCK inum sb in
  buf <~ rsect bn ;;
  ret (get_dinode buf (dip_off inum) inode0).

Definition ialloc (type : Z) : M image Z :=
  inum <~ gets im_freeinode ;;
  modify (set_freeinode (u32 (inum + 1))) ;;;
  winode inum (mkInode 0 0 0 0 (s16 (xshort type)) 0 0 (s16 (xshort 1)) (xint 0) (replicate 13 0)) ;;;
  ret inum.

Definition set_bit (buf : list Z) (i : Z) : list Z := set_byte (i / 8) (Z.lor (byte buf (i / 8)) (Z.shiftl 1 (i mod 8))) buf.
Definition balloc (used : Z) : M image unit :=
  if negb (used <? BSIZE * 8) then panic "used < BSIZE*8"
  else
    let buf := fold_left set_bit (seqZ 0 used) zeroes in
    sb <~ gets im_sb ;;
    wsect (sb_bmapstart sb) buf.

(** [freeblock++] *)
Definition next_block : M image Z :=
  b <~ gets im_freeblock ;;
  modify (set_freeblock (u32 (b + 1))) ;;;
  ret b.
(** The block of the file at block [fbn], allocated if there is none. *)
Definition direct_block (din : inode) (fbn : Z) : M image (inode * Z) :=
  din <~ (if xint (addr din fbn) =? 0 then
            b <~ next_block ;; ret (set_i_addr (Z.to_nat fbn) (xint b) din)
          else ret din) ;;
  ret (din, xint (addr din fbn)).
Definition indirect_node (din : inode) : M image inode :=
  if xint (addr din NDIRECT) =? 0 then
    b <~ next_block ;; ret (set_i_addr (Z.to_nat NDIRECT) (xint b) din)
  else ret din.
Definition indirect_data (din : inode) (fbn : Z) : M image Z :=
  indirect <~ rsect (xint (addr din NDIRECT)) ;;
  indirect <~ (if get32 indirect (4 * (fbn - NDIRECT)) =? 0 then
                 b <~ next_block ;;
                 let indirect := put32 (4 * (fbn - NDIRECT)) (xint b) indirect in
                 wsect (xint (addr din NDIRECT)) indirect ;;;
                 ret indirect
               else ret indirect) ;;
  ret (xint (get32 indirect (4 * (fbn - NDIRECT)))).
Definition indirect_block (din : inode) (fbn : Z) : M image (inode * Z) :=
  din <~ indirect_node din ;;
  x <~ indirect_data din fbn ;;
  ret (din, x).
(** The loop of [iappend]; [n] is the number of bytes left in [p]. *)
Fixpoint iappend_loop (fuel : nat) (din : inode) (off : Z) (p : list Z) : M image (inode * Z) :=
  let n := Z.of_nat (length p) in
  if n <=? 0 then ret (din, off)
  else
    match fuel with
    | O => fun _ => Spin
    | S fuel =>
        let fbn := off / BSIZE in
        if negb (fbn <? MAXFILE) then panic "fbn < MAXFILE"
        else
          r <~ (if fbn <? NDIRECT then direct_block din fbn else indirect_block din fbn) ;;
          let '(din, x) := r in
          let n1 := Z.min n ((fbn + 1) * BSIZE - off) in
          buf <~ rsect x ;;
          wsect x (splice (off - fbn * BSIZE) (take (Z.to_nat n1) p) buf) ;;;
          iappend_loop fuel din (u32 (off + n1)) (drop (Z.to_nat n1) p)
    end.
Definition iappend (inum : Z) (p : list Z) : M image unit :=
  din <~ rinode inum ;;
  r <~ iappend_loop (S (length p)) din (xint (i_size din)) p ;;
  let '(din, off) := r in
  winode inum (set_i_size (xint off) din).

(** ** [main] *)
Definition UNDERSCORE : Z := 95.
Definition put_sb (sb : superblock) (d : list Z) : list Z :=
  put32 24 (sb_bmapstart sb) (put32 20 (sb_inodestart sb) (put32 16 (sb_logstart sb) (put32 12 (sb_nlog sb)
    (put32 8 (sb_ninodes sb) (put32 4 (sb_nblocks sb) (put32 0 (sb_size sb) d)))))).
Definition the_sb : superblock :=
  mkSb (xint FSSIZE) (xint nblocks) (xint NINODES) (xint nlog) (xint 2) (xint (2 + nlog)) (xint (2 + nlog + ninodeblocks)).
Definition de_zero : list Z := replicate (Z.to_nat DIRSIZ) 0.
Definition put_name (inum : Z) (name : list Z) : list Z := put16 0 (xshort inum) [0; 0] ++ name.

Abbreviation hostfile := (list Z * option (list (list Z)))%type.
Definition add_file (rootino : Z) (f : hostfile) : M image unit :=
  let '(name, reads) := f in
  if bool_decide (is_Some (strchr name SLASH)) then panic "index(argv[i], '/') == 0"
  else
    match reads with
    | None => panic "open"
    | Some pieces =>
        let name := if ch name 0 =? UNDERSCORE then drop 1 name else name in
        inum <~ ialloc T_FILE ;;
        iappend rootino (put_name inum (strncpy de_zero name DIRSIZ)) ;;;
        for_each pieces (iappend inum)
    end.
(** The end of [main]: the size of the root directory and the bitmap. *)
Definition finish (rootino : Z) : M image unit :=
  din <~ rinode rootino ;;
  let off := xint (i_size din) in
  let off := u32 ((off / BSIZE + 1) * BSIZE) in
  winode rootino (set_i_size (xint off) din) ;;;
  used <~ gets im_freeblock ;;
  balloc used.
Definition main (files : list hostfile) : M image unit :=
  modify (set_im_sb the_sb) ;;;
  modify (set_freeblock nmeta) ;;;
  for_each (seqZ 0 FSSIZE) (fun i => wsect i zeroes) ;;;
  wsect 1 (put_sb the_sb zeroes) ;;;
  rootino <~ ialloc T_DIR ;;
  if negb (rootino =? ROOTINO) then panic "rootino == ROOTINO"
  else
    iappend rootino (put_name rootino (strcpy de_zero [46; 0])) ;;;
    iappend rootino (put_name rootino (strcpy de_zero [46; 46; 0])) ;;;
    for_each files (add_file rootino) ;;;
    finish rootino.

(** ** Sectors *)
Definition cur (im : image) (b : Z) : list Z := default zeroes (im_file im !! Z.to_nat b).
Definition wrote (b : Z) (d : list Z) (im : image) : image := set_file (<[Z.to_nat b := d]> (im_file im)) im.
(** [cur'] is [cur] but for the block [b], which is [d]. *)
Definition changed (b : Z) (d : list Z) (cur cur' : Z -> list Z) : Prop :=
  forall b', cur' b' = if decide (b' = b) then d else cur b'.
Record im_ok (im : image) : Prop := mkImOk {
  io_size : length (im_file im) = Z.to_nat FSSIZE;
  io_sect : Forall (fun d => length d = Z.to_nat BSIZE) (im_file im);
  io_sb : im_sb im = the_sb;
}.
Ltac lay :=
  repeat match goal with H : context [nmeta] |- _ => change nmeta with 59 in H | |- context [nmeta] => change nmeta with 59 end;
  repeat match goal with H : context [MAXFILE] |- _ => change MAXFILE with 140 in H | |- context [MAXFILE] => change MAXFILE with 140 end;
  unfold FSSIZE, NDIRECT, BSIZE in *.
Ltac mlia := lay; first [lia | Z.to_euclidean_division_equations; lia].

Lemma in_blocks o n : 0 <= o < n * BSIZE -> 0 <= o / BSIZE < n.
Proof. intros H. unfold BSIZE in *. split; [apply Z.div_pos; lia|]. apply Z.div_lt_upper_bound; lia. Qed.
Lemma xint_id x : 0 <= x < 2 ^ 32 -> xint x = x.
Proof. intros H. unfold xint. rewrite get32_put32 by (simpl; lia). now apply u32_small. Qed.
Lemma xshort_id x : 0 <= x < 2 ^ 16 -> xshort x = x.
Proof.
  intros H. unfold xshort, get16. rewrite !byte_put16 by (simpl; lia). repeat (destruct (decide _); try lia).
  unfold u8. Z.to_euclidean_division_equations. lia.
Qed.
Lemma the_sb_layout : the_sb = mkSb 1000 941 200 30 2 32 58.
Proof. reflexivity. Qed.
Lemma sector_id b : 0 <= b < FSSIZE -> sector b = Z.to_nat b.
Proof. intros H. unfold sector. rewrite u32_small by mlia. now rewrite Z.div_mul by done. Qed.

Lemma cur_length im b : im_ok im -> length (cur im b) = Z.to_nat BSIZE.
Proof.
  intros [_ H _]. unfold cur. destruct (im_file im !! Z.to_nat b) as [d|] eqn:E; [|done]. cbn [default].
  rewrite Forall_lookup in H. now apply (H _ _ E).
Qed.
Lemma rsect_run b im : im_ok im -> 0 <= b < FSSIZE -> rsect b im = Done (cur im b) im.
Proof.
  intros [H _ _] Hb. unfold rsect. rewrite bind_gets, sector_id by done. unfold cur.
  destruct (im_file im !! Z.to_nat b) eqn:E; [done|]. apply lookup_ge_None in E. mlia.
Qed.
Lemma wsect_run b d im : im_ok im -> 0 <= b < FSSIZE -> wsect b d im = Done tt (wrote b d im).
Proof.
  intros [H _ _] Hb. unfold wsect, modify, wrote, write_at. rewrite sector_id by done.
  now rewrite (proj2 (Nat.ltb_lt _ _)) by mlia.
Qed.
Lemma wrote_changed b d im : im_ok im -> 0 < b < FSSIZE -> changed b d (cur im) (cur (wrote b d im)).
Proof.
  intros [H _ _] Hb b'. unfold cur, wrote. cbn. destruct (decide _) as [->|Hn].
  - now rewrite list_lookup_insert_eq by mlia.
  - rewrite list_lookup_insert_ne; [done|]. lia.
Qed.
Lemma wrote_ok b d im : im_ok im -> length d = Z.to_nat BSIZE -> im_ok (wrote b d im).
Proof. intros [H1 H2 H3] Hd. split; cbn; [now rewrite length_insert| |done]. now apply Forall_insert. Qed.

(** ** What a file is on disk

    [own] records the slot of a file that each block in use is: the block of
    the file with that number, or [MAXFILE] for the indirect block.  A file has
    [nb] blocks, its indirect block if [ind], and the content [c] followed by
    zeros. *)
Abbreviation owners := (gmap Z (nat * Z)).
Record rep (cur : Z -> list Z) (own : owners) (k : nat) (din : inode) (nb : Z) (ind : bool) (c : list Z) : Prop := mkRep {
  r_addrs : length (i_addrs din) = 13%nat;
  r_fit : 0 <= nb <= MAXFILE /\ Z.of_nat (length c) <= nb * BSIZE;
  r_data : forall bn, 0 <= bn < nb -> own !! block_of cur din bn = Some (k, bn);
  r_ind : if ind then own !! addr din NDIRECT = Some (k, MAXFILE) else addr din NDIRECT = 0 /\ nb <= NDIRECT;
  r_direct0 : forall bn, nb <= bn < NDIRECT -> addr din bn = 0;
  r_indirect0 : ind = true -> forall bn, nb <= bn < MAXFILE -> NDIRECT <= bn -> get32 (cur (addr din NDIRECT)) (4 * (bn - NDIRECT)) = 0;
  r_bytes : forall o, 0 <= o < nb * BSIZE -> file_byte cur din o = byte c o;
  r_back : forall b s, own !! b = Some (k, s) -> (0 <= s < nb /\ b = block_of cur din s) \/ (ind = true /\ b = addr din NDIRECT);
}.
(** Blocks from [fb] on are free and zero. *)
Record store_ok (cur : Z -> list Z) (fb : Z) (own : owners) : Prop := mkStoreOk {
  so_own : forall b x, own !! b = Some x -> nmeta <= b < fb;
  so_all : forall b, nmeta <= b < fb -> is_Some (own !! b);
  so_zero : forall b, fb <= b -> cur b = zeroes;
  so_len : forall b, length (cur b) = Z.to_nat BSIZE;
  so_meta : nmeta <= fb;
}.
(** A change of the file [k]: other files keep their blocks. *)
Record grows (k : nat) (cur cur' : Z -> list Z) (own own' : owners) : Prop := mkGrows {
  gr_own : own ⊆ own';
  gr_new : forall b x, own' !! b = Some x -> x.1 <> k -> own !! b = Some x;
  gr_cur : forall b x, own !! b = Some x -> x.1 <> k -> cur' b = cur b;
  gr_meta : forall b, b < nmeta -> cur' b = cur b;
}.
Lemma grows_refl k cur own : grows k cur cur own own.
Proof. now split. Qed.
Lemma grows_trans k c1 c2 c3 o1 o2 o3 : grows k c1 c2 o1 o2 -> grows k c2 c3 o2 o3 -> grows k c1 c3 o1 o3.
Proof.
  intros [A1 N1 A2 A3] [B1 N2 B2 B3]. split; [now trans o2|eauto| |].
  - intros b x Hb Hx. rewrite (B2 b x) by (done || eapply lookup_weaken; eauto). eauto.
  - intros b Hb. now rewrite B3, A3.
Qed.

Section Rep.
Context (cur : Z -> list Z) (own : owners) (k : nat) (din : inode) (nb : Z) (ind : bool) (c : list Z).
Context (R : rep cur own k din nb ind c).

Lemma rep_nb_ind bn : 0 <= bn < nb -> NDIRECT <= bn -> ind = true.
Proof. intros H1 H2. destruct ind eqn:E; [done|]. destruct (r_ind _ _ _ _ _ _ _ R). lia. Qed.
Lemma block_inj bn bn' : 0 <= bn < nb -> 0 <= bn' < nb -> block_of cur din bn = block_of cur din bn' -> bn = bn'.
Proof. intros H1 H2 E. pose proof (r_data _ _ _ _ _ _ _ R _ H1) as D1. rewrite E, (r_data _ _ _ _ _ _ _ R _ H2) in D1. congruence. Qed.
Lemma block_not_ind bn : ind = true -> 0 <= bn < nb -> block_of cur din bn <> addr din NDIRECT.
Proof.
  intros -> H1 E. pose proof (r_data _ _ _ _ _ _ _ R _ H1) as D1. pose proof (r_ind _ _ _ _ _ _ _ R) as D2. cbn in D2.
  rewrite E, D2 in D1. destruct (r_fit _ _ _ _ _ _ _ R). injection D1 as D1. lia.
Qed.
Lemma rep_frame cur' own' : own ⊆ own' -> (forall b x, own' !! b = Some x -> x.1 = k -> own !! b = Some x) -> (forall b x, own !! b = Some x -> x.1 = k -> cur' b = cur b) -> rep cur' own' k din nb ind c.
Proof.
  intros Ho Hw Hc.
  assert (Hi : ind = true -> cur' (addr din NDIRECT) = cur (addr din NDIRECT)).
  { intros E. pose proof (r_ind _ _ _ _ _ _ _ R) as D. rewrite E in D. now apply (Hc _ (k, MAXFILE)). }
  assert (Hb : forall bn, 0 <= bn < nb -> block_of cur' din bn = block_of cur din bn).
  { intros bn Hbn. unfold block_of. destruct (bn <? NDIRECT) eqn:E; [done|]. rewrite Hi; [done|]. apply (rep_nb_ind bn); lia. }
  pose proof (r_fit _ _ _ _ _ _ _ R) as Hf. split; try apply R.
  - intros bn Hbn. rewrite Hb by done. eapply lookup_weaken; [|done]. now apply R.
  - pose proof (r_ind _ _ _ _ _ _ _ R) as D. destruct ind; [|exact D]. eapply lookup_weaken; [exact D|exact Ho].
  - intros E bn. rewrite Hi by done. now apply R.
  - intros o Hb'. rewrite <- (r_bytes _ _ _ _ _ _ _ R) by done. unfold file_byte. pose proof (in_blocks _ _ Hb').
    rewrite Hb by done. f_equal. apply (Hc _ (k, o / BSIZE)); [now apply R|done].
  - intros b s Hb'. apply Hw in Hb'; [|done]. destruct (r_back _ _ _ _ _ _ _ R _ _ Hb') as [[H1 ->]|H1]; [left|now right]. now rewrite Hb.
Qed.
End Rep.

Lemma rep_other cur cur' own own' k k' din nb ind c : grows k cur cur' own own' -> k' <> k -> rep cur own k' din nb ind c -> rep cur' own' k' din nb ind c.
Proof. intros [G1 G0 G2 _] Hk R. eapply rep_frame; [done|done| |].
  { intros b x Hx E. apply G0; [done|congruence]. }
  intros b [x1 x2] Hx E. cbn in E. subst. now apply (G2 _ (k', x2)). Qed.

(** ** Taking a block *)
Lemma addr_set j v din bn : length (i_addrs din) = 13%nat -> 0 <= j < 13 -> 0 <= bn ->
  addr (set_i_addr (Z.to_nat j) v din) bn = if decide (bn = j) then v else addr din bn.
Proof.
  intros Hl Hj Hb. unfold addr, set_i_addr. cbn [i_addrs]. destruct (decide _) as [->|Hn].
  - now rewrite list_lookup_insert_eq by lia.
  - rewrite list_lookup_insert_ne; [done|lia].
Qed.
Lemma byte_zeroes o : byte zeroes o = 0.
Proof. unfold byte, zeroes. destruct (replicate _ 0 !! _) eqn:E; [|done]. now apply lookup_replicate in E as [-> _]. Qed.
Lemma get32_zeroes o : get32 zeroes o = 0.
Proof. unfold get32. now rewrite !byte_zeroes. Qed.
Lemma byte_beyond c o : Z.of_nat (length c) <= o -> byte c o = 0.
Proof. intros H. unfold byte. now rewrite lookup_ge_None_2 by lia. Qed.
Lemma byte_app c x o : 0 <= o -> byte (c ++ x) o = if decide (o < Z.of_nat (length c)) then byte c o else byte x (o - Z.of_nat (length c)).
Proof.
  intros Ho. unfold byte. destruct (decide _).
  - now rewrite lookup_app_l by lia.
  - rewrite lookup_app_r by lia. do 2 f_equal. lia.
Qed.

Section Take.
Context (cur : Z -> list Z) (fb : Z) (own : owners) (Hs : store_ok cur fb own).

Lemma own_fresh : own !! fb = None.
Proof. apply eq_None_not_Some. intros [x Hx]. apply Hs in Hx. lia. Qed.
Lemma own_insert x : own ⊆ <[fb := x]> own.
Proof. apply insert_subseteq, own_fresh. Qed.
Lemma store_insert x : store_ok cur (fb + 1) (<[fb := x]> own).
Proof.
  pose proof (so_meta _ _ _ Hs). split; [| | |apply Hs|lia].
  - intros b y Hb. destruct (decide (b = fb)) as [->|Hn]; [lia|]. rewrite lookup_insert_ne in Hb by done. apply Hs in Hb. lia.
  - intros b Hb. destruct (decide (b = fb)) as [->|Hn]; [rewrite lookup_insert_eq; eauto|]. rewrite lookup_insert_ne by done. apply Hs. lia.
  - intros b Hb. apply Hs. lia.
Qed.
Lemma store_changed b d x cur' : own !! b = Some x -> length d = Z.to_nat BSIZE -> changed b d cur cur' -> store_ok cur' fb own.
Proof.
  intros Hb Hd Hc. apply Hs in Hb. split; [apply Hs|apply Hs| | |apply Hs].
  - intros b' Hb'. rewrite Hc. destruct (decide _); [lia|]. now apply Hs.
  - intros b'. rewrite Hc. destruct (decide _); [done|]. apply Hs.
Qed.
Lemma grows_insert k s : grows k cur cur own (<[fb := (k, s)]> own).
Proof.
  split; [apply own_insert| |done|done]. intros b x Hb Hx. apply lookup_insert_Some in Hb as [[<- <-]|[_ Hb]]; [done|exact Hb].
Qed.
Lemma grows_changed k s b d cur' : own !! b = Some (k, s) -> changed b d cur cur' -> grows k cur cur' own own.
Proof.
  intros Hb Hc. split; [done|done| |].
  - intros b' x Hx Hn. rewrite Hc. destruct (decide _) as [->|]; [|done]. rewrite Hb in Hx. injection Hx as <-. done.
  - intros b' Hb'. rewrite Hc. destruct (decide _) as [->|]; [|done]. apply Hs in Hb. lia.
Qed.

Context (k : nat) (din : inode) (nb : Z) (ind : bool) (c : list Z) (R : rep cur own k din nb ind c).

Lemma alloc_direct : nb < NDIRECT -> rep cur (<[fb := (k, nb)]> own) k (set_i_addr (Z.to_nat nb) fb din) (nb + 1) ind c.
Proof.
  intros Hn. destruct (r_fit _ _ _ _ _ _ _ R) as [F1 F2]. pose proof (r_addrs _ _ _ _ _ _ _ R) as Hl.
  assert (Ha : forall bn, 0 <= bn -> addr (set_i_addr (Z.to_nat nb) fb din) bn = if decide (bn = nb) then fb else addr din bn)
    by (intros; apply addr_set; mlia).
  assert (Hb : forall bn, 0 <= bn < NDIRECT -> block_of cur (set_i_addr (Z.to_nat nb) fb din) bn = if decide (bn = nb) then fb else block_of cur din bn).
  { intros bn Hbn. unfold block_of. rewrite (proj2 (Z.ltb_lt bn NDIRECT)), Ha by lia. done. }
  split.
  - cbn. now rewrite length_insert.
  - mlia.
  - intros bn Hbn. rewrite Hb by lia. destruct (decide _) as [->|]; [now rewrite lookup_insert_eq|].
    eapply lookup_weaken; [apply R; lia|apply own_insert].
  - rewrite Ha by mlia. rewrite decide_False by lia. pose proof (r_ind _ _ _ _ _ _ _ R) as D.
    destruct ind; [eapply lookup_weaken; [exact D|apply own_insert]|]. split; [apply D|lia].
  - intros bn Hbn. rewrite Ha by lia. rewrite decide_False by lia. apply R. lia.
  - intros E bn Hbn. rewrite Ha by mlia. rewrite decide_False by lia. apply (r_indirect0 _ _ _ _ _ _ _ R E). lia.
  - intros o Ho. pose proof (in_blocks _ _ Ho). unfold file_byte. rewrite Hb by lia. destruct (decide _) as [E|].
    + rewrite (so_zero _ _ _ Hs), byte_zeroes, byte_beyond by mlia. done.
    + apply (r_bytes _ _ _ _ _ _ _ R). mlia.
  - intros b s Hx. apply lookup_insert_Some in Hx as [[<- Hx]|[_ Hx]].
    + injection Hx as <-. left. rewrite Hb, decide_True by lia. split; [lia|done].
    + destruct (r_back _ _ _ _ _ _ _ R _ _ Hx) as [[H1 ->]|[H1 ->]]; [left|right].
      * rewrite Hb, decide_False by lia. split; [lia|done].
      * rewrite Ha, decide_False by mlia. done.
Qed.

Lemma alloc_indirect : ind = false -> rep cur (<[fb := (k, MAXFILE)]> own) k (set_i_addr (Z.to_nat NDIRECT) fb din) nb true c.
Proof.
  intros Hi. destruct (r_fit _ _ _ _ _ _ _ R) as [F1 F2]. pose proof (r_addrs _ _ _ _ _ _ _ R) as Hl.
  pose proof (r_ind _ _ _ _ _ _ _ R) as D. rewrite Hi in D. destruct D as [D1 D2].
  assert (Ha : forall bn, 0 <= bn -> addr (set_i_addr (Z.to_nat NDIRECT) fb din) bn = if decide (bn = NDIRECT) then fb else addr din bn)
    by (intros; apply addr_set; mlia).
  assert (Hb : forall bn, 0 <= bn < nb -> block_of cur (set_i_addr (Z.to_nat NDIRECT) fb din) bn = block_of cur din bn).
  { intros bn Hbn. unfold block_of. rewrite (proj2 (Z.ltb_lt bn NDIRECT)), Ha, decide_False by lia. done. }
  split.
  - cbn. now rewrite length_insert.
  - done.
  - intros bn Hbn. rewrite Hb by lia. eapply lookup_weaken; [apply R; lia|apply own_insert].
  - rewrite Ha by mlia. now rewrite decide_True, lookup_insert_eq by done.
  - intros bn Hbn. rewrite Ha by lia. rewrite decide_False by lia. apply R. lia.
  - intros _ bn Hbn Hbn'. rewrite Ha, decide_True by mlia. rewrite (so_zero _ _ _ Hs) by lia. apply get32_zeroes.
  - intros o Ho. pose proof (in_blocks _ _ Ho). unfold file_byte. rewrite Hb by lia. apply (r_bytes _ _ _ _ _ _ _ R). lia.
  - intros b s Hx. rewrite Ha, decide_True by mlia. apply lookup_insert_Some in Hx as [[<- Hx]|[_ Hx]]; [now right|].
    destruct (r_back _ _ _ _ _ _ _ R _ _ Hx) as [[H1 ->]|[H1 _]]; [left|congruence]. now rewrite Hb.
Qed.

Lemma alloc_data cur' : ind = true -> NDIRECT <= nb < MAXFILE -> fb < 2 ^ 32 ->
  changed (addr din NDIRECT) (put32 (4 * (nb - NDIRECT)) fb (cur (addr din NDIRECT))) cur cur' ->
  rep cur' (<[fb := (k, nb)]> own) k din (nb + 1) true c.
Proof.
  intros Hi Hn Hfb Hc. destruct (r_fit _ _ _ _ _ _ _ R) as [F1 F2]. pose proof (r_ind _ _ _ _ _ _ _ R) as D. rewrite Hi in D.
  pose proof (so_meta _ _ _ Hs). pose proof (so_own _ _ _ Hs _ _ D). pose proof (so_len _ _ _ Hs (addr din NDIRECT)) as Hlen.
  assert (Hg : forall bn, NDIRECT <= bn < MAXFILE -> get32 (cur' (addr din NDIRECT)) (4 * (bn - NDIRECT)) =
    if decide (bn = nb) then fb else get32 (cur (addr din NDIRECT)) (4 * (bn - NDIRECT))).
  { intros bn Hbn. rewrite Hc, decide_True by done. destruct (decide (bn = nb)) as [->|].
    - rewrite get32_put32 by mlia. apply u32_small. mlia.
    - apply get32_put32_ne; mlia. }
  assert (Hb : forall bn, 0 <= bn < nb + 1 -> block_of cur' din bn = if decide (bn = nb) then fb else block_of cur din bn).
  { intros bn Hbn. unfold block_of. destruct (bn <? NDIRECT) eqn:E; [rewrite decide_False by lia; done|]. apply Hg. lia. }
  split.
  - apply R.
  - mlia.
  - intros bn Hbn. rewrite Hb by lia. destruct (decide _) as [->|]; [now rewrite lookup_insert_eq|].
    eapply lookup_weaken; [apply R; lia|apply own_insert].
  - eapply lookup_weaken; [exact D|apply own_insert].
  - intros bn Hbn. lia.
  - intros _ bn Hbn Hbn'. rewrite Hg by lia. rewrite decide_False by lia. apply (r_indirect0 _ _ _ _ _ _ _ R Hi); lia.
  - intros o Ho. pose proof (in_blocks _ _ Ho). unfold file_byte. rewrite Hb by lia. rewrite Hc. destruct (decide (_ = nb)) as [E|].
    + rewrite decide_False by lia. rewrite (so_zero _ _ _ Hs), byte_zeroes, byte_beyond by mlia. done.
    + rewrite decide_False by (eapply block_not_ind; [exact R|done|lia]). apply (r_bytes _ _ _ _ _ _ _ R). mlia.
  - intros b s Hx. apply lookup_insert_Some in Hx as [[<- Hx]|[_ Hx]].
    + injection Hx as <-. left. rewrite Hb, decide_True by lia. split; [lia|done].
    + destruct (r_back _ _ _ _ _ _ _ R _ _ Hx) as [[H1 ->]|[_ ->]]; [left|now right].
      rewrite Hb, decide_False by lia. split; [lia|done].
Qed.

Lemma splice_bytes x cur' : let off := Z.of_nat (length c) in
  off / BSIZE < nb -> off mod BSIZE + Z.of_nat (length x) <= BSIZE ->
  changed (block_of cur din (off / BSIZE)) (splice (off mod BSIZE) x (cur (block_of cur din (off / BSIZE)))) cur cur' ->
  rep cur' own k din nb ind (c ++ x).
Proof.
  intros off Hfbn Hx Hc. destruct (r_fit _ _ _ _ _ _ _ R) as [F1 F2].
  assert (Hoff : 0 <= off / BSIZE < nb) by (split; [apply Z.div_pos; mlia|done]).
  assert (Hi : ind = true -> cur' (addr din NDIRECT) = cur (addr din NDIRECT)).
  { intros E. rewrite Hc, decide_False; [done|]. intros E2. apply (block_not_ind _ _ _ _ _ _ _ R (off / BSIZE) E Hoff). now symmetry. }
  assert (Hb : forall bn, 0 <= bn < nb -> block_of cur' din bn = block_of cur din bn).
  { intros bn Hbn. unfold block_of. destruct (bn <? NDIRECT) eqn:E; [done|]. rewrite Hi; [done|]. eapply rep_nb_ind; [exact R|exact Hbn|lia]. }
  split.
  - apply R.
  - rewrite length_app. mlia.
  - intros bn Hbn. rewrite Hb by done. now apply R.
  - apply R.
  - apply R.
  - intros E bn. rewrite Hi by done. now apply R.
  - intros o Ho. pose proof (in_blocks _ _ Ho) as Ho'. pose proof (r_bytes _ _ _ _ _ _ _ R o Ho) as Hr. unfold file_byte in *. rewrite Hb, Hc by done.
    destruct (decide (_ = _)) as [E|E].
    + eapply block_inj in E; [|exact R|done|done].
      rewrite E in Hr. rewrite byte_splice by (rewrite ?(so_len _ _ _ Hs); mlia). rewrite byte_app by lia.
      repeat destruct (decide _); try mlia; [f_equal; clear Hr; subst off; mlia|]. rewrite Hr, !byte_beyond by (subst off; mlia). done.
    + assert (o / BSIZE <> off / BSIZE) by congruence. rewrite Hr, byte_app by lia. destruct (decide _); [done|].
      rewrite !byte_beyond by mlia. done.
  - intros b s Hy. destruct (r_back _ _ _ _ _ _ _ R _ _ Hy) as [[H1 ->]|H1]; [left|now right]. now rewrite Hb.
Qed.
End Take.

(** ** Appending *)
Definition blocks (n : Z) : Z := (n + BSIZE - 1) / BSIZE.
(** The blocks of a file of [n] bytes, the indirect block included. *)
Definition need (n : Z) : Z := blocks n + (if NDIRECT <? blocks n then 1 else 0).
Definition same_meta (din din' : inode) : Prop :=
  din' = mkInode (i_dev din) (i_inum din) (i_ref din) (i_valid din) (i_type din) (i_major din) (i_minor din) (i_nlink din) (i_size din) (i_addrs din').
Lemma same_meta_refl din : same_meta din din.
Proof. now destruct din. Qed.
Lemma same_meta_trans d1 d2 d3 : same_meta d1 d2 -> same_meta d2 d3 -> same_meta d1 d3.
Proof. unfold same_meta. intros H1 H2. rewrite H1 in H2. exact H2. Qed.
Lemma same_meta_addr j v din : same_meta din (set_i_addr j v din).
Proof. done. Qed.

(** From [im] to [im'], only the file [k] changed. *)
Record took (k : nat) (im im' : image) (own own' : owners) (din din' : inode) : Prop := mkTook {
  tk_ok : im_ok im';
  tk_store : store_ok (cur im') (im_freeblock im') own';
  tk_grows : grows k (cur im) (cur im') own own';
  tk_inode : im_freeinode im' = im_freeinode im;
  tk_meta : same_meta din din';
}.
Lemma took_trans k im1 im2 im3 o1 o2 o3 d1 d2 d3 : took k im1 im2 o1 o2 d1 d2 -> took k im2 im3 o2 o3 d2 d3 -> took k im1 im3 o1 o3 d1 d3.
Proof.
  intros [A1 A2 A3 A4 A5] [B1 B2 B3 B4 B5].
  split; [done|done|eapply grows_trans; eauto|congruence|eapply same_meta_trans; eauto].
Qed.
Lemma took_refl k im own din : im_ok im -> store_ok (cur im) (im_freeblock im) own -> took k im im own own din din.
Proof. intros H1 H2. split; [done|done|apply grows_refl|done|apply same_meta_refl]. Qed.

Lemma blocks_off n : 0 <= n -> (n mod BSIZE = 0 /\ blocks n = n / BSIZE) \/ (n mod BSIZE <> 0 /\ blocks n = n / BSIZE + 1).
Proof. intros H. unfold blocks. destruct (decide (n mod BSIZE = 0)); [left|right]; mlia. Qed.
Lemma blocks_within n m : 0 <= n -> 0 < m -> n mod BSIZE + m <= BSIZE -> blocks (n + m) = n / BSIZE + 1.
Proof. intros H Hm Hb. unfold blocks. mlia. Qed.
Lemma blocks_le n m : n <= m -> blocks n <= blocks m.
Proof. intros H. unfold blocks. apply Z.div_le_mono; mlia. Qed.
Lemma need_le n m : n <= m -> need n <= need m.
Proof. intros H. pose proof (blocks_le _ _ H). unfold need. destruct (Z.ltb_spec NDIRECT (blocks n)), (Z.ltb_spec NDIRECT (blocks m)); lia. Qed.

Lemma next_block_run im : 0 <= im_freeblock im < FSSIZE -> next_block im = Done (im_freeblock im) (set_freeblock (im_freeblock im + 1) im).
Proof. intros H. unfold next_block. rewrite bind_gets. now rewrite u32_small by mlia. Qed.
Lemma im_ok_freeblock v im : im_ok im -> im_ok (set_freeblock v im).
Proof. intros [? ? ?]. now split. Qed.

Lemma took_block k s im own din din' : im_ok im -> store_ok (cur im) (im_freeblock im) own -> same_meta din din' ->
  took k im (set_freeblock (im_freeblock im + 1) im) own (<[im_freeblock im := (k, s)]> own) din din'.
Proof.
  intros H1 H2 Hm. split; [now apply im_ok_freeblock| | |done|done].
  - now apply (store_insert (cur im)).
  - now apply (grows_insert (cur im)).
Qed.
Lemma took_write k s b d im own din : im_ok im -> store_ok (cur im) (im_freeblock im) own -> own !! b = Some (k, s) ->
  length d = Z.to_nat BSIZE -> b < FSSIZE -> took k im (wrote b d im) own own din din.
Proof.
  intros H1 H2 Hb Hd Hs. pose proof (so_own _ _ _ H2 _ _ Hb).
  assert (Hc : changed b d (cur im) (cur (wrote b d im))) by (apply wrote_changed; [done|mlia]).
  split; [now apply wrote_ok| | |done|apply same_meta_refl].
  - now apply (store_changed (cur im) _ _ H2 b d (k, s)).
  - now apply (grows_changed (cur im) (im_freeblock im) _ H2 k s b d).
Qed.

(** The result of asking for the block at the end of the file: the file has
    the block afterwards, and nothing else has changed. *)
Definition got (k : nat) (im : image) (own : owners) (din : inode) (c : list Z) (r : prog image (inode * Z)) : Prop :=
  let n := Z.of_nat (length c) in let fbn := n / BSIZE in
  exists din' im' own', r = Done (din', block_of (cur im') din' fbn) im' /\ took k im im' own own' din din' /\
    rep (cur im') own' k din' (fbn + 1) (NDIRECT <? fbn + 1) c /\ im_freeblock im' = im_freeblock im + (need (n + 1) - need n).

Section Blocks.
Context (k : nat) (im : image) (own : owners) (din : inode) (c : list Z).
Let n := Z.of_nat (length c).
Let fbn := n / BSIZE.
Context (Hok : im_ok im) (Hst : store_ok (cur im) (im_freeblock im) own).
Context (R : rep (cur im) own k din (blocks n) (NDIRECT <? blocks n) c) (Hfb : im_freeblock im + (need (n + 1) - need n) <= FSSIZE).

Lemma need_next : need (n + 1) = fbn + 1 + (if NDIRECT <? fbn + 1 then 1 else 0).
Proof. unfold need. rewrite (blocks_within n 1) by (unfold n; mlia). done. Qed.
Lemma fb_range : nmeta <= im_freeblock im <= FSSIZE.
Proof. pose proof (so_meta _ _ _ Hst). pose proof (need_le n (n + 1)). lia. Qed.
Lemma owned_addr b x : own !! b = Some x -> nmeta <= b < FSSIZE.
Proof. intros H. apply Hst in H. pose proof fb_range. lia. Qed.
Lemma xint_addr b x : own !! b = Some x -> xint b = b /\ b <> 0.
Proof. intros H. apply owned_addr in H. split; [apply xint_id; mlia|mlia]. Qed.

Lemma direct_fresh : addr din fbn = 0 -> 0 <= fbn < NDIRECT -> im_freeblock im < FSSIZE ->
  direct_block din fbn im = Done (set_i_addr (Z.to_nat fbn) (im_freeblock im) din, im_freeblock im) (set_freeblock (im_freeblock im + 1) im).
Proof.
  intros Ha Hd Hf. pose proof fb_range as Hr. unfold direct_block. rewrite Ha. change (xint 0 =? 0) with true. cbv iota.
  erewrite bind_done; [|erewrite bind_done; [reflexivity|apply next_block_run; mlia]]. cbv beta.
  rewrite (xint_id (im_freeblock im)) by mlia. rewrite addr_set by (apply R || mlia). rewrite decide_True by done.
  rewrite xint_id by mlia. done.
Qed.
Lemma direct_block_run : fbn < NDIRECT -> got k im own din c (direct_block din fbn im).
Proof.
  intros Hd. pose proof fb_range as Hr. pose proof need_next as Hn. assert (H0 : 0 <= fbn) by (apply Z.div_pos; unfold n; mlia).
  pose proof Hfb as Hf1. pose proof R as R1.
  unfold got. fold n. fold fbn. rewrite (proj2 (Z.ltb_ge NDIRECT (fbn + 1))) in Hn |- * by lia. rewrite Hn in Hf1 |- *.
  destruct (blocks_off n) as [[Hm Hb]|[Hm Hb]]; [unfold n; lia| |]; fold fbn in Hb; unfold need in Hf1 |- *; rewrite Hb in R1, Hf1 |- *.
  - rewrite (proj2 (Z.ltb_ge NDIRECT fbn)) in R1, Hf1 |- * by lia. pose proof (r_direct0 _ _ _ _ _ _ _ R1 fbn) as Ha.
    eexists _, _, (<[im_freeblock im := (k, fbn)]> own). split_and!.
    + rewrite direct_fresh by lia. f_equal. f_equal. unfold block_of. rewrite (proj2 (Z.ltb_lt _ _)) by lia.
      rewrite addr_set by (apply R || mlia). now rewrite decide_True.
    + now apply took_block.
    + now apply alloc_direct.
    + cbn. lia.
  - rewrite (proj2 (Z.ltb_ge NDIRECT (fbn + 1))) in R1, Hf1 |- * by lia. exists din, im, own. split_and!; [|now apply took_refl|done|lia].
    pose proof (r_data _ _ _ _ _ _ _ R1 fbn) as Ho. unfold block_of in Ho |- *. rewrite (proj2 (Z.ltb_lt fbn NDIRECT)) in Ho |- * by lia.
    specialize (Ho ltac:(lia)). destruct (xint_addr _ _ Ho) as [E1 E2]. unfold direct_block. rewrite E1.
    rewrite (proj2 (Z.eqb_neq _ _) E2). cbn. now rewrite E1.
Qed.

Lemma indirect_node_run : let ind := NDIRECT <? blocks n in im_freeblock im + (if ind then 0 else 1) <= FSSIZE ->
  exists din' im' own', indirect_node din im = Done din' im' /\ took k im im' own own' din din' /\
    rep (cur im') own' k din' (blocks n) true c /\ im_freeblock im' = im_freeblock im + (if ind then 0 else 1).
Proof.
  intros ind Hf. pose proof fb_range as Hr. pose proof (r_ind _ _ _ _ _ _ _ R) as D. pose proof R as R1. fold ind in D, R1.
  unfold indirect_node. destruct ind.
  - destruct (xint_addr _ _ D) as [E1 E2]. rewrite E1, (proj2 (Z.eqb_neq _ _) E2).
    exists din, im, own. split_and!; [done|now apply took_refl|done|lia].
  - destruct D as [D1 D2]. rewrite D1. change (xint 0 =? 0) with true. cbv iota.
    erewrite bind_done by (apply next_block_run; mlia). rewrite xint_id by mlia.
    eexists _, _, (<[im_freeblock im := (k, MAXFILE)]> own). split_and!; [reflexivity|now apply took_block| |done].
    now apply (alloc_indirect (cur im) _ _ Hst k din _ false c R1).
Qed.
End Blocks.

(** The data block, once there is an indirect block. *)
Lemma indirect_data_run k im own din c : let n := Z.of_nat (length c) in let fbn := n / BSIZE in
  im_ok im -> store_ok (cur im) (im_freeblock im) own -> rep (cur im) own k din (blocks n) true c ->
  im_freeblock im + (fbn + 1 - blocks n) <= FSSIZE -> NDIRECT <= fbn < MAXFILE ->
  exists im' own', indirect_data din fbn im = Done (block_of (cur im') din fbn) im' /\ took k im im' own own' din din /\
    rep (cur im') own' k din (fbn + 1) true c /\ im_freeblock im' = im_freeblock im + (fbn + 1 - blocks n).
Proof.
  intros n fbn Hok Hst R Hfb Hd. pose proof (so_meta _ _ _ Hst) as Hm0.
  pose proof (r_ind _ _ _ _ _ _ _ R) as D. cbv iota in D. pose proof (so_own _ _ _ Hst _ _ D) as Ha.
  pose proof (so_len _ _ _ Hst (addr din NDIRECT)) as Hl.
  destruct (blocks_off n) as [[Hm Hb]|[Hm Hb]]; [unfold n; lia| |]; fold fbn in Hb; rewrite Hb in R, Hfb |- *;
    unfold indirect_data; rewrite (xint_id (addr din NDIRECT)) by mlia; erewrite bind_done by (apply rsect_run; [done|mlia]).
  - rewrite (r_indirect0 _ _ _ _ _ _ _ R) by (done || lia). change (0 =? 0) with true. cbv iota.
    set (im1 := set_freeblock (im_freeblock im + 1) im).
    set (d := put32 (4 * (fbn - NDIRECT)) (im_freeblock im) (cur im (addr din NDIRECT))).
    assert (Hk1 : im_ok im1) by now apply im_ok_freeblock.
    assert (Hs1 : store_ok (cur im1) (im_freeblock im1) (<[im_freeblock im := (k, fbn)]> own)) by now apply (store_insert (cur im)).
    assert (Hd1 : length d = Z.to_nat BSIZE) by (unfold d; now rewrite length_put32).
    assert (Hc : changed (addr din NDIRECT) d (cur im) (cur (wrote (addr din NDIRECT) d im1))) by (apply (wrote_changed _ _ im1); [done|mlia]).
    pose proof (alloc_data (cur im) _ _ Hst k din fbn true c R _ eq_refl ltac:(lia) ltac:(mlia) Hc) as R2.
    exists (wrote (addr din NDIRECT) d im1), (<[im_freeblock im := (k, fbn)]> own). split_and!; [| |done|cbn; lia].
    + erewrite bind_done; [|erewrite bind_done by (apply next_block_run; mlia); cbv zeta; rewrite (xint_id (im_freeblock im)) by mlia;
        erewrite bind_done by (apply wsect_run; [done|mlia]); reflexivity].
      cbn [ret]. unfold block_of. rewrite (proj2 (Z.ltb_ge _ _)) by lia. rewrite Hc, decide_True by done. fold d. unfold d.
      rewrite get32_put32 by mlia. rewrite u32_small by mlia. now rewrite xint_id by mlia.
    + apply (took_trans _ _ im1 _ _ (<[im_freeblock im := (k, fbn)]> own) _ _ din); [now apply took_block, same_meta_refl|].
      apply (took_write k MAXFILE); [done|done| |done|mlia]. eapply lookup_weaken; [exact D|now apply (own_insert (cur im))].
  - pose proof (r_data _ _ _ _ _ _ _ R fbn ltac:(mlia)) as Ho. pose proof (so_own _ _ _ Hst _ _ Ho) as Ho'.
    unfold block_of in Ho, Ho'. rewrite (proj2 (Z.ltb_ge fbn NDIRECT)) in Ho, Ho' by lia.
    rewrite (proj2 (Z.eqb_neq _ _)) by mlia. exists im, own. split_and!; [|apply took_refl; done|done|lia].
    cbn [ret bind]. unfold bind, block_of. rewrite (proj2 (Z.ltb_ge fbn NDIRECT)) by lia. cbn. now rewrite xint_id by mlia.
Qed.

Section Append.
Context (k : nat).

(** The state in the loop of [iappend]: the file [k] has the content [c]. *)
Record at_end (im : image) (own : owners) (din : inode) (c : list Z) : Prop := mkAtEnd {
  ae_ok : im_ok im;
  ae_store : store_ok (cur im) (im_freeblock im) own;
  ae_rep : rep (cur im) own k din (blocks (Z.of_nat (length c))) (NDIRECT <? blocks (Z.of_nat (length c))) c;
}.

Lemma indirect_block_run im own din c : let n := Z.of_nat (length c) in let fbn := n / BSIZE in at_end im own din c ->
  im_freeblock im + (need (n + 1) - need n) <= FSSIZE -> NDIRECT <= fbn < MAXFILE -> got k im own din c (indirect_block din fbn im).
Proof.
  intros n fbn [Hok Hst R] Hfb Hd. assert (Hn0 : 0 <= n) by (unfold n; lia). fold n in R.
  pose proof (need_next c) as Hn. cbv zeta in Hn. fold n fbn in Hn. rewrite (proj2 (Z.ltb_lt NDIRECT _)) in Hn by lia.
  unfold got. fold n fbn. rewrite Hn in Hfb |- *. rewrite (proj2 (Z.ltb_lt NDIRECT (fbn + 1))) by lia.
  assert (Hnb : fbn <= blocks n <= fbn + 1) by (destruct (blocks_off n) as [[_ E]|[_ E]]; [done|fold fbn in E; lia..]).
  destruct (indirect_node_run k im own din c) as (din1 & im1 & own1 & E1 & T1 & R1 & F1); try done.
  1-2: fold n; unfold need in *; rewrite ?(blocks_within n 1) by mlia; destruct (NDIRECT <? blocks n); rewrite ?(proj2 (Z.ltb_lt NDIRECT (n / BSIZE + 1))) by lia; lia.
  fold n in R1, F1. destruct T1 as [A1 A2 A3 A4 A5].
  destruct (indirect_data_run k im1 own1 din1 c) as (im2 & own2 & E2 & T2 & R2 & F2); try done.
  { fold n fbn. unfold need in *. destruct (NDIRECT <? blocks n); lia. }
  fold n fbn in E2, R2, F2. exists din1, im2, own2. split_and!; [|eapply took_trans; [|exact T2]; done|done|].
  - unfold indirect_block. erewrite bind_done by exact E1. now erewrite bind_done by exact E2.
  - unfold need in *. destruct (NDIRECT <? blocks n); lia.
Qed.

Lemma get_block_run im own din c : let n := Z.of_nat (length c) in let fbn := n / BSIZE in at_end im own din c ->
  im_freeblock im + (need (n + 1) - need n) <= FSSIZE -> fbn < MAXFILE ->
  got k im own din c ((if fbn <? NDIRECT then direct_block din fbn else indirect_block din fbn) im).
Proof.
  intros n fbn A Hfb Hd. destruct (fbn <? NDIRECT) eqn:E.
  - destruct A. apply direct_block_run; try done. fold n fbn. lia.
  - apply indirect_block_run; try done. fold n fbn. lia.
Qed.

(** One round of the loop, which appends [x]. *)
Lemma piece_run {A} im own din c x (f : inode -> M image A) : let n := Z.of_nat (length c) in let fbn := n / BSIZE in at_end im own din c ->
  0 < Z.of_nat (length x) -> n mod BSIZE + Z.of_nat (length x) <= BSIZE -> fbn < MAXFILE ->
  im_freeblock im + (need (n + Z.of_nat (length x)) - need n) <= FSSIZE ->
  exists din' im' own', at_end im' own' din' (c ++ x) /\ took k im im' own own' din din' /\
    im_freeblock im' = im_freeblock im + (need (n + Z.of_nat (length x)) - need n) /\
    (r <~ (if fbn <? NDIRECT then direct_block din fbn else indirect_block din fbn) ;;
     let '(din, b) := r in
     buf <~ rsect b ;;
     wsect b (splice (n - fbn * BSIZE) x buf) ;;;
     f din) im = f din' im'.
Proof.
  intros n fbn Ha Hx Hm Hd Hfb. assert (Hn0 : 0 <= n) by (unfold n; lia).
  assert (Hnx : need (n + Z.of_nat (length x)) = need (n + 1)) by (unfold need; rewrite !(blocks_within n) by mlia; done).
  rewrite Hnx in Hfb |- *. destruct (get_block_run _ _ _ _ Ha Hfb Hd) as (din1 & im1 & own1 & E1 & T1 & R1 & F1). fold n fbn in E1, R1, F1.
  destruct T1 as [K1 S1 G1 I1 M1].
  assert (H0 : 0 <= fbn < fbn + 1) by (pose proof (Z.div_pos n BSIZE); mlia).
  pose proof (r_data _ _ _ _ _ _ _ R1 fbn H0) as Ho. pose proof (so_own _ _ _ S1 _ _ Ho) as Ho'.
  set (b := block_of (cur im1) din1 fbn) in *. set (d := splice (n mod BSIZE) x (cur im1 b)).
  assert (Hl : length d = Z.to_nat BSIZE) by (unfold d; rewrite length_splice; rewrite ?(so_len _ _ _ S1); mlia).
  assert (Hc : changed b d (cur im1) (cur (wrote b d im1))) by (apply wrote_changed; [done|mlia]).
  assert (T2 : took k im1 (wrote b d im1) own1 own1 din1 din1) by (apply (took_write k fbn); done || mlia).
  exists din1, (wrote b d im1), own1. split_and!; [|eapply took_trans; [|exact T2]; done|done|].
  - split; [apply T2|apply T2|]. rewrite length_app, Nat2Z.inj_add. fold n. rewrite (blocks_within n) by mlia.
    fold fbn. eapply (splice_bytes (cur im1)); [exact S1|exact R1|fold n fbn; lia|done|exact Hc].
  - erewrite bind_done by exact E1. cbv beta iota. fold b. erewrite bind_done by (apply rsect_run; [done|mlia]).
    replace (n - fbn * BSIZE) with (n mod BSIZE) by (unfold fbn; mlia). fold d.
    now erewrite bind_done by (apply wsect_run; [done|mlia]).
Qed.

Lemma iappend_loop_run fuel im own din c p : let n := Z.of_nat (length c) in let m := n + Z.of_nat (length p) in at_end im own din c ->
  (length p <= fuel)%nat -> m <= MAXFILE * BSIZE -> im_freeblock im + (need m - need n) <= FSSIZE ->
  exists din' im' own', iappend_loop fuel din n p im = Done (din', m) im' /\ at_end im' own' din' (c ++ p) /\
    took k im im' own own' din din' /\ im_freeblock im' = im_freeblock im + (need m - need n).
Proof.
  revert im own din c p. induction fuel as [|fuel IH]; intros im own din c p n m Ha Hp Hm Hfb;
    (destruct (decide (length p = 0%nat)) as [E0|E0];
      [apply length_zero_iff_nil in E0; subst p; exists din, im, own; unfold m; cbn [length]; rewrite Z.add_0_r, app_nil_r;
       split_and!; [done|done|destruct Ha; now apply took_refl|lia]|]); [lia|].
  set (n1 := Z.min (Z.of_nat (length p)) ((n / BSIZE + 1) * BSIZE - n)).
  assert (Hn0 : 0 <= n) by (unfold n; lia).
  assert (Hn1 : 0 < n1 <= Z.of_nat (length p) /\ n mod BSIZE + n1 <= BSIZE) by (unfold n1; mlia).
  assert (Hx : Z.of_nat (length (take (Z.to_nat n1) p)) = n1) by (rewrite length_take; lia).
  assert (Hr : Z.of_nat (length (drop (Z.to_nat n1) p)) = Z.of_nat (length p) - n1) by (rewrite length_drop; lia).
  assert (Hb : n / BSIZE < MAXFILE) by (unfold m in Hm; apply Z.div_lt_upper_bound; mlia).
  pose proof (need_le (n + n1) m ltac:(unfold m; lia)) as Hle.
  destruct (piece_run im own din c (take (Z.to_nat n1) p) (fun din => iappend_loop fuel din (u32 (n + n1)) (drop (Z.to_nat n1) p)) Ha)
    as (din1 & im1 & own1 & A1 & T1 & F1 & E1); fold n; try (rewrite Hx; lia); [done|].
  rewrite Hx in F1. fold n in F1, E1. rewrite u32_small in E1 by (unfold m in Hm; mlia).
  assert (Hc : Z.of_nat (length (c ++ take (Z.to_nat n1) p)) = n + n1) by (rewrite length_app; unfold n in *; lia).
  destruct (IH im1 own1 din1 (c ++ take (Z.to_nat n1) p) (drop (Z.to_nat n1) p)) as (din2 & im2 & own2 & E2 & A2 & T2 & F2); [done|lia|rewrite Hc; unfold m in *; lia| |].
  { rewrite Hc, Hr. replace (n + n1 + (Z.of_nat (length p) - n1)) with m by (unfold m; lia). rewrite F1. fold n. lia. }
  rewrite Hc, Hr in E2, F2. replace (n + n1 + (Z.of_nat (length p) - n1)) with m in E2, F2 by (unfold m; lia).
  exists din2, im2, own2. split_and!; [|now rewrite <- app_assoc, take_drop in A2|exact (took_trans _ _ _ _ _ _ _ _ _ _ T1 T2)|rewrite F2, F1; lia].
  rewrite <- E2, <- E1. cbn [iappend_loop]. rewrite (proj2 (Z.leb_gt _ _)) by lia. rewrite (proj2 (Z.ltb_lt _ _)) by done. fold n1.
  rewrite u32_small by (unfold m in Hm; mlia). reflexivity.
Qed.
End Append.

(** ** The table of inodes *)
Lemma byte_put_addrs_out l o d j : 0 <= o -> o + 4 * Z.of_nat (length l) <= Z.of_nat (length d) -> 0 <= j -> j < o \/ o + 4 * Z.of_nat (length l) <= j ->
  byte (put_addrs o l d) j = byte d j.
Proof.
  revert o d. induction l as [|a l IH]; intros o d Ho Hl H0 Hj; simpl in *; [done|].
  rewrite IH by (rewrite ?length_put32; lia). rewrite byte_put32 by lia. repeat (destruct (decide _); try lia).
Qed.
Lemma byte_put_dinode_out o i d j : length (i_addrs i) = 13%nat -> 0 <= o -> o + 64 <= Z.of_nat (length d) -> 0 <= j -> j < o \/ o + 64 <= j ->
  byte (put_dinode o i d) j = byte d j.
Proof.
  intros Hi Ho Hl H0 Hj. unfold put_dinode. rewrite byte_put_addrs_out by (rewrite ?Hi, ?length_put32, ?length_put16; lia).
  rewrite byte_put32 by (rewrite ?length_put16; lia). repeat (destruct (decide _); try lia).
  rewrite !byte_put16 by (rewrite ?length_put16; lia). repeat (destruct (decide _); try lia).
Qed.
Lemma get_put_dinode_ne o i d o' j : length (i_addrs i) = 13%nat -> 0 <= o -> o + 64 <= Z.of_nat (length d) -> 0 <= o' -> o' + 64 <= o \/ o + 64 <= o' ->
  get_dinode (put_dinode o i d) o' j = get_dinode d o' j.
Proof.
  intros Hi Ho Hl H0 Hj.
  assert (B : forall x, o' <= x < o' + 64 -> byte (put_dinode o i d) x = byte d x) by (intros; apply byte_put_dinode_out; lia).
  unfold get_dinode, get16, get32. rewrite !B by lia. f_equal. apply list_fmap_ext. intros x y Hy. apply lookup_seq in Hy as [-> Hy]. rewrite !B by lia. done.
Qed.

Definition NI : Z := ninodeblocks * IPB.
Definition iblock (inum : Z) : Z := IBLOCK inum the_sb.
Lemma iblock_range inum : 0 <= inum < NI -> iblock inum = 32 + inum / 8 /\ 32 <= iblock inum < 58.
Proof.
  intros H. change NI with 208 in H. unfold iblock, IBLOCK. rewrite the_sb_layout. cbn [sb_inodestart]. change IPB with 8.
  rewrite u32_small; mlia.
Qed.
Definition table (cur : Z -> list Z) (T : Z -> inode) : Prop :=
  forall inum, 0 <= inum < NI -> get_dinode (cur (iblock inum)) (dip_off inum) inode0 = T inum.
Definition upd (inum : Z) (din : inode) (T : Z -> inode) : Z -> inode := fun i => if decide (i = inum) then din else T i.
(** An inode of the type [ty] on disk. *)
Definition shape (ty : Z) (din : inode) : Prop := din = mkInode 0 0 0 0 ty 0 0 1 (i_size din) (i_addrs din).

Lemma table_upd cur cur' T inum ty din : table cur T -> (forall b, length (cur b) = Z.to_nat BSIZE) -> 0 <= inum < NI -> storable din -> shape ty din ->
  changed (iblock inum) (put_dinode (dip_off inum) din (cur (iblock inum))) cur cur' -> table cur' (upd inum din T).
Proof.
  intros Ht Hl Hi Hs Hsh Hc i Hr. destruct (iblock_range _ Hi) as [E1 E2], (iblock_range _ Hr) as [E3 E4].
  pose proof (Hl (iblock inum)) as Hl'. destruct (sb_addrs _ Hs) as [Ha _].
  assert (Hd : forall x, 0 <= dip_off x <= 448) by (intros x; unfold dip_off; change IPB with 8; mlia).
  pose proof (Hd inum). pose proof (Hd i). unfold upd. rewrite Hc. destruct (decide (iblock i = iblock inum)) as [Eb|]; [|destruct (decide _); [congruence|now apply Ht]].
  destruct (decide (i = inum)) as [->|Hn].
  - rewrite get_put_dinode by (done || mlia). rewrite Hsh. reflexivity.
  - rewrite get_put_dinode_ne; [|done|lia|mlia|lia|unfold dip_off in *; change IPB with 8 in *; mlia]. rewrite <- Eb. now apply Ht.
Qed.

Lemma rinode_run inum im T : im_ok im -> table (cur im) T -> 0 <= inum < NI -> rinode inum im = Done (T inum) im.
Proof.
  intros Hok Ht Hi. destruct (iblock_range _ Hi) as [_ E]. unfold rinode. rewrite bind_gets, (io_sb _ Hok). fold (iblock inum).
  erewrite bind_done by (apply rsect_run; [done|mlia]). now rewrite Ht.
Qed.
Lemma winode_run inum din im : im_ok im -> 0 <= inum < NI ->
  winode inum din im = Done tt (wrote (iblock inum) (put_dinode (dip_off inum) din (cur im (iblock inum))) im).
Proof.
  intros Hok Hi. destruct (iblock_range _ Hi) as [_ E]. unfold winode. rewrite bind_gets, (io_sb _ Hok). fold (iblock inum).
  erewrite bind_done by (apply rsect_run; [done|mlia]). apply wsect_run; [done|mlia].
Qed.

(** ** The image while it is built

    [fs] is the list of the files, types and contents; the inode of the file
    [k] is [k + 1]. *)
Definition inum_of (k : nat) : Z := Z.of_nat k + 1.
Abbreviation files := (list (Z * list Z)).
Definition size_in (f : Z * list Z) : Z := Z.of_nat (length f.2).
Definition total (fs : files) : Z := foldr (fun f s => need (size_in f) + s) 0 fs.
Record is_file (cur : Z -> list Z) (own : owners) (k : nat) (din : inode) (ty : Z) (c : list Z) : Prop := mkIsFile {
  if_rep : rep cur own k din (blocks (Z.of_nat (length c))) (NDIRECT <? blocks (Z.of_nat (length c))) c;
  if_shape : shape ty din;
  if_type : in_s16 ty;
}.
Definition low_block (b : Z) : list Z := if decide (b = 1) then put_sb the_sb zeroes else zeroes.
Record inv (im : image) (T : Z -> inode) (own : owners) (fs : files) : Prop := mkInv {
  iv_ok : im_ok im;
  iv_store : store_ok (cur im) (im_freeblock im) own;
  iv_table : table (cur im) T;
  iv_files : forall k f, fs !! k = Some f -> is_file (cur im) own k (T (inum_of k)) f.1 f.2 /\ i_size (T (inum_of k)) = size_in f;
  iv_rest : forall i, Z.of_nat (length fs) < i -> T i = inode0;
  iv_blocks : im_freeblock im = nmeta + total fs /\ im_freeblock im <= FSSIZE;
  iv_inodes : im_freeinode im = inum_of (length fs) /\ inum_of (length fs) <= NI;
  iv_low : forall b, 0 <= b < 32 -> cur im b = low_block b;
  iv_own : forall b x, own !! b = Some x -> (x.1 < length fs)%nat;
}.

Lemma need_pos n : 0 <= n -> 0 <= need n.
Proof. intros H. assert (0 <= blocks n) by (apply Z.div_pos; mlia). unfold need. destruct (_ <? _); lia. Qed.
Lemma total_cons f fs : total (f :: fs) = need (size_in f) + total fs.
Proof. done. Qed.
Lemma total_app fs fs' : total (fs ++ fs') = total fs + total fs'.
Proof. induction fs as [|f fs IH]; [done|]. cbn [app]. rewrite !total_cons. lia. Qed.
Lemma total_insert fs k f f' : fs !! k = Some f -> total (<[k := f']> fs) = total fs + (need (size_in f') - need (size_in f)).
Proof.
  revert k. induction fs as [|g fs IH]; intros [|k] Hk; try done.
  - injection Hk as ->. change (<[0%nat := f']> (f :: fs)) with (f' :: fs). rewrite !total_cons. lia.
  - change (<[S k := f']> (g :: fs)) with (g :: <[k := f']> fs). rewrite !total_cons, (IH _ Hk). lia.
Qed.

Lemma is_file_storable im own k din ty c s : im_ok im -> store_ok (cur im) (im_freeblock im) own -> im_freeblock im <= FSSIZE ->
  is_file (cur im) own k din ty c -> 0 <= s < 2 ^ 32 -> storable (set_i_size s din).
Proof.
  intros Hok Hst Hfb [R Hs Ht] Hsz. pose proof (so_meta _ _ _ Hst). split; cbn.
  - unfold shape in Hs. destruct din as [? ? ? ? ? ? ? ? ? ?]. cbn in Hs |- *. injection Hs as -> -> -> -> -> -> -> ->. unfold in_s16 in *. lia.
  - done.
  - split; [apply R|]. apply Forall_lookup. intros i a Hi. pose proof (lookup_lt_Some _ _ _ Hi) as Hlt. rewrite (r_addrs _ _ _ _ _ _ _ R) in Hlt.
    assert (Ea : addr din (Z.of_nat i) = a) by (unfold addr; now rewrite Nat2Z.id, Hi).
    assert (Ho : a = 0 \/ exists x, own !! a = Some x); [|destruct Ho as [->|[x Hx]]; [lia|apply Hst in Hx; mlia]].
    destruct (decide (i = 12%nat)) as [->|Hn].
    + pose proof (r_ind _ _ _ _ _ _ _ R) as D. change NDIRECT with (Z.of_nat 12) in D at 2 3. destruct (_ <? _); rewrite Ea in D; [eauto|left; apply D].
    + set (nb := blocks (Z.of_nat (length c))) in *. destruct (decide (Z.of_nat i < nb)).
      * right. eexists. rewrite <- Ea. pose proof (r_data _ _ _ _ _ _ _ R (Z.of_nat i)) as D. unfold block_of in D.
        rewrite (proj2 (Z.ltb_lt _ _)) in D by mlia. apply D. lia.
      * left. rewrite <- Ea. apply R. mlia.
Qed.

(** Storing an inode changes the table and no file. *)
Lemma store_inode_run im T own inum ty din : im_ok im -> store_ok (cur im) (im_freeblock im) own -> table (cur im) T ->
  0 <= inum < NI -> storable din -> shape ty din -> exists im', winode inum din im = Done tt im' /\
  im_ok im' /\ store_ok (cur im') (im_freeblock im') own /\ table (cur im') (upd inum din T) /\
  im_freeblock im' = im_freeblock im /\ im_freeinode im' = im_freeinode im /\
  (forall b, b < 32 \/ 58 <= b -> cur im' b = cur im b).
Proof.
  intros Hok Hst Ht Hi Hs Hsh. destruct (iblock_range _ Hi) as [_ Hr]. rewrite winode_run by done.
  set (d := put_dinode _ _ _). assert (Hl : length d = Z.to_nat BSIZE) by (unfold d; now rewrite length_put_dinode, cur_length).
  assert (Hc : changed (iblock inum) d (cur im) (cur (wrote (iblock inum) d im))) by (apply wrote_changed; [done|mlia]).
  eexists. split; [reflexivity|]. split_and!; try done.
  - now apply wrote_ok.
  - split; [apply Hst|apply Hst| |intros; apply cur_length; now apply wrote_ok|apply Hst].
    intros b Hb. change (im_freeblock im <= b) in Hb. pose proof (so_meta _ _ _ Hst). rewrite Hc, decide_False by mlia. now apply Hst.
  - eapply table_upd; [done|apply Hst|done|done|done|exact Hc].
  - intros b Hb. rewrite Hc, decide_False by lia. done.
Qed.

Lemma is_file_data cur cur' fb own k din ty c : store_ok cur fb own -> (forall b, 59 <= b -> cur' b = cur b) ->
  is_file cur own k din ty c -> is_file cur' own k din ty c.
Proof.
  intros Hst Hc [R H1 H2]. split; [|done|done]. eapply rep_frame; [exact R|done|done|].
  intros b x Hx _. apply Hst in Hx. apply Hc. mlia.
Qed.
Lemma is_file_size cur own k din ty c s : is_file cur own k din ty c -> is_file cur own k (set_i_size s din) ty c.
Proof. intros [[R1 R2 R3 R4 R5 R6 R7 R8] Hs Ht]. split; [now split| |done]. unfold shape in *. rewrite Hs. done. Qed.
Lemma upd_eq inum din T : upd inum din T inum = din.
Proof. unfold upd. now rewrite decide_True. Qed.
Lemma upd_ne inum din T i : i <> inum -> upd inum din T i = T i.
Proof. intros. unfold upd. now rewrite decide_False. Qed.
Lemma empty_file cur own k ty : in_s16 ty -> (forall b x, own !! b = Some x -> x.1 <> k) -> is_file cur own k (mkInode 0 0 0 0 ty 0 0 1 0 (replicate 13 0)) ty [].
Proof.
  intros Ht Hk. assert (A : forall bn, addr (mkInode 0 0 0 0 ty 0 0 1 0 (replicate 13 0)) bn = 0).
  { intros bn. unfold addr. cbn [i_addrs]. destruct (replicate 13 0 !! Z.to_nat bn) eqn:E; [|done]. now apply lookup_replicate in E as [-> _]. }
  split; [|done|done]. change (blocks _) with 0. split; try done.
  all: try (intros; lia).
  intros b s Hb. now apply Hk in Hb.
Qed.

Lemma ialloc_run im T own fs ty : inv im T own fs -> 0 <= ty < 2 ^ 15 -> inum_of (length fs) < NI ->
  exists im' T', ialloc ty im = Done (inum_of (length fs)) im' /\ inv im' T' own (fs ++ [(ty, [])]).
Proof.
  intros [Hok Hst Ht Hf Hr [Hb1 Hb2] [Hi1 Hi2] Hl Ho] Hty Hn. unfold inum_of in Hn. change NI with 208 in Hn.
  set (din := mkInode 0 0 0 0 ty 0 0 1 0 (replicate 13 0)).
  assert (Hd : is_file (cur im) own (length fs) din ty []) by (apply empty_file; [unfold in_s16; lia|intros b x Hx; apply Ho in Hx; lia]).
  set (im1 := set_freeinode (inum_of (length fs) + 1) im). assert (Hok1 : im_ok im1) by (destruct Hok; now split).
  destruct (store_inode_run im1 T own (inum_of (length fs)) ty din) as (im' & E & O1 & O2 & O3 & O4 & O5 & O6); try done.
  { unfold inum_of. change NI with 208. lia. }
  { now apply (is_file_storable im own (length fs) din ty [] 0). }
  exists im', (upd (inum_of (length fs)) din T). split.
  - unfold ialloc. rewrite bind_gets, bind_modify, Hi1, u32_small by (unfold inum_of; lia). fold im1.
    rewrite !xshort_id by lia. rewrite xint_id by lia. replace (s16 ty) with ty by (unfold s16; mlia). change (s16 1) with 1. fold din.
    now erewrite bind_done by exact E.
  - split; try done.
    + intros k f Hk. apply lookup_snoc_Some in Hk as [[Hk Hx]|[-> <-]].
      * destruct (Hf _ _ Hx) as [F1 F2]. rewrite upd_ne by (unfold inum_of; lia). split; [|done]. eapply is_file_data; [exact Hst| |exact F1]. intros; apply O6; lia.
      * rewrite upd_eq. split; [|done]. eapply is_file_data; [exact Hst| |exact Hd]. intros; apply O6; lia.
    + intros i Hi. rewrite length_app in Hi. cbn in Hi. rewrite upd_ne by (unfold inum_of; lia). apply Hr. lia.
    + rewrite total_app. change (total [(ty, [])]) with 0. rewrite O4. cbn. lia.
    + rewrite O5, length_app. unfold inum_of, im1 in *. change NI with 208. cbn. unfold inum_of. lia.
    + intros b Hb. rewrite O6 by lia. now apply Hl.
    + intros b x Hx. apply Ho in Hx. rewrite length_app. lia.
Qed.

Lemma iappend_run im T own fs k ty c p : inv im T own fs -> fs !! k = Some (ty, c) -> Z.of_nat (length (c ++ p)) <= MAXFILE * BSIZE ->
  nmeta + total (<[k := (ty, c ++ p)]> fs) <= FSSIZE ->
  exists im' T' own', iappend (inum_of k) p im = Done tt im' /\ inv im' T' own' (<[k := (ty, c ++ p)]> fs).
Proof.
  intros [Hok Hst Ht Hf Hr [Hb1 Hb2] [Hi1 Hi2] Hl Ho] Hk Hmax Hfit. destruct (Hf _ _ Hk) as [[R Hs Hty] Hsz]. cbn in R, Hs, Hty.
  pose proof (lookup_lt_Some _ _ _ Hk) as Hlt. assert (Hik : 0 <= inum_of k < NI) by (unfold inum_of in *; lia).
  rewrite (total_insert _ _ _ _ Hk) in Hfit. unfold size_in in Hfit, Hsz. cbn [snd] in Hfit, Hsz. rewrite length_app, Nat2Z.inj_add in Hfit, Hmax.
  destruct (iappend_loop_run k (S (length p)) im own (T (inum_of k)) c p) as (din & im1 & own1 & E1 & [K1 S1 R1] & [_ _ G I1 M1] & F1); [now split|lia|lia|lia|].
  assert (Hf1 : is_file (cur im1) own1 k din ty (c ++ p)) by (split; [done| |done]; unfold shape, same_meta in *; rewrite M1, Hs; done).
  set (s := Z.of_nat (length c) + Z.of_nat (length p)) in *.
  destruct (store_inode_run im1 T own1 (inum_of k) ty (set_i_size s din)) as (im' & E & O1 & O2 & O3 & O4 & O5 & O6); try done.
  { intros i Hi. destruct (iblock_range _ Hi). rewrite (gr_meta _ _ _ _ _ G) by mlia. now apply Ht. }
  { eapply is_file_storable; [done|done|lia|exact Hf1|mlia]. }
  { now destruct (is_file_size _ _ _ _ _ _ s Hf1). }
  exists im', (upd (inum_of k) (set_i_size s din) T), own1. split.
  - unfold iappend. erewrite bind_done by now apply (rinode_run _ _ T). rewrite Hsz, xint_id by mlia. erewrite bind_done by exact E1. cbv beta iota.
    rewrite xint_id by mlia. exact E.
  - split; try done.
    + intros k' f Hk'. destruct (decide (k' = k)) as [->|Hne].
      * rewrite list_lookup_insert_eq in Hk' by done. injection Hk' as <-. rewrite upd_eq. split; [|cbn; unfold size_in; cbn; rewrite length_app; lia].
        eapply is_file_data; [exact S1|intros; apply O6; lia|]. now apply is_file_size.
      * rewrite list_lookup_insert_ne in Hk' by done. destruct (Hf _ _ Hk') as [[F1' F2 F3] F4]. rewrite upd_ne by (unfold inum_of; lia). split; [|done].
        eapply is_file_data; [exact S1|intros; apply O6; lia|]. split; [|done|done]. eapply rep_other; [exact G|done|done].
    + intros i Hi. rewrite length_insert in Hi. rewrite upd_ne by (unfold inum_of; lia). now apply Hr.
    + rewrite (total_insert _ _ _ _ Hk). unfold size_in. cbn [snd]. rewrite length_app, Nat2Z.inj_add. fold s. rewrite O4. lia.
    + rewrite O5, I1, length_insert. done.
    + intros b Hb. rewrite O6, (gr_meta _ _ _ _ _ G) by mlia. now apply Hl.
    + intros b x Hx. rewrite length_insert. destruct (decide (x.1 = k)) as [->|Hne]; [done|]. now apply (Ho b), (gr_new _ _ _ _ _ G).
Qed.

(** ** The bitmap *)
Lemma land_pow2 x j : 0 <= j -> negb (Z.land x (2 ^ j) =? 0) = Z.testbit x j.
Proof.
  intros Hj. destruct (Z.testbit x j) eqn:E.
  - apply negb_true_iff, Z.eqb_neq. intros H. apply (f_equal (fun z => Z.testbit z j)) in H.
    rewrite Z.land_spec, E, Z.pow2_bits_true, Z.bits_0 in H by lia. done.
  - apply negb_false_iff, Z.eqb_eq. apply Z.bits_inj'. intros m Hm. rewrite Z.land_spec, Z.bits_0, Z.pow2_bits_eqb by lia.
    destruct (Z.eqb_spec j m) as [<-|]; [now rewrite E|apply andb_false_r].
Qed.
Lemma bit_set_bit d i b : 0 <= i -> 0 <= b -> i / 8 < Z.of_nat (length d) ->
  bit_set (set_bit d i) b = (b =? i) || bit_set d b.
Proof.
  intros Hi Hb Hl. unfold bit_set, set_bit. rewrite !land_pow2 by mlia. rewrite byte_set by mlia. destruct (decide (i / 8 = b / 8)) as [E|E].
  - rewrite <- E. unfold u8. change 256 with (2 ^ 8). rewrite Z.mod_pow2_bits_low by mlia. rewrite Z.lor_spec, Z.shiftl_spec by mlia. rewrite orb_comm. f_equal.
    destruct (Z.eqb_spec b i) as [->|Hn]; [now rewrite Z.sub_diag|]. replace (Z.testbit 1 (b mod 8 - i mod 8)) with (0 =? b mod 8 - i mod 8) by (rewrite <- (Z.pow2_bits_eqb 0); done).
    apply Z.eqb_neq. mlia.
  - now rewrite (proj2 (Z.eqb_neq b i)) by congruence.
Qed.
Definition bits (used : Z) : list Z := fold_left set_bit (seqZ 0 used) zeroes.
Lemma bits_spec (n : nat) : Z.of_nat n <= BSIZE * 8 ->
  length (bits (Z.of_nat n)) = Z.to_nat BSIZE /\ forall b, 0 <= b -> bit_set (bits (Z.of_nat n)) b = (b <? Z.of_nat n).
Proof.
  induction n as [|n IH]; intros Hn.
  - split; [done|]. intros b Hb. unfold bit_set. change (bits (Z.of_nat 0)) with zeroes. rewrite byte_zeroes, Z.land_0_l, (proj2 (Z.ltb_ge _ _)) by lia. done.
  - destruct IH as [IH1 IH2]; [lia|]. unfold bits in *. rewrite seqZ_S, fold_left_app, Z.add_0_l. cbn [fold_left]. split.
    + unfold set_bit at 1. now rewrite length_set_byte.
    + intros b Hb. rewrite bit_set_bit by mlia. rewrite IH2 by done. lia.
Qed.

(** ** The start of [main] *)
Lemma zero_sectors m im : (length (im_file im) + m <= Z.to_nat FSSIZE)%nat ->
  for_each (seqZ (Z.of_nat (length (im_file im))) (Z.of_nat m)) (fun i => wsect i zeroes) im = Done tt (set_file (im_file im ++ replicate m zeroes) im).
Proof.
  revert im. induction m as [|m IH]; intros im Hm; [destruct im; cbn; now rewrite app_nil_r|].
  rewrite seqZ_cons by lia. cbn [for_each].
  assert (E : wsect (Z.of_nat (length (im_file im))) zeroes im = Done tt (set_file (im_file im ++ [zeroes]) im)).
  { unfold wsect, modify, write_at. rewrite sector_id, Nat2Z.id by mlia. rewrite Nat.ltb_irrefl, Nat.sub_diag. done. }
  erewrite bind_done by exact E. pose proof (IH (set_file (im_file im ++ [zeroes]) im)) as IH'. cbn [im_file set_file] in IH'.
  rewrite length_app in IH'. cbn [length] in IH'. replace (Z.of_nat (length (im_file im) + 1)) with (Z.succ (Z.of_nat (length (im_file im)))) in IH' by lia.
  replace (Z.pred (Z.of_nat (S m))) with (Z.of_nat m) by lia. rewrite IH' by lia. unfold set_file. cbn. now rewrite <- app_assoc.
Qed.
Definition blank : image := mkImage (replicate (Z.to_nat FSSIZE) zeroes) the_sb 1 nmeta.
Definition blank1 : image := wrote 1 (put_sb the_sb zeroes) blank.
Lemma blank_ok : im_ok blank.
Proof. split; [apply length_replicate|now apply Forall_replicate|done]. Qed.
Lemma length_put_sb sb d : length (put_sb sb d) = length d.
Proof. unfold put_sb. now rewrite !length_put32. Qed.
Lemma cur_blank1 b : 0 <= b -> cur blank1 b = low_block b.
Proof.
  intros Hb. unfold blank1, low_block. rewrite (wrote_changed 1 _ blank blank_ok) by mlia. destruct (decide _); [done|].
  unfold cur, blank. cbn [im_file]. destruct (replicate _ zeroes !! _) as [d|] eqn:E; [|done]. apply lookup_replicate in E as [-> _]. done.
Qed.
Lemma get_dinode_zeroes o : get_dinode zeroes o inode0 = inode0.
Proof. unfold get_dinode, get16. rewrite !byte_zeroes. cbn [fmap list_fmap seq]. now rewrite !get32_zeroes. Qed.
Lemma blank1_inv : inv blank1 (fun _ => inode0) ∅ [].
Proof.
  assert (Hok : im_ok blank1) by (apply wrote_ok; [apply blank_ok|now rewrite length_put_sb]).
  split; try done.
  - split; [done| | |intros; now apply cur_length|done].
    { intros b Hb. change (im_freeblock blank1) with nmeta in Hb. lia. }
    intros b Hb. change (im_freeblock blank1) with nmeta in Hb. rewrite cur_blank1 by mlia. unfold low_block. rewrite decide_False by mlia. done.
  - intros i Hi. destruct (iblock_range _ Hi). rewrite cur_blank1 by lia. unfold low_block. rewrite decide_False by lia. apply get_dinode_zeroes.
  - intros b Hb. apply cur_blank1. lia.
Qed.

(** ** The files *)
Definition name_of (f : hostfile) : list Z := if ch f.1 0 =? UNDERSCORE then drop 1 f.1 else f.1.
Definition content (f : hostfile) : list Z := concat (default [] f.2).
Definition dots : list Z := dirent ROOTINO [46] ++ dirent ROOTINO [46; 46].
Definition entries (l : list hostfile) : list Z := concat (imap (fun i f => dirent (inum_of (S i)) (name_of f)) l).
(** The files that the image should hold: the root directory, then the files
    of the command line. *)
Definition tree (l : list hostfile) : files := (T_DIR, dots ++ entries l) :: ((fun f => (T_FILE, content f)) <$> l).
(** What [main] asks of a file. *)
Definition host_ok (f : hostfile) : Prop := strchr f.1 SLASH = None /\ is_Some f.2 /\ Z.of_nat (length (content f)) <= MAXFILE * BSIZE.

Lemma entries_snoc l f : entries (l ++ [f]) = entries l ++ dirent (inum_of (S (length l))) (name_of f).
Proof. unfold entries. rewrite imap_app, concat_app. cbn. now rewrite app_nil_r, Nat.add_0_r. Qed.
Lemma length_entries l : length (entries l) = (16 * length l)%nat.
Proof. induction l as [|f l IH] using rev_ind; [done|]. rewrite entries_snoc, !length_app, length_dirent, IH. cbn. lia. Qed.
Lemma tree_snoc l f : tree (l ++ [f]) = <[0%nat := (T_DIR, dots ++ entries (l ++ [f]))]> (tree l ++ [(T_FILE, content f)]).
Proof. unfold tree. now rewrite fmap_app. Qed.
Lemma total_tree l : total (tree l) = need (Z.of_nat (32 + 16 * length l)) + total ((fun f => (T_FILE, content f)) <$> l).
Proof. unfold tree. rewrite total_cons. unfold size_in. cbn [snd]. rewrite length_app, length_entries. done. Qed.
Lemma total_pos fs : 0 <= total fs.
Proof. induction fs as [|f fs IH]; [done|]. rewrite total_cons. pose proof (need_pos (size_in f)). unfold size_in in *. lia. Qed.
Lemma total_tree_app l l' : total (tree l) <= total (tree (l ++ l')).
Proof.
  rewrite !total_tree, fmap_app, total_app, length_app. pose proof (total_pos ((fun f => (T_FILE, content f)) <$> l')).
  pose proof (need_le (Z.of_nat (32 + 16 * length l)) (Z.of_nat (32 + 16 * (length l + length l')))). lia.
Qed.

(** The pieces of one file. *)
Lemma pieces_run pieces im T own fs k ty c : inv im T own fs -> fs !! k = Some (ty, c) -> Z.of_nat (length (c ++ concat pieces)) <= MAXFILE * BSIZE ->
  nmeta + total (<[k := (ty, c ++ concat pieces)]> fs) <= FSSIZE ->
  exists im' T' own', for_each pieces (iappend (inum_of k)) im = Done tt im' /\ inv im' T' own' (<[k := (ty, c ++ concat pieces)]> fs).
Proof.
  revert im T own fs c. induction pieces as [|p l IH]; intros im T own fs c Hi Hk Hm Hf.
  - cbn [concat]. rewrite app_nil_r. rewrite list_insert_id by done. eauto.
  - cbn [concat] in *. rewrite app_assoc in *. pose proof (lookup_lt_Some _ _ _ Hk) as Hlt.
    destruct (iappend_run _ _ _ _ _ _ _ p Hi Hk) as (im1 & T1 & own1 & E1 & I1).
    { rewrite !length_app in *. lia. }
    { rewrite (total_insert _ _ _ _ Hk) in Hf. rewrite (total_insert _ _ _ _ Hk). unfold size_in in *. cbn [snd] in *.
      pose proof (need_le (Z.of_nat (length (c ++ p))) (Z.of_nat (length ((c ++ p) ++ concat l))) ltac:(rewrite !length_app; lia)) as Hle. lia. }
    destruct (IH im1 T1 own1 _ (c ++ p) I1) as (im2 & T2 & own2 & E2 & I2); [now apply list_lookup_insert_eq|done|now rewrite list_insert_insert_eq|].
    exists im2, T2, own2. split; [cbn [for_each]; now erewrite bind_done by exact E1|]. now rewrite list_insert_insert_eq in I2.
Qed.
Lemma total_perm_root r (F : files) x : total (r :: F ++ [x]) = need (size_in r) + total F + need (size_in x).
Proof. rewrite total_cons, total_app, total_cons. change (total []) with 0. lia. Qed.

Lemma put_name_dirent inum name : 0 <= inum < 2 ^ 16 -> put_name inum (strncpy de_zero name DIRSIZ) = dirent inum name.
Proof. intros H. unfold put_name, dirent. now rewrite xshort_id. Qed.

Lemma add_file_run im T own l f : inv im T own (tree l) -> host_ok f -> inum_of (S (length l)) < NI -> nmeta + total (tree (l ++ [f])) <= FSSIZE ->
  exists im' T' own', add_file ROOTINO f im = Done tt im' /\ inv im' T' own' (tree (l ++ [f])).
Proof.
  intros Hi (Hs & Hopen & Hmax) Hn Hfit. destruct f as [name reads]. destruct Hopen as [pieces Hp]. cbn [fst snd] in Hs, Hp. subst reads.
  set (F := (fun f => (T_FILE, content f)) <$> l). set (inum := inum_of (S (length l))).
  assert (HF : length F = length l) by apply length_fmap. set (d := dirent inum (name_of (name, Some pieces))).
  assert (Hr : Z.of_nat (length ((dots ++ entries l) ++ d)) <= MAXFILE * BSIZE).
  { unfold inum_of in Hn. change NI with 208 in Hn. rewrite !length_app, length_entries. unfold d. rewrite length_dirent. change (length dots) with 32%nat. mlia. }
  assert (Ht : tree (l ++ [(name, Some pieces)]) = (T_DIR, (dots ++ entries l) ++ d) :: F ++ [(T_FILE, concat pieces)]).
  { unfold tree. rewrite fmap_app, entries_snoc, app_assoc. done. }
  rewrite Ht, total_perm_root in Hfit. unfold size_in in Hfit. cbn [snd] in Hfit.
  destruct (ialloc_run im T own (tree l) T_FILE Hi) as (im1 & T1 & E1 & I1); [done|unfold tree; cbn [length]; now rewrite length_fmap|].
  change (tree l ++ [(T_FILE, [])]) with ((T_DIR, dots ++ entries l) :: F ++ [(T_FILE, [])]) in I1.
  change (length (tree l)) with (S (length F)) in E1. rewrite HF in E1. fold inum in E1.
  pose proof (need_pos (Z.of_nat (length (concat pieces)))).
  destruct (iappend_run _ _ _ _ 0%nat _ _ d I1 eq_refl) as (im2 & T2 & own2 & E2 & I2); [done| |].
  { change (<[0%nat := ?x]> (_ :: ?l)) with (x :: l). rewrite total_perm_root. unfold size_in. cbn [snd]. change (need (Z.of_nat (length []))) with 0. lia. }
  change (<[0%nat := ?x]> (_ :: ?l)) with (x :: l) in I2.
  assert (Hk : ((T_DIR, (dots ++ entries l) ++ d) :: F ++ [(T_FILE, [])]) !! S (length l) = Some (T_FILE, [])).
  { rewrite <- HF. change ((F ++ [(T_FILE, [])]) !! length F = Some (T_FILE, [])). now apply list_lookup_middle. }
  assert (Hx : <[S (length l) := (T_FILE, [] ++ concat pieces)]> ((T_DIR, (dots ++ entries l) ++ d) :: F ++ [(T_FILE, [])]) =
    (T_DIR, (dots ++ entries l) ++ d) :: F ++ [(T_FILE, concat pieces)]).
  { rewrite <- HF. change (<[S (length F) := ?x]> (?r :: ?G)) with (r :: <[length F := x]> G). f_equal.
    rewrite <- (Nat.add_0_r (length F)), insert_app_r. done. }
  destruct (pieces_run pieces _ _ _ _ _ _ _ I2 Hk) as (im3 & T3 & own3 & E3 & I3); [done| |].
  { rewrite Hx, total_perm_root. done. }
  rewrite Hx in I3. exists im3, T3, own3. split; [|now rewrite Ht].
  unfold add_file. rewrite bool_decide_eq_false_2 by (rewrite Hs; now intros [? ?]). cbv zeta. fold (name_of (name, Some pieces)).
  erewrite bind_done by exact E1. change (if ch name 0 =? UNDERSCORE then drop 1 name else name) with (name_of (name, Some pieces)).
  rewrite put_name_dirent by (unfold inum, inum_of in *; change NI with 208 in Hn; lia). fold d. now erewrite bind_done by exact E2.
Qed.

Lemma add_files_run rest : forall l im T own, inv im T own (tree l) -> Forall host_ok rest -> inum_of (length (l ++ rest)) < NI ->
  nmeta + total (tree (l ++ rest)) <= FSSIZE ->
  exists im' T' own', for_each rest (add_file ROOTINO) im = Done tt im' /\ inv im' T' own' (tree (l ++ rest)).
Proof.
  induction rest as [|f rest IH]; intros l im T own Hi Hr Hn Hf.
  - rewrite app_nil_r. eauto 10.
  - apply Forall_cons in Hr as [Hf1 Hr]. replace (l ++ f :: rest) with ((l ++ [f]) ++ rest) in * by now rewrite <- app_assoc.
    pose proof (total_tree_app (l ++ [f]) rest). rewrite !length_app in Hn. cbn [length] in Hn. unfold inum_of in Hn.
    destruct (add_file_run im T own l f Hi Hf1) as (im1 & T1 & own1 & E1 & I1); [unfold inum_of; lia|lia|].
    destruct (IH _ _ _ _ I1 Hr) as (im2 & T2 & own2 & E2 & I2); [rewrite !length_app; cbn [length]; unfold inum_of; lia|done|].
    exists im2, T2, own2. split; [|done]. cbn [for_each]. now erewrite bind_done by exact E1.
Qed.

(** ** The image

    What the kernel finds on the disk [d]: the superblock and an empty log;
    for each file an inode with its type, its size and its bytes, in blocks of
    its own that the file system can read and write; the other inodes free;
    and the bitmap, which marks the blocks below [used]: the blocks before the
    data, and the blocks of the files. *)
Definition dinode (d : Z -> list Z) (inum : Z) : inode := get_dinode (d (IBLOCK inum (sb_of (d 1)))) (dip_off inum) inode0.
(** The size of the root directory is rounded up to whole blocks. *)
Definition disk_size (k : nat) (f : Z * list Z) : Z := if (k =? 0)%nat then (size_in f / BSIZE + 1) * BSIZE else size_in f.
Record image_holds (d : Z -> list Z) (used : Z) (fs : files) : Prop := mkImageHolds {
  ih_sb : sb_of (d 1) = mkSb FSSIZE nblocks NINODES nlog 2 (2 + nlog) (2 + nlog + ninodeblocks);
  ih_boot : d 0 = zeroes;
  ih_len : forall b, length (d b) = Z.to_nat BSIZE;
  ih_log : forall b, 2 <= b < 2 + nlog -> d b = zeroes;
  ih_inode : forall k f, fs !! k = Some f -> let i := dinode d (inum_of k) in i_type i = f.1 /\ i_nlink i = 1 /\ i_size i = disk_size k f;
  ih_bytes : forall k f, fs !! k = Some f -> let i := dinode d (inum_of k) in
    file_bytes d i 0 (size_in f) = f.2 /\ forall o, size_in f <= o < blocks (size_in f) * BSIZE -> file_byte d i o = 0;
  ih_ok : forall k f lg, fs !! k = Some f -> lg_start lg = 2 -> lg_size lg = nlog -> file_ok lg FSSIZE d (dinode d (inum_of k)) (size_in f);
  ih_apart : forall k f k' f' bn bn', fs !! k = Some f -> fs !! k' = Some f' -> 0 <= bn < blocks (size_in f) -> 0 <= bn' < blocks (size_in f') ->
    block_of d (dinode d (inum_of k)) bn = block_of d (dinode d (inum_of k')) bn' -> k = k' /\ bn = bn';
  ih_used : forall k f bn, fs !! k = Some f -> 0 <= bn < blocks (size_in f) -> nmeta <= block_of d (dinode d (inum_of k)) bn < used;
  ih_all : forall b, nmeta <= b < used -> exists k f, fs !! k = Some f /\ let i := dinode d (inum_of k) in
    (exists bn, 0 <= bn < blocks (size_in f) /\ b = block_of d i bn) \/ (NDIRECT < blocks (size_in f) /\ b = addr i NDIRECT);
  ih_free : forall inum, Z.of_nat (length fs) < inum < NINODES -> i_type (dinode d inum) = 0;
  ih_bitmap : forall b, 0 <= b < FSSIZE -> bit_set (d (BBLOCK b (sb_of (d 1)))) (b mod BPB) = (b <? used);
}.

Section Holds.
Context (d : Z -> list Z) (fb : Z) (own : owners) (T : Z -> inode) (fs : files).
Context (Hst : store_ok d fb own) (Hfb : fb <= FSSIZE) (Ht : table d T) (Hlen : Z.of_nat (length fs) < NINODES).
Context (Hf : forall k f, fs !! k = Some f -> is_file d own k (T (inum_of k)) f.1 f.2 /\ i_size (T (inum_of k)) = disk_size k f).
Context (Hrest : forall i, Z.of_nat (length fs) < i -> T i = inode0).
Context (Hown : forall b x, own !! b = Some x -> (x.1 < length fs)%nat).
Context (Hlow : forall b, 0 <= b < 32 -> d b = low_block b) (Hbits : d 58 = bits fb).

Lemma holds_sb : sb_of (d 1) = the_sb.
Proof. rewrite Hlow by lia. vm_compute. reflexivity. Qed.
Lemma holds_dinode inum : 0 <= inum < NI -> dinode d inum = T inum.
Proof. intros H. unfold dinode. rewrite holds_sb. now apply Ht. Qed.
Lemma holds_file k f : fs !! k = Some f -> dinode d (inum_of k) = T (inum_of k) /\ is_file d own k (dinode d (inum_of k)) f.1 f.2.
Proof.
  intros Hk. pose proof (lookup_lt_Some _ _ _ Hk). assert (E : dinode d (inum_of k) = T (inum_of k)).
  { apply holds_dinode. unfold inum_of. change NI with 208. unfold NINODES in Hlen. lia. }
  split; [done|]. rewrite E. now apply Hf.
Qed.
Lemma holds_block k f bn : fs !! k = Some f -> 0 <= bn < blocks (size_in f) -> own !! block_of d (dinode d (inum_of k)) bn = Some (k, bn).
Proof. intros Hk Hb. destruct (holds_file _ _ Hk) as [_ [R _ _]]. now apply R. Qed.
Lemma byte_fmap c : byte c <$> seqZ 0 (Z.of_nat (length c)) = c.
Proof.
  apply list_eq. intros i. rewrite list_lookup_fmap. destruct (c !! i) as [x|] eqn:E.
  - pose proof (lookup_lt_Some _ _ _ E). rewrite lookup_seqZ_lt by lia. cbn. unfold byte. rewrite Z.add_0_l, Nat2Z.id, E. done.
  - apply lookup_ge_None in E. rewrite lookup_seqZ_ge by lia. done.
Qed.
Lemma in_block_of n bn : 0 <= bn -> bn * BSIZE < n -> 0 <= bn < blocks n.
Proof. intros H1 H2. unfold blocks. mlia. Qed.

Lemma holds_file_ok k f lg : fs !! k = Some f -> lg_start lg = 2 -> lg_size lg = nlog -> file_ok lg FSSIZE d (dinode d (inum_of k)) (size_in f).
Proof.
  intros Hk L1 L2. destruct (holds_file _ _ Hk) as [_ [R _ _]]. fold (size_in f) in R. pose proof (r_ind _ _ _ _ _ _ _ R) as D.
  assert (B : forall bn, 0 <= bn -> bn * BSIZE < size_in f -> 0 <= bn < blocks (size_in f) /\ nmeta <= block_of d (dinode d (inum_of k)) bn < fb).
  { intros bn H1 H2. pose proof (in_block_of _ _ H1 H2). split; [done|]. eapply Hst, holds_block; eauto. }
  split.
  - intros bn H1 H2. destruct (B _ H1 H2) as [B1 B2]. split; [mlia|]. intros H3.
    rewrite (proj2 (Z.ltb_lt _ _)) in D by lia. apply Hst in D. mlia.
  - intros bn bn' H1 H2 H3 H4. destruct (B _ H1 H2), (B _ H3 H4). eapply block_inj; eauto.
  - intros bn H1 H2. destruct (B _ H1 H2) as [B1 B2]. destruct (NDIRECT <? blocks (size_in f)) eqn:E.
    + eapply block_not_ind; [exact R|done|done].
    + destruct D as [-> _]. mlia.
  - intros bn H1 H2. destruct (B _ H1 H2) as [B1 B2]. right. rewrite L1, L2. unfold nlog, LOGSIZE, MAXOPBLOCKS. mlia.
Qed.

Lemma holds_intro : image_holds d fb fs.
Proof.
  split.
  - apply holds_sb.
  - rewrite Hlow by lia. done.
  - apply Hst.
  - intros b Hb. change nlog with 30 in Hb. rewrite Hlow by lia. unfold low_block. now rewrite decide_False by lia.
  - intros k f Hk i. destruct (holds_file _ _ Hk) as [E [_ Hs _]]. unfold i. rewrite <- (proj2 (Hf _ _ Hk)), <- E. unfold shape in Hs.
    rewrite Hs at 1 2. done.
  - intros k f Hk i. destruct (holds_file _ _ Hk) as [_ [R _ _]]. fold i in R. fold (size_in f) in R. destruct (r_fit _ _ _ _ _ _ _ R) as [_ F]. split.
    + rewrite <- (byte_fmap f.2). unfold file_bytes, size_in. apply list_fmap_ext. intros j x Hx. apply lookup_seqZ in Hx as [-> Hx]. apply R. unfold size_in in *. lia.
    + intros o Ho. unfold size_in in *. rewrite (r_bytes _ _ _ _ _ _ _ R) by lia. apply byte_beyond. lia.
  - apply holds_file_ok.
  - intros k f k' f' bn bn' Hk Hk' Hb Hb' E. pose proof (holds_block _ _ _ Hk Hb) as H1. rewrite E, (holds_block _ _ _ Hk' Hb') in H1.
    injection H1 as -> ->. done.
  - intros k f bn Hk Hb. eapply Hst, holds_block; eauto.
  - intros b Hb. destruct (so_all _ _ _ Hst b Hb) as [[k s] Ho]. destruct (lookup_lt_is_Some_2 fs k) as [f Hk]; [now apply Hown in Ho|].
    exists k, f. split; [done|]. destruct (holds_file _ _ Hk) as [_ [R _ _]]. destruct (r_back _ _ _ _ _ _ _ R _ _ Ho) as [[H1 H2]|[H1 H2]]; [left|right].
    + now exists s.
    + split; [|done]. unfold size_in. lia.
  - intros i Hi. rewrite holds_dinode by (change NI with 208; unfold NINODES in Hi; lia). rewrite Hrest by lia. done.
  - intros b Hb. rewrite holds_sb. unfold BBLOCK, BPB. rewrite the_sb_layout. cbn [sb_bmapstart]. pose proof (so_meta _ _ _ Hst).
    rewrite (Z.div_small b), (Z.mod_small b) by mlia. change (u32 (0 + 58)) with 58. rewrite Hbits.
    rewrite <- (Z2Nat.id fb) by mlia. apply bits_spec; mlia.
Qed.
End Holds.

(** ** [main] *)
Lemma finish_run im T own fs f : inv im T own fs -> fs !! 0%nat = Some f -> size_in f <= MAXFILE * BSIZE -> Z.of_nat (length fs) < NINODES ->
  exists im', finish ROOTINO im = Done tt im' /\ image_holds (cur im') (nmeta + total fs) fs.
Proof.
  intros [Hok Hst Ht Hf Hr [Hb1 Hb2] Hi Hl Ho] H0 Hmax Hlen. destruct (Hf _ _ H0) as [F1 F2]. change (inum_of 0) with ROOTINO in *.
  assert (Hz : 0 <= size_in f < 2 ^ 31) by (unfold size_in in *; mlia).
  set (s := (size_in f / BSIZE + 1) * BSIZE). assert (Hs : 0 <= s < 2 ^ 32) by (unfold s; mlia).
  assert (Hr1 : 0 <= ROOTINO < NI) by done. pose proof (so_meta _ _ _ Hst) as Hm.
  destruct (store_inode_run im T own ROOTINO f.1 (set_i_size s (T ROOTINO))) as (im1 & E & O1 & O2 & O3 & O4 & _ & O6); try done.
  { now apply (is_file_storable im own 0%nat _ f.1 f.2 s). }
  { now destruct (is_file_size _ _ _ _ _ _ s F1). }
  set (fb := im_freeblock im) in *. destruct (bits_spec (Z.to_nat fb)) as [B1 _]; [mlia|]. rewrite Z2Nat.id in B1 by mlia.
  assert (Hc : changed 58 (bits fb) (cur im1) (cur (wrote 58 (bits fb) im1))) by (apply wrote_changed; [done|mlia]).
  exists (wrote 58 (bits fb) im1). split.
  - unfold finish. erewrite bind_done by now apply (rinode_run _ _ T). cbv zeta. rewrite F2, (xint_id (size_in f)) by lia. fold s.
    rewrite u32_small, xint_id by lia. erewrite bind_done by exact E. rewrite bind_gets, O4. unfold balloc.
    rewrite (proj2 (Z.ltb_lt _ _)) by mlia. cbn [negb]. rewrite bind_gets, (io_sb _ O1). change (sb_bmapstart the_sb) with 58. now apply wsect_run.
  - rewrite <- Hb1. apply (holds_intro _ _ own (upd ROOTINO (set_i_size s (T ROOTINO)) T)); try done.
    + split; [apply Hst|apply Hst| |intros b; apply cur_length; now apply wrote_ok|done].
      intros b Hb. rewrite Hc, decide_False by mlia. apply O2. lia.
    + intros i Hx. destruct (iblock_range _ Hx). rewrite Hc, decide_False by lia. now apply O3.
    + intros k g Hk. assert (C : forall b, 59 <= b -> cur (wrote 58 (bits fb) im1) b = cur im b) by (intros b Hb; rewrite Hc, decide_False, O6 by lia; done).
      destruct (Hf _ _ Hk) as [G1 G2]. unfold disk_size. destruct (Nat.eqb_spec k 0) as [->|Hn].
      * replace g with f in * by congruence. change (inum_of 0) with ROOTINO. rewrite upd_eq. split; [|done].
        eapply is_file_size, is_file_data; [exact Hst|exact C|exact F1].
      * rewrite upd_ne by (unfold inum_of, ROOTINO; lia). split; [|done]. eapply is_file_data; [exact Hst|exact C|exact G1].
    + intros i Hx. pose proof (lookup_lt_Some _ _ _ H0). rewrite upd_ne by (unfold ROOTINO; lia). now apply Hr.
    + intros b Hb. rewrite Hc, decide_False, O6 by lia. now apply Hl.
Qed.

Lemma root_run : exists im T own, inv im T own (tree []) /\
  forall files, main files image0 = (for_each files (add_file ROOTINO) ;;; finish ROOTINO) im.
Proof.
  destruct (ialloc_run _ _ _ _ T_DIR blank1_inv) as (im1 & T1 & E1 & I1); [done..|].
  destruct (iappend_run _ _ _ _ 0%nat _ _ (dirent ROOTINO [46]) I1 eq_refl) as (im2 & T2 & own2 & E2 & I2); [done..|].
  destruct (iappend_run _ _ _ _ 0%nat _ _ (dirent ROOTINO [46; 46]) I2 eq_refl) as (im3 & T3 & own3 & E3 & I3); [done..|].
  exists im3, T3, own3. split; [exact I3|]. intros files. unfold main. rewrite !bind_modify.
  erewrite bind_done by exact (zero_sectors (Z.to_nat FSSIZE) (set_freeblock nmeta (set_im_sb the_sb image0)) ltac:(done)).
  erewrite bind_done by (apply (wsect_run 1 _ blank blank_ok); done). fold blank1. erewrite bind_done by exact E1. cbn [negb].
  change (inum_of (length [])) with ROOTINO. rewrite Z.eqb_refl. cbn [negb].
  erewrite bind_done by exact E2. now erewrite bind_done by exact E3.
Qed.

Lemma main_run (files : list hostfile) : Forall host_ok files -> Z.of_nat (length files) + 1 < NINODES ->
  nmeta + total (tree files) <= FSSIZE ->
  exists im, main files image0 = Done tt im /\ image_holds (cur im) (nmeta + total (tree files)) (tree files).
Proof.
  intros Hh Hn Hf. destruct root_run as (im0 & T0 & own0 & I0 & E0).
  destruct (add_files_run files [] im0 T0 own0 I0 Hh) as (im1 & T1 & own1 & E1 & I1);
    [unfold inum_of; change NI with 208; unfold NINODES in Hn; cbn [app]; lia|done|]. cbn [app] in I1.
  destruct (finish_run _ _ _ _ _ I1 eq_refl) as (im2 & E2 & H2).
  - unfold size_in. cbn [snd]. rewrite length_app, length_entries. change (length dots) with 32%nat. unfold NINODES in Hn. mlia.
  - unfold tree. cbn [length]. rewrite length_fmap. lia.
  - exists im2. split; [|done]. rewrite E0. now erewrite bind_done by exact E1.
Qed.

(** C10. mkfs builds the file system it is asked for.  Given files whose names
    have no slash and that fit, at most 198 of them, it ends, and the image
    has, as the kernel reads it: the superblock and an empty log; the root
    directory with the entries of [.], [..] and every file under its name
    without the leading underscore, followed by zeros; for every file an inode
    with its size and exactly its bytes, however the reads cut them, in blocks
    that no other file has and that the file system can read and write; free
    inodes behind them; and a bitmap that marks the first blocks, all of which
    are in use. *)
Theorem mkfs_builds_image (files : list hostfile) : Forall host_ok files -> Z.of_nat (length files) + 1 < NINODES ->
  nmeta + total (tree files) <= FSSIZE ->
  exists im, main files image0 = Done tt im /\ image_holds (cur im) (nmeta + total (tree files)) (tree files).
Proof. apply main_run. Qed.

Definition demo_files : list hostfile :=
  [([95; 99; 97; 116], Some [replicate 512 7; replicate 100 8]); ([82], Some (replicate 20 (replicate 512 3)))].
Lemma mkfs_builds_image_witness : exists im, main demo_files image0 = Done tt im /\ image_holds (cur im) 83 (tree demo_files).
Proof.
  apply (mkfs_builds_image demo_files); [|done|vm_compute; discriminate].
  repeat constructor; vm_compute; try discriminate; eauto.
Defined.
