(* ===== verification/Boot.v ===== *)
(** * From the image to the file

    The kernel boots from the image that mkfs builds and reads a file through
    its path: binit (main.c), iinit and initlog (forkret of proc.c), namei,
    ilock and readi.  This is where the builder, the log, the buffer cache, the
    inodes, the directories and the content of files meet. *)
From S2P Require Import Prelude Mmu Str Spinlock Kalloc Proc Exec Sched Store Bio Log LogCrash Fs Path FileData Inode Dir Mkfs.

Section Boot.
Context {W : Wait} {D : Devices}.

Definition start_fs : M kfs unit := binit ;;; iinit ROOTDEV ;;; initlog ROOTDEV.
(** Open a file by its path and read [n] bytes from its start. *)
Definition read_path (path : list Z) (n : Z) : M kfs (Z * list Z) :=
  o <~ namei path ;;
  ilock o ;;;
  match o with
  | None => panic "no file"
  | Some ip => readi ip 0 n
  end.

Context (w : who).

(** ** [iinit] *)
Lemma init_locks_run l st v (Q : unit -> storage -> Prop) : Rep w st v ->
  (forall st', Rep w st' v -> st_disksize st' = st_disksize st -> st_log st' = st_log st -> st_inodes st' = st_inodes st -> st_sb st' = st_sb st ->
     (forall k, (k ∈ l \/ the_sleep (inode_lock k) st = mkSleep 0 0) -> the_sleep (inode_lock k) st' = mkSleep 0 0) -> Q tt st') ->
  srun w ∅ (for_each l (fun i => initsleeplock (inode_lock i))) st ∅ Q.
Proof.
  revert st. induction l as [|i l IH]; intros st HR HQ; cbn [for_each].
  - sgo. apply HQ; try done. intros k [Hk|Hk]; [now apply not_elem_of_nil in Hk|done].
  - eapply srun_bind. unfold initsleeplock. sgo. apply IH; [now apply rep_inode_lock|]. intros st' HR' H1 H2 H3 H4 H5. apply HQ; try done.
    intros k Hk. apply H5. destruct (decide (k = i)) as [->|Hn]; [right; apply the_sleep_set|].
    destruct Hk as [[->|Hk]%elem_of_cons|Hk]; [done|now left|right]. rewrite the_sleep_set_ne by (unfold inode_lock; lia). done.
Qed.
Lemma rep_set_inodes l st v : Rep w st v -> Rep w (set_inodes l st) v.
Proof. intros [? ? ? ? ? ? ? ? ? ?]. now constructor. Qed.
Lemma rep_set_sb sb st v : Rep w st v -> Rep w (set_sb sb st) v.
Proof. intros [? ? ? ? ? ? ? ? ? ?]. now constructor. Qed.
Lemma iinit_run st v (Q : unit -> storage -> Prop) : Rep w st v -> v_held v = ∅ -> v_dirty v = ∅ -> 1 < st_disksize st ->
  (forall st', Rep w st' v -> st_disksize st' = st_disksize st -> st_log st' = st_log st -> st_inodes st' = st_inodes st ->
     st_sb st' = sb_of (v_cur v 1) -> (forall k, (k < NINODE)%nat -> the_sleep (inode_lock k) st' = mkSleep 0 0) -> Q tt st') ->
  srun w ∅ (iinit ROOTDEV) st ∅ Q.
Proof.
  intros HR Hh Hd Hs HQ. unfold iinit. sgo. eapply srun_bind, init_locks_run; [exact HR|]. intros st1 HR1 D1 L1 I1 _ W1.
  eapply srun_bind, (readsb_run w st1 v); [done|done|done|now rewrite D1|]. intros st2 HR2 (D2 & L2 & _ & I2 & _ & _ & W2). sgo.
  apply HQ; [now apply rep_set_sb|simpl; congruence..|]. intros k Hk. change (the_sleep (inode_lock k) st2 = mkSleep 0 0).
  rewrite W2 by (unfold inode_lock; lia). apply W1. left. apply elem_of_seq. lia.
Qed.

(** ** Booting from the image *)
Lemma image_disk_ok d used fs : image_holds d used fs -> disk_ok 2 30 FSSIZE d.
Proof.
  intros H. assert (H2 : d 2 = zeroes) by (apply H; change nlog with 30; lia). assert (Hh : head_blocks (d 2) = []) by (rewrite H2; vm_compute; reflexivity).
  constructor; rewrite ?Hh.
  - apply H.
  - now rewrite (ih_sb _ _ _ H).
  - rewrite H2. vm_compute. discriminate.
  - split; simpl; lia.
  - intros b Hb. now apply not_elem_of_nil in Hb.
  - constructor.
Qed.
(** Recovery finds an empty log and writes it back. *)
Lemma image_recovered d used fs b : image_holds d used fs -> replay (recovery_writes 2 d) d b = d b.
Proof.
  intros H. assert (H2 : d 2 = zeroes) by (apply H; change nlog with 30; lia). unfold recovery_writes. rewrite H2.
  change (head_blocks zeroes) with (@nil Z). assert (E : put_head [] zeroes = zeroes) by (vm_compute; reflexivity). rewrite E. simpl.
  destruct (decide (2 = b)) as [<-|Hn]; [now rewrite fn_lookup_insert|now rewrite fn_lookup_insert_ne].
Qed.

(** Contents that agree on every block hold the same files. *)
#[local] Instance block_of_proper : Proper (pointwise_relation Z eq ==> eq ==> eq ==> eq) block_of.
Proof. intros d d' E i _ <- bn _ <-. unfold block_of. now rewrite (E (addr i NDIRECT)). Qed.
#[local] Instance file_byte_proper : Proper (pointwise_relation Z eq ==> eq ==> eq ==> eq) file_byte.
Proof. intros d d' E i _ <- o _ <-. unfold file_byte. rewrite (E (block_of d i _)). now rewrite E. Qed.
#[local] Instance dinode_proper : Proper (pointwise_relation Z eq ==> eq ==> eq) dinode.
Proof. intros d d' E i _ <-. unfold dinode. rewrite (E 1). now rewrite (E (IBLOCK _ _)). Qed.
#[local] Instance file_ok_proper : Proper (eq ==> eq ==> pointwise_relation Z eq ==> eq ==> eq ==> impl) file_ok.
Proof.
  intros lg _ <- size _ <- d d' E i _ <- n _ <- [H1 H2 H3 H4]. split.
  - intros bn Ha Hb. unfold has_block. rewrite <- E. now apply H1.
  - intros bn bn'. rewrite <- E. apply H2.
  - intros bn. rewrite <- E. apply H3.
  - intros bn. rewrite <- E. apply H4.
Qed.
Lemma image_holds_ext d d' used fs : pointwise_relation Z eq d d' -> image_holds d used fs -> image_holds d' used fs.
Proof.
  intros E [H1 H0 H2 H3 H4 H5 H6 H7 H8 H9 H10 H11]. assert (Ed : forall i, dinode d' i = dinode d i) by (intros i; now rewrite E).
  assert (Eb : forall i bn, block_of d' i bn = block_of d i bn) by (intros i bn; now rewrite E).
  split.
  - now rewrite <- (E 1).
  - now rewrite <- (E 0).
  - intros b. now rewrite <- (E b).
  - intros b Hb. rewrite <- (E b). now apply H3.
  - intros k f Hk. rewrite Ed. now apply H4.
  - intros k f Hk. rewrite Ed. destruct (H5 _ _ Hk) as [A1 A2]. split.
    + etransitivity; [|exact A1]. unfold file_bytes. apply list_fmap_ext. intros j o _. now rewrite <- E.
    + intros o Ho. rewrite <- E. now apply A2.
  - intros k f lg Hk A1 A2. rewrite Ed, <- E. now apply H6.
  - intros k f k' f' bn bn'. rewrite !Ed, !Eb. apply H7.
  - intros k f bn. rewrite Ed, Eb. apply H8.
  - intros b Hb. destruct (H9 b Hb) as (k & f & Hk & A). exists k, f. split; [done|]. rewrite Ed. destruct A as [(bn & A1 & A2)|A]; [left|now right].
    exists bn. now rewrite Eb.
  - intros i. rewrite Ed. apply H10.
  - intros b. rewrite <- (E 1), <- (E _). apply H11.
Qed.

(** The kernel after the start: the blocks are those of the image, the inode
    cache is as before, its locks are free. *)
Record started (d : Z -> list Z) (inodes : list inode) (st : storage) (v : view) : Prop := mkStarted {
  sd_rep : Rep w st v;
  sd_held : v_held v = ∅;
  sd_dirty : v_dirty v = ∅;
  sd_cur : forall b, v_cur v b = d b;
  sd_size : st_disksize st = FSSIZE;
  sd_inodes : st_inodes st = inodes;
  sd_sb : st_sb st = sb_of (d 1);
  sd_locks : forall k, (k < NINODE)%nat -> the_sleep (inode_lock k) st = mkSleep 0 0;
}.

Lemma start_run d used fs st (Q : unit -> storage -> Prop) : image_holds d used fs -> booting FSSIZE d st ->
  (forall st' v, started d (st_inodes st) st' v -> Q tt st') -> srun w ∅ start_fs st ∅ Q.
Proof.
  intros H (Hz & Hblk & Hsz & Hlg) HQ. unfold start_fs. eapply srun_bind, binit_run; [exact Hz|intros b; rewrite Hblk; apply H|].
  intros st1 HR1 (D1 & L1 & _ & I1 & _). eapply srun_bind, (iinit_run st1 (fresh_view st)); [done|done|done|rewrite D1, Hsz; done|].
  intros st2 HR2 D2 L2 I2 B2 W2.
  apply (initlog_run w 2 30 FSSIZE d st st2); [unfold area_ok, FSSIZE; lia|now apply (image_disk_ok _ used fs)|done|done|now rewrite D2, D1|now rewrite L2, L1|].
  intros st3 _ Hb3 (v & HR3 & Hh & Hd & _) D3 _ _ (I3 & B3 & W3). apply (HQ st3 v). constructor; try done.
  - intros b. rewrite (rep_coh _ _ _ HR3), (rep_disk _ _ _ HR3), Hb3 by (rewrite ?Hd, ?Hh; set_solver). now apply (image_recovered d used fs).
  - now rewrite I3, I2.
  - rewrite B3, B2. simpl. now rewrite Hblk.
  - intros k Hk. rewrite W3 by (unfold inode_lock; lia). now apply W2.
Qed.
End Boot.

(** ** The root directory of the image *)
Lemma length_concat16 (L : list (list Z)) : Forall (fun x => length x = 16%nat) L -> length (concat L) = (16 * length L)%nat.
Proof. induction 1 as [|y l Hy _ IH]; [done|]. cbn [concat length]. rewrite length_app, Hy, IH. lia. Qed.
Lemma concat_chunk (L : list (list Z)) j x : Forall (fun x => length x = 16%nat) L -> L !! j = Some x ->
  byte (concat L) <$> seqZ (16 * Z.of_nat j) 16 = x.
Proof.
  intros HL Hj. pose proof (proj1 (Forall_lookup _ _) HL _ _ Hj) as Hx. cbv beta in Hx. pose proof (lookup_lt_Some _ _ _ Hj) as Hlt.
  assert (Hl : length (concat (take j L)) = (16 * j)%nat) by (rewrite length_concat16 by (now apply Forall_take); rewrite length_take; lia).
  rewrite <- (take_drop_middle L j x Hj), concat_app. cbn [concat].
  apply list_eq. intros k. rewrite list_lookup_fmap. destruct (decide (k < 16)%nat).
  - rewrite lookup_seqZ_lt by lia. cbn [fmap option_fmap option_map]. rewrite !byte_app by lia.
    destruct (decide _); [lia|]. destruct (decide _); [|lia]. destruct (lookup_lt_is_Some_2 x k) as [y Hy]; [lia|]. rewrite Hy. unfold byte.
    replace (Z.to_nat _) with k by lia. now rewrite Hy.
  - rewrite lookup_seqZ_ge, lookup_ge_None_2 by lia. done.
Qed.

Definition root_list (files : list hostfile) : list (list Z) :=
  dirent ROOTINO [46] :: dirent ROOTINO [46; 46] :: imap (fun i f => dirent (inum_of (S i)) (name_of f)) files.
Lemma root_list_16 files : Forall (fun x => length x = 16%nat) (root_list files).
Proof.
  repeat (apply Forall_cons; split; [apply length_dirent|]). apply Forall_lookup. intros i x Hx. rewrite list_lookup_imap in Hx.
  apply fmap_Some in Hx as (f & _ & ->). apply length_dirent.
Qed.
Lemma root_content files : dots ++ entries files = concat (root_list files).
Proof. unfold dots, entries, root_list. cbn [concat]. now rewrite <- app_assoc. Qed.

Section Root.
Context (d : Z -> list Z) (used : Z) (files : list hostfile) (H : image_holds d used (tree files)) (Hn : Z.of_nat (length files) + 1 < NINODES).
(** The last block of the directory is not full. *)
Context (Hfull : ((length files + 2) mod 32 <> 0)%nat).

Lemma root_size : let n := Z.of_nat (length files) + 2 in size_in (T_DIR, dots ++ entries files) = 16 * n /\
  i_size (dinode d ROOTINO) = (n / 32 + 1) * BSIZE /\ blocks (16 * n) = n / 32 + 1.
Proof.
  intros n. assert (Hs : size_in (T_DIR, dots ++ entries files) = 16 * n).
  { unfold size_in. cbn [snd]. rewrite length_app, length_entries. change (length dots) with 32%nat. unfold n. lia. }
  destruct (ih_inode _ _ _ H 0%nat _ eq_refl) as (_ & _ & E). change (inum_of 0) with ROOTINO in E. rewrite E. unfold disk_size. cbn [Nat.eqb]. rewrite Hs.
  assert (Hm : n mod 32 <> 0).
  { intros E0. apply Hfull. apply Nat2Z.inj. rewrite Nat2Z.inj_mod, Nat2Z.inj_add. exact E0. }
  split; [done|]. unfold blocks. assert (0 <= n) by (unfold n; lia). mlia.
Qed.
Lemma root_entry j x : root_list files !! j = Some x -> entry d (dinode d ROOTINO) (Z.of_nat j) = x /\ Z.of_nat j < dir_len (dinode d ROOTINO).
Proof.
  intros Hj. pose proof (lookup_lt_Some _ _ _ Hj) as Hlt. destruct root_size as (E1 & E2 & E3).
  assert (Hlen : Z.of_nat (length (root_list files)) = Z.of_nat (length files) + 2) by (unfold root_list; cbn [length]; rewrite length_imap; lia).
  split; [|unfold dir_len, DIRENT; rewrite E2; mlia].
  rewrite <- (concat_chunk _ _ _ (root_list_16 files) Hj), <- root_content. unfold entry, file_bytes, DIRENT. apply list_fmap_ext.
  intros k o Ho. apply lookup_seqZ in Ho as [-> Ho]. destruct (ih_bytes _ _ _ H 0%nat _ eq_refl) as [B _]. change (inum_of 0) with ROOTINO in B.
  cbn [snd] in B. rewrite E1 in B. set (o := 16 * Z.of_nat j + Z.of_nat k) in *.
  apply (f_equal (fun l => byte l o)) in B. rewrite <- B. unfold byte, file_bytes. rewrite list_lookup_fmap, lookup_seqZ_lt by (unfold o; lia).
  cbn. f_equal. unfold o. lia.
Qed.

Definition good_name (nm : list Z) : Prop := nm <> [] /\ Forall (fun c => c <> SLASH /\ c <> 0) nm /\ Forall is_byte nm.
(** Names that the kernel can tell apart. *)
Definition names_ok : Prop := Forall (fun f => good_name (name_of f)) files /\
  NoDup ([46] :: [46; 46] :: ((fun f => take (Z.to_nat DIRSIZ) (name_of f)) <$> files)).
Lemma cprefix_plain n s : Forall (fun c => c <> SLASH /\ c <> 0) s -> cprefix n s = take n s.
Proof.
  intros Hs. revert n. induction Hs as [|c s [_ Hc] _ IH]; intros [|n]; cbn; try done. apply Z.eqb_neq in Hc. rewrite Hc. now rewrite IH.
Qed.

(** Every entry is a name of the list above with its inode. *)
Lemma root_list_lookup j x : names_ok -> root_list files !! j = Some x -> exists inum nm, x = dirent inum nm /\ 0 < inum < 2 ^ 16 /\ Forall is_byte nm /\
  ([46] :: [46; 46] :: ((fun f => take (Z.to_nat DIRSIZ) (name_of f)) <$> files)) !! j = Some (cprefix (Z.to_nat DIRSIZ) nm).
Proof.
  intros [Hg _] Hj. destruct j as [|[|j]].
  - injection Hj as <-. exists ROOTINO, [46]. repeat split; try done. repeat constructor; done.
  - injection Hj as <-. exists ROOTINO, [46; 46]. repeat split; try done. repeat constructor; done.
  - change (imap (fun i f => dirent (inum_of (S i)) (name_of f)) files !! j = Some x) in Hj. rewrite list_lookup_imap in Hj.
    apply fmap_Some in Hj as (f & Hf & ->). pose proof (lookup_lt_Some _ _ _ Hf). destruct (proj1 (Forall_lookup _ _) Hg _ _ Hf) as (_ & G2 & G3).
    exists (inum_of (S j)), (name_of f). split; [done|]. split; [unfold inum_of, NINODES in *; lia|]. split; [done|].
    change (((fun f => take (Z.to_nat DIRSIZ) (name_of f)) <$> files) !! j = Some (cprefix (Z.to_nat DIRSIZ) (name_of f))).
    rewrite list_lookup_fmap, Hf. cbn [fmap option_fmap option_map]. now rewrite cprefix_plain.
Qed.
Lemma find_root k f name : names_ok -> files !! k = Some f -> Forall is_byte name -> cprefix (Z.to_nat DIRSIZ) name = take (Z.to_nat DIRSIZ) (name_of f) ->
  find_entry name 0 (dir_entries d (dinode d ROOTINO)) = Some (Z.of_nat (S (S k)), inum_of (S k)).
Proof.
  intros Hok Hk Hb Hc. destruct Hok as [Hg Hd]. assert (Hok : names_ok) by done.
  assert (Hl : forall j x, root_list files !! j = Some x -> dir_entries d (dinode d ROOTINO) !! j = Some x).
  { intros j x Hj. destruct (root_entry j x Hj) as [E1 E2]. unfold dir_entries. rewrite list_lookup_fmap, lookup_seqZ_lt by lia. cbn [fmap option_fmap option_map]. now rewrite Z.add_0_l, E1. }
  assert (Hx : root_list files !! S (S k) = Some (dirent (inum_of (S k)) (name_of f))).
  { change (imap (fun i f => dirent (inum_of (S i)) (name_of f)) files !! k = Some (dirent (inum_of (S k)) (name_of f))). rewrite list_lookup_imap, Hk. done. }
  destruct (root_list_lookup _ _ Hok Hx) as (inum & nm & E & Hi & Hm & Hnm).
  assert (Hin : 0 < inum_of (S k) < 2 ^ 16) by (pose proof (lookup_lt_Some _ _ _ Hk); unfold inum_of, NINODES in *; lia).
  destruct (proj1 (Forall_lookup _ _) Hg _ _ Hk) as (_ & G2 & G3).
  rewrite (find_entry_first name _ 0 (S (S k)) (dirent (inum_of (S k)) (name_of f))); [rewrite dirent_inum by lia; done|now apply Hl| |].
  - apply has_name_iff; [done|done|done|]. now rewrite Hc, cprefix_plain.
  - intros k' de Hk' Hde. destruct (lookup_lt_is_Some_2 (root_list files) k') as [y Hy]; [apply lookup_lt_Some in Hx; lia|].
    pose proof (Hl _ _ Hy) as Hy'. rewrite Hde in Hy'. injection Hy' as ->.
    destruct (root_list_lookup _ _ Hok Hy) as (inum' & nm' & -> & Hi' & Hm' & Hnm'). apply not_true_is_false. intros Ht. apply has_name_iff in Ht; [|done..].
    assert (k' = S (S k)); [|lia]. eapply NoDup_lookup; [exact Hd|rewrite Hnm'; reflexivity|]. rewrite <- Ht, Hc.
    change (((fun f => take (Z.to_nat DIRSIZ) (name_of f)) <$> files) !! k = Some (take (Z.to_nat DIRSIZ) (name_of f))). now rewrite list_lookup_fmap, Hk.
Qed.
End Root.

(** ** The path of a file *)
Lemma path_elem nm : good_name nm -> exists name, skipelem (SLASH :: nm) (replicate (Z.to_nat DIRSIZ) 0) = Some ([], name) /\
  Forall is_byte name /\ cprefix (Z.to_nat DIRSIZ) name = take (Z.to_nat DIRSIZ) nm.
Proof.
  intros (Hne & Hg & Hb).
  assert (Hsp : forall s, Forall (fun c => c <> SLASH /\ c <> 0) s -> span_elem s = (s, [])).
  { induction 1 as [|c s [H1 H2] _ IH]; [done|]. cbn [span_elem]. apply Z.eqb_neq in H1, H2. rewrite H1, H2. cbn [orb]. now rewrite IH. }
  assert (Hsk : skip_slashes (SLASH :: nm) = nm /\ ch nm 0 <> 0).
  { destruct nm as [|c nm]; [done|]. apply Forall_cons in Hg as [[H1 H2] _]. split; [|done]. cbn. apply Z.eqb_neq in H1. now rewrite H1. }
  destruct Hsk as [Hsk H0]. unfold skipelem. rewrite Hsk, (proj2 (Z.eqb_neq _ _) H0), (Hsp nm Hg). eexists. split; [reflexivity|].
  assert (Hz : forall n, Forall is_byte (replicate n 0)) by (intros n; apply Forall_replicate; unfold is_byte; lia).
  unfold splice. destruct (Z.leb_spec DIRSIZ (Z.of_nat (length nm))) as [Hl|Hl]; cbn [Z.to_nat take app]; rewrite ?take_0; cbn [app]; split.
  - apply Forall_app. split; [now apply Forall_take|now apply Forall_drop].
  - rewrite cprefix_app; [now rewrite take_take|now apply Forall_take|left; rewrite length_take; unfold DIRSIZ in *; lia].
  - apply Forall_app. split; [|now apply Forall_drop]. apply Forall_app. split; [done|repeat constructor; unfold is_byte; lia].
  - rewrite <- app_assoc. apply cprefix_app; [done|right; cbn; eauto].
Qed.

Section Read.
Context {W : Wait} {D : Devices} (w : who) (d : Z -> list Z) (used : Z) (files : list hostfile).

(** An entry of the inode cache before and after its inode is read. *)
Definition slot (inum : Z) : inode := mkInode 1 inum 1 0 0 0 0 0 0 (replicate 13 0).
Definition loaded (inum ref : Z) (i : inode) : inode :=
  mkInode 1 inum ref 1 (i_type i) (i_major i) (i_minor i) (i_nlink i) (i_size i) (i_addrs i).
Lemma loaded_dinode (cur : Z -> list Z) inum :
  set_i_valid 1 (get_dinode (cur (IBLOCK inum (sb_of (cur 1)))) (dip_off inum) (slot inum)) = loaded inum 1 (dinode cur inum).
Proof. reflexivity. Qed.

Lemma iget_free_run inum st ip (Q : nat -> storage -> Prop) : find_idx (cached_inode 1 inum) (st_inodes st) = None ->
  find_idx (fun i => i_ref i =? 0) (st_inodes st) = Some ip -> st_inodes st !! ip = Some inode0 ->
  Q ip (set_inodes (<[ip := slot inum]> (st_inodes st)) st) -> srun w ∅ (iget 1 inum) st ∅ Q.
Proof.
  intros H1 H2 H3 HQ. unfold iget. sgo. rewrite H1, H2. sgo. unfold upd_inode. cbn [st_inodes].
  match goal with |- Q _ (set_inodes ?l _) => replace l with (<[ip := slot inum]> (st_inodes st)); [exact HQ|] end.
  apply list_eq. intros k. destruct (decide (k = ip)) as [->|Hn].
  - rewrite list_lookup_alter_eq, H3, list_lookup_insert_eq by now apply lookup_lt_Some in H3. done.
  - now rewrite list_lookup_alter_ne, list_lookup_insert_ne.
Qed.
Lemma iunlockput_run ip a st (Q : unit -> storage -> Prop) : st_inodes st !! ip = Some a -> i_ref a = 1 -> i_nlink a <> 0 ->
  the_sleep (inode_lock ip) st = mkSleep 1 (w_pid w) ->
  Q tt (set_inodes (<[ip := set_i_ref 0 a]> (st_inodes st)) (set_sleep (inode_lock ip) (mkSleep 0 0) st)) -> srun w ∅ (iunlockput ip) st ∅ Q.
Proof.
  intros Ha Hr Hl Hs HQ. unfold iunlockput, iunlock. eapply srun_bind. eapply srun_bind, srun_holdingsleep; [set_solver|kset|]. sgo.
  rewrite Hs. cbn [sl_locked sl_pid]. rewrite Z.eqb_refl. assert (Ei : the_inode ip st = a) by (unfold the_inode; now rewrite Ha). rewrite Ei, Hr.
  cbn [negb Z.eqb andb orb Z.ltb Z.compare Pos.compare Pos.compare_cont]. apply srun_releasesleep; [set_solver|set_solver|kset|]. unfold iput.
  eapply srun_bind, srun_acquiresleep; [set_solver|kset|now rewrite the_sleep_set|]. rewrite set_sleep_set. sgo. 
  match goal with |- context [the_inode ip (set_sleep ?l ?x st)] => change (the_inode ip (set_sleep l x st)) with (the_inode ip st) end. rewrite Ei.
  apply Z.eqb_neq in Hl. rewrite Hl, andb_false_r. cbn [when]. eapply srun_bind, srun_ret, srun_bind, srun_releasesleep; [set_solver|set_solver|kset|].
  rewrite set_sleep_set. sgo. unfold upd_inode. cbn [st_inodes set_sleep].
  match goal with |- Q _ (set_inodes ?l _) => replace l with (<[ip := set_i_ref 0 a]> (st_inodes st)); [exact HQ|] end.
  apply list_eq. intros k. destruct (decide (k = ip)) as [->|Hn].
  - rewrite list_lookup_alter_eq, Ha, list_lookup_insert_eq by now apply lookup_lt_Some in Ha. cbn. now rewrite Hr.
  - now rewrite list_lookup_alter_ne, list_lookup_insert_ne.
Qed.

Context (Hn : Z.of_nat (length files) + 1 < NINODES) (Hfull : ((length files + 2) mod 32 <> 0)%nat) (Hnames : names_ok files).

Definition some_log : log := mkLog 2 nlog 0 0 ROOTDEV 0 [].
Lemma file_blocks cur k f : image_holds cur used (tree files) -> tree files !! k = Some f -> has_blocks FSSIZE cur (dinode cur (inum_of k)) (size_in f).
Proof. intros H Hk. exact (fo_has _ _ _ _ _ (ih_ok _ _ _ H k f some_log Hk eq_refl eq_refl)). Qed.

Lemma root_dir_ok cur : image_holds cur used (tree files) -> dir_ok FSSIZE cur (loaded ROOTINO 1 (dinode cur ROOTINO)).
Proof.
  intros H. destruct (root_size cur used files H Hfull) as (E1 & E2 & E3). destruct (ih_inode _ _ _ H 0%nat _ eq_refl) as (T1 & T2 & _).
  change (inum_of 0) with ROOTINO in *. set (n := Z.of_nat (length files) + 2) in *.
  assert (Hm : n mod 32 <> 0) by (intros E0; apply Hfull, Nat2Z.inj; rewrite Nat2Z.inj_mod, Nat2Z.inj_add; exact E0).
  assert (Hb : 0 <= n < 201) by (unfold n, NINODES in *; lia).
  split; cbn [loaded i_dev i_type i_size]; rewrite ?T1, ?E2; try done.
  - mlia.
  - unfold dir_len. cbn [i_size loaded]. rewrite E2. unfold DIRENT. mlia.
  - intros bn H0 H1. change (has_block FSSIZE cur (dinode cur ROOTINO) bn). apply (file_blocks cur 0%nat _ H eq_refl); [done|]. rewrite E1. mlia.
Qed.

(** The cache after the lookup: the root has been given back. *)
Definition looked_up (cur : Z -> list Z) (k : nat) : list inode :=
  loaded ROOTINO 0 (dinode cur ROOTINO) :: slot (inum_of (S k)) :: replicate 48 inode0.

Lemma iblock_in_disk cur inum : image_holds cur used (tree files) -> 0 <= inum < NINODES -> 0 <= IBLOCK inum (sb_of (cur 1)) < FSSIZE.
Proof. intros H Hi. rewrite (ih_sb _ _ _ H). change (mkSb _ _ _ _ _ _ _) with the_sb. fold (iblock inum). destruct (iblock_range inum); [change NI with 208; unfold NINODES in Hi; lia|mlia]. Qed.

Lemma namei_run k f st v (Q : option nat -> storage -> Prop) : image_holds d used (tree files) -> started w d (replicate NINODE inode0) st v -> files !! k = Some f ->
  (forall st', Rep w st' v -> st_disksize st' = FSSIZE -> st_sb st' = sb_of (v_cur v 1) -> st_inodes st' = looked_up (v_cur v) k ->
     the_sleep (inode_lock 1) st' = mkSleep 0 0 -> Q (Some 1%nat) st') ->
  srun w ∅ (namei (SLASH :: name_of f)) st ∅ Q.
Proof.
  intros H0 [HR Hh Hd Hc Hsz Hin Hsb Hlk] Hk HQ.
  assert (H : image_holds (v_cur v) used (tree files)) by (eapply image_holds_ext; [|exact H0]; intros b; symmetry; apply Hc).
  assert (Hdr : (size (v_dirty v) < NBUF)%nat) by (rewrite Hd, size_empty; unfold NBUF; lia).
  rewrite <- (Hc 1) in Hsb. pose proof (proj1 (Forall_lookup _ _) (proj1 Hnames) _ _ Hk) as Hg. destruct (path_elem _ Hg) as (name & Esk & Hb & Hcp).
  unfold namei. eapply srun_bind. unfold namex. change (ch (SLASH :: name_of f) 0 =? SLASH) with true. cbv iota.
  eapply srun_bind, (iget_free_run ROOTINO st 0%nat); [rewrite Hin; reflexivity..|]. rewrite Hin. set (st1 := set_inodes _ st).
  cbn [namex_loop]. rewrite Esk.
  destruct (ih_inode _ _ _ H 0%nat _ eq_refl) as (T1 & T2 & _). change (inum_of 0) with ROOTINO in T1, T2.
  assert (Ei1 : the_inode 0 st1 = slot ROOTINO) by done.
  eapply srun_bind, (ilock_run w 0 st1 v); rewrite ?Ei1; try done; cbn [i_inum slot]; change (st_sb st1) with (st_sb st); rewrite ?Hsb.
  { now apply rep_set_inodes. }
  { cbn. lia. }
  { change (st_disksize st1) with (st_disksize st). rewrite Hsz. now apply iblock_in_disk. }
  { change (the_sleep (inode_lock 0) st1) with (the_sleep (inode_lock 0) st). now rewrite Hlk by (unfold NINODE; lia). }
  { change (i_type (loaded ROOTINO 1 (dinode (v_cur v) ROOTINO)) <> 0). cbn [loaded i_type]. now rewrite T1. }
  rewrite loaded_dinode. set (root := loaded ROOTINO 1 (dinode (v_cur v) ROOTINO)). intros st2 HR2 (D2 & _ & B2 & I2 & _ & _ & W2).
  cbn [set_sleep set_inodes st_disksize st_sb st_inodes st1] in D2, B2, I2. sgo.
  assert (Ei2 : the_inode 0 st2 = root) by (unfold the_inode; now rewrite I2). rewrite Ei2. change (i_type root) with (i_type (dinode (v_cur v) ROOTINO)). rewrite T1.
  change (negb (T_DIR =? T_DIR)) with false. cbn [andb]. cbv iota.
  eapply srun_bind, (dirlookup_run w v 0 root Hh Hdr name st2); [exact Ei2|exact HR2|rewrite D2, Hsz; now apply root_dir_ok|].
  change (dir_entries (v_cur v) root) with (dir_entries (v_cur v) (dinode (v_cur v) ROOTINO)). rewrite (find_root _ used files H Hn Hfull k f name) by done.
  intros st3 HR3 (D3 & _ & B3 & I3 & _ & _ & W3). rewrite I2 in I3. change (st_inodes st3 = root :: replicate 49 inode0) in I3.
  assert (Hne : cached_inode 1 (inum_of (S k)) root = false) by (unfold cached_inode, root; cbn [loaded i_ref i_dev i_inum]; rewrite (proj2 (Z.eqb_neq ROOTINO (inum_of (S k)))) by (unfold inum_of, ROOTINO; lia); apply andb_false_r).
  apply (iget_free_run _ st3 1%nat); rewrite ?I3; [cbn [find_idx]; now rewrite Hne|reflexivity|reflexivity|]. set (st4 := set_inodes _ st3).
  assert (Hs4 : forall l, (NBUF <= l)%nat -> the_sleep l st4 = the_sleep l (set_sleep (inode_lock 0) (mkSleep 1 (w_pid w)) st1)).
  { intros l Hl. change (the_sleep l st4) with (the_sleep l st3). rewrite W3, W2 by done. done. }
  eapply srun_bind, (iunlockput_run 0 root st4); [reflexivity|reflexivity|change (i_nlink root) with (i_nlink (dinode (v_cur v) ROOTINO)); rewrite T2; done|rewrite Hs4 by (unfold inode_lock; lia); apply the_sleep_set|].
  set (st5 := set_inodes _ _). change (namex_loop _ 1 [] false name) with (ret (S := kfs) (Some 1%nat, name)). sgo. apply HQ.
  - apply rep_set_inodes, rep_inode_lock, rep_set_inodes, HR3.
  - change (st_disksize st5) with (st_disksize st3). congruence.
  - change (st_sb st5) with (st_sb st3). congruence.
  - reflexivity.
  - change (the_sleep (inode_lock 1) st5) with (the_sleep (inode_lock 1) (set_sleep (inode_lock 0) (mkSleep 0 0) st4)).
    rewrite the_sleep_set_ne, Hs4, the_sleep_set_ne by (unfold inode_lock; lia). apply Hlk. unfold NINODE. lia.
Qed.

Lemma file_bytes_take cur i n m : 0 <= m <= n -> file_bytes cur i 0 m = take (Z.to_nat m) (file_bytes cur i 0 n).
Proof.
  intros Hm. unfold file_bytes. apply list_eq. intros k. destruct (decide (Z.of_nat k < m)).
  - rewrite lookup_take_lt, !list_lookup_fmap, !lookup_seqZ_lt by lia. done.
  - rewrite lookup_take_ge, list_lookup_fmap, lookup_seqZ_ge by lia. done.
Qed.

Lemma read_path_run k f n st v (Q : Z * list Z -> storage -> Prop) : image_holds d used (tree files) -> started w d (replicate NINODE inode0) st v ->
  files !! k = Some f -> Z.of_nat (length (content f)) <= MAXFILE * BSIZE -> 0 <= n < 2 ^ 31 ->
  (forall st', Q (Z.min n (Z.of_nat (length (content f))), take (Z.to_nat n) (content f)) st') ->
  srun w ∅ (read_path (SLASH :: name_of f) n) st ∅ Q.
Proof.
  intros H0 Hst Hk Hmax Hn0 HQ. unfold read_path. eapply srun_bind, namei_run; [exact H0|exact Hst|exact Hk|]. intros st1 HR1 D1 B1 I1 W1.
  destruct Hst as [_ Hh Hd Hc _ _ _ _]. set (inum := inum_of (S k)) in *. change (MAXFILE * BSIZE) with 71680 in Hmax.
  assert (H : image_holds (v_cur v) used (tree files)) by (eapply image_holds_ext; [|exact H0]; intros b; symmetry; apply Hc).
  assert (Hdr : (size (v_dirty v) < NBUF)%nat) by (rewrite Hd, size_empty; unfold NBUF; lia).
  assert (Ht : tree files !! S k = Some (T_FILE, content f)) by (change (((fun f => (T_FILE, content f)) <$> files) !! k = Some (T_FILE, content f)); now rewrite list_lookup_fmap, Hk).
  destruct (ih_inode _ _ _ H _ _ Ht) as (T1 & _ & T3). destruct (ih_bytes _ _ _ H _ _ Ht) as [T4 _]. pose proof (file_blocks _ _ _ H Ht) as T5. fold inum in T1, T3, T4, T5.
  change (i_size (dinode (v_cur v) inum) = Z.of_nat (length (content f))) in T3. change (size_in (T_FILE, content f)) with (Z.of_nat (length (content f))) in T4, T5. cbn [fst snd] in T1, T4.
  assert (Ei1 : the_inode 1 st1 = slot inum) by (unfold the_inode; now rewrite I1).
  eapply srun_bind, (ilock_run w 1 st1 v); rewrite ?Ei1, ?B1; cbn [i_inum slot]; try done.
  { rewrite I1. cbn. lia. }
  { rewrite D1. apply iblock_in_disk; [done|]. pose proof (lookup_lt_Some _ _ _ Hk). unfold inum, inum_of, NINODES in *. lia. }
  { now rewrite W1. }
  { change (i_type (dinode (v_cur v) inum) <> 0). now rewrite T1. }
  rewrite loaded_dinode. set (i := loaded inum 1 (dinode (v_cur v) inum)). intros st2 HR2 (D2 & _ & _ & I2 & _).
  cbn [set_sleep set_inodes st_disksize st_inodes] in D2, I2. assert (Ei2 : the_inode 1 st2 = i) by (unfold the_inode; rewrite I2, I1; done).
  apply (readi_run w 1 0 n st2 v); rewrite ?Ei2; try done; try lia; change (i_size i) with (i_size (dinode (v_cur v) inum)); rewrite ?T3.
  { change (i_type i) with (i_type (dinode (v_cur v) inum)). now rewrite T1. }
  { change (MAXFILE * BSIZE) with 71680. lia. }
  { rewrite D2, D1. exact T5. }
  intros st3 _ _. rewrite (proj2 (Z.ltb_ge _ _)) by lia. rewrite Z.sub_0_r. change (file_bytes (v_cur v) i 0) with (file_bytes (v_cur v) (dinode (v_cur v) inum) 0).
  rewrite (file_bytes_take _ _ (Z.of_nat (length (content f)))), T4 by lia.
  replace (take (Z.to_nat (Z.min n (Z.of_nat (length (content f))))) (content f)) with (take (Z.to_nat n) (content f)); [apply HQ|].
  destruct (Z.min_spec n (Z.of_nat (length (content f)))) as [[_ ->]|[? ->]]; [done|]. now rewrite !take_ge by lia.
Qed.
End Read.

Section Claim.
Context {W : Wait} {D : Devices} (w : who).

(** C6. From the command line of mkfs to a read in the kernel.  mkfs is given
    files that fit, under names that differ in their first 14 bytes, and not a
    number of them that fills the blocks of the root directory.  It builds an
    image; a kernel that has just been loaded, with this image as its disk,
    starts its file system; and a read of any of the files by its path returns
    the bytes the file had on the host, as many as were asked for. *)
Theorem boot_reads_files (files : list hostfile) : Forall host_ok files -> Z.of_nat (length files) + 1 < NINODES ->
  nmeta + total (tree files) <= FSSIZE -> ((length files + 2) mod 32 <> 0)%nat -> names_ok files ->
  exists im, main files image0 = Done tt im /\
    forall s, env w ∅ s -> booting FSSIZE (cur im) (k_ext s) -> st_inodes (k_ext s) = replicate NINODE inode0 ->
    exists s1, start_fs s = Done tt s1 /\
      forall k f n, files !! k = Some f -> 0 <= n < 2 ^ 31 ->
      exists s2, read_path (SLASH :: name_of f) n s1 = Done (Z.min n (Z.of_nat (length (content f))), take (Z.to_nat n) (content f)) s2.
Proof.
  intros Hh Hn Hf Hfull Hnm. destruct (main_run files Hh Hn Hf) as (im & E & H). exists im. split; [exact E|]. intros s He Hb Hi.
  destruct (srun_done w start_fs s (fun _ st => exists v, started w (cur im) (replicate NINODE inode0) st v)) as ([] & s1 & H1 & He1 & v & Hs); [|exact He|].
  { eapply start_run; [exact H|exact Hb|]. rewrite Hi. eauto. }
  exists s1. split; [exact H1|]. intros k f n Hk Hr. destruct (proj1 (Forall_lookup _ _) Hh _ _ Hk) as (_ & _ & Hmax).
  destruct (srun_done w (read_path (SLASH :: name_of f) n) s1 (fun r _ => r = (Z.min n (Z.of_nat (length (content f))), take (Z.to_nat n) (content f))))
    as (r & s2 & H2 & _ & ->); [|exact He1|eauto].
  eapply read_path_run; done || now intros.
Qed.
End Claim.

(** ** A kernel with an image as its disk *)
Definition disk_of (im : image) : gmap Z (list Z) := list_to_map (zip (seqZ 0 (Z.of_nat (length (im_file im)))) (im_file im)).
Definition demo_booting (im : image) : kfs :=
  let s := demo_kfs in
  mkK (k_base s) (k_procs s) (k_mutex s) (k_initproc s) (k_nextpid s) (k_first s)
    (mkStorage ∅ (replicate (S NBUF) buf0) (disk_of im) FSSIZE [] log0 (mkSb 0 0 0 0 0 0 0) (replicate NINODE inode0) (replicate NFILE file0) ∅ 0 console0 ide0 devs0).
Lemma disk_of_lookup im b : 0 <= b -> disk_of im !! b = im_file im !! Z.to_nat b.
Proof.
  intros Hb. unfold disk_of. set (l := im_file im). destruct (l !! Z.to_nat b) as [x|] eqn:E.
  - apply elem_of_list_to_map; [rewrite fst_zip by (rewrite length_seqZ; lia); apply NoDup_seqZ|].
    apply list_elem_of_lookup. exists (Z.to_nat b). apply lookup_zip_with_Some. exists b, x. split; [done|]. split; [|done].
    apply lookup_seqZ. apply lookup_lt_Some in E. lia.
  - apply not_elem_of_list_to_map. rewrite fst_zip by (rewrite length_seqZ; lia). rewrite elem_of_seqZ. apply lookup_ge_None in E. lia.
Qed.
Lemma demo_booting_ok im used fs : image_holds (cur im) used fs -> booting FSSIZE (cur im) (k_ext (demo_booting im)).
Proof.
  intros H. split; [done|]. split; [|done]. intros b. unfold block, cur. cbn [k_ext demo_booting st_disk]. destruct (Z.leb_spec 0 b) as [Hb|Hb].
  - now rewrite disk_of_lookup.
  - change (default zeroes (disk_of im !! b) = default zeroes (im_file im !! Z.to_nat b)). replace (Z.to_nat b) with 0%nat by lia.
    pose proof (ih_boot _ _ _ H) as H0. unfold cur in H0. change (Z.to_nat 0) with 0%nat in H0. rewrite H0. unfold disk_of.
    rewrite not_elem_of_list_to_map_1; [done|]. rewrite fst_zip by (rewrite length_seqZ; lia). rewrite elem_of_seqZ. lia.
Qed.
#[local] Instance demo_wait : Wait := 0%nat.
#[local] Instance no_devices : Devices := {| dev_read := fun _ => None; dev_write := fun _ => None |}.
Lemma demo_booting_env im : env demo_who ∅ (demo_booting im).
Proof.
  destruct demo_env as (H1 & H2 & H3). split; [exact H1|]. split; [exact H2|exact H3].
Qed.

Lemma demo_files_ok : Forall host_ok demo_files /\ names_ok demo_files.
Proof.
  split; [repeat constructor; vm_compute; try discriminate; eauto|]. split; [repeat constructor; vm_compute; discriminate|].
  vm_compute. repeat constructor; set_solver.
Qed.
Lemma boot_reads_files_witness : exists im s1 s2, main demo_files image0 = Done tt im /\ start_fs (demo_booting im) = Done tt s1 /\
  read_path [47; 99; 97; 116] 600 s1 = Done (600, replicate 512 7 ++ replicate 88 8) s2.
Proof.
  destruct demo_files_ok as [Hh Hnm]. assert (Hf : nmeta + total (tree demo_files) <= FSSIZE) by (vm_compute; discriminate).
  destruct (main_run demo_files Hh eq_refl Hf) as (im' & E' & H).
  destruct (boot_reads_files demo_who demo_files Hh eq_refl Hf ltac:(discriminate) Hnm) as (im & E & Hboot).
  rewrite E in E'. injection E' as <-. exists im.
  destruct (Hboot (demo_booting im) (demo_booting_env im) (demo_booting_ok _ _ _ H) eq_refl) as (s1 & H1 & Hread).
  destruct (Hread 0%nat _ 600 eq_refl ltac:(lia)) as (s2 & H2). exists s1, s2. split; [exact E|]. split; [exact H1|exact H2].
Defined.
