(* ===== verification/Malloc.v ===== *)
(** * The allocator of user programs (umalloc.c)

    Free blocks form a ring of headers, sorted by address, that starts at the
    static header [base]; a header is the word [ptr] at its address and the
    word [size], in units of [sizeof(Header)], after it.  The state is the
    memory of the program, the static pointer [freep] and the break of the
    address space; [grant brk n] says whether the kernel gives [n] more bytes.
    Every pointer is the unsigned address in bytes.

    [heap_ok h L A]: the ring consists of the blocks [L], the blocks [A] are in
    use, and no two of all these blocks overlap. *)
From S2P Require Import Prelude Mmu.

Definition HEADER : Z := 8.
Record heap := mkHeap { h_mem : gmap Z Z; h_freep : Z; h_brk : Z }.

Definition ptr (a : Z) (h : heap) : Z := default 0 (h_mem h !! a).
Definition size_of (a : Z) (h : heap) : Z := default 0 (h_mem h !! (a + 4)).
Definition set_mem (a v : Z) (h : heap) : heap := mkHeap (<[a := v]> (h_mem h)) (h_freep h) (h_brk h).
Definition set_ptr (a v : Z) : M heap unit := modify (set_mem a v).
Definition set_size (a v : Z) : M heap unit := modify (set_mem (a + 4) v).
Definition set_freep (v : Z) : M heap unit := modify (fun h => mkHeap (h_mem h) v (h_brk h)).

Section Malloc.
Context (base : Z) (grant : Z -> Z -> bool).

(** The system call: the old break, or -1.  A negative [n] that would carry the
    break below 0 leaves it as it is ([deallocuvm] with a larger size). *)
Definition sbrk (n : Z) : M heap Z :=
  brk <~ gets h_brk ;;
  if grant brk n then
    let brk' := if (n <? 0) && (brk <=? u32 (brk + n)) then brk else u32 (brk + n) in
    modify (fun h => mkHeap (h_mem h) (h_freep h) brk') ;;;
    ret brk
  else ret (u32 (-1)).

(** The ring has at most as many headers as the memory has words. *)
Definition ring_fuel (h : heap) : nat := (2 * size (h_mem h) + 8)%nat.

Fixpoint free_loop (fuel : nat) (bp p : Z) : M heap Z :=
  match fuel with
  | O => fun _ => Spin
  | S fuel =>
      q <~ gets (ptr p) ;;
      if negb ((p <? bp) && (bp <? q)) then
        if (q <=? p) && ((p <? bp) || (bp <? q)) then ret p
        else free_loop fuel bp q
      else ret p
  end.
(** The two joins at the end of [free]. *)
Definition join_next (p bp : Z) : M heap unit :=
  q <~ gets (ptr p) ;;
  n <~ gets (size_of bp) ;;
  if u32 (bp + HEADER * n) =? q then
    qn <~ gets (size_of q) ;;
    set_size bp (u32 (n + qn)) ;;;
    q <~ gets (ptr p) ;;
    qq <~ gets (ptr q) ;;
    set_ptr bp qq
  else set_ptr bp q.
Definition join_prev (p bp : Z) : M heap unit :=
  n <~ gets (size_of p) ;;
  if u32 (p + HEADER * n) =? bp then
    bn <~ gets (size_of bp) ;;
    set_size p (u32 (n + bn)) ;;;
    bq <~ gets (ptr bp) ;;
    set_ptr p bq
  else set_ptr p bp.
Definition free (ap : Z) : M heap unit :=
  let bp := u32 (ap - HEADER) in
  freep <~ gets h_freep ;;
  n <~ gets ring_fuel ;;
  p <~ free_loop n bp freep ;;
  join_next p bp ;;;
  join_prev p bp ;;;
  set_freep p.

Definition morecore (nu : Z) : M heap Z :=
  let nu := if nu <? 4096 then 4096 else nu in
  p <~ sbrk (s32 (u32 (nu * HEADER))) ;;
  if p =? u32 (-1) then ret 0
  else
    set_size p nu ;;;
    free (u32 (p + HEADER)) ;;;
    gets h_freep.

(** A block of [nunits] from the free block at [p], whose predecessor is
    [prevp]. *)
Definition take_block (nunits prevp p : Z) : M heap Z :=
  n <~ gets (size_of p) ;;
  r <~ (if n =? nunits then
          q <~ gets (ptr p) ;;
          set_ptr prevp q ;;;
          ret p
        else
          set_size p (u32 (n - nunits)) ;;;
          let r := u32 (p + HEADER * u32 (n - nunits)) in
          set_size r nunits ;;;
          ret r) ;;
  set_freep prevp ;;;
  ret (u32 (r + HEADER)).
Fixpoint malloc_loop (fuel : nat) (nunits prevp p : Z) : M heap Z :=
  match fuel with
  | O => fun _ => Spin
  | S fuel =>
      n <~ gets (size_of p) ;;
      if nunits <=? n then take_block nunits prevp p
      else
        freep <~ gets h_freep ;;
        if p =? freep then
          p <~ morecore nunits ;;
          if p =? 0 then ret 0
          else
            q <~ gets (ptr p) ;;
            malloc_loop fuel nunits p q
        else
          q <~ gets (ptr p) ;;
          malloc_loop fuel nunits p q
  end.
Definition units (nbytes : Z) : Z := u32 (u32 (nbytes + HEADER - 1) / HEADER + 1).
Definition malloc (nbytes : Z) : M heap Z :=
  let nunits := units nbytes in
  prevp <~ gets h_freep ;;
  prevp <~ (if prevp =? 0 then
              set_freep base ;;;
              set_ptr base base ;;;
              set_size base 0 ;;;
              ret base
            else ret prevp) ;;
  p <~ gets (ptr prevp) ;;
  n <~ gets ring_fuel ;;
  malloc_loop n nunits prevp p.
End Malloc.

(** ** Memory *)
Lemma ptr_set a v h : ptr a (set_mem a v h) = v.
Proof. unfold ptr, set_mem. simpl. now rewrite lookup_insert_eq. Qed.
Lemma ptr_set_ne a x v h : a <> x -> ptr a (set_mem x v h) = ptr a h.
Proof. intros Hx. unfold ptr, set_mem. simpl. now rewrite lookup_insert_ne by congruence. Qed.
Lemma size_set a v h : size_of a (set_mem (a + 4) v h) = v.
Proof. unfold size_of, set_mem. simpl. now rewrite lookup_insert_eq. Qed.
Lemma size_set_ne a x v h : a + 4 <> x -> size_of a (set_mem x v h) = size_of a h.
Proof. intros Hx. unfold size_of, set_mem. simpl. now rewrite lookup_insert_ne by congruence. Qed.

(** Two headers that do not overlap, and a change of memory that keeps every
    header that does not overlap one of the given ones. *)
Definition apart (x y : Z) : Prop := x + HEADER <= y \/ y + HEADER <= x.
Definition keeps (h h' : heap) (x : Z) : Prop := ptr x h' = ptr x h /\ size_of x h' = size_of x h.
Definition clear_of (w x : Z) : Prop := w < x \/ x + HEADER <= w.
Definition same_word (h h' : heap) (w : Z) : Prop := h_mem h' !! w = h_mem h !! w.
Lemma same_keeps h h' x y :
  (forall w, clear_of w x -> same_word h h' w) -> apart y x -> keeps h h' y.
Proof.
  unfold clear_of, apart, HEADER. intros Hw Hy. unfold keeps, ptr, size_of.
  rewrite (Hw y), (Hw (y + 4)) by lia. done.
Qed.

(** Evaluates reads of written memory; distinctness of addresses by [lia]. *)
Ltac hsimp :=
  unfold apart, HEADER in *;
  repeat first [ rewrite ptr_set | rewrite size_set | rewrite ptr_set_ne by lia | rewrite size_set_ne by lia ].

Ltac wsimp :=
  unfold clear_of, apart, same_word, set_mem, HEADER in *; simpl; repeat rewrite lookup_insert_ne by lia; reflexivity.

(** ** Blocks *)
(** A block is the address of its header and its size in units. *)
Abbreviation block := (Z * Z)%type.
Definition block_end (b : block) : Z := b.1 + HEADER * b.2.
Definition disj (x y : block) : Prop := block_end x <= y.1 \/ block_end y <= x.1.
Definition within (z : Z) (b : block) : Prop := b.1 <= z < block_end b.
Ltac blia := unfold disj, within, apart, clear_of, block_end, HEADER in *; cbn [fst snd] in *; lia.

Fixpoint sorted (lo : Z) (L : list block) : Prop :=
  match L with
  | [] => True
  | b :: L => lo <= b.1 /\ 0 < b.2 /\ sorted (block_end b) L
  end.

(** The headers from [a] on, by their pointers, up to [e]. *)
Fixpoint chain (h : heap) (a : Z) (L : list block) (e : Z) : Prop :=
  match L with
  | [] => ptr a h = e
  | b :: L => ptr a h = b.1 /\ size_of b.1 h = b.2 /\ chain h b.1 L e
  end.
Fixpoint last_addr (a : Z) (L : list block) : Z :=
  match L with
  | [] => a
  | b :: L => last_addr b.1 L
  end.

Lemma chain_app h a L1 L2 e : chain h a (L1 ++ L2) e <-> exists m, chain h a L1 m /\ match L2 with [] => m = e | b :: L2 => m = b.1 /\ size_of b.1 h = b.2 /\ chain h b.1 L2 e end.
Proof.
  revert a. induction L1 as [|b L1 IH]; intros a; simpl.
  - destruct L2 as [|c L2]; simpl; split.
    + intros <-. eauto.
    + now intros (m & <- & ->).
    + intros (H1 & H2 & H3). eauto 6.
    + now intros (m & -> & -> & H2 & H3).
  - rewrite IH. split.
    + intros (H1 & H2 & m & H3 & H4). eauto 6.
    + intros (m & (H1 & H2 & H3) & H4). eauto 6.
Qed.
Lemma chain_frame h h' a b L e :
  chain h b L e -> ptr a h' = ptr b h -> (forall x, x ∈ L -> keeps h h' x.1) -> chain h' a L e.
Proof.
  revert a b. induction L as [|c L IH]; simpl; intros a b Hc Ha Hk; [congruence|].
  destruct Hc as (H1 & H2 & H3). destruct (Hk c) as [Kp Ks]; [set_solver|].
  split; [congruence|]. split; [congruence|]. eapply IH; eauto. intros x Hx. apply Hk. set_solver.
Qed.
Lemma chain_last h a L e : chain h a L e -> ptr (last_addr a L) h = e.
Proof. revert a. induction L as [|b L IH]; simpl; intros a; [done|]. intros (_ & _ & Hc). auto. Qed.
Lemma last_addr_snoc a L b : last_addr a (L ++ [b]) = b.1.
Proof. revert a. induction L; simpl; auto. Qed.

Lemma last_addr_app a L1 L2 : last_addr a (L1 ++ L2) = last_addr (last_addr a L1) L2.
Proof. revert a. induction L1; simpl; auto. Qed.
Lemma last_addr_cases a L : last_addr a L = a \/ exists x, x ∈ L /\ last_addr a L = x.1.
Proof.
  destruct L as [|x L _] using rev_ind; [now left|right]. exists x. rewrite last_addr_snoc. set_solver.
Qed.

Lemma sorted_weaken lo lo' L : lo' <= lo -> sorted lo L -> sorted lo' L.
Proof. destruct L; simpl; [done|]. intuition lia. Qed.
Lemma sorted_elem lo L x : sorted lo L -> x ∈ L -> lo <= x.1 /\ 0 < x.2.
Proof.
  revert lo. induction L as [|b L IH]; simpl; intros lo Hs Hx; [set_solver|].
  destruct Hs as (H1 & H2 & H3). apply elem_of_cons in Hx as [->|Hx]; [done|].
  destruct (IH _ H3 Hx). blia.
Qed.
Lemma sorted_app lo L1 L2 :
  sorted lo (L1 ++ L2) <->
  sorted lo L1 /\ sorted lo L2 /\ (forall x y, x ∈ L1 -> y ∈ L2 -> block_end x <= y.1).
Proof.
  revert lo. induction L1 as [|b L1 IH]; simpl; intros lo; [set_solver|].
  rewrite IH. split.
  - intros (H1 & H2 & H3 & H4 & H5). split; [done|]. split.
    + eapply sorted_weaken; [|exact H4]. unfold block_end, HEADER. lia.
    + intros x y Hx Hy. apply elem_of_cons in Hx as [->|Hx]; [|auto].
      now apply (sorted_elem _ _ y H4).
  - intros ((H1 & H2 & H3) & H4 & H5). split; [done|]. split; [done|]. split; [done|].
    split; [|intros; apply H5; set_solver].
    destruct L2 as [|c L2]; simpl in *; [done|]. destruct H4 as (_ & H6 & H7).
    split; [apply H5; constructor|done].
Qed.

(** ** The invariant *)
Definition all_disj (A : list block) : Prop := ForallOrdPairs disj A.

Record heap_ok (base : Z) (h : heap) (L A : list block) : Prop := {
  ok_base : 0 < base /\ size_of base h = 0;
  ok_chain : chain h base L base;
  ok_sorted : sorted (base + HEADER) L;
  ok_freep : h_freep h = base \/ h_freep h ∈ L.*1;
  ok_brk : base + HEADER <= h_brk h <= KERNBASE;
  ok_below : forall x, x ∈ L -> block_end x <= h_brk h;
  ok_used : forall x, x ∈ A -> base + HEADER <= x.1 /\ 0 < x.2 /\ block_end x <= h_brk h /\ size_of x.1 h = x.2;
  ok_used_disj : all_disj A;
  ok_free_used : forall x y, x ∈ L -> y ∈ A -> disj x y;
  (* neighbours are joined *)
  ok_gaps : forall x y, x ∈ L -> y ∈ L -> block_end x <> y.1;
}.

Lemma disj_join w a n m :
  0 < w.2 -> disj (a, n) w -> disj (a + HEADER * n, m) w -> disj (a, n + m) w.
Proof. unfold disj, block_end, HEADER. simpl. lia. Qed.

(** ** The place of a block in the ring *)
(** The sorted list is cut at the address of a block that is not in it. *)
Lemma cut_at lo L (b : block) :
  sorted lo L -> (forall x, x ∈ L -> disj x b) -> 0 < b.2 ->
  exists L1 L2, L = L1 ++ L2 /\ (forall x, x ∈ L1 -> block_end x <= b.1) /\
    (forall x, x ∈ L2 -> block_end b <= x.1).
Proof.
  intros Hs Hd Hb. revert lo Hs. induction L as [|c L IH]; simpl; intros lo Hs.
  { exists [], []. set_solver. }
  destruct Hs as (H1 & H2 & H3). destruct (Hd c) as [Hc|Hc]; [constructor| |].
  - destruct (IH ltac:(set_solver) _ H3) as (L1 & L2 & -> & Hl & Hr).
    exists (c :: L1), L2. split; [done|]. split; [|done].
    intros x Hx. apply elem_of_cons in Hx as [->|Hx]; auto.
  - exists [], (c :: L). split; [done|]. split; [set_solver|].
    intros x Hx. apply elem_of_cons in Hx as [->|Hx]; [done|].
    destruct (sorted_elem _ _ _ H3 Hx). blia.
Qed.

Section Walk.
Context (h : heap) (base : Z).

Definition stops (bp p q : Z) : Prop := (p < bp < q) \/ (q <= p /\ (p < bp \/ bp < q)).
Lemma free_loop_stop k bp p : stops bp p (ptr p h) -> free_loop (S k) bp p h = Done p h.
Proof.
  intros Hq. cbn [free_loop]. rewrite bind_gets.
  destruct (Z.ltb_spec p bp), (Z.ltb_spec bp (ptr p h)), (Z.leb_spec (ptr p h) p); cbn [andb orb negb];
    try reflexivity; unfold stops in Hq; lia.
Qed.
Lemma free_loop_next k bp p :
  ~ stops bp p (ptr p h) -> free_loop (S k) bp p h = free_loop k bp (ptr p h) h.
Proof.
  intros Hq. cbn [free_loop]. rewrite bind_gets.
  destruct (Z.ltb_spec p bp), (Z.ltb_spec bp (ptr p h)), (Z.leb_spec (ptr p h) p); cbn [andb orb negb];
    try reflexivity; unfold stops in Hq; lia.
Qed.

(** The loop of [free] walks to the last header below the block... *)
Lemma free_walk_below bp a L e k :
  sorted (a + HEADER) L -> a < bp -> (forall x, x ∈ L -> block_end x <= bp) ->
  (bp < e \/ e <= a) -> chain h a L e ->
  free_loop (length L + S k) bp a h = Done (last_addr a L) h.
Proof.
  revert a. induction L as [|b L IH]; intros a Hs Ha HL He Hc.
  - simpl in Hc |- *. apply free_loop_stop. rewrite Hc. unfold stops. lia.
  - destruct Hs as (H1 & H2 & H3), Hc as (C1 & C2 & C3).
    assert (Hb : block_end b <= bp) by (apply HL; constructor).
    unfold block_end, HEADER in *. cbn [length last_addr]. cbn [Nat.add].
    rewrite free_loop_next by (rewrite C1; unfold stops; lia). rewrite C1. apply IH; try done; try lia.
    + eapply sorted_weaken; [|exact H3]. lia.
    + intros x Hx. apply HL. now constructor.
Qed.
(** ...and past the headers above it to the start of the ring. *)
Lemma free_walk_above bp a L e k :
  sorted (a + HEADER) L -> bp < a -> e < bp -> chain h a L e ->
  free_loop (length L + S k) bp a h = free_loop k bp e h.
Proof.
  revert a. induction L as [|b L IH]; intros a Hs Ha He Hc.
  - simpl in Hc |- *. rewrite <- Hc. apply free_loop_next. rewrite Hc. unfold stops. lia.
  - destruct Hs as (H1 & H2 & H3), Hc as (C1 & C2 & C3). unfold block_end, HEADER in *.
    cbn [length Nat.add]. rewrite free_loop_next by (rewrite C1; unfold stops; lia).
    rewrite C1. apply IH; try done; try lia. eapply sorted_weaken; [|exact H3]. lia.
Qed.
End Walk.

(** A header of the ring splits it. *)
Lemma ring_split base p L :
  p = base \/ p ∈ L.*1 -> exists La Lb, L = La ++ Lb /\ p = last_addr base La.
Proof.
  intros [->|Hp]; [exists [], L; done|].
  apply list_elem_of_fmap in Hp as ([a n] & -> & Hp). apply list_elem_of_split in Hp as (La & Lb & ->).
  exists (La ++ [(a, n)]), Lb. rewrite last_addr_snoc. now rewrite <- app_assoc.
Qed.
Lemma chain_from h base La Lb e :
  chain h base (La ++ Lb) e -> chain h (last_addr base La) Lb e.
Proof.
  revert base. induction La as [|b La IH]; simpl; [done|]. intros base (_ & _ & Hc). auto.
Qed.
Lemma sorted_from lo La Lb : 
  sorted (lo + HEADER) (La ++ Lb) -> sorted (last_addr lo La + HEADER) Lb.
Proof.
  revert lo. induction La as [|b La IH]; simpl; [done|]. intros lo (H1 & H2 & H3). apply IH.
  eapply sorted_weaken; [|exact H3]. unfold block_end, HEADER. lia.
Qed.
Lemma last_addr_lo lo L : sorted (lo + HEADER) L -> lo <= last_addr lo L.
Proof.
  intros Hs. destruct (last_addr_cases lo L) as [->|(x & Hx & ->)]; [lia|].
  apply (sorted_elem _ _ _ Hs) in Hx as [Hx _]. unfold HEADER in Hx. lia.
Qed.

(** The ring fits the fuel: each of its headers holds a pointer. *)
Lemma ring_length base h L : 0 < base -> sorted (base + HEADER) L -> chain h base L base -> (length L <= size (h_mem h))%nat.
Proof.
  intros Hb Hs Hc.
  assert (Hd : forall x, x ∈ L.*1 -> is_Some (h_mem h !! x)).
  { intros x Hx. destruct (ring_split base x L) as (La & Lb & -> & ->); [now right|].
    assert (Hp : 0 < ptr (last_addr base La) h).
    { apply chain_from in Hc. destruct Lb as [|c Lb]; simpl in Hc; [lia|].
      destruct Hc as [-> _]. destruct (sorted_elem _ _ c Hs) as [Hc _]; [set_solver|]. unfold HEADER in Hc. lia. }
    unfold ptr in Hp. destruct (h_mem h !! last_addr base La); [eauto|simpl in Hp; lia]. }
  assert (Hn : NoDup L.*1).
  { clear -Hs. revert Hs. generalize (base + HEADER). induction L as [|b L IH]; simpl; intros lo Hs; constructor.
    - intros (x & Hx & Hin)%list_elem_of_fmap. destruct Hs as (_ & Hp & Hs).
      destruct (sorted_elem _ _ x Hs Hin). blia.
    - eapply IH. apply Hs. }
  assert (Hl : length L = length L.*1) by (symmetry; apply length_fmap).
  rewrite Hl, <- (size_list_to_set (C := gset Z)) by done.
  rewrite <- size_dom. apply subseteq_size. intros x Hx%elem_of_list_to_set. apply elem_of_dom. auto.
Qed.

(** ** Joining a block to its neighbours *)
Definition joined_next (bp n : Z) (L2 : list block) (m : Z) (L2' : list block) : Prop :=
  (m = n /\ L2' = L2 /\ forall y, y ∈ L2 -> bp + HEADER * n <> y.1) \/
  exists k, m = n + k /\ 0 < k /\ L2 = (bp + HEADER * n, k) :: L2'.
Definition joined_prev (bp m : Z) (L1 : list block) (b : block) (L1' : list block) : Prop :=
  (b = (bp, m) /\ L1' = L1 /\ forall x, x ∈ L1 -> block_end x <> bp) \/
  exists a k, b = (a, k + m) /\ L1 = L1' ++ [(a, k)] /\ bp = a + HEADER * k /\ 0 < k.

Section Joined.
Context (lo bp n m : Z) (b : block) (L1 L2 L1' L2' : list block).
Hypothesis Hs : sorted lo (L1 ++ L2).
Hypothesis Hn : lo <= bp /\ 0 < n.
Hypothesis H1 : forall x, x ∈ L1 -> block_end x <= bp.
Hypothesis H2 : forall x, x ∈ L2 -> bp + HEADER * n <= x.1.
Hypothesis Hnext : joined_next bp n L2 m L2'.
Hypothesis Hprev : joined_prev bp m L1 b L1'.

Lemma joined_sorted : sorted lo (L1' ++ b :: L2').
Proof.
  apply sorted_app in Hs as (S1 & S2 & S3).
  assert (Hs2 : n <= m /\ sorted (bp + HEADER * m) L2').
  { destruct Hnext as [(-> & -> & _)|(k & -> & Hk & ->)].
    - split; [lia|]. destruct L2 as [|c L]; [done|]. destruct S2 as (_ & S4 & S5).
      split; [apply H2; constructor|done].
    - split; [lia|]. destruct S2 as (_ & _ & S5). unfold block_end, HEADER in *. cbn [fst snd] in *.
      replace (bp + 8 * (n + k)) with (bp + 8 * n + 8 * k) by lia. done. }
  destruct Hs2 as [Hm Hs2]. destruct Hprev as [(-> & -> & _)|(a & k & -> & -> & -> & Hk)].
  - apply sorted_app. split; [done|]. cbn [sorted]. unfold block_end at 1. cbn [fst snd]. split; [split; [lia|split; [lia|done]]|].
    intros x y Hx [->|Hy]%elem_of_cons; [now apply H1|]. destruct (sorted_elem _ _ _ Hs2 Hy).
    specialize (H1 x Hx). blia.
  - apply sorted_app in S1 as (S1 & (Sa & _) & S4). cbn [fst snd] in *. apply sorted_app. split; [done|].
    cbn [sorted]. unfold block_end at 1. cbn [fst snd]. unfold HEADER in *. split.
    + split; [lia|]. split; [lia|]. replace (a + 8 * (k + m)) with (a + 8 * k + 8 * m) by lia. done.
    + intros x y Hx [->|Hy]%elem_of_cons; [apply (S4 x (a, k) Hx); constructor|].
      destruct (sorted_elem _ _ _ Hs2 Hy). specialize (H1 x ltac:(set_solver)). lia.
Qed.

Ltac joins :=
  destruct Hnext as [(-> & -> & Hne)|(k & -> & Hk & ->)], Hprev as [(-> & -> & Hnp)|(a & j & -> & -> & -> & Hj)];
  unfold disj, within, block_end, HEADER in *; cbn [fst snd] in *.

Lemma joined_elem x : x ∈ L1' ++ b :: L2' -> x = b \/ x ∈ L1 ++ L2.
Proof. clear Hs Hn H1 H2. joins; set_solver. Qed.
Lemma joined_length : (length (L1' ++ b :: L2') <= S (length (L1 ++ L2)))%nat.
Proof. clear Hs Hn H1 H2. joins; rewrite ?length_app; simpl; lia. Qed.
Lemma joined_covers : b.1 <= bp /\ bp + HEADER * n <= block_end b.
Proof. joins; lia. Qed.
(** What keeps clear of the old free blocks and of the block keeps clear of
    the new one. *)
Lemma joined_disj y :
  0 < y.2 -> disj (bp, n) y -> (forall x, x ∈ L1 ++ L2 -> disj x y) -> disj b y.
Proof.
  intros Hy Hd HL.
  pose proof (fun x Hx => HL x (proj2 (elem_of_app L1 L2 x) (or_introl Hx))) as Hl1.
  pose proof (fun x Hx => HL x (proj2 (elem_of_app L1 L2 x) (or_intror Hx))) as Hl2. clear HL.
  joins; try lia; first [specialize (Hl2 _ ltac:(constructor))|clear Hl2]; cbn [fst snd] in *; try lia.
  all: specialize (Hl1 (a, j) ltac:(set_solver)); cbn [fst snd] in *; lia.
Qed.
Lemma joined_end e : (forall x, x ∈ L1 ++ L2 -> block_end x <= e) -> bp + HEADER * n <= e -> block_end b <= e.
Proof.
  intros HL He. pose proof (fun x Hx => HL x (proj2 (elem_of_app L1 L2 x) (or_intror Hx))) as Hl2. clear HL.
  joins; try lia; specialize (Hl2 _ ltac:(constructor)); cbn [fst snd] in *; lia.
Qed.
Lemma joined_within z :
  Exists (within z) (L1' ++ b :: L2') <-> Exists (within z) (L1 ++ L2) \/ within z (bp, n).
Proof.
  clear Hs H1 H2. joins; rewrite ?Exists_app, ?Exists_cons, ?Exists_nil; cbn [fst snd]; intuition lia.
Qed.
Lemma joined_gaps :
  (forall x y, x ∈ L1 ++ L2 -> y ∈ L1 ++ L2 -> block_end x <> y.1) ->
  forall x y, x ∈ L1' ++ b :: L2' -> y ∈ L1' ++ b :: L2' -> block_end x <> y.1.
Proof.
  intros HL. pose proof (fun x => sorted_elem lo _ x Hs) as Hpos.
  assert (Hend : forall y, y ∈ L1 ++ L2 -> block_end b <> y.1).
  { intros y Hy. pose proof (Hpos y Hy) as [_ Hy0].
    destruct Hnext as [(-> & _ & Hne)|(k & -> & Hk & HL2)].
    - replace (block_end b) with (bp + HEADER * n)
        by (destruct Hprev as [(-> & _)|(a & j & -> & _ & -> & _)]; unfold block_end, HEADER; cbn [fst snd]; lia).
      apply elem_of_app in Hy as [Hy|Hy]; [|now apply Hne]. specialize (H1 y Hy). blia.
    - replace (block_end b) with (block_end (bp + HEADER * n, k))
        by (destruct Hprev as [(-> & _)|(a & j & -> & _ & -> & _)]; unfold block_end, HEADER; cbn [fst snd]; lia).
      apply HL; [rewrite HL2; set_solver|done]. }
  assert (Hstart : forall x, x ∈ L1 ++ L2 -> block_end x <> b.1).
  { intros x Hx. pose proof (Hpos x Hx) as [_ Hx0]. destruct Hprev as [(-> & _ & Hnp)|(a & j & -> & -> & _)].
    - apply elem_of_app in Hx as [Hx|Hx]; [now apply Hnp|]. specialize (H2 x Hx). unfold block_end, HEADER in *. simpl. lia.
    - apply (HL x (a, j)); [done|set_solver]. }
  assert (Hself : block_end b <> b.1) by (destruct joined_covers; blia).
  intros x y [->|Hx]%joined_elem [->|Hy]%joined_elem; auto.
Qed.
End Joined.

(** ** [free] *)
Section Free.
Context (base : Z) (h : heap) (L A : list block) (bp n : Z).
Hypothesis ok : heap_ok base h L ((bp, n) :: A).

Lemma free_block : base + HEADER <= bp /\ 0 < n /\ bp + HEADER * n <= h_brk h /\ size_of bp h = n.
Proof. apply (ok_used _ _ _ _ ok (bp, n)). constructor. Qed.

(** From any header below the block, the loop ends at the last of them. *)
Lemma free_from_below La l L2 k :
  L = (La ++ l) ++ L2 -> (forall x, x ∈ La ++ l -> block_end x <= bp) ->
  (forall x, x ∈ L2 -> bp + HEADER * n <= x.1) ->
  free_loop (length l + S k) bp (last_addr base La) h = Done (last_addr base (La ++ l)) h.
Proof.
  intros HL H1 H2. destruct free_block as (Hb & Hn & _).
  pose proof (ok_chain _ _ _ _ ok) as Hc. pose proof (ok_sorted _ _ _ _ ok) as Hs.
  rewrite HL, <- app_assoc in Hs, Hc. apply sorted_from in Hs as Hsf. apply chain_from in Hc as Hcf.
  apply chain_app in Hcf as (e & Hc1 & He2). apply sorted_app in Hsf as (Hs1 & Hs2 & Hs3).
  apply sorted_app in Hs as (Hsa & Hsb & _). pose proof (last_addr_lo _ _ Hsa) as Hlo.
  rewrite last_addr_app. unfold block_end, HEADER in *. apply (free_walk_below _ _ _ _ e); try done.
  - destruct (last_addr_cases base La) as [->|(x & Hx & ->)]; [lia|].
    destruct (sorted_elem _ _ x Hsa Hx) as [_ Hx2]. specialize (H1 x ltac:(set_solver)). lia.
  - intros x Hx. apply H1. set_solver.
  - destruct L2 as [|c L2]; [lia|]. destruct He2 as [-> _]. specialize (H2 c ltac:(constructor)). lia.
Qed.

(** The loop ends at the header that precedes the block by address. *)
Lemma free_finds :
  exists L1 L2, L = L1 ++ L2 /\ (forall x, x ∈ L1 -> block_end x <= bp) /\
    (forall x, x ∈ L2 -> bp + HEADER * n <= x.1) /\
    free_loop (ring_fuel h) bp (h_freep h) h = Done (last_addr base L1) h.
Proof.
  destruct free_block as (Hb & Hn & He & Hz).
  pose proof (ok_chain _ _ _ _ ok) as Hc. pose proof (ok_sorted _ _ _ _ ok) as Hs.
  pose proof (ring_length _ _ _ (proj1 (ok_base _ _ _ _ ok)) Hs Hc) as Hl.
  destruct (cut_at _ _ (bp, n) Hs) as (L1 & L2 & HL & H1 & H2); [|done|].
  { intros x Hx. apply (ok_free_used _ _ _ _ ok); [done|constructor]. }
  exists L1, L2. split; [done|]. split; [done|]. split; [done|].
  destruct (ring_split base (h_freep h) L) as (La & Lb & Hab & Hp); [apply (ok_freep _ _ _ _ ok)|].
  rewrite Hp. unfold ring_fuel. pose proof Hab as Hab'. rewrite HL in Hab'. rewrite Hab in Hc, Hs.
  assert (Hll : length L = (length L1 + length L2)%nat) by (rewrite HL; apply length_app).
  apply app_eq_inv in Hab' as [(l & -> & ->)|(l & -> & ->)]; rewrite ?length_app in Hll.
  - replace (2 * size (h_mem h) + 8)%nat with (length l + S (2 * size (h_mem h) + 7 - length l))%nat by lia.
    now apply (free_from_below La l L2).
  - destruct l as [|c l _] using rev_ind.
    { pose proof (free_from_below L1 [] Lb (2 * size (h_mem h) + 7)) as Hf. rewrite app_nil_r in Hf |- *.
      replace (2 * size (h_mem h) + 8)%nat with (length (@nil block) + S (2 * size (h_mem h) + 7))%nat by (simpl; lia).
      now apply Hf. }
    rewrite app_assoc, last_addr_snoc.
    replace (2 * size (h_mem h) + 8)%nat
      with (length Lb + S (length L1 + S (2 * size (h_mem h) + 6 - length Lb - length L1)))%nat by lia.
    rewrite (free_walk_above _ _ _ _ base).
    + now apply (free_from_below [] L1 ((l ++ [c]) ++ Lb)).
    + apply sorted_from in Hs. now rewrite app_assoc, last_addr_snoc in Hs.
    + specialize (H2 c ltac:(set_solver)). unfold block_end, HEADER in H2. simpl in H2. lia.
    + unfold HEADER in Hb. lia.
    + apply chain_from in Hc. now rewrite app_assoc, last_addr_snoc in Hc.
Qed.

(** The first join: the block, or the block and its successor. *)
Lemma join_next_run p L2 :
  ptr p h = match L2 with [] => base | c :: _ => c.1 end -> apart p bp ->
  chain h p L2 base -> sorted (bp + HEADER * n) L2 -> (forall x, x ∈ L2 -> block_end x <= h_brk h) ->
  h_brk h <= KERNBASE -> 
  exists h' m L2', join_next p bp h = Done tt h' /\ h_freep h' = h_freep h /\ h_brk h' = h_brk h /\
    (forall w, clear_of w bp -> same_word h h' w) /\
    size_of bp h' = m /\ chain h' bp L2' base /\ sorted (bp + HEADER * m) L2' /\
    joined_next bp n L2 m L2'.
Proof.
  intros Hq Hap Hc Hs Hbr Hk. destruct free_block as (Hb & Hn & He & Hz). pose proof (ok_base _ _ _ _ ok) as [Hb0 _].
  unfold join_next. rewrite !bind_gets, Hz. unfold KERNBASE, HEADER in *.
  rewrite (u32_small (bp + 8 * n)) by lia. rewrite Hq.
  destruct (Z.eqb_spec (bp + 8 * n) (match L2 with [] => base | c :: _ => c.1 end)) as [Heq|Hne].
  - destruct L2 as [|[c k] L2]; [lia|]. cbn [fst] in *. destruct Hc as (C1 & C2 & C3), Hs as (S1 & S2 & S3).
    cbn [fst snd] in *. pose proof (Hbr (c, k) ltac:(constructor)) as Hbc. unfold block_end, HEADER in *. cbn [fst snd] in *.
    rewrite bind_gets. unfold set_size, set_ptr. rewrite bind_modify, bind_gets, bind_gets. unfold modify.
    rewrite C2, (u32_small (n + k)) by lia. hsimp. rewrite (ptr_set_ne p), Hq by lia. hsimp.
    eexists _, (n + k), L2. split; [reflexivity|]. split; [done|]. split; [done|].
    split; [intros w Hw; wsimp|]. split; [hsimp; done|]. split; [|split; [|right; exists k; unfold HEADER; rewrite Heq; by split_and!]].
    + apply (chain_frame h _ bp c); [done|now hsimp|]. intros x Hx.
      destruct (sorted_elem _ _ _ S3 Hx). split; hsimp; done.
    + eapply sorted_weaken; [|exact S3]. lia.
  - unfold set_ptr, modify. eexists _, n, L2. split; [reflexivity|]. split; [done|]. split; [done|].
    split; [intros w Hw; wsimp|]. split; [now hsimp|].
    split; [|split; [done|left; split; [done|split; [done|]]]];
      [|destruct L2 as [|c L2]; intros y Hy; [set_solver|]; apply elem_of_cons in Hy as [->|Hy]; [done|];
        destruct Hs as (S1 & S2 & S3), (sorted_elem _ _ _ S3 Hy); blia].
    apply (chain_frame h _ bp p); [done|now hsimp; rewrite Hq|]. intros x Hx.
    destruct (sorted_elem _ _ _ Hs Hx). split; hsimp; done.
Qed.

(** The second join: into the predecessor, or behind it. *)
Lemma join_prev_run h1 m L1 L2 :
  size_of bp h1 = m -> 0 < m -> bp + HEADER * m <= KERNBASE -> chain h1 bp L2 base -> sorted (bp + HEADER * m) L2 ->
  chain h1 base L1 (ptr (last_addr base L1) h1) -> size_of base h1 = 0 ->
  sorted (base + HEADER) L1 -> (forall x, x ∈ L1 -> block_end x <= bp) ->
  exists h' L1' M, join_prev (last_addr base L1) bp h1 = Done tt h' /\ h_freep h' = h_freep h1 /\ h_brk h' = h_brk h1 /\
    (forall w, clear_of w (last_addr base L1) -> same_word h1 h' w) /\ size_of base h' = 0 /\
    chain h' base (L1' ++ M :: L2) base /\
    joined_prev bp m L1 M L1'.
Proof.
  intros Hz Hm He Hc2 Hs2 Hc1 Hz0 Hs1 H1. destruct free_block as (Hb & Hn & _). pose proof (ok_base _ _ _ _ ok) as [Hb0 _].
  unfold join_prev, KERNBASE in *. rewrite bind_gets.
  destruct L1 as [|[a k] L1 _] using rev_ind.
  - cbn [last_addr] in *. rewrite Hz0. unfold HEADER in *. rewrite u32_small by lia.
    destruct (Z.eqb_spec (base + 8 * 0) bp) as [?|_]; [lia|]. unfold set_ptr, modify.
    eexists _, [], (bp, m). split; [reflexivity|]. split; [done|]. split; [done|].
    split; [intros w Hw; wsimp|]. split; [now hsimp|]. split; [|left; set_solver]. cbn [app chain fst snd].
    split; [now hsimp|]. split; [now hsimp|]. apply (chain_frame h1 _ bp bp); [done|now hsimp|].
    intros x Hx. destruct (sorted_elem _ _ _ Hs2 Hx). split; hsimp; done.
  - rewrite last_addr_snoc in *. cbn [fst] in *. apply chain_app in Hc1 as (e & Hc1 & -> & Ha & Hq). cbn [fst snd] in *.
    apply sorted_app in Hs1 as (Hsl & Hsa & Hsla). destruct Hsa as (Hsa & Hk & _). cbn [fst snd] in *.
    pose proof (H1 (a, k) ltac:(set_solver)) as Hak. unfold block_end, HEADER in *. cbn [fst snd] in *.
    assert (Hfr : forall x, x ∈ L1 -> x.1 + 8 <= a).
    { intros x Hx. specialize (Hsla x (a, k) Hx ltac:(constructor)). destruct (sorted_elem _ _ _ Hsl Hx). cbn [fst] in Hsla. lia. }
    rewrite Ha, u32_small by lia. destruct (Z.eqb_spec (a + 8 * k) bp) as [Heq|Hne].
    + rewrite bind_gets. unfold set_size, set_ptr. rewrite bind_modify, bind_gets. unfold modify.
      rewrite Hz, (u32_small (k + m)), ptr_set_ne by lia.
      eexists _, L1, (a, k + m). split; [reflexivity|]. split; [done|]. split; [done|].
      split; [intros w Hw; wsimp|]. split; [now hsimp|].
      split; [|right; exists a, k; by split_and!]. apply chain_app. exists a. cbn [fst snd].
      split; [|split; [done|split; [now hsimp|]]].
      * apply (chain_frame h1 _ base base); [done|now hsimp|]. intros x Hx. specialize (Hfr x Hx). split; hsimp; done.
      * apply (chain_frame h1 _ a bp); [done|now hsimp|]. intros x Hx. destruct (sorted_elem _ _ _ Hs2 Hx). split; hsimp; done.
    + unfold set_ptr, modify. eexists _, (L1 ++ [(a, k)]), (bp, m). split; [reflexivity|]. split; [done|]. split; [done|].
      split; [intros w Hw; wsimp|]. split; [now hsimp|].
      split; [|left; split; [done|split; [done|]]; intros x [Hx| ->%list_elem_of_singleton]%elem_of_app;
        [specialize (Hsla x (a, k) Hx ltac:(constructor)); unfold block_end, HEADER; cbn [fst] in Hsla; lia|done]].
      rewrite <- app_assoc. apply chain_app. exists a. cbn [fst snd app].
      split; [|split; [done|split; [now hsimp|]]].
      * apply (chain_frame h1 _ base base); [done|now hsimp|]. intros x Hx. specialize (Hfr x Hx). split; hsimp; done.
      * cbn [chain fst snd]. split; [now hsimp|]. split; [now hsimp|].
        apply (chain_frame h1 _ bp bp); [done|now hsimp|]. intros x Hx. destruct (sorted_elem _ _ _ Hs2 Hx). split; hsimp; done.
Qed.

(** The ring after [free]. *)
Lemma free_shape :
  exists h' L1 L2 L1' L2' b m, free (bp + HEADER) h = Done tt h' /\ h_brk h' = h_brk h /\
    h_freep h' = last_addr base L1 /\ size_of base h' = 0 /\ chain h' base (L1' ++ b :: L2') base /\
    (forall w, clear_of w bp -> clear_of w (last_addr base L1) -> same_word h h' w) /\
    L = L1 ++ L2 /\ (forall x, x ∈ L1 -> block_end x <= bp) /\ (forall x, x ∈ L2 -> bp + HEADER * n <= x.1) /\
    joined_next bp n L2 m L2' /\ joined_prev bp m L1 b L1'.
Proof.
  destruct free_block as (Hb & Hn & He & Hz), free_finds as (L1 & L2 & HL & H1 & H2 & Hrun).
  pose proof (ok_sorted _ _ _ _ ok) as Hs. pose proof (ok_chain _ _ _ _ ok) as Hc.
  pose proof (ok_brk _ _ _ _ ok) as [_ Hbrk]. pose proof (ok_base _ _ _ _ ok) as [Hb0 Hz0].
  rewrite HL in Hs, Hc. pose proof (chain_from _ _ _ _ _ Hc) as Hc2. apply chain_app in Hc as (e & Hc1 & He2).
  pose proof (chain_last _ _ _ _ Hc1) as Hpq. apply sorted_app in Hs as (Hs1 & Hs2 & Hs3).
  assert (Hpb : last_addr base L1 + HEADER <= bp).
  { destruct (last_addr_cases base L1) as [->|(x & Hx & ->)]; [done|].
    destruct (sorted_elem _ _ _ Hs1 Hx). specialize (H1 x Hx). blia. }
  destruct (join_next_run (last_addr base L1) L2) as (h1 & m & L2' & R1 & F1 & B1 & K1 & Z1 & C1 & S1 & J1); try done.
  { rewrite Hpq. destruct L2; [done|]. apply He2. }
  { now left. }
  { destruct L2 as [|c L2']; [done|]. destruct Hs2 as (_ & ? & ?). split; [apply H2; constructor|done]. }
  { intros x Hx. apply (ok_below _ _ _ _ ok). set_solver. }
  assert (Hne : (forall x, x ∈ L1 ++ L2 -> block_end x <= h_brk h)) by (rewrite <- HL; apply (ok_below _ _ _ _ ok)).
  assert (Hm : n <= m /\ bp + HEADER * m <= KERNBASE).
  { destruct J1 as [(-> & _)|(k & -> & Hk & ->)]; [lia|]. specialize (Hne _ (proj2 (elem_of_app _ _ _) (or_intror (list_elem_of_here _ _)))).
    blia. }
  destruct (join_prev_run h1 m L1 L2') as (h2 & L1' & b & R2 & F2 & B2 & K2 & Z2 & C2 & J2); try done; try lia.
  { apply (chain_frame h _ base base); [rewrite (proj1 (same_keeps _ _ _ (last_addr base L1) K1 ltac:(now left))), Hpq; done| |].
    - apply (same_keeps _ _ _ base K1). now left.
    - intros x Hx. apply (same_keeps _ _ _ _ K1). left. destruct (sorted_elem _ _ _ Hs1 Hx). specialize (H1 x Hx).
      blia. }
  { rewrite (proj2 (same_keeps _ _ _ base K1 ltac:(now left))). done. }
  eexists (mkHeap (h_mem h2) (last_addr base L1) (h_brk h2)), L1, L2, L1', L2', b, m.
  split.
  { unfold free. rewrite (u32_small (bp + HEADER - HEADER)) by (unfold HEADER, KERNBASE in *; lia).
    replace (bp + HEADER - HEADER) with bp by lia.
    rewrite !bind_gets, (bind_done _ _ _ _ _ Hrun), (bind_done _ _ _ _ _ R1), (bind_done _ _ _ _ _ R2). reflexivity. }
  split; [cbn; congruence|]. split; [done|]. split; [done|].
  split; [now apply (chain_frame h2 _ base base)|]. split; [|done].
  intros w Hx Hp. exact (eq_trans (K2 w Hp) (K1 w Hx)).
Qed.

(** [free] joins the block to the free blocks next to it and keeps the others. *)
Lemma free_run :
  exists h' L', free (bp + HEADER) h = Done tt h' /\ heap_ok base h' L' A /\ h_brk h' = h_brk h /\
    (forall z, Exists (within z) L' <-> Exists (within z) L \/ within z (bp, n)) /\
    (exists b, b ∈ L' /\ b.1 <= bp /\ bp + HEADER * n <= block_end b) /\
    (length L' <= S (length L))%nat /\
    (forall w, clear_of w base -> ~ Exists (within w) L -> ~ within w (bp, n) -> same_word h h' w).
Proof.
  destruct free_shape as (h' & L1 & L2 & L1' & L2' & b & m & Hrun & Hbrk & Hfp & Hz0 & Hc & Hk & HL & H1 & H2 & Hj1 & Hj2).
  destruct free_block as (Hb & Hn & He & Hz). pose proof (ok_sorted _ _ _ _ ok) as Hs. rewrite HL in Hs.
  assert (Hbd : forall x, x ∈ A -> disj (bp, n) x).
  { intros x Hx. pose proof (ok_used_disj _ _ _ _ ok) as Hd. inversion Hd as [|?? Hd' _]; subst.
    rewrite Forall_forall in Hd'. auto. }
  assert (Hap1 : forall x, x ∈ A -> apart x.1 bp).
  { intros x Hx. destruct (ok_used _ _ _ _ ok x) as (U1 & U2 & _); [set_solver|].
    specialize (Hbd x Hx). blia. }
  assert (Hap2 : forall x, x ∈ A -> apart x.1 (last_addr base L1)).
  { intros x Hx. destruct (ok_used _ _ _ _ ok x) as (U1 & U2 & _); [set_solver|].
    destruct (last_addr_cases base L1) as [->|(y & Hy & ->)]; [now right|].
    destruct (sorted_elem _ _ y Hs) as [_ Hy2]; [set_solver|].
    destruct (ok_free_used _ _ _ _ ok y x) as [Hd|Hd]; [set_solver|set_solver| |]; blia. }
  assert (Hel : forall x, x ∈ L1' ++ b :: L2' -> x = b \/ x ∈ L) by (intros x Hx; rewrite HL; eapply joined_elem; eauto).
  assert (Hkp : forall x, apart x bp -> apart x (last_addr base L1) -> keeps h h' x).
  { intros x Hx Hx'. unfold keeps, ptr, size_of. unfold apart, clear_of, HEADER in *. rewrite !Hk by lia. done. }
  exists h', (L1' ++ b :: L2'). split; [done|].
  split; [|split; [done|split; [intros z; rewrite HL; eapply joined_within; eauto|split; [|split]]]].
  2: { exists b. split; [set_solver|]. eapply joined_covers; eauto. }
  2: { rewrite HL. eapply joined_length; eauto. }
  2: { intros w Hw HwL Hwb. apply Hk; [blia|].
       destruct (last_addr_cases base L1) as [->|(x & Hx & ->)]; [done|]. destruct (sorted_elem _ _ x Hs) as [_ Hx2]; [set_solver|].
       destruct (Z.lt_ge_cases w x.1); [now left|right]. destruct (Z.le_gt_cases (x.1 + HEADER) w); [done|].
       destruct HwL. apply Exists_exists. exists x. split; [set_solver|]. blia. }
  split.
  - split; [apply (ok_base _ _ _ _ ok)|done].
  - done.
  - eapply joined_sorted; eauto.
  - rewrite Hfp. destruct Hj2 as [(-> & -> & _)|(a & k & -> & -> & _)].
    + destruct (last_addr_cases base L1) as [->|(x & Hx & ->)]; [now left|right]. set_solver.
    + right. rewrite last_addr_snoc, fmap_app. apply elem_of_app. right. constructor.
  - rewrite Hbrk. apply (ok_brk _ _ _ _ ok).
  - intros x [->|Hx]%Hel; rewrite Hbrk; [|now apply (ok_below _ _ _ _ ok)].
    eapply joined_end; eauto. rewrite <- HL. apply (ok_below _ _ _ _ ok).
  - intros x Hx. destruct (ok_used _ _ _ _ ok x) as (U1 & U2 & U3 & U4); [set_solver|]. rewrite Hbrk.
    split; [done|]. split; [done|]. split; [done|]. rewrite (proj2 (Hkp x.1 (Hap1 x Hx) (Hap2 x Hx))). done.
  - pose proof (ok_used_disj _ _ _ _ ok) as Hd. now inversion Hd.
  - intros x y [->|Hx]%Hel Hy.
    + eapply joined_disj; eauto; [apply (ok_used _ _ _ _ ok); now constructor|].
      rewrite <- HL. intros x Hx. apply (ok_free_used _ _ _ _ ok); [done|now constructor].
    + apply (ok_free_used _ _ _ _ ok); [done|now constructor].
  - eapply joined_gaps; eauto. rewrite <- HL. apply (ok_gaps _ _ _ _ ok).
Qed.
End Free.

(** ** [malloc] *)
(** Two headers of a heap, of free or of used blocks, are the same or apart. *)
Definition headers (base : Z) (L A : list block) : list Z := base :: (L ++ A).*1.
Lemma sorted_apart lo L x y : sorted lo L -> x ∈ L -> y ∈ L -> x.1 = y.1 \/ apart x.1 y.1.
Proof.
  revert lo. induction L as [|b L IH]; simpl; intros lo Hs Hx Hy; [set_solver|]. destruct Hs as (S1 & S2 & S3).
  apply elem_of_cons in Hx as [->|Hx], Hy as [->|Hy]; [now left| | |eauto];
    [destruct (sorted_elem _ _ _ S3 Hy)|destruct (sorted_elem _ _ _ S3 Hx)]; right; blia.
Qed.
Lemma all_disj_cases A x y : all_disj A -> x ∈ A -> y ∈ A -> x = y \/ disj x y.
Proof.
  induction 1 as [|b A Hb Hd IH]; [set_solver|]. rewrite Forall_forall in Hb.
  intros [->|Hx]%elem_of_cons [->|Hy]%elem_of_cons; [now left|right; auto| |auto].
  right. specialize (Hb x Hx). unfold disj in *. lia.
Qed.
Lemma headers_apart base h L A x y :
  heap_ok base h L A -> x ∈ headers base L A -> y ∈ headers base L A -> x = y \/ apart x y.
Proof.
  intros ok. assert (Hb : forall z, z ∈ L ++ A -> base + HEADER <= z.1 /\ 0 < z.2).
  { intros z [Hz|Hz]%elem_of_app; [now apply (sorted_elem _ _ _ (ok_sorted _ _ _ _ ok))|].
    destruct (ok_used _ _ _ _ ok z Hz) as (U1 & U2 & _). done. }
  unfold headers. intros [->|Hx]%elem_of_cons [->|Hy]%elem_of_cons; [now left| | |].
  1: apply list_elem_of_fmap in Hy as (b & -> & Hy); right; left; now apply Hb.
  1: apply list_elem_of_fmap in Hx as (b & -> & Hx); right; right; now apply Hb.
  apply list_elem_of_fmap in Hx as (b & -> & Hx), Hy as (c & -> & Hy).
  pose proof (Hb _ Hx) as [_ Hbp]. pose proof (Hb _ Hy) as [_ Hcp].
  apply elem_of_app in Hx as [Hx|Hx], Hy as [Hy|Hy].
  - now apply (sorted_apart _ _ _ _ (ok_sorted _ _ _ _ ok)).
  - right. destruct (ok_free_used _ _ _ _ ok b c Hx Hy); blia.
  - right. destruct (ok_free_used _ _ _ _ ok c b Hy Hx); blia.
  - destruct (all_disj_cases A b c (ok_used_disj _ _ _ _ ok) Hx Hy) as [->|Hd]; [now left|right].
    blia.
Qed.

(** Writing the pointer of the last header of a chain redirects it. *)
Lemma chain_redirect h a L e e' :
  sorted (a + HEADER) L -> chain h a L e -> chain (set_mem (last_addr a L) e' h) a L e'.
Proof.
  intros Hs Hc. destruct L as [|b L _] using rev_ind; [apply ptr_set|].
  rewrite last_addr_snoc. apply chain_app in Hc as (m & Hc & -> & Hz & _). apply chain_app. exists b.1.
  apply sorted_app in Hs as (S1 & (S2 & S3 & _) & S4). unfold HEADER in *.
  split; [|split; [done|split; [now hsimp|apply ptr_set]]].
  apply (chain_frame h _ a a); [done|now hsimp|]. intros x Hx.
  specialize (S4 x b Hx ltac:(constructor)). destruct (sorted_elem _ _ _ S1 Hx). unfold block_end in *.
  split; hsimp; done.
Qed.

Section Take.
Context (base : Z) (h : heap) (A M1 M2 : list block) (p n : Z).
Hypothesis ok : heap_ok base h (M1 ++ (p, n) :: M2) A.

Lemma take_facts :
  base + HEADER <= p /\ 0 < n /\ p + HEADER * n <= h_brk h /\ h_brk h <= KERNBASE /\ size_of p h = n /\
  sorted (base + HEADER) M1 /\ sorted (p + HEADER * n) M2 /\ (forall x, x ∈ M1 -> block_end x <= p) /\
  chain h base M1 p /\ chain h p M2 base.
Proof.
  destruct (sorted_elem _ _ (p, n) (ok_sorted _ _ _ _ ok)) as [Hp Hn]; [set_solver|].
  pose proof (ok_below _ _ _ _ ok (p, n) ltac:(set_solver)) as Hb.
  pose proof (ok_chain _ _ _ _ ok) as Hc. apply chain_app in Hc as (e & Hc & -> & Hz & Hc2).
  pose proof (ok_sorted _ _ _ _ ok) as Hs. apply sorted_app in Hs as (S1 & S2 & S3).
  split_and!; try done; [apply (ok_brk _ _ _ _ ok)|apply S2|].
  intros x Hx. apply (S3 x (p, n) Hx). constructor.
Qed.
Lemma prev_in_ring : last_addr base M1 ∈ base :: M1.*1.
Proof.
  destruct (last_addr_cases base M1) as [->|(x & Hx & ->)]; [constructor|]. right.
  apply list_elem_of_fmap. eauto.
Qed.
(** Blocks in use stay disjoint from a part of a free block. *)
Lemma part_disj r k y : p <= r -> r + HEADER * k = p + HEADER * n -> y ∈ A -> disj (r, k) y.
Proof.
  intros Hr He Hy. destruct (ok_free_used _ _ _ _ ok (p, n) y) as [Hd|Hd]; [set_solver|done| |];
    blia.
Qed.

Lemma take_exact_ok :
  heap_ok base (mkHeap (<[last_addr base M1 := ptr p h]> (h_mem h)) (last_addr base M1) (h_brk h)) (M1 ++ M2) ((p, n) :: A).
Proof.
  destruct take_facts as (Hp & Hn & He & Hk & Hz & S1 & S2 & H1 & C1 & C2). pose proof prev_in_ring as Hpr.
  set (q := last_addr base M1) in *. set (h' := mkHeap _ _ _).
  assert (Hq : q ∈ headers base (M1 ++ (p, n) :: M2) A).
  { unfold headers. rewrite !fmap_app. clear -Hpr. set_solver. }
  assert (Hkp : forall x, x ∈ headers base (M1 ++ (p, n) :: M2) A -> (x <> q -> ptr x h' = ptr x h) /\ size_of x h' = size_of x h).
  { intros x Hx. destruct (headers_apart _ _ _ _ x q ok Hx Hq) as [->|Hap]; split; try done; intros;
      [apply size_set_ne; lia|apply ptr_set_ne; done|apply size_set_ne; blia]. }
  assert (Hsub : forall x, x ∈ M1 ++ M2 -> x ∈ M1 ++ (p, n) :: M2) by (clear; set_solver).
  assert (Hqp : q + HEADER <= p).
  { destruct (last_addr_cases base M1) as [Eq|(x & Hx & Eq)]; fold q in Eq; [lia|].
    destruct (sorted_elem _ _ _ S1 Hx). specialize (H1 x Hx). blia. }
  split.
  - split; [apply (ok_base _ _ _ _ ok)|]. rewrite (proj2 (Hkp base ltac:(constructor))). apply (ok_base _ _ _ _ ok).
  - apply chain_app. exists (ptr p h). split.
    { apply (chain_frame (set_mem q (ptr p h) h) _ base base); [exact (chain_redirect _ _ _ _ _ S1 C1)|done|done]. }
    destruct M2 as [|c M2']; [done|]. destruct C2 as (-> & Hc & C2), S2 as (S2 & S3 & S4). split; [done|].
    assert (Hc' : forall x, x ∈ c :: M2' -> keeps h h' x.1).
    { intros x Hx. assert (Hxh : x.1 ∈ headers base (M1 ++ (p, n) :: c :: M2') A).
      { right. apply list_elem_of_fmap. exists x. split; [done|]. clear -Hx. set_solver. }
      destruct (Hkp _ Hxh) as [K1 K2]. split; [|done]. apply K1. destruct (sorted_elem _ (c :: M2') x (conj S2 (conj S3 S4)) Hx).
      blia. }
    split; [rewrite (proj2 (Hc' c ltac:(constructor))); done|].
    apply (chain_frame h _ c.1 c.1); [done|apply (Hc' c ltac:(constructor))|]. intros x Hx. apply Hc'. now constructor.
  - apply sorted_app. split; [done|]. split; [eapply sorted_weaken; [|exact S2]; blia|].
    intros x y Hx Hy. specialize (H1 x Hx). destruct (sorted_elem _ _ _ S2 Hy). blia.
  - apply elem_of_cons in Hpr as [Eq|Hpr]; [now left|right]. cbn. rewrite fmap_app. now apply elem_of_app; left.
  - apply (ok_brk _ _ _ _ ok).
  - intros x Hx. apply (ok_below _ _ _ _ ok). auto.
  - intros x Hx. assert (Hxh : x.1 ∈ headers base (M1 ++ (p, n) :: M2) A).
    { right. apply list_elem_of_fmap. exists x. split; [done|]. clear -Hx. set_solver. }
    rewrite (proj2 (Hkp _ Hxh)). apply elem_of_cons in Hx as [->|Hx]; [done|]. now apply (ok_used _ _ _ _ ok).
  - constructor; [|apply (ok_used_disj _ _ _ _ ok)]. apply Forall_forall. intros y Hy. now apply part_disj.
  - intros x y Hx [->|Hy]%elem_of_cons; [|now apply (ok_free_used _ _ _ _ ok); auto].
    apply elem_of_app in Hx as [Hx|Hx]; [left; now apply H1|right; now destruct (sorted_elem _ _ _ S2 Hx)].
  - intros x y Hx Hy. apply (ok_gaps _ _ _ _ ok); auto.
Qed.

Section Split.
Context (u : Z).
Hypothesis Hu : 0 < u < n.
Let r := p + HEADER * (n - u).
Let h' := mkHeap (<[r + 4 := u]> (<[p + 4 := n - u]> (h_mem h))) (last_addr base M1) (h_brk h).

Lemma split_keeps x : apart x p -> apart x r -> keeps h h' x.
Proof.
  intros Hxp Hxr. change (keeps h (set_mem (r + 4) u (set_mem (p + 4) (n - u) h)) x).
  split; hsimp; done.
Qed.
Lemma split_sizes : size_of p h' = n - u /\ ptr p h' = ptr p h /\ size_of r h' = u.
Proof.
  assert (Hr : p + HEADER <= r) by (unfold r; blia).
  change h' with (mkHeap (h_mem (set_mem (r + 4) u (set_mem (p + 4) (n - u) h))) (last_addr base M1) (h_brk h)). clearbody r.
  unfold ptr, size_of, set_mem. cbn [h_mem]. unfold HEADER in *.
  repeat first [rewrite lookup_insert_eq | rewrite lookup_insert_ne by lia]. done.
Qed.
Lemma split_elem x :
  x ∈ M1 ++ (p, n - u) :: M2 -> exists y, y ∈ M1 ++ (p, n) :: M2 /\ y.1 = x.1 /\ block_end x <= block_end y.
Proof.
  intros [Hx|[->|Hx]%elem_of_cons]%elem_of_app; [exists x; set_solver| |exists x; set_solver].
  exists (p, n). split; [set_solver|]. blia.
Qed.
Lemma split_chain : chain h' base (M1 ++ (p, n - u) :: M2) base.
Proof.
  destruct take_facts as (Hp & Hn & He & Hk & Hz & S1 & S2 & H1 & C1 & C2), split_sizes as (Hzp & Hpp & Hzr).
  assert (Hr : p + HEADER <= r <= p + HEADER * (n - 1)) by (unfold r; blia).
  apply chain_app. exists p. split; [|split; [done|split; [done|]]].
  - apply (chain_frame h _ base base); [done|apply split_keeps; left; blia|]. intros x Hx.
    specialize (H1 x Hx). destruct (sorted_elem _ _ _ S1 Hx). apply split_keeps; left; blia.
  - apply (chain_frame h _ p p); [done|done|]. intros x Hx.
    destruct (sorted_elem _ _ _ S2 Hx). apply split_keeps; right; blia.
Qed.
Lemma split_gaps x y : x ∈ M1 ++ (p, n - u) :: M2 -> y ∈ M1 ++ (p, n - u) :: M2 -> block_end x <> y.1.
Proof.
  destruct take_facts as (_ & Hn & _ & _ & _ & S1 & S2 & H1 & _).
  intros Hx (z & Hz' & <- & _)%split_elem. apply elem_of_app in Hx as [Hx|[->|Hx]%elem_of_cons];
    [apply (ok_gaps _ _ _ _ ok); set_solver| |apply (ok_gaps _ _ _ _ ok); set_solver].
  apply elem_of_app in Hz' as [Hx|[->|Hx]%elem_of_cons]; [|blia|].
  - specialize (H1 z Hx). destruct (sorted_elem _ _ _ S1 Hx). blia.
  - destruct (sorted_elem _ _ _ S2 Hx). blia.
Qed.

Lemma take_split_ok : heap_ok base h' (M1 ++ (p, n - u) :: M2) ((r, u) :: A).
Proof.
  destruct take_facts as (Hp & Hn & He & Hk & Hz & S1 & S2 & H1 & C1 & C2). pose proof prev_in_ring as Hpr.
  assert (Hr : p + HEADER <= r) by (unfold r; blia). assert (Hre : r + HEADER * u = p + HEADER * n) by (unfold r; blia).
  split.
  - split; [apply (ok_base _ _ _ _ ok)|]. rewrite (proj2 (split_keeps base ltac:(now left) ltac:(left; blia))). apply (ok_base _ _ _ _ ok).
  - apply split_chain.
  - apply sorted_app. split; [done|]. cbn [sorted fst snd]. split.
    + split; [done|]. split; [lia|]. eapply sorted_weaken; [|exact S2]. blia.
    + intros x y Hx [->|Hy]%elem_of_cons; [now apply H1|]. specialize (H1 x Hx). destruct (sorted_elem _ _ _ S2 Hy). blia.
  - apply elem_of_cons in Hpr as [Eq|Hpr]; [now left|right]. cbn. rewrite fmap_app. now apply elem_of_app; left.
  - apply (ok_brk _ _ _ _ ok).
  - intros x (y & Hy & _ & Hxy)%split_elem. apply (ok_below _ _ _ _ ok) in Hy. cbn. lia.
  - intros x [->|Hx]%elem_of_cons; [cbn [fst snd h_brk h']; split_and!; try blia; apply split_sizes|].
    destruct (ok_used _ _ _ _ ok x Hx) as (U1 & U2 & U3 & U4). split_and!; try done.
    pose proof (part_disj p n x (Z.le_refl p) eq_refl Hx) as D1. pose proof (part_disj r u x ltac:(blia) Hre Hx) as D2.
    rewrite (proj2 (split_keeps x.1 ltac:(blia) ltac:(blia))). done.
  - constructor; [|apply (ok_used_disj _ _ _ _ ok)]. apply Forall_forall. intros y Hy. apply part_disj; [blia|done|done].
  - intros x y Hx [->|Hy]%elem_of_cons.
    + apply elem_of_app in Hx as [Hx|[->|Hx]%elem_of_cons]; [specialize (H1 x Hx); blia|blia|].
      destruct (sorted_elem _ _ _ S2 Hx). blia.
    + apply split_elem in Hx as (z & Hz' & Hzx & Hze). pose proof (ok_free_used _ _ _ _ ok z y Hz' Hy). blia.
  - apply split_gaps.
Qed.
End Split.

(** What [malloc] takes is the end of a free block. *)
Lemma take_run u :
  0 < u <= n ->
  exists h' L' r, take_block u (last_addr base M1) p h = Done (r + HEADER) h' /\ h_brk h' = h_brk h /\
    heap_ok base h' L' ((r, u) :: A) /\ p <= r /\ r + HEADER * u = p + HEADER * n /\
    (forall w, clear_of w base -> ~ Exists (within w) (M1 ++ (p, n) :: M2) -> same_word h h' w).
Proof.
  intros Hu. destruct take_facts as (Hp & Hn & He & Hk & Hz & S1 & _).
  pose proof (ok_base _ _ _ _ ok) as [Hb0 _]. unfold HEADER, KERNBASE in *.
  unfold take_block, set_size, set_ptr, set_freep. rewrite bind_gets, Hz. destruct (Z.eqb_spec n u) as [<-|Hne].
  - eexists _, _, p. split; [|split; [|split; [apply take_exact_ok|split; [lia|split; [lia|]]]]]; [|done|].
    + unfold bind, gets, modify, ret. cbn [prog_bind]. rewrite u32_small by (unfold HEADER; lia). reflexivity.
    + intros w Hw Hno. unfold same_word. cbn. rewrite lookup_insert_ne; [done|]. intros <-.
      destruct (last_addr_cases base M1) as [Eq|(x & Hx & Eq)]; rewrite Eq in *; [unfold clear_of, HEADER in Hw; lia|].
      destruct Hno. apply Exists_app. left. apply Exists_exists. exists x. split; [done|].
      destruct (sorted_elem _ _ _ S1 Hx). unfold within, block_end, HEADER. lia.
  - eexists _, _, (p + HEADER * (n - u)).
    split; [|split; [|split; [apply take_split_ok; lia|split; [unfold HEADER; lia|split; [unfold HEADER; lia|]]]]]; [|done|].
    + unfold bind, gets, modify, ret. cbn [prog_bind].
      rewrite (u32_small (n - u)), (u32_small (p + _)), u32_small by (unfold HEADER; lia). reflexivity.
    + intros w Hw Hno. unfold same_word. cbn.
      assert (Hp' : ~ within w (p, n)) by (intros Hin; apply Hno, Exists_app; right; now left).
      unfold within, block_end, HEADER in *. cbn [fst snd] in *. rewrite !lookup_insert_ne by lia. done.
Qed.
End Take.

(** ** The search *)
(** The first block that fits, if any. *)
Lemma first_fit (u : Z) (M : list block) :
  (forall x, x ∈ M -> x.2 < u) \/
  exists M1 b M2, M = M1 ++ b :: M2 /\ u <= b.2 /\ (forall x, x ∈ M1 -> x.2 < u).
Proof.
  induction M as [|b M IH]; [left; set_solver|]. destruct (Z.le_gt_cases u b.2) as [Hb|Hb].
  - right. exists [], b, M. set_solver.
  - destruct IH as [IH|(M1 & c & M2 & -> & Hc & HM)].
    + left. intros x [->|Hx]%elem_of_cons; [lia|auto].
    + right. exists (b :: M1), c, M2. split; [done|]. split; [done|].
      intros x [->|Hx]%elem_of_cons; [lia|auto].
Qed.

Section Search.
Context (grant : Z -> Z -> bool) (base : Z) (h : heap) (L A : list block) (u : Z).
Hypothesis ok : heap_ok base h L A.
Hypothesis Hu : 0 < u.

Lemma malloc_next k prev p :
  size_of p h < u -> p <> h_freep h ->
  malloc_loop grant (S k) u prev p h = malloc_loop grant k u p (ptr p h) h.
Proof.
  intros Hz Hp. cbn [malloc_loop]. rewrite bind_gets. destruct (Z.leb_spec u (size_of p h)); [lia|].
  rewrite bind_gets. destruct (Z.eqb_spec p (h_freep h)); [done|]. now rewrite bind_gets.
Qed.
(** Over free blocks none of which fits. *)
Lemma malloc_walk prev M e k :
  chain h prev M e -> (forall x, x ∈ M -> x.2 < u /\ x.1 <> h_freep h) ->
  malloc_loop grant (length M + k) u prev (ptr prev h) h = malloc_loop grant k u (last_addr prev M) e h.
Proof.
  revert prev. induction M as [|b M IH]; intros prev Hc HM; [simpl in *; now rewrite Hc|].
  destruct Hc as (-> & Hz & Hc), (HM b ltac:(constructor)) as [Hb Hf].
  cbn [length Nat.add last_addr]. rewrite malloc_next by lia. apply IH; [done|]. intros x Hx. apply HM. now constructor.
Qed.

(** The search from [freep] stops at a block that fits, after its
    predecessor, or comes back to [freep] when none fits. *)
Lemma malloc_search :
  (exists M1 b M2 c, L = M1 ++ b :: M2 /\ u <= b.2 /\ (c <= length L + 1)%nat /\
    forall k, malloc_loop grant (c + k) u (h_freep h) (ptr (h_freep h) h) h =
              malloc_loop grant k u (last_addr base M1) b.1 h) \/
  ((forall x, x ∈ L -> x.2 < u) /\ exists c prev, (c <= length L + 1)%nat /\
    forall k, malloc_loop grant (c + k) u (h_freep h) (ptr (h_freep h) h) h =
              malloc_loop grant k u prev (h_freep h) h).
Proof.
  destruct (ring_split base (h_freep h) L) as (La & Lb & HL & Hp); [apply (ok_freep _ _ _ _ ok)|].
  pose proof (ok_chain _ _ _ _ ok) as Hc. pose proof (ok_sorted _ _ _ _ ok) as Hs. rewrite HL in Hc, Hs.
  pose proof (chain_from _ _ _ _ _ Hc) as Hcb. pose proof (sorted_from _ _ _ Hs) as Hsb. rewrite <- Hp in Hcb, Hsb.
  assert (Hfb : forall x, x ∈ Lb -> x.1 <> h_freep h).
  { intros x Hx. destruct (sorted_elem _ _ _ Hsb Hx). blia. }
  destruct (first_fit u Lb) as [Hno|(N1 & b & N2 & -> & Hb & HN)].
  2: { left. exists (La ++ N1), b, N2, (length N1). rewrite <- app_assoc, last_addr_app, <- Hp. split; [done|]. split; [done|].
       split; [rewrite HL, !length_app; lia|]. intros k. apply chain_app in Hcb as (e & Hcb & -> & _).
       apply malloc_walk; [done|]. intros x Hx. split; [auto|apply Hfb; set_solver]. }
  assert (Hwb : forall k, malloc_loop grant (length Lb + k) u (h_freep h) (ptr (h_freep h) h) h =
    malloc_loop grant k u (last_addr (h_freep h) Lb) base h) by (intros k; apply malloc_walk; auto).
  destruct La as [|g La _] using rev_ind.
  { right. split; [now rewrite HL|]. exists (length Lb), (last_addr (h_freep h) Lb). split; [rewrite HL; simpl; lia|].
    intros k. rewrite Hp at 4. apply Hwb. }
  rewrite last_addr_snoc in Hp. rewrite <- app_assoc in Hc, Hs. apply chain_app in Hc as (e & Hca & -> & Hg & _).
  apply sorted_app in Hs as (Hsa & (Hsg & Hg0 & _) & Hsag).
  assert (Hfa : forall x, x ∈ La -> x.1 <> h_freep h).
  { intros x Hx. destruct (sorted_elem _ _ _ Hsa Hx). specialize (Hsag x g Hx ltac:(constructor)). blia. }
  assert (Hwa : forall k, malloc_loop grant (length Lb + S k) u (h_freep h) (ptr (h_freep h) h) h =
    malloc_loop grant k u base (ptr base h) h).
  { intros k. rewrite Hwb. apply malloc_next; [rewrite (proj2 (ok_base _ _ _ _ ok)); lia|blia]. }
  assert (Hlen : length L = (length La + 1 + length Lb)%nat) by (rewrite HL, !length_app; done).
  destruct (first_fit u La) as [Hna|(N1 & b & N2 & -> & Hb & HN)].
  2: { left. exists N1, b, (N2 ++ [g] ++ Lb), (length Lb + S (length N1))%nat. split; [rewrite HL, <- !app_assoc; done|].
       split; [done|]. split; [rewrite length_app in Hlen; lia|]. intros k. rewrite <- Nat.add_assoc. cbn [Nat.add]. rewrite Hwa.
       apply chain_app in Hca as (e & Hca & -> & _). apply malloc_walk; [done|].
       intros x Hx. split; [auto|apply Hfa; set_solver]. }
  assert (Hw : forall k, malloc_loop grant (length Lb + S (length La) + k) u (h_freep h) (ptr (h_freep h) h) h =
    malloc_loop grant k u (last_addr base La) (h_freep h) h).
  { intros k. rewrite <- Nat.add_assoc. cbn [Nat.add]. rewrite Hwa, Hp. apply malloc_walk; auto. }
  destruct (Z.le_gt_cases u g.2) as [Hgu|Hgu].
  - left. exists La, g, Lb, (length Lb + S (length La))%nat. rewrite <- Hp. split; [rewrite HL, <- app_assoc; done|].
    split; [done|]. split; [lia|done].
  - right. split; [rewrite HL; intros x [[Hx| ->%list_elem_of_singleton]%elem_of_app|Hx]%elem_of_app; auto; lia|].
    exists (length Lb + S (length La))%nat, (last_addr base La). split; [lia|done].
Qed.
End Search.

(** ** [morecore] and [malloc] *)
Definition grow (u : Z) : Z := if u <? 4096 then 4096 else u.

Section Spec.
Context (grant : Z -> Z -> bool) (base : Z).
(** The kernel keeps the break below the kernel. *)
Hypothesis grant_bound : forall brk n, grant brk n = true -> brk + n <= KERNBASE.

Lemma new_block_ok h L A nu :
  heap_ok base h L A -> 0 < nu -> h_brk h + HEADER * nu <= KERNBASE ->
  heap_ok base (mkHeap (<[h_brk h + 4 := nu]> (h_mem h)) (h_freep h) (h_brk h + HEADER * nu)) L ((h_brk h, nu) :: A).
Proof.
  intros ok Hnu Hk. set (h' := mkHeap _ _ _). pose proof (ok_brk _ _ _ _ ok) as [Hb1 Hb2].
  assert (Hkp : forall x, x + HEADER <= h_brk h -> keeps h h' x).
  { intros x Hx. change (keeps h (set_mem (h_brk h + 4) nu h) x). split; hsimp; done. }
  assert (HL : forall x, x ∈ L -> 0 < x.2 /\ block_end x <= h_brk h).
  { intros x Hx. split; [apply (sorted_elem _ _ _ (ok_sorted _ _ _ _ ok) Hx)|now apply (ok_below _ _ _ _ ok)]. }
  assert (HA : forall x, x ∈ A -> 0 < x.2 /\ block_end x <= h_brk h).
  { intros x Hx. destruct (ok_used _ _ _ _ ok x Hx) as (_ & U2 & U3 & _). done. }
  split.
  - split; [apply (ok_base _ _ _ _ ok)|]. rewrite (proj2 (Hkp base Hb1)). apply (ok_base _ _ _ _ ok).
  - apply (chain_frame h _ base base); [apply (ok_chain _ _ _ _ ok)|now apply Hkp|].
    intros x Hx. apply Hkp. destruct (HL x Hx). blia.
  - apply (ok_sorted _ _ _ _ ok).
  - apply (ok_freep _ _ _ _ ok).
  - cbn. blia.
  - intros x Hx. destruct (HL x Hx). cbn. blia.
  - intros x [->|Hx]%elem_of_cons.
    + unfold block_end. cbn [fst snd h_brk h']. split_and!; try done; try lia. exact (size_set (h_brk h) nu h).
    + destruct (HA x Hx). destruct (ok_used _ _ _ _ ok x Hx) as (U1 & U2 & U3 & U4). cbn [h_brk h'].
      split_and!; try done; [blia|]. rewrite (proj2 (Hkp x.1 ltac:(blia))). done.
  - constructor; [|apply (ok_used_disj _ _ _ _ ok)]. apply Forall_forall. intros x Hx. right. apply (HA x Hx).
  - intros x y Hx [->|Hy]%elem_of_cons; [left; apply (HL x Hx)|now apply (ok_free_used _ _ _ _ ok)].
  - apply (ok_gaps _ _ _ _ ok).
Qed.

(** A granted request adds a block that is large enough to the ring. *)
Lemma morecore_run h L A u :
  heap_ok base h L A -> 0 < u -> HEADER * u < 2 ^ 31 -> grant (h_brk h) (HEADER * grow u) = true ->
  exists h' L', morecore grant u h = Done (h_freep h') h' /\ heap_ok base h' L' A /\ 
    h_brk h' = h_brk h + HEADER * grow u /\ (exists b, b ∈ L' /\ u <= b.2) /\ (length L' <= S (length L))%nat /\
    (forall w, w < h_brk h -> ~ Exists (within w) L -> ~ Exists (within w) L') /\
    (forall w, w < h_brk h -> clear_of w base -> ~ Exists (within w) L -> same_word h h' w).
Proof.
  intros ok Hu Hu2 Hg. pose proof (grant_bound _ _ Hg) as Hk. pose proof (ok_brk _ _ _ _ ok) as [Hb1 Hb2].
  pose proof (ok_base _ _ _ _ ok) as [Hb0 _].
  assert (Hgr : u <= grow u /\ HEADER * grow u < 2 ^ 31) by (unfold grow, HEADER in *; destruct (Z.ltb_spec u 4096); lia).
  destruct (free_run _ _ _ _ _ _ (new_block_ok h L A (grow u) ok ltac:(lia) Hk)) as (h' & L' & Hr & Hok & Hbrk & Hcov & (b & Hb & Hle & Hbe) & Hl & Hw).
  exists h', L'. split.
  { unfold morecore. fold (grow u). unfold sbrk. unfold HEADER, KERNBASE in *.
    rewrite (u32_small (grow u * 8)), s32_small by lia. replace (grow u * 8) with (8 * grow u) by lia.
    unfold bind at 1. unfold bind at 1. unfold gets at 1. cbn [prog_bind]. rewrite Hg. rewrite (proj2 (Z.ltb_ge (8 * grow u) 0)) by lia. cbn [andb]. unfold modify, ret. cbn [prog_bind bind].
    destruct (Z.eqb_spec (h_brk h) (u32 (-1))) as [E|_]; [change (u32 (-1)) with 4294967295 in E; lia|].
    unfold set_size, modify, bind. cbn [prog_bind].
    rewrite (u32_small (h_brk h + 8 * _)), (u32_small (h_brk h + 8)) by lia. unfold set_mem. cbn [h_mem h_freep h_brk]. rewrite Hr. reflexivity. }
  split; [done|]. split; [done|]. split; [exists b; split; [done|blia]|]. split; [done|].
  split; [intros w Hwb HwL [?|Hin]%Hcov; [done|unfold within in Hin; cbn [fst] in Hin; lia]|].
  intros w Hwb Hwc HwL. unfold same_word. rewrite (Hw w Hwc HwL); [cbn; now rewrite lookup_insert_ne by lia|].
  unfold within. cbn [fst]. lia.
Qed.

(** The loop from [freep] with a block that fits. *)
Lemma malloc_fit h L A u k :
  heap_ok base h L A -> 0 < u -> (exists b, b ∈ L /\ u <= b.2) -> (length L + 2 <= k)%nat ->
  exists h' L' r, malloc_loop grant k u (h_freep h) (ptr (h_freep h) h) h = Done (r + HEADER) h' /\
    h_brk h' = h_brk h /\ heap_ok base h' L' ((r, u) :: A) /\
    (forall w, clear_of w base -> ~ Exists (within w) L -> same_word h h' w).
Proof.
  intros ok Hu (b & Hb & Hub) Hk.
  destruct (malloc_search grant base h L A u ok Hu) as [(M1 & [p n] & M2 & c & HL & Hn & Hc & Hrun)|[Hno _]];
    [|specialize (Hno b Hb); lia].
  replace k with (c + S (k - c - 1))%nat by lia. rewrite Hrun. cbn [fst snd] in *. rewrite HL in ok.
  destruct (take_run base h A M1 M2 p n ok u) as (h' & L' & r & Ht & Hbrk & Hok & _ & _ & Hw); [lia|].
  exists h', L', r. split; [|split; [done|split; [done|now rewrite HL]]].
  cbn [malloc_loop]. destruct (take_facts base h A M1 M2 p n ok) as (_ & _ & _ & _ & Hz & _).
  rewrite bind_gets, Hz. destruct (Z.leb_spec u n); [done|lia].
Qed.

(** [malloc] on a heap in use. *)
Definition malloc_result (nbytes : Z) (h : heap) (L A : list block) (p : prog heap Z) : Prop :=
  let u := units nbytes in
  (p = Done 0 h /\ (forall x, x ∈ L -> x.2 < u) /\ grant (h_brk h) (HEADER * grow u) = false) \/
  exists h' L' r, p = Done (r + HEADER) h' /\ heap_ok base h' L' ((r, u) :: A) /\ nbytes <= HEADER * (u - 1) /\
    (h_brk h' = h_brk h \/ h_brk h' = h_brk h + HEADER * grow u) /\
    (forall w, w < h_brk h -> clear_of w base -> ~ Exists (within w) L -> same_word h h' w).

Lemma units_bound nbytes : 0 <= nbytes < 2 ^ 31 - 16 ->
  0 < units nbytes /\ HEADER * units nbytes < 2 ^ 31 /\ nbytes <= HEADER * (units nbytes - 1).
Proof.
  intros Hn. unfold units, HEADER. rewrite (u32_small (nbytes + 8 - 1)) by lia. 
  pose proof (Z.div_mod (nbytes + 8 - 1) 8 ltac:(lia)). pose proof (Z.mod_pos_bound (nbytes + 8 - 1) 8 ltac:(lia)).
  rewrite u32_small by lia. lia.
Qed.
Lemma freep_small h L A u :
  heap_ok base h L A -> 0 < u -> (forall x, x ∈ L -> x.2 < u) -> size_of (h_freep h) h < u.
Proof.
  intros ok Hu Hno. destruct (ring_split base _ L (ok_freep _ _ _ _ ok)) as (La & Lb & HL & ->).
  destruct La as [|g La _] using rev_ind; [simpl; rewrite (proj2 (ok_base _ _ _ _ ok)); lia|].
  rewrite last_addr_snoc. pose proof (ok_chain _ _ _ _ ok) as Hc. rewrite HL, <- app_assoc in Hc.
  apply chain_app in Hc as (e & _ & -> & -> & _). apply Hno. rewrite HL. set_solver.
Qed.

Lemma malloc_loop_run nbytes h L A :
  heap_ok base h L A -> 0 <= nbytes < 2 ^ 31 - 16 ->
  malloc_result nbytes h L A (malloc_loop grant (ring_fuel h) (units nbytes) (h_freep h) (ptr (h_freep h) h) h).
Proof.
  intros ok Hn. destruct (units_bound nbytes Hn) as (Hu & Hu2 & Hnu). unfold malloc_result. set (u := units nbytes) in *.
  pose proof (ring_length _ _ _ (proj1 (ok_base _ _ _ _ ok)) (ok_sorted _ _ _ _ ok) (ok_chain _ _ _ _ ok)) as Hl.
  destruct (first_fit u L) as [Hno|(M1 & b & M2 & HL & Hb & _)].
  2: { right. destruct (malloc_fit h L A u (ring_fuel h)) as (h' & L' & r & Hr & Hbrk & Hok & Hw); try done.
       - exists b. split; [rewrite HL; set_solver|done].
       - unfold ring_fuel. lia.
       - exists h', L', r. split; [done|]. split; [done|]. split; [done|]. split; [now left|]. auto. }
  destruct (malloc_search grant base h L A u ok Hu) as [(M1 & b & M2 & c & HL & Hb & _)|[_ (c & prev & Hc & Hrun)]].
  { specialize (Hno b ltac:(rewrite HL; set_solver)). lia. }
  unfold ring_fuel. replace (2 * size (h_mem h) + 8)%nat with (c + S (2 * size (h_mem h) + 7 - c))%nat by lia. rewrite Hrun.
  pose proof (freep_small h L A u ok Hu Hno) as Hfp.
  cbn [malloc_loop]. rewrite bind_gets. destruct (Z.leb_spec u (size_of (h_freep h) h)) as [?|_]; [lia|].
  rewrite bind_gets, Z.eqb_refl. destruct (grant (h_brk h) (HEADER * grow u)) eqn:Hg.
  - right. destruct (morecore_run h L A u ok Hu Hu2 Hg) as (h1 & L1 & Hm & Hok1 & Hb1 & Hfit & Hl1 & Hcov & Hw1).
    rewrite (bind_done _ _ _ _ _ Hm). destruct (Z.eqb_spec (h_freep h1) 0) as [E|_].
    { exfalso. pose proof (ok_base _ _ _ _ Hok1) as [Hb0 _]. destruct (ok_freep _ _ _ _ Hok1) as [Hf|Hf]; [lia|].
      apply list_elem_of_fmap in Hf as (x & Hf & Hx). destruct (sorted_elem _ _ _ (ok_sorted _ _ _ _ Hok1) Hx).
      blia. }
    rewrite bind_gets. destruct (malloc_fit h1 L1 A u (2 * size (h_mem h) + 7 - c) Hok1 Hu Hfit) as (h' & L' & r & Hr & Hbrk & Hok & Hw); [lia|].
    exists h', L', r. split; [done|]. split; [done|]. split; [done|]. split; [right; now rewrite Hbrk|].
    intros w Hwb Hwc HwL. exact (eq_trans (Hw w Hwc (Hcov w Hwb HwL)) (Hw1 w Hwb Hwc HwL)).
  - left. split; [|done]. unfold morecore. fold (grow u). unfold sbrk.
    assert (Hgr : 0 <= HEADER * grow u < 2 ^ 31) by (unfold grow, HEADER in *; destruct (Z.ltb_spec u 4096); lia).
    replace (grow u * HEADER) with (HEADER * grow u) by lia. rewrite (u32_small (HEADER * grow u)), s32_small by lia.
    unfold bind at 1 2 3, gets. cbn [prog_bind]. rewrite Hg. unfold bind, ret. cbn [prog_bind].
    rewrite Z.eqb_refl. reflexivity.
Qed.

(** ** Programs that use the heap *)
(** Before the first [malloc] there is no ring. *)
Definition heap_inv (h : heap) (L A : list block) : Prop :=
  heap_ok base h L A \/
  (h_freep h = 0 /\ L = [] /\ A = [] /\ 0 < base /\ base + HEADER <= h_brk h <= KERNBASE).

Definition start_heap (h : heap) : heap :=
  mkHeap (<[base + 4 := 0]> (<[base := base]> (h_mem h))) base (h_brk h).
Lemma start_heap_ok h : 0 < base -> base + HEADER <= h_brk h <= KERNBASE -> heap_ok base (start_heap h) [] [].
Proof.
  intros Hb Hk. split.
  - split; [done|]. exact (size_set base 0 (mkHeap (<[base := base]> (h_mem h)) base (h_brk h))).
  - change (ptr base (set_mem (base + 4) 0 (set_mem base base (mkHeap (h_mem h) base (h_brk h)))) = base). now hsimp.
  - exact I.
  - now left.
  - done.
  - intros x []%elem_of_nil.
  - intros x []%elem_of_nil.
  - constructor.
  - intros x y []%elem_of_nil.
  - intros x y []%elem_of_nil.
Qed.

Lemma heap_ok_freep h L A : heap_ok base h L A -> h_freep h <> 0.
Proof.
  intros ok E. pose proof (ok_base _ _ _ _ ok) as [Hb0 _]. destruct (ok_freep _ _ _ _ ok) as [Hf|Hf]; [lia|].
  apply list_elem_of_fmap in Hf as (x & Hf & Hx). destruct (sorted_elem _ _ _ (ok_sorted _ _ _ _ ok) Hx).
  blia.
Qed.

(** [malloc] in any state: the search is that of a heap in use. *)
Lemma malloc_run nbytes h L A :
  heap_inv h L A -> 0 <= nbytes < 2 ^ 31 - 16 ->
  exists h0, heap_ok base h0 L A /\ h_brk h0 = h_brk h /\ (forall w, clear_of w base -> same_word h h0 w) /\
    malloc_result nbytes h0 L A (malloc base grant nbytes h).
Proof.
  intros [ok|(Hf & -> & -> & Hb & Hk)] Hn; unfold malloc; rewrite bind_gets.
  - exists h. split; [done|]. split; [done|]. split; [done|].
    destruct (Z.eqb_spec (h_freep h) 0) as [E|_]; [now apply (heap_ok_freep h L A ok) in E|].
    unfold bind, ret, gets. cbn [prog_bind]. now apply malloc_loop_run.
  - exists (start_heap h). pose proof (start_heap_ok h Hb Hk) as ok. split; [done|]. split; [done|].
    split; [intros w Hw; unfold start_heap; wsimp|]. rewrite Hf. cbn [Z.eqb].
    exact (malloc_loop_run nbytes (start_heap h) [] [] ok Hn).
Qed.

Lemma all_disj_perm A A' : A ≡ₚ A' -> all_disj A -> all_disj A'.
Proof.
  assert (Hsym : forall x y, disj x y -> disj y x) by (unfold disj; lia).
  induction 1 as [|x A A' HA IH|x y A|A A' A'' _ IH1 _ IH2]; auto; intros Hd.
  - inversion Hd; subst. constructor; [now rewrite <- HA|]. now apply IH.
  - inversion Hd as [|?? Hy Hd']; subst. inversion Hd' as [|?? Hx Hd'']; subst. inversion Hy; subst.
    constructor; [constructor; auto|]. now constructor.
Qed.
Lemma heap_ok_perm h L A A' : A ≡ₚ A' -> heap_ok base h L A -> heap_ok base h L A'.
Proof.
  intros HA [? ? ? ? ? ? Hu Hd Hf ?]. split; try done; [|now apply (all_disj_perm A)|];
    intros; [apply Hu|apply Hf; [done|]]; now rewrite HA.
Qed.

(** The states of a program that frees only what [malloc] gave it and writes
    only inside the blocks it has; [A] is the list of these blocks. *)
Inductive used : heap -> list block -> Prop :=
| used_start h : h_freep h = 0 -> 0 < base -> base + HEADER <= h_brk h <= KERNBASE -> used h []
| used_malloc h A n r h' :
    used h A -> 0 <= n < 2 ^ 31 - 16 -> malloc base grant n h = Done r h' ->
    used h' (if r =? 0 then A else (r - HEADER, units n) :: A)
| used_free h A1 b A2 h' :
    used h (A1 ++ b :: A2) -> free (b.1 + HEADER) h = Done tt h' -> used h' (A1 ++ A2)
| used_write h A b w v :
    used h A -> b ∈ A -> b.1 + HEADER <= w -> w + 4 <= block_end b -> used (set_mem w v h) A.

Lemma write_ok h L A b w v :
  heap_ok base h L A -> b ∈ A -> b.1 + HEADER <= w -> w + 4 <= block_end b -> heap_ok base (set_mem w v h) L A.
Proof.
  intros ok Hb Hw1 Hw2. destruct (ok_used _ _ _ _ ok b Hb) as (B1 & B2 & B3 & B4).
  assert (Hkp : forall x, x ∈ headers base L A -> keeps h (set_mem w v h) x).
  { intros x Hx. enough (x + HEADER <= w \/ w < x) by (unfold HEADER in *; split; hsimp; done).
    apply elem_of_cons in Hx as [->|Hx]; [left; blia|].
    apply list_elem_of_fmap in Hx as (c & -> & [Hc|Hc]%elem_of_app).
    - destruct (sorted_elem _ _ _ (ok_sorted _ _ _ _ ok) Hc).
      destruct (ok_free_used _ _ _ _ ok c b Hc Hb); blia.
    - destruct (ok_used _ _ _ _ ok c Hc) as (C1 & C2 & C3 & C4).
      destruct (all_disj_cases A c b (ok_used_disj _ _ _ _ ok) Hc Hb) as [->|Hd]; [now left|].
      blia. }
  assert (Hin : forall x, x ∈ L ++ A -> keeps h (set_mem w v h) x.1).
  { intros x Hx. apply Hkp. right. apply list_elem_of_fmap. eauto. }
  destruct (Hkp base ltac:(constructor)) as [Kp Kz]. pose proof ok as [[? ?] Hc ? ? ? ? Hu ? ? ?].
  split; try done; [split; [done|now rewrite Kz]| |].
  - apply (chain_frame h _ base base); [done|done|]. intros x Hx. apply Hin. set_solver.
  - intros x Hx. rewrite (proj2 (Hin x ltac:(set_solver))). auto.
Qed.

Lemma used_inv h A : used h A -> exists L, heap_inv h L A.
Proof.
  induction 1 as [h Hf Hb Hk|h A n r h' _ [L IH] Hn Hr|h A1 b A2 h' _ [L IH] Hr|h A b w v _ [L IH] Hb Hw1 Hw2].
  - exists []. right. done.
  - destruct (malloc_run n h L A IH Hn) as (h0 & ok & _ & _ & Hres). rewrite Hr in Hres.
    destruct Hres as [(E & _)|(h1 & L' & r' & E & Hok & _)]; injection E as -> ->; [exists L; now left|].
    exists L'. left. destruct (ok_used _ _ _ _ Hok (r', units n)) as (R1 & _); [constructor|].
    pose proof (ok_base _ _ _ _ Hok) as [R0 _]. cbn [fst] in R1.
    destruct (Z.eqb_spec (r' + HEADER) 0); [blia|].
    now replace (r' + HEADER - HEADER) with r' by lia.
  - destruct IH as [ok|(_ & _ & E & _)]; [|now destruct A1]. destruct b as [bp n].
    apply (heap_ok_perm _ _ _ ((bp, n) :: A1 ++ A2)) in ok; [|now rewrite Permutation_middle].
    destruct (free_run _ _ _ _ _ _ ok) as (h1 & L' & E & Hok & _). cbn [fst] in Hr. rewrite Hr in E. injection E as ->.
    exists L'. now left.
  - destruct IH as [ok|(_ & _ & -> & _)]; [|now apply elem_of_nil in Hb]. exists L. left. now apply (write_ok h L A b).
Qed.

(** Words of a block in use are not words of the ring. *)
Lemma used_word h L A b w : heap_ok base h L A -> b ∈ A -> within w b ->
  w < h_brk h /\ clear_of w base /\ ~ Exists (within w) L.
Proof.
  intros ok Hb Hw. destruct (ok_used _ _ _ _ ok b Hb) as (B1 & B2 & B3 & _). unfold within, clear_of in *.
  split; [lia|]. split; [right; lia|]. intros (x & Hx & Hxw)%Exists_exists.
  destruct (ok_free_used _ _ _ _ ok x b Hx Hb); unfold disj in *; lia.
Qed.

(** C17. In every state a program can reach that frees only blocks it got from
    [malloc] and writes only inside them, [malloc] returns: either 0, when no
    free block is large enough and the kernel refuses to grow the program, or a
    block of at least [nbytes] bytes inside the heap that overlaps no block in
    use; and it changes no word of a block in use. *)
Theorem malloc_safe h A nbytes :
  used h A -> 0 <= nbytes < 2 ^ 31 - 16 ->
  exists L r h', heap_inv h L A /\ malloc base grant nbytes h = Done r h' /\
    ((r = 0 /\ (forall x, x ∈ L -> x.2 < units nbytes) /\ grant (h_brk h) (HEADER * grow (units nbytes)) = false) \/
     (let b := (r - HEADER, units nbytes) in
      nbytes <= HEADER * (units nbytes - 1) /\ base + HEADER <= b.1 /\ block_end b <= h_brk h' /\
      (forall c, c ∈ A -> disj b c))) /\
    (forall b w, b ∈ A -> within w b -> same_word h h' w).
Proof.
  intros Hu Hn. destruct (used_inv h A Hu) as [L Hinv].
  destruct (malloc_run nbytes h L A Hinv Hn) as (h0 & ok & Hbrk & Hw0 & [(-> & Hno & Hg)|(h' & L' & r & -> & Hok & Hsz & _ & Hw)]).
  - exists L, 0, h0. split; [done|]. split; [done|]. rewrite Hbrk in Hg. split; [now left|].
    intros b w Hb Hin. apply Hw0. apply (used_word h0 L A b w ok Hb Hin).
  - exists L, (r + HEADER), h'. split; [done|]. split; [done|]. replace (r + HEADER - HEADER) with r by lia.
    destruct (ok_used _ _ _ _ Hok (r, units nbytes)) as (R1 & _ & R3 & _); [constructor|]. split.
    + right. split; [done|]. split; [done|]. split; [done|].
      pose proof (ok_used_disj _ _ _ _ Hok) as Hd. inversion Hd as [|?? Hd' _]; subst. now apply Forall_forall.
    + intros b w Hb Hin. destruct (used_word h0 L A b w ok Hb Hin) as (W1 & W2 & W3).
      exact (eq_trans (Hw w W1 W2 W3) (Hw0 w W2)).
Qed.

(** [free] of a block in use returns and gives back exactly this block: the
    bytes of the free blocks are those that were free and those of the block,
    the ring is still sorted by address with neighbours joined (no free block
    ends where another starts), and no word of another block in use changes. *)
Theorem free_gives_back h A1 b A2 :
  used h (A1 ++ b :: A2) ->
  exists L L' h', heap_ok base h L (A1 ++ b :: A2) /\ free (b.1 + HEADER) h = Done tt h' /\
    chain h' base L' base /\ sorted (base + HEADER) L' /\
    (forall z, Exists (within z) L' <-> Exists (within z) L \/ within z b) /\
    (forall x y, x ∈ L' -> y ∈ L' -> block_end x <> y.1) /\
    (forall c w, c ∈ A1 ++ A2 -> within w c -> same_word h h' w).
Proof.
  intros Hu. destruct (used_inv h _ Hu) as [L [ok|(_ & _ & E & _)]]; [|now destruct A1]. destruct b as [bp n].
  pose proof ok as ok'. apply (heap_ok_perm _ _ _ ((bp, n) :: A1 ++ A2)) in ok'; [|now rewrite Permutation_middle].
  destruct (free_run _ _ _ _ _ _ ok') as (h' & L' & Hr & Hok & _ & Hcov & _ & _ & Hw).
  exists L, L', h'. split; [done|]. split; [done|]. split; [apply (ok_chain _ _ _ _ Hok)|].
  split; [apply (ok_sorted _ _ _ _ Hok)|]. split; [done|]. split; [apply (ok_gaps _ _ _ _ Hok)|].
  intros c w Hc Hin. destruct (used_word h L _ c w ok' ltac:(now constructor) Hin) as (_ & W2 & W3).
  apply Hw; [done|done|]. pose proof (ok_used_disj _ _ _ _ ok') as Hd. inversion Hd as [|?? Hd' _]; subst.
  rewrite Forall_forall in Hd'. specialize (Hd' c Hc). unfold disj, within in *. lia.
Qed.
(** ** What a client relies on

    A call keeps the words of the blocks [A] that stay in use. *)
Definition same_blocks (A : list block) (h h' : heap) : Prop := forall b w, b ∈ A -> within w b -> same_word h h' w.

Lemma same_blocks_trans A h1 h2 h3 : same_blocks A h1 h2 -> same_blocks A h2 h3 -> same_blocks A h1 h3.
Proof. intros H1 H2 b w Hb Hw. unfold same_word in *. now rewrite (H2 b w), (H1 b w). Qed.
Lemma same_blocks_ptr A h h' b w : same_blocks A h h' -> b ∈ A -> within w b -> ptr w h' = ptr w h.
Proof. intros H Hb Hw. unfold ptr. now rewrite (H b w Hb Hw). Qed.

Lemma malloc_in_use h A n : used h A -> 0 <= n < 2 ^ 31 - 16 ->
  exists r h', malloc base grant n h = Done r h' /\ same_blocks A h h' /\
    ((r = 0 /\ grant (h_brk h) (HEADER * grow (units n)) = false /\ used h' A) \/
     (r <> 0 /\ n <= HEADER * (units n - 1) /\ used h' ((r - HEADER, units n) :: A))).
Proof.
  intros Hu Hn. destruct (used_inv h A Hu) as [L Hinv].
  destruct (malloc_run n h L A Hinv Hn) as (h0 & ok & Hbrk & Hw0 & [(Hr & Hno & Hg)|(h' & L' & r & Hr & Hok & Hsz & _ & Hw)]);
    pose proof (used_malloc h A n _ _ Hu Hn Hr) as Hu'.
  - exists 0, h0. split; [done|]. rewrite Hbrk in Hg. split; [|now left].
    intros b w Hb Hin. apply Hw0. apply (used_word h0 L A b w ok Hb Hin).
  - exists (r + HEADER), h'. split; [done|]. split.
    + intros b w Hb Hin. destruct (used_word h0 L A b w ok Hb Hin) as (W1 & W2 & W3).
      exact (eq_trans (Hw w W1 W2 W3) (Hw0 w W2)).
    + destruct (ok_used _ _ _ _ Hok (r, units n)) as (R1 & _); [constructor|]. pose proof (ok_base _ _ _ _ Hok) as [R0 _].
      cbn [fst] in R1. right. destruct (Z.eqb_spec (r + HEADER) 0) in Hu'; [blia|]. done.
Qed.

Lemma free_in_use h b A : used h (b :: A) -> exists h', free (b.1 + HEADER) h = Done tt h' /\ same_blocks A h h' /\ used h' A.
Proof.
  intros Hu. destruct (used_inv h _ Hu) as [L [ok|(_ & _ & E & _)]]; [|discriminate]. destruct b as [bp n].
  destruct (free_run _ _ _ _ _ _ ok) as (h' & L' & Hr & Hok & _ & Hcov & _ & _ & Hw).
  exists h'. split; [done|]. split; [|exact (used_free h [] (bp, n) A h' Hu Hr)].
  intros c w Hc Hin. destruct (used_word h L _ c w ok ltac:(now constructor) Hin) as (_ & W2 & W3).
  apply Hw; [done|done|]. pose proof (ok_used_disj _ _ _ _ ok) as Hd. inversion Hd as [|?? Hd' _]; subst.
  rewrite Forall_forall in Hd'. specialize (Hd' c Hc). unfold disj, within in *. lia.
Qed.

Lemma used_disjoint h b A : used h (b :: A) -> base + HEADER <= b.1 /\ 0 < base /\ forall c, c ∈ A -> disj b c.
Proof.
  intros Hu. destruct (used_inv h _ Hu) as [L [ok|(_ & _ & E & _)]]; [|discriminate].
  destruct (ok_used _ _ _ _ ok b ltac:(constructor)) as (B1 & _). pose proof (ok_base _ _ _ _ ok) as [B0 _].
  split; [done|]. split; [done|]. pose proof (ok_used_disj _ _ _ _ ok) as Hd. inversion Hd as [|?? Hd' _]; subst.
  now apply Forall_forall.
Qed.
End Spec.

(** ** A run *)
Definition demo_grant (brk n : Z) : bool := brk + n <=? KERNBASE.
Definition demo_heap : heap := mkHeap ∅ 0 8192.
Definition demo_malloc (n : Z) (h : heap) : Z * heap :=
  match malloc 4096 demo_grant n h with Done r h' => (r, h') | _ => (0, h) end.
Definition demo_heap1 : heap := (demo_malloc 10 demo_heap).2.
Definition demo_heap2 : heap := (demo_malloc 100 demo_heap1).2.
Lemma demo_grant_bound brk n : demo_grant brk n = true -> brk + n <= KERNBASE.
Proof. apply Z.leb_le. Qed.
Lemma demo_used : used demo_grant 4096 demo_heap2 [(40824, 14); (40936, 3)].
Proof.
  pose proof (used_start demo_grant 4096 demo_heap eq_refl ltac:(lia) ltac:(unfold HEADER, KERNBASE; simpl; lia)) as H0.
  assert (H1 : used demo_grant 4096 demo_heap1 [(40936, 3)]).
  { refine (used_malloc demo_grant 4096 demo_heap [] 10 40944 demo_heap1 H0 ltac:(lia) _). vm_compute. reflexivity. }
  refine (used_malloc demo_grant 4096 demo_heap1 [(40936, 3)] 100 40832 demo_heap2 H1 ltac:(lia) _). vm_compute. reflexivity.
Qed.

Lemma malloc_safe_witness :
  exists L r h', heap_inv 4096 demo_heap2 L [(40824, 14); (40936, 3)] /\ malloc 4096 demo_grant 50000 demo_heap2 = Done r h' /\
    ((r = 0 /\ (forall x, x ∈ L -> x.2 < units 50000) /\ demo_grant (h_brk demo_heap2) (HEADER * grow (units 50000)) = false) \/
     (let b := (r - HEADER, units 50000) in
      50000 <= HEADER * (units 50000 - 1) /\ 4096 + HEADER <= b.1 /\ block_end b <= h_brk h' /\
      (forall c, c ∈ [(40824, 14); (40936, 3)] -> disj b c))) /\
    (forall b w, b ∈ [(40824, 14); (40936, 3)] -> within w b -> same_word demo_heap2 h' w).
Proof. exact (malloc_safe demo_grant 4096 demo_grant_bound demo_heap2 _ 50000 demo_used ltac:(lia)). Defined.

Lemma free_gives_back_witness :
  exists L L' h', heap_ok 4096 demo_heap2 L ([(40824, 14)] ++ (40936, 3) :: []) /\ free (40936 + HEADER) demo_heap2 = Done tt h' /\
    chain h' 4096 L' 4096 /\ sorted (4096 + HEADER) L' /\
    (forall z, Exists (within z) L' <-> Exists (within z) L \/ within z (40936, 3)) /\
    (forall x y, x ∈ L' -> y ∈ L' -> block_end x <> y.1) /\
    (forall c w, c ∈ [(40824, 14)] ++ [] -> within w c -> same_word demo_heap2 h' w).
Proof. exact (free_gives_back demo_grant 4096 demo_grant_bound demo_heap2 [(40824, 14)] (40936, 3) [] demo_used). Defined.

(** Requests near the end of the address space break [malloc]: the size in
    units wraps around, so that the last seven sizes give one unit, a block
    without a single byte; and a request of 2 GB passes a negative number to
    [sbrk], which gives the break without moving it, so that [malloc] returns
    a block that lies outside of the program. *)
Theorem malloc_large_requests :
  (forall nbytes, 2 ^ 32 - 7 <= nbytes < 2 ^ 32 -> units nbytes = 1) /\
  (exists r h', malloc 4096 demo_grant (2 ^ 32 - 1) demo_heap = Done r h' /\ r <> 0 /\ size_of (r - HEADER) h' = 1) /\
  (exists r h', malloc 4096 demo_grant (2 ^ 31) demo_heap = Done r h' /\ r <> 0 /\ h_brk h' = h_brk demo_heap /\ h_brk h' < r).
Proof.
  split; [|split].
  - intros n Hn. unfold units, HEADER. replace (u32 (n + 8 - 1)) with (n + 7 - 2 ^ 32).
    + rewrite Z.div_small by lia. reflexivity.
    + unfold u32. replace (n + 8 - 1) with (n + 7 - 2 ^ 32 + 1 * 2 ^ 32) by lia. rewrite Z.mod_add by lia. now rewrite Z.mod_small by lia.
  - exists 40960, (demo_malloc (2 ^ 32 - 1) demo_heap).2. split; [vm_compute; reflexivity|]. split; [lia|]. vm_compute. reflexivity.
  - exists 8200, (demo_malloc (2 ^ 31) demo_heap).2. split; [vm_compute; reflexivity|]. split; [lia|].
    split; [vm_compute; reflexivity|]. vm_compute. reflexivity.
Qed.
