(* ===== verification/TreeAlloc.v ===== *)
(** * Allocation of a tournament tree (tournament_tree.c)

    [trnmnt_tree_alloc] and [trnmnt_tree_dealloc] over the memory of the
    program: the [struct trnmnt_tree] and its array are blocks of the allocator
    of Malloc, and the mutexes are those of a [MutexService].  A field is the
    word at its offset in the block: [depth] 0, [tree] 4, [size] 8, [tid] 12; a
    word holds an [int] as the signed value and a pointer as the address.
    Following a null pointer has no defined result, and neither call of
    [malloc] is followed by a test. *)
From S2P Require Import Prelude Mmu Str Spinlock Kalloc Proc Exec Sched Mutex Tournament TournamentKernel Malloc.

(** A thread in user mode: its memory, what the kernel has, and what it
    printed. *)
Record user (K : Type) := mkUser { u_heap : heap; u_svc : K; u_out : list string }.
Arguments mkUser {K}. Arguments u_heap {K}. Arguments u_svc {K}. Arguments u_out {K}.

Section Alloc.
Context {K : Type} {V : MutexService K} (base : Z) (grant : Z -> Z -> bool).

Definition lib {A} (m : M heap A) : M (user K) A := zoom u_heap (fun h u => mkUser h (u_svc u) (u_out u)) m.
Definition call {A} (m : M K A) : M (user K) A := zoom u_svc (fun k u => mkUser (u_heap u) k (u_out u)) m.
Definition print (msg : string) : M (user K) unit := modify (fun u => mkUser (u_heap u) (u_svc u) (u_out u ++ [msg])).
(** The word at an offset from a pointer. *)
Definition load (p off : Z) : M (user K) Z :=
  if p =? 0 then panic "null pointer" else lib (gets (ptr (p + off))).
Definition store (p off v : Z) : M (user K) unit :=
  if p =? 0 then panic "null pointer" else lib (modify (set_mem (p + off) v)).

(** The loop over the nodes from [i]: the index at which a mutex is missing, if
    one is. *)
Fixpoint fill_loop (fuel : nat) (tree i : Z) : M (user K) (option Z) :=
  match fuel with
  | O => fun _ => Spin
  | S fuel =>
      size <~ load tree 8 ;;
      if i <? size then
        id <~ call sv_alloc ;;
        arr <~ load tree 4 ;;
        store arr (4 * i) id ;;;
        arr <~ load tree 4 ;;
        v <~ load arr (4 * i) ;;
        if v <? 0 then ret (Some i) else fill_loop fuel tree (i + 1)
      else ret None
  end.
(** The loop after [bad]: [n] nodes from [j]. *)
Fixpoint undo_loop (n : nat) (tree j : Z) : M (user K) unit :=
  match n with
  | O => ret tt
  | S n =>
      arr <~ load tree 4 ;;
      id <~ load arr (4 * j) ;;
      r <~ call (sv_dealloc id) ;;
      (if r <? 0 then print "couldn't free mutexes" else ret tt) ;;;
      undo_loop n tree (j + 1)
  end.
Definition free_tree (tree : Z) : M (user K) unit :=
  arr <~ load tree 4 ;;
  lib (free arr) ;;;
  lib (free tree).

Definition trnmnt_tree_alloc (depth : Z) : M (user K) Z :=
  if depth <? 1 then ret 0
  else
    tree <~ lib (malloc base grant 16) ;;
    store tree 8 (s32 (Z.shiftl 2 (depth - 1) - 1)) ;;;
    store tree 0 depth ;;;
    size <~ load tree 8 ;;
    arr <~ lib (malloc base grant (u32 (size * 4))) ;;
    store tree 4 arr ;;;
    bad <~ fill_loop (S (Z.to_nat size)) tree 0 ;;
    match bad with
    | None => ret tree
    | Some i =>
        undo_loop (Z.to_nat i) tree 0 ;;;
        free_tree tree ;;;
        ret 0
    end.

(** The loop of [trnmnt_tree_dealloc] from [j]; [false] when a mutex is not
    given back. *)
Fixpoint drop_loop (fuel : nat) (tree j : Z) : M (user K) bool :=
  match fuel with
  | O => fun _ => Spin
  | S fuel =>
      size <~ load tree 8 ;;
      if j <? size then
        arr <~ load tree 4 ;;
        id <~ load arr (4 * j) ;;
        r <~ call (sv_dealloc id) ;;
        if r <? 0 then ret false else drop_loop fuel tree (j + 1)
      else ret true
  end.
Definition trnmnt_tree_dealloc (tree : Z) : M (user K) Z :=
  if tree =? 0 then ret (-1)
  else
    arr <~ load tree 4 ;;
    if arr =? 0 then ret (-1)
    else
      size <~ load tree 8 ;;
      ok <~ drop_loop (S (Z.to_nat size)) tree 0 ;;
      if (ok : bool) then free_tree tree ;;; ret 0 else ret (-1).

(** The structure at an address, as the other operations take it. *)
Definition tree_of (p : Z) (h : heap) : option trnmnt_tree :=
  if p =? 0 then None
  else
    let arr := ptr (p + 4) h in
    let size := ptr (p + 8) h in
    Some (mkTree (ptr (p + 0) h)
      (if arr =? 0 then None else Some ((fun j => ptr (arr + 4 * Z.of_nat j) h) <$> seq 0 (Z.to_nat size)))
      size (ptr (p + 12) h)).

(** ** Steps *)
Lemma lib_done {A} (m : M heap A) a h' u :
  m (u_heap u) = Done a h' -> lib m u = Done a (mkUser h' (u_svc u) (u_out u)).
Proof. intros H. unfold lib, zoom. now rewrite H. Qed.
Lemma call_done {A} (m : M K A) a k u :
  m (u_svc u) = Done a k -> call m u = Done a (mkUser (u_heap u) k (u_out u)).
Proof. intros H. unfold call, zoom. now rewrite H. Qed.
Lemma load_done p off u : p <> 0 -> load p off u = Done (ptr (p + off) (u_heap u)) u.
Proof. intros H. unfold load. apply Z.eqb_neq in H as ->. now destruct u. Qed.
Lemma store_done p off v u :
  p <> 0 -> store p off v u = Done tt (mkUser (set_mem (p + off) v (u_heap u)) (u_svc u) (u_out u)).
Proof. intros H. unfold store. now apply Z.eqb_neq in H as ->. Qed.

(** ** A tree in memory

    The blocks of the structure and of an array of [n] words, and a tree under
    construction: the fields are set, and the array holds the ids [l]. *)
Definition tree_block (p : Z) : block := (p - HEADER, units 16).
Definition array_block (arr n : Z) : block := (arr - HEADER, units (4 * n)).
Abbreviation in_use := (used grant base).

Record built (A : list block) (p arr d n : Z) (l : list nat) (h : heap) : Prop := {
  bt_used : in_use h (array_block arr n :: tree_block p :: A);
  bt_room : 4 * n <= HEADER * (units (4 * n) - 1);
  bt_depth : ptr (p + 0) h = d;
  bt_tree : ptr (p + 4) h = arr;
  bt_size : ptr (p + 8) h = n;
  bt_ids : forall j id, l !! j = Some id -> ptr (arr + 4 * Z.of_nat j) h = Z.of_nat id;
}.

Hypothesis grant_bound : forall brk n, grant brk n = true -> brk + n <= KERNBASE.

Lemma built_pointers A p arr d n l h : built A p arr d n l h ->
  p <> 0 /\ arr <> 0 /\ (arr + 4 * n <= p - HEADER \/ p + 16 <= arr - HEADER) /\
  (forall c, c ∈ A -> disj (array_block arr n) c /\ disj (tree_block p) c).
Proof.
  intros B. pose proof (bt_used _ _ _ _ _ _ _ B) as Hu. pose proof (bt_room _ _ _ _ _ _ _ B) as Hn.
  destruct (used_disjoint grant base grant_bound _ _ _ Hu) as (B1 & B0 & Hd).
  pose proof (used_inv grant base grant_bound _ _ Hu) as [L [ok|(_ & _ & E & _)]]; [|discriminate].
  destruct (ok_used _ _ _ _ ok (tree_block p) ltac:(set_solver)) as (T1 & _).
  pose proof (ok_used_disj _ _ _ _ ok) as Hall. inversion Hall as [|?? _ Hall']; subst.
  inversion Hall' as [|?? Hd' _]; subst. rewrite Forall_forall in Hd'.
  pose proof (Hd (tree_block p) ltac:(constructor)) as Ht. unfold disj, block_end, array_block, tree_block in *.
  change (units 16) with 3 in *. unfold HEADER in *. cbn [fst snd] in *.
  split; [lia|]. split; [lia|]. split; [lia|]. intros c Hc. split; [apply Hd; set_solver|now apply Hd'].
Qed.

(** Writing an element that the list does not have yet. *)
Lemma built_store A p arr d n l h i v : built A p arr d n l h -> Z.of_nat (length l) <= i < n ->
  built A p arr d n l (set_mem (arr + 4 * i) v h) /\ same_blocks A h (set_mem (arr + 4 * i) v h).
Proof.
  intros B Hi. destruct (built_pointers _ _ _ _ _ _ _ B) as (Hp & Ha & Hpa & Hd). pose proof B as [Hu Hn H0 H4 H8 Hl].
  unfold HEADER in *. split.
  - split; rewrite ?ptr_set_ne by lia; try done.
    + apply (used_write _ _ _ _ (array_block arr n)); [done|constructor|..];
        unfold block_end, array_block, HEADER; cbn [fst snd]; lia.
    + intros j id Hj. pose proof (lookup_lt_Some _ _ _ Hj). rewrite ptr_set_ne by lia. auto.
  - intros c w Hc Hw. unfold same_word. cbn. apply lookup_insert_ne. destruct (Hd c Hc) as [Hd1 _].
    unfold disj, within, block_end, array_block, HEADER in *. cbn [fst snd] in *. lia.
Qed.

Lemma built_add A p arr d n l h id : built A p arr d n l h -> Z.of_nat (length l) < n ->
  let h' := set_mem (arr + 4 * Z.of_nat (length l)) (Z.of_nat id) h in
  built A p arr d n (l ++ [id]) h' /\ same_blocks A h h'.
Proof.
  intros B Hl h'. destruct (built_store _ _ _ _ _ _ _ (Z.of_nat (length l)) (Z.of_nat id) B ltac:(lia)) as [[] Hs].
  split; [|done]. split; try done. intros j id' Hj. apply lookup_app_Some in Hj as [Hj|[Hge Hj]]; [auto|].
  apply list_lookup_singleton_Some in Hj as [Hj <-]. replace j with (length l) by lia. apply ptr_set.
Qed.

(** ** The loops *)

(** One turn of the first loop, with the id the kernel gave. *)
Lemma fill_turn A p arr d n l u k id s :
  built A p arr d n l (u_heap u) -> Z.of_nat (length l) < n -> sv_alloc (u_svc u) = Done id s ->
  fill_loop (S k) p (Z.of_nat (length l)) u =
  (if id <? 0 then ret (Some (Z.of_nat (length l))) else fill_loop k p (Z.of_nat (length l) + 1))
    (mkUser (set_mem (arr + 4 * Z.of_nat (length l)) id (u_heap u)) s (u_out u)).
Proof.
  intros B Hl Hr. destruct (built_pointers _ _ _ _ _ _ _ B) as (Hp & Ha & _).
  destruct (built_store _ _ _ _ _ _ _ (Z.of_nat (length l)) id B ltac:(lia)) as [B' _]. cbn [fill_loop].
  erewrite bind_done by now apply load_done. rewrite (bt_size _ _ _ _ _ _ _ B). replace (_ <? n) with true by lia.
  erewrite bind_done by (apply call_done; exact Hr). erewrite bind_done by now apply load_done. cbn [u_heap u_svc u_out].
  rewrite (bt_tree _ _ _ _ _ _ _ B). erewrite bind_done by now apply store_done. cbn [u_heap u_svc u_out].
  erewrite bind_done by now apply load_done. cbn [u_heap]. rewrite (bt_tree _ _ _ _ _ _ _ B').
  erewrite bind_done by now apply load_done. cbn [u_heap]. now rewrite ptr_set.
Qed.

(** The loop stops with [k] more mutexes, or with all that were free. *)
Lemma fill_spec A p arr d n k l u :
  sv_ok (u_svc u) -> built A p arr d n l (u_heap u) -> n = Z.of_nat (length l + k) ->
  exists (l' : list nat) u', NoDup l' /\ list_to_set l' ⊆ sv_free (u_svc u) /\ sv_ok (u_svc u') /\
    sv_free (u_svc u') = sv_free (u_svc u) ∖ list_to_set l' /\ sv_mine (u_svc u') = list_to_set l' ∪ sv_mine (u_svc u) /\
    length l' = Nat.min k (size (sv_free (u_svc u))) /\
    built A p arr d n (l ++ l') (u_heap u') /\ same_blocks A (u_heap u) (u_heap u') /\ u_out u' = u_out u /\
    fill_loop (S k) p (Z.of_nat (length l)) u =
      Done (if decide (k <= size (sv_free (u_svc u)))%nat then None else Some (Z.of_nat (length (l ++ l')))) u'.
Proof.
  revert l u. induction k as [|k IH]; intros l u Hok B Hn.
  { exists [], u. rewrite decide_True by lia. rewrite app_nil_r.
    destruct (built_pointers _ _ _ _ _ _ _ B) as (Hp & _).
    assert (fill_loop 1 p (Z.of_nat (length l)) u = Done None u).
    { cbn [fill_loop]. erewrite bind_done by now apply load_done. rewrite (bt_size _ _ _ _ _ _ _ B).
      now replace (_ <? n) with false by lia. }
    repeat split; try done; try apply B; [constructor|set_solver..]. }
  destruct (decide (sv_free (u_svc u) = ∅)) as [He|Hne].
  - destruct (sv_alloc_none _ Hok He) as (r & s' & Hr & Hneg & Hok' & Hf' & Hm').
    destruct (built_store _ _ _ _ _ _ _ (Z.of_nat (length l)) r B ltac:(lia)) as [B' Hs].
    exists [], (mkUser (set_mem (arr + 4 * Z.of_nat (length l)) r (u_heap u)) s' (u_out u)). rewrite (fill_turn _ _ _ _ _ _ _ _ _ _ B ltac:(lia) Hr). replace (r <? 0) with true by lia.
    rewrite app_nil_r, He, size_empty, decide_False by lia. cbn [u_heap u_svc u_out]. clear IH.
    split; [apply NoDup_nil_2|]. split; [done|]. split; [done|]. split; [now rewrite Hf', list_to_set_nil, difference_empty_L|].
    split; [now rewrite Hm', list_to_set_nil, union_empty_l_L|]. split; [done|]. split; [exact B'|]. now split.
  - destruct (sv_alloc_some _ Hok Hne) as (id & s1 & Hr & Hok1 & Hid & Hf1 & Hm1).
    destruct (built_add _ _ _ _ _ _ _ id B ltac:(lia)) as [B1 Hs1].
    destruct (IH (l ++ [id]) (mkUser (set_mem (arr + 4 * Z.of_nat (length l)) (Z.of_nat id) (u_heap u)) s1 (u_out u)) Hok1 B1
      ltac:(rewrite length_app; simpl; lia)) as (l' & u' & Hnd & Hsub & Hok' & Hf' & Hm' & Hlen & B' & Hs' & Ho & Hrun).
    cbn [u_heap u_svc u_out] in *.
    assert (Hsz : size (sv_free (u_svc u)) = S (size (sv_free s1))).
    { rewrite Hf1, size_difference, size_singleton by set_solver.
      assert (size (sv_free (u_svc u)) <> 0)%nat; [|lia]. intros Hz%size_empty_inv. now apply Hne, leibniz_equiv. }
    exists (id :: l'), u'. rewrite (fill_turn _ _ _ _ _ _ _ _ _ _ B ltac:(lia) Hr).
    replace (Z.of_nat id <? 0) with false by lia.
    replace (Z.of_nat (length l) + 1) with (Z.of_nat (length (l ++ [id]))) by (rewrite length_app; simpl; lia).
    rewrite Hrun, <- app_assoc in *. cbn [app length]. rewrite Hsz, Hlen.
    clear IH Hrun Hr. rewrite Hf1 in Hsub, Hf'. rewrite Hm1 in Hm'.
    split; [constructor; [|done]; intros Hin; apply (elem_of_difference (sv_free (u_svc u)) {[id]} id); [|set_solver]; set_solver|].
    split; [set_solver|]. split; [done|].
    split; [rewrite Hf'; clear; set_solver|]. split; [rewrite Hm'; clear; set_solver|]. split; [lia|]. split; [exact B'|].
    split; [now apply (same_blocks_trans _ _ _ _ Hs1)|]. split; [done|].
    destruct (decide (k <= size (sv_free s1))%nat), (decide (S k <= S (size (sv_free s1)))%nat); reflexivity || lia.
Qed.

(** Deallocating distinct mutexes of the process gives them all back. *)
Lemma drop_spec A p arr d n l2 l1 u :
  sv_ok (u_svc u) -> built A p arr d n (l1 ++ l2) (u_heap u) -> NoDup l2 -> list_to_set l2 ⊆ sv_mine (u_svc u) ->
  exists s', sv_ok s' /\ sv_free s' = list_to_set l2 ∪ sv_free (u_svc u) /\ sv_mine s' = sv_mine (u_svc u) ∖ list_to_set l2 /\
    (n = Z.of_nat (length (l1 ++ l2)) ->
     drop_loop (S (length l2)) p (Z.of_nat (length l1)) u = Done true (mkUser (u_heap u) s' (u_out u))) /\
    undo_loop (length l2) p (Z.of_nat (length l1)) u = Done tt (mkUser (u_heap u) s' (u_out u)).
Proof.
  intros Hok B. destruct (built_pointers _ _ _ _ _ _ _ B) as (Hp & Ha & _). revert l1 u Hok B.
  induction l2 as [|id l2 IH]; intros l1 u Hok B Hnd Hsub.
  { exists (u_svc u). split; [done|]. split; [set_solver|]. split; [set_solver|]. split; [|now destruct u].
    intros ->. cbn [length drop_loop]. erewrite bind_done by now apply load_done. rewrite (bt_size _ _ _ _ _ _ _ B), app_nil_r.
    replace (_ <? _) with false by lia. now destruct u. }
  apply NoDup_cons in Hnd as [Hid Hnd].
  destruct (sv_dealloc_mine _ id Hok ltac:(set_solver)) as (s1 & Hr & Hok1 & Hf1 & Hm1).
  assert (Ej : ptr (arr + 4 * Z.of_nat (length l1)) (u_heap u) = Z.of_nat id).
  { apply (bt_ids _ _ _ _ _ _ _ B). rewrite lookup_app_r, Nat.sub_diag by lia. reflexivity. }
  rewrite cons_middle, (app_assoc l1 [id] l2) in B.
  destruct (IH (l1 ++ [id]) (mkUser (u_heap u) s1 (u_out u)) Hok1 B Hnd) as (s' & Hok' & Hf' & Hm' & Hd & He).
  { cbn. rewrite Hm1. intros i Hi. assert (i <> id) by (intros ->; set_solver). set_solver. }
  cbn [u_heap u_svc u_out] in *.
  replace (Z.of_nat (length (l1 ++ [id]))) with (Z.of_nat (length l1) + 1) in Hd, He by (rewrite length_app; simpl; lia).
  exists s'. split; [done|]. split; [rewrite Hf', Hf1, list_to_set_cons; clear; set_solver|].
  split; [rewrite Hm', Hm1, list_to_set_cons; clear; apply leibniz_equiv; set_solver|]. cbn [length].
  pose proof (bt_tree _ _ _ _ _ _ _ B) as Ht. clear IH.
  split; [intros Hn; generalize dependent (S (length l2)); intros k Hd; cbn [drop_loop]|cbn [undo_loop]].
  - erewrite bind_done by now apply load_done. rewrite (bt_size _ _ _ _ _ _ _ B).
    replace (_ <? n) with true by (rewrite Hn, length_app; cbn [length]; lia).
    erewrite bind_done by now apply load_done. rewrite Ht. erewrite bind_done by now apply load_done. rewrite Ej.
    erewrite bind_done by (apply call_done; exact Hr). rewrite Z.ltb_irrefl. apply Hd.
    rewrite Hn, !length_app. cbn [length]. lia.
  - erewrite bind_done by now apply load_done. rewrite Ht. erewrite bind_done by now apply load_done. rewrite Ej.
    erewrite bind_done by (apply call_done; exact Hr). exact He.
Qed.

(** ** The operations *)
Lemma free_tree_spec A p arr d n l u : built A p arr d n l (u_heap u) ->
  exists h', free_tree p u = Done tt (mkUser h' (u_svc u) (u_out u)) /\ in_use h' A /\ same_blocks A (u_heap u) h'.
Proof.
  intros B. destruct (built_pointers _ _ _ _ _ _ _ B) as (Hp & Ha & _).
  destruct (free_in_use grant base grant_bound _ _ _ (bt_used _ _ _ _ _ _ _ B)) as (h1 & R1 & S1 & U1).
  destruct (free_in_use grant base grant_bound _ _ _ U1) as (h2 & R2 & S2 & U2).
  unfold array_block, tree_block in R1, R2. cbn [fst] in R1, R2.
  replace (arr - HEADER + HEADER) with arr in R1 by lia. replace (p - HEADER + HEADER) with p in R2 by lia.
  exists h2. split; [|split; [done|]].
  - unfold free_tree. erewrite bind_done by now apply load_done. rewrite (bt_tree _ _ _ _ _ _ _ B).
    erewrite bind_done by (apply lib_done; exact R1). exact (lib_done _ _ _ _ R2).
  - apply (same_blocks_trans _ _ h1); [|done]. intros b w Hb Hw. apply (S1 b w); [set_solver|done].
Qed.

(** The structure once [malloc] gave its block: [size] and [depth] are set. *)
Lemma struct_set h A p d n : in_use h (tree_block p :: A) ->
  let h' := set_mem (p + 0) d (set_mem (p + 8) n h) in
  in_use h' (tree_block p :: A) /\ same_blocks A h h' /\ ptr (p + 0) h' = d /\ ptr (p + 8) h' = n.
Proof.
  intros Hu h'. destruct (used_disjoint grant base grant_bound _ _ _ Hu) as (B1 & B0 & Hd).
  unfold tree_block, disj, block_end in *. change (units 16) with 3 in *. cbn [fst snd] in *.
  split; [|split; [|split]].
  - unfold h'. do 2 (eapply used_write; [|constructor|cbn [fst]; lia|unfold block_end, HEADER; cbn [fst snd]; lia]). done.
  - intros c w Hc Hw. specialize (Hd c Hc). unfold within, block_end, HEADER in *. unfold same_word, h'. cbn.
    now rewrite !lookup_insert_ne by lia.
  - apply ptr_set.
  - unfold h'. rewrite ptr_set_ne by lia. apply ptr_set.
Qed.

(** The field [tree] once [malloc] gave the array. *)
Lemma array_set h0 h A p arr d n :
  in_use h0 (tree_block p :: A) -> ptr (p + 0) h0 = d -> ptr (p + 8) h0 = n ->
  in_use h (array_block arr n :: tree_block p :: A) -> same_blocks (tree_block p :: A) h0 h ->
  4 * n <= HEADER * (units (4 * n) - 1) ->
  built A p arr d n [] (set_mem (p + 4) arr h) /\ same_blocks A h0 (set_mem (p + 4) arr h).
Proof.
  intros Hu0 H0 H8 Hu Hs Hn. destruct (used_disjoint grant base grant_bound _ _ _ Hu0) as (B1 & B0 & Hd).
  assert (Hin : forall o, 0 <= o < 16 -> within (p + o) (tree_block p)).
  { intros o Ho. unfold within, block_end, tree_block. change (units 16) with 3. unfold HEADER. cbn [fst snd]. lia. }
  pose proof (fun o Ho => same_blocks_ptr _ _ _ _ (p + o) Hs ltac:(constructor) (Hin o Ho)) as Hk. split.
  - split; rewrite ?ptr_set_ne, ?Hk by lia; try done; [|apply ptr_set].
    apply (used_write _ _ _ _ (tree_block p)); [done|set_solver|..];
      unfold block_end, tree_block; change (units 16) with 3; unfold HEADER; cbn [fst snd]; lia.
  - intros c w Hc Hw. specialize (Hd c Hc). unfold same_word. cbn. rewrite lookup_insert_ne; [apply (Hs c); set_solver|].
    unfold disj, within, block_end, tree_block in *. change (units 16) with 3 in *. unfold HEADER in *. cbn [fst snd] in *. lia.
Qed.

Lemma array_bytes d : (1 <= d <= 28)%nat -> let n := 2 ^ Z.of_nat d - 1 in
  s32 (Z.shiftl 2 (Z.of_nat d - 1) - 1) = n /\ u32 (n * 4) = 4 * n /\ 0 < n /\ 0 <= 4 * n < 2 ^ 31 - 16.
Proof.
  intros Hd n. assert (2 ^ 1 <= 2 ^ Z.of_nat d <= 2 ^ 28) by (split; apply Z.pow_le_mono_r; lia).
  change (2 ^ 1) with 2 in *. change (2 ^ 28) with 268435456 in *. subst n. split; [apply tree_size; lia|].
  split; [rewrite u32_small; lia|lia].
Qed.

(** What the loop does when [malloc] gave no array. *)
Lemma fill_null p n k u : p <> 0 -> ptr (p + 4) (u_heap u) = 0 -> ptr (p + 8) (u_heap u) = n -> 0 < n -> sv_ok (u_svc u) ->
  fill_loop (S k) p 0 u = Crash "null pointer".
Proof.
  intros Hp H4 H8 Hn Hok. cbn [fill_loop]. erewrite bind_done by now apply load_done. rewrite H8.
  replace (0 <? n) with true by lia.
  assert (Hr : exists r s', sv_alloc (u_svc u) = Done r s').
  { destruct (decide (sv_free (u_svc u) = ∅)) as [He|He].
    - destruct (sv_alloc_none _ Hok He) as (r & s' & Hr & _). eauto.
    - destruct (sv_alloc_some _ Hok He) as (r & s' & Hr & _). eauto. }
  destruct Hr as (r & s' & Hr). erewrite bind_done by (apply call_done; exact Hr).
  erewrite bind_done by now apply load_done. cbn [u_heap]. now rewrite H4.
Qed.

(** [malloc] has no memory for the structure, or none for the array: no free
    block is large enough and the kernel refuses to grow the program. *)
Definition no_memory (d n : Z) (h : heap) : Prop :=
  (exists h', malloc base grant 16 h = Done 0 h' /\ grant (h_brk h) (HEADER * grow (units 16)) = false) \/
  (exists p h1 h2, malloc base grant 16 h = Done p h1 /\ p <> 0 /\
    malloc base grant (4 * n) (set_mem (p + 0) d (set_mem (p + 8) n h1)) = Done 0 h2 /\
    grant (h_brk h1) (HEADER * grow (units (4 * n))) = false).

(** The allocation up to its loop. *)
Lemma alloc_memory (d : nat) A u :
  (1 <= d <= 28)%nat -> in_use (u_heap u) A -> sv_ok (u_svc u) ->
  let n := 2 ^ Z.of_nat d - 1 in
  (trnmnt_tree_alloc (Z.of_nat d) u = Crash "null pointer" /\ no_memory (Z.of_nat d) n (u_heap u)) \/
  exists p arr h, built A p arr (Z.of_nat d) n [] h /\ same_blocks A (u_heap u) h /\
    trnmnt_tree_alloc (Z.of_nat d) u =
    (bad <~ fill_loop (S (Z.to_nat n)) p 0 ;;
     match bad with
     | None => ret p
     | Some i => undo_loop (Z.to_nat i) p 0 ;;; free_tree p ;;; ret 0
     end) (mkUser h (u_svc u) (u_out u)).
Proof.
  intros Hd Hu Hok n. destruct (array_bytes d Hd) as (E1 & E2 & Hn & Hb). fold n in E1, E2, Hn, Hb.
  unfold trnmnt_tree_alloc. replace (Z.of_nat d <? 1) with false by lia. rewrite E1.
  destruct (malloc_in_use grant base grant_bound _ _ 16 Hu ltac:(lia)) as (p & h1 & R1 & S1 & [(-> & G1 & U1)|(Hp & _ & U1)]);
    erewrite bind_done by (apply lib_done; exact R1).
  { left. split; [reflexivity|]. left. eauto. }
  destruct (struct_set h1 A p (Z.of_nat d) n U1) as (U2 & S2 & H0 & H8).
  erewrite bind_done by now apply store_done. erewrite bind_done by now apply store_done. cbn [u_heap u_svc u_out].
  erewrite bind_done by now apply load_done. cbn [u_heap]. rewrite H8, E2.
  set (h2 := set_mem (p + 0) _ _) in *.
  destruct (malloc_in_use grant base grant_bound _ _ (4 * n) U2 Hb) as (arr & h3 & R3 & S3 & Hres);
    erewrite bind_done by (apply lib_done; exact R3); erewrite bind_done by now apply store_done; cbn [u_heap u_svc u_out].
  destruct Hres as [(-> & G3 & U3)|(Ha & Hz & U3)].
  - left. split; [|right; exists p, h1, h3; done]. unfold bind. erewrite (fill_null p n); [reflexivity|done|apply ptr_set| |done|exact Hok].
    cbn [u_heap]. rewrite ptr_set_ne by lia. rewrite (same_blocks_ptr _ _ _ (tree_block p) (p + 8) S3); [done|constructor|].
    unfold within, block_end, tree_block. change (units 16) with 3. unfold HEADER. cbn [fst snd]. lia.
  - right. destruct (array_set h2 h3 A p arr (Z.of_nat d) n U2 H0 H8 U3 S3 Hz) as [B S4].
    exists p, arr, (set_mem (p + 4) arr h3). split; [exact B|]. split; [|reflexivity].
    apply (same_blocks_trans _ _ h1); [done|]. now apply (same_blocks_trans _ _ h2).
Qed.

Lemma built_tree A p arr d n l h : built A p arr d n l h -> n = Z.of_nat (length l) ->
  tree_of p h = Some (mkTree d (Some (Z.of_nat <$> l)) n (ptr (p + 12) h)).
Proof.
  intros B Hn. destruct (built_pointers _ _ _ _ _ _ _ B) as (Hp & Ha & _). unfold tree_of.
  apply Z.eqb_neq in Hp as ->. rewrite (bt_depth _ _ _ _ _ _ _ B), (bt_tree _ _ _ _ _ _ _ B), (bt_size _ _ _ _ _ _ _ B).
  apply Z.eqb_neq in Ha as ->. do 3 f_equal. apply list_eq. intros j. rewrite Hn, Nat2Z.id, !list_lookup_fmap.
  destruct (l !! j) as [id|] eqn:Hj.
  - rewrite lookup_seq_lt by now apply (lookup_lt_Some _ _ _ Hj). cbn. f_equal. exact (bt_ids _ _ _ _ _ _ _ B j id Hj).
  - apply lookup_ge_None in Hj. now rewrite lookup_seq_ge by lia.
Qed.

(** Deallocation of a complete tree. *)
Lemma dealloc_spec A p arr d n l u :
  sv_ok (u_svc u) -> built A p arr d n l (u_heap u) -> n = Z.of_nat (length l) -> NoDup l -> list_to_set l ⊆ sv_mine (u_svc u) ->
  exists u', trnmnt_tree_dealloc p u = Done 0 u' /\ in_use (u_heap u') A /\ same_blocks A (u_heap u) (u_heap u') /\
    sv_ok (u_svc u') /\ sv_free (u_svc u') = list_to_set l ∪ sv_free (u_svc u) /\
    sv_mine (u_svc u') = sv_mine (u_svc u) ∖ list_to_set l.
Proof.
  intros Hok B Hn Hnd Hsub. destruct (built_pointers _ _ _ _ _ _ _ B) as (Hp & Ha & _).
  destruct (drop_spec A p arr d n l [] u Hok B Hnd Hsub) as (s' & Hok' & Hf & Hm & Hdrop & _). specialize (Hdrop Hn).
  destruct (free_tree_spec A p arr d n l (mkUser (u_heap u) s' (u_out u)) B) as (h' & Hr & Hu & Hs).
  exists (mkUser h' s' (u_out u)). split; [|done]. unfold trnmnt_tree_dealloc.
  replace (p =? 0) with false by lia. erewrite bind_done by now apply load_done. rewrite (bt_tree _ _ _ _ _ _ _ B).
  replace (arr =? 0) with false by lia. erewrite bind_done by now apply load_done. rewrite (bt_size _ _ _ _ _ _ _ B), Hn, Nat2Z.id.
  erewrite bind_done by exact Hdrop. cbv beta iota. now erewrite bind_done by exact Hr.
Qed.

(** C31. Allocation of a tree is all or nothing, whatever [malloc] answers.
    For a program that uses the blocks [A] of its heap: when there is no memory
    for the structure or for the array the call follows a null pointer.
    Otherwise, with enough free mutexes, it returns a tree in two new blocks of
    the heap, clear of each other and of [A]: the structure has the depth, the
    size [2^depth - 1] and the address of the array, and the array holds
    [2^depth - 1] distinct mutexes, each of which was free and now belongs to
    the caller; [trnmnt_tree_dealloc] of that tree returns 0 and gives every
    mutex and both blocks back.  Without enough mutexes it returns null, and
    the mutexes and the blocks in use are as before the call.  No call changes
    a word of [A] or prints the message about mutexes that cannot be freed.
    From depth 29 on the size of the array is beyond what [malloc] handles. *)
Theorem tree_alloc_all_or_nothing (d : nat) (A : list block) (u : user K) :
  (1 <= d <= 28)%nat -> in_use (u_heap u) A -> sv_ok (u_svc u) ->
  let n := 2 ^ Z.of_nat d - 1 in
  (trnmnt_tree_alloc (Z.of_nat d) u = Crash "null pointer" /\ no_memory (Z.of_nat d) n (u_heap u)) \/
  exists p u', trnmnt_tree_alloc (Z.of_nat d) u = Done p u' /\
    same_blocks A (u_heap u) (u_heap u') /\ u_out u' = u_out u /\ sv_ok (u_svc u') /\
    if decide (n <= Z.of_nat (size (sv_free (u_svc u))))
    then exists arr l tid,
      tree_of p (u_heap u') = Some (mkTree (Z.of_nat d) (Some (Z.of_nat <$> l)) n tid) /\ ptr (p + 4) (u_heap u') = arr /\
      in_use (u_heap u') (array_block arr n :: tree_block p :: A) /\
      (forall c, c ∈ tree_block p :: A -> disj (array_block arr n) c) /\ (forall c, c ∈ A -> disj (tree_block p) c) /\
      NoDup l /\ Z.of_nat (length l) = n /\ list_to_set l ⊆ sv_free (u_svc u) /\
      sv_free (u_svc u') = sv_free (u_svc u) ∖ list_to_set l /\ sv_mine (u_svc u') = list_to_set l ∪ sv_mine (u_svc u) /\
      exists u'', trnmnt_tree_dealloc p u' = Done 0 u'' /\ in_use (u_heap u'') A /\
        same_blocks A (u_heap u') (u_heap u'') /\ sv_ok (u_svc u'') /\
        sv_free (u_svc u'') = sv_free (u_svc u) /\ sv_mine (u_svc u'') = sv_mine (u_svc u)
    else p = 0 /\ in_use (u_heap u') A /\
      sv_free (u_svc u') = sv_free (u_svc u) /\ sv_mine (u_svc u') = sv_mine (u_svc u).
Proof.
  intros Hd Hu Hok n. destruct (array_bytes d Hd) as (_ & _ & Hn & _). fold n in Hn.
  destruct (alloc_memory d A u Hd Hu Hok) as [H|(p & arr & h & B & S0 & ->)]; [now left|right]. fold n in B |- *.
  destruct (fill_spec A p arr (Z.of_nat d) n (Z.to_nat n) [] (mkUser h (u_svc u) (u_out u)) Hok B ltac:(simpl; lia))
    as (l & u1 & Hnd & Hsub & Hok1 & Hf1 & Hm1 & Hlen & B1 & S1 & Ho & Hrun).
  cbn [u_heap u_svc u_out app length] in *. change (Z.of_nat 0) with 0 in Hrun. pose proof (sv_disjoint _ Hok) as Hdis.
  pose proof (same_blocks_trans _ _ _ _ S0 S1) as S01.
  assert (Hmine : list_to_set l ⊆ sv_mine (u_svc u1)) by (rewrite Hm1; clear; set_solver).
  assert (Ef : list_to_set l ∪ sv_free (u_svc u1) = sv_free (u_svc u)) by (rewrite Hf1; now rewrite <- union_difference_L).
  assert (Em : sv_mine (u_svc u1) ∖ list_to_set l = sv_mine (u_svc u)) by (rewrite Hm1; clear -Hsub Hdis; set_solver).
  erewrite bind_done by exact Hrun. destruct (decide (_ <= _)%nat) as [Hle|Hgt].
  - exists p, u1. rewrite decide_True by lia. do 4 (split; [done|]).
    exists arr, l, (ptr (p + 12) (u_heap u1)). split; [apply (built_tree _ _ _ _ _ _ _ B1); lia|]. split; [apply B1|].
    split; [apply B1|]. split; [apply (used_disjoint grant base grant_bound _ _ _ (bt_used _ _ _ _ _ _ _ B1))|].
    split; [intros c Hc; now apply (built_pointers _ _ _ _ _ _ _ B1)|]. do 5 (split; [done || lia|]).
    destruct (dealloc_spec _ _ _ _ _ _ _ Hok1 B1 ltac:(lia) Hnd Hmine) as (u2 & Hr & Hu2 & S2 & Hok2 & Hf2 & Hm2).
    exists u2. rewrite Hf2, Hm2. done.
  - destruct (drop_spec A p arr (Z.of_nat d) n l [] u1 Hok1 B1 Hnd Hmine) as (s' & Hok' & Hf & Hm & _ & Hundo).
    destruct (free_tree_spec A p arr (Z.of_nat d) n l (mkUser (u_heap u1) s' (u_out u1)) B1) as (h' & Hr & Hu' & S').
    exists 0, (mkUser h' s' (u_out u1)). rewrite decide_False by lia. cbn [u_heap u_svc u_out] in *. split.
    + cbv beta iota. rewrite Nat2Z.id. erewrite bind_done by exact Hundo. now erewrite bind_done by exact Hr.
    + split; [now apply (same_blocks_trans _ _ (u_heap u1))|]. rewrite Hf, Hm. done.
Qed.
End Alloc.

(** A program with two blocks allocates and frees a tree of depth 3 over the
    mutexes of the kernel. *)
Definition demo_user : user (kstate unit) := mkUser demo_heap2 (demo demo_exe ∅ RUNNING RUNNING) [].
Abbreviation demo_alloc := (trnmnt_tree_alloc (V := kernel_service demo_exe 0 0) 4096 demo_grant).

Lemma tree_alloc_all_or_nothing_witness :
  exists p u' arr l tid, demo_alloc 3 demo_user = Done p u' /\
    tree_of p (u_heap u') = Some (mkTree 3 (Some (Z.of_nat <$> l)) 7 tid) /\ ptr (p + 4) (u_heap u') = arr /\
    used demo_grant 4096 (u_heap u') [(arr - 8, 5); (p - 8, 3); (40824, 14); (40936, 3)] /\
    exists u'', trnmnt_tree_dealloc (V := kernel_service demo_exe 0 0) p u' = Done 0 u'' /\
      used demo_grant 4096 (u_heap u'') [(40824, 14); (40936, 3)].
Proof.
  destruct (tree_alloc_all_or_nothing (V := kernel_service demo_exe 0 0) 4096 demo_grant demo_grant_bound 3 _ demo_user
    ltac:(lia) demo_used service_demo) as [[H _]|(p & u' & Hr & _ & _ & _ & H)].
  - exfalso. assert (Hd : match demo_alloc 3 demo_user with Done _ _ => true | _ => false end = true) by (vm_compute; reflexivity).
    change 3 with (Z.of_nat 3) in Hd. now rewrite H in Hd.
  - rewrite decide_True in H by (vm_compute; discriminate).
    destruct H as (arr & l & tid & Ht & Ha & Hu & _ & _ & _ & _ & _ & _ & _ & u'' & Hr' & Hu' & _).
    exists p, u', arr, l, tid. split; [exact Hr|]. split; [exact Ht|]. split; [exact Ha|]. split; [exact Hu|].
    exists u''. now split.
Defined.
