(* ===== verification/Sh.v ===== *)
(** * The shell (sh.c)

    Parsing: the command line is a buffer that ends in a NUL at [es]; a pointer
    into it is its offset.  The state of the parser is the pointer [*ps]; a
    syntax error ([panic], which ends the child) is a [Crash].  A command node
    holds the bounds of its strings; [nulterminate] ends them in the buffer.
    The node that [execcmd] allocates is filled in while redirections are
    already wrapped around it, so [parseexec] collects its arguments and its
    redirections and puts them together at the end.  Memory for the nodes is
    taken to be available.

    Execution: [runcmd] is the tree of system calls that the process makes,
    branching on their results; a fork has two futures.  [script_of] reads off
    what the processes do when every call succeeds, with their descriptors. *)
From S2P Require Import Prelude Mmu Str.

Definition MAXARGS : nat := 10%nat.
Definition READ_MODE : Z := 0x000.
Definition WRITE_MODE : Z := Z.lor 0x001 0x200.

Inductive cmd :=
| Execcmd (argv : list (nat * nat))
| Redircmd (sub : cmd) (file efile : nat) (mode fd : Z)
| Pipecmd (left right : cmd)
| Listcmd (left right : cmd)
| Backcmd (sub : cmd).

(** " \t\r\n\v" and "<|>&;()" *)
Definition whitespace : list Z := [32; 9; 13; 10; 11].
Definition symbols : list Z := [60; 124; 62; 38; 59; 40; 41].
Definition oneof (l : list Z) (c : Z) : bool := bool_decide (is_Some (strchr l c)).

Definition AMP : Z := 38.
Definition SEMI : Z := 59.
Definition BAR : Z := 124.
Definition LPAR : Z := 40.
Definition RPAR : Z := 41.
Definition LT : Z := 60.
Definition GT : Z := 62.
Definition PLUS : Z := 43.
(** The code of a word, 'a'. *)
Definition WORD : Z := 97.

Section Parse.
Context (buf : list Z) (es : nat).

(** [while(s < es && f( *s)) s++], with [n = es - s]. *)
Fixpoint scan (f : Z -> bool) (n s : nat) : nat :=
  match n with
  | O => s
  | S n => if f (ch buf s) then scan f n (S s) else s
  end.
Definition skip_ws (s : nat) : nat := scan (oneof whitespace) (es - s) s.
Definition word_char (c : Z) : bool := negb (oneof whitespace c) && negb (oneof symbols c).
Definition word_end (s : nat) : nat := scan word_char (es - s) s.

(** The token at [s], a position after white space, and where it ends. *)
Definition token (s : nat) : Z * nat :=
  let c := ch buf s in
  if c =? 0 then (c, s)
  else if (c =? BAR) || (c =? LPAR) || (c =? RPAR) || (c =? SEMI) || (c =? AMP) || (c =? LT) then (c, S s)
  else if c =? GT then if ch buf (S s) =? GT then (PLUS, S (S s)) else (c, S s)
  else (WORD, word_end s).
(** The token, its start [*q] and its end [*eq]. *)
Definition gettoken : M nat (Z * (nat * nat)) :=
  s <~ gets skip_ws ;;
  let '(tok, e) := token s in
  modify (fun _ => skip_ws e) ;;;
  ret (tok, (s, e)).
Definition peek (toks : list Z) : M nat bool :=
  modify skip_ws ;;;
  gets (fun s => negb (ch buf s =? 0) && oneof toks (ch buf s)).

(** A redirection: the bounds of the file name, the mode and the descriptor. *)
Record redir := mkRedir { rd_file : nat; rd_efile : nat; rd_mode : Z; rd_fd : Z }.
Definition redircmd (sub : cmd) (r : redir) : cmd := Redircmd sub (rd_file r) (rd_efile r) (rd_mode r) (rd_fd r).
Definition wrap (rs : list redir) (c : cmd) : cmd := fold_left redircmd rs c.
Fixpoint parseredirs (fuel : nat) (rs : list redir) : M nat (list redir) :=
  more <~ peek [LT; GT] ;;
  if (more : bool) then
    match fuel with
    | O => fun _ => Spin
    | S fuel =>
        tok <~ gettoken ;;
        file <~ gettoken ;;
        if negb (file.1 =? WORD) then panic "missing file for redirection"
        else
          let '(q, eq) := file.2 in
          if tok.1 =? LT then parseredirs fuel (rs ++ [mkRedir q eq READ_MODE 0])
          else if tok.1 =? GT then parseredirs fuel (rs ++ [mkRedir q eq WRITE_MODE 1])
          else if tok.1 =? PLUS then parseredirs fuel (rs ++ [mkRedir q eq WRITE_MODE 1])
          else parseredirs fuel rs
    end
  else ret rs.

(** The loop of [parseexec]. *)
Fixpoint args_loop (fuel : nat) (argv : list (nat * nat)) (rs : list redir) : M nat cmd :=
  stop <~ peek [BAR; RPAR; AMP; SEMI] ;;
  if (stop : bool) then ret (wrap rs (Execcmd argv))
  else
    t <~ gettoken ;;
    if t.1 =? 0 then ret (wrap rs (Execcmd argv))
    else if negb (t.1 =? WORD) then panic "syntax"
    else
      let argv := argv ++ [t.2] in
      if (MAXARGS <=? length argv)%nat then panic "too many args"
      else
        match fuel with
        | O => fun _ => Spin
        | S fuel =>
            rs <~ parseredirs es rs ;;
            args_loop fuel argv rs
        end.
Fixpoint backs (fuel : nat) (c : cmd) : M nat cmd :=
  more <~ peek [AMP] ;;
  if (more : bool) then
    match fuel with
    | O => fun _ => Spin
    | S fuel => gettoken ;;; backs fuel (Backcmd c)
    end
  else ret c.

Fixpoint parseline (fuel : nat) : M nat cmd :=
  match fuel with
  | O => fun _ => Spin
  | S fuel =>
      c <~ parsepipe fuel ;;
      c <~ backs es c ;;
      more <~ peek [SEMI] ;;
      if (more : bool) then
        gettoken ;;;
        r <~ parseline fuel ;;
        ret (Listcmd c r)
      else ret c
  end
with parsepipe (fuel : nat) : M nat cmd :=
  match fuel with
  | O => fun _ => Spin
  | S fuel =>
      c <~ parseexec fuel ;;
      more <~ peek [BAR] ;;
      if (more : bool) then
        gettoken ;;;
        r <~ parsepipe fuel ;;
        ret (Pipecmd c r)
      else ret c
  end
with parseexec (fuel : nat) : M nat cmd :=
  match fuel with
  | O => fun _ => Spin
  | S fuel =>
      block <~ peek [LPAR] ;;
      if (block : bool) then
        (* parseblock *)
        open <~ peek [LPAR] ;;
        if negb open then panic "parseblock"
        else
          gettoken ;;;
          c <~ parseline fuel ;;
          close <~ peek [RPAR] ;;
          if negb close then panic "syntax - missing )"
          else
            gettoken ;;;
            rs <~ parseredirs es [] ;;
            ret (wrap rs c)
      else
        rs <~ parseredirs es [] ;;
        args_loop es [] rs
  end.

(** Three calls for each level of nesting, which takes a character. *)
Definition parse_fuel : nat := (3 * es + 3)%nat.
End Parse.

(** ** [nulterminate] and [parsecmd] *)
Definition put_nul (i : nat) (buf : list Z) : list Z := <[i := 0]> buf.
Fixpoint nulterminate (c : cmd) (buf : list Z) : list Z :=
  match c with
  | Execcmd argv => fold_left (fun buf a => put_nul a.2 buf) argv buf
  | Redircmd sub _ efile _ _ => put_nul efile (nulterminate sub buf)
  | Pipecmd l r => nulterminate r (nulterminate l buf)
  | Listcmd l r => nulterminate r (nulterminate l buf)
  | Backcmd sub => nulterminate sub buf
  end.
(** The command and the buffer that its strings lie in. *)
Definition parsecmd (buf : list Z) : prog nat (cmd * list Z) :=
  let es := strlen buf in
  (c <~ parseline buf es (parse_fuel es) ;;
   peek buf es [] ;;;
   s <~ gets (fun s => s) ;;
   if negb (s =? es)%nat then panic "syntax"
   else ret (c, nulterminate c buf)) 0%nat.

(** ** Parsing ends *)
(** [m] ends, in a result that satisfies [Q] or in a syntax error. *)
Definition ends {A} (m : M nat A) (s : nat) (Q : A -> nat -> Prop) : Prop :=
  match m s with
  | Done a s' => Q a s'
  | Crash _ => True
  | _ => False
  end.
Lemma ends_bind {A B} (m : M nat A) (f : A -> M nat B) s Q : ends m s (fun a s' => ends (f a) s' Q) -> ends (bind m f) s Q.
Proof. unfold ends, bind. now destruct (m s). Qed.
Lemma ends_mono {A} (m : M nat A) s (Q Q' : A -> nat -> Prop) : (forall a s', Q a s' -> Q' a s') -> ends m s Q -> ends m s Q'.
Proof. unfold ends. destruct (m s); auto. Qed.
Lemma ends_ret {A} (a : A) s (Q : A -> nat -> Prop) : Q a s -> ends (ret a) s Q.
Proof. done. Qed.
Lemma ends_panic {A} msg s (Q : A -> nat -> Prop) : ends (panic msg) s Q.
Proof. done. Qed.

Lemma oneof_spec l c : Forall (fun x => x <> 0) l -> oneof l c = true <-> c ∈ l.
Proof.
  intros Hl. unfold oneof. rewrite bool_decide_eq_true. induction Hl as [|x l Hx Hl IH]; cbn [strchr].
  - rewrite elem_of_nil. split; [intros [? ?]; done|done].
  - rewrite (proj2 (Z.eqb_neq _ _) Hx), elem_of_cons, <- IH. destruct (Z.eqb_spec x c) as [->|Hne].
    + split; [auto|intros _; eexists; reflexivity].
    + rewrite fmap_is_Some. split; [auto|]. intros [->|]; done.
Qed.

Section Facts.
Context (buf : list Z) (es : nat).
Hypothesis Hnul : forall i, (i < es)%nat -> ch buf i <> 0.
Hypothesis Hend : ch buf es = 0.

Lemma scan_range f n s : let e := scan buf f n s in
  (s <= e <= s + n)%nat /\ (forall i, (s <= i < e)%nat -> f (ch buf i) = true) /\ ((e < s + n)%nat -> f (ch buf e) = false).
Proof.
  revert s. induction n as [|n IH]; intros s; cbn [scan]; [split; [lia|split; [intros; lia|lia]]|].
  destruct (f (ch buf s)) eqn:E; [|split; [lia|split; [intros; lia|done]]].
  destruct (IH (S s)) as (H1 & H2 & H3). split; [lia|]. split; [|intros; apply H3; lia].
  intros i Hi. destruct (decide (i = s)) as [->|]; [done|]. apply H2. lia.
Qed.
Lemma skip_ws_spec s : (s <= es)%nat -> let e := skip_ws buf es s in
  (s <= e <= es)%nat /\ ((e < es)%nat -> oneof whitespace (ch buf e) = false).
Proof. intros Hs. destruct (scan_range (oneof whitespace) (es - s) s) as (H1 & _ & H3). unfold skip_ws. split; [lia|]. intros; apply H3; lia. Qed.

(** A word that ends at the end of the line, at white space or at a symbol. *)
Definition wf_word (t : nat * nat) : Prop :=
  (t.1 < t.2 <= es)%nat /\ (forall i, (t.1 <= i < t.2)%nat -> word_char (ch buf i) = true) /\
  ((t.2 < es)%nat -> word_char (ch buf t.2) = false).

Lemma gettoken_ends s (Q : Z * (nat * nat) -> nat -> Prop) :
  (s <= es)%nat ->
  (forall tok q e s', (s <= q <= es)%nat -> (q <= e /\ e <= s' <= es)%nat -> (tok = 0 -> q = es) -> (tok <> 0 -> (q < e)%nat) ->
    (tok = WORD -> wf_word (q, e)) -> ((s < es)%nat -> oneof whitespace (ch buf s) = false -> q = s) -> Q (tok, (q, e)) s') ->
  ends (gettoken buf es) s Q.
Proof.
  intros Hs HQ. unfold gettoken. destruct (skip_ws_spec s Hs) as [H1 H2]. set (q := skip_ws buf es s) in *.
  destruct (token buf es q) as [tok e] eqn:Ht. unfold ends, bind, gets, modify, ret. cbn [prog_bind]. fold q. rewrite Ht. cbn [prog_bind].
  assert (Htok : (e <= es)%nat /\ (tok = 0 -> q = es) /\ (tok <> 0 -> (q < e)%nat) /\ (tok = WORD -> wf_word (q, e))).
  { unfold token in Ht. destruct (Z.eqb_spec (ch buf q) 0) as [Hz|Hz].
    { injection Ht as <- <-. assert (q = es) by (destruct (decide (q = es)); [done|]; exfalso; apply (Hnul q); [lia|done]).
      rewrite Hz. split; [lia|]. split; [done|]. split; done. }
    assert (Hq : (q < es)%nat) by (destruct (decide (q = es)) as [->|]; [done|lia]).
    destruct (_ || _) eqn:Hsym in Ht.
    { injection Ht as <- <-. split; [lia|]. split; [done|]. split; [lia|]. intros E. rewrite E in Hsym. done. }
    destruct (Z.eqb_spec (ch buf q) GT) as [Hg|Hg].
    { destruct (Z.eqb_spec (ch buf (S q)) GT) as [Hg2|Hg2]; injection Ht as <- <-.
      - assert (S q <> es) by (intros E; rewrite E, Hend in Hg2; done). unfold PLUS, WORD. split; [lia|]. split; [lia|]. split; [lia|lia].
      - split; [lia|]. split; [done|]. split; [lia|]. rewrite Hg. done. }
    injection Ht as <- <-. unfold word_end. destruct (scan_range word_char (es - q) q) as (W1 & W2 & W3). set (e := scan _ _ _ _) in *.
    assert (Hw : word_char (ch buf q) = true).
    { unfold word_char. rewrite (H2 Hq). cbn [negb andb]. destruct (oneof symbols (ch buf q)) eqn:E; [|done].
      exfalso. apply oneof_spec in E; [|repeat constructor; done]. unfold symbols in E. rewrite !elem_of_cons, elem_of_nil in E.
      rewrite !orb_false_iff, !Z.eqb_neq in Hsym. unfold BAR, LPAR, RPAR, SEMI, AMP, LT, GT in *. intuition. }
    assert (q < e)%nat. { destruct (decide (e = q)) as [E|]; [|lia]. rewrite E in W3. rewrite W3 in Hw; [done|lia]. }
    split; [lia|]. split; [done|]. split; [done|]. intros _. split; [simpl; lia|]. split; [exact W2|]. simpl. intros. apply W3. lia. }
  destruct Htok as (T1 & T2 & T3 & T4). destruct (skip_ws_spec e T1) as [H3 _]. apply HQ; try done.
  2: { intros Hlt Hws. unfold q, skip_ws. destruct (es - s)%nat; [done|]. cbn [scan]. now rewrite Hws. }
  split; [|lia]. destruct (decide (tok = 0)) as [E|E]; [|specialize (T3 E); lia].
  specialize (T2 E). unfold token in Ht. rewrite T2, Hend in Ht. injection Ht as _ <-. lia.
Qed.
Lemma peek_ends toks s (Q : bool -> nat -> Prop) :
  (s <= es)%nat ->
  (forall s' b, (s <= s' <= es)%nat -> (b = true -> (s' < es)%nat /\ oneof toks (ch buf s') = true) ->
     (s' < es -> oneof whitespace (ch buf s') = false)%nat -> (b = false -> (s' < es)%nat -> oneof toks (ch buf s') = false) -> Q b s') ->
  ends (peek buf es toks) s Q.
Proof.
  intros Hs HQ. unfold peek, ends, bind, modify, gets. cbn [prog_bind]. destruct (skip_ws_spec s Hs) as [H1 H2].
  set (q := skip_ws buf es s) in *. apply HQ; [lia| |done|].
  - intros [Hz Ho]%andb_true_iff. split; [|done]. apply negb_true_iff, Z.eqb_neq in Hz. destruct (decide (q = es)) as [->|]; [done|lia].
  - intros Hb Hq. apply Hnul in Hq. rewrite (proj2 (Z.eqb_neq _ _) Hq) in Hb. done.
Qed.

(** The strings of a command are words of the line, and no command has more
    arguments than fit. *)
Fixpoint wf_cmd (c : cmd) : Prop :=
  match c with
  | Execcmd argv => Forall wf_word argv /\ (length argv < MAXARGS)%nat
  | Redircmd sub f e _ _ => wf_cmd sub /\ wf_word (f, e)
  | Pipecmd l r => wf_cmd l /\ wf_cmd r
  | Listcmd l r => wf_cmd l /\ wf_cmd r
  | Backcmd sub => wf_cmd sub
  end.
Definition wf_redir (r : redir) : Prop := wf_word (rd_file r, rd_efile r).
Lemma wf_wrap rs c : Forall wf_redir rs -> wf_cmd c -> wf_cmd (wrap rs c).
Proof. intros Hr. revert c. induction Hr as [|r rs Hr Hrs IH]; intros c Hc; [done|]. apply IH. now split. Qed.

Lemma parseredirs_ends fuel rs s (Q : list redir -> nat -> Prop) :
  (s <= es)%nat -> (es - s <= fuel)%nat -> Forall wf_redir rs ->
  (forall rs' s', (s <= s' <= es)%nat -> Forall wf_redir rs' -> Q rs' s') -> ends (parseredirs buf es fuel rs) s Q.
Proof.
  revert rs s. induction fuel as [|fuel IH]; intros rs s Hs Hf Hr HQ; cbn [parseredirs]; apply ends_bind, peek_ends; try done;
    intros s1 b H1 Hb _ _; destruct b; try (apply ends_ret, HQ; [lia|done]); destruct (Hb eq_refl) as [Hlt Hone]; [lia|].
  apply ends_bind, gettoken_ends; [lia|]. intros tok q e s2 T1 T2 T3 T4 _ _.
  apply ends_bind, gettoken_ends; [lia|]. intros tok' q' e' s3 U1 U2 U3 U4 U5 _. cbn [fst snd].
  destruct (Z.eqb_spec tok' WORD) as [E|_]; [|apply ends_panic]. cbn [negb]. specialize (U5 E). specialize (U4 ltac:(rewrite E; done)).
  assert (Hgo : forall r, wf_redir r -> ends (parseredirs buf es fuel (rs ++ [r])) s3 Q).
  { intros r Hr'. apply IH; [lia|lia|apply Forall_app; split; [done|now constructor]|]. intros rs' s' H'. apply HQ. lia. }
  destruct (tok =? LT); [now apply Hgo|]. destruct (tok =? GT); [now apply Hgo|]. destruct (tok =? PLUS); [now apply Hgo|].
  apply IH; [lia|lia|done|]. intros rs' s' H'. apply HQ. lia.
Qed.

Lemma args_loop_ends fuel argv rs s (Q : cmd -> nat -> Prop) :
  (s <= es)%nat -> (es - s <= fuel)%nat -> Forall wf_word argv -> (length argv < MAXARGS)%nat -> Forall wf_redir rs ->
  (forall c s', (s <= s' <= es)%nat -> wf_cmd c -> Q c s') -> ends (args_loop buf es fuel argv rs) s Q.
Proof.
  revert argv rs s. induction fuel as [|fuel IH]; intros argv rs s Hs Hf Ha Hl Hr HQ; cbn [args_loop]; apply ends_bind, peek_ends; try done;
    intros s1 b H1 _ _ _; destruct b; try (apply ends_ret, HQ; [lia|now apply wf_wrap]);
    (apply ends_bind, gettoken_ends; [lia|]); intros tok q e s2 T1 T2 T3 T4 T5 _; cbn [fst snd];
    (destruct (Z.eqb_spec tok 0) as [Hz|Hz]; [apply ends_ret, HQ; [|now apply wf_wrap]|]); try lia;
    (destruct (Z.eqb_spec tok WORD) as [E|_]; [|apply ends_panic]); cbn [negb];
    specialize (T4 Hz); specialize (T5 E).
  destruct (Nat.leb_spec MAXARGS (length (argv ++ [(q, e)]))) as [Hm|Hm]; [apply ends_panic|].
  apply ends_bind, parseredirs_ends; [lia|lia|done|]. intros rs' s3 H3 Hr'.
  apply IH; try done; [lia|lia|apply Forall_app; split; [done|now constructor]|]. intros c s' H'. apply HQ. lia.
Qed.
(** A symbol that [peek] has seen is taken. *)
Lemma symbol_ends s (m : M nat cmd) (Q : cmd -> nat -> Prop) :
  (s < es)%nat -> oneof whitespace (ch buf s) = false ->
  (forall s', (s < s' <= es)%nat -> ends m s' Q) -> ends (gettoken buf es ;;; m) s Q.
Proof.
  intros Hs Hws Hm. apply ends_bind, gettoken_ends; [lia|]. intros tok q e s2 T1 T2 T3 T4 _ T6. specialize (T6 Hs Hws). subst q.
  apply Hm. assert (tok <> 0) by (intros E; specialize (T3 E); lia). specialize (T4 ltac:(done)). lia.
Qed.

Lemma backs_ends fuel c s (Q : cmd -> nat -> Prop) :
  (s <= es)%nat -> (es - s <= fuel)%nat -> wf_cmd c ->
  (forall c s', (s <= s' <= es)%nat -> wf_cmd c -> Q c s') -> ends (backs buf es fuel c) s Q.
Proof.
  revert c s. induction fuel as [|fuel IH]; intros c s Hs Hf Hc HQ; cbn [backs]; apply ends_bind, peek_ends; try done;
    intros s1 b H1 Hb Hws _; destruct b; try (apply ends_ret, HQ; [lia|done]); destruct (Hb eq_refl) as [Hlt Hone]; [lia|].
  apply symbol_ends; [done|auto|]. intros s2 H2. apply IH; [lia|lia|done|]. intros c' s' H'. apply HQ. lia.
Qed.

Lemma parse_ends fuel :
  (forall s Q, (s <= es)%nat -> (3 * (es - s) + 3 <= fuel)%nat ->
    (forall c s', (s <= s' <= es)%nat -> wf_cmd c -> Q c s') -> ends (parseline buf es fuel) s Q) /\
  (forall s Q, (s <= es)%nat -> (3 * (es - s) + 2 <= fuel)%nat ->
    (forall c s', (s <= s' <= es)%nat -> wf_cmd c -> Q c s') -> ends (parsepipe buf es fuel) s Q) /\
  (forall s Q, (s <= es)%nat -> (3 * (es - s) + 1 <= fuel)%nat ->
    (forall c s', (s <= s' <= es)%nat -> wf_cmd c -> Q c s') -> ends (parseexec buf es fuel) s Q).
Proof.
  induction fuel as [|fuel (IHl & IHp & IHe)]; [split; [|split]; intros; lia|].
  split; [|split]; intros s Q Hs Hf HQ; cbn [parseline parsepipe parseexec].
  - apply ends_bind, IHp; [done|lia|]. intros c s1 H1 Hc. apply ends_bind, backs_ends; [lia|lia|done|].
    intros c2 s2 H2 Hc2. apply ends_bind, peek_ends; [lia|]. intros s3 b H3 Hb Hws _. destruct b; [|apply ends_ret, HQ; [lia|done]].
    destruct (Hb eq_refl) as [Hlt _]. apply symbol_ends; [done|auto|]. intros s4 H4.
    apply ends_bind, IHl; [lia|lia|]. intros c5 s5 H5 Hc5. apply ends_ret, HQ; [lia|now split].
  - apply ends_bind, IHe; [done|lia|]. intros c s1 H1 Hc.
    apply ends_bind, peek_ends; [lia|]. intros s3 b H3 Hb Hws _. destruct b; [|apply ends_ret, HQ; [lia|done]].
    destruct (Hb eq_refl) as [Hlt _]. apply symbol_ends; [done|auto|]. intros s4 H4.
    apply ends_bind, IHp; [lia|lia|]. intros c5 s5 H5 Hc5. apply ends_ret, HQ; [lia|now split].
  - apply ends_bind, peek_ends; [done|]. intros s1 b H1 Hb Hws _. destruct b.
    + destruct (Hb eq_refl) as [Hlt _]. apply ends_bind, peek_ends; [lia|]. intros s2 b2 H2 Hb2 Hws2 _.
      destruct b2; [|apply ends_panic]. cbn [negb]. destruct (Hb2 eq_refl) as [Hlt2 _].
      apply symbol_ends; [done|auto|]. intros s3 H3. apply ends_bind, IHl; [lia|lia|]. intros c s4 H4 Hc.
      apply ends_bind, peek_ends; [lia|]. intros s5 b5 H5 Hb5 Hws5 _. destruct b5; [|apply ends_panic]. cbn [negb].
      destruct (Hb5 eq_refl) as [Hlt5 _]. apply symbol_ends; [done|auto|]. intros s6 H6.
      apply ends_bind, parseredirs_ends; [lia|lia|constructor|]. intros rs s7 H7 Hrs. apply ends_ret, HQ; [lia|now apply wf_wrap].
    + apply ends_bind, parseredirs_ends; [lia|lia|constructor|]. intros rs s7 H7 Hrs.
      apply args_loop_ends; try done; [lia|lia|unfold MAXARGS; simpl; lia|]. intros c s8 H8. apply HQ. lia.
Qed.
End Facts.

(** ** The strings of a command *)
Fixpoint words (c : cmd) : list (nat * nat) :=
  match c with
  | Execcmd argv => argv
  | Redircmd sub f e _ _ => words sub ++ [(f, e)]
  | Pipecmd l r => words l ++ words r
  | Listcmd l r => words l ++ words r
  | Backcmd sub => words sub
  end.
(** The C string at an address. *)
Definition c_str (buf : list Z) (q : nat) : list Z := let s := drop q buf in take (strlen s) s.
Definition span (buf : list Z) (t : nat * nat) : list Z := take (t.2 - t.1) (drop t.1 buf).

Lemma wf_words buf es c : wf_cmd buf es c -> Forall (wf_word buf es) (words c).
Proof.
  induction c as [argv|sub IH f e mode fd|l IHl r IHr|l IHl r IHr|sub IH]; cbn [wf_cmd words]; rewrite ?Forall_app.
  - now intros [? _].
  - intros [H1 H2]. split; [auto|now constructor].
  - intros [H1 H2]. auto.
  - intros [H1 H2]. auto.
  - auto.
Qed.

(** What [nulterminate] writes: a NUL at the end of each string, nothing else. *)
Lemma fold_nul_spec (argv : list (nat * nat)) buf i :
  fold_left (fun buf a => put_nul a.2 buf) argv buf !! i = (if decide (i ∈ argv.*2) then (fun _ => 0) <$> buf !! i else buf !! i).
Proof.
  revert buf. induction argv as [|a argv IH]; intros buf; cbn [fold_left]; [done|]. rewrite IH. unfold put_nul.
  rewrite fmap_cons. destruct (decide (i = a.2)) as [->|Hne].
  - rewrite (decide_True _ _ (list_elem_of_here _ _)). destruct (decide (a.2 < length buf)%nat).
    + rewrite list_lookup_insert_eq by done. destruct (lookup_lt_is_Some_2 buf a.2) as [x ->]; [done|]. now destruct (decide _).
    + rewrite list_insert_ge by lia. rewrite lookup_ge_None_2 by lia. now destruct (decide _).
  - rewrite list_lookup_insert_ne by done. destruct (decide (i ∈ argv.*2)), (decide (i ∈ a.2 :: argv.*2)); try done; set_solver.
Qed.
Lemma nulterminate_spec c buf i :
  nulterminate c buf !! i = (if decide (i ∈ (words c).*2) then (fun _ => 0) <$> buf !! i else buf !! i).
Proof.
  revert buf. induction c as [argv|sub IH f e mode fd|l IHl r IHr|l IHl r IHr|sub IH]; intros buf; cbn [nulterminate words].
  - apply fold_nul_spec.
  - change (put_nul e (nulterminate sub buf)) with (fold_left (fun buf a => put_nul a.2 buf) [(f, e)] (nulterminate sub buf)).
    rewrite fold_nul_spec, IH, fmap_app. cbn [fmap list_fmap snd].
    destruct (decide (i ∈ [e])), (decide (i ∈ (words sub).*2)), (decide (i ∈ (words sub).*2 ++ [e])); try done; try set_solver; now destruct (buf !! i).
  - rewrite IHr, IHl, fmap_app. destruct (decide (i ∈ (words l).*2)), (decide (i ∈ (words r).*2)), (decide (i ∈ (words l).*2 ++ _)); try done; try set_solver; now destruct (buf !! i).
  - rewrite IHr, IHl, fmap_app. destruct (decide (i ∈ (words l).*2)), (decide (i ∈ (words r).*2)), (decide (i ∈ (words l).*2 ++ _)); try done; try set_solver; now destruct (buf !! i).
  - apply IH.
Qed.

Lemma length_nulterminate c buf : length (nulterminate c buf) = length buf.
Proof.
  revert buf. induction c as [argv|sub IH f e mode fd|l IHl r IHr|l IHl r IHr|sub IH]; intros buf; cbn [nulterminate].
  - revert buf. induction argv as [|a argv IH]; intros buf; cbn [fold_left]; [done|]. rewrite IH. apply length_insert.
  - unfold put_nul. now rewrite length_insert.
  - now rewrite IHr, IHl.
  - now rewrite IHr, IHl.
  - apply IH.
Qed.
Lemma strlen_spec s : (forall i, (i < strlen s)%nat -> ch s i <> 0) /\ ch s (strlen s) = 0 /\ (strlen s <= length s)%nat.
Proof.
  induction s as [|c s (H1 & H2 & H3)]; cbn [strlen]; [split; [intros; lia|done]|].
  destruct (Z.eqb_spec c 0) as [->|Hc]; [split; [intros; lia|split; [done|simpl; lia]]|].
  split; [|split; [exact H2|simpl; lia]]. intros [|i] Hi; [done|]. apply H1. lia.
Qed.
Lemma strlen_eq s n : (forall i, (i < n)%nat -> exists c, s !! i = Some c /\ c <> 0) -> s !! n = Some 0 -> strlen s = n.
Proof.
  revert n. induction s as [|c s IH]; intros n H1 H2; [done|]. cbn [strlen]. destruct n as [|n].
  - injection H2 as ->. done.
  - destruct (H1 0%nat ltac:(lia)) as (d & [= <-] & Hd). rewrite (proj2 (Z.eqb_neq _ _) Hd). f_equal. apply IH; [|done].
    intros i Hi. apply (H1 (S i)). lia.
Qed.

Lemma word_string buf es c t (b := nulterminate c buf) :
  (forall i, (i < es)%nat -> ch buf i <> 0) -> (es < length buf)%nat -> Forall (wf_word buf es) (words c) -> t ∈ words c ->
  c_str b t.1 = span buf t.
Proof.
  intros Hnul Hlen Hw Ht. rewrite Forall_forall in Hw. destruct (Hw t Ht) as (T1 & T2 & T3).
  assert (Hin : forall i, (t.1 <= i < t.2)%nat -> b !! i = buf !! i).
  { intros i Hi. unfold b. rewrite nulterminate_spec. destruct (decide (i ∈ (words c).*2)) as [H|]; [|done].
    exfalso. apply list_elem_of_fmap in H as (u & -> & Hu). destruct (Hw u Hu) as (U1 & U2 & U3).
    specialize (T2 u.2 Hi). rewrite U3 in T2; [done|lia]. }
  assert (Hend : b !! t.2 = Some 0).
  { unfold b. rewrite nulterminate_spec. rewrite decide_True by (apply list_elem_of_fmap; eauto).
    destruct (lookup_lt_is_Some_2 buf t.2) as [x ->]; [lia|done]. }
  unfold c_str, span. rewrite (strlen_eq _ (t.2 - t.1)).
  - apply list_eq. intros i. destruct (decide (i < t.2 - t.1)%nat).
    + rewrite !lookup_take_lt by done. rewrite !lookup_drop. apply Hin. lia.
    + rewrite !lookup_take_ge by lia. done.
  - intros i Hi. rewrite lookup_drop, Hin by lia. assert (Hc : ch buf (t.1 + i) <> 0) by (apply Hnul; lia).
    unfold ch in Hc. destruct (buf !! (t.1 + i)%nat) as [x|]; [|done]. eauto.
  - rewrite lookup_drop. replace (t.1 + (t.2 - t.1))%nat with t.2 by lia. done.
Qed.

Lemma parsecmd_ends buf :
  match parsecmd buf with
  | Done (c, b) s => s = strlen buf /\ wf_cmd buf (strlen buf) c /\ b = nulterminate c buf
  | Crash _ => True
  | _ => False
  end.
Proof.
  destruct (strlen_spec buf) as (Hnul & Hend & _). unfold parsecmd. set (es := strlen buf) in *. cbv zeta.
  enough (He : ends (c <~ parseline buf es (parse_fuel es) ;; peek buf es [] ;;; s <~ gets (fun s => s) ;;
    if negb (s =? es)%nat then panic "syntax" else ret (c, nulterminate c buf)) 0
    (fun r s => s = es /\ wf_cmd buf es r.1 /\ r.2 = nulterminate r.1 buf)).
  { unfold ends in He. now destruct (bind _ _ _) as [[c b] s|msg|s k|]. }
  apply ends_bind. apply (proj1 (parse_ends buf es Hnul Hend _)); [lia|unfold parse_fuel; lia|]. intros c s H1 Hc.
  apply ends_bind, peek_ends; try done; [lia|]. intros s' b H2 _ _ _. unfold ends, bind, gets. cbn [prog_bind].
  destruct (Nat.eqb_spec s' es); done.
Qed.

(** C35. Whatever is typed, [parsecmd] ends: it reports a syntax error, or it has
    read the whole line, every string of the command is a word of the line (so
    it has no white space and no symbol in it), no command has more arguments
    than its array holds with the terminating null pointer, and after
    [nulterminate] has written into the shared buffer each pointer is still the
    start of exactly its own word, as a C string. *)
Theorem parsecmd_strings buf :
  (strlen buf < length buf)%nat ->
  (exists msg, parsecmd buf = Crash msg) \/
  exists c b, parsecmd buf = Done (c, b) (strlen buf) /\ wf_cmd buf (strlen buf) c /\ length b = length buf /\
    forall t, t ∈ words c -> c_str b t.1 = span buf t /\ span buf t <> [] /\ Forall (fun x => word_char x = true) (span buf t).
Proof.
  intros Hlen. pose proof (parsecmd_ends buf) as He. destruct (parsecmd buf) as [[c b] s|msg|s k|] eqn:Hp; try done; [|left; eauto].
  right. destruct He as (-> & Hc & Hb). subst b. exists c, (nulterminate c buf). split; [done|]. split; [done|].
  destruct (strlen_spec buf) as (Hnul & _).
  pose proof (wf_words _ _ _ Hc) as Hw. split.
  { apply length_nulterminate. }
  intros t Ht. split; [now apply (word_string buf (strlen buf))|]. rewrite Forall_forall in Hw.
  destruct (Hw t Ht) as (T1 & T2 & _). unfold span. split.
  - intros E. apply (f_equal length) in E. rewrite length_take, length_drop in E. simpl in E. lia.
  - apply Forall_lookup. intros i x Hi. apply lookup_take_Some in Hi as [Hi Hlt]. rewrite lookup_drop in Hi.
    specialize (T2 (t.1 + i)%nat ltac:(lia)). unfold ch in T2. now rewrite Hi in T2.
Qed.

(** ** Printing and parsing *)
(** Commands with their strings. *)
Inductive scmd :=
| SExec (args : list (list Z))
| SRedir (sub : scmd) (file : list Z) (mode fd : Z)
| SPipe (left right : scmd)
| SList (left right : scmd)
| SBack (sub : scmd).
Fixpoint view (buf : list Z) (c : cmd) : scmd :=
  match c with
  | Execcmd argv => SExec (span buf <$> argv)
  | Redircmd sub f e mode fd => SRedir (view buf sub) (span buf (f, e)) mode fd
  | Pipecmd l r => SPipe (view buf l) (view buf r)
  | Listcmd l r => SList (view buf l) (view buf r)
  | Backcmd sub => SBack (view buf sub)
  end.

(** A command line is a sequence of words and symbols, a space after each. *)
Inductive tok := TWord (w : list Z) | TSym (c : Z).
Definition text (t : tok) : list Z := match t with TWord w => w | TSym c => [c] end.
Definition code (t : tok) : Z := match t with TWord _ => WORD | TSym c => c end.
Definition first (t : tok) : Z := ch (text t) 0.
Fixpoint render (ts : list tok) : list Z :=
  match ts with
  | [] => []
  | t :: ts => text t ++ 32 :: render ts
  end.

(** A list binds weakest (level 3), then [&], then [|]; a command in the place
    of a stronger one is put in parentheses. *)
Definition paren (b : bool) (ts : list tok) : list tok := if b then TSym LPAR :: ts ++ [TSym RPAR] else ts.
Definition rtoks (file : list Z) (fd : Z) : list tok := [TSym (if fd =? 0 then LT else GT); TWord file].
Fixpoint toks (level : nat) (c : scmd) : list tok :=
  match c with
  | SExec args => TWord <$> args
  | SRedir sub file _ fd => toks 0 sub ++ rtoks file fd
  | SPipe l r => paren (level <? 1)%nat (toks 0 l ++ TSym BAR :: toks 1 r)
  | SBack sub => paren (level <? 2)%nat (toks 2 sub ++ [TSym AMP])
  | SList l r => paren (level <? 3)%nat (toks 2 l ++ TSym SEMI :: toks 3 r)
  end.
Definition print_cmd (c : scmd) : list Z := render (toks 3 c).

Definition word_ok (w : list Z) : Prop := w <> [] /\ Forall (fun x => x <> 0 /\ word_char x = true) w.
Definition redir_ok (mode fd : Z) : Prop := (mode = READ_MODE /\ fd = 0) \/ (mode = WRITE_MODE /\ fd = 1).
Fixpoint printable (c : scmd) : Prop :=
  match c with
  | SExec args => Forall word_ok args /\ (length args < MAXARGS)%nat
  | SRedir sub file mode fd => printable sub /\ word_ok file /\ redir_ok mode fd
  | SPipe l r => printable l /\ printable r
  | SList l r => printable l /\ printable r
  | SBack sub => printable sub
  end.
Definition tok_ok (t : tok) : Prop := match t with TWord w => word_ok w | TSym c => c ∈ symbols end.

Section Print.
Context (line : list Z).
Let buf := line ++ [0].
Let es := length line.
Hypothesis Hline : Forall (fun x => x <> 0) line.

(** The rest of the line at [s]. *)
Definition at_toks (s : nat) (ts : list tok) : Prop := (s <= es)%nat /\ drop s line = render ts.

Lemma ch_line i x : line !! i = Some x -> ch buf i = x.
Proof. intros H. unfold ch, buf. rewrite lookup_app_l by (apply lookup_lt_Some in H; done). now rewrite H. Qed.
Lemma ch_end : ch buf es = 0.
Proof. unfold ch, buf, es. rewrite lookup_app_r by lia. now rewrite Nat.sub_diag. Qed.
Lemma ch_at s l x k : drop s line = l -> l !! k = Some x -> ch buf (s + k) = x.
Proof. intros Hd Hk. apply ch_line. rewrite <- lookup_drop, Hd. done. Qed.

Lemma first_char t : tok_ok t -> text t <> [] /\ first t <> 0 /\ oneof whitespace (first t) = false /\
  (oneof symbols (first t) = true <-> exists c, t = TSym c).
Proof.
  destruct t as [w|c]; cbn [tok_ok text]; unfold first; cbn [text].
  - intros [Hw Hf]. destruct w as [|x w]; [done|]. inversion Hf as [|? ? [Hx Hwc] _]; subst. unfold ch. cbn.
    apply andb_true_iff in Hwc as [H1 H2]. apply negb_true_iff in H1, H2. split; [done|]. split; [done|]. split; [done|].
    rewrite H2. split; [done|]. intros [c [=]].
  - intros Hc. split; [done|]. assert (Hs : oneof symbols c = true) by (apply oneof_spec; [repeat constructor; done|done]).
    unfold symbols in Hc. rewrite !elem_of_cons, elem_of_nil in Hc.
    unfold ch. cbn. rewrite Hs. assert (Hc' : c <> 0 /\ oneof whitespace c = false)
      by (repeat (destruct Hc as [->|Hc]; [split; [lia|reflexivity]|]); done).
    split; [apply Hc'|]. split; [apply Hc'|]. split; eauto.
Qed.

Lemma skip_ws_at s ts : at_toks s ts -> Forall tok_ok ts -> skip_ws buf es s = s.
Proof.
  intros [Hs Hd] Ht. unfold skip_ws. destruct (es - s)%nat eqn:E; [done|]. cbn [scan].
  destruct ts as [|t ts]; [exfalso; apply (f_equal length) in Hd; rewrite length_drop in Hd; simpl in Hd; fold es in Hd; lia|].
  inversion Ht as [|? ? Ht1 _]; subst. destruct (first_char t Ht1) as (H1 & _ & H3 & _).
  destruct (text t) as [|x w] eqn:Ex; [done|]. cbn [render] in Hd. rewrite Ex in Hd.
  pose proof (ch_at s _ x 0 Hd eq_refl) as Hx. rewrite Nat.add_0_r in Hx. rewrite Hx. unfold first in H3. rewrite Ex in H3. cbn in H3. now rewrite H3.
Qed.
(** After a token: over its space. *)
Lemma after_tok s t ts : at_toks s (t :: ts) -> Forall tok_ok ts ->
  (s + length (text t) < es)%nat /\ skip_ws buf es (s + length (text t)) = S (s + length (text t)) /\ at_toks (S (s + length (text t))) ts.
Proof.
  intros [Hs Hd] Ht. cbn [render] in Hd. set (e := (s + length (text t))%nat).
  assert (Hlt : (e < es)%nat).
  { apply (f_equal length) in Hd. rewrite length_drop, length_app in Hd. simpl in Hd. fold es in Hd. lia. }
  assert (Hat : at_toks (S e) ts).
  { split; [lia|]. replace (S e) with (s + (length (text t) + 1))%nat by lia. rewrite <- drop_drop, Hd.
    replace (text t ++ 32 :: render ts) with ((text t ++ [32]) ++ render ts) by now rewrite <- app_assoc.
    apply drop_app_length'. rewrite length_app. done. }
  split; [done|]. split; [|done]. pose proof (skip_ws_at _ _ Hat Ht) as Hsk. unfold skip_ws in Hsk |- *.
  replace (es - e)%nat with (S (es - S e)) by lia. cbn [scan].
  assert (Hx : ch buf e = 32) by (apply (ch_at s _ 32 (length (text t)) Hd); now apply list_lookup_middle).
  rewrite Hx. exact Hsk.
Qed.

Lemma word_end_at s w r : drop s line = w ++ 32 :: r -> Forall (fun x => x <> 0 /\ word_char x = true) w -> word_end buf es s = (s + length w)%nat.
Proof.
  intros Hd Hw. assert (Hl : (s + length w < es)%nat).
  { apply (f_equal length) in Hd. rewrite length_drop, length_app in Hd. simpl in Hd. fold es in Hd. lia. }
  destruct (scan_range buf word_char (es - s) s) as (W1 & W2 & W3). fold (word_end buf es s) in *. set (e := word_end buf es s) in *.
  destruct (Nat.lt_trichotomy e (s + length w)) as [H|[H|H]]; [|done|]; exfalso.
  - destruct (lookup_lt_is_Some_2 w (e - s)) as [x Hx]; [lia|]. pose proof (ch_at s _ x (e - s) Hd) as Hc.
    rewrite lookup_app_l, Hx in Hc by lia. specialize (Hc eq_refl). replace (s + (e - s))%nat with e in Hc by lia.
    rewrite Forall_lookup in Hw. destruct (Hw _ _ Hx) as [_ Hwc]. rewrite <- Hc, W3 in Hwc; [done|lia].
  - specialize (W2 (s + length w)%nat ltac:(lia)). rewrite (ch_at s _ 32 (length w) Hd) in W2; [done|]. now apply list_lookup_middle.
Qed.
Lemma token_at s t ts : at_toks s (t :: ts) -> tok_ok t -> token buf es s = (code t, (s + length (text t))%nat) /\
  span buf (s, (s + length (text t))%nat) = text t.
Proof.
  intros [Hs Hd] Ht. cbn [render] in Hd. destruct (first_char t Ht) as (F1 & F2 & F3 & F4).
  assert (Hf : ch buf s = first t).
  { destruct (text t) as [|x w] eqn:Ex; [done|]. rewrite <- (Nat.add_0_r s) at 1. unfold first. rewrite Ex.
    apply (ch_at s _ x 0 Hd). done. }
  split.
  - unfold token. rewrite Hf, (proj2 (Z.eqb_neq _ _) F2). destruct t as [w|c]; cbn [code text] in *.
    + destruct (oneof symbols (first (TWord w))) eqn:Es; [destruct (proj1 F4 eq_refl) as [c [=]]|].
      assert (Hns : forall c, c ∈ symbols -> (first (TWord w) =? c) = false).
      { intros c Hc. apply Z.eqb_neq. intros E. rewrite E in Es.
        assert (oneof symbols c = true) by (apply oneof_spec; [repeat constructor; done|done]). congruence. }
      rewrite !Hns by (unfold symbols; rewrite !elem_of_cons; unfold BAR, LPAR, RPAR, SEMI, AMP, LT, GT; tauto). cbn [orb]. f_equal.
      apply (word_end_at s w (render ts)); [done|]. apply Ht.
    + assert (Hn : ch buf (S s) = 32) by (rewrite <- Nat.add_1_r; now apply (ch_at s _ 32 1 Hd)).
      change (first (TSym c)) with c. rewrite Hn, Nat.add_1_r. cbn [length tok_ok] in *. unfold symbols in Ht. rewrite !elem_of_cons, elem_of_nil in Ht.
      repeat (destruct Ht as [->|Ht]; [reflexivity|]). done.
  - unfold span, buf. cbn [fst snd]. rewrite drop_app_le, Hd by (fold es; lia).
    replace (s + length (text t) - s)%nat with (length (text t)) by lia. rewrite <- app_assoc. apply take_app_length.
Qed.

Lemma gettoken_at s t ts : at_toks s (t :: ts) -> Forall tok_ok (t :: ts) ->
  exists s', gettoken buf es s = Done (code t, (s, (s + length (text t))%nat)) s' /\ at_toks s' ts /\ (s < s')%nat /\
    span buf (s, (s + length (text t))%nat) = text t.
Proof.
  intros Hat Ht. inversion Ht as [|? ? Ht1 Ht2]; subst. destruct (token_at s t ts Hat Ht1) as [Htok Hsp].
  destruct (after_tok s t ts Hat Ht2) as (H1 & H2 & H3). exists (S (s + length (text t))).
  unfold gettoken, bind, gets, modify, ret. cbn [prog_bind]. rewrite (skip_ws_at s _ Hat Ht), Htok. cbn [prog_bind]. rewrite H2.
  split; [done|]. split; [done|]. split; [lia|done].
Qed.
Lemma gettoken_end s : at_toks s [] -> gettoken buf es s = Done (0, (s, s)) s.
Proof.
  intros Hat. pose proof Hat as [Hs Hd]. assert (E : s = es).
  { apply (f_equal length) in Hd. rewrite length_drop in Hd. simpl in Hd. fold es in Hd. lia. }
  assert (Hsk : skip_ws buf es s = s) by now apply (skip_ws_at s []).
  unfold gettoken, bind, gets, modify, ret. cbn [prog_bind]. rewrite Hsk. unfold token.
  assert (Hz : ch buf s = 0) by (rewrite E; apply ch_end). rewrite Hz. cbn [prog_bind Z.eqb]. now rewrite Hsk.
Qed.
(** The next token starts with one of [l]. *)
Definition next_in (l : list Z) (ts : list tok) : bool := match ts with [] => false | t :: _ => oneof l (first t) end.
Lemma peek_at s ts l : at_toks s ts -> Forall tok_ok ts -> peek buf es l s = Done (next_in l ts) s.
Proof.
  intros Hat Ht. unfold peek, bind, modify, gets. cbn [prog_bind]. rewrite (skip_ws_at s ts Hat Ht). f_equal. pose proof Hat as [Hs Hd].
  destruct ts as [|t ts].
  - assert (E : s = es). { apply (f_equal length) in Hd. rewrite length_drop in Hd. simpl in Hd. fold es in Hd. lia. }
    now rewrite E, ch_end.
  - inversion Ht as [|? ? Ht1 _]; subst. destruct (first_char t Ht1) as (F1 & F2 & _). cbn [next_in].
    assert (Hf : ch buf s = first t).
    { unfold first. destruct (text t) as [|x w] eqn:Ex; [done|]. cbn [render] in Hd. rewrite Ex in Hd. rewrite <- (Nat.add_0_r s) at 1.
      apply (ch_at s _ x 0 Hd). done. }
    now rewrite Hf, (proj2 (Z.eqb_neq _ _) F2).
Qed.

Definition follow (stops : list Z) (ts : list tok) : Prop := match ts with [] => True | t :: _ => exists c, t = TSym c /\ c ∈ stops end.
Lemma follow_not stops l ts : follow stops ts -> forallb (fun c => negb (oneof l c)) stops = true -> next_in l ts = false.
Proof.
  destruct ts as [|t ts]; [done|]. intros (c & -> & Hc) Hf. rewrite forallb_forall in Hf. apply negb_true_iff, Hf.
  now apply list_elem_of_In.
Qed.
Lemma follow_mono stops stops' ts : follow stops ts -> stops ⊆ stops' -> follow stops' ts.
Proof. destruct ts; [done|]. intros (c & -> & Hc) Hs. exists c. auto. Qed.
Lemma at_length s ts : at_toks s ts -> Forall tok_ok ts -> (s + 2 * length ts <= es)%nat.
Proof.
  intros [Hs Hd] Ht. apply (f_equal length) in Hd. rewrite length_drop in Hd. fold es in Hd.
  enough (2 * length ts <= length (render ts))%nat by lia. clear Hd. induction Ht as [|t ts Ht Hts IH]; [done|].
  cbn [render length]. rewrite length_app. cbn [length]. destruct (first_char t Ht) as [H1 _]. destruct (text t); [done|]. simpl. lia.
Qed.

(** Redirections, as file, mode and descriptor. *)
Definition sredirs (rs : list (list Z * Z * Z)) (c : scmd) : scmd := fold_left (fun c r => SRedir c r.1.1 r.1.2 r.2) rs c.
Definition viewr (r : redir) : list Z * Z * Z := (span buf (rd_file r, rd_efile r), rd_mode r, rd_fd r).
Definition rstoks (rs : list (list Z * Z * Z)) : list tok := concat ((fun r => rtoks r.1.1 r.2) <$> rs).
Lemma view_wrap rs c : view buf (wrap rs c) = sredirs (viewr <$> rs) (view buf c).
Proof. unfold wrap, sredirs. revert c. induction rs as [|r rs IH]; intros c; [done|]. cbn. apply IH. Qed.

Lemma parseredirs_at fuel s rs acc ts :
  at_toks s (rstoks rs ++ ts) -> Forall tok_ok (rstoks rs ++ ts) -> Forall (fun r => redir_ok r.1.2 r.2) rs ->
  next_in [LT; GT] ts = false -> (length rs <= fuel)%nat ->
  exists rs' s', parseredirs buf es fuel acc s = Done (acc ++ rs') s' /\ at_toks s' ts /\ viewr <$> rs' = rs /\ (s <= s')%nat.
Proof.
  revert s rs acc. induction fuel as [|fuel IH]; intros s rs acc Hat Ht Hr Hn Hf; cbn [parseredirs].
  1: destruct rs; [|simpl in Hf; lia].
  1: rewrite (bind_done _ _ _ _ _ (peek_at s _ _ Hat Ht)); cbn [rstoks fmap list_fmap concat app] in *; rewrite Hn; exists [], s; rewrite app_nil_r; done.
  rewrite (bind_done _ _ _ _ _ (peek_at s _ _ Hat Ht)). destruct rs as [|[[f mode] fd] rs].
  { cbn [rstoks fmap list_fmap concat app] in *. rewrite Hn. exists [], s. rewrite app_nil_r. done. }
  change (rstoks ((f, mode, fd) :: rs) ++ ts) with (rtoks f fd ++ rstoks rs ++ ts) in *. inversion Hr as [|? ? Hr1 Hr2]; subst.
  set (sym := if fd =? 0 then LT else GT). change (rtoks f fd) with [TSym sym; TWord f] in *.
  assert (Hsym : sym = LT /\ fd = 0 /\ mode = READ_MODE \/ sym = GT /\ fd = 1 /\ mode = WRITE_MODE).
  { unfold sym. destruct Hr1 as [[? ?]|[? ?]]; cbn in *; subst; [left|right]; done. }
  cbn [app next_in]. replace (oneof [LT; GT] (first (TSym sym))) with true by (destruct Hsym as [(-> & _)|(-> & _)]; reflexivity).
  cbn [app] in Hat, Ht. destruct (gettoken_at s _ _ Hat Ht) as (s1 & R1 & A1 & L1 & _). inversion Ht as [|? ? _ Ht1]; subst.
  destruct (gettoken_at s1 _ _ A1 Ht1) as (s2 & R2 & A2 & L2 & Sp2). inversion Ht1 as [|? ? _ Ht2]; subst.
  rewrite (bind_done _ _ _ _ _ R1), (bind_done _ _ _ _ _ R2). cbn [fst snd code]. change (negb (WORD =? WORD)) with false. cbv iota.
  set (r := mkRedir s1 (s1 + length (text (TWord f))) mode fd).
  destruct (IH s2 rs (acc ++ [r]) A2 Ht2 Hr2 Hn) as (rs' & s' & R3 & A3 & V3 & L3); [simpl in Hf; lia|].
  exists (r :: rs'), s'. split; [|split; [done|split; [|lia]]].
  - replace (acc ++ r :: rs') with ((acc ++ [r]) ++ rs') by now rewrite <- app_assoc. rewrite <- R3. unfold r.
    destruct Hsym as [(-> & -> & ->)|(-> & -> & ->)]; reflexivity.
  - cbn. rewrite V3. unfold viewr, r. cbn [rd_file rd_efile rd_mode rd_fd]. now rewrite Sp2.
Qed.

Definition STOP0 : list Z := [BAR; RPAR; AMP; SEMI].
Definition STOP1 : list Z := [RPAR; AMP; SEMI].
Definition STOP2 : list Z := [RPAR; SEMI].
Definition STOP3 : list Z := [RPAR].

(** The end of the arguments. *)
Lemma args_stop fuel argv rs s ts :
  at_toks s ts -> Forall tok_ok ts -> follow STOP0 ts -> args_loop buf es fuel argv rs s = Done (wrap rs (Execcmd argv)) s.
Proof.
  intros Hat Ht Hf. assert (Hp : forall f : bool -> M nat cmd, bind (peek buf es [BAR; RPAR; AMP; SEMI]) f s = f (next_in STOP0 ts) s)
    by (intros f; now apply bind_done, peek_at).
  destruct fuel; cbn [args_loop]; rewrite Hp; (destruct ts as [|t ts];
    [cbn [next_in]; now rewrite (bind_done _ _ _ _ _ (gettoken_end s Hat))|]);
    destruct Hf as (c & -> & Hc); cbn [next_in]; change (first (TSym c)) with c;
    (replace (oneof STOP0 c) with true by (symmetry; apply oneof_spec; [repeat constructor; done|done])); reflexivity.
Qed.
(** A word does not start with a symbol. *)
Lemma word_first w l : tok_ok (TWord w) -> forallb (oneof symbols) l = true -> oneof l (first (TWord w)) = false.
Proof.
  intros Hw Hl. destruct (first_char _ Hw) as (_ & _ & _ & F4). destruct (oneof l (first (TWord w))) eqn:E; [|done].
  assert (Hz : Forall (fun x => x <> 0) l).
  { apply Forall_forall. intros x Hx ->. rewrite forallb_forall in Hl. apply list_elem_of_In, Hl in Hx. done. }
  apply oneof_spec in E; [|done]. rewrite forallb_forall in Hl. apply list_elem_of_In, Hl, F4 in E as [c [=]].
Qed.
Lemma args_at fuel s w args argv rs acc ts :
  at_toks s (TWord w :: (TWord <$> args) ++ rstoks rs ++ ts) -> Forall tok_ok (TWord w :: (TWord <$> args) ++ rstoks rs ++ ts) ->
  Forall (fun r => redir_ok r.1.2 r.2) rs -> follow STOP0 ts ->
  (S (length args) <= fuel)%nat -> (length argv + S (length args) < MAXARGS)%nat ->
  exists rs' argv' s', args_loop buf es fuel argv acc s = Done (wrap (acc ++ rs') (Execcmd (argv ++ argv'))) s' /\ at_toks s' ts /\
    viewr <$> rs' = rs /\ span buf <$> argv' = w :: args /\ (s <= s')%nat.
Proof.
  revert s w args argv. induction fuel as [|fuel IH]; intros s w args argv Hat Ht Hr Hf Hfu Hm; [lia|]. cbn [args_loop].
  rewrite (bind_done _ _ _ _ _ (peek_at s _ _ Hat Ht)). cbn [next_in].
  inversion Ht as [|? ? Hw Ht1]; subst. pose proof (word_first w STOP0 Hw eq_refl) as Hno. change [BAR; RPAR; AMP; SEMI] with STOP0.
  rewrite Hno. destruct (gettoken_at s _ _ Hat Ht) as (s1 & R1 & A1 & L1 & Sp1). rewrite (bind_done _ _ _ _ _ R1). cbn [fst snd code].
  change (WORD =? 0) with false. change (negb (WORD =? WORD)) with false. cbv iota. set (t := (s, (s + length (text (TWord w)))%nat)) in *.
  destruct (Nat.leb_spec MAXARGS (length (argv ++ [t]))) as [Hx|_]; [rewrite length_app in Hx; simpl in Hx; lia|].
  destruct args as [|w2 args].
  - cbn [fmap list_fmap app] in *. destruct (parseredirs_at es s1 rs acc ts A1 Ht1 Hr) as (rs' & s2 & R2 & A2 & V2 & L2).
    + apply (follow_not STOP0); [done|reflexivity].
    + pose proof (at_length s1 _ A1 Ht1) as Hl. rewrite length_app in Hl. enough (length rs <= length (rstoks rs))%nat by lia.
      clear. induction rs; [done|]. unfold rstoks in *. cbn. lia.
    + rewrite (bind_done _ _ _ _ _ R2). apply Forall_app in Ht1 as [_ Ht2]. rewrite (args_stop _ _ _ _ ts); try done.
      exists rs', [t], s2. split; [done|]. split; [done|]. split; [done|]. split; [cbn [fmap list_fmap]; now rewrite Sp1|lia].
  - destruct (parseredirs_at es s1 [] acc _ A1 Ht1) as (rs' & s2 & R2 & A2 & V2 & L2); [constructor| |simpl; lia|].
    { cbn [fmap list_fmap app next_in]. inversion Ht1 as [|? ? Hw2 _]; subst. now apply word_first. }
    rewrite (bind_done _ _ _ _ _ R2). apply fmap_nil_inv in V2. subst rs'. rewrite app_nil_r.
    destruct (IH s2 w2 args (argv ++ [t]) A2 Ht1 Hr Hf) as (rs' & argv' & s3 & R3 & A3 & V3 & Sp3 & L3); [simpl in Hfu; lia|rewrite length_app; simpl in *; lia|].
    exists rs', (t :: argv'), s3. split; [rewrite R3, <- app_assoc; done|]. split; [done|]. split; [done|]. split; [cbn [fmap list_fmap]; now rewrite Sp1, Sp3|lia].
Qed.

Lemma length_rstoks rs : (length rs <= length (rstoks rs))%nat.
Proof. induction rs; [done|]. unfold rstoks in *. cbn. lia. Qed.
(** All redirections at once. *)
Lemma redirs_at s rs ts :
  at_toks s (rstoks rs ++ ts) -> Forall tok_ok (rstoks rs ++ ts) -> Forall (fun r => redir_ok r.1.2 r.2) rs -> next_in [LT; GT] ts = false ->
  exists rs' s', parseredirs buf es es [] s = Done rs' s' /\ at_toks s' ts /\ viewr <$> rs' = rs /\ (s <= s')%nat.
Proof.
  intros Hat Ht Hr Hn. destruct (parseredirs_at es s rs [] ts Hat Ht Hr Hn) as (rs' & s' & H); [|eauto].
  pose proof (at_length s _ Hat Ht) as Hl. rewrite length_app in Hl. pose proof (length_rstoks rs). lia.
Qed.

(** [m] at [s] reads the command [c] and leaves the tokens [ts]. *)
Definition parsed (m : M nat cmd) (s : nat) (ts : list tok) (c : scmd) : Prop :=
  exists c' s', m s = Done c' s' /\ at_toks s' ts /\ view buf c' = c /\ (s <= s')%nat.

Lemma exec_at fuel s args rs ts :
  at_toks s ((TWord <$> args) ++ rstoks rs ++ ts) -> Forall tok_ok ((TWord <$> args) ++ rstoks rs ++ ts) ->
  Forall (fun r => redir_ok r.1.2 r.2) rs -> follow STOP0 ts -> (length args < MAXARGS)%nat ->
  parsed (parseexec buf es (S fuel)) s ts (sredirs rs (SExec args)).
Proof.
  intros Hat Ht Hr Hf Hm. unfold parsed. cbn [parseexec]. rewrite (bind_done _ _ _ _ _ (peek_at s _ _ Hat Ht)).
  assert (Hlp : next_in [LPAR] ((TWord <$> args) ++ rstoks rs ++ ts) = false).
  { destruct args as [|w args]; cbn [fmap list_fmap app next_in]; [|inversion Ht; now apply word_first].
    destruct rs as [|[[f mode] fd] rs]; [now apply (follow_not STOP0)|]. cbn. now destruct (fd =? 0). }
  rewrite Hlp. destruct args as [|w args].
  - cbn [fmap list_fmap app] in *. destruct (redirs_at s rs ts Hat Ht Hr) as (rs' & s1 & R & A & V & L); [now apply (follow_not STOP0)|].
    rewrite (bind_done _ _ _ _ _ R). apply Forall_app in Ht as [_ Ht]. rewrite (args_stop _ _ _ _ ts) by done.
    eexists _, s1. split; [done|]. split; [done|]. split; [rewrite view_wrap, V; done|done].
  - destruct (redirs_at s [] _ Hat Ht) as (rs0 & s1 & R & A & V & L); [constructor|inversion Ht; now apply word_first|].
    apply fmap_nil_inv in V. subst rs0. rewrite (bind_done _ _ _ _ _ R).
    destruct (args_at es s1 w args [] rs [] ts A Ht Hr Hf) as (rs' & argv' & s2 & R2 & A2 & V2 & Sp & L2); [|simpl in *; lia|].
    { pose proof (at_length s1 _ A Ht) as Hl. rewrite length_app, length_fmap in Hl. cbn [length] in Hl. lia. }
    eexists _, s2. split; [exact R2|]. split; [done|]. split; [rewrite view_wrap; cbn [app view]; rewrite V2, Sp; done|lia].
Qed.
Lemma block_at fuel s c rs ts :
  at_toks s (TSym LPAR :: toks 3 c ++ TSym RPAR :: rstoks rs ++ ts) -> Forall tok_ok (TSym LPAR :: toks 3 c ++ TSym RPAR :: rstoks rs ++ ts) ->
  Forall (fun r => redir_ok r.1.2 r.2) rs -> follow STOP0 ts ->
  (forall s1, (s < s1)%nat -> at_toks s1 (toks 3 c ++ TSym RPAR :: rstoks rs ++ ts) -> parsed (parseline buf es fuel) s1 (TSym RPAR :: rstoks rs ++ ts) c) ->
  parsed (parseexec buf es (S fuel)) s ts (sredirs rs c).
Proof.
  intros Hat Ht Hr Hf Hin. unfold parsed. cbn [parseexec]. rewrite !(bind_done _ _ _ _ _ (peek_at s _ _ Hat Ht)). cbn [next_in].
  change (oneof [LPAR] (first (TSym LPAR))) with true. cbn [negb]. rewrite (bind_done _ _ _ _ _ (peek_at s _ _ Hat Ht)). cbn [next_in].
  change (oneof [LPAR] (first (TSym LPAR))) with true. cbn [negb].
  destruct (gettoken_at s _ _ Hat Ht) as (s1 & R1 & A1 & L1 & _). rewrite (bind_done _ _ _ _ _ R1).
  destruct (Hin s1 L1 A1) as (c1 & s2 & R2 & A2 & V2 & L2). rewrite (bind_done _ _ _ _ _ R2).
  assert (Ht2 : Forall tok_ok (TSym RPAR :: rstoks rs ++ ts)) by (inversion Ht as [|? ? _ H]; now apply Forall_app in H as [_ H]).
  rewrite (bind_done _ _ _ _ _ (peek_at s2 _ _ A2 Ht2)). cbn [next_in]. change (oneof [RPAR] (first (TSym RPAR))) with true. cbn [negb].
  destruct (gettoken_at s2 _ _ A2 Ht2) as (s3 & R3 & A3 & L3 & _). rewrite (bind_done _ _ _ _ _ R3). inversion Ht2 as [|? ? _ Ht3]; subst.
  destruct (redirs_at s3 rs ts A3 Ht3 Hr) as (rs' & s4 & R4 & A4 & V4 & L4); [now apply (follow_not STOP0)|].
  rewrite (bind_done _ _ _ _ _ R4). eexists _, s4. split; [reflexivity|]. split; [done|]. split; [rewrite view_wrap, V4; done|lia].
Qed.

(** From one level to the next. *)
Lemma pipe_one fuel s ts c :
  parsed (parseexec buf es fuel) s ts c -> Forall tok_ok ts -> follow STOP1 ts -> parsed (parsepipe buf es (S fuel)) s ts c.
Proof.
  intros (c1 & s1 & R & A & V & L) Ht Hf. exists c1, s1. split; [|done]. cbn [parsepipe].
  rewrite (bind_done _ _ _ _ _ R), (bind_done _ _ _ _ _ (peek_at s1 _ _ A Ht)), (follow_not STOP1) by done. done.
Qed.
Lemma pipe_two fuel s ts1 ts l r :
  parsed (parseexec buf es fuel) s (TSym BAR :: ts1) l -> Forall tok_ok (TSym BAR :: ts1) ->
  (forall s1, (s < s1)%nat -> at_toks s1 ts1 -> parsed (parsepipe buf es fuel) s1 ts r) -> parsed (parsepipe buf es (S fuel)) s ts (SPipe l r).
Proof.
  intros (c1 & s1 & R & A & V & L) Ht Hr. destruct (gettoken_at s1 _ _ A Ht) as (s2 & R2 & A2 & L2 & _).
  destruct (Hr s2 ltac:(lia) A2) as (c3 & s3 & R3 & A3 & V3 & L3). exists (Pipecmd c1 c3), s3. cbn [parsepipe].
  rewrite (bind_done _ _ _ _ _ R), (bind_done _ _ _ _ _ (peek_at s1 _ _ A Ht)). cbn [next_in]. change (oneof [BAR] (first (TSym BAR))) with true.
  cbv iota. rewrite (bind_done _ _ _ _ _ R2), (bind_done _ _ _ _ _ R3). split; [done|]. split; [done|]. split; [cbn; now rewrite V, V3|lia].
Qed.
Fixpoint sbacks (n : nat) (c : scmd) : scmd := match n with O => c | S n => sbacks n (SBack c) end.
Lemma backs_at fuel n c s ts :
  at_toks s (replicate n (TSym AMP) ++ ts) -> Forall tok_ok (replicate n (TSym AMP) ++ ts) -> next_in [AMP] ts = false -> (n <= fuel)%nat ->
  exists c' s', backs buf es fuel c s = Done c' s' /\ at_toks s' ts /\ view buf c' = sbacks n (view buf c) /\ (s <= s')%nat.
Proof.
  revert n c s. induction fuel as [|fuel IH]; intros n c s Hat Ht Hn Hf; cbn [backs]; rewrite (bind_done _ _ _ _ _ (peek_at s _ _ Hat Ht));
    (destruct n as [|n]; [cbn [replicate app] in *; rewrite Hn; eexists _, s; done|]); [lia|].
  cbn [replicate app next_in] in *. change (oneof [AMP] (first (TSym AMP))) with true. cbv iota.
  destruct (gettoken_at s _ _ Hat Ht) as (s1 & R1 & A1 & L1 & _). rewrite (bind_done _ _ _ _ _ R1). inversion Ht as [|? ? _ Ht1]; subst.
  destruct (IH n (Backcmd c) s1 A1 Ht1 Hn) as (c2 & s2 & R2 & A2 & V2 & L2); [lia|]. exists c2, s2. split; [done|]. split; [done|]. split; [done|lia].
Qed.
(** A pipeline and the [&] after it. *)
Definition backed (fuel s : nat) (ts : list tok) (c : scmd) : Prop :=
  exists c1 s1 c2 s2, parsepipe buf es fuel s = Done c1 s1 /\ backs buf es es c1 s1 = Done c2 s2 /\ at_toks s2 ts /\ view buf c2 = c /\ (s <= s2)%nat.
Lemma backs_many fuel n s ts c :
  parsed (parsepipe buf es fuel) s (replicate n (TSym AMP) ++ ts) c -> Forall tok_ok (replicate n (TSym AMP) ++ ts) -> follow STOP2 ts ->
  backed fuel s ts (sbacks n c).
Proof.
  intros (c1 & s1 & R & A & <- & L) Ht Hf. destruct (backs_at es n c1 s1 ts A Ht) as (c2 & s2 & R2 & A2 & V2 & L2).
  - now apply (follow_not STOP2).
  - pose proof (at_length s1 _ A Ht) as Hl. rewrite length_app, length_replicate in Hl. lia.
  - exists c1, s1, c2, s2. split; [done|]. split; [done|]. split; [done|]. split; [done|lia].
Qed.
Lemma line_one fuel s ts c : backed fuel s ts c -> Forall tok_ok ts -> follow STOP3 ts -> parsed (parseline buf es (S fuel)) s ts c.
Proof.
  intros (c1 & s1 & c2 & s2 & R1 & R2 & A2 & V & L) Ht Hf. exists c2, s2. split; [|done]. cbn [parseline].
  rewrite (bind_done _ _ _ _ _ R1), (bind_done _ _ _ _ _ R2), (bind_done _ _ _ _ _ (peek_at s2 _ _ A2 Ht)), (follow_not STOP3) by done. done.
Qed.
Lemma line_two fuel s ts1 ts l r :
  backed fuel s (TSym SEMI :: ts1) l -> Forall tok_ok (TSym SEMI :: ts1) ->
  (forall s1, (s < s1)%nat -> at_toks s1 ts1 -> parsed (parseline buf es fuel) s1 ts r) -> parsed (parseline buf es (S fuel)) s ts (SList l r).
Proof.
  intros (c0 & s0 & c1 & s1 & R0 & R & A & V & L) Ht Hr. destruct (gettoken_at s1 _ _ A Ht) as (s2 & R2 & A2 & L2 & _).
  destruct (Hr s2 ltac:(lia) A2) as (c3 & s3 & R3 & A3 & V3 & L3). exists (Listcmd c1 c3), s3. cbn [parseline].
  rewrite (bind_done _ _ _ _ _ R0), (bind_done _ _ _ _ _ R), (bind_done _ _ _ _ _ (peek_at s1 _ _ A Ht)). cbn [next_in].
  change (oneof [SEMI] (first (TSym SEMI))) with true. cbv iota.
  rewrite (bind_done _ _ _ _ _ R2), (bind_done _ _ _ _ _ R3). split; [done|]. split; [done|]. split; [cbn; now rewrite V, V3|lia].
Qed.

(** All levels of a command. *)
Definition room (k fuel s : nat) : Prop := (3 * (es - s) + k <= fuel)%nat.
Definition level0 (c : scmd) : Prop := forall s ts fuel, at_toks s (toks 0 c ++ ts) -> Forall tok_ok (toks 0 c ++ ts) -> follow STOP0 ts ->
  room 1 fuel s -> parsed (parseexec buf es fuel) s ts c.
Definition level1 (c : scmd) : Prop := forall s ts fuel, at_toks s (toks 1 c ++ ts) -> Forall tok_ok (toks 1 c ++ ts) -> follow STOP1 ts ->
  room 2 fuel s -> parsed (parsepipe buf es fuel) s ts c.
Definition level2 (c : scmd) : Prop := forall s ts fuel, at_toks s (toks 2 c ++ ts) -> Forall tok_ok (toks 2 c ++ ts) -> follow STOP2 ts ->
  room 2 fuel s -> backed fuel s ts c.
Definition level3 (c : scmd) : Prop := forall s ts fuel, at_toks s (toks 3 c ++ ts) -> Forall tok_ok (toks 3 c ++ ts) -> follow STOP3 ts ->
  room 3 fuel s -> parsed (parseline buf es fuel) s ts c.
Definition levels (c : scmd) : Prop := level0 c /\ level1 c /\ level2 c /\ level3 c.

Lemma up1 c : toks 1 c = toks 0 c -> level0 c -> level1 c.
Proof.
  intros E H0 s ts fuel Hat Ht Hf Hr. rewrite E in Hat, Ht. destruct fuel as [|fuel]; [unfold room in Hr; lia|].
  apply pipe_one; [|now apply Forall_app in Ht as [_ Ht]|done]. apply H0; [done|done| |unfold room in *; lia].
  eapply follow_mono; [exact Hf|]. unfold STOP1, STOP0. set_solver.
Qed.
Lemma up2 c : toks 2 c = toks 1 c -> level1 c -> level2 c.
Proof.
  intros E H1 s ts fuel Hat Ht Hf Hr. rewrite E in Hat, Ht. apply (backs_many fuel 0); [|now apply Forall_app in Ht as [_ Ht]|done].
  apply H1; [done|done| |done]. eapply follow_mono; [exact Hf|]. unfold STOP2, STOP1. set_solver.
Qed.
Lemma up3 c : toks 3 c = toks 2 c -> level2 c -> level3 c.
Proof.
  intros E H2 s ts fuel Hat Ht Hf Hr. rewrite E in Hat, Ht. destruct fuel as [|fuel]; [unfold room in Hr; lia|].
  apply line_one; [|now apply Forall_app in Ht as [_ Ht]|done]. apply H2; [done|done| |unfold room in *; lia].
  eapply follow_mono; [exact Hf|]. unfold STOP3, STOP2. set_solver.
Qed.
(** A command in parentheses. *)
Lemma down0 c rs : toks 0 c = TSym LPAR :: toks 3 c ++ [TSym RPAR] -> level3 c -> Forall (fun r => redir_ok r.1.2 r.2) rs ->
  forall s ts fuel, at_toks s (toks 0 c ++ rstoks rs ++ ts) -> Forall tok_ok (toks 0 c ++ rstoks rs ++ ts) -> follow STOP0 ts ->
    room 1 fuel s -> parsed (parseexec buf es fuel) s ts (sredirs rs c).
Proof.
  intros E H3 Hrs s ts fuel Hat Ht Hf Hr. rewrite E in Hat, Ht. cbn [app] in Hat, Ht. rewrite <- !app_assoc in Hat, Ht. cbn [app] in Hat, Ht.
  destruct fuel as [|fuel]; [unfold room in Hr; lia|]. apply block_at; try done. intros s1 L1 A1. apply H3; [done| | |].
  - now inversion Ht.
  - exists RPAR. split; [done|]. unfold STOP3. set_solver.
  - pose proof (proj1 A1). unfold room in *. lia.
Qed.

Fixpoint csize (c : scmd) : nat :=
  match c with
  | SExec _ => 1
  | SRedir sub _ _ _ => S (csize sub)
  | SPipe l r | SList l r => S (csize l + csize r)
  | SBack sub => S (csize sub)
  end.
Definition is_redir (c : scmd) : bool := match c with SRedir _ _ _ _ => true | _ => false end.
Definition is_back (c : scmd) : bool := match c with SBack _ => true | _ => false end.

Lemma sredirs_snoc rs r c : sredirs (rs ++ [r]) c = SRedir (sredirs rs c) r.1.1 r.1.2 r.2.
Proof. unfold sredirs. now rewrite fold_left_app. Qed.
Lemma redir_base c : printable c -> exists rs b, c = sredirs rs b /\ toks 0 c = toks 0 b ++ rstoks rs /\ is_redir b = false /\ printable b /\
  Forall (fun r => redir_ok r.1.2 r.2) rs /\ (csize b <= csize c)%nat /\ (is_redir c = true -> (csize b < csize c)%nat).
Proof.
  induction c as [args|sub IH f mode fd|l IHl r IHr|l IHl r IHr|sub IH]; intros Hp;
    [|destruct Hp as (Hp & Hw & Hr)|..]; try (eexists [], _; rewrite app_nil_r; split_and!; try done; constructor).
  destruct (IH Hp) as (rs & b & E & Et & Hb & Pb & Hrs & Hs & _). exists (rs ++ [(f, mode, fd)]), b.
  rewrite sredirs_snoc. cbn [fst snd]. split; [now rewrite E|]. split.
  { cbn [toks]. rewrite Et, <- app_assoc. f_equal. unfold rstoks. rewrite fmap_app, concat_app. cbn. done. }
  split; [done|]. split; [done|]. split; [apply Forall_app; split; [done|now constructor]|]. cbn [csize is_redir]. lia.
Qed.
Lemma sbacks_S n c : sbacks (S n) c = SBack (sbacks n c).
Proof. revert c. induction n as [|n IH]; intros c; [done|]. exact (IH (SBack c)). Qed.
Lemma back_base c : printable c -> exists n b, c = sbacks n b /\ toks 2 c = toks 2 b ++ replicate n (TSym AMP) /\ is_back b = false /\
  printable b /\ (csize b <= csize c)%nat.
Proof.
  induction c as [args|sub IH f mode fd|l IHl r IHr|l IHl r IHr|sub IH]; intros Hp; try (eexists 0%nat, _; rewrite app_nil_r; split_and!; done).
  destruct (IH Hp) as (n & b & E & Et & Hb & Pb & Hs). exists (S n), b. rewrite sbacks_S. split; [now rewrite E|].
  split; [|split; [done|split; [done|cbn [csize]; lia]]]. cbn [toks paren Nat.ltb Nat.leb]. rewrite Et, <- app_assoc. f_equal.
  now rewrite replicate_S_end.
Qed.

Lemma all_levels n c : (csize c <= n)%nat -> printable c -> levels c.
Proof.
  revert c. induction n as [|n IH]; intros c Hs Hp; [destruct c; simpl in Hs; lia|].
  assert (Hup : toks 3 c = toks 2 c -> toks 2 c = toks 1 c -> toks 1 c = toks 0 c -> level0 c -> levels c).
  { intros E3 E2 E1 H0. pose proof (up1 c E1 H0) as H1. pose proof (up2 c E2 H1) as H2. pose proof (up3 c E3 H2) as H3. done. }
  assert (Hdown : toks 0 c = TSym LPAR :: toks 3 c ++ [TSym RPAR] -> level3 c -> level0 c).
  { intros E H3 s ts fuel Hat Ht Hf Hr. now apply (down0 c [] E H3). }
  destruct c as [args|sub f mode fd|l r|l r|sub].
  - apply Hup; try done. intros s ts fuel Hat Ht Hf Hr. destruct fuel as [|fuel]; [unfold room in Hr; lia|].
    destruct Hp as [_ Hm]. now apply (exec_at fuel s args []).
  - apply Hup; try done. destruct (redir_base _ Hp) as (rs & b & E & Et & Hb & Pb & Hrs & _ & Hlt). specialize (Hlt eq_refl).
    intros s ts fuel Hat Ht Hf Hr. rewrite Et, <- app_assoc in Hat, Ht. rewrite E. destruct b as [args| |l r|l r|sub']; try done.
    + destruct fuel as [|fuel]; [unfold room in Hr; lia|]. destruct Pb as [_ Hm]. now apply exec_at.
    + apply (down0 (SPipe l r) rs); try done. apply (IH (SPipe l r)); [lia|done].
    + apply (down0 (SList l r) rs); try done. apply (IH (SList l r)); [lia|done].
    + apply (down0 (SBack sub') rs); try done. apply (IH (SBack sub')); [lia|done].
  - destruct Hp as [Pl Pr]. cbn [csize] in Hs. destruct (IH l ltac:(lia) Pl) as (L0 & _), (IH r ltac:(lia) Pr) as (_ & R1 & _).
    assert (H1 : level1 (SPipe l r)).
    { intros s ts fuel Hat Ht Hf Hr. cbn [toks paren Nat.ltb Nat.leb] in Hat, Ht. rewrite <- app_assoc in Hat, Ht. cbn [app] in Hat, Ht.
      destruct fuel as [|fuel]; [unfold room in Hr; lia|]. pose proof Ht as Ht'. apply Forall_app in Ht' as [_ Ht'].
      apply (pipe_two fuel s (toks 1 r ++ ts)); [apply L0; [done|done|exists BAR; split; [done|unfold STOP0; set_solver]|unfold room in *; lia]|done|].
      intros s1 Hs1 A1. apply R1; [done|now inversion Ht'|done|]. pose proof (proj1 A1). unfold room in *. lia. }
    pose proof (up2 (SPipe l r) eq_refl H1) as H2. pose proof (up3 (SPipe l r) eq_refl H2) as H3. pose proof (Hdown eq_refl H3) as H0. done.
  - destruct Hp as [Pl Pr]. cbn [csize] in Hs. destruct (IH l ltac:(lia) Pl) as (_ & _ & L2 & _), (IH r ltac:(lia) Pr) as (_ & _ & _ & R3).
    assert (H3 : level3 (SList l r)).
    { intros s ts fuel Hat Ht Hf Hr. cbn [toks paren Nat.ltb Nat.leb] in Hat, Ht. rewrite <- app_assoc in Hat, Ht. cbn [app] in Hat, Ht.
      destruct fuel as [|fuel]; [unfold room in Hr; lia|]. pose proof Ht as Ht'. apply Forall_app in Ht' as [_ Ht'].
      apply (line_two fuel s (toks 3 r ++ ts)); [apply L2; [done|done|exists SEMI; split; [done|unfold STOP2; set_solver]|unfold room in *; lia]|done|].
      intros s1 Hs1 A1. apply R3; [done|now inversion Ht'|done|]. pose proof (proj1 A1). unfold room in *. lia. }
    pose proof (Hdown eq_refl H3) as H0. pose proof (up1 (SList l r) eq_refl H0) as H1. pose proof (up2 (SList l r) eq_refl H1) as H2. done.
  - cbn [csize] in Hs. destruct (back_base sub Hp) as (k & b & E & Et & Hb & Pb & Hsb).
    assert (H2 : level2 (SBack sub)).
    { intros s ts fuel Hat Ht Hf Hr. destruct (IH b ltac:(lia) Pb) as (_ & B1 & _). assert (Eb : toks 2 b = toks 1 b) by now destruct b.
      assert (Eq : toks 2 (SBack sub) ++ ts = toks 1 b ++ replicate (S k) (TSym AMP) ++ ts).
      { cbn [toks paren Nat.ltb Nat.leb]. rewrite Et, Eb, replicate_S_end, <- !app_assoc. done. }
      rewrite Eq in Hat, Ht.
      replace (SBack sub) with (sbacks (S k) b) by (rewrite E; apply sbacks_S).
      pose proof Ht as Ht'. apply Forall_app in Ht' as [_ Ht']. apply backs_many; [|done|done].
      apply B1; [done|done| |done]. exists AMP. split; [done|]. unfold STOP1. set_solver. }
    pose proof (up3 (SBack sub) eq_refl H2) as H3. pose proof (Hdown eq_refl H3) as H0. pose proof (up1 (SBack sub) eq_refl H0) as H1. done.
Qed.
End Print.

Lemma toks_ok c level : printable c -> Forall tok_ok (toks level c).
Proof.
  assert (Hsym : forall c, c ∈ symbols -> tok_ok (TSym c)) by done.
  assert (Hpar : forall b ts, Forall tok_ok ts -> Forall tok_ok (paren b ts)).
  { intros [] ts Ht; [|done]. constructor; [apply Hsym; unfold symbols, LPAR; set_solver|]. apply Forall_app. split; [done|].
    constructor; [apply Hsym; unfold symbols, RPAR; set_solver|constructor]. }
  revert level. induction c as [args|sub IH f mode fd|l IHl r IHr|l IHl r IHr|sub IH]; intros level Hp; cbn [toks printable] in *.
  - destruct Hp as [Hw _]. apply Forall_fmap. exact Hw.
  - destruct Hp as (Hp & Hw & Hr). apply Forall_app. split; [now apply IH|]. constructor.
    + apply Hsym. unfold symbols, LT, GT. destruct (fd =? 0); set_solver.
    + constructor; [done|constructor].
  - destruct Hp. apply Hpar, Forall_app. split; [now apply IHl|]. constructor; [apply Hsym; unfold symbols, BAR; set_solver|now apply IHr].
  - destruct Hp. apply Hpar, Forall_app. split; [now apply IHl|]. constructor; [apply Hsym; unfold symbols, SEMI; set_solver|now apply IHr].
  - apply Hpar, Forall_app. split; [now apply IH|]. constructor; [apply Hsym; unfold symbols, AMP; set_solver|constructor].
Qed.
Lemma render_nonzero ts : Forall tok_ok ts -> Forall (fun x => x <> 0) (render ts).
Proof.
  induction 1 as [|t ts Ht Hts IH]; [constructor|]. cbn [render]. apply Forall_app. split; [|constructor; [done|exact IH]].
  destruct t as [w|c]; cbn [text tok_ok] in *.
  - destruct Ht as [_ Hw]. eapply Forall_impl; [exact Hw|]. now intros x [? _].
  - constructor; [|constructor]. unfold symbols in Ht. rewrite !elem_of_cons, elem_of_nil in Ht. lia.
Qed.

(** A command as [runcmd] sees it: its strings are C strings in the buffer. *)
Fixpoint view_c (buf : list Z) (c : cmd) : scmd :=
  match c with
  | Execcmd argv => SExec ((fun a => c_str buf a.1) <$> argv)
  | Redircmd sub f e mode fd => SRedir (view_c buf sub) (c_str buf f) mode fd
  | Pipecmd l r => SPipe (view_c buf l) (view_c buf r)
  | Listcmd l r => SList (view_c buf l) (view_c buf r)
  | Backcmd sub => SBack (view_c buf sub)
  end.
Lemma view_c_eq buf b c : (forall t, t ∈ words c -> c_str b t.1 = span buf t) -> view_c b c = view buf c.
Proof.
  induction c as [argv|sub IH f e mode fd|l IHl r IHr|l IHl r IHr|sub IH]; cbn [view view_c words]; intros H.
  - f_equal. apply list_fmap_ext. intros i t Ht. apply H. now apply list_elem_of_lookup_2 in Ht.
  - rewrite IH by set_solver. f_equal. apply (H (f, e)). set_solver.
  - rewrite IHl, IHr by set_solver. done.
  - rewrite IHl, IHr by set_solver. done.
  - rewrite IH by set_solver. done.
Qed.
Lemma strlen_nonzero l r : Forall (fun x => x <> 0) l -> strlen (l ++ 0 :: r) = length l.
Proof. induction 1 as [|x l Hx Hl IH]; [done|]. cbn [app strlen length]. rewrite (proj2 (Z.eqb_neq _ _) Hx). now rewrite IH. Qed.

(** C20. Round trip: every command that can be written down (words without white
    space and symbols, fewer than ten arguments, the redirections of the shell)
    is printed as a line that [parsecmd] accepts as a whole and reads as the
    same command, with parentheses exactly where the grammar needs them; the
    strings are the C strings that [runcmd] will use. *)
Theorem parse_print c :
  printable c ->
  exists c' b, parsecmd (print_cmd c ++ [0]) = Done (c', b) (length (print_cmd c)) /\ view_c b c' = c.
Proof.
  intros Hp. set (line := print_cmd c). pose proof (toks_ok c 3 Hp) as Ht. pose proof (render_nonzero _ Ht) as Hnz. fold line in Hnz.
  assert (Hes : strlen (line ++ [0]) = length line) by now apply strlen_nonzero.
  destruct (all_levels line Hnz (csize c) c (le_n _) Hp) as (_ & _ & _ & H3).
  destruct (H3 0%nat [] (parse_fuel (length line))) as (c' & s' & R & A & V & L).
  - split; [lia|]. rewrite app_nil_r, drop_0. done.
  - now rewrite app_nil_r.
  - done.
  - unfold room, parse_fuel. lia.
  - assert (Es : s' = length line). { destruct A as [A1 A2]. apply (f_equal length) in A2. rewrite length_drop in A2. simpl in A2. lia. }
    assert (Hparse : parsecmd (line ++ [0]) = Done (c', nulterminate c' (line ++ [0])) (length line)).
    { unfold parsecmd. rewrite Hes. cbv zeta. rewrite (bind_done _ _ _ _ _ R).
      rewrite (bind_done _ _ _ _ _ (peek_at line s' [] [] A (List.Forall_nil _))), bind_gets, Es, Nat.eqb_refl. done. }
    exists c', (nulterminate c' (line ++ [0])). split; [done|]. rewrite <- V. apply view_c_eq. intros t Htw.
    pose proof (parsecmd_ends (line ++ [0])) as He. rewrite Hparse in He. destruct He as (_ & Hwf & _).
    destruct (strlen_spec (line ++ [0])) as (Hnul & _). apply (word_string _ _ _ _ Hnul); [rewrite Hes, length_app; simpl; lia| |done].
    now apply wf_words.
Qed.

(** ** [runcmd] *)
(** What a process does, up to its exit; [exec] goes on only when it fails, and
    the future of [fork] depends on its result. *)
Inductive act :=
| AExit
| AClose (fd : Z) (k : act)
| AOpen (file : list Z) (mode : Z) (k : Z -> act)
| AExec (argv : list (list Z)) (k : act)
| AFork (k : Z -> act)
| AWait (k : act)
| APipe (k : option (Z * Z) -> act)
| ADup (fd : Z) (k : act)
| APrint (msg : string) (k : act).

Definition sh_panic (msg : string) : act := APrint msg AExit.
Definition fork1 (k : Z -> act) : act := AFork (fun pid => if pid =? -1 then sh_panic "fork" else k pid).
Fixpoint runcmd (c : scmd) : act :=
  match c with
  | SExec [] => AExit
  | SExec argv => AExec argv (APrint "exec failed" AExit)
  | SRedir sub file mode fd =>
      AClose fd (AOpen file mode (fun r => if r <? 0 then APrint "open failed" AExit else runcmd sub))
  | SList l r => fork1 (fun pid => if pid =? 0 then runcmd l else AWait (runcmd r))
  | SPipe l r =>
      APipe (fun p => match p with
        | None => sh_panic "pipe"
        | Some (p0, p1) =>
            fork1 (fun pid =>
              if pid =? 0 then AClose 1 (ADup p1 (AClose p0 (AClose p1 (runcmd l))))
              else fork1 (fun pid =>
                if pid =? 0 then AClose 0 (ADup p0 (AClose p0 (AClose p1 (runcmd r))))
                else AClose p0 (AClose p1 (AWait (AWait AExit)))))
        end)
  | SBack sub => fork1 (fun pid => if pid =? 0 then runcmd sub else AExit)
  end.

(** ** Lines *)
(** [gets(buf, max)] on the bytes that [read] will give, and those left. *)
Fixpoint gets_loop (n : nat) (input : list Z) : list Z * list Z :=
  match n, input with
  | S n, c :: input =>
      if (c =? 10) || (c =? 13) then ([c], input)
      else let '(l, rest) := gets_loop n input in (c :: l, rest)
  | _, _ => ([], input)
  end.
Definition ulib_gets (max : nat) (input : list Z) : list Z * list Z := gets_loop (max - 1) input.
(** [getcmd]: the buffer, cleared before; [None] at the end of the input. *)
Definition getcmd (nbuf : nat) (input : list Z) : option (list Z) * list Z :=
  let '(l, rest) := ulib_gets nbuf input in
  let buf := l ++ replicate (nbuf - length l) 0 in
  (if ch buf 0 =? 0 then None else Some buf, rest).
(** One round of [main]: a change of directory, or a command for a child. *)
Inductive round := RChdir (path : list Z) | RRun (c : prog nat (cmd * list Z)).
Definition main_round (buf : list Z) : round :=
  if (ch buf 0 =? 99) && (ch buf 1 =? 100) && (ch buf 2 =? 32)
  then RChdir (c_str (put_nul (strlen buf - 1) buf) 3)
  else RRun (parsecmd buf).
Fixpoint main_loop (fuel : nat) (input : list Z) : list round :=
  match fuel with
  | O => []
  | S fuel =>
      match getcmd 100 input with
      | (None, _) => []
      | (Some buf, rest) => main_round buf :: main_loop fuel rest
      end
  end.
(** Every round takes a byte. *)
Definition main (input : list Z) : list round := main_loop (S (length input)) input.

(** ** The descriptors of the programs *)
Inductive obj := OFile (name : list Z) (mode : Z) | OPipeR (id : nat) | OPipeW (id : nat).
Abbreviation fdtable := (gmap Z obj).
(** The lowest descriptor that is not in use. *)
Definition lowest (t : fdtable) : Z := default 0 (list_find (fun i => t !! i = None) (seqZ 0 (1 + Z.of_nat (size t))) ≫= fun p => Some p.2).
(** What a process does that others can see: it becomes a program, with the
    descriptors it has then; it forks a child; it waits, with the descriptors it
    keeps meanwhile; it prints; it exits. *)
Inductive script :=
| SDone
| SRun (argv : list (list Z)) (t : fdtable)
| SFork (child rest : script)
| SWait (t : fdtable) (rest : script)
| SPrint (msg : string) (rest : script).
(** The script of a process when all system calls succeed; [n] numbers the
    pipes. *)
Fixpoint script_of (a : act) (t : fdtable) (n : nat) : script * nat :=
  match a with
  | AExit => (SDone, n)
  | AClose fd k => script_of k (delete fd t) n
  | AOpen file mode k => script_of (k (lowest t)) (<[lowest t := OFile file mode]> t) n
  | AExec argv _ => (SRun argv t, n)
  | AFork k =>
      let '(l1, n1) := script_of (k 0) t n in
      let '(l2, n2) := script_of (k 1) t n1 in
      (SFork l1 l2, n2)
  | AWait k => let '(l, n') := script_of k t n in (SWait t l, n')
  | APipe k =>
      let p0 := lowest t in
      let t0 := <[p0 := OPipeR n]> t in
      let p1 := lowest t0 in
      script_of (k (Some (p0, p1))) (<[p1 := OPipeW n]> t0) (S n)
  | ADup fd k => script_of k (match t !! fd with Some o => <[lowest t := o]> t | None => t end) n
  | APrint msg k => let '(l, n') := script_of k t n in (SPrint msg l, n')
  end.
(** What the command means: the programs with their input and output, and what
    the shell waits for. *)
Fixpoint plumb (c : scmd) (t : fdtable) (n : nat) : script * nat :=
  match c with
  | SExec [] => (SDone, n)
  | SExec argv => (SRun argv t, n)
  | SRedir sub file mode fd => plumb sub (<[fd := OFile file mode]> t) n
  | SPipe l r =>
      let '(l1, n1) := plumb l (<[1 := OPipeW n]> t) (S n) in
      let '(l2, n2) := plumb r (<[0 := OPipeR n]> t) n1 in
      (SFork l1 (SFork l2 (SWait t (SWait t SDone))), n2)
  | SList l r =>
      let '(l1, n1) := plumb l t n in
      let '(l2, n2) := plumb r t n1 in
      (SFork l1 (SWait t l2), n2)
  | SBack sub => let '(l1, n1) := plumb sub t n in (SFork l1 SDone, n1)
  end.
(** The descriptors of the programs and of the processes that wait. *)
Fixpoint tables (sc : script) : list fdtable :=
  match sc with
  | SDone => []
  | SRun _ t => [t]
  | SFork c r => tables c ++ tables r
  | SWait t r => t :: tables r
  | SPrint _ r => tables r
  end.

Lemma lowest_spec t : 0 <= lowest t /\ t !! lowest t = None /\ forall j, 0 <= j < lowest t -> is_Some (t !! j).
Proof.
  destruct (list_find (fun i => t !! i = None) (seqZ 0 (1 + Z.of_nat (size t)))) as [[k i]|] eqn:E.
  - assert (Hl : lowest t = i) by (unfold lowest; now rewrite E). rewrite Hl.
    apply list_find_Some in E as (H1 & H2 & H3). apply lookup_seqZ in H1 as [-> Hk].
    split; [lia|]. split; [done|]. intros j Hj. apply not_eq_None_Some. apply (H3 (Z.to_nat j) j); [|lia].
    apply lookup_seqZ. lia.
  - exfalso. apply list_find_None in E. rewrite Forall_forall in E.
    assert (Hsub : (list_to_set (seqZ 0 (1 + Z.of_nat (size t))) : gset Z) ⊆ dom t).
    { intros i Hi%elem_of_list_to_set. apply elem_of_dom, not_eq_None_Some. now apply E. }
    apply subseteq_size in Hsub. rewrite size_list_to_set, length_seqZ, size_dom in Hsub by apply NoDup_seqZ. lia.
Qed.
Lemma lowest_unique t i : 0 <= i -> t !! i = None -> (forall j, 0 <= j < i -> is_Some (t !! j)) -> lowest t = i.
Proof.
  intros Hi Hn Hj. destruct (lowest_spec t) as (L1 & L2 & L3). destruct (Z.lt_trichotomy (lowest t) i) as [H|[H|H]]; [|done|].
  - destruct (Hj (lowest t)); [lia|]. congruence.
  - destruct (L3 i); [lia|]. congruence.
Qed.

(** The standard descriptors are open. *)
Definition std (t : fdtable) : Prop := is_Some (t !! 0) /\ is_Some (t !! 1).
Lemma std_insert t i o : std t -> std (<[i := o]> t).
Proof. intros [H0 H1]. split; apply lookup_insert_is_Some'; auto. Qed.
Lemma lowest_std t fd : std t -> fd = 0 \/ fd = 1 -> lowest (delete fd t) = fd.
Proof.
  intros [H0 H1] [->| ->]; (apply lowest_unique; [lia|apply lookup_delete_eq|]); intros j Hj; [lia|].
  replace j with 0 by lia. now rewrite lookup_delete_ne.
Qed.
Lemma std_lowest t : std t -> 1 < lowest t.
Proof.
  intros [[x H0] [y H1]]. destruct (lowest_spec t) as (L1 & L2 & _). assert (lowest t <> 0) by congruence. assert (lowest t <> 1) by congruence. lia.
Qed.

(** Standard output or input becomes one end of the pipe, and nothing of the
    pipe is left besides. *)
Lemma pipe_child t n p0 p1 fd o (t2 := <[p1 := OPipeW n]> (<[p0 := OPipeR n]> t)) :
  std t -> p0 = lowest t -> p1 = lowest (<[p0 := OPipeR n]> t) -> fd = 0 \/ fd = 1 -> t2 !! (if fd =? 0 then p0 else p1) = Some o ->
  delete p1 (delete p0 (match delete fd t2 !! (if fd =? 0 then p0 else p1) with
    Some o => <[lowest (delete fd t2) := o]> (delete fd t2) | None => delete fd t2 end)) = <[fd := o]> t.
Proof.
  intros Hs E0 E1 Hfd Ho. pose proof (std_lowest t Hs) as L0. destruct (lowest_spec t) as (_ & N0 & _). rewrite <- E0 in L0, N0.
  pose proof (std_insert t p0 (OPipeR n) Hs) as Hs0. pose proof (std_lowest _ Hs0) as L1. destruct (lowest_spec (<[p0 := OPipeR n]> t)) as (_ & N1 & _).
  rewrite <- E1 in L1, N1. assert (Hne : p0 <> p1) by (intros ->; now rewrite lookup_insert_eq in N1).
  rewrite lookup_insert_ne in N1 by done. rewrite lookup_delete_ne, Ho by (destruct (fd =? 0); lia).
  rewrite lowest_std by (try done; unfold t2; now apply std_insert). rewrite insert_delete_eq.
  rewrite (delete_insert_ne t2 p0 fd), (delete_insert_ne _ p1 fd) by lia. f_equal. unfold t2.
  rewrite (delete_insert_ne _ p0 p1) by done. rewrite (delete_insert_id t p0) by done. now apply delete_insert_id.
Qed.

(** A descriptor of a command is one of the shell's, or standard input or output
    redirected to a file or to one of the command's own pipes. *)
Definition derived (t : fdtable) (n : nat) (t' : fdtable) : Prop :=
  (forall i, i <> 0 -> i <> 1 -> t' !! i = t !! i) /\
  (forall i k, t' !! i = Some (OPipeW k) -> t !! i = Some (OPipeW k) \/ (n <= k)%nat).

Lemma derived_insert t n fd o t' m : derived (<[fd := o]> t) m t' -> (n <= m)%nat -> fd = 0 \/ fd = 1 ->
  (forall k, o = OPipeW k -> (n <= k)%nat) -> derived t n t'.
Proof.
  intros [Ha Hb] Hm Hfd Ho. split.
  - intros i Hi0 Hi1. rewrite Ha by done. apply lookup_insert_ne. destruct Hfd as [->| ->]; congruence.
  - intros i k Hk. destruct (Hb i k Hk) as [[[_ Hq]|[_ Hq]]%lookup_insert_Some|Hq]; [right; now apply Ho|now left|right; lia].
Qed.

Lemma derived_le t n m t' : derived t m t' -> (n <= m)%nat -> derived t n t'.
Proof. intros [Ha Hb] Hm. split; [exact Ha|]. intros i k Hk. destruct (Hb i k Hk); [now left|right; lia]. Qed.

Lemma derived_refl t n : derived t n t.
Proof. split; auto. Qed.

Lemma plumb_tables c : forall t n, printable c ->
  (n <= (plumb c t n).2)%nat /\ Forall (derived t n) (tables (plumb c t n).1).
Proof.
  induction c as [args|sub IH f mode fd|l IHl r IHr|l IHl r IHr|sub IH]; intros t n Hp; cbn [plumb printable] in *.
  - destruct args; cbn [fst snd tables]; (split; [lia|]); repeat constructor; auto.
  - destruct Hp as (Hp & _ & Hr). destruct (IH (<[fd := OFile f mode]> t) n Hp) as [H1 H2]. split; [exact H1|].
    eapply Forall_impl; [exact H2|]. intros t' Ht'. eapply derived_insert; [exact Ht'|lia|destruct Hr as [[_ ->]|[_ ->]]; auto|discriminate].
  - destruct Hp as [Pl Pr]. pose proof (IHl (<[1 := OPipeW n]> t) (S n) Pl) as [N1 H1]. destruct (plumb l _ (S n)) as [l1 n1].
    pose proof (IHr (<[0 := OPipeR n]> t) n1 Pr) as [N2 H2]. destruct (plumb r _ n1) as [l2 n2].
    cbn [fst snd tables] in *. split; [lia|]. apply Forall_app. split; [|apply Forall_app; split].
    + eapply Forall_impl; [exact H1|]. intros t' Ht'. eapply derived_insert; [exact Ht'|lia|auto|]. now intros k [= <-].
    + eapply Forall_impl; [exact H2|]. intros t' Ht'. eapply derived_insert; [exact Ht'|lia|auto|discriminate].
    + repeat constructor; auto.
  - destruct Hp as [Pl Pr]. pose proof (IHl t n Pl) as [N1 H1]. destruct (plumb l t n) as [l1 n1].
    pose proof (IHr t n1 Pr) as [N2 H2]. destruct (plumb r t n1) as [l2 n2].
    cbn [fst snd tables] in *. split; [lia|]. apply Forall_app. split; [exact H1|]. constructor; [apply derived_refl|].
    eapply Forall_impl; [exact H2|]. intros t' Ht'. eapply derived_le; [exact Ht'|lia].
  - pose proof (IH t n Hp) as [N1 H1]. destruct (plumb sub t n) as [l1 n1]. cbn [fst snd tables] in *. now rewrite app_nil_r.
Qed.

(** The processes of [runcmd] are those of the command. *)
Lemma runcmd_script c : forall t n, printable c -> std t -> script_of (runcmd c) t n = plumb c t n.
Proof.
  induction c as [args|sub IH f mode fd|l IHl r IHr|l IHl r IHr|sub IH]; intros t n Hp Hs; cbn [runcmd plumb printable] in *.
  - now destruct args.
  - destruct Hp as (Hp & _ & Hr). cbn [script_of]. rewrite lowest_std by (try done; destruct Hr as [[_ ->]|[_ ->]]; auto).
    destruct (Z.ltb_spec fd 0); [destruct Hr as [[_ ->]|[_ ->]]; lia|]. rewrite insert_delete_eq. apply IH; [done|now apply std_insert].
  - destruct Hp as [Pl Pr]. unfold fork1. cbn [script_of Z.eqb]. set (p0 := lowest t). set (p1 := lowest (<[p0 := OPipeR n]> t)).
    destruct (lowest_spec t) as (_ & N0 & _). destruct (lowest_spec (<[p0 := OPipeR n]> t)) as (_ & N1 & _). fold p0 p1 in N0, N1.
    assert (Hne : p0 <> p1) by (intros E; rewrite <- E, lookup_insert_eq in N1; done).
    pose proof (pipe_child t n p0 p1 1 (OPipeW n) Hs eq_refl eq_refl ltac:(auto) (lookup_insert_eq _ _ _)) as C1.
    assert (Hr0 : <[p1 := OPipeW n]> (<[p0 := OPipeR n]> t) !! p0 = Some (OPipeR n)) by (rewrite lookup_insert_ne by done; apply lookup_insert_eq).
    pose proof (pipe_child t n p0 p1 0 (OPipeR n) Hs eq_refl eq_refl ltac:(auto) Hr0) as C0.
    cbn [Z.eqb] in C1, C0. rewrite C1, C0. clear C1 C0.
    assert (Hpar : delete p1 (delete p0 (<[p1 := OPipeW n]> (<[p0 := OPipeR n]> t))) = t).
    { rewrite lookup_insert_ne in N1 by done. rewrite (delete_insert_ne _ p0 p1) by done.
      rewrite (delete_insert_id t p0) by done. now apply delete_insert_id. }
    rewrite Hpar, IHl by (try done; now apply std_insert). destruct (plumb l _ _) as [l1 n1].
    rewrite IHr by (try done; now apply std_insert). now destruct (plumb r _ _) as [l2 n2].
  - destruct Hp as [Pl Pr]. unfold fork1. cbn [script_of Z.eqb]. rewrite IHl by done. destruct (plumb l t n) as [l1 n1].
    rewrite IHr by done. now destruct (plumb r t n1).
  - unfold fork1. cbn [script_of Z.eqb]. rewrite IH by done. now destruct (plumb sub t n) as [l1 n1].
Qed.

(** C28. The plumbing of the shell: from a table with standard input and output
    open, and when all system calls succeed, [runcmd] forks, waits and starts
    programs as the command says: both sides of a pipe are forked before the two
    waits, and the right side of a list starts after a wait for the left one.
    Each program, and the shell itself while it waits, has exactly the
    descriptors of the shell, but for standard input and output, which are
    redirected to the files and pipes of the command.  So the write end of a pipe
    is open on its left side only, as the reader on its right side needs to see
    the end of its input. *)
Theorem runcmd_plumbing (c : scmd) (t : fdtable) (n : nat) : printable c -> std t ->
  script_of (runcmd c) t n = plumb c t n /\
  (forall t', t' ∈ tables (script_of (runcmd c) t n).1 -> forall i, i <> 0 -> i <> 1 -> t' !! i = t !! i) /\
  (forall l r, c = SPipe l r -> (forall i, t !! i <> Some (OPipeW n)) ->
     exists left right, (script_of (runcmd c) t n).1 = SFork left (SFork right (SWait t (SWait t SDone))) /\
       forall t', t' ∈ t :: tables right -> forall i, t' !! i <> Some (OPipeW n)).
Proof.
  intros Hp Hs. rewrite (runcmd_script c t n Hp Hs). split; [done|]. split.
  - intros t' Ht'. destruct (plumb_tables c t n Hp) as [_ Hall]. rewrite Forall_forall in Hall. apply (Hall t' Ht').
  - intros l r -> Hn. destruct Hp as [Pl Pr]. cbn [plumb].
    pose proof (plumb_tables l (<[1 := OPipeW n]> t) (S n) Pl) as [N1 _]. destruct (plumb l _ (S n)) as [l1 n1].
    pose proof (plumb_tables r (<[0 := OPipeR n]> t) n1 Pr) as [_ H2]. destruct (plumb r _ n1) as [l2 n2]. cbn [fst snd] in *.
    exists l1, l2. split; [done|]. intros t' [->|Ht']%elem_of_cons i; [apply Hn|]. rewrite Forall_forall in H2.
    intros Hk. destruct (proj2 (H2 t' Ht') i n Hk) as [[[_ Hq]|[_ Hq]]%lookup_insert_Some|Hq]; [discriminate|now apply (Hn i)|lia].
Qed.

(** ** A command *)
(** ls -a | wc > x ; ( sh & ) *)
Definition demo_cmd : scmd :=
  SList (SPipe (SExec [[108; 115]; [45; 97]]) (SRedir (SExec [[119; 99]]) [120] WRITE_MODE 1)) (SBack (SExec [[115; 104]])).
Lemma demo_printable : printable demo_cmd.
Proof.
  assert (Hw : forall w, bool_decide (w <> []) && forallb (fun x => negb (x =? 0) && word_char x) w = true -> word_ok w).
  { intros w [Hw Hf]%andb_true_iff. apply bool_decide_eq_true in Hw. split; [done|]. apply Forall_forall. intros x Hx.
    rewrite forallb_forall in Hf. apply list_elem_of_In, Hf, andb_true_iff in Hx as [Hx1 Hx2]. split; [|done]. now apply negb_true_iff, Z.eqb_neq in Hx1. }
  repeat split; try (apply Hw; reflexivity); try (unfold MAXARGS; simpl; lia); try (right; split; reflexivity);
    repeat (constructor; [apply Hw; reflexivity|]); constructor.
Qed.
Definition demo_table : fdtable := list_to_map [(0, OFile [99] 2); (1, OFile [99] 2); (2, OFile [99] 2)].

Lemma parse_print_witness :
  exists c' b, parsecmd (print_cmd demo_cmd ++ [0]) = Done (c', b) (length (print_cmd demo_cmd)) /\ view_c b c' = demo_cmd.
Proof. exact (parse_print demo_cmd demo_printable). Defined.
(** The shell has only its own descriptors when it waits, and again when it
    starts [sh]. *)
Lemma runcmd_plumbing_witness :
  std demo_table /\
  (script_of (runcmd demo_cmd) demo_table 0).1 =
    SFork (SFork (SRun [[108; 115]; [45; 97]] (<[1 := OPipeW 0]> demo_table))
             (SFork (SRun [[119; 99]] (<[1 := OFile [120] WRITE_MODE]> (<[0 := OPipeR 0]> demo_table)))
                (SWait demo_table (SWait demo_table SDone))))
      (SWait demo_table (SFork (SRun [[115; 104]] demo_table) SDone)).
Proof.
  assert (Hs : std demo_table) by (split; eexists; reflexivity). split; [exact Hs|].
  destruct (runcmd_plumbing demo_cmd demo_table 0 demo_printable Hs) as [H _]. rewrite H. reflexivity.
Defined.
Definition demo_line : list Z := print_cmd demo_cmd ++ [0].
Lemma parsecmd_strings_witness :
  (strlen demo_line < length demo_line)%nat /\
  ((exists msg, parsecmd demo_line = Crash msg) \/
   exists c b, parsecmd demo_line = Done (c, b) (strlen demo_line) /\ length (words c) = 5%nat).
Proof.
  assert (Hl : (strlen demo_line < length demo_line)%nat) by (vm_compute; lia).
  split; [exact Hl|]. destruct (parsecmd_strings _ Hl) as [H|(c & b & H & _)]; [left; exact H|right].
  exists c, b. split; [exact H|]. vm_compute in H. injection H as <- _. reflexivity.
Defined.
