(* ===== verification/Progs.v ===== *)
(** * The small user programs (wc.c, cat.c, grep.c, echo.c, ls.c, rm.c, mkdir.c, ln.c,
    kill.c, init.c, zombie.c, stat of ulib.c, the start of sh.c)

    The programs are written against the interface [Sys] of the system calls as
    a process sees them, over any state; strings are byte lists without their
    terminator.  A function that may call [exit] returns [false] or [None] when
    it has; [fork] continues as the process that it returns in, and [exec]
    tells whether the process has been replaced.

    What the theorems need of the system is [Stream]: the bytes still to be read
    from a descriptor, of which [read] returns as many as it likes. *)
From S2P Require Import Prelude Mmu Str Printf Store Fs SysFile Grep.

Record ustat := mkUstat { us_type : Z; us_ino : Z; us_size : Z }.

Class Sys (W : Type) := {
  u_open : list Z -> Z -> M W Z;
  u_read : Z -> Z -> M W (Z * list Z);
  u_write : Z -> list Z -> M W Z;
  u_close : Z -> M W unit;
  u_fstat : Z -> M W (option ustat);
  u_dup : Z -> M W Z;
  u_mknod : list Z -> Z -> Z -> M W Z;
  u_unlink : list Z -> M W Z;
  u_mkdir : list Z -> M W Z;
  u_link : list Z -> list Z -> M W Z;
  u_kill : Z -> M W Z;
  u_fork : M W Z;
  u_exec : list Z -> list (list Z) -> M W bool;
  u_wait : M W Z;
  u_sleep : Z -> M W Z;
}.

Definition NLINE : Z := 10.
Definition SLASH : Z := 47.
Definition SPACE : Z := 32.
Definition UBUF : Z := 512.
(** The characters that separate words. *)
Definition SPACES : list Z := [32; 13; 9; 10; 11].

Section Programs.
Context {W : Type} {U : Sys W}.

(** [printf] writes its bytes one at a time; the arguments of "%s" are given by
    their position. *)
Definition uprintf (fd : Z) (fmt : list Z) (strs : list (list Z)) (ap : list Z) : M W unit :=
  for_each (Printf.printf (fun a => default [] (strs !! Z.to_nat (a - 1))) fmt ap) (fun c => _ <~ u_write fd [c] ;; ret tt).
Definition line (s : string) : list Z := bytes s ++ [NLINE].
Definition uputs (fd : Z) (s : string) : M W unit := uprintf fd (line s) [] [].

(** ** wc.c *)
Record counts := mkCounts { wc_l : Z; wc_w : Z; wc_c : Z; wc_in : bool }.
Definition wc_char (k : counts) (x : Z) : counts :=
  let c := s32 (wc_c k + 1) in
  let l := if x =? NLINE then s32 (wc_l k + 1) else wc_l k in
  if bool_decide (strchr SPACES x <> None) then mkCounts l (wc_w k) c false
  else if negb (wc_in k) then mkCounts l (s32 (wc_w k + 1)) c true
  else mkCounts l (wc_w k) c (wc_in k).
Fixpoint wc_loop (fuel : nat) (fd : Z) (k : counts) : M W (option counts) :=
  match fuel with
  | O => fun _ => Spin
  | S fuel =>
      r <~ u_read fd UBUF ;;
      if 0 <? r.1 then wc_loop fuel fd (foldl wc_char k (take (Z.to_nat r.1) r.2))
      else if r.1 <? 0 then ret None
      else ret (Some k)
  end.
Definition wc (fuel : nat) (fd : Z) (name : list Z) : M W bool :=
  r <~ wc_loop fuel fd (mkCounts 0 0 0 false) ;;
  match r with
  | None => uputs 1 "wc: read error" ;;; ret false
  | Some k => uprintf 1 (line "%d %d %d %s") [name] [wc_l k; wc_w k; wc_c k; 1] ;;; ret true
  end.

(** The loop over the arguments of wc and cat: one file after the other, until
    one cannot be opened or the program has called [exit]. *)
Fixpoint each_file (prog : list Z) (body : Z -> list Z -> M W bool) (args : list (list Z)) : M W unit :=
  match args with
  | [] => ret tt
  | a :: args =>
      fd <~ u_open a 0 ;;
      if fd <? 0 then uprintf 1 (prog ++ line ": cannot open %s") [a] [1]
      else
        live <~ body fd a ;;
        if (live : bool) then u_close fd ;;; each_file prog body args else ret tt
  end.
Definition wc_main (fuel : nat) (argv : list (list Z)) : M W unit :=
  if (length argv <=? 1)%nat then _ <~ wc fuel 0 [] ;; ret tt
  else each_file (bytes "wc") (wc fuel) (drop 1 argv).

(** ** cat.c *)
Fixpoint cat (fuel : nat) (fd : Z) : M W bool :=
  match fuel with
  | O => fun _ => Spin
  | S fuel =>
      r <~ u_read fd UBUF ;;
      if 0 <? r.1 then
        w <~ u_write 1 (take (Z.to_nat r.1) r.2) ;;
        if negb (w =? r.1) then uputs 1 "cat: write error" ;;; ret false
        else cat fuel fd
      else if r.1 <? 0 then uputs 1 "cat: read error" ;;; ret false
      else ret true
  end.
Definition cat_main (fuel : nat) (argv : list (list Z)) : M W unit :=
  if (length argv <=? 1)%nat then _ <~ cat fuel 0 ;; ret tt
  else each_file (bytes "cat") (fun fd _ => cat fuel fd) (drop 1 argv).

(** ** grep.c, with the matcher and the lines of the file Grep: the inner loop,
    which returns the bytes from [p] on at its end, and the loop of reads *)
Fixpoint scan_lines (fuel : nat) (pattern p : list Z) : M W (list Z) :=
  match fuel with
  | O => ret p
  | S fuel =>
      match split_line p with
      | Some (l, rest) =>
          when (match_ pattern l) (_ <~ u_write 1 (l ++ [NL]) ;; ret tt) ;;;
          scan_lines fuel pattern rest
      | None => ret p
      end
  end.
Fixpoint grep_fd (fuel : nat) (pattern : list Z) (fd : Z) (buf : list Z) : M W unit :=
  match fuel with
  | O => fun _ => Spin
  | S fuel =>
      r <~ u_read fd (Z.of_nat BUFSIZE - Z.of_nat (length buf) - 1) ;;
      if 0 <? r.1 then
        let buf := buf ++ take (Z.to_nat r.1) r.2 in
        p <~ scan_lines (length buf) pattern buf ;;
        grep_fd fuel pattern fd (if Nat.eqb (length p) (length buf) then [] else p)
      else ret tt
  end.
Definition grep_main (fuel : nat) (argv : list (list Z)) : M W unit :=
  match argv with
  | _ :: pattern :: [] => grep_fd fuel pattern 0 []
  | _ :: pattern :: files => each_file (bytes "grep") (fun fd _ => grep_fd fuel pattern fd [] ;;; ret true) files
  | _ => uputs 2 "usage: grep pattern [file ...]"
  end.

(** ** echo.c *)
Fixpoint echo (args : list (list Z)) : M W unit :=
  match args with
  | [] => ret tt
  | a :: args => uprintf 1 (bytes "%s%s") [a; if args is [] then [NLINE] else [SPACE]] [1; 2] ;;; echo args
  end.
Definition echo_main (argv : list (list Z)) : M W unit := echo (drop 1 argv).

(** ** ls.c: the part of [path] after its last slash, looked for from index [n]
    backwards *)
Fixpoint after_slash (path : list Z) (n : nat) : nat :=
  if default 0 (path !! n) =? SLASH then S n
  else match n with O => O | S m => after_slash path m end.
Definition fmtname (path : list Z) : list Z :=
  let p := drop (after_slash path (length path)) path in
  if DIRSIZ <=? Z.of_nat (length p) then p
  else p ++ replicate (Z.to_nat DIRSIZ - length p) SPACE.
Definition ls_line (path : list Z) (st : ustat) : M W unit :=
  uprintf 1 (line "%s %d %d %d") [fmtname path] [1; us_type st; us_ino st; us_size st].

Definition stat (n : list Z) : M W (option ustat) :=
  fd <~ u_open n O_RDONLY ;;
  if fd <? 0 then ret None
  else
    r <~ u_fstat fd ;;
    u_close fd ;;; ret r.

(** The name of a directory entry, up to its first NUL. *)
Fixpoint until_nul (s : list Z) : list Z :=
  match s with [] => [] | c :: s => if c =? 0 then [] else c :: until_nul s end.
Fixpoint ls_entries (fuel : nat) (fd : Z) (path : list Z) : M W unit :=
  match fuel with
  | O => fun _ => Spin
  | S fuel =>
      r <~ u_read fd DIRENT ;;
      if negb (r.1 =? DIRENT) then ret tt
      else if get16 r.2 0 =? 0 then ls_entries fuel fd path
      else
        let buf := path ++ SLASH :: until_nul (take (Z.to_nat DIRSIZ) (drop 2 r.2)) in
        st <~ stat buf ;;
        match st with
        | None => uprintf 1 (line "ls: cannot stat %s") [buf] [1]
        | Some st => ls_line buf st
        end ;;;
        ls_entries fuel fd path
  end.
Definition ls (fuel : nat) (path : list Z) : M W unit :=
  fd <~ u_open path 0 ;;
  if fd <? 0 then uprintf 2 (line "ls: cannot open %s") [path] [1]
  else
    st <~ u_fstat fd ;;
    match st with
    | None => uprintf 2 (line "ls: cannot stat %s") [path] [1]
    | Some st =>
        if us_type st =? T_FILE then ls_line path st
        else if us_type st =? T_DIR then
          if UBUF <? Z.of_nat (length path) + 1 + DIRSIZ + 1 then uputs 1 "ls: path too long"
          else ls_entries fuel fd path
        else ret tt
    end ;;;
    u_close fd.
Definition ls_main (fuel : nat) (argv : list (list Z)) : M W unit :=
  if (length argv <? 2)%nat then ls fuel (bytes ".") else for_each (drop 1 argv) (ls fuel).

(** ** rm.c, mkdir.c: one name after the other, until one fails *)
Fixpoint until_failure (call : list Z -> M W Z) (msg : list Z) (args : list (list Z)) : M W unit :=
  match args with
  | [] => ret tt
  | a :: args =>
      r <~ call a ;;
      if r <? 0 then uprintf 2 msg [a] [1] else until_failure call msg args
  end.
Definition rm_main (argv : list (list Z)) : M W unit :=
  if (length argv <? 2)%nat then uputs 2 "Usage: rm files..."
  else until_failure u_unlink (line "rm: %s failed to delete") (drop 1 argv).
Definition mkdir_main (argv : list (list Z)) : M W unit :=
  if (length argv <? 2)%nat then uputs 2 "Usage: mkdir files..."
  else until_failure u_mkdir (line "mkdir: %s failed to create") (drop 1 argv).

(** ** ln.c, kill.c, zombie.c *)
Definition ln_main (argv : list (list Z)) : M W unit :=
  match argv with
  | [_; old; new] =>
      r <~ u_link old new ;;
      if r <? 0 then uprintf 2 (line "link %s %s: failed") [old; new] [1; 2] else ret tt
  | _ => uputs 2 "Usage: ln old new"
  end.
Definition kill_main (argv : list (list Z)) : M W unit :=
  if (length argv <? 2)%nat then uputs 2 "usage: kill pid..."
  else for_each (drop 1 argv) (fun a => _ <~ u_kill (atoi a) ;; ret tt).
Definition zombie_main : M W unit :=
  pid <~ u_fork ;;
  if 0 <? pid then _ <~ u_sleep 5 ;; ret tt else ret tt.

(** ** init.c *)
Definition CONSOLE_PATH : list Z := bytes "console".
Definition init_console : M W unit :=
  fd <~ u_open CONSOLE_PATH O_RDWR ;;
  (if fd <? 0 then _ <~ u_mknod CONSOLE_PATH 1 1 ;; _ <~ u_open CONSOLE_PATH O_RDWR ;; ret tt else ret tt) ;;;
  _ <~ u_dup 0 ;; _ <~ u_dup 0 ;; ret tt.
Fixpoint init_reap (fuel : nat) (pid : Z) : M W unit :=
  match fuel with
  | O => fun _ => Spin
  | S fuel =>
      wpid <~ u_wait ;;
      if (0 <=? wpid) && negb (wpid =? pid) then uputs 1 "zombie!" ;;; init_reap fuel pid else ret tt
  end.
(** One turn of the loop of [main]; [false] when the process has exited or has
    become the shell. *)
Definition init_round (fuel : nat) : M W bool :=
  uputs 1 "init: starting sh" ;;;
  pid <~ u_fork ;;
  if pid <? 0 then uputs 1 "init: fork failed" ;;; ret false
  else if pid =? 0 then
    replaced <~ u_exec (bytes "sh") [bytes "sh"] ;;
    (if (replaced : bool) then ret tt else uputs 1 "init: exec sh failed") ;;; ret false
  else init_reap fuel pid ;;; ret true.
Fixpoint init_rounds (fuel : nat) : M W unit :=
  match fuel with
  | O => fun _ => Spin
  | S fuel => live <~ init_round fuel ;; if (live : bool) then init_rounds fuel else ret tt
  end.
Definition init_main (fuel : nat) : M W unit := init_console ;;; init_rounds fuel.

(** ** sh.c: the start of [main], which makes the first three descriptors refer
    to the console *)
Fixpoint open_descriptors (fuel : nat) : M W unit :=
  match fuel with
  | O => fun _ => Spin
  | S fuel =>
      fd <~ u_open CONSOLE_PATH O_RDWR ;;
      if 0 <=? fd then if 3 <=? fd then u_close fd else open_descriptors fuel
      else ret tt
  end.
End Programs.

(** ** A system whose descriptors are streams *)
Class Stream (W : Type) {U : Sys W} := {
  pending : W -> Z -> list Z;
  output : W -> Z -> list Z;
  (** [read] returns some of the pending bytes, at least one if there are any. *)
  read_stream : forall fd n w, 0 < n ->
    exists data rest w', u_read fd n w = Done (Z.of_nat (length data), data) w' /\
      pending w fd = data ++ rest /\ Z.of_nat (length data) <= n /\ (data = [] -> rest = []) /\
      pending w' fd = rest /\ (forall e, output w' e = output w e);
  write_stream : forall fd data w,
    exists w', u_write fd data w = Done (Z.of_nat (length data)) w' /\
      (forall e, pending w' e = pending w e) /\
      (forall e, output w' e = output w e ++ (if e =? fd then data else []));
}.

(** Reading [fd] to its end and adding [out] to the standard output. *)
Definition consumes {W} {U : Sys W} {L : Stream W} (fd : Z) (out : list Z) (w w' : W) : Prop :=
  pending w' fd = [] /\ forall e, output w' e = output w e ++ (if e =? 1 then out else []).

Section Streams.
Context {W : Type} {U : Sys W} {L : Stream W}.
Implicit Types (w : W) (fd : Z) (k : counts).

Lemma write_each_stream fd l w :
  exists w', for_each l (fun c => _ <~ u_write fd [c] ;; ret tt) w = Done tt w' /\
    (forall e, pending w' e = pending w e) /\ forall e, output w' e = output w e ++ (if e =? fd then l else []).
Proof.
  revert w. induction l as [|c l IH]; intros w; cbn [for_each].
  - exists w. split_and!; [done|done|]. intros e. destruct (e =? fd); by rewrite app_nil_r.
  - destruct (write_stream fd [c] w) as (w1 & R1 & P1 & O1), (IH w1) as (w2 & R2 & P2 & O2). exists w2. split_and!.
    + erewrite bind_done; [exact R2|]. erewrite bind_done; [reflexivity|exact R1].
    + intros e. by rewrite P2, P1.
    + intros e. rewrite O2, O1. destruct (e =? fd); cbn; by rewrite <- ?app_assoc, ?app_nil_r.
Qed.

Lemma wc_loop_stream fuel fd k w : (length (pending w fd) < fuel)%nat ->
  exists w', wc_loop fuel fd k w = Done (Some (foldl wc_char k (pending w fd))) w' /\ consumes fd [] w w'.
Proof.
  revert k w. induction fuel as [|fuel IH]; intros k w H; [lia|]. cbn [wc_loop].
  destruct (read_stream fd UBUF w ltac:(done)) as (d & r & w1 & R & Hp & Hl & He & Hp1 & Ho). rewrite (bind_done _ _ _ _ _ R). cbn [fst snd].
  rewrite Nat2Z.id, firstn_all. destruct d as [|x d].
  - rewrite Hp, He in * by done. exists w1. split; [done|]. split; [done|]. intros e. rewrite Ho. by destruct (e =? 1); rewrite app_nil_r.
  - replace (0 <? Z.of_nat (length (x :: d))) with true by (cbn [length]; lia). rewrite Hp, length_app in H. cbn [length] in H.
    destruct (IH (foldl wc_char k (x :: d)) w1) as (w2 & R2 & Hp2 & Ho2); [rewrite Hp1; lia|].
    exists w2. rewrite R2, Hp1, Hp, foldl_app. split; [done|]. split; [done|]. intros e. by rewrite Ho2, Ho.
Qed.

(** cat copies what it reads. *)
Theorem cat_copies fuel fd w : (length (pending w fd) < fuel)%nat ->
  exists w', cat fuel fd w = Done true w' /\ consumes fd (pending w fd) w w'.
Proof.
  revert w. induction fuel as [|fuel IH]; intros w H; [lia|]. cbn [cat].
  destruct (read_stream fd UBUF w ltac:(done)) as (d & r & w1 & R & Hp & Hl & He & Hp1 & Ho). rewrite (bind_done _ _ _ _ _ R). cbn [fst snd].
  rewrite Nat2Z.id, firstn_all. destruct d as [|x d].
  - rewrite Hp, He in * by done. exists w1. split; [done|]. split; [done|]. intros e. rewrite Ho. by destruct (e =? 1); rewrite app_nil_r.
  - replace (0 <? Z.of_nat (length (x :: d))) with true by (cbn [length]; lia).
    destruct (write_stream 1 (x :: d) w1) as (w2 & R2 & P2 & O2). rewrite (bind_done _ _ _ _ _ R2), Z.eqb_refl. cbn [negb].
    rewrite Hp, length_app in H. cbn [length] in H. destruct (IH w2) as (w3 & R3 & Hp3 & Ho3); [rewrite P2, Hp1; lia|].
    exists w3. split; [done|]. split; [done|]. intros e. rewrite Ho3, O2, Ho, P2, Hp1, Hp.
    destruct (e =? 1); by rewrite <- ?app_assoc, ?app_nil_r.
Qed.

Lemma scan_lines_stream fuel pattern p w :
  exists w', scan_lines fuel pattern p w = Done (scan fuel pattern p).2 w' /\ (forall e, pending w' e = pending w e) /\
    forall e, output w' e = output w e ++ (if e =? 1 then (scan fuel pattern p).1 else []).
Proof.
  revert p w. induction fuel as [|fuel IH]; intros p w; cbn [scan scan_lines].
  { exists w. split_and!; [done|done|]. intros e. by destruct (e =? 1); rewrite app_nil_r. }
  destruct (split_line p) as [[l rest]|]; [|exists w; split_and!; [done|done|]; intros e; by destruct (e =? 1); rewrite app_nil_r].
  assert (H : exists w1, when (match_ pattern l) (_ <~ u_write 1 (l ++ [NL]) ;; ret tt) w = Done tt w1 /\
    (forall e, pending w1 e = pending w e) /\
    forall e, output w1 e = output w e ++ (if e =? 1 then if match_ pattern l then l ++ [NL] else [] else [])).
  { destruct (match_ pattern l); cbn [when].
    - destruct (write_stream 1 (l ++ [NL]) w) as (w1 & R & P & O). exists w1. by rewrite (bind_done _ _ _ _ _ R).
    - exists w. split_and!; [done|done|]. intros e. by destruct (e =? 1); rewrite app_nil_r. }
  destruct H as (w1 & R1 & P1 & O1), (IH rest w1) as (w2 & R2 & P2 & O2). rewrite (bind_done _ _ _ _ _ R1). exists w2.
  destruct (scan fuel pattern rest) as [out p']. split_and!; [done|intros e; by rewrite P2, P1|].
  intros e. rewrite O2, O1. destruct (e =? 1); by rewrite <- ?app_assoc, ?app_nil_r.
Qed.

Lemma scan_length fuel pattern p : (length (scan fuel pattern p).2 <= length p)%nat.
Proof.
  revert p. induction fuel as [|fuel IH]; intros p; cbn [scan]; [done|]. destruct (split_line p) as [[l rest]|] eqn:E; [|done].
  apply split_line_Some in E as [-> _]. specialize (IH rest). destruct (scan fuel pattern rest). rewrite length_app. cbn in *. lia.
Qed.

(** grep on a stream is the function [Grep.grep] on its bytes, for the amounts
    [ks] that the reads return. *)
Theorem grep_on_stream fuel pattern fd buf w :
  (length buf < BUFSIZE - 1)%nat -> (length (pending w fd) < fuel)%nat ->
  exists ks w', grep_fd fuel pattern fd buf w = Done tt w' /\ sum_list ks = length (pending w fd) /\
    consumes fd (grep ks pattern (pending w fd) buf) w w'.
Proof.
  revert buf w. induction fuel as [|fuel IH]; intros buf w Hb H; [lia|]. cbn [grep_fd].
  destruct (read_stream fd (Z.of_nat BUFSIZE - Z.of_nat (length buf) - 1) w ltac:(lia)) as (d & r & w1 & R & Hp & Hl & He & Hp1 & Ho).
  rewrite (bind_done _ _ _ _ _ R). cbn [fst snd]. rewrite Nat2Z.id, firstn_all. destruct d as [|x d].
  - rewrite Hp, He in * by done. exists [], w1. split; [done|]. split; [done|]. split; [done|]. intros e. rewrite Ho. by destruct (e =? 1); rewrite app_nil_r.
  - replace (0 <? Z.of_nat (length (x :: d))) with true by (cbn [length]; lia). rewrite Hp in H |- *. set (n := length (x :: d)) in *.
    set (buf' := buf ++ x :: d). destruct (scan_lines_stream (length buf') pattern buf' w1) as (w2 & R2 & P2 & O2).
    rewrite (bind_done _ _ _ _ _ R2). pose proof (scan_length (length buf') pattern buf') as Hs. rewrite length_app in H.
    assert (Hb' : (length buf' <= BUFSIZE - 1)%nat) by (unfold buf'; rewrite length_app; fold n; lia). assert (0 < n)%nat by (cbn; lia).
    set (kept := if Nat.eqb _ _ then [] else _). assert (Hk : (length kept < BUFSIZE - 1)%nat).
    { unfold kept. destruct (Nat.eqb_spec (length (scan (length buf') pattern buf').2) (length buf')); [cbn; lia|lia]. }
    destruct (IH kept w2 Hk) as (ks & w3 & R3 & Hks & Hp3 & Ho3); [rewrite P2, Hp1; lia|]. rewrite P2, Hp1 in Hks, Ho3.
    exists (n :: ks), w3. split; [done|]. split; [rewrite length_app; fold n; rewrite <- Hks; reflexivity|]. split; [done|]. intros e. rewrite Ho3, O2, Ho. cbn [grep].
    replace (Nat.min n _) with n by (rewrite length_app; fold n; lia). replace (Nat.eqb n 0) with false by (symmetry; apply Nat.eqb_neq; lia).
    unfold n. rewrite take_app_length, drop_app_length. fold buf'. unfold kept. destruct (scan (length buf') pattern buf') as [out p'].
    destruct (e =? 1); by rewrite <- ?app_assoc, ?app_nil_r.
Qed.
End Streams.

(** ** Counting *)
Definition space (x : Z) : Prop := x ∈ SPACES.
#[export] Instance space_dec x : Decision (space x) := _.

(** The words of a text: maximal runs of characters that are not spaces. *)
Inductive tokens : list Z -> list (list Z) -> Prop :=
| tokens_nil : tokens [] []
| tokens_space x s ws : space x -> tokens s ws -> tokens (x :: s) ws
| tokens_word u s ws : u <> [] -> Forall (fun x => ~ space x) u -> (forall x, head s = Some x -> space x) ->
    tokens s ws -> tokens (u ++ s) (u :: ws).

Definition newlines (s : list Z) : Z := Z.of_nat (length (filter (fun x => x = NLINE) s)).

(** Every text has its words. *)
Lemma tokens_exist s : exists ws, tokens s ws.
Proof.
  assert (G : exists ws, tokens s ws /\ (forall x, head s = Some x -> ~ space x -> exists u r vs, s = u ++ r /\ ws = u :: vs /\
    u <> [] /\ Forall (fun x => ~ space x) u /\ (forall x, head r = Some x -> space x) /\ tokens r vs)).
  { induction s as [|x s (ws & Hw & Hs)]; [exists []; split; [constructor|done]|]. destruct (decide (space x)) as [X|X].
    - exists ws. split; [by constructor|]. intros ? [= <-] N. done.
    - destruct s as [|y s].
      + exists [[x]]. split; [change [x] with ([x] ++ []); constructor; [done|by constructor|done|constructor]|].
        intros ? _ _. exists [x], [], []. split_and!; try done; [by constructor|constructor].
      + destruct (decide (space y)) as [Y|Y].
        * assert (HF : Forall (fun z => ~ space z) [x]) by (by constructor).
          assert (HH : forall z, head (y :: s) = Some z -> space z) by (by intros ? [= <-]).
          exists ([x] :: ws). split; [change (x :: y :: s) with ([x] ++ y :: s); by constructor|].
          intros ? _ _. by exists [x], (y :: s), ws.
        * destruct (Hs y eq_refl Y) as (u & r & vs & E & -> & Hu & HF & HH & Ht).
          assert (HF' : Forall (fun z => ~ space z) (x :: u)) by (by constructor).
          exists ((x :: u) :: vs). rewrite E. split; [change (x :: u ++ r) with ((x :: u) ++ r); by constructor|].
          intros ? _ _. by exists (x :: u), r, vs. }
  destruct G as (ws & G & _). by exists ws.
Qed.

(** The counters of [wc] after [l] lines, [w] words and [c] characters. *)
Definition counted (l w c : Z) (b : bool) : counts := mkCounts (s32 l) (s32 w) (s32 c) b.

Lemma s32_add_l a b : s32 (s32 a + b) = s32 (a + b).
Proof. unfold s32. change (2 ^ 32) with 4294967296. change (2 ^ 31) with 2147483648. Z.to_euclidean_division_equations; lia. Qed.

Lemma s32_s32 a : s32 (s32 a) = s32 a.
Proof. pose proof (s32_add_l a 0) as H. by rewrite !Z.add_0_r in H. Qed.

Lemma strchr_space x : strchr SPACES x <> None <-> space x.
Proof.
  unfold space, SPACES. rewrite !elem_of_cons, elem_of_nil. cbn [strchr]. cbn -[Z.eqb].
  repeat match goal with |- context [Z.eqb ?a x] => destruct (Z.eqb_spec a x) as [<-|?]; [split; [tauto|done]|]; cbn -[Z.eqb] end.
  split; [done|]. intuition congruence.
Qed.

Lemma wc_char_space x l w c b : space x -> wc_char (counted l w c b) x = counted (l + newlines [x]) w (c + 1) false.
Proof.
  intros H. unfold wc_char. rewrite bool_decide_true by by apply strchr_space. unfold counted, newlines. cbn [wc_l wc_w wc_c].
  rewrite !s32_add_l. destruct (Z.eqb_spec x NLINE) as [E|E].
  - rewrite filter_cons_True by done. done.
  - rewrite filter_cons_False by done. cbn. by rewrite Z.add_0_r.
Qed.

Lemma wc_char_word x l w c b : ~ space x -> wc_char (counted l w c b) x = counted l (if b then w else w + 1) (c + 1) true.
Proof.
  intros H. unfold wc_char. rewrite bool_decide_false by by rewrite strchr_space. unfold counted. cbn [wc_l wc_w wc_c wc_in].
  replace (x =? NLINE) with false; [by destruct b; cbn [negb]; rewrite !s32_add_l|].
  symmetry. apply Z.eqb_neq. intros ->. apply H. unfold space, SPACES, NLINE. set_solver.
Qed.

Lemma wc_run u l w c : Forall (fun x => ~ space x) u ->
  foldl wc_char (counted l w c true) u = counted l w (c + Z.of_nat (length u)) true.
Proof.
  intros H. revert c. induction H as [|x u Hx _ IH]; intros c; cbn [foldl length]; [by rewrite Z.add_0_r|].
  rewrite wc_char_word, IH by done. f_equal. lia.
Qed.

Lemma newlines_app s t : newlines (s ++ t) = newlines s + newlines t.
Proof. unfold newlines. rewrite list.filter_app, length_app. lia. Qed.

Lemma newlines_word u : Forall (fun x => ~ space x) u -> newlines u = 0.
Proof.
  induction 1 as [|x u Hx _ IH]; [done|]. change (x :: u) with ([x] ++ u). rewrite newlines_app, IH. unfold newlines.
  rewrite filter_cons_False; [done|]. intros ->. apply Hx. unfold space, SPACES, NLINE. set_solver.
Qed.

Lemma wc_counts_tokens s ws : tokens s ws -> forall l w c b, (b = true -> forall x, head s = Some x -> space x) ->
  exists b', foldl wc_char (counted l w c b) s =
    counted (l + newlines s) (w + Z.of_nat (length ws)) (c + Z.of_nat (length s)) b'.
Proof.
  induction 1 as [|x s ws Hx _ IH|u s ws Hu HF Hh _ IH]; intros l w c b Hb.
  - exists b. cbn. by rewrite !Z.add_0_r.
  - cbn [foldl]. rewrite wc_char_space by done. destruct (IH (l + newlines [x]) w (c + 1) false) as [b' E]; [done|]. exists b'. rewrite E.
    change (x :: s) with ([x] ++ s). rewrite newlines_app. cbn [length app]. f_equal; lia.
  - destruct u as [|x u]; [done|]. apply Forall_cons in HF as HF'. destruct HF' as [Hx HF'].
    destruct b; [by destruct (Hx (Hb eq_refl x eq_refl))|]. rewrite foldl_app. cbn [foldl]. rewrite wc_char_word, wc_run by done.
    destruct (IH l (w + 1) (c + 1 + Z.of_nat (length u)) true) as [b' E]; [done|]. exists b'. rewrite E, newlines_app, (newlines_word (x :: u)) by done.
    rewrite length_app. cbn [length]. f_equal; lia.
Qed.

Lemma wc_line l w c name : printf (fun a => default [] ([name] !! Z.to_nat (a - 1))) (line "%d %d %d %s") [l; w; c; 1] =
  printint (s32 l) 10 true ++ [SPACE] ++ printint (s32 w) 10 true ++ [SPACE] ++ printint (s32 c) 10 true ++ [SPACE] ++ name ++ [NLINE].
Proof. change (line "%d %d %d %s") with [37; 100; 32; 37; 100; 32; 37; 100; 32; 37; 115; 10]. reflexivity. Qed.

(** C26. wc, on a descriptor from which [read] returns the bytes of a text in
    pieces of any size, ends after reading them all, and prints one line with the
    number of newlines, of words (maximal runs of characters that are not spaces)
    and of bytes of the text, as 32-bit integers, and the name; the pieces do not
    matter, a word or a line may lie across them. *)
Theorem wc_counts {W : Type} {U : Sys W} {L : Stream W} (fuel : nat) (fd : Z) (name : list Z) (w : W) (ws : list (list Z))
  (Hfuel : (length (pending w fd) < fuel)%nat) (Hwords : tokens (pending w fd) ws) :
  exists w', wc fuel fd name w = Done true w' /\
    consumes fd (printint (s32 (newlines (pending w fd))) 10 true ++ [SPACE] ++
      printint (s32 (Z.of_nat (length ws))) 10 true ++ [SPACE] ++
      printint (s32 (Z.of_nat (length (pending w fd)))) 10 true ++ [SPACE] ++ name ++ [NLINE]) w w'.
Proof.
  destruct (wc_loop_stream fuel fd (counted 0 0 0 false) w Hfuel) as (w1 & R1 & Hp1 & Ho1).
  destruct (wc_counts_tokens _ _ Hwords 0 0 0 false ltac:(done)) as [b E]. rewrite E in R1. cbn [Z.add] in R1.
  unfold wc. rewrite (bind_done _ _ _ _ _ R1). cbn [counted wc_l wc_w wc_c]. unfold uprintf.
  match goal with |- context [for_each ?t _] => destruct (write_each_stream 1 t w1) as (w2 & R2 & P2 & O2) end.
  exists w2. split; [by rewrite (bind_done _ _ _ _ _ R2)|]. split; [by rewrite P2|]. intros e. rewrite O2, Ho1.
  destruct (e =? 1); rewrite ?app_nil_r; [|done]. by rewrite wc_line, !s32_s32.
Qed.

(** A system with streams only, whose [read] returns at most three bytes. *)
Module Demo.
Record world := mkWorld { w_in : list Z; w_out : list (Z * list Z) }.
Definition written (l : list (Z * list Z)) (fd : Z) : list Z := concat (snd <$> filter (fun p => p.1 = fd) l).
Definition read3 (fd n : Z) : M world (Z * list Z) := fun w =>
  let d := take (Z.to_nat (Z.min n 3)) (w_in w) in
  Done (Z.of_nat (length d), d) (mkWorld (drop (Z.to_nat (Z.min n 3)) (w_in w)) (w_out w)).
Definition write_out (fd : Z) (d : list Z) : M world Z := fun w =>
  Done (Z.of_nat (length d)) (mkWorld (w_in w) (w_out w ++ [(fd, d)])).
#[export] Instance demo_sys : Sys world := {|
  u_open _ _ := ret (-1); u_read := read3; u_write := write_out; u_close _ := ret tt; u_fstat _ := ret None;
  u_dup _ := ret (-1); u_mknod _ _ _ := ret (-1); u_unlink _ := ret (-1); u_mkdir _ := ret (-1); u_link _ _ := ret (-1);
  u_kill _ := ret (-1); u_fork := ret (-1); u_exec _ _ := ret false; u_wait := ret (-1); u_sleep _ := ret (-1) |}.
#[export] Program Instance demo_stream : Stream world := {| pending w _ := w_in w; output w fd := written (w_out w) fd |}.
Next Obligation.
  intros fd n w H. cbn. exists (take (Z.to_nat (Z.min n 3)) (w_in w)), (drop (Z.to_nat (Z.min n 3)) (w_in w)). eexists.
  split_and!; [reflexivity|by rewrite take_drop|rewrite length_take; lia| |done|done]. intros E. destruct (w_in w) as [|x s]; [by rewrite drop_nil|].
  replace (Z.to_nat (Z.min n 3)) with (S (Nat.pred (Z.to_nat (Z.min n 3)))) in E by lia. discriminate.
Qed.
Next Obligation.
  intros fd d w. eexists. split_and!; [reflexivity|done|]. intros e. cbn [w_out output]. unfold written.
  rewrite list.filter_app, fmap_app, concat_app. f_equal. cbn. destruct (Z.eqb_spec e fd) as [->|E].
  - rewrite decide_True by done. cbn. by rewrite app_nil_r.
  - by rewrite decide_False by done.
Qed.

(** "to be\n or" *)
Definition text : list Z := [116; 111; 32; 98; 101; 10; 32; 111; 114].
End Demo.
Import Demo.

Lemma wc_counts_witness :
  exists w', wc 10 0 (bytes "f") (Demo.mkWorld Demo.text []) = Done true w' /\ consumes 0 (line "1 3 9 f") (Demo.mkWorld Demo.text []) w'.
Proof.
  apply (wc_counts (L := Demo.demo_stream) 10 0 (bytes "f") (Demo.mkWorld Demo.text []) [[116; 111]; [98; 101]; [111; 114]]); [cbn; lia|].
  assert (D : forall x, bool_decide (space x) = true -> space x) by (intros; by eapply bool_decide_unpack, Is_true_true).
  assert (N : forall x, bool_decide (space x) = false -> ~ space x) by (intros x; apply bool_decide_eq_false_1).
  change (tokens ([116; 111] ++ 32 :: [98; 101] ++ 10 :: 32 :: [111; 114] ++ []) [[116; 111]; [98; 101]; [111; 114]]).
  repeat first [apply tokens_space; [by apply D|] | apply tokens_nil |
    apply tokens_word; [done|repeat first [apply Forall_nil_2 | apply Forall_cons_2; [by apply N|]]|intros x [= <-]; by apply D|]].
Defined.

(** ** The names ls prints *)
Lemma after_slash_last s dir n : Forall (fun x => x <> SLASH) s ->
  after_slash (dir ++ SLASH :: s) (length dir + n) = S (length dir).
Proof.
  intros H. induction n as [|n IH].
  - rewrite Nat.add_0_r. destruct (length dir) as [|d] eqn:E; cbn [after_slash]; rewrite <- E, lookup_app_r, Nat.sub_diag by lia; done.
  - replace (length dir + S n)%nat with (S (length dir + n)) by lia. cbn [after_slash].
    rewrite lookup_app_r by lia. replace (S (length dir + n) - length dir)%nat with (S n) by lia. cbn [lookup list_lookup].
    replace (default 0 (s !! n) =? SLASH) with false; [exact IH|].
    symmetry. apply Z.eqb_neq. destruct (s !! n) as [x|] eqn:E; [|done]. by apply (Forall_lookup_1 _ _ _ _ H E).
Qed.

(** ls prints a path as its last component, padded with blanks to the width of a
    directory entry's name. *)
Theorem fmtname_last dir s : Forall (fun x => x <> SLASH) s ->
  fmtname (dir ++ SLASH :: s) = s ++ replicate (Z.to_nat DIRSIZ - length s) SPACE.
Proof.
  intros H. unfold fmtname. rewrite length_app. rewrite after_slash_last by done.
  replace (drop (S (length dir)) (dir ++ SLASH :: s)) with s
    by (rewrite cons_middle, app_assoc, drop_app_length' by (rewrite length_app; cbn; lia); done).
  destruct (Z.leb_spec DIRSIZ (Z.of_nat (length s))) as [E|E]; [|done].
  replace (Z.to_nat DIRSIZ - length s)%nat with 0%nat by (unfold DIRSIZ in *; lia). by rewrite app_nil_r.
Qed.
